(* ===== verification/_CoqProject ===== *)
-Q . S2P
Prelude.v
Rle.v
Varatt.v
Pglz.v
PglzHist.v
PglzItems.v
PglzCodec.v
ToastCompression.v
Oids.v
ToastStore.v
Detoast.v
ToastSave.v
HeapTuple.v
HeapTupleForm.v
HeapTupleDeform.v
HeapTupleGetattr.v
HeapToast.v
HeapToastValues.v
HeapTupleExpand.v
HeapToastRounds.v
HeapToastUpdate.v
Hocotext.v
HocotextCmp.v
HocotextExtract.v
Wchar.v
Mbchar.v
Utf8.v
StringInfo.v
PqFormat.v
Text.v
TextOps.v
TextCmp.v
TextSearch.v
TextSearchBmh.v
TextSearchOps.v
Page.v
PageOk.v
PageOps.v
PageCompact.v
PageIndex.v
HeapInsert.v
Encode.v
EncodeOk.v
Bytea.v
ByteaOk.v
StringAgg.v
FsmPage.v
Fsm.v
FsmOk.v
HeapSpace.v
HeapSpaceOk.v
