(* ===== verification/Prelude.v ===== *)
(** Verification of the HOCO storage path.

    HOCO is a fork of PostgreSQL 16.0 that stores text in a run-length compressed form and
    works on that form without decompressing it.  This development models, at the level of
    bytes, the path such a value takes: the codecs, the headers of variable-length data, the
    toaster that compresses values or moves them to a table of chunks, the heap tuples that
    hold what the toaster leaves, the pages the tuples are stored on, the hocotext type that compares and cuts compressed values,
    and the text type whose operations hocotext has to agree with.  Paths below are relative
    to src/postgresql-16.0/.

    How the parts work together.  A row is formed by heap_form_tuple (HeapTuple).  If it is
    too wide, heap_toast_insert_or_update (HeapToast) compresses its values
    (ToastCompression, on the codecs Rle and Pglz), moves them out of line (ToastStore, with
    value ids from Oids), and forms the tuple again.  heap_insert (HeapInsert) puts the tuple
    into a slot of a page (Page), which is found by way of the free space map (HeapSpace, Fsm),
    and from where heap_fetch reads it.  A reader gets at a column with
    heap_deform_tuple or heap_getattr and at its contents with detoast_attr and its relatives
    (Detoast).  The operators of hocotext (Hocotext) take a datum in any of these forms and
    work on the tokens of the run-length code; those of text (Text, TextSearch) detoast it, or
    a slice of it, and work on its characters, whose lengths and validity are the business of
    Wchar.  The relation [holds E v data] of Detoast, "the datum v stands for the bytes data",
    is the interface between the two halves: the storage theorems establish it, the theorems
    about operators assume it, and what else they assume is listed below.

    Conventions.  A C integer is a Z; where its width matters the wrap-around is written out
    ([wrap32], [int32_of]).  Memory is a list of bytes; reads and writes are checked and an
    access outside gives [Ub], so that a theorem with a result [Ok] is also one of memory
    safety for the memory that is modelled in this way.  The output of a codec is a list that
    grows; whether it fits the memory requested for it is treated apart.  For RLE, which writes
    more than it requests, what is written is compared with the usable size of the chunk
    ([chunk_space], a parameter; AllocSetAlloc's sizes are [AllocSetChunkSize]), and [Ub] is the
    result beyond it.  PGLZ stays within its requests (pglz_compress_output,
    pglz_decompress_safe); for liblz4 this is part of what it documents.  ereport(ERROR) gives [Ereport].  A loop is [iter fuel body state]; the fuel is
    the obvious bound on the number of rounds (the length of the input and one, or 2^32 for
    the counter of object ids; in the free space map 16 rounds from a slot of a page to its root
    or back, two attempts at a page, which a rebuild makes consistent, and 30010 pages for a
    search, three levels for each of at most 10002 starts; in the search for a page for a tuple
    twice the number of blocks and ten), a loop that ran out of it would give
    [Fuel], and the theorems say [Ok] or [Ereport], so they are theorems of total correctness.  Asserts, pfree,
    interrupts and memory contexts are not modelled; palloc is its size check.

    Conditions of the theorems, where the code does not work without them.  [method_ok]: a
    column's compression method can be applied to its value; for RLE this says that the literal
    buffer is not overrun ([rle_buffer_ok]) and that the chunks have a spare byte
    ([compress_room], [value_room]), for LZ4 that liblz4 is there ([Lz4Ok]).  It is part of
    [updatable], which the theorems about the toaster and heap_insert assume.  [value_room] is
    part of [holds] for an RLE value, since detoasting it is undefined without it;
    [slice_fits] is the like for reading a slice.  rle_result_overrun says exactly when these
    fail, and rle_overrun_unreadable and rle_value_lost what becomes of a value whose literals
    overran their buffer.  [comparable_values]: the comparison of hocotext handles compressed
    values only if they are RLE and not next to a one-byte header; hocotext_other_method and
    hocotext_short_misread say what it does otherwise.

    Files, in the order of dependence, with the sources they model:
    - Prelude: results, loops, bytes, little-endian words, the tactics [bind], [zl], [ztests]
      and [solve_bytes].
    - Rle: src/common/rle_compress.c.  The token format as a list of runs and literals; the
      round trip of compressor and decompressor, the prefix property, bounds, and the two ways
      in which the literal buffer loses data.
    - Varatt: src/include/varatt.h and the headers of compressed data; each form of a datum
      with the macros evaluated on it.
    - Pglz, PglzHist, PglzItems, PglzCodec: src/common/pg_lzcompress.c.  The history table as
      linked lists in arrays, the match search, the format as items, compressor and
      decompressor.
    - ToastCompression: src/backend/access/common/toast_compression.c and the compression half
      of toast_internals.c.  liblz4 is a parameter with the class [Lz4Ok] of what its manual
      promises, the allocator one with no more than the size of its chunks.  What a codec
      promises is the class [Codec], with an instance for each method; the values for which RLE
      does not keep the promise.
    - Oids: GetNewObjectId (transam/varsup.c) and GetNewOidWithIndex (catalog/catalog.c).
    - ToastStore, ToastSave: toast_save_datum, toast_delete_datum (toast_internals.c) and
      heap_fetch_toast_slice (heap/heaptoast.c) on a database of chunk rows: what is saved is
      read back, other values are not touched, deleted ones are gone.
    - Detoast: src/backend/access/common/detoast.c and pg_detoast_datum* of fmgr.c.
    - HeapTuple, HeapTupleForm, HeapTupleDeform, HeapTupleGetattr, HeapTupleExpand:
      src/backend/access/common/heaptuple.c.  The layout of a tuple, the round trip of forming
      and deforming, the agreement of the ways to read one column, copies, minimal and
      expanded tuples.
    - HeapToast, HeapToastValues, HeapToastRounds, HeapToastUpdate: access/table/toast_helper.c
      and heap/heaptoast.c.  INSERT, UPDATE and DELETE of wide rows: the row that is stored is
      the row that was given, it fits as far as the storage classes allow, and no value that
      another row refers to is lost.
    - Hocotext, HocotextCmp, HocotextExtract: contrib/hocotext/hocotext.c.  The comparison of
      compressed values token by token against the comparison of their contents; extraction.
    - Wchar, Mbchar, Utf8: src/common/wchar.c, src/include/port/simd.h and the counting
      functions of src/backend/utils/mb/mbutils.c.  Validation in all encodings; the UTF-8
      automaton packed into 32-bit words, with its vector fast path.
    - StringInfo: src/common/stringinfo.c.
    - PqFormat: the pq_send* and pq_getmsg* functions of libpq/pqformat.c and pqformat.h that
      binary values are sent and received with.
    - Text, TextOps, TextCmp: src/backend/utils/adt/varlena.c, text values as sequences of
      characters; the agreement of hocotext with text.
    - TextSearch, TextSearchBmh, TextSearchOps: the text_position_* functions of varlena.c and
      what is built on them.
    - Page, PageOk, PageOps, PageCompact, PageIndex: src/backend/storage/page/bufpage.c with
      bufpage.h and itemid.h.  A page as a list of slots: adding items, deleting and
      overwriting them, defragmenting; the free space a page reports can be used.
    - HeapInsert: RelationPutHeapTuple (heap/hio.c) and the parts of heap_insert and heap_fetch
      (heap/heapam.c) that handle the tuple and its page: a row that was toasted and inserted
      is read back.
    - Encode, EncodeOk: src/backend/utils/adt/encode.c.  The hex, base64 and escape encodings:
      what is encoded is decoded again, the lengths that are computed in advance hold, and
      decoding is memory safe on every input.
    - Bytea, ByteaOk: the bytea type of varlena.c.  Input and output in both formats, the binary
      format, and the functions on bytes and bits against lists of bytes.
    - StringAgg: the string_agg aggregates of varlena.c with their parallel forms: the workers'
      states, serialized, sent, received and combined, give what one process would.
    - FsmPage: src/backend/storage/freespace/fsmpage.c.  A page of the free space map is a
      binary tree of maxima; the search that climbs and descends in it is first fit from a hint,
      and a torn page is repaired.
    - Fsm, FsmOk: src/backend/storage/freespace/freespace.c.  The tree of such pages in a file:
      what is recorded is read back, a search ends and returns a block with enough space, and
      after a vacuum it fails only when there is none; truncation.  The maps that the operations
      make are an inductive relation, [reachable], with its invariant.
    - HeapSpace, HeapSpaceOk: the rest of heap/hio.c, and heap_insert with the page it chooses.
      A page with room for the tuple is always found, because every page that proves too full is
      recorded as such; the row is stored there and all others stay; and the block that
      RelationAddBlocks leaves out when it updates the map.

    Not modelled, and why.  The TADOC prototype (src/common/tadoc_compress.c and
    src/unit-test/) is not built and has no defined behaviour: it does not compile, or writes
    through memory that was never allocated.  Buffers, checksums, locks, visibility and logging
    lie below the pages and tables of rows assumed here, which an operation takes and returns as
    values, as it does the free space map; its use in recovery is left out with the log.  The
    planner, executor, connections and client programs lie above.  The chunk rows of the toast
    tables are rows of a table and are not followed to pages.  Of varlena.c the sort support,
    format and the identifier functions are left out, of wchar.c the conversions to wide
    characters and the display lengths, of pqformat.c the messages of the protocol itself.  The
    program src/unit-test/sequitur.cc only prints and is used by nothing else.  What a collation of
    the operating system says of two strings is a parameter ([strncoll]). *)

From stdpp Require Export base list gmap strings.
From Stdlib Require Export ZArith Lia.

#[global] Open Scope Z_scope.

(** ** Results of C code

    [Ok a] is a normal return, [Ereport e] is PostgreSQL's ereport/elog(ERROR)
    long jump, [Ub] is an access outside the memory the code was given (or a
    memcpy with a negative length), and [Fuel] marks a loop whose fuel ran out;
    every loop is proved not to reach it. *)

Inductive pgerror : Set :=
| ERRCODE_DATA_CORRUPTED
| ERRCODE_INDETERMINATE_COLLATION
| ERRCODE_FEATURE_NOT_SUPPORTED
| ERRCODE_UNIQUE_VIOLATION
| ERRCODE_TOO_MANY_COLUMNS
| ERRCODE_SUBSTRING_ERROR
| ERRCODE_NUMERIC_VALUE_OUT_OF_RANGE
| ERRCODE_INVALID_PARAMETER_VALUE
| ERRCODE_PROGRAM_LIMIT_EXCEEDED
| ERRCODE_INVALID_TRANSACTION_STATE
| ERRCODE_INVALID_TEXT_REPRESENTATION
| ERRCODE_ARRAY_SUBSCRIPT_ERROR
| ERRCODE_PROTOCOL_VIOLATION
| ERRCODE_INTERNAL_ERROR.

#[global] Instance pgerror_eq_dec : EqDecision pgerror.
Proof. solve_decision. Defined.

Inductive res (A : Type) : Type :=
| Ok (a : A)
| Ereport (e : pgerror)
| Ub
| Fuel.
Arguments Ok {A} a.
Arguments Ereport {A} e.
Arguments Ub {A}.
Arguments Fuel {A}.

#[global] Instance res_ret : MRet res := fun A a => Ok a.
#[global] Instance res_bind : MBind res := fun A B f m =>
  match m with
  | Ok a => f a
  | Ereport e => Ereport e
  | Ub => Ub
  | Fuel => Fuel
  end.

(** Total correctness of a computation: it returns and the result satisfies P. *)
Definition returns {A} (m : res A) (P : A -> Prop) : Prop :=
  match m with Ok a => P a | _ => False end.

(** A loop [while]: the body continues with [inl] a new state or leaves with
    [inr] a result. *)
Fixpoint iter {S R : Type} (fuel : nat) (body : S -> res (S + R)) (s : S) : res R :=
  match fuel with
  | O => Fuel
  | Datatypes.S n =>
      x ← body s;
      match x with
      | inl s' => iter n body s'
      | inr r => Ok r
      end
  end.

(** The proof rule of [iter]: an invariant I with a decreasing measure m, and a
    predicate Q on what comes out. *)
Lemma iter_rule {S R : Type} (I : S -> Prop) (m : S -> nat) (Q : res R -> Prop)
    (body : S -> res (S + R)) :
  (forall s, I s ->
     match body s with
     | Ok (inl s') => I s' /\ (m s' < m s)%nat
     | Ok (inr r) => Q (Ok r)
     | Ereport e => Q (Ereport e)
     | Ub => Q Ub
     | Fuel => False
     end) ->
  forall fuel s, I s -> (m s < fuel)%nat -> Q (iter fuel body s).
Proof.
  intros Hbody fuel; induction fuel as [|fuel IH]; intros s HI Hm; [lia|].
  simpl. specialize (Hbody s HI). destruct (body s) as [[s'|r]|e| |]; simpl; try done.
  destruct Hbody. apply IH; [done|lia].
Qed.

(** The special case of a loop that cannot fail. *)
Lemma iter_returns {S R : Type} (I : S -> Prop) (m : S -> nat) (P : R -> Prop)
    (body : S -> res (S + R)) :
  (forall s, I s ->
     returns (body s)
       (fun x => match x with inl s' => I s' /\ (m s' < m s)%nat | inr r => P r end)) ->
  forall fuel s, I s -> (m s < fuel)%nat -> returns (iter fuel body s) P.
Proof.
  intros Hbody fuel s. apply (iter_rule I m (fun x => returns x P)).
  intros s' HI. specialize (Hbody s' HI). destruct (body s') as [[?|?]|?| |]; done.
Qed.

(** More fuel does not change the result of a loop that ended. *)
Lemma iter_mono {S R : Type} (body : S -> res (S + R)) n k s :
  (n <= k)%nat -> iter n body s <> Fuel -> iter k body s = iter n body s.
Proof.
  revert k s; induction n as [|n IH]; intros k s Hk Hn; [done|].
  destruct k as [|k]; [lia|]. simpl in *.
  destruct (body s) as [[s'|r]|e| |]; simpl in *; try done. apply IH; [lia|done].
Qed.

Lemma iter_S {S R : Type} (body : S -> res (S + R)) n s :
  iter (Datatypes.S n) body s =
  x ← body s; match x with inl s' => iter n body s' | inr r => Ok r end.
Proof. done. Qed.

#[global] Arguments iter : simpl never.

Lemma returns_bind {A B} (m : res A) (f : A -> res B) (P : A -> Prop) (Q : B -> Prop) :
  returns m P -> (forall a, P a -> returns (f a) Q) -> returns (m ≫= f) Q.
Proof. destruct m; simpl; auto; contradiction. Qed.

Lemma res_bind_Ok {A B} (m : res A) (f : A -> res B) y : (x ← m; f x) = Ok y -> exists x, m = Ok x /\ f x = Ok y.
Proof. destruct m; simpl; try done. eauto. Qed.

Lemma returns_mono {A} (m : res A) (P Q : A -> Prop) :
  returns m P -> (forall a, P a -> Q a) -> returns m Q.
Proof. destruct m; simpl; auto. Qed.

Lemma returns_eq {A} (m : res A) (P : A -> Prop) :
  returns m P -> exists a, m = Ok a /\ P a.
Proof. destruct m; simpl; try contradiction; eauto. Qed.

(** ** Bytes and buffers *)

Definition is_byte (b : Z) : Prop := 0 <= b < 256.
Abbreviation bytes l := (Forall is_byte l).

(** Length of a buffer, as a C integer. *)
Definition zlen {A} (l : list A) : Z := Z.of_nat (length l).

(** A [char] is signed on the platforms the code is built for. *)
Definition schar (b : Z) : Z := if b <? 128 then b else b - 256.

(** Reading one byte of a buffer. *)
Definition rd (l : list Z) (i : Z) : res Z :=
  if 0 <=? i then match l !! Z.to_nat i with Some b => Ok b | None => Ub end else Ub.

(** The source operand of memcpy: n bytes of the buffer from i. *)
Definition rdn (l : list Z) (i n : Z) : res (list Z) :=
  if (0 <=? i) && (0 <=? n) && (i + n <=? zlen l)
  then Ok (take (Z.to_nat n) (drop (Z.to_nat i) l)) else Ub.

(** The n bytes from offset i of a value, as a mathematical slice. *)
Definition zslice (l : list Z) (i n : Z) : list Z :=
  take (Z.to_nat n) (drop (Z.to_nat i) l).

Definition zrep (n : Z) (c : Z) : list Z := replicate (Z.to_nat n) c.

(** Integers of fixed width. *)
Definition wrap32 (z : Z) : Z := z mod 2 ^ 32.
Definition int32_of (z : Z) : Z :=
  let u := z mod 2 ^ 32 in if u <? 2 ^ 31 then u else u - 2 ^ 32.
Definition INT_MAX : Z := 2147483647.
Definition INT_MIN : Z := -2147483648.

(** Writing into a buffer. *)
Definition wr (l : list Z) (i : Z) (data : list Z) : res (list Z) :=
  if (0 <=? i) && (i + zlen data <=? zlen l)
  then Ok (take (Z.to_nat i) l ++ data ++ drop (Z.to_nat (i + zlen data)) l) else Ub.

(** Little-endian 32-bit fields. *)
Definition le32 (z : Z) : list Z :=
  [z mod 256; (z / 256) mod 256; (z / 65536) mod 256; (z / 16777216) mod 256].
Definition le32_val (a b c d : Z) : Z := a + 256 * b + 65536 * c + 16777216 * d.
Definition rd32 (l : list Z) (i : Z) : res Z :=
  a ← rd l i; b ← rd l (i + 1); c ← rd l (i + 2); d ← rd l (i + 3);
  Ok (le32_val a b c d).

(** strlen of a string that ends with NUL *)
Fixpoint strlen (p : list Z) : res Z :=
  match p with
  | [] => Ub
  | c :: p => if c =? 0 then Ok 0 else n ← strlen p; Ok (n + 1)
  end.

(** ** Memory *)

(** palloc refuses requests above MaxAllocSize (sizes are unsigned). *)
Definition MaxAllocSize : Z := 0x3fffffff.
Definition palloc (size : Z) : res unit :=
  if (0 <=? size) && (size <=? MaxAllocSize) then Ok tt else Ereport ERRCODE_INTERNAL_ERROR.

Definition MAXIMUM_ALIGNOF : Z := 8.
Definition TYPEALIGN (a len : Z) : Z := Z.land (len + (a - 1)) (Z.lnot (a - 1)).
Definition TYPEALIGN_DOWN (a len : Z) : Z := Z.land len (Z.lnot (a - 1)).
Definition MAXALIGN (len : Z) : Z := TYPEALIGN MAXIMUM_ALIGNOF len.
Definition MAXALIGN_DOWN (len : Z) : Z := TYPEALIGN_DOWN MAXIMUM_ALIGNOF len.

(** The usable bytes of the chunk that AllocSetAlloc takes for a request: a power of two
    up to allocChunkLimit, a block of its own above it (without MEMORY_CONTEXT_CHECKING). *)
Definition AllocSetFreeIndex (size : Z) : Z := if size >? Z.shiftl 1 3 then Z.log2 (size - 1) - 3 + 1 else 0.
Definition AllocSetChunkSize (allocChunkLimit size : Z) : Z :=
  if size >? allocChunkLimit then MAXALIGN size else Z.shiftl (Z.shiftl 1 3) (AllocSetFreeIndex size).

(** ** Automation *)

Ltac Zify.zify_post_hook ::= Z.div_mod_to_equations.

(** One step of the monad. *)
Ltac bind := cbn [mbind res_bind].

(** Case split on the integer tests of the goal. *)
Ltac ztests :=
  repeat match goal with
  | |- context [?a <? ?b] => destruct (Z.ltb_spec a b)
  | |- context [?a <=? ?b] => destruct (Z.leb_spec a b)
  | |- context [?a =? ?b] => destruct (Z.eqb_spec a b)
  | |- context [?a >? ?b] => rewrite (Z.gtb_ltb a b)
  | |- context [?a >=? ?b] => rewrite (Z.geb_leb a b)
  end.
Ltac ztests_in H :=
  repeat match type of H with
  | context [?a <? ?b] => destruct (Z.ltb_spec a b)
  | context [?a <=? ?b] => destruct (Z.leb_spec a b)
  | context [?a =? ?b] => destruct (Z.eqb_spec a b)
  | context [?a >? ?b] => rewrite (Z.gtb_ltb a b) in H
  | context [?a >=? ?b] => rewrite (Z.geb_leb a b) in H
  end.

Create HintDb bytesdb.
Create Rewrite HintDb zlen.

(** ** Lengths *)

Section zlen_facts.
Context {A : Type}.
Implicit Types l k : list A.

Lemma zlen_nonneg l : 0 <= zlen l.
Proof. unfold zlen; lia. Qed.

Lemma zlen_nil : zlen (@nil A) = 0.
Proof. done. Qed.

Lemma zlen_cons a l : zlen (a :: l) = 1 + zlen l.
Proof. unfold zlen; simpl; lia. Qed.

Lemma zlen_app l k : zlen (l ++ k) = zlen l + zlen k.
Proof. unfold zlen. rewrite length_app. lia. Qed.

Lemma zlen_take n l : zlen (take n l) = Z.min (Z.of_nat n) (zlen l).
Proof. unfold zlen. rewrite length_take. lia. Qed.

Lemma zlen_drop n l : zlen (drop n l) = Z.max 0 (zlen l - Z.of_nat n).
Proof. unfold zlen. rewrite length_drop. lia. Qed.

Lemma zlen_replicate n (a : A) : zlen (replicate n a) = Z.of_nat n.
Proof. unfold zlen. by rewrite length_replicate. Qed.

Lemma zlen_0_nil l : zlen l = 0 -> l = [].
Proof. destruct l; [done|]. rewrite zlen_cons. pose proof (zlen_nonneg l). lia. Qed.

Lemma zlen_insert i (a : A) l : zlen (<[i:=a]> l) = zlen l.
Proof. unfold zlen. by rewrite length_insert. Qed.
End zlen_facts.

Lemma zlen_zrep n c : zlen (zrep n c) = Z.max 0 n.
Proof. unfold zrep. rewrite zlen_replicate. lia. Qed.

#[export] Hint Rewrite @zlen_nil @zlen_cons @zlen_app @zlen_take @zlen_drop
  @zlen_replicate zlen_zrep @zlen_insert : zlen.

(** Normalise lengths everywhere and call lia with all lengths known to be nonnegative. *)
Ltac zlen_pos :=
  repeat match goal with
  | |- context [zlen ?l] =>
      lazymatch goal with
      | _ : 0 <= zlen l |- _ => fail
      | _ => pose proof (zlen_nonneg l)
      end
  | _ : context [zlen ?l] |- _ =>
      lazymatch goal with
      | _ : 0 <= zlen l |- _ => fail
      | _ => pose proof (zlen_nonneg l)
      end
  end.
Ltac zl := autorewrite with zlen in *; zlen_pos; try lia.

(** ** Reads *)

Lemma rd_Some l i b : 0 <= i -> l !! Z.to_nat i = Some b -> rd l i = Ok b.
Proof. intros Hi Hl. unfold rd. ztests; [|lia]. by rewrite Hl. Qed.

Lemma rd_Ok l i b : rd l i = Ok b -> 0 <= i < zlen l /\ l !! Z.to_nat i = Some b.
Proof.
  unfold rd. ztests; [|done]. destruct (l !! Z.to_nat i) eqn:E; [|done].
  intros [= <-]. split; [|done]. apply lookup_lt_Some in E. unfold zlen. lia.
Qed.

Lemma rd_in_range l i : 0 <= i < zlen l -> exists b, rd l i = Ok b.
Proof.
  intros Hi. destruct (lookup_lt_is_Some_2 l (Z.to_nat i)) as [b Hb].
  { unfold zlen in Hi. lia. }
  exists b. apply rd_Some; [lia|done].
Qed.

Lemma rd_app_l l k i : 0 <= i < zlen l -> rd (l ++ k) i = rd l i.
Proof.
  intros Hi. unfold rd. ztests; [|lia]. rewrite lookup_app_l; [done|]. unfold zlen in Hi; lia.
Qed.

Lemma rd_app_r l k i : zlen l <= i -> rd (l ++ k) i = rd k (i - zlen l).
Proof.
  intros Hi. unfold rd. pose proof (zlen_nonneg l). ztests; try lia.
  rewrite lookup_app_r by (unfold zlen in Hi; lia).
  by replace (Z.to_nat i - length l)%nat with (Z.to_nat (i - zlen l)) by (unfold zlen; lia).
Qed.

Lemma rd_cons_0 b l : rd (b :: l) 0 = Ok b.
Proof. done. Qed.

Lemma rd_middle l b k i : i = zlen l -> rd (l ++ b :: k) i = Ok b.
Proof. intros ->. rewrite rd_app_r by lia. by rewrite Z.sub_diag. Qed.

Lemma rd_drop l i j : 0 <= i -> 0 <= j -> rd (drop (Z.to_nat i) l) j = rd l (i + j).
Proof.
  intros. unfold rd. ztests; try lia. rewrite lookup_drop.
  by replace (Z.to_nat i + Z.to_nat j)%nat with (Z.to_nat (i + j)) by lia.
Qed.

Lemma rd_byte l i b : bytes l -> rd l i = Ok b -> is_byte b.
Proof.
  intros Hl [_ Hb]%rd_Ok. rewrite Forall_lookup in Hl. eauto.
Qed.

Lemma rdn_Ok l i n : 0 <= i -> 0 <= n -> i + n <= zlen l -> rdn l i n = Ok (zslice l i n).
Proof. intros. unfold rdn, zslice. ztests; try lia. done. Qed.

Lemma rdn_Ok_inv l i n x :
  rdn l i n = Ok x -> 0 <= i /\ 0 <= n /\ i + n <= zlen l /\ x = zslice l i n.
Proof. unfold rdn, zslice. ztests; simpl; try done. intros [= <-]. repeat split; lia || done. Qed.

Lemma rdn_middle l m k i n :
  i = zlen l -> n = zlen m -> rdn (l ++ m ++ k) i n = Ok m.
Proof.
  intros -> ->. rewrite rdn_Ok by zl. unfold zslice, zlen.
  rewrite !Nat2Z.id. by rewrite drop_app_length, take_app_length.
Qed.

(** ** Slices *)

Lemma zlen_zslice l i n :
  0 <= i -> 0 <= n -> i + n <= zlen l -> zlen (zslice l i n) = n.
Proof. intros. unfold zslice. rewrite zlen_take, zlen_drop. lia. Qed.

Lemma take_zslice l i n :
  0 <= i -> 0 <= n -> take (Z.to_nat i) l ++ zslice l i n = take (Z.to_nat (i + n)) l.
Proof.
  intros. unfold zslice. rewrite take_take_drop.
  by replace (Z.to_nat i + Z.to_nat n)%nat with (Z.to_nat (i + n)) by lia.
Qed.

Lemma drop_zlen_app (l k : list Z) : drop (Z.to_nat (zlen l)) (l ++ k) = k.
Proof. unfold zlen. by rewrite Nat2Z.id, drop_app_length. Qed.

Lemma take_zlen_app (l k : list Z) : take (Z.to_nat (zlen l)) (l ++ k) = l.
Proof. unfold zlen. by rewrite Nat2Z.id, take_app_length. Qed.

Lemma bytes_zslice l i n : bytes l -> bytes (zslice l i n).
Proof. intros. by apply Forall_take, Forall_drop. Qed.

Lemma bytes_zrep n c : is_byte c -> bytes (zrep n c).
Proof. intros. by apply Forall_replicate. Qed.

#[export] Hint Resolve bytes_zslice bytes_zrep Forall_app_2 Forall_take Forall_drop : bytesdb.

Lemma zrep_app a b c : 0 <= a -> 0 <= b -> zrep a c ++ zrep b c = zrep (a + b) c.
Proof.
  intros. unfold zrep. rewrite <- replicate_add.
  by replace (Z.to_nat a + Z.to_nat b)%nat with (Z.to_nat (a + b)) by lia.
Qed.

(** A write right after what has been filled in so far. *)
Lemma wr_append done rest data :
  zlen data <= zlen rest ->
  wr (done ++ rest) (zlen done) data = Ok ((done ++ data) ++ drop (length data) rest).
Proof.
  intros H. unfold wr. replace ((0 <=? zlen done) && _) with true by zl.
  unfold zlen in *. rewrite Nat2Z.id, take_app_length, <- app_assoc. do 3 f_equal.
  replace (Z.to_nat (Z.of_nat (length done) + Z.of_nat (length data))) with (length done + length data)%nat by lia.
  by rewrite <- drop_drop, drop_app_length.
Qed.

Lemma int32_small z : 0 <= z < 2 ^ 31 -> int32_of z = z.
Proof. intros. unfold int32_of. rewrite Z.mod_small by lia. ztests; lia. Qed.

Lemma strlen_ok s t : Forall (fun c => c <> 0) s -> strlen (s ++ 0 :: t) = Ok (zlen s).
Proof.
  induction 1 as [|c s Hc _ IH]; [done|]. cbn [app strlen]. destruct (Z.eqb_spec c 0); [done|].
  rewrite IH. bind. f_equal. zl.
Qed.

Lemma palloc_ok n : 0 <= n <= MaxAllocSize -> palloc n = Ok tt.
Proof. intros. unfold palloc. by replace ((0 <=? n) && (n <=? MaxAllocSize)) with true by lia. Qed.

(** ** Little-endian words *)

Lemma le32_bytes z : bytes (le32 z).
Proof. unfold le32, is_byte. repeat constructor; lia. Qed.

Lemma le32_val_le32 z :
  0 <= z < 2 ^ 32 ->
  le32_val (z mod 256) ((z / 256) mod 256) ((z / 65536) mod 256) ((z / 16777216) mod 256) = z.
Proof. unfold le32_val. intros. lia. Qed.

Lemma rd32_middle l z k i :
  i = zlen l -> 0 <= z < 2 ^ 32 -> rd32 (l ++ le32 z ++ k) i = Ok z.
Proof.
  intros -> Hz. unfold rd32. rewrite !(rd_app_r l) by zl.
  replace (zlen l - zlen l) with 0 by lia.
  replace (zlen l + 1 - zlen l) with 1 by lia.
  replace (zlen l + 2 - zlen l) with 2 by lia.
  replace (zlen l + 3 - zlen l) with 3 by lia.
  change (rd (le32 z ++ k) 0) with (Ok (z mod 256)).
  change (rd (le32 z ++ k) 1) with (Ok ((z / 256) mod 256)).
  change (rd (le32 z ++ k) 2) with (Ok ((z / 65536) mod 256)).
  change (rd (le32 z ++ k) 3) with (Ok ((z / 16777216) mod 256)).
  cbv [mbind res_bind]. f_equal. by apply le32_val_le32.
Qed.

Lemma rd32_range l i z : bytes l -> rd32 l i = Ok z -> 0 <= z < 2 ^ 32.
Proof.
  unfold rd32. intros Hl.
  destruct (rd l i) eqn:E0; simpl; try done. destruct (rd l (i + 1)) eqn:E1; simpl; try done.
  destruct (rd l (i + 2)) eqn:E2; simpl; try done. destruct (rd l (i + 3)) eqn:E3; simpl; try done.
  intros [= <-]. apply (rd_byte _ _ _ Hl) in E0, E1, E2, E3.
  unfold is_byte, le32_val in *. lia.
Qed.

(** ** Facts about bytes by evaluation *)

Definition zrange (n : Z) : list Z := map Z.of_nat (seq 0 (Z.to_nat n)).

Lemma zrange_forall n (P : Z -> bool) :
  forallb P (zrange n) = true -> forall x, 0 <= x < n -> P x = true.
Proof.
  intros HP x Hx. unfold zrange in HP. rewrite forallb_forall in HP. apply HP.
  apply in_map_iff. exists (Z.to_nat x). split; [lia|]. apply in_seq. lia.
Qed.

Lemma lor_128 x : 0 <= x < 128 -> Z.lor x 128 = x + 128.
Proof.
  intros Hx. apply Z.eqb_eq.
  by apply (zrange_forall 128 (fun x => Z.lor x 128 =? x + 128)).
Qed.

Lemma land_127 x : 0 <= x < 256 -> Z.land x 127 = if x <? 128 then x else x - 128.
Proof.
  intros Hx. apply Z.eqb_eq.
  by apply (zrange_forall 256 (fun x => Z.land x 127 =? if x <? 128 then x else x - 128)).
Qed.

(** ** Runs of one byte *)

(** A field put beside another one with a bitwise or. *)
Lemma lor_disjoint a b n : 0 <= n -> 0 <= b < 2 ^ n -> Z.lor (a * 2 ^ n) b = a * 2 ^ n + b.
Proof.
  intros Hn Hb. assert (Hl : Z.land (a * 2 ^ n) b = 0).
  { apply Z.bits_inj'. intros i Hi. rewrite Z.land_spec, Z.bits_0.
    destruct (Z.lt_ge_cases i n); [by rewrite Z.mul_pow2_bits_low|].
    rewrite <- (Z.mod_small b (2 ^ n)) by done. by rewrite Z.mod_pow2_bits_high, andb_false_r by lia. }
  by rewrite Z.add_nocarry_lxor, Z.lxor_lor.
Qed.

Lemma zslice_run l i n c :
  0 <= i -> 0 <= n -> i + n <= zlen l ->
  (forall j, 0 <= j < n -> rd l (i + j) = Ok c) -> zslice l i n = zrep n c.
Proof.
  intros Hi Hn Hl Hr. unfold zslice, zrep. apply list_eq_same_length with (n := Z.to_nat n).
  - by rewrite length_replicate.
  - rewrite length_take, length_drop. unfold zlen in Hl. lia.
  - intros k x y Hk. rewrite lookup_take_lt, lookup_drop by lia.
    rewrite lookup_replicate. intros Hx [-> _].
    specialize (Hr (Z.of_nat k) ltac:(lia)). apply rd_Ok in Hr as [_ Hr].
    replace (Z.to_nat (i + Z.of_nat k)) with (Z.to_nat i + k)%nat in Hr by lia. congruence.
Qed.

Lemma zslice_1 l i b : rd l i = Ok b -> zslice l i 1 = [b].
Proof.
  intros [Hi Hb]%rd_Ok. unfold zslice. change (Z.to_nat 1) with 1%nat.
  rewrite (drop_S _ b) by done. done.
Qed.

(** [bytes] is decidable by evaluation. *)
Definition bytesb (l : list Z) : bool := forallb (fun b => (0 <=? b) && (b <? 256)) l.

Lemma bytesb_spec l : bytesb l = true -> bytes l.
Proof.
  unfold bytesb. rewrite forallb_forall. intros H. apply Forall_forall. intros x Hx.
  apply list_elem_of_In, H in Hx. unfold is_byte. lia.
Qed.

Ltac solve_bytes := apply bytesb_spec; vm_compute; reflexivity.
