(* ===== verification/Rle.v ===== *)
(** Run-length compressor and decompressor: src/common/rle_compress.c.

    The source is a list of bytes, read with bounds checks.  The destination is
    the list of bytes written so far, so that [bp - bstart] is its length; the
    functions return the C result and everything written to the destination,
    also on the paths that return -1.  The literal buffer [buf_base .. buf] is a
    list whose length is [buf - buf_base]; a store past [bufcap], the usable
    size of the chunk palloc returned, is [Ub]. *)

From S2P Require Import Prelude.

Definition MAX_REPEATED_SIZE : Z := 130.
Definition MAX_SINGLE_STORE_SIZE : Z := 127.
Definition THRESHOLD : Z := 3.

(** struct RLE_Strategy *)
Record RLE_Strategy := {
  min_input_size : Z;
  max_input_size : Z;
  min_comp_rate : Z
}.

Definition rle_default_strategy : RLE_Strategy :=
  {| min_input_size := 32; max_input_size := INT_MAX; min_comp_rate := 25 |}.

(** Local variables of rle_compress that the loop changes: the read position
    [dp - source], the bytes in [bstart .. bp), the bytes in [buf_base .. buf). *)
Record rle_state := RleState { dp : Z; out : list Z; buf : list Z }.

(** The result-size limit computed from the strategy. *)
Definition rle_result_max (slen need_rate0 : Z) : Z :=
  let need_rate := if need_rate0 <? 0 then 0 else if need_rate0 >? 99 then 99 else need_rate0 in
  if slen >? INT_MAX / 100 then (slen / 100) * (100 - need_rate)
  else (slen * (100 - need_rate)) / 100.

Section rle_compress.
Variable bufcap : Z.

(** Macro buf_copy_ctrl: copy one input byte to the literal buffer. *)
Definition buf_copy_ctrl (source : list Z) (s : rle_state) : res rle_state :=
  b ← rd source (dp s);
  if zlen (buf s) <? bufcap
  then Ok (RleState (dp s + 1) (out s) (buf s ++ [b])) else Ub.

(** Macro store_single_buf: flush the literal buffer.  With [reach_max] the
    first 127 bytes are stored, the rest is moved to the front of the buffer,
    and [buf] is reset to [buf_base] all the same. *)
Definition store_single_buf (reach_max : bool) (s : rle_state) : res rle_state :=
  if reach_max then
    data ← rdn (buf s) 0 MAX_SINGLE_STORE_SIZE;
    Ok (RleState (dp s) (out s ++ MAX_SINGLE_STORE_SIZE :: data) [])
  else Ok (RleState (dp s) (out s ++ zlen (buf s) mod 256 :: buf s) []).

(** while (dp + cur_index + 2 < dend && source[..+1] == source[..+2]) cur_index++ *)
Definition rle_scan_body (source : list Z) (dp : Z) (cur_index : Z) : res (Z + Z) :=
  if dp + cur_index + 2 <? zlen source then
    a ← rd source (dp + cur_index + 1);
    b ← rd source (dp + cur_index + 2);
    if a =? b then Ok (inl (cur_index + 1)) else Ok (inr cur_index)
  else Ok (inr cur_index).

(** while (cur_index > 0) : emit repeat marks of at most 130 bytes each *)
Definition rle_emit_body (cur_char : Z) (x : rle_state * Z) : res (rle_state * Z + rle_state) :=
  let '(s, cur_index) := x in
  if cur_index >? 0 then
    let mark := Z.lor (if cur_index + 2 >? MAX_REPEATED_SIZE then MAX_REPEATED_SIZE - THRESHOLD
                       else cur_index + 2 - THRESHOLD) (Z.shiftl 1 7) in
    let adv := if cur_index + 2 >? MAX_REPEATED_SIZE then MAX_REPEATED_SIZE else cur_index + 2 in
    Ok (inl (RleState (dp s + adv) (out s ++ [mark; cur_char]) (buf s),
             cur_index - MAX_REPEATED_SIZE))
  else Ok (inr s).

(** One turn of the main loop after its size check. *)
Definition rle_step (source : list Z) (s : rle_state) : res rle_state :=
  let n := length source in
  a ← rd source (dp s);
  b ← rd source (dp s + 1);
  s ← (if a =? b then
         c ← rd source (dp s + 2);
         if b =? c then
           cur_index ← iter (S n) (rle_scan_body source (dp s)) 1;
           s ← (if negb (zlen (buf s) =? 0) then store_single_buf false s else Ok s);
           cur_char ← rd source (dp s);
           iter (S n) (rle_emit_body cur_char) (s, cur_index)
         else s ← buf_copy_ctrl source s; buf_copy_ctrl source s
       else buf_copy_ctrl source s);
  if zlen (buf s) >=? MAX_SINGLE_STORE_SIZE then store_single_buf true s else Ok s.

(** The main loop; [inr (inl out)] is the early [return -1]. *)
Definition rle_loop_body (source : list Z) (result_max : Z) (s : rle_state)
    : res (rle_state + (list Z + rle_state)) :=
  if THRESHOLD <=? zlen source - dp s then
    if zlen (out s) >=? result_max then Ok (inr (inl (out s)))
    else s' ← rle_step source s; Ok (inl s')
  else Ok (inr (inr s)).

(** After the loop: the last bytes join the literal buffer, which is flushed and
    the output is terminated. *)
Definition rle_flush_rest (s : rle_state) : res (list Z) :=
  s ← (if zlen (buf s) >=? MAX_SINGLE_STORE_SIZE then store_single_buf true s else Ok s);
  s ← (if negb (zlen (buf s) =? 0) then store_single_buf false s else Ok s);
  Ok (out s ++ [0]).

Definition rle_finish (source : list Z) (s : rle_state) : res (list Z) :=
  rest ← rdn source (dp s) (zlen source - dp s);
  if zlen (buf s) + zlen rest <=? bufcap
  then rle_flush_rest (RleState (dp s) (out s) (buf s ++ rest))
  else Ub.

(** The compression proper, once the strategy has been applied. *)
Definition rle_run (source : list Z) (result_max : Z) : res (Z * list Z) :=
  r ← iter (S (length source)) (rle_loop_body source result_max) (RleState 0 [] []);
  match r with
  | inl written => Ok (-1, written)
  | inr s =>
      written ← rle_finish source s;
      let result_size := zlen written - 1 in
      if result_size >=? result_max then Ok (-1, written) else Ok (result_size, written)
  end.

(** rle_compress: the C result and the bytes written to dest. *)
Definition rle_compress (source : list Z) (strategy : option RLE_Strategy)
    : res (Z * list Z) :=
  let slen := zlen source in
  let strategy := default rle_default_strategy strategy in
  if (slen <? min_input_size strategy) || (slen >? max_input_size strategy)
  then Ok (-1, [])
  else rle_run source (rle_result_max slen (min_comp_rate strategy)).
End rle_compress.

#[global] Arguments buf_copy_ctrl : simpl never.
#[global] Arguments store_single_buf : simpl never.
#[global] Arguments rle_step : simpl never.
#[global] Arguments rle_flush_rest : simpl never.
#[global] Arguments rle_finish : simpl never.

(** rle_decompress: [sp] and the bytes written so far are the loop's state. *)
Definition rle_decompress_body (source : list Z) (rawsize : Z) (x : Z * list Z)
    : res (Z * list Z + Z * list Z) :=
  let '(sp, dest) := x in
  if (sp <? zlen source) && (zlen dest <? rawsize) then
    m ← rd source sp;
    if m >=? Z.shiftl 1 7 then
      let repeat_count := Z.land m 0x7F + THRESHOLD in
      cur_data ← rd source (sp + 1);
      Ok (inl (sp + 2, dest ++ zrep repeat_count cur_data))
    else
      data ← rdn source (sp + 1) m;
      Ok (inl (sp + 1 + m, dest ++ data))
  else Ok (inr (sp, dest)).

Definition rle_decompress (source : list Z) (rawsize : Z) (check_complete : bool)
    : res (Z * list Z) :=
  r ← iter (S (length source)) (rle_decompress_body source rawsize) (0, []);
  let '(sp, dest) := r in
  if check_complete && (negb (zlen dest =? rawsize) || negb (sp =? zlen source))
  then Ok (-1, dest ++ [0])
  else Ok (zlen dest, dest ++ [0]).

(** * Specification: the token stream

    A compressed string is a sequence of marks: a run of 3 to 130 equal bytes,
    or 1 to 127 literal bytes. *)

Inductive rle_tok : Type :=
| Run (n c : Z)
| Lits (l : list Z).

Definition wf_tok (t : rle_tok) : Prop :=
  match t with
  | Run n c => 3 <= n <= 130 /\ is_byte c
  | Lits l => 1 <= zlen l <= 127 /\ bytes l
  end.

Definition enc_tok (t : rle_tok) : list Z :=
  match t with
  | Run n c => [n - 3 + 128; c]
  | Lits l => zlen l :: l
  end.

Definition exp_tok (t : rle_tok) : list Z :=
  match t with
  | Run n c => zrep n c
  | Lits l => l
  end.

Definition encode (ts : list rle_tok) : list Z := concat (map enc_tok ts).
Definition expand (ts : list rle_tok) : list Z := concat (map exp_tok ts).

Lemma encode_app ts us : encode (ts ++ us) = encode ts ++ encode us.
Proof. unfold encode. by rewrite map_app, concat_app. Qed.

Lemma expand_app ts us : expand (ts ++ us) = expand ts ++ expand us.
Proof. unfold expand. by rewrite map_app, concat_app. Qed.

Lemma encode_1 t : encode [t] = enc_tok t.
Proof. unfold encode; simpl. by rewrite app_nil_r. Qed.

Lemma expand_1 t : expand [t] = exp_tok t.
Proof. unfold expand; simpl. by rewrite app_nil_r. Qed.

Lemma encode_cons t ts : encode (t :: ts) = enc_tok t ++ encode ts.
Proof. done. Qed.

Lemma expand_cons t ts : expand (t :: ts) = exp_tok t ++ expand ts.
Proof. done. Qed.

Lemma exp_tok_pos t : wf_tok t -> 1 <= zlen (exp_tok t) <= 130.
Proof. destruct t; simpl; zl. Qed.

Lemma enc_tok_pos t : 1 <= zlen (enc_tok t).
Proof. destruct t; simpl; zl. Qed.

Lemma wf_tok_bytes t : wf_tok t -> bytes (enc_tok t) /\ bytes (exp_tok t).
Proof.
  destruct t as [n c|l]; simpl; intros [? ?].
  - split; [|by apply bytes_zrep]. repeat constructor; unfold is_byte in *; lia.
  - split; [|done]. constructor; [unfold is_byte; lia|done].
Qed.

Lemma expand_bytes ts : Forall wf_tok ts -> bytes (expand ts).
Proof.
  induction 1 as [|t ts Ht _ IH]; [constructor|].
  rewrite expand_cons. apply Forall_app_2; [by apply wf_tok_bytes|done].
Qed.

Lemma encode_bytes ts : Forall wf_tok ts -> bytes (encode ts).
Proof.
  induction 1 as [|t ts Ht _ IH]; [constructor|].
  rewrite encode_cons. apply Forall_app_2; [by apply wf_tok_bytes|done].
Qed.

(** * The decompressor reads token streams *)

(** One turn of the loop at a token. *)
Lemma rle_decompress_body_tok pre t post rawsize dest :
  wf_tok t -> zlen dest < rawsize ->
  rle_decompress_body (pre ++ enc_tok t ++ post) rawsize (zlen pre, dest) =
  Ok (inl (zlen pre + zlen (enc_tok t), dest ++ exp_tok t)).
Proof.
  intros Hwf Hd. unfold rle_decompress_body.
  pose proof (enc_tok_pos t). pose proof (zlen_nonneg post).
  rewrite !zlen_app. destruct (Z.ltb_spec (zlen pre) (zlen pre + (zlen (enc_tok t) + zlen post))); [|lia].
  destruct (Z.ltb_spec (zlen dest) rawsize); [|lia]. simpl andb. cbv iota.
  destruct t as [n c|l]; simpl enc_tok in *; simpl wf_tok in Hwf; simpl exp_tok.
  - rewrite <- app_comm_cons, (rd_middle pre _ _ (zlen pre)) by done. cbn [mbind res_bind].
    change (Z.shiftl 1 7) with 128. rewrite Z.geb_leb.
    destruct (Z.leb_spec 128 (n - 3 + 128)); [|lia].
    rewrite rd_app_r by lia. replace (zlen pre + 1 - zlen pre) with 1 by lia.
    cbn [mbind res_bind rd]. change (rd ((n - 3 + 128) :: [c] ++ post) 1) with (Ok c).
    simpl mbind. rewrite land_127 by lia. destruct (Z.ltb_spec (n - 3 + 128) 128); [lia|].
    unfold THRESHOLD. replace (n - 3 + 128 - 128 + 3) with n by lia. done.
  - rewrite <- app_comm_cons, (rd_middle pre _ _ (zlen pre)) by done. simpl mbind.
    change (Z.shiftl 1 7) with 128. rewrite Z.geb_leb.
    destruct (Z.leb_spec 128 (zlen l)); [lia|].
    replace (pre ++ zlen l :: l ++ post) with ((pre ++ [zlen l]) ++ l ++ post)
      by (by rewrite <- app_assoc).
    rewrite rdn_middle by zl. simpl mbind. zl. do 2 f_equal. f_equal. lia.
Qed.

(** The tokens the loop consumes to produce at least [need] bytes. *)
Fixpoint toks_until (ts : list rle_tok) (need : Z) : list rle_tok :=
  match ts with
  | [] => []
  | t :: ts => if need <=? 0 then [] else t :: toks_until ts (need - zlen (exp_tok t))
  end.

Lemma toks_until_prefix ts need : exists us, ts = toks_until ts need ++ us.
Proof.
  revert need; induction ts as [|t ts IH]; intros need; simpl; [by exists []|].
  ztests; [by exists (t :: ts)|]. destruct (IH (need - zlen (exp_tok t))) as [us Hus].
  exists us. simpl. by rewrite <- Hus.
Qed.

(** They produce enough bytes and not a whole token more. *)
Lemma toks_until_len ts need :
  Forall wf_tok ts -> 0 <= need <= zlen (expand ts) ->
  need <= zlen (expand (toks_until ts need)) /\
  (0 < need -> zlen (expand (toks_until ts need)) < need + 130) /\
  (need = 0 -> toks_until ts need = []).
Proof.
  intros Hts; revert need; induction Hts as [|t ts Ht Hts IH]; intros need Hn.
  - cbn in *. repeat split; intros; zl.
  - simpl toks_until. rewrite expand_cons in Hn. pose proof (exp_tok_pos t Ht).
    ztests; [cbn; repeat split; intros; zl|]. rewrite expand_cons, !zlen_app in *.
    destruct (Z.le_gt_cases (zlen (exp_tok t)) need) as [Hle|Hgt].
    + destruct (IH (need - zlen (exp_tok t)) ltac:(lia)) as (H1 & H2 & H3).
      repeat split; intros; try lia.
      destruct (Z.eq_dec need (zlen (exp_tok t))) as [->|]; [|lia].
      rewrite Z.sub_diag in *. rewrite (H3 eq_refl). cbn. zl.
    + replace (toks_until ts (need - zlen (exp_tok t))) with (@nil rle_tok)
        by (destruct ts; simpl; ztests; done || lia).
      cbn. repeat split; intros; zl.
Qed.

Lemma toks_until_all ts need :
  Forall wf_tok ts -> zlen (expand ts) <= need -> toks_until ts need = ts.
Proof.
  intros Hts; revert need; induction Hts as [|t ts Ht Hts IH]; intros need Hn; [done|].
  simpl. rewrite expand_cons, zlen_app in Hn. pose proof (exp_tok_pos t Ht).
  pose proof (zlen_nonneg (expand ts)). ztests; [lia|]. rewrite IH; [done|lia].
Qed.

Lemma rle_decompress_body_done source rawsize sp dest :
  rawsize <= zlen dest ->
  rle_decompress_body source rawsize (sp, dest) = Ok (inr (sp, dest)).
Proof.
  intros. unfold rle_decompress_body. destruct (Z.ltb_spec (zlen dest) rawsize); [lia|].
  by rewrite andb_false_r.
Qed.

Lemma rle_decompress_loop ts pre dest rawsize fuel :
  Forall wf_tok ts -> (length ts < fuel)%nat ->
  iter fuel (rle_decompress_body (pre ++ encode ts) rawsize) (zlen pre, dest) =
  let us := toks_until ts (rawsize - zlen dest) in
  Ok (zlen pre + zlen (encode us), dest ++ expand us).
Proof.
  intros Hts; revert pre dest fuel; induction Hts as [|t ts Ht Hts IH]; intros pre dest fuel Hf.
  - destruct fuel as [|fuel]; [simpl in Hf; lia|]. rewrite iter_S.
    unfold rle_decompress_body, encode, expand; simpl. rewrite !app_nil_r.
    destruct (Z.ltb_spec (zlen pre) (zlen pre)); [lia|]. simpl.
    by rewrite zlen_nil, Z.add_0_r.
  - destruct fuel as [|fuel]; [simpl in Hf; lia|]. rewrite iter_S. simpl toks_until.
    destruct (Z.leb_spec (rawsize - zlen dest) 0) as [Hle|Hgt].
    + rewrite rle_decompress_body_done by lia. simpl. by rewrite Z.add_0_r, app_nil_r.
    + rewrite encode_cons, rle_decompress_body_tok by (done || lia). simpl mbind.
      rewrite app_assoc.
      replace (zlen pre + zlen (enc_tok t)) with (zlen (pre ++ enc_tok t)) by zl.
      rewrite IH by (simpl in Hf; lia). cbn zeta.
      replace (rawsize - zlen (dest ++ exp_tok t)) with (rawsize - zlen dest - zlen (exp_tok t)) by zl.
      rewrite encode_cons, expand_cons, !zlen_app, !app_assoc. do 2 f_equal. lia.
Qed.

Lemma length_encode ts : (length ts <= length (encode ts))%nat.
Proof.
  induction ts as [|t ts IH]; simpl; [lia|]. rewrite encode_cons, length_app.
  pose proof (enc_tok_pos t). unfold zlen in *. lia.
Qed.

(** The decompressor on a token stream, for any requested size. *)
Lemma rle_decompress_tokens ts rawsize check :
  Forall wf_tok ts ->
  let us := toks_until ts rawsize in
  rle_decompress (encode ts) rawsize check =
  Ok (if check && (negb (zlen (expand us) =? rawsize) || negb (zlen (encode us) =? zlen (encode ts)))
      then -1 else zlen (expand us), expand us ++ [0]).
Proof.
  intros Hts. unfold rle_decompress.
  pose proof (rle_decompress_loop ts [] [] rawsize (S (length (encode ts))) Hts) as Hloop.
  cbn zeta in Hloop. rewrite app_nil_l, zlen_nil in Hloop. rewrite Hloop by (pose proof (length_encode ts); lia).
  rewrite Z.sub_0_r. simpl.
  by destruct (check && _).
Qed.

(** Decompressing everything, with the completeness check, gives everything. *)
Lemma rle_decompress_all ts check :
  Forall wf_tok ts ->
  rle_decompress (encode ts) (zlen (expand ts)) check = Ok (zlen (expand ts), expand ts ++ [0]).
Proof.
  intros Hts. rewrite rle_decompress_tokens, toks_until_all by (done || lia).
  rewrite !Z.eqb_refl. by rewrite andb_false_r.
Qed.

(** The completeness check rejects every other expected size. *)
Lemma rle_decompress_rejects ts rawsize :
  Forall wf_tok ts -> 0 <= rawsize -> rawsize <> zlen (expand ts) ->
  exists d, rle_decompress (encode ts) rawsize true = Ok (-1, d).
Proof.
  intros Hts H0 Hne. rewrite rle_decompress_tokens by done. eexists.
  destruct (toks_until_prefix ts rawsize) as [us Hus].
  set (vs := toks_until ts rawsize) in *.
  replace (negb (zlen (expand vs) =? rawsize) || negb (zlen (encode vs) =? zlen (encode ts)))
    with true; [done|].
  destruct (Z.eqb_spec (zlen (expand vs)) rawsize) as [He|]; [|done]. simpl.
  destruct us as [|u us]; [rewrite app_nil_r in Hus; congruence|].
  rewrite Hus, encode_app, encode_cons, !zlen_app.
  pose proof (enc_tok_pos u). pose proof (zlen_nonneg (encode us)). ztests; lia || done.
Qed.

(** * The compressor's loop invariant

    After [dp] input bytes the output is the encoding of tokens [ts]; [k] bytes
    were lost, [f] full literal flushes were made, and [sv] bytes were saved. *)

Record rle_inv (source : list Z) (s : rle_state) (k f sv : Z) (ts : list rle_tok) : Prop := {
  inv_out : out s = encode ts;
  inv_wf : Forall wf_tok ts;
  inv_dp : 0 <= dp s <= zlen source;
  inv_len : zlen (expand ts) + zlen (buf s) + k = dp s;
  inv_k : 0 <= k;
  inv_bytes : bytes (buf s);
  inv_eq : k = 0 -> expand ts ++ buf s = take (Z.to_nat (dp s)) source;
  inv_cost : zlen (out s) + zlen (buf s) + sv = dp s + f;
  inv_full : 0 <= f /\ 128 * f <= zlen (out s);
  inv_loss : k = 0 \/ 128 <= dp s
}.

Lemma rle_inv_init source : rle_inv source (RleState 0 [] []) 0 0 0 [].
Proof. pose proof (zlen_nonneg source). split; cbn; try done; try lia; try constructor; done. Qed.

Section compress_proofs.
Variable source : list Z.
Hypothesis Hsource : bytes source.

Lemma buf_copy_ctrl_inv s k f sv ts :
  rle_inv source s k f sv ts -> dp s < zlen source ->
  exists s', rle_inv source s' k f sv ts /\ dp s' = dp s + 1 /\ out s' = out s /\
    zlen (buf s') = zlen (buf s) + 1 /\
    forall cap, buf_copy_ctrl cap source s = if zlen (buf s) <? cap then Ok s' else Ub.
Proof.
  intros [Ho Hw Hd Hl Hk Hb He Hc Hs Hlo] Hlt. unfold buf_copy_ctrl.
  destruct (rd_in_range source (dp s)) as [b Hr]; [lia|]. rewrite Hr. simpl mbind.
  exists (RleState (dp s + 1) (out s) (buf s ++ [b])).
  split; [|simpl; split_and!; try done; zl]. split; simpl; zl; try done.
  - apply Forall_app_2; [done|]. constructor; [exact (rd_byte _ _ _ Hsource Hr)|constructor].
  - intros ->. rewrite app_assoc, He by done. rewrite <- take_zslice by lia.
    by rewrite (zslice_1 _ _ b).
Qed.

(** Flushing a partly filled buffer. *)
Lemma store_single_part s k f sv ts :
  rle_inv source s k f sv ts -> 1 <= zlen (buf s) <= 127 ->
  exists s', store_single_buf false s = Ok s' /\ buf s' = [] /\ dp s' = dp s /\
    zlen (out s') = zlen (out s) + 1 + zlen (buf s) /\
    rle_inv source s' k f (sv - 1) (ts ++ [Lits (buf s)]).
Proof.
  intros [Ho Hw Hd Hl Hk Hb He Hc Hs Hlo] Hr. unfold store_single_buf. cbn iota.
  rewrite Z.mod_small by lia. eexists; split_and!; [reflexivity|done..| |].
  - simpl. zl.
  - split; simpl; rewrite ?expand_app, ?expand_1, ?encode_app, ?encode_1; simpl;
      rewrite ?app_nil_r; zl.
    + by rewrite Ho.
    + apply Forall_app_2; [done|]. repeat constructor; done || lia.
    + constructor.
    + done.
Qed.

(** Flushing a full buffer: whatever exceeds 127 bytes is lost. *)
Lemma store_single_full s k f sv ts :
  rle_inv source s k f sv ts -> 127 <= zlen (buf s) ->
  exists s', store_single_buf true s = Ok s' /\ buf s' = [] /\ dp s' = dp s /\
    zlen (out s') = zlen (out s) + 128 /\
    rle_inv source s' (k + (zlen (buf s) - 127)) (f + 1) (sv + (zlen (buf s) - 127))
      (ts ++ [Lits (take 127 (buf s))]).
Proof.
  intros [Ho Hw Hd Hl Hk Hb He Hc Hs Hlo] Hr. unfold store_single_buf.
  unfold MAX_SINGLE_STORE_SIZE. rewrite rdn_Ok by lia. unfold zslice.
  change (Z.to_nat 0) with 0%nat. rewrite drop_0. change (Z.to_nat 127) with 127%nat.
  simpl. eexists; split_and!; [reflexivity|done..| |].
  - simpl. zl.
  - split; simpl; rewrite ?expand_app, ?expand_1, ?encode_app, ?encode_1; simpl;
      rewrite ?app_nil_r; zl.
    + rewrite Ho. do 2 f_equal. lia.
    + apply Forall_app_2; [done|]. repeat constructor; simpl; zl. by apply Forall_take.
    + constructor.
    + intros Hk0. rewrite take_ge by (unfold zlen in *; lia). apply He. lia.
Qed.

(** The run scan stops after the last byte equal to the first. *)
Lemma rle_scan_spec d c fuel :
  0 <= d -> d + 2 < zlen source -> (length source < fuel)%nat ->
  (forall j, 0 <= j <= 2 -> rd source (d + j) = Ok c) ->
  returns (iter fuel (rle_scan_body source d) 1) (fun ci =>
    1 <= ci /\ d + ci + 1 < zlen source /\
    forall j, 0 <= j < ci + 2 -> rd source (d + j) = Ok c).
Proof.
  intros Hd Hlt Hfuel Hrd.
  apply (iter_returns
    (fun ci => 1 <= ci /\ d + ci + 1 < zlen source /\
               forall j, 0 <= j < ci + 2 -> rd source (d + j) = Ok c)
    (fun ci => Z.to_nat (zlen source - ci))).
  - intros ci (H1 & H2 & H3). unfold rle_scan_body. ztests; [|done].
    replace (d + ci + 1) with (d + (ci + 1)) by lia. rewrite H3 by lia. simpl mbind.
    destruct (rd_in_range source (d + ci + 2)) as [b Hb]; [lia|]. rewrite Hb. simpl mbind.
    destruct (Z.eqb_spec c b) as [<-|]; simpl; [|split_and!; auto; lia].
    split; [|lia]. split_and!; [lia..|]. intros j Hj.
    destruct (Z.eq_dec j (ci + 2)) as [->|]; [|apply H3; lia].
    by rewrite Z.add_assoc.
  - split_and!; [lia..|]. intros j Hj. apply Hrd. lia.
  - unfold zlen in *. lia.
Qed.

(** Emitting a run of [ci + 2] bytes [c] uses [t] marks for its first [r] bytes;
    at most two bytes of it are left for the next turns. *)
Lemma rle_emit_spec s k f sv ts c ci fuel :
  rle_inv source s k f sv ts -> buf s = [] -> is_byte c -> 1 <= ci ->
  dp s + ci + 2 <= zlen source ->
  (forall j, 0 <= j < ci + 2 -> rd source (dp s + j) = Ok c) ->
  (length source < fuel)%nat ->
  returns (iter fuel (rle_emit_body c) (s, ci)) (fun s' =>
    exists t last ts', 1 <= t /\ 3 <= last <= 130 /\ buf s' = [] /\
      dp s' = dp s + (130 * (t - 1) + last) /\
      zlen (out s') = zlen (out s) + 2 * t /\
      rle_inv source s' k f (sv + (130 * (t - 1) + last) - 2 * t) ts').
Proof.
  intros Hinv Hbuf Hc Hci Hend Hrun Hfuel.
  pose (adv t := if t =? 0 then 0 else 130 * (t - 1) + Z.min 130 (ci - 130 * (t - 1) + 2)).
  apply (iter_returns (fun x => exists t ts', 0 <= t /\ snd x = ci - 130 * t /\
      (1 <= t -> 1 <= ci - 130 * (t - 1)) /\ buf (fst x) = [] /\
      dp (fst x) = dp s + adv t /\ zlen (out (fst x)) = zlen (out s) + 2 * t /\
      rle_inv source (fst x) k f (sv + adv t - 2 * t) ts')
    (fun x => Z.to_nat (snd x))).
  - intros [s1 ci1] (t & ts' & Ht0 & Hci1 & Hprev & Hb1 & Hd1 & Ho1 & Hinv1).
    simpl in *. unfold rle_emit_body. rewrite !Z.gtb_ltb.
    destruct (Z.ltb_spec 0 ci1) as [Hpos|Hneg].
    2: { simpl. exists t, (adv t - 130 * (t - 1)), ts'. unfold adv in *.
         destruct (Z.eqb_spec t 0); [lia|].
         replace (130 * (t - 1) + (130 * (t - 1) + Z.min 130 (ci - 130 * (t - 1) + 2) - 130 * (t - 1)))
           with (130 * (t - 1) + Z.min 130 (ci - 130 * (t - 1) + 2)) by lia.
         split_and!; try done; lia. }
    set (a := Z.min 130 (ci1 + 2)). assert (Ha : 3 <= a <= 130) by lia.
    replace (if MAX_REPEATED_SIZE <? ci1 + 2 then MAX_REPEATED_SIZE - THRESHOLD
             else ci1 + 2 - THRESHOLD) with (a - 3)
      by (unfold a, MAX_REPEATED_SIZE, THRESHOLD; ztests; lia).
    replace (if MAX_REPEATED_SIZE <? ci1 + 2 then MAX_REPEATED_SIZE else ci1 + 2) with a
      by (unfold a, MAX_REPEATED_SIZE, THRESHOLD; ztests; lia).
    change (Z.shiftl 1 7) with 128. rewrite lor_128 by lia. simpl.
    assert (Hadv : adv (t + 1) = adv t + a).
    { unfold adv, a. destruct (Z.eqb_spec t 0), (Z.eqb_spec (t + 1) 0); lia. }
    split; [|unfold MAX_REPEATED_SIZE; lia].
    exists (t + 1), (ts' ++ [Run a c]). simpl. rewrite Hadv.
    split_and!; try (unfold MAX_REPEATED_SIZE; lia); try done; [zl|].
    destruct Hinv1 as [Ho Hw Hd Hl Hk Hb He Hcost Hs Hlo].
    assert (Hadv0 : adv t = 130 * t) by (unfold adv; destruct (Z.eqb_spec t 0); lia).
    split; simpl; rewrite ?expand_app, ?expand_1, ?encode_app, ?encode_1, ?Hb1, ?app_nil_r in *;
      simpl; zl.
    + by rewrite Ho.
    + apply Forall_app_2; [done|]. apply Forall_singleton. split; done || lia.
    + constructor.
    + intros Hk0. rewrite He, <- take_zslice by lia. f_equal. symmetry.
      apply zslice_run; try lia. intros j Hj. rewrite Hd1, <- Z.add_assoc. apply Hrun. lia.
  - exists 0, ts. unfold adv. simpl. rewrite !Z.add_0_r, !Z.sub_0_r. split_and!; done || lia.
  - simpl. unfold zlen in *. destruct Hinv. lia.
Qed.

(** What one turn of the main loop costs: a literal turn reads one or two bytes
    and may make one full flush; a run turn reads [130 * (t - 1) + last] bytes,
    emits [t] marks and leaves the literal buffer empty. *)
Definition step_cost (s s' : rle_state) (f sv f' sv' : Z) : Prop :=
  (exists r, 1 <= r <= 2 /\ dp s' = dp s + r /\ sv <= sv' /\
     (f' = f /\ out s' = out s \/
      f' = f + 1 /\ buf s' = [] /\ zlen (out s') = zlen (out s) + 128)) \/
  (exists t last, 1 <= t /\ 3 <= last <= 130 /\ f' = f /\ buf s' = [] /\
     dp s' = dp s + (130 * (t - 1) + last) /\
     sv + (130 * (t - 1) + last) - 2 * t - 1 <= sv' /\
     zlen (out s') <= zlen (out s) + 127 + 2 * t).

(** The end of a literal turn. *)
Lemma rle_flush_spec s0 s k f sv ts r :
  rle_inv source s k f sv ts -> zlen (buf s) <= 128 -> 0 <= sv -> 1 <= r <= 2 ->
  dp s = dp s0 + r -> out s = out s0 ->
  exists s' k' f' sv' ts', rle_inv source s' k' f' sv' ts' /\ zlen (buf s') <= 126 /\
    0 <= sv' /\ step_cost s0 s' f sv f' sv' /\
    k' = k + Z.max 0 (zlen (buf s) - 127) /\
    (if zlen (buf s) >=? MAX_SINGLE_STORE_SIZE then store_single_buf true s else Ok s) = Ok s'.
Proof.
  intros Hinv Hb Hsv Hr Hd Ho. unfold MAX_SINGLE_STORE_SIZE. rewrite Z.geb_leb.
  destruct (Z.leb_spec 127 (zlen (buf s))).
  - destruct (store_single_full s k f sv ts Hinv) as (s' & He & Hb' & Hd' & Ho' & Hinv'); [lia|].
    eexists _, _, _, _, _. split; [exact Hinv'|]. rewrite He. split_and!; try done; try lia.
    + by rewrite Hb'.
    + left. exists r. split_and!; try lia. right. split_and!; try done. by rewrite Ho', Ho.
  - eexists _, _, _, _, _. split; [exact Hinv|]. split_and!; try done; try lia.
    left. exists r. split_and!; try lia. left. done.
Qed.

(** One turn of the main loop.  Bytes are lost exactly when a literal pair hits
    a buffer of 126 bytes, which overruns a buffer of 127. *)
Lemma rle_step_spec s k f sv ts :
  rle_inv source s k f sv ts -> 0 <= sv -> zlen (buf s) <= 126 -> dp s + 3 <= zlen source ->
  exists s' k' f' sv' ts', rle_inv source s' k' f' sv' ts' /\ zlen (buf s') <= 126 /\
    0 <= sv' /\ step_cost s s' f sv f' sv' /\
    (k' = k /\ (forall cap, 127 <= cap -> rle_step cap source s = Ok s') \/
     k' = k + 1 /\
     (forall cap, 127 <= cap -> rle_step cap source s = if 128 <=? cap then Ok s' else Ub)).
Proof.
  intros Hinv Hsv Hb Hd. pose proof (inv_dp _ _ _ _ _ _ Hinv) as Hdp. unfold rle_step.
  destruct (rd_in_range source (dp s)) as [a Ha]; [lia|].
  destruct (rd_in_range source (dp s + 1)) as [b Hb1]; [lia|].
  destruct (rd_in_range source (dp s + 2)) as [c Hc]; [lia|].
  rewrite Ha, Hb1, Hc. simpl mbind.
  destruct (Z.eqb_spec a b) as [->|Hne]; [destruct (Z.eqb_spec b c) as [->|Hne]|].
  - (* a run *)
    destruct (returns_eq _ _ (rle_scan_spec (dp s) c (S (length source)) ltac:(lia) ltac:(lia)
      ltac:(lia) ltac:(intros j Hj; assert (j = 0 \/ j = 1 \/ j = 2) as [->|[->| ->]] by lia;
                       rewrite ?Z.add_0_r; done)))
      as (ci & -> & Hci & Hend & Hrun). simpl mbind.
    assert (exists s1 sv1 ts1, (if negb (zlen (buf s) =? 0) then store_single_buf false s else Ok s)
        = Ok s1 /\ buf s1 = [] /\ dp s1 = dp s /\ zlen (out s1) <= zlen (out s) + 127 /\
        sv - 1 <= sv1 /\ rle_inv source s1 k f sv1 ts1) as
      (s1 & sv1 & ts1 & -> & Hb' & Hd1 & Ho1 & Hsv1 & Hinv1).
    { pose proof (zlen_nonneg (buf s)). destruct (Z.eqb_spec (zlen (buf s)) 0) as [Hz|Hnz]; simpl.
      - exists s, sv, ts. apply zlen_0_nil in Hz. split_and!; done || lia.
      - destruct (store_single_part s k f sv ts Hinv) as (s' & ? & ? & ? & ? & ?); [lia|].
        exists s', (sv - 1), (ts ++ [Lits (buf s)]). split_and!; done || lia. }
    simpl mbind. rewrite Hd1, Ha. simpl mbind.
    destruct (returns_eq _ _ (rle_emit_spec s1 k f sv1 ts1 c ci (S (length source)) Hinv1 Hb'
      (rd_byte _ _ _ Hsource Hc) Hci ltac:(lia) ltac:(by rewrite Hd1) ltac:(lia)))
      as (s2 & He & t & last & ts2 & Ht & Hl & Hb2 & Hd2 & Ho2 & Hinv2).
    eexists s2, k, f, _, ts2. split; [exact Hinv2|]. rewrite Hb2. split_and!.
    + done.
    + lia.
    + right. exists t, last. split_and!; done || lia.
    + left. split; [done|]. intros cap Hcap. rewrite He. simpl mbind. rewrite Hb2. done.
  - (* a pair of literals *)
    destruct (buf_copy_ctrl_inv s k f sv ts Hinv) as (s1 & Hinv1 & Hd1 & Ho1 & Hl1 & He1); [lia|].
    destruct (buf_copy_ctrl_inv s1 k f sv ts Hinv1) as (s2 & Hinv2 & Hd2 & Ho2 & Hl2 & He2); [lia|].
    destruct (rle_flush_spec s s2 k f sv ts 2 Hinv2) as
      (s' & k' & f' & sv' & ts' & Hinv' & Hb' & Hsv' & Hcost & Hk' & He'); try lia; [congruence|].
    exists s', k', f', sv', ts'. split_and!; try done.
    destruct (Z.eq_dec (zlen (buf s)) 126) as [H126|].
    + right. split; [lia|]. intros cap Hcap. rewrite He1.
      destruct (Z.ltb_spec (zlen (buf s)) cap); [|lia]. simpl mbind. rewrite He2.
      destruct (Z.ltb_spec (zlen (buf s1)) cap), (Z.leb_spec 128 cap); try lia; simpl mbind; done.
    + left. split; [lia|]. intros cap Hcap. rewrite He1.
      destruct (Z.ltb_spec (zlen (buf s)) cap); [|lia]. simpl mbind. rewrite He2.
      destruct (Z.ltb_spec (zlen (buf s1)) cap); [|lia]. done.
  - (* one literal *)
    destruct (buf_copy_ctrl_inv s k f sv ts Hinv) as (s1 & Hinv1 & Hd1 & Ho1 & Hl1 & He1); [lia|].
    destruct (rle_flush_spec s s1 k f sv ts 1 Hinv1) as
      (s' & k' & f' & sv' & ts' & Hinv' & Hb' & Hsv' & Hcost & Hk' & He'); try lia; [congruence|].
    exists s', k', f', sv', ts'. split_and!; try done.
    left. split; [lia|]. intros cap Hcap. rewrite He1.
    destruct (Z.ltb_spec (zlen (buf s)) cap); [|lia]. done.
Qed.

(** A finished state: the whole source is in the tokens. *)
Definition rle_done (k f sv : Z) (ts : list rle_tok) : Prop :=
  Forall wf_tok ts /\ zlen (expand ts) + k = zlen source /\ (k = 0 -> expand ts = source) /\
  0 <= k /\ (k = 0 \/ 128 <= zlen source) /\ zlen (encode ts) + sv = zlen source + f.

Lemma rle_inv_done s k f sv ts :
  rle_inv source s k f sv ts -> dp s = zlen source -> buf s = [] ->
  rle_done k f sv ts /\ out s = encode ts.
Proof.
  intros [Ho Hw Hd Hl Hk Hb He Hc Hs Hlo] Hdp Hbuf. rewrite Hbuf, Hdp in *.
  split; [|done]. unfold rle_done. rewrite <- Ho. split_and!; try done; zl.
  intros ->. specialize (He eq_refl). rewrite app_nil_r in He. rewrite He.
  apply take_ge. unfold zlen. lia.
Qed.

Lemma store_single_dp r d d' o b s' :
  store_single_buf r (RleState d o b) = Ok s' ->
  store_single_buf r (RleState d' o b) = Ok (RleState d' (out s') (buf s')).
Proof.
  unfold store_single_buf; simpl. destruct r; [|by intros [= <-]].
  destruct (rdn _ _ _); simpl; try done. by intros [= <-].
Qed.

(** The flush after the loop, on at most 128 literals. *)
Lemma rle_flush_rest_spec s k f sv ts d :
  rle_inv source s k f sv ts -> dp s = zlen source -> zlen (buf s) <= 128 ->
  exists k' f' sv' ts', rle_done k' f' sv' ts' /\
    f' - sv' <= f + 1 - sv /\ k' = k + Z.max 0 (zlen (buf s) - 127) /\
    rle_flush_rest (RleState d (out s) (buf s)) = Ok (encode ts' ++ [0]).
Proof.
  intros Hinv Hdp Hle. unfold rle_flush_rest, MAX_SINGLE_STORE_SIZE. simpl buf.
  rewrite Z.geb_leb. pose proof (zlen_nonneg (buf s)). destruct s as [ds os bs]; simpl in *.
  destruct (Z.leb_spec 127 (zlen bs)).
  - destruct (store_single_full _ k f sv ts Hinv) as (s2 & He2 & Hb2 & Hd2 & _ & Hinv2); [done|].
    rewrite (store_single_dp _ _ d _ _ _ He2). simpl mbind. simpl buf. rewrite Hb2. simpl.
    destruct (rle_inv_done _ _ _ _ _ Hinv2) as [Hdone Ho]; [simpl in *; congruence|done|].
    eexists _, _, _, _. split; [exact Hdone|]. simpl. rewrite Ho. split_and!; done || lia.
  - simpl mbind. simpl buf. destruct (Z.eqb_spec (zlen bs) 0) as [Hz|Hnz]; cbn [negb].
    + apply zlen_0_nil in Hz. simpl in Hz. destruct (rle_inv_done _ _ _ _ _ Hinv Hdp Hz) as [Hdone Ho].
      eexists _, _, _, _. split; [exact Hdone|]. simpl in *. rewrite Ho. split_and!; done || lia.
    + destruct (store_single_part _ k f sv ts Hinv) as (s2 & He2 & Hb2 & Hd2 & _ & Hinv2); [simpl; lia|].
      rewrite (store_single_dp _ _ d _ _ _ He2). simpl.
      destruct (rle_inv_done _ _ _ _ _ Hinv2) as [Hdone Ho]; [simpl in *; congruence|done|].
      eexists _, _, _, _. split; [exact Hdone|]. rewrite Ho. split_and!; done || lia.
Qed.

(** After the loop at most two bytes are left. *)
Lemma rle_finish_spec s k f sv ts :
  rle_inv source s k f sv ts -> zlen (buf s) <= 126 -> zlen source < dp s + 3 ->
  exists k' f' sv' ts', rle_done k' f' sv' ts' /\ f' - sv' <= f + 1 - sv /\
    let written := encode ts' ++ [0] in
    (k' = k /\ (forall cap, 127 <= cap -> rle_finish cap source s = Ok written) \/
     k' = k + 1 /\
     (forall cap, 127 <= cap -> rle_finish cap source s = if 128 <=? cap then Ok written else Ub)).
Proof.
  intros [Ho Hw Hd Hl Hk Hb He Hc Hs Hlo] Hbuf Hlt. unfold rle_finish.
  rewrite rdn_Ok by lia. simpl mbind.
  set (rest := zslice source (dp s) (zlen source - dp s)).
  assert (Hrest : zlen rest = zlen source - dp s) by (unfold rest; rewrite zlen_zslice; lia).
  pose (s1 := RleState (zlen source) (out s) (buf s ++ rest)).
  assert (Hinv1 : rle_inv source s1 k f sv ts).
  { split; simpl; zl; try done.
    - apply Forall_app_2; [done|]. by apply bytes_zslice.
    - intros ->. rewrite app_assoc, He by done. unfold rest. rewrite take_zslice by lia.
      f_equal. lia. }
  destruct (rle_flush_rest_spec s1 k f sv ts (dp s) Hinv1) as
    (k' & f' & sv' & ts' & Hdone & Hcost & Hk' & Hflush); [done|simpl; zl|].
  simpl in *. rewrite zlen_app in Hk'. exists k', f', sv', ts'. split_and!; try done.
  destruct (Z.le_gt_cases (zlen (buf s) + zlen rest) 127).
  - left. split; [lia|]. intros cap Hcap.
    destruct (Z.leb_spec (zlen (buf s) + zlen rest) cap); [done|lia].
  - right. split; [lia|]. intros cap Hcap.
    destruct (Z.leb_spec (zlen (buf s) + zlen rest) cap), (Z.leb_spec 128 cap); lia || done.
Qed.

(** The last turn of the loop started below the result limit. *)
Definition last_turn (rm : Z) (s : rle_state) (f sv : Z) : Prop :=
  (out s = [] /\ f = 0) \/
  exists s0 f0 sv0, zlen (out s0) < rm /\ zlen (out s0) + zlen (buf s0) + sv0 = dp s0 + f0 /\
    0 <= f0 /\ 128 * f0 <= zlen (out s0) /\ 0 <= sv0 /\ zlen (buf s0) <= 126 /\
    dp s0 + 3 <= zlen source /\ step_cost s0 s f0 sv0 f sv.

(** The state of the loop over a buffer of at least 128 bytes, next to what the
    loop over a buffer of exactly 127 bytes does ([loop127]). *)
Definition rle_loop_inv (rm : Z) (loop127 : res (list Z + rle_state)) (s : rle_state)
    (k f sv : Z) (ts : list rle_tok) : Prop :=
  rle_inv source s k f sv ts /\ zlen (buf s) <= 126 /\ 0 <= sv /\ last_turn rm s f sv /\
  (k = 0 /\ (exists fuel, (Z.to_nat (zlen source - dp s) < fuel)%nat /\
               loop127 = iter fuel (rle_loop_body 127 source rm) s) \/
   1 <= k /\ loop127 = Ub).

Lemma rle_loop_body_turn cap rm s :
  dp s + 3 <= zlen source -> zlen (out s) < rm ->
  rle_loop_body cap source rm s = (s' ← rle_step cap source s; Ok (inl s')).
Proof.
  intros. unfold rle_loop_body, THRESHOLD. destruct (Z.leb_spec 3 (zlen source - dp s)); [|lia].
  rewrite Z.geb_leb. destruct (Z.leb_spec rm (zlen (out s))); [lia|done].
Qed.

Lemma rle_loop_inv_step cap rm loop127 s k f sv ts :
  128 <= cap -> rle_loop_inv rm loop127 s k f sv ts ->
  dp s + 3 <= zlen source -> zlen (out s) < rm ->
  exists s', rle_step cap source s = Ok s' /\ dp s < dp s' <= zlen source /\
    exists k' f' sv' ts', rle_loop_inv rm loop127 s' k' f' sv' ts'.
Proof.
  intros Hcap (Hinv & Hb & Hsv & Hlast & Hl127) Hd Ho.
  destruct (rle_step_spec s k f sv ts Hinv Hsv Hb Hd) as
    (s' & k' & f' & sv' & ts' & Hinv' & Hb' & Hsv' & Hcost & Hcases).
  assert (Hdp : dp s < dp s' <= zlen source).
  { destruct Hcost as [(r & ? & ? & ?)|(t & last & ? & ? & ? & ? & ? & ?)], Hinv'; lia. }
  exists s'. split; [destruct Hcases as [[_ Hc]|[_ Hc]]; rewrite Hc by lia; ztests; done || lia|].
  split; [done|]. exists k', f', sv', ts'. split_and!; try done.
  - right. exists s, f, sv. destruct Hinv as [? ? ? ? ? ? ? ? [? ?] ?]. split_and!; done || lia.
  - destruct Hl127 as [(Hk0 & fuel & Hfuel & He)|[Hk1 HUb]].
    2: { right. destruct Hcases as [[? _]|[? _]]; split; done || lia. }
    destruct fuel as [|fuel]; [lia|]. rewrite iter_S in He.
    rewrite rle_loop_body_turn in He by done.
    destruct Hcases as [[Hkk Hc]|[Hkk Hc]]; rewrite Hc in He by lia; simpl in He.
    + left. split; [lia|]. exists fuel. split; [lia|]. done.
    + right. split; [lia|]. done.
Qed.

(** The main loop over a buffer of at least 128 bytes always ends; [loop127] ends
    the same way or overruns its buffer. *)
Lemma rle_loop_spec cap rm loop127 s k f sv ts fuel :
  128 <= cap -> rle_loop_inv rm loop127 s k f sv ts ->
  (Z.to_nat (zlen source - dp s) < fuel)%nat ->
  returns (iter fuel (rle_loop_body cap source rm) s) (fun r =>
    match r with
    | inl written => exists s' k' f' sv' ts', written = out s' /\
        rle_loop_inv rm loop127 s' k' f' sv' ts' /\ dp s' + 3 <= zlen source /\
        rm <= zlen written
    | inr s' => zlen source < dp s' + 3 /\
        exists k' f' sv' ts', rle_loop_inv rm loop127 s' k' f' sv' ts'
    end).
Proof.
  intros Hcap HJ Hfuel.
  apply (iter_returns (fun s => exists k f sv ts, rle_loop_inv rm loop127 s k f sv ts)
    (fun s => Z.to_nat (zlen source - dp s))); [|eauto|done].
  clear s k f sv ts HJ Hfuel. intros s (k & f & sv & ts & HJ).
  unfold rle_loop_body, THRESHOLD. destruct (Z.leb_spec 3 (zlen source - dp s)).
  - rewrite Z.geb_leb. destruct (Z.leb_spec rm (zlen (out s))).
    + simpl. exists s, k, f, sv, ts. split_and!; done || lia.
    + destruct (rle_loop_inv_step cap rm loop127 s k f sv ts) as (s' & He & Hdp & Hx);
        [done..|lia|done|].
      rewrite He. simpl. split; [done|lia].
  - simpl. split; [lia|]. eauto 10.
Qed.

(** The output never exceeds the source by more than four bytes, when at least a
    quarter has to be saved. *)
Lemma rle_cost_bound rm s k f sv ts :
  100 * rm <= 75 * zlen source -> rle_inv source s k f sv ts -> 0 <= sv -> last_turn rm s f sv ->
  zlen (out s) <= zlen source + 4 /\ (zlen source < dp s + 3 -> f + 1 - sv <= 4).
Proof.
  intros Hrm [Ho Hw Hd Hl Hk Hb He Hc Hs Hlo] Hsv0 Hlast.
  pose proof (zlen_nonneg (buf s)). pose proof (zlen_nonneg source).
  destruct Hlast as [[Ho0 Hf0]|(s0 & f0 & sv0 & H1 & H2 & H3 & H4 & H5 & H6 & H7 & Hcost)].
  - rewrite Ho0 in *. rewrite zlen_nil in *. lia.
  - pose proof (zlen_nonneg (buf s0)).
    destruct Hcost as [(r & Hr & Hd' & Hsv' & [[-> Ho']|(-> & Hb' & Ho')])|
                       (t & last & Ht & Hla & -> & Hb' & Hd' & Hsv' & Ho')];
      rewrite ?Ho', ?Hb', ?zlen_nil in *; split; lia.
Qed.
End compress_proofs.

(** The limit of the default strategy. *)
Lemma rle_result_max_bound n rate :
  0 <= n -> 100 * rle_result_max n rate <= 100 * n /\
  (25 <= rate -> 100 * rle_result_max n rate <= 75 * n).
Proof.
  intros Hn. unfold rle_result_max. rewrite !Z.gtb_ltb.
  destruct (Z.ltb_spec rate 0), (Z.ltb_spec 99 rate), (Z.ltb_spec (INT_MAX / 100) n); nia.
Qed.

(** What a run over a literal buffer of at least 128 bytes gives, and what the run
    over one of 127 bytes gives. *)
Definition rle_run_post (source : list Z) (rm : Z) (n : Z) (o : list Z)
    (run127 : res (Z * list Z)) : Prop :=
  (100 * rm <= 75 * zlen source -> zlen o <= zlen source + 5) /\
  (n = -1 /\ (run127 = Ok (n, o) \/ run127 = Ub) \/
   exists k f sv ts, rle_done source k f sv ts /\ n = zlen (encode ts) /\ o = encode ts ++ [0] /\
     n < rm /\ (k = 0 /\ run127 = Ok (n, o) \/ 1 <= k /\ run127 = Ub)).

Section run_proofs.
Variables (source : list Z) (rm : Z).
Hypothesis Hsource : bytes source.

Let loop127 := iter (S (length source)) (rle_loop_body 127 source rm) (RleState 0 [] []).

(** Where the loop over 127 bytes stands when the other one leaves. *)
Lemma loop127_exit s k f sv ts :
  rle_loop_inv source rm loop127 s k f sv ts ->
  (zlen source < dp s + 3 ->
     k = 0 /\ loop127 = Ok (inr s) \/ 1 <= k /\ loop127 = Ub) /\
  (dp s + 3 <= zlen source -> rm <= zlen (out s) ->
     loop127 = Ok (inl (out s)) \/ loop127 = Ub).
Proof.
  intros (_ & _ & _ & _ & [(-> & fuel & Hf & ->)|[Hk ->]]); [|auto].
  destruct fuel as [|fuel]; [lia|]. rewrite iter_S.
  split; intros; left; [split; [done|]|].
  all: replace (rle_loop_body 127 source rm s) with
    (Ok (A := rle_state + (list Z + rle_state))
      (inr (if 3 <=? zlen source - dp s then inl (out s) else inr s))).
  1, 3: destruct (Z.leb_spec 3 (zlen source - dp s)); done || lia.
  all: unfold rle_loop_body, THRESHOLD; rewrite Z.geb_leb;
    destruct (Z.leb_spec 3 (zlen source - dp s)), (Z.leb_spec rm (zlen (out s))); done || lia.
Qed.

(** The run over 127 bytes after its loop. *)
Lemma run127_exit s k :
  k = 0 /\ loop127 = Ok (inr s) \/ 1 <= k /\ loop127 = Ub ->
  forall k' ts', (k' = k /\ (forall cap, 127 <= cap -> rle_finish cap source s = Ok (encode ts' ++ [0])) \/
   k' = k + 1 /\ (forall cap, 127 <= cap ->
     rle_finish cap source s = if 128 <=? cap then Ok (encode ts' ++ [0]) else Ub)) ->
  k' = 0 /\ rle_run 127 source rm =
    (if zlen (encode ts') >=? rm then Ok (-1, encode ts' ++ [0])
     else Ok (zlen (encode ts'), encode ts' ++ [0])) \/
  1 <= k' /\ rle_run 127 source rm = Ub.
Proof.
  intros H127 k' ts' Hcases. unfold rle_run. fold loop127.
  destruct H127 as [[-> ->]|[Hk ->]]; simpl mbind.
  - destruct Hcases as [[-> Hc]|[-> Hc]]; rewrite Hc by lia; simpl mbind; [left|right; done].
    split; [done|].
    replace (zlen (encode ts' ++ [0]) - 1) with (zlen (encode ts')) by zl. done.
  - right. split; [destruct Hcases as [[? _]|[? _]]; lia|done].
Qed.

Lemma rle_run_spec cap :
  128 <= cap ->
  returns (rle_run cap source rm)
    (fun '(n, o) => rle_run_post source rm n o (rle_run 127 source rm)).
Proof.
  intros Hcap.
  assert (HJ : rle_loop_inv source rm loop127 (RleState 0 [] []) 0 0 0 []).
  { split_and!; try done; [apply rle_inv_init|by left|]. left. split; [done|].
    eexists. split; [|reflexivity]. simpl. unfold zlen. lia. }
  destruct (returns_eq _ _ (rle_loop_spec source Hsource cap rm loop127 _ _ _ _ _
    (S (length source)) Hcap HJ ltac:(simpl; unfold zlen; lia))) as ([written|s] & Hloop & Hr).
  - destruct Hr as (s & k & f & sv & ts & -> & HJ' & Hd & Hfull).
    destruct (loop127_exit _ _ _ _ _ HJ') as [_ H127].
    destruct HJ' as (Hinv & Hb & Hsv & Hlast & _).
    unfold rle_run at 1. rewrite Hloop. simpl. split.
    { intros Hrm. pose proof (rle_cost_bound source rm s k f sv ts Hrm Hinv Hsv Hlast). lia. }
    left. split; [done|]. unfold rle_run. fold loop127.
    destruct (H127 Hd Hfull) as [-> | ->]; auto.
  - destruct Hr as (Hd & k & f & sv & ts & HJ').
    destruct (loop127_exit _ _ _ _ _ HJ') as [H127 _].
    destruct HJ' as (Hinv & Hb & Hsv & Hlast & _).
    destruct (rle_finish_spec source Hsource s k f sv ts Hinv Hb Hd) as
      (k' & f' & sv' & ts' & Hdone & Hcost & Hcases).
    pose proof (run127_exit s k (H127 Hd) k' ts' Hcases) as H127'.
    unfold rle_run at 1. rewrite Hloop. simpl mbind.
    replace (rle_finish cap source s) with (Ok (encode ts' ++ [0]))
      by (destruct Hcases as [[_ Hc]|[_ Hc]]; rewrite Hc by lia; ztests; done || lia).
    simpl mbind. replace (zlen (encode ts' ++ [0]) - 1) with (zlen (encode ts')) by zl.
    assert (Hb' : 100 * rm <= 75 * zlen source -> zlen (encode ts' ++ [0]) <= zlen source + 5).
    { intros Hrm. pose proof (rle_cost_bound source rm s k f sv ts Hrm Hinv Hsv Hlast) as [_ ?].
      destruct Hdone as (_ & _ & _ & _ & _ & ?). zl. }
    rewrite Z.geb_leb in *. destruct (Z.leb_spec rm (zlen (encode ts'))); simpl; split; try done.
    + left. split; [done|]. destruct H127' as [[_ ?]|[_ ?]]; auto.
    + right. exists k', f', sv', ts'. split_and!; done.
Qed.
End run_proofs.

Lemma rle_compress_spec cap source strategy :
  bytes source -> 128 <= cap ->
  returns (rle_compress cap source strategy) (fun '(n, o) =>
    rle_run_post source
      (rle_result_max (zlen source) (min_comp_rate (default rle_default_strategy strategy)))
      n o (rle_compress 127 source strategy)).
Proof.
  intros Hsrc Hcap. unfold rle_compress.
  set (st := default rle_default_strategy strategy).
  destruct ((zlen source <? min_input_size st) || (zlen source >? max_input_size st)).
  - simpl. pose proof (zlen_nonneg source). split; [rewrite zlen_nil; lia|]. left. auto.
  - by apply rle_run_spec.
Qed.

(** * Theorems *)

(** A successful run that did not overrun a 127-byte buffer is a token stream of the
    source, whatever the size of the buffer. *)
Lemma rle_compress_tokens cap source strategy n o :
  127 <= cap -> bytes source -> rle_compress 127 source strategy <> Ub ->
  rle_compress cap source strategy = Ok (n, o) -> 0 <= n ->
  exists ts, Forall wf_tok ts /\ expand ts = source /\ take (Z.to_nat n) o = encode ts.
Proof.
  intros Hcap Hsrc HUb Hrun Hn.
  pose proof (rle_compress_spec (Z.max cap 128) source strategy Hsrc ltac:(lia)) as Hspec.
  apply returns_eq in Hspec as ([n' o'] & Hrun' & Hb & Hpost).
  assert (Heq : Ok (n, o) = Ok (n', o')).
  { rewrite <- Hrun, <- Hrun'. destruct (Z.eq_dec cap 127) as [->|].
    - destruct Hpost as [(-> & [->|?])|(k & f & sv & ts & _ & _ & _ & _ & [[_ ->]|[_ ?]])];
        congruence.
    - by replace (Z.max cap 128) with cap by lia. }
  injection Heq as -> ->. destruct Hpost as [(-> & _)|(k & f & sv & ts & Hdone & -> & -> & _ & H127)].
  { lia. }
  destruct H127 as [[-> _]|[_ ?]]; [|done].
  destruct Hdone as (Hwf & _ & Hexp & _). exists ts.
  split_and!; [done|by apply Hexp|apply take_zlen_app].
Qed.

(** C30: decompressing what rle_compress produced, with the completeness check, gives
    the source back, for every input on which the literal buffer stays within the 127
    bytes that rle_compress asks palloc for. *)
Theorem rle_roundtrip cap source strategy n o :
  127 <= cap -> bytes source -> rle_compress 127 source strategy <> Ub ->
  rle_compress cap source strategy = Ok (n, o) -> 0 <= n ->
  rle_decompress (take (Z.to_nat n) o) (zlen source) true = Ok (zlen source, source ++ [0]).
Proof.
  intros Hcap Hsrc HUb Hrun Hn.
  destruct (rle_compress_tokens _ _ _ _ _ Hcap Hsrc HUb Hrun Hn) as (ts & Hwf & <- & ->).
  by apply rle_decompress_all.
Qed.

Definition rle_sample : list Z := replicate 40 97 ++ [98; 99; 99; 100].

Lemma rle_roundtrip_witness :
  rle_compress 128 rle_sample None = Ok (7, [165; 97; 4; 98; 99; 99; 100; 0]) /\
  rle_decompress (take 7 [165; 97; 4; 98; 99; 99; 100; 0]) 44 true = Ok (44, rle_sample ++ [0]).
Proof.
  split; [vm_compute; reflexivity|].
  apply (rle_roundtrip 128 rle_sample None 7 [165; 97; 4; 98; 99; 99; 100; 0]);
    [lia|solve_bytes|vm_compute; discriminate|vm_compute; reflexivity|lia].
Defined.

(** C32: when the literal buffer does exceed 127 bytes, a compressed result is never
    readable again: the completeness check of rle_decompress rejects it. *)
Theorem rle_overrun_unreadable cap source strategy :
  128 <= cap -> bytes source -> rle_compress 127 source strategy = Ub ->
  returns (rle_compress cap source strategy) (fun '(n, o) =>
    n = -1 \/
    exists d, rle_decompress (take (Z.to_nat n) o) (zlen source) true = Ok (-1, d)).
Proof.
  intros Hcap Hsrc HUb. pose proof (rle_compress_spec cap source strategy Hsrc Hcap) as Hspec.
  apply returns_eq in Hspec as ([n o] & -> & _ & Hpost). simpl.
  destruct Hpost as [(-> & _)|(k & f & sv & ts & Hdone & -> & -> & _ & H127)]; [by left|right].
  rewrite take_zlen_app. destruct H127 as [[_ ?]|[Hk _]]; [congruence|].
  destruct Hdone as (Hwf & Hlen & _).
  apply rle_decompress_rejects; [done|apply zlen_nonneg|lia].
Qed.

(** 126 literals, a pair and a long run: the second byte of the pair is dropped. *)
Definition rle_lossy_sample : list Z := zrange 126 ++ [9; 9] ++ replicate 300 5.

Lemma rle_overrun_unreadable_witness :
  rle_compress 127 rle_lossy_sample None = Ub /\
  returns (rle_compress 128 rle_lossy_sample None) (fun '(n, o) =>
    n = -1 \/
    exists d, rle_decompress (take (Z.to_nat n) o) (zlen rle_lossy_sample) true = Ok (-1, d)).
Proof.
  split; [vm_compute; reflexivity|].
  apply (rle_overrun_unreadable 128); [lia|solve_bytes|vm_compute; reflexivity].
Defined.

(** a value of at least 32 bytes can be stored by rle_compress and lost: this one
    is reported as compressed to 134 bytes, and decompressing it fails. *)
Theorem rle_data_loss :
  exists o d, rle_compress 128 rle_lossy_sample None = Ok (134, o) /\
    rle_decompress (take 134 o) (zlen rle_lossy_sample) true = Ok (-1, d).
Proof. eexists _, _. split; vm_compute; reflexivity. Qed.

(** sources of at most 127 bytes never fill the literal buffer beyond its size, so
    for them compression is always invertible. *)
Theorem rle_short_roundtrip cap source strategy :
  128 <= cap -> bytes source -> zlen source <= 127 ->
  returns (rle_compress cap source strategy) (fun '(n, o) =>
    n = -1 \/
    rle_decompress (take (Z.to_nat n) o) (zlen source) true = Ok (zlen source, source ++ [0])).
Proof.
  intros Hcap Hsrc Hlen. pose proof (rle_compress_spec cap source strategy Hsrc Hcap) as Hspec.
  apply returns_eq in Hspec as ([n o] & -> & _ & Hpost). simpl.
  destruct Hpost as [(-> & _)|(k & f & sv & ts & Hdone & -> & -> & _)]; [by left|right].
  rewrite take_zlen_app. destruct Hdone as (Hwf & Hl & Hexp & Hk & Hloss & _).
  rewrite <- Hexp by lia. by apply rle_decompress_all.
Qed.

Lemma rle_short_roundtrip_witness :
  zlen rle_sample <= 127 /\
  returns (rle_compress 128 rle_sample None) (fun '(n, o) =>
    n = -1 \/
    rle_decompress (take (Z.to_nat n) o) (zlen rle_sample) true
      = Ok (zlen rle_sample, rle_sample ++ [0])).
Proof.
  split; [vm_compute; discriminate|].
  apply (rle_short_roundtrip 128); [lia|solve_bytes|vm_compute; discriminate].
Defined.

(** with the default strategy rle_compress always returns; the result is -1 or the
    size of the output, at most three quarters of the input, with a terminating zero
    byte after it; and what it writes to dest, on every path, is at most five bytes
    longer than the source. *)
Theorem rle_compress_bounds cap source :
  128 <= cap -> bytes source ->
  returns (rle_compress cap source None) (fun '(n, o) =>
    zlen o <= zlen source + 5 /\
    (n = -1 \/ 32 <= zlen source /\ 0 <= n /\ 100 * n < 75 * zlen source /\ zlen o = n + 1)).
Proof.
  intros Hcap Hsrc. pose proof (rle_compress_spec cap source None Hsrc Hcap) as Hspec.
  destruct (rle_result_max_bound (zlen source) 25 (zlen_nonneg _)) as [_ Hrm].
  unfold rle_compress in *. simpl in *. pose proof (zlen_nonneg source).
  destruct (Z.ltb_spec (zlen source) 32); simpl in *.
  { split; [rewrite zlen_nil; lia|auto]. }
  destruct (zlen source >? INT_MAX); simpl in *.
  { split; [rewrite zlen_nil; lia|auto]. }
  apply returns_eq in Hspec as ([n o] & -> & Hb & Hpost). simpl.
  specialize (Hrm ltac:(lia)). split; [by apply Hb|].
  destruct Hpost as [(-> & _)|(k & f & sv & ts & Hdone & -> & -> & Hlt & _)]; [by left|right].
  pose proof (zlen_nonneg (encode ts)). zl.
Qed.

Lemma rle_compress_bounds_witness :
  returns (rle_compress 128 rle_sample None) (fun '(n, o) =>
    zlen o <= zlen rle_sample + 5 /\
    (n = -1 \/ 32 <= zlen rle_sample /\ 0 <= n /\ 100 * n < 75 * zlen rle_sample /\ zlen o = n + 1)).
Proof. apply (rle_compress_bounds 128); [lia|solve_bytes]. Defined.

(** the bound is reached: on 383 literals rle_compress writes 388 bytes, one more
    than PGLZ_MAX_OUTPUT(383), the room its caller gives it. *)
Theorem rle_output_overrun :
  exists o, rle_compress 128 (map (fun i => i mod 251) (zrange 383)) None = Ok (-1, o) /\
    zlen o = 383 + 5.
Proof. eexists. split; vm_compute; reflexivity. Qed.

(** decompressing a prefix of [len] bytes of a compressed value gives a buffer that
    starts with these bytes; it is never shorter, and at most 129 bytes longer than
    asked for, because the last mark is always expanded whole. *)
Theorem rle_slice cap source strategy n o len :
  127 <= cap -> bytes source -> rle_compress 127 source strategy <> Ub ->
  rle_compress cap source strategy = Ok (n, o) -> 0 <= n -> 0 <= len <= zlen source ->
  exists d, rle_decompress (take (Z.to_nat n) o) len false = Ok (zlen d, d ++ [0]) /\
    len <= zlen d < len + 130 /\ take (Z.to_nat len) d = take (Z.to_nat len) source /\
    d = take (length d) source.
Proof.
  intros Hcap Hsrc HUb Hrun Hn Hlen.
  destruct (rle_compress_tokens _ _ _ _ _ Hcap Hsrc HUb Hrun Hn) as (ts & Hwf & <- & ->).
  rewrite rle_decompress_tokens by done. simpl andb. cbn iota.
  destruct (toks_until_len ts len Hwf Hlen) as (H1 & H2 & H3).
  destruct (toks_until_prefix ts len) as [us Hus]. set (vs := toks_until ts len) in *. clearbody vs.
  exists (expand vs).
  replace (expand ts) with (expand vs ++ expand us) by (rewrite <- expand_app; congruence).
  rewrite take_app_length.
  split_and!; try done.
  - destruct (Z.eq_dec len 0) as [E|]; [|lia]. rewrite (H3 E), E. done.
  - rewrite take_app_le; [done|]. unfold zlen in *. lia.
Qed.

Lemma rle_slice_witness :
  exists d, rle_decompress (take 7 [165; 97; 4; 98; 99; 99; 100; 0]) 5 false = Ok (zlen d, d ++ [0]) /\
    5 <= zlen d < 5 + 130 /\ take 5 d = take 5 rle_sample /\ d = take (length d) rle_sample.
Proof.
  apply (rle_slice 128 rle_sample None 7 [165; 97; 4; 98; 99; 99; 100; 0] 5);
    [lia|solve_bytes|vm_compute; discriminate|vm_compute; reflexivity|lia|].
  change (zlen rle_sample) with 44. lia.
Defined.

(** on any bytes whatever rle_decompress ends: it returns after at most as many marks
    as there are bytes, or it reads past the end of its input; and it never writes more
    than 130 bytes past [rawsize]. *)
Theorem rle_decompress_total source rawsize check :
  bytes source -> 0 <= rawsize ->
  match rle_decompress source rawsize check with
  | Ok (n, d) => n <= rawsize + 129 /\ zlen d <= rawsize + 130
  | Ub => True
  | _ => False
  end.
Proof.
  intros Hsrc Hraw. unfold rle_decompress.
  assert (Hl : match iter (S (length source)) (rle_decompress_body source rawsize) (0, []) with
               | Ok (sp, d) => zlen d <= rawsize + 129 | Ub => True | _ => False end).
  { apply (iter_rule (fun x => 0 <= fst x /\ zlen (snd x) <= rawsize + 129)
      (fun x => Z.to_nat (zlen source - fst x))
      (fun r => match r with Ok (sp, d) => zlen d <= rawsize + 129 | Ub => True | _ => False end)).
    - intros [sp d]; simpl; intros [Hsp Hd]. unfold rle_decompress_body.
      destruct (Z.ltb_spec sp (zlen source)), (Z.ltb_spec (zlen d) rawsize); simpl; try lia.
      destruct (rd_in_range source sp) as [m Hm]; [lia|]. rewrite Hm. simpl mbind.
      pose proof (rd_byte _ _ _ Hsrc Hm) as Hb. unfold is_byte in Hb.
      change (Z.shiftl 1 7) with 128. rewrite Z.geb_leb. destruct (Z.leb_spec 128 m).
      + destruct (rd source (sp + 1)) eqn:Hr; try done; [|unfold rd in Hr; by repeat case_match..].
        rewrite land_127 by lia. simpl. destruct (Z.ltb_spec m 128); [lia|]. unfold THRESHOLD. zl.
      + destruct (rdn source (sp + 1) m) eqn:Hr; try done; [|unfold rdn in Hr; by repeat case_match..].
        apply rdn_Ok_inv in Hr as (? & ? & ? & ->). simpl. rewrite zlen_app, zlen_zslice by lia. lia.
    - split; [done|]. unfold zlen; simpl; lia.
    - simpl. unfold zlen. lia. }
  destruct (iter _ _ _) as [[sp d]| | |]; simpl; try done.
  destruct (check && _); zl.
Qed.

Lemma rle_decompress_total_witness :
  match rle_decompress [165; 97; 4; 98; 99; 99; 100] 41 true with
  | Ok (n, d) => n <= 41 + 129 /\ zlen d <= 41 + 130
  | Ub => True
  | _ => False
  end.
Proof. apply rle_decompress_total; [solve_bytes|lia]. Defined.

(** rle_decompress does not notice a truncated input: on a literal mark that announces
    more bytes than there are it reads past the end of the compressed value. *)
Theorem rle_decompress_truncated m data rawsize check :
  is_byte m -> m < 128 -> zlen data < m -> 0 < rawsize ->
  rle_decompress (m :: data) rawsize check = Ub.
Proof.
  intros Hb Hm Hd Hr. unfold rle_decompress. rewrite iter_S. unfold rle_decompress_body.
  pose proof (zlen_nonneg data). cbv beta iota. rewrite zlen_cons. change (zlen []) with 0.
  destruct (Z.ltb_spec 0 (1 + zlen data)), (Z.ltb_spec 0 rawsize); try lia. simpl andb. cbv iota.
  rewrite rd_cons_0. simpl mbind. change (Z.shiftl 1 7) with 128. rewrite Z.geb_leb.
  destruct (Z.leb_spec 128 m); [lia|]. unfold rdn. rewrite zlen_cons.
  destruct (Z.leb_spec (0 + 1 + m) (1 + zlen data)); [lia|]. by rewrite andb_false_r.
Qed.

Lemma rle_decompress_truncated_witness : rle_decompress [5; 1; 2] 10 true = Ub.
Proof. apply rle_decompress_truncated; unfold is_byte; try lia. vm_compute; reflexivity. Defined.
