(* ===== verification/Varatt.v ===== *)
(** The varlena header macros of src/include/varatt.h (little-endian branch), with the
    compressed-datum header of src/include/access/toast_internals.h and the toast
    pointer of src/include/access/detoast.h.

    A [struct varlena *] is the list of the bytes it points to; the list may extend
    past the datum, as memory does.  The macros read headers through bounds checks.
    The second half gives the five physical forms of a value ([mk_4b_u], [mk_4b_c],
    [mk_1b], [mk_ondisk], [mk_pointer]) and what every macro says of each. *)

From S2P Require Import Prelude.

Definition VARHDRSZ : Z := 4.
Definition VARHDRSZ_EXTERNAL : Z := 2.
Definition VARHDRSZ_COMPRESSED : Z := 8.
Definition VARHDRSZ_SHORT : Z := 1.
Definition VARATT_SHORT_MAX : Z := 0x7F.
Definition VARLENA_EXTSIZE_BITS : Z := 30.
Definition VARLENA_EXTSIZE_MASK : Z := Z.shiftl 1 VARLENA_EXTSIZE_BITS - 1.

(** struct varatt_external *)
Record varatt_external := {
  va_rawsize : Z;
  va_extinfo : Z;
  va_valueid : Z;
  va_toastrelid : Z
}.

(** enum vartag_external *)
Definition VARTAG_INDIRECT : Z := 1.
Definition VARTAG_EXPANDED_RO : Z := 2.
Definition VARTAG_EXPANDED_RW : Z := 3.
Definition VARTAG_ONDISK : Z := 18.

Definition VARTAG_IS_EXPANDED (tag : Z) : bool := Z.land tag (Z.lnot 1) =? VARTAG_EXPANDED_RO.

(** sizeof(varatt_indirect) = sizeof(varatt_expanded) = 8, sizeof(varatt_external) = 16 *)
Definition VARTAG_SIZE (tag : Z) : Z :=
  if tag =? VARTAG_INDIRECT then 8
  else if VARTAG_IS_EXPANDED tag then 8
  else if tag =? VARTAG_ONDISK then 16
  else 0.

(** Header tests; [va_header] of varattrib_1b is the first byte. *)
Definition VARATT_IS_4B (p : list Z) : res bool := h ← rd p 0; Ok (Z.land h 0x01 =? 0x00).
Definition VARATT_IS_4B_U (p : list Z) : res bool := h ← rd p 0; Ok (Z.land h 0x03 =? 0x00).
Definition VARATT_IS_4B_C (p : list Z) : res bool := h ← rd p 0; Ok (Z.land h 0x03 =? 0x02).
Definition VARATT_IS_1B (p : list Z) : res bool := h ← rd p 0; Ok (Z.land h 0x01 =? 0x01).
Definition VARATT_IS_1B_E (p : list Z) : res bool := h ← rd p 0; Ok (h =? 0x01).
Definition VARATT_NOT_PAD_BYTE (p : list Z) : res bool := h ← rd p 0; Ok (negb (h =? 0)).

(** Sizes: uint32 for the four-byte header, so subtracting from it wraps. *)
Definition VARSIZE_4B (p : list Z) : res Z := h ← rd32 p 0; Ok (Z.land (Z.shiftr h 2) 0x3FFFFFFF).
Definition VARSIZE_1B (p : list Z) : res Z := h ← rd p 0; Ok (Z.land (Z.shiftr h 1) 0x7F).
Definition VARTAG_1B_E (p : list Z) : res Z := rd p 1.

(** Stores: the header bytes are replaced. *)
Definition SET_VARSIZE_4B (p : list Z) (len : Z) : list Z :=
  le32 (Z.shiftl (wrap32 len) 2) ++ drop 4 p.
Definition SET_VARSIZE_4B_C (p : list Z) (len : Z) : list Z :=
  le32 (Z.lor (Z.shiftl (wrap32 len) 2) 0x02) ++ drop 4 p.
Definition SET_VARSIZE_1B (p : list Z) (len : Z) : list Z :=
  Z.lor (Z.shiftl (len mod 256) 1) 0x01 mod 256 :: drop 1 p.
Definition SET_VARTAG_1B_E (p : list Z) (tag : Z) : list Z :=
  0x01 :: tag mod 256 :: drop 2 p.

Definition VARSIZE := VARSIZE_4B.
Definition VARSIZE_SHORT := VARSIZE_1B.
Definition VARTAG_EXTERNAL := VARTAG_1B_E.
Definition VARSIZE_EXTERNAL (p : list Z) : res Z :=
  tag ← VARTAG_EXTERNAL p; Ok (VARHDRSZ_EXTERNAL + VARTAG_SIZE tag).

Definition VARATT_IS_COMPRESSED := VARATT_IS_4B_C.
Definition VARATT_IS_EXTERNAL := VARATT_IS_1B_E.
Definition VARATT_IS_EXTERNAL_TAG (test : Z -> bool) (p : list Z) : res bool :=
  e ← VARATT_IS_EXTERNAL p;
  if (e : bool) then (tag ← VARTAG_EXTERNAL p; Ok (test tag)) else Ok false.
Definition VARATT_IS_EXTERNAL_ONDISK := VARATT_IS_EXTERNAL_TAG (Z.eqb VARTAG_ONDISK).
Definition VARATT_IS_EXTERNAL_INDIRECT := VARATT_IS_EXTERNAL_TAG (Z.eqb VARTAG_INDIRECT).
Definition VARATT_IS_EXTERNAL_EXPANDED_RO := VARATT_IS_EXTERNAL_TAG (Z.eqb VARTAG_EXPANDED_RO).
Definition VARATT_IS_EXTERNAL_EXPANDED_RW := VARATT_IS_EXTERNAL_TAG (Z.eqb VARTAG_EXPANDED_RW).
Definition VARATT_IS_EXTERNAL_EXPANDED := VARATT_IS_EXTERNAL_TAG VARTAG_IS_EXPANDED.
Definition VARATT_IS_EXTERNAL_NON_EXPANDED :=
  VARATT_IS_EXTERNAL_TAG (fun tag => negb (VARTAG_IS_EXPANDED tag)).
Definition VARATT_IS_SHORT := VARATT_IS_1B.
Definition VARATT_IS_EXTENDED (p : list Z) : res bool := u ← VARATT_IS_4B_U p; Ok (negb u).

Definition SET_VARSIZE := SET_VARSIZE_4B.
Definition SET_VARSIZE_SHORT := SET_VARSIZE_1B.
Definition SET_VARSIZE_COMPRESSED := SET_VARSIZE_4B_C.
Definition SET_VARTAG_EXTERNAL := SET_VARTAG_1B_E.

Definition VARATT_CAN_MAKE_SHORT (p : list Z) : res bool :=
  u ← VARATT_IS_4B_U p;
  if (u : bool) then
    sz ← VARSIZE p; Ok (wrap32 (sz - VARHDRSZ) + VARHDRSZ_SHORT <=? VARATT_SHORT_MAX)
  else Ok false.
Definition VARATT_CONVERTED_SHORT_SIZE (p : list Z) : res Z :=
  sz ← VARSIZE p; Ok (wrap32 (sz - VARHDRSZ) + VARHDRSZ_SHORT).

Definition VARSIZE_ANY (p : list Z) : res Z :=
  e ← VARATT_IS_1B_E p;
  if (e : bool) then VARSIZE_EXTERNAL p else
  s ← VARATT_IS_1B p;
  if (s : bool) then VARSIZE_1B p else VARSIZE_4B p.

Definition VARSIZE_ANY_EXHDR (p : list Z) : res Z :=
  e ← VARATT_IS_1B_E p;
  if (e : bool) then (sz ← VARSIZE_EXTERNAL p; Ok (sz - VARHDRSZ_EXTERNAL)) else
  s ← VARATT_IS_1B p;
  if (s : bool) then (sz ← VARSIZE_1B p; Ok (sz - VARHDRSZ_SHORT))
  else (sz ← VARSIZE_4B p; Ok (wrap32 (sz - VARHDRSZ))).

(** Data pointers, as offsets from the start of the datum. *)
Definition VARDATA : Z := 4.
Definition VARDATA_SHORT : Z := 1.
Definition VARDATA_EXTERNAL : Z := 2.
Definition VARDATA_ANY (p : list Z) : res Z :=
  s ← VARATT_IS_1B p; Ok (if (s : bool) then VARDATA_SHORT else VARDATA).

(** Fields of a compressed-in-line datum: va_tcinfo is the second word. *)
Definition VARDATA_COMPRESSED_GET_EXTSIZE (p : list Z) : res Z :=
  tc ← rd32 p 4; Ok (Z.land tc VARLENA_EXTSIZE_MASK).
Definition VARDATA_COMPRESSED_GET_COMPRESS_METHOD (p : list Z) : res Z :=
  tc ← rd32 p 4; Ok (Z.shiftr tc VARLENA_EXTSIZE_BITS).
(** TOAST_COMPRESS_EXTSIZE, TOAST_COMPRESS_METHOD: the same word, by another name. *)
Definition TOAST_COMPRESS_EXTSIZE := VARDATA_COMPRESSED_GET_EXTSIZE.
Definition TOAST_COMPRESS_METHOD := VARDATA_COMPRESSED_GET_COMPRESS_METHOD.
Definition TOAST_COMPRESS_SET_SIZE_AND_COMPRESS_METHOD (p : list Z) (len cm : Z) : list Z :=
  take 4 p ++ le32 (Z.lor len (Z.shiftl cm VARLENA_EXTSIZE_BITS)) ++ drop 8 p.

(** Fields of a toast pointer. *)
Definition VARATT_EXTERNAL_GET_EXTSIZE (tp : varatt_external) : Z :=
  Z.land (va_extinfo tp) VARLENA_EXTSIZE_MASK.
Definition VARATT_EXTERNAL_GET_COMPRESS_METHOD (tp : varatt_external) : Z :=
  Z.shiftr (va_extinfo tp) VARLENA_EXTSIZE_BITS.
Definition VARATT_EXTERNAL_SET_SIZE_AND_COMPRESS_METHOD (tp : varatt_external) (len cm : Z)
    : varatt_external :=
  {| va_rawsize := va_rawsize tp;
     va_extinfo := Z.lor len (Z.shiftl cm VARLENA_EXTSIZE_BITS);
     va_valueid := va_valueid tp; va_toastrelid := va_toastrelid tp |}.
(** The left operand is a uint32, so the int32 difference is compared as a uint32. *)
Definition VARATT_EXTERNAL_IS_COMPRESSED (tp : varatt_external) : bool :=
  VARATT_EXTERNAL_GET_EXTSIZE tp <? wrap32 (va_rawsize tp - VARHDRSZ).

(** VARATT_EXTERNAL_GET_POINTER: memcpy of the 16 bytes after the two header bytes. *)
Definition VARATT_EXTERNAL_GET_POINTER (p : list Z) : res varatt_external :=
  a ← rd32 p 2; b ← rd32 p 6; c ← rd32 p 10; d ← rd32 p 14;
  Ok {| va_rawsize := int32_of a; va_extinfo := b; va_valueid := c; va_toastrelid := d |}.

(** ** The physical forms of a value *)

(** Plain four-byte header. *)
Definition mk_4b_u (data : list Z) : list Z := le32 (4 * (zlen data + 4)) ++ data.
(** Compressed in line: total length, then raw size and method, then the compressed bytes. *)
Definition mk_4b_c (raw method : Z) (payload : list Z) : list Z :=
  le32 (4 * (zlen payload + 8) + 2) ++ le32 (raw + method * 2 ^ 30) ++ payload.
(** One-byte header. *)
Definition mk_1b (data : list Z) : list Z := (2 * (zlen data + 1) + 1) :: data.
(** Toast pointer. *)
Definition mk_ondisk (tp : varatt_external) : list Z :=
  0x01 :: VARTAG_ONDISK ::
  le32 (va_rawsize tp) ++ le32 (va_extinfo tp) ++ le32 (va_valueid tp) ++ le32 (va_toastrelid tp).

(** A datum that points into memory: an indirect pointer or an expanded object. *)
Definition mk_pointer (tag addr : Z) : list Z :=
  0x01 :: tag :: le32 (addr mod 2 ^ 32) ++ le32 (addr / 2 ^ 32).

Definition ok_4b_u (data : list Z) : Prop := zlen data + 4 < 2 ^ 30.
Definition ok_4b_c (raw method : Z) (payload : list Z) : Prop :=
  0 <= raw < 2 ^ 30 /\ 0 <= method < 4 /\ zlen payload + 8 < 2 ^ 30.
Definition ok_1b (data : list Z) : Prop := zlen data + 1 <= VARATT_SHORT_MAX.
Definition ok_ondisk (tp : varatt_external) : Prop :=
  0 <= va_rawsize tp < 2 ^ 31 /\ 0 <= va_extinfo tp < 2 ^ 32 /\
  0 <= va_valueid tp < 2 ^ 32 /\ 0 <= va_toastrelid tp < 2 ^ 32.

Lemma land_ones_mod x n m : m = Z.ones n -> 0 <= n -> Z.land x m = x mod 2 ^ n.
Proof. intros ->. apply Z.land_ones. Qed.

Ltac land_mod :=
  repeat match goal with
  | |- context [Z.land ?x 0x01] => rewrite (land_ones_mod x 1 0x01) by done
  | |- context [Z.land ?x 0x03] => rewrite (land_ones_mod x 2 0x03) by done
  | |- context [Z.land ?x 0x7F] => rewrite (land_ones_mod x 7 0x7F) by done
  | |- context [Z.land ?x 0x3FFFFFFF] => rewrite (land_ones_mod x 30 0x3FFFFFFF) by done
  | |- context [Z.land ?x VARLENA_EXTSIZE_MASK] =>
      rewrite (land_ones_mod x 30 VARLENA_EXTSIZE_MASK) by done
  | |- context [Z.shiftr ?x ?n] => rewrite (Z.shiftr_div_pow2 x n) by done
  | |- context [Z.shiftl ?x ?n] => rewrite (Z.shiftl_mul_pow2 x n) by done
  end.

Lemma rd32_le32 z k : 0 <= z < 2 ^ 32 -> rd32 (le32 z ++ k) 0 = Ok z.
Proof. intros. exact (rd32_middle [] z k 0 eq_refl H). Qed.

Lemma rd_le32_0 z k : rd (le32 z ++ k) 0 = Ok (z mod 256).
Proof. done. Qed.

Lemma zlen_le32 z : zlen (le32 z) = 4.
Proof. done. Qed.
#[export] Hint Rewrite zlen_le32 : zlen.

Create Rewrite HintDb varatt.

(** Every lemma below holds with any bytes [t] in memory after the datum. *)
Section forms.
Context (t : list Z).

(** *** Plain *)
Section plain.
Context (data : list Z).
Local Abbreviation p := (mk_4b_u data ++ t).

Lemma hdr_4b_u : rd p 0 = Ok ((4 * (zlen data + 4)) mod 256).
Proof. done. Qed.
Lemma is_4b_u_u : VARATT_IS_4B_U p = Ok true.
Proof. unfold VARATT_IS_4B_U. rewrite hdr_4b_u. simpl. land_mod. f_equal. lia. Qed.
Lemma is_4b_c_u : VARATT_IS_4B_C p = Ok false.
Proof. unfold VARATT_IS_4B_C. rewrite hdr_4b_u. simpl. land_mod. f_equal. lia. Qed.
Lemma is_1b_u : VARATT_IS_1B p = Ok false.
Proof. unfold VARATT_IS_1B. rewrite hdr_4b_u. simpl. land_mod. f_equal. lia. Qed.
Lemma is_1b_e_u : VARATT_IS_1B_E p = Ok false.
Proof. unfold VARATT_IS_1B_E. rewrite hdr_4b_u. simpl. f_equal. lia. Qed.
Lemma varsize_4b_u : ok_4b_u data -> VARSIZE_4B p = Ok (zlen data + 4).
Proof.
  unfold VARSIZE_4B, mk_4b_u, ok_4b_u. intros Hok. rewrite <- app_assoc, rd32_le32 by zl.
  simpl. land_mod. f_equal. pose proof (zlen_nonneg data). lia.
Qed.
Lemma zlen_4b_u : zlen (mk_4b_u data) = zlen data + 4.
Proof. unfold mk_4b_u. zl. Qed.
End plain.

(** *** Compressed in line *)
Section compressed.
Context (raw method : Z) (payload : list Z).
Local Abbreviation p := (mk_4b_c raw method payload ++ t).

Lemma hdr_4b_c : rd p 0 = Ok ((4 * (zlen payload + 8) + 2) mod 256).
Proof. done. Qed.
Lemma is_4b_u_c : VARATT_IS_4B_U p = Ok false.
Proof. unfold VARATT_IS_4B_U. rewrite hdr_4b_c. simpl. land_mod. f_equal. lia. Qed.
Lemma is_4b_c_c : VARATT_IS_4B_C p = Ok true.
Proof. unfold VARATT_IS_4B_C. rewrite hdr_4b_c. simpl. land_mod. f_equal. lia. Qed.
Lemma is_1b_c : VARATT_IS_1B p = Ok false.
Proof. unfold VARATT_IS_1B. rewrite hdr_4b_c. simpl. land_mod. f_equal. lia. Qed.
Lemma is_1b_e_c : VARATT_IS_1B_E p = Ok false.
Proof. unfold VARATT_IS_1B_E. rewrite hdr_4b_c. simpl. f_equal. lia. Qed.
Lemma varsize_4b_c : ok_4b_c raw method payload -> VARSIZE_4B p = Ok (zlen payload + 8).
Proof.
  unfold VARSIZE_4B, mk_4b_c, ok_4b_c. intros Hok. rewrite <- app_assoc, rd32_le32 by zl.
  simpl. land_mod. f_equal. pose proof (zlen_nonneg payload). lia.
Qed.
Lemma rd32_tcinfo : ok_4b_c raw method payload -> rd32 p 4 = Ok (raw + method * 2 ^ 30).
Proof.
  intros (?&?&?). unfold mk_4b_c. rewrite <- !app_assoc. apply rd32_middle; [done|lia].
Qed.
Lemma get_extsize_c : ok_4b_c raw method payload -> VARDATA_COMPRESSED_GET_EXTSIZE p = Ok raw.
Proof.
  intros Hok. unfold VARDATA_COMPRESSED_GET_EXTSIZE. rewrite rd32_tcinfo by done.
  destruct Hok as (?&?&?). simpl. land_mod. f_equal. lia.
Qed.
Lemma get_method_c : ok_4b_c raw method payload -> VARDATA_COMPRESSED_GET_COMPRESS_METHOD p = Ok method.
Proof.
  intros Hok. unfold VARDATA_COMPRESSED_GET_COMPRESS_METHOD. rewrite rd32_tcinfo by done.
  destruct Hok as (?&?&?). simpl. unfold VARLENA_EXTSIZE_BITS. land_mod. f_equal. lia.
Qed.
Lemma zlen_4b_c : zlen (mk_4b_c raw method payload) = zlen payload + 8.
Proof. unfold mk_4b_c. zl. Qed.
End compressed.

(** *** One-byte header *)
Section short.
Context (data : list Z) (Hok : ok_1b data).
Local Abbreviation p := (mk_1b data ++ t).

Lemma hdr_1b : rd p 0 = Ok (2 * (zlen data + 1) + 1).
Proof. done. Qed.
Lemma is_4b_u_s : VARATT_IS_4B_U p = Ok false.
Proof. unfold VARATT_IS_4B_U. rewrite hdr_1b. simpl. land_mod. f_equal. lia. Qed.
Lemma is_4b_c_s : VARATT_IS_4B_C p = Ok false.
Proof. unfold VARATT_IS_4B_C. rewrite hdr_1b. simpl. land_mod. f_equal. lia. Qed.
Lemma is_1b_s : VARATT_IS_1B p = Ok true.
Proof. unfold VARATT_IS_1B. rewrite hdr_1b. simpl. land_mod. f_equal. lia. Qed.
Lemma is_1b_e_s : VARATT_IS_1B_E p = Ok false.
Proof.
  unfold VARATT_IS_1B_E. rewrite hdr_1b. simpl. f_equal. pose proof (zlen_nonneg data). lia.
Qed.
Lemma varsize_1b_s : VARSIZE_1B p = Ok (zlen data + 1).
Proof.
  unfold VARSIZE_1B. rewrite hdr_1b. simpl. land_mod. f_equal.
  unfold ok_1b, VARATT_SHORT_MAX in Hok. pose proof (zlen_nonneg data). lia.
Qed.
Lemma zlen_1b : zlen (mk_1b data) = zlen data + 1.
Proof. unfold mk_1b. zl. Qed.
End short.

(** *** Toast pointer *)
Section ondisk.
Context (tp : varatt_external).
Local Abbreviation p := (mk_ondisk tp ++ t).

Lemma is_4b_u_e : VARATT_IS_4B_U p = Ok false.
Proof. done. Qed.
Lemma is_4b_c_e : VARATT_IS_4B_C p = Ok false.
Proof. done. Qed.
Lemma is_1b_e : VARATT_IS_1B p = Ok true.
Proof. done. Qed.
Lemma is_1b_e_e : VARATT_IS_1B_E p = Ok true.
Proof. done. Qed.
Lemma vartag_e : VARTAG_EXTERNAL p = Ok VARTAG_ONDISK.
Proof. done. Qed.
Lemma varsize_e : VARSIZE_EXTERNAL p = Ok 18.
Proof. done. Qed.
Lemma zlen_ondisk : zlen (mk_ondisk tp) = 18.
Proof. done. Qed.
Lemma get_pointer_e : ok_ondisk tp -> VARATT_EXTERNAL_GET_POINTER p = Ok tp.
Proof.
  intros (?&?&?&?). unfold VARATT_EXTERNAL_GET_POINTER, mk_ondisk.
  rewrite <- !app_comm_cons, <- !app_assoc.
  change (1 :: VARTAG_ONDISK :: ?x) with ([1; VARTAG_ONDISK] ++ x).
  rewrite (rd32_middle _ (va_rawsize tp) _ 2) by (done || lia). rewrite (app_assoc _ (le32 _)).
  rewrite (rd32_middle _ (va_extinfo tp) _ 6) by (done || lia). rewrite (app_assoc _ (le32 (va_extinfo tp))).
  rewrite (rd32_middle _ (va_valueid tp) _ 10) by (done || lia). rewrite (app_assoc _ (le32 (va_valueid tp))).
  rewrite (rd32_middle _ (va_toastrelid tp) _ 14) by (done || lia).
  simpl. destruct tp as [r e v o]; simpl in *. unfold int32_of.
  rewrite Z.mod_small by lia. ztests; [done|lia].
Qed.
End ondisk.

(** *** Pointer into memory *)
Section pointer.
Context (tag addr : Z).
Local Abbreviation p := (mk_pointer tag addr ++ t).

Lemma is_4b_u_p : VARATT_IS_4B_U p = Ok false.
Proof. done. Qed.
Lemma is_4b_c_p : VARATT_IS_4B_C p = Ok false.
Proof. done. Qed.
Lemma is_1b_p : VARATT_IS_1B p = Ok true.
Proof. done. Qed.
Lemma is_1b_e_p : VARATT_IS_1B_E p = Ok true.
Proof. done. Qed.
Lemma vartag_p : VARTAG_EXTERNAL p = Ok tag.
Proof. done. Qed.
End pointer.
End forms.

#[export] Hint Rewrite is_4b_u_u is_4b_c_u is_1b_u is_1b_e_u is_4b_u_c is_4b_c_c is_1b_c is_1b_e_c
  is_4b_u_s is_4b_c_s is_1b_s is_1b_e_s is_4b_u_e is_4b_c_e is_1b_e is_1b_e_e vartag_e varsize_e
  is_4b_u_p is_4b_c_p is_1b_p is_1b_e_p vartag_p
  : varatt.
#[export] Hint Rewrite varsize_4b_u varsize_4b_c get_extsize_c get_method_c varsize_1b_s get_pointer_e
  using done : varatt.
#[export] Hint Rewrite zlen_4b_u zlen_4b_c zlen_1b zlen_ondisk : zlen.
