(* ===== verification/Pglz.v ===== *)
(** The LZ codec of src/common/pg_lzcompress.c and src/include/common/pg_lzcompress.h:
    the definitions.  PglzHist.v proves the history table and the match search,
    PglzCodec.v the compressor and the decompressor.

    The history arrays are static and are not cleared between calls, only the used
    part of hist_start is.  They are modelled as partial maps that hold what the
    current call has written: reading anything else is [Ub], so a theorem that says
    [Ok] also says that no stale entry of an earlier call is ever used.  Pointers into
    hist_entries are entry numbers, pointers into the source are offsets. *)

From S2P Require Import Prelude.

Definition PGLZ_MAX_HISTORY_LISTS : Z := 8192.
Definition PGLZ_HISTORY_SIZE : Z := 4096.
Definition PGLZ_MAX_MATCH : Z := 273.
Definition INVALID_ENTRY : Z := 0.
Definition PGLZ_MAX_OUTPUT (dlen : Z) : Z := dlen + 4.

Record PGLZ_Strategy := {
  min_input_size : Z;
  max_input_size : Z;
  min_comp_rate : Z;
  first_success_by : Z;
  match_size_good : Z;
  match_size_drop : Z
}.

Definition strategy_default_data : PGLZ_Strategy :=
  {| min_input_size := 32; max_input_size := INT_MAX; min_comp_rate := 25;
     first_success_by := 1024; match_size_good := 128; match_size_drop := 10 |}.
Definition strategy_always_data : PGLZ_Strategy :=
  {| min_input_size := 0; max_input_size := INT_MAX; min_comp_rate := 0;
     first_success_by := INT_MAX; match_size_good := 128; match_size_drop := 6 |}.

(** ** History *)

(** hist_start and the fields of hist_entries[]; a NULL prev is [None]. *)
Record hist := mkHist {
  hs : gmap Z Z;
  he_next : gmap Z Z;
  he_prev : gmap Z (option Z);
  he_hindex : gmap Z Z;
  he_pos : gmap Z Z
}.

(** memset(hist_start, 0, ...), hist_entries[] left as it was. *)
Definition hist_empty : hist := mkHist ∅ ∅ ∅ ∅ ∅.

Definition get {A} (m : gmap Z A) (i : Z) : res A :=
  match m !! i with Some v => Ok v | None => Ub end.

(** Slots of hist_start up to the mask hold 0 until they are written. *)
Definition hs_get (h : hist) (mask i : Z) : res Z :=
  if (0 <=? i) && (i <=? mask) then Ok (default INVALID_ENTRY (hs h !! i)) else Ub.
Definition hs_set (h : hist) (mask i v : Z) : res hist :=
  if (0 <=? i) && (i <=? mask)
  then Ok (mkHist (<[i:=v]> (hs h)) (he_next h) (he_prev h) (he_hindex h) (he_pos h)) else Ub.
Definition in_entries (e : Z) : bool := (0 <=? e) && (e <=? PGLZ_HISTORY_SIZE).
Definition set_next (h : hist) (e v : Z) : res hist :=
  if in_entries e
  then Ok (mkHist (hs h) (<[e:=v]> (he_next h)) (he_prev h) (he_hindex h) (he_pos h)) else Ub.
Definition set_prev (h : hist) (e : Z) (v : option Z) : res hist :=
  if in_entries e
  then Ok (mkHist (hs h) (he_next h) (<[e:=v]> (he_prev h)) (he_hindex h) (he_pos h)) else Ub.
Definition set_key (h : hist) (e hindex pos : Z) : res hist :=
  if in_entries e
  then Ok (mkHist (hs h) (he_next h) (he_prev h) (<[e:=hindex]> (he_hindex h))
             (<[e:=pos]> (he_pos h))) else Ub.

(** The characters are signed and are promoted to int. *)
Definition pglz_hist_idx (source : list Z) (s e mask : Z) : res Z :=
  if e - s <? 4 then c ← rd source s; Ok (Z.land (schar c) mask)
  else
    a ← rd source s; b ← rd source (s + 1); c ← rd source (s + 2); d ← rd source (s + 3);
    Ok (Z.land (Z.lxor (Z.lxor (Z.lxor (Z.shiftl (schar a) 6) (Z.shiftl (schar b) 4))
                          (Z.shiftl (schar c) 2)) (schar d)) mask).

(** Unlink a used entry from its list. *)
Definition hist_delink (h : hist) (mask myhe : Z) : res hist :=
  prev ← get (he_prev h) myhe;
  next ← get (he_next h) myhe;
  h1 ← match prev with
       | None => hindex ← get (he_hindex h) myhe; hs_set h mask hindex next
       | Some p => set_next h p next
       end;
  set_prev h1 next prev.

(** Link an entry in front of the list of its slot. *)
Definition hist_link (h : hist) (mask myhe hindex s : Z) : res hist :=
  head ← hs_get h mask hindex;
  h1 ← set_next h myhe head;
  h2 ← set_prev h1 myhe None;
  h3 ← set_key h2 myhe hindex s;
  h4 ← set_prev h3 head (Some myhe);
  hs_set h4 mask hindex myhe.

Definition pglz_hist_add (source : list Z) (e mask : Z) (h : hist) (hn : Z) (recycle : bool) (s : Z)
    : res (hist * Z * bool) :=
  hindex ← pglz_hist_idx source s e mask;
  h1 ← if recycle then hist_delink h mask hn else Ok h;
  h2 ← hist_link h1 mask hn hindex s;
  if hn + 1 >=? PGLZ_HISTORY_SIZE + 1 then Ok (h2, 1, true) else Ok (h2, hn + 1, recycle).

(** ** Match search *)

(** while ( ip < end && *ip == *hp && thislen < PGLZ_MAX_MATCH ), on (thislen, ip, hp) *)
Definition match_ext_body (source : list Z) (e : Z) (x : Z * Z * Z) : res (Z * Z * Z + Z) :=
  let '(thislen, ip, hp) := x in
  if ip <? e then
    a ← rd source ip; b ← rd source hp;
    if (a =? b) && (thislen <? PGLZ_MAX_MATCH) then Ok (inl (thislen + 1, ip + 1, hp + 1))
    else Ok (inr thislen)
  else Ok (inr thislen).
Definition match_ext (source : list Z) (e thislen ip hp : Z) : res Z :=
  iter (S (Z.to_nat PGLZ_MAX_MATCH)) (match_ext_body source e) (thislen, ip, hp).

(** Length of the match at an entry, given the best length so far. *)
Definition match_at (source : list Z) (e ip hp len : Z) : res Z :=
  if len >=? 16 then
    a ← rdn source ip len; b ← rdn source hp len;
    if bool_decide (a = b) then match_ext source e len (ip + len) (hp + len) else Ok 0
  else match_ext source e 0 ip hp.

(** One turn of the walk along a history list, on (hent, len, off, good_match). *)
Definition find_match_body (source : list Z) (e good_drop input : Z) (h : hist)
    (x : Z * Z * Z * Z) : res (Z * Z * Z * Z + Z * Z) :=
  let '(hent, len, off, good_match) := x in
  if negb (hent =? INVALID_ENTRY) then
    hp ← get (he_pos h) hent;
    let thisoff := input - hp in
    if thisoff >=? 0x0fff then Ok (inr (len, off)) else
    thislen ← match_at source e input hp len;
    let '(len, off) := if thislen >? len then (thislen, thisoff) else (len, off) in
    hent ← get (he_next h) hent;
    if negb (hent =? INVALID_ENTRY) then
      if len >=? good_match then Ok (inr (len, off))
      else Ok (inl (hent, len, off, good_match - Z.quot (good_match * good_drop) 100))
    else Ok (inl (hent, len, off, good_match))
  else Ok (inr (len, off)).

(** A walk visits offsets below 0x0fff in strictly increasing order. *)
Definition find_match_fuel : nat := Z.to_nat 0x1001.

Definition pglz_find_match (source : list Z) (e good_match good_drop mask : Z) (h : hist) (input : Z)
    : res (option (Z * Z)) :=
  hindex ← pglz_hist_idx source input e mask;
  hentno ← hs_get h mask hindex;
  r ← iter find_match_fuel (find_match_body source e good_drop input h) (hentno, 0, 0, good_match);
  let '(len, off) := r in
  if len >? 2 then Ok (Some (len, off)) else Ok None.

(** ** Output *)

(** bp - bstart bytes have been handed out; ctrlp is the offset of the pending control
    byte, [None] for ctrl_dummy. *)
Record outst := mkOut { bp : list Z; ctrlp : option Z; ctrlb : Z; ctrl : Z }.

Definition store_ctrl (o : outst) : res (list Z) :=
  match ctrlp o with
  | None => Ok (bp o)
  | Some i => if (0 <=? i) && (i <? zlen (bp o)) then Ok (<[Z.to_nat i := ctrlb o]> (bp o)) else Ub
  end.

(** The newly allocated control byte is indeterminate until it is stored. *)
Definition pglz_out_ctrl (o : outst) : res outst :=
  if Z.land (ctrl o) 0xff =? 0 then
    b ← store_ctrl o;
    Ok (mkOut (b ++ [0]) (Some (zlen b)) 0 1)
  else Ok o.

Definition pglz_out_literal (o : outst) (byte : Z) : res outst :=
  o ← pglz_out_ctrl o;
  Ok (mkOut (bp o ++ [byte mod 256]) (ctrlp o) (ctrlb o) (Z.shiftl (ctrl o) 1 mod 256)).

Definition tag_bytes (len off : Z) : list Z :=
  if len >? 17 then
    [Z.lor (Z.shiftr (Z.land off 0xf00) 4) 0x0f mod 256; Z.land off 0xff mod 256; (len - 18) mod 256]
  else
    [Z.lor (Z.shiftr (Z.land off 0xf00) 4) (len - 3) mod 256; Z.land off 0xff mod 256].

Definition pglz_out_tag (o : outst) (len off : Z) : res outst :=
  o ← pglz_out_ctrl o;
  Ok (mkOut (bp o ++ tag_bytes len off) (ctrlp o) (Z.lor (ctrlb o) (ctrl o) mod 256)
        (Z.shiftl (ctrl o) 1 mod 256)).

(** ** Compression *)

Record pglz_state := mkPglz {
  p_hist : hist; p_next : Z; p_recycle : bool; p_dp : Z; p_out : outst; p_found : bool
}.

(** while (match_len--) { pglz_hist_add; dp++; } *)
Fixpoint hist_add_n (source : list Z) (e mask : Z) (h : hist) (hn : Z) (recycle : bool) (dp : Z)
    (n : nat) : res (hist * Z * bool * Z) :=
  match n with
  | O => Ok (h, hn, recycle, dp)
  | S n =>
      x ← pglz_hist_add source e mask h hn recycle dp;
      let '(h, hn, recycle) := x in
      hist_add_n source e mask h hn recycle (dp + 1) n
  end.

(** The compressor's parameters, computed from the strategy. *)
Definition pglz_good_match (s : PGLZ_Strategy) : Z :=
  if match_size_good s >? PGLZ_MAX_MATCH then PGLZ_MAX_MATCH
  else if match_size_good s <? 17 then 17 else match_size_good s.
Definition pglz_good_drop (s : PGLZ_Strategy) : Z :=
  if match_size_drop s <? 0 then 0 else if match_size_drop s >? 100 then 100 else match_size_drop s.
Definition pglz_need_rate (s : PGLZ_Strategy) : Z :=
  if min_comp_rate s <? 0 then 0 else if min_comp_rate s >? 99 then 99 else min_comp_rate s.
Definition pglz_result_max (s : PGLZ_Strategy) (slen : Z) : Z :=
  if slen >? Z.quot INT_MAX 100
  then Z.quot slen 100 * (100 - pglz_need_rate s)
  else Z.quot (slen * (100 - pglz_need_rate s)) 100.
Definition pglz_hashsz (slen : Z) : Z :=
  if slen <? 128 then 512 else if slen <? 256 then 1024 else if slen <? 512 then 2048
  else if slen <? 1024 then 4096 else 8192.

Definition pglz_loop_body (source : list Z) (strategy : PGLZ_Strategy) (st : pglz_state)
    : res (pglz_state + Z * list Z) :=
  let slen := zlen source in
  let mask := pglz_hashsz slen - 1 in
  let result_max := pglz_result_max strategy slen in
  if p_dp st <? slen then
    if zlen (bp (p_out st)) >=? result_max then Ok (inr (-1, bp (p_out st))) else
    if negb (p_found st) && (zlen (bp (p_out st)) >=? first_success_by strategy)
    then Ok (inr (-1, bp (p_out st))) else
    fm ← pglz_find_match source slen (pglz_good_match strategy) (pglz_good_drop strategy) mask
           (p_hist st) (p_dp st);
    match fm with
    | Some (match_len, match_off) =>
        o ← pglz_out_tag (p_out st) match_len match_off;
        x ← hist_add_n source slen mask (p_hist st) (p_next st) (p_recycle st) (p_dp st)
              (Z.to_nat match_len);
        let '(h, hn, recycle, dp) := x in
        Ok (inl (mkPglz h hn recycle dp o true))
    | None =>
        c ← rd source (p_dp st);
        o ← pglz_out_literal (p_out st) c;
        x ← pglz_hist_add source slen mask (p_hist st) (p_next st) (p_recycle st) (p_dp st);
        let '(h, hn, recycle) := x in
        Ok (inl (mkPglz h hn recycle (p_dp st + 1) o (p_found st)))
    end
  else
    b ← store_ctrl (p_out st);
    if zlen b >=? result_max then Ok (inr (-1, b)) else Ok (inr (zlen b, b)).

(** pglz_compress: the C result and the bytes written to dest. *)
Definition pglz_compress (source : list Z) (strategy : option PGLZ_Strategy) : res (Z * list Z) :=
  let slen := zlen source in
  let strategy := default strategy_default_data strategy in
  if (match_size_good strategy <=? 0) || (slen <? min_input_size strategy)
     || (slen >? max_input_size strategy)
  then Ok (-1, [])
  else
    iter (S (length source)) (pglz_loop_body source strategy)
      (mkPglz hist_empty 1 false 0 (mkOut [] None 0 0) false).

(** ** Decompression *)

(** while (off < len) { memcpy(dp, dp - off, off); ... off += off; }, then the last copy. *)
Definition copy_body (x : list Z * Z * Z) : res (list Z * Z * Z + list Z) :=
  let '(dest, len, off) := x in
  if off <? len then
    c ← rdn dest (zlen dest - off) off;
    Ok (inl (dest ++ c, len - off, off + off))
  else
    c ← rdn dest (zlen dest - off) len;
    Ok (inr (dest ++ c)).

(** One item: [None] is the return of -1 on a corrupt tag. *)
Definition pglz_item (source : list Z) (slen rawsize ctrl sp : Z) (dest : list Z)
    : res (option (Z * list Z)) :=
  if negb (Z.land ctrl 1 =? 0) then
    b0 ← rd source sp; b1 ← rd source (sp + 1);
    let len := Z.land b0 0x0f + 3 in
    let off := Z.lor (Z.shiftl (Z.land b0 0xf0) 4) b1 in
    let sp := sp + 2 in
    x ← if len =? 18 then b2 ← rd source sp; Ok (len + b2, sp + 1) else Ok (len, sp);
    let '(len, sp) := x in
    if (sp >? slen) || (off =? 0) then Ok None else
    let len := Z.min len (rawsize - zlen dest) in
    d ← iter (S (Z.to_nat len)) copy_body (dest, len, off);
    Ok (Some (sp, d))
  else
    b ← rd source sp; Ok (Some (sp + 1, dest ++ [b])).

(** The for loop over the bits of a control byte, on (ctrlc, ctrl, sp, dest);
    [inl] is the early return of -1. *)
Definition pglz_bits_body (source : list Z) (slen rawsize : Z) (x : Z * Z * Z * list Z)
    : res (Z * Z * Z * list Z + (list Z + Z * list Z)) :=
  let '(ctrlc, ctrl, sp, dest) := x in
  if (ctrlc <? 8) && (sp <? slen) && (zlen dest <? rawsize) then
    r ← pglz_item source slen rawsize ctrl sp dest;
    match r with
    | None => Ok (inr (inl dest))
    | Some (sp, dest) => Ok (inl (ctrlc + 1, Z.shiftr ctrl 1, sp, dest))
    end
  else Ok (inr (inr (sp, dest))).

(** The outer loop; [inl] is the early return of -1. *)
Definition pglz_groups_body (source : list Z) (slen rawsize : Z) (x : Z * list Z)
    : res (Z * list Z + (list Z + Z * list Z)) :=
  let '(sp, dest) := x in
  if (sp <? slen) && (zlen dest <? rawsize) then
    ctrl ← rd source sp;
    r ← iter 9 (pglz_bits_body source slen rawsize) (0, ctrl, sp + 1, dest);
    match r with
    | inl dest => Ok (inr (inl dest))
    | inr (sp, dest) => Ok (inl (sp, dest))
    end
  else Ok (inr (inr (sp, dest))).

(** pglz_decompress: the C result and the bytes at dest.  [source] is the memory at the
    source pointer, of which [slen] bytes are compressed data. *)
Definition pglz_decompress (source : list Z) (slen rawsize : Z) (check_complete : bool)
    : res (Z * list Z) :=
  r ← iter (S (Z.to_nat slen)) (pglz_groups_body source slen rawsize) (0, []);
  match r with
  | inl dest => Ok (-1, dest)
  | inr (sp, dest) =>
      if check_complete && (negb (zlen dest =? rawsize) || negb (sp =? slen))
      then Ok (-1, dest) else Ok (zlen dest, dest)
  end.

Definition pglz_maximum_compressed_size (rawsize total_compressed_size : Z) : Z :=
  let compressed_size := Z.quot (rawsize * 9 + 7) 8 in
  let compressed_size := compressed_size + 2 in
  let compressed_size := Z.min compressed_size total_compressed_size in
  int32_of compressed_size.
