(* ===== verification/PglzHist.v ===== *)
(** The history table of the LZ compressor: the doubly linked lists stay well formed
    under insertion and recycling, and the match search walks one of them to its end
    and returns a real match. *)

From S2P Require Import Prelude Pglz.

(** * Linked lists in the entry array

    [W] is the set of entries in use.  Every list head and every link leads to an entry
    in use or to entry 0; prev is the inverse of next; positions decrease along a list. *)

Record linked (mask dp : Z) (W : Z -> Prop) (h : hist) : Prop := {
  lk_range e : W e -> 1 <= e <= PGLZ_HISTORY_SIZE;
  lk_def e : W e -> exists n p k q,
    he_next h !! e = Some n /\ he_prev h !! e = Some p /\ he_hindex h !! e = Some k /\
    he_pos h !! e = Some q /\ 0 <= k <= mask /\ 0 <= q < dp;
  lk_hs k e : hs h !! k = Some e -> e <> 0 ->
    W e /\ he_prev h !! e = Some None /\ he_hindex h !! e = Some k;
  lk_next e f : W e -> he_next h !! e = Some f -> f <> 0 ->
    W f /\ he_prev h !! f = Some (Some e) /\ he_hindex h !! f = he_hindex h !! e /\
    forall q r, he_pos h !! e = Some q -> he_pos h !! f = Some r -> r < q;
  lk_head e k : W e -> he_prev h !! e = Some None -> he_hindex h !! e = Some k ->
    hs h !! k = Some e;
  lk_prev e p : W e -> he_prev h !! e = Some (Some p) -> W p /\ he_next h !! p = Some e
}.

Lemma linked_empty mask dp : linked mask dp (fun _ => False) hist_empty.
Proof. split; simpl; try done. Qed.

Lemma linked_ext mask dp W W' h :
  (forall e, W e <-> W' e) -> linked mask dp W h -> linked mask dp W' h.
Proof. intros HW [? ? H3 H4 H5 H6]. split; setoid_rewrite <- HW; eauto. Qed.

Lemma linked_next mask dp W h e f :
  linked mask dp W h -> W e -> he_next h !! e = Some f -> f = 0 \/ W f.
Proof. intros L He Hf. destruct (decide (f = 0)) as [|Hn]; [auto|]. right. by eapply lk_next. Qed.

Lemma linked_start mask dp W h k :
  linked mask dp W h -> 0 <= k <= mask ->
  exists e, hs_get h mask k = Ok e /\ (e = 0 \/ W e).
Proof.
  intros L Hk. unfold hs_get. ztests; try lia. simpl. eexists; split; [done|].
  destruct (hs h !! k) as [e|] eqn:E; simpl; [|by left].
  destruct (decide (e = 0)); [by left|]. right. by eapply lk_hs.
Qed.

(** Case analysis on the updated entries of the arrays. *)
Ltac updates :=
  repeat match goal with
  | H : context [<[_:=_]> _ !! _] |- _ => rewrite lookup_insert in H
  | |- context [<[_:=_]> _ !! _] => rewrite lookup_insert
  | H : context [decide (?a = ?b)] |- _ => destruct (decide (a = b)); simplify_eq
  | |- context [decide (?a = ?b)] => destruct (decide (a = b)); simplify_eq
  end.

(** ** Unlinking *)

Section delink.
Context (mask dp : Z) (W : Z -> Prop) (h : hist) (L : linked mask dp W h).
Context (e n k : Z) (He : W e).
Context (En : he_next h !! e = Some n) (Ek : he_hindex h !! e = Some k).

Lemma delink_next_ok : in_entries n = true.
Proof.
  unfold in_entries, PGLZ_HISTORY_SIZE.
  destruct (linked_next _ _ _ _ _ _ L He En) as [->|Hw]; [done|].
  apply (lk_range _ _ _ _ L) in Hw. unfold PGLZ_HISTORY_SIZE in Hw. lia.
Qed.

Lemma delink_pos_lt f : he_next h !! e = Some f -> f <> 0 ->
  exists q r, he_pos h !! e = Some q /\ he_pos h !! f = Some r /\ r < q.
Proof.
  intros Ef Hf. destruct (lk_next _ _ _ _ L _ _ He Ef Hf) as (Wf & _ & _ & Hlt).
  destruct (lk_def _ _ _ _ L _ He) as (?&?&?&q&_&_&_&Hq&_).
  destruct (lk_def _ _ _ _ L _ Wf) as (?&?&?&r&_&_&_&Hr&_). eauto 6.
Qed.

Lemma delink_next_neq : n <> e.
Proof.
  intros ->. destruct (delink_pos_lt e En) as (q & r & H1 & H2 & H3).
  - apply (lk_range _ _ _ _ L) in He. lia.
  - simplify_eq. lia.
Qed.

(** The entry is the head of its list. *)
Lemma delink_head :
  he_prev h !! e = Some None ->
  linked mask dp (fun x => W x /\ x <> e)
    (mkHist (<[k:=n]> (hs h)) (he_next h) (<[n:=None]> (he_prev h)) (he_hindex h) (he_pos h)).
Proof.
  intros Ep. pose proof delink_next_neq. split; simpl.
  - intros x [Hx _]. by eapply lk_range.
  - intros x [Hx Hxe]. destruct (lk_def _ _ _ _ L _ Hx) as (n' & p' & k' & q' & ?&?&?&?&?).
    updates; eauto 10.
  - intros k' x Hx Hx0. updates.
    + destruct (lk_next _ _ _ _ L _ _ He En Hx0) as (?&?&Hi&?). rewrite Hi, Ek. done.
    + destruct (lk_hs _ _ _ _ L _ _ Hx Hx0) as (?&?&?).
      repeat split; congruence.
    + destruct (lk_hs _ _ _ _ L _ _ Hx Hx0) as (?&?&?). repeat split; congruence.
  - intros x f [Hx Hxe] Hf Hf0. destruct (lk_next _ _ _ _ L _ _ Hx Hf Hf0) as (?&?&?&?).
    assert (f <> e) by congruence. assert (f <> n).
    { intros ->. destruct (lk_next _ _ _ _ L _ _ He En Hf0) as (?&?&?&?). congruence. }
    updates; done.
  - intros x k' [Hx Hxe] Hp Hk. updates; try done.
    + rewrite (proj1 (proj2 (proj2 (lk_next _ _ _ _ L _ _ He En
        ltac:(apply (lk_range _ _ _ _ L) in Hx; lia))))) in Hk. congruence.
    + pose proof (lk_head _ _ _ _ L _ _ Hx Hp Hk).
      pose proof (lk_head _ _ _ _ L _ _ He Ep Ek). congruence.
    + by eapply lk_head.
  - intros x p' [Hx Hxe] Hp. updates.
    destruct (lk_prev _ _ _ _ L _ _ Hx Hp). repeat split; congruence.
Qed.

(** The entry has a predecessor. *)
Lemma delink_inner p :
  he_prev h !! e = Some (Some p) ->
  linked mask dp (fun x => W x /\ x <> e)
    (mkHist (hs h) (<[p:=n]> (he_next h)) (<[n:=Some p]> (he_prev h)) (he_hindex h) (he_pos h)).
Proof.
  intros Ep. pose proof delink_next_neq as Hne. destruct (lk_prev _ _ _ _ L _ _ He Ep) as [Wp Hp].
  assert (He0 : e <> 0) by (apply (lk_range _ _ _ _ L) in He; lia).
  destruct (lk_next _ _ _ _ L _ _ Wp Hp He0) as (_ & _ & Hkp & Hpp).
  assert (p <> e). { intros ->. congruence. }
  split; simpl.
  - intros x [Hx _]. by eapply lk_range.
  - intros x [Hx Hxe]. destruct (lk_def _ _ _ _ L _ Hx) as (n' & p' & k' & q' & ?&?&?&?&?).
    updates; eauto 10.
  - intros k' x Hx Hx0. destruct (lk_hs _ _ _ _ L _ _ Hx Hx0) as (?&?&?).
    assert (x <> e) by congruence. assert (x <> n).
    { intros ->. destruct (lk_next _ _ _ _ L _ _ He En Hx0) as (?&?&?&?). congruence. }
    updates; done.
  - intros x f [Hx Hxe] Hf Hf0. updates.
    + destruct (lk_next _ _ _ _ L _ _ He En Hf0) as (?&?&Hi&Hlt). repeat split; try done.
      * congruence.
      * intros q r Hq Hr. destruct (delink_pos_lt f En Hf0) as (q' & r' & Hq' & Hr' & ?).
        specialize (Hpp _ _ Hq Hq'). simplify_eq. lia.
    + destruct (lk_next _ _ _ _ L _ _ Hx Hf Hf0) as (?&Hpf&?&?).
      destruct (lk_next _ _ _ _ L _ _ He En Hf0) as (?&?&?&?). congruence.
    + destruct (lk_next _ _ _ _ L _ _ Hx Hf Hf0) as (?&Hpf&?&?).
      assert (f <> e) by congruence. done.
  - intros x k' [Hx Hxe] Hpx Hkx. updates. by eapply lk_head.
  - intros x p' [Hx Hxe] Hpx. updates; try done.
    + destruct (lk_prev _ _ _ _ L _ _ Hx Hpx). repeat split; congruence.
    + destruct (lk_prev _ _ _ _ L _ _ Hx Hpx). repeat split; congruence.
Qed.
End delink.

Lemma hist_delink_ok mask dp W h e :
  linked mask dp W h -> W e ->
  exists h', hist_delink h mask e = Ok h' /\ linked mask dp (fun x => W x /\ x <> e) h'.
Proof.
  intros L He. destruct (lk_def _ _ _ _ L e He) as (n & p & k & q & En & Ep & Ek & Eq & Hk & Hq).
  unfold hist_delink, get. rewrite En, Ep, Ek. simpl.
  pose proof (delink_next_ok _ _ _ _ L _ _ He En) as Hn.
  destruct p as [p|]; simpl.
  - assert (Hp : in_entries p = true).
    { destruct (lk_prev _ _ _ _ L _ _ He Ep) as [Wp _]. apply (lk_range _ _ _ _ L) in Wp.
      unfold in_entries. lia. }
    unfold set_next. rewrite Hp. simpl. unfold set_prev. rewrite Hn. simpl.
    eexists; split; [done|]. by eapply delink_inner.
  - unfold hs_set. replace ((0 <=? k) && (k <=? mask)) with true by lia. simpl.
    unfold set_prev. rewrite Hn. simpl. eexists; split; [done|]. by eapply delink_head.
Qed.

(** ** Linking in front *)

Section link.
Context (mask dp : Z) (W : Z -> Prop) (h : hist) (L : linked mask dp W h).
Context (e k head : Z) (He : 1 <= e <= PGLZ_HISTORY_SIZE) (HW : ~ W e) (Hk : 0 <= k <= mask).
Context (Hdp : 0 <= dp) (Hhead : head = default INVALID_ENTRY (hs h !! k)).

Lemma link_head_cases :
  ((head = 0 /\ forall x, hs h !! k = Some x -> x = 0) \/ (hs h !! k = Some head /\ head <> 0 /\ W head /\
    he_prev h !! head = Some None /\ he_hindex h !! head = Some k)).
Proof.
  destruct (hs h !! k) as [x|] eqn:E; simpl in Hhead; [subst x|by left].
  destruct (decide (head = 0)) as [|Hn]; [left; split; congruence|]. right.
  destruct (lk_hs _ _ _ _ L _ _ E Hn) as (?&?&?). done.
Qed.

Lemma link_linked :
  linked mask (dp + 1) (fun x => W x \/ x = e)
    (mkHist (<[k:=e]> (hs h)) (<[e:=head]> (he_next h))
       (<[head:=Some e]> (<[e:=None]> (he_prev h))) (<[e:=k]> (he_hindex h)) (<[e:=dp]> (he_pos h))).
Proof.
  pose proof link_head_cases as HC. clear Hhead.
  assert (Hhe : head <> e).
  { destruct HC as [[-> _]|(_&_&?&_)]; [lia|congruence]. }
  assert (Hne : forall x, W x -> x <> e) by congruence.
  assert (Hold : forall x q, W x -> he_pos h !! x = Some q -> q < dp).
  { intros x q Hx Hq. destruct (lk_def _ _ _ _ L _ Hx) as (?&?&?&?&_&_&_&?&_&?).
    simplify_eq. lia. }
  split; simpl.
  - intros x [Hx| ->]; [by eapply lk_range|done].
  - intros x [Hx| ->].
    + destruct (lk_def _ _ _ _ L _ Hx) as (n'&p'&k'&q'&?&?&?&?&?&?). specialize (Hne _ Hx).
      updates; do 4 eexists; repeat split; (done || lia).
    + updates; do 4 eexists; repeat split; (done || lia).
  - intros k' x Hx Hx0. destruct (decide (k' = k)) as [->|Hkk].
    + rewrite lookup_insert_eq in Hx. simplify_eq. updates; auto.
    + rewrite lookup_insert_ne in Hx by done.
      destruct (lk_hs _ _ _ _ L _ _ Hx Hx0) as (Wx&?&?). specialize (Hne _ Wx).
      assert (head <> x) by (intros Eq; destruct HC as [[? _]|(?&?&?&?&?)]; congruence).
      updates; auto.
  - intros x f [Hx| ->] Hf Hf0.
    + specialize (Hne _ Hx) as Hxe. rewrite lookup_insert_ne in Hf by done.
      destruct (lk_next _ _ _ _ L _ _ Hx Hf Hf0) as (Wf & Hpf & Hif & Hlt).
      specialize (Hne _ Wf). assert (head <> f) by (intros Eq; destruct HC as [[? _]|(?&?&?&?&?)]; congruence).
      updates; auto.
    + rewrite lookup_insert_eq in Hf. simplify_eq. destruct HC as [[? _]|(?&?&Wf&?&?)]; [done|].
      updates; repeat split; auto; try congruence. intros q r [= <-] Hr. eauto.
  - intros x k' [Hx| ->] Hp Hi.
    + specialize (Hne _ Hx). updates; try done. 2: by eapply lk_head.
      pose proof (lk_head _ _ _ _ L _ _ Hx Hp Hi) as Eh. destruct HC as [[_ Hz]|(?&?&?&?&?)].
      * apply Hz in Eh. apply (lk_range _ _ _ _ L) in Hx. lia.
      * congruence.
    + updates; done.
  - intros x p [Hx| ->] Hp.
    + specialize (Hne _ Hx). updates; auto; try (destruct (lk_prev _ _ _ _ L _ _ Hx Hp) as [Wp Hpx]).
      * by destruct HW.
      * auto.
    + updates; done.
Qed.
End link.

Lemma hist_link_ok mask dp W h e k :
  linked mask dp W h -> 1 <= e <= PGLZ_HISTORY_SIZE -> ~ W e -> 0 <= k <= mask -> 0 <= dp ->
  exists h', hist_link h mask e k dp = Ok h' /\ linked mask (dp + 1) (fun x => W x \/ x = e) h'.
Proof.
  intros L He HW Hk Hdp. unfold hist_link.
  destruct (linked_start _ _ _ _ _ L Hk) as (head & Hh & Hw). rewrite Hh. simpl.
  assert (Ee : in_entries e = true) by (unfold in_entries; lia).
  assert (Eh : in_entries head = true).
  { unfold in_entries, PGLZ_HISTORY_SIZE. destruct Hw as [->|Hw]; [done|].
    apply (lk_range _ _ _ _ L) in Hw. unfold PGLZ_HISTORY_SIZE in Hw. lia. }
  unfold set_next, set_prev, set_key. rewrite Ee, Eh. simpl. unfold hs_set. unfold hs_get in Hh. destruct ((0 <=? k) && (k <=? mask)); [|done].
  simpl. eexists; split; [done|]. apply link_linked; try done. by injection Hh.
Qed.

(** * Adding entries *)

Definition used (hn : Z) (recycle : bool) (e : Z) : Prop :=
  1 <= e <= PGLZ_HISTORY_SIZE /\ (recycle = true \/ e < hn).

(** The state of the history when every position before [dp] has been added. *)
Record hist_inv (mask dp : Z) (h : hist) (hn : Z) (recycle : bool) : Prop := {
  hi_next : 1 <= hn <= PGLZ_HISTORY_SIZE;
  hi_linked : linked mask dp (used hn recycle) h
}.

Lemma hist_inv_init mask : hist_inv mask 0 hist_empty 1 false.
Proof.
  split; [unfold PGLZ_HISTORY_SIZE; lia|]. eapply linked_ext, linked_empty.
  intros e. unfold used. split; [done|]. intros [? [|]]; [done|lia].
Qed.

Lemma hist_idx_ok source s mask j :
  0 <= s < zlen source -> mask = Z.ones j -> 0 <= j ->
  exists k, pglz_hist_idx source s (zlen source) mask = Ok k /\ 0 <= k <= mask.
Proof.
  intros Hs -> Hj. unfold pglz_hist_idx.
  assert (Hm : forall x, 0 <= Z.land x (Z.ones j) <= Z.ones j).
  { intros x. rewrite Z.land_ones, Z.ones_equiv by done.
    pose proof (Z.mod_pos_bound x (2 ^ j) ltac:(lia)). lia. }
  destruct (rd_in_range source s) as [a ->]; [lia|]. ztests.
  - simpl. eauto.
  - destruct (rd_in_range source (s + 1)) as [b ->]; [lia|].
    destruct (rd_in_range source (s + 2)) as [c ->]; [lia|].
    destruct (rd_in_range source (s + 3)) as [d ->]; [lia|]. simpl. eauto.
Qed.

Lemma pglz_mask slen : exists j, 0 <= j /\ pglz_hashsz slen - 1 = Z.ones j.
Proof.
  unfold pglz_hashsz.
  ztests; [exists 9|exists 10|exists 11|exists 12|exists 13]; done.
Qed.

Section add.
Context (source : list Z) (mask j : Z) (Hmask : mask = Z.ones j) (Hj : 0 <= j).

Lemma hist_add_ok h hn recycle dp :
  hist_inv mask dp h hn recycle -> 0 <= dp < zlen source ->
  exists h' hn' recycle',
    pglz_hist_add source (zlen source) mask h hn recycle dp = Ok (h', hn', recycle') /\
    hist_inv mask (dp + 1) h' hn' recycle'.
Proof.
  intros [Hn L] Hdp. unfold pglz_hist_add.
  destruct (hist_idx_ok source dp mask j) as (k & -> & Hk); try done. simpl.
  assert (exists h1, (if recycle then hist_delink h mask hn else Ok h) = Ok h1 /\
    linked mask dp (fun x => used hn recycle x /\ x <> hn) h1) as (h1 & -> & L1).
  { destruct recycle.
    - apply hist_delink_ok; [done|]. unfold used; auto.
    - eexists; split; [done|]. eapply linked_ext, L. intros e. unfold used. split; [|tauto].
      intros [? [|]]; [done|]. lia. }
  simpl. destruct (hist_link_ok _ _ _ _ hn k L1) as (h2 & -> & L2); try done; try tauto; try lia.
  simpl. destruct (Z.geb_spec (hn + 1) (PGLZ_HISTORY_SIZE + 1)); do 3 eexists; (split; [done|]).
  - split; [unfold PGLZ_HISTORY_SIZE; lia|]. eapply linked_ext, L2.
    intros e. unfold used. destruct recycle; lia.
  - split; [lia|]. eapply linked_ext, L2. intros e. unfold used. destruct recycle; lia.
Qed.

Lemma hist_add_n_ok n h hn recycle dp :
  hist_inv mask dp h hn recycle -> 0 <= dp -> dp + Z.of_nat n <= zlen source ->
  exists h' hn' recycle',
    hist_add_n source (zlen source) mask h hn recycle dp n
      = Ok (h', hn', recycle', dp + Z.of_nat n) /\
    hist_inv mask (dp + Z.of_nat n) h' hn' recycle'.
Proof.
  revert h hn recycle dp. induction n as [|n IH]; intros h hn recycle dp HI Hdp Hn.
  - exists h, hn, recycle. by rewrite Z.add_0_r.
  - simpl hist_add_n. destruct (hist_add_ok h hn recycle dp HI) as (h1 & hn1 & r1 & -> & HI1); [lia|].
    simpl mbind.
    destruct (IH _ _ _ _ HI1) as (h2 & hn2 & r2 & Hr & HI2); [lia|lia|].
    replace (dp + Z.of_nat (S n)) with (dp + 1 + Z.of_nat n) by lia. exists h2, hn2, r2. done.
Qed.
End add.

(** * Match search *)

(** The [len] bytes at [input] repeat those [off] positions before it. *)
Record match_here (source : list Z) (input off len : Z) : Prop := {
  mh_off : 1 <= off <= input;
  mh_len : 0 <= len /\ input + len <= zlen source;
  mh_eq i : 0 <= i < len -> rd source (input + i) = rd source (input - off + i)
}.

Section search.
Context (source : list Z) (input : Z).

Lemma match_here_slices off len :
  1 <= off <= input -> 0 <= len -> input + len <= zlen source ->
  zslice source input len = zslice source (input - off) len -> match_here source input off len.
Proof.
  intros Ho Hl Hi He. split; [done|done|]. intros i Hr.
  assert (Hs : forall k, 0 <= k -> rd source (k + i) = rd (zslice source k len) i).
  { intros k Hk. unfold rd, zslice. ztests; try lia.
    rewrite lookup_take_lt by lia. rewrite lookup_drop.
    by replace (Z.to_nat k + Z.to_nat i)%nat with (Z.to_nat (k + i)) by lia. }
  rewrite !Hs by lia. by rewrite He.
Qed.

Lemma match_ext_ok off thislen :
  match_here source input off thislen -> thislen <= PGLZ_MAX_MATCH ->
  returns (match_ext source (zlen source) thislen (input + thislen) (input - off + thislen))
    (fun r => match_here source input off r /\ thislen <= r <= PGLZ_MAX_MATCH).
Proof.
  intros Hm Hl. unfold match_ext. destruct Hm as [Ho Hlen Heq].
  apply (iter_returns
    (fun '(t, ip, hp) => ip = input + t /\ hp = input - off + t /\ thislen <= t <= PGLZ_MAX_MATCH /\
       match_here source input off t)
    (fun '(t, _, _) => Z.to_nat (PGLZ_MAX_MATCH - t))); [|repeat split; try lia; done|].
  - intros [[t ip] hp] (-> & -> & Ht & [? Ht2 Heq2]). simpl.
    destruct (Z.ltb_spec (input + t) (zlen source)); simpl; [|done].
    destruct (rd_in_range source (input + t)) as [a Ea]; [lia|].
    destruct (rd_in_range source (input - off + t)) as [b Eb]; [lia|].
    rewrite Ea, Eb. simpl. destruct (Z.eqb_spec a b) as [->|]; simpl; [|done].
    destruct (Z.ltb_spec t PGLZ_MAX_MATCH); simpl; [|done].
    split; [|lia]. repeat split; try lia. intros i Hi.
    destruct (decide (i = t)) as [->|]; [congruence|]. apply Heq2. lia.
  - unfold PGLZ_MAX_MATCH in *. lia.
Qed.

Lemma match_at_ok off len :
  1 <= off <= input -> 0 <= len <= PGLZ_MAX_MATCH -> input <= zlen source -> input + len <= zlen source ->
  returns (match_at source (zlen source) input (input - off) len)
    (fun r => match_here source input off r /\ r <= PGLZ_MAX_MATCH).
Proof.
  intros Ho Hl Hi Hil. unfold match_at.
  assert (H0 : match_here source input off 0) by (split; lia).
  destruct (Z.geb_spec len 16).
  - rewrite !rdn_Ok by lia. simpl. case_bool_decide as He; simpl.
    + eapply returns_mono; [apply match_ext_ok|].
      * apply match_here_slices; (done || lia).
      * lia.
      * intros r (?&?). split; [done|lia].
    + split; [done|unfold PGLZ_MAX_MATCH; lia].
  - pose proof (match_ext_ok off 0 H0) as Hx. rewrite !Z.add_0_r in Hx.
    eapply returns_mono; [apply Hx; unfold PGLZ_MAX_MATCH; lia|]. simpl. intros r (?&?). split; [done|lia].
Qed.
End search.

(** * The walk along a list *)

Section walk.
Context (source : list Z) (mask : Z) (h : hist) (W : Z -> Prop) (input good_drop : Z).
Context (L : linked mask input W h) (Hin : input < zlen source).

(** The best match so far. *)
Definition best (len off : Z) : Prop :=
  (len = 0 \/ (match_here source input off len /\ off < 0x0fff)) /\
  0 <= len <= PGLZ_MAX_MATCH /\ input + len <= zlen source.

Definition walk_measure (hent : Z) : nat :=
  if hent =? 0 then 0%nat else
  match he_pos h !! hent with Some q => S (Z.to_nat (q - (input - 0x0fff))) | None => 0%nat end.

Lemma walk_measure_bound hent : hent = 0 \/ W hent -> (walk_measure hent < find_match_fuel)%nat.
Proof.
  unfold walk_measure, find_match_fuel. intros [->|Hw]; [simpl; lia|].
  destruct (lk_def _ _ _ _ L _ Hw) as (?&?&?&q&_&_&_&->&_&Hq). ztests; lia.
Qed.

Lemma find_match_turn hent len off gm :
  (hent = 0 \/ W hent) -> best len off ->
  returns (find_match_body source (zlen source) good_drop input h (hent, len, off, gm))
    (fun x => match x with
     | inl (hent', len', off', _) =>
         ((hent' = 0 \/ W hent') /\ best len' off') /\ (walk_measure hent' < walk_measure hent)%nat
     | inr (len', off') => best len' off'
     end).
Proof.
  intros Hw Hb. unfold find_match_body.
  destruct (Z.eqb_spec hent INVALID_ENTRY) as [|Hne]; simpl; [done|].
  destruct Hw as [|Hw]; [done|].
  destruct (lk_def _ _ _ _ L _ Hw) as (n&p&k&q&En&_&_&Eq&_&Hq).
  unfold get. rewrite Eq, En. simpl.
  destruct (Z.geb_spec (input - q) 0x0fff); simpl; [done|].
  destruct Hb as (Hb & Hlen & Hil).
  pose proof (match_at_ok source input (input - q) len) as Hma.
  replace (input - (input - q)) with q in Hma by lia.
  eapply returns_bind; [apply Hma; lia|]. intros t [Hm Ht]. simpl in *.
  set (lo := if t >? len then (t, input - q) else (len, off)).
  assert (Hlo : best lo.1 lo.2).
  { unfold lo. destruct (Z.gtb_spec t len); simpl; [|done].
    destruct Hm as [? ? ?]. split; [right; split; [by split|lia]|lia]. }
  destruct lo as [l' o']. simpl in Hlo. cbn [mbind res_bind].
  assert (Hn : n = 0 \/ W n) by (by eapply linked_next).
  assert (Hdec : (walk_measure n < walk_measure hent)%nat).
  { unfold walk_measure at 2. rewrite Eq. destruct (Z.eqb_spec hent 0); [done|].
    unfold walk_measure. destruct (Z.eqb_spec n 0); [lia|].
    destruct (lk_next _ _ _ _ L _ _ Hw En) as (Wn & _ & _ & Hlt); [done|].
    destruct (lk_def _ _ _ _ L _ Wn) as (?&?&?&r&_&_&_&Er&_). rewrite Er.
    specialize (Hlt _ _ Eq Er). lia. }
  destruct (negb (n =? INVALID_ENTRY)); [destruct (l' >=? gm)|]; simpl; auto.
Qed.
End walk.

(** The search returns, and what it returns is a match that fits a tag. *)
Lemma find_match_ok source slen h hn recycle input gm gd :
  slen = zlen source ->
  hist_inv (pglz_hashsz slen - 1) input h hn recycle -> 0 <= input < slen ->
  returns (pglz_find_match source slen gm gd (pglz_hashsz slen - 1) h input)
    (fun r => match r with
     | Some (len, off) => match_here source input off len /\ 3 <= len <= PGLZ_MAX_MATCH /\ off < 0x0fff
     | None => True
     end).
Proof.
  intros Hs [Hn L] Hin. unfold pglz_find_match. destruct (pglz_mask slen) as (j & Hj & Hm).
  subst slen. destruct (hist_idx_ok source input _ j Hin Hm Hj) as (k & -> & Hk). simpl.
  destruct (linked_start _ _ _ _ _ L Hk) as (e & -> & He). simpl.
  eapply returns_bind.
  - apply (iter_returns
      (fun '(hent, len, off, _) => (hent = 0 \/ used hn recycle hent) /\ best source input len off)
      (fun '(hent, _, _, _) => walk_measure h input hent) (fun '(len, off) => best source input len off)).
    + intros [[[hent len] off] g] [Hh Hb].
      eapply returns_mono; [by eapply find_match_turn; [|lia|..]|].
      intros [[[[? ?] ?] ?]|[? ?]]; done.
    + split; [done|]. unfold best, PGLZ_MAX_MATCH. lia.
    + by eapply walk_measure_bound.
  - intros [len off] (Hb & Hlen & _). simpl. destruct (Z.gtb_spec len 2); simpl; [|done].
    destruct Hb as [|[? ?]]; [lia|]. split; [done|lia].
Qed.
