(* ===== verification/PglzItems.v ===== *)
(** The format of LZ-compressed data as a specification: a value is a list of groups of
    up to eight items, an item a literal byte or a back reference.  [exp_items] says
    what the items mean, one byte at a time; [enc_groups] how they are laid out. *)

From S2P Require Import Prelude Pglz PglzHist.

Inductive item := Lit (b : Z) | Match (len off : Z).

Definition wf_item (it : item) : Prop :=
  match it with
  | Lit b => is_byte b
  | Match len off => 3 <= len <= PGLZ_MAX_MATCH /\ 1 <= off < 4096
  end.

(** Repeat the byte [off] positions back, [n] times. *)
Fixpoint copy (n : nat) (off : nat) (d : list Z) : list Z :=
  match n with
  | O => d
  | S n => let d' := copy n off d in d' ++ [nth (length d' - off) d' 0]
  end.

Definition exp_item (d : list Z) (it : item) : list Z :=
  match it with
  | Lit b => d ++ [b]
  | Match len off => copy (Z.to_nat len) (Z.to_nat off) d
  end.
Definition exp_items (d : list Z) (its : list item) : list Z := fold_left exp_item its d.

(** A reference stays inside what has been produced. *)
Definition item_ok (d : list Z) (it : item) : Prop :=
  wf_item it /\ match it with Lit _ => True | Match _ off => off <= zlen d end.
Fixpoint items_ok (d : list Z) (its : list item) : Prop :=
  match its with
  | [] => True
  | it :: its => item_ok d it /\ items_ok (exp_item d it) its
  end.

Definition enc_item (it : item) : list Z :=
  match it with Lit b => [b] | Match len off => tag_bytes len off end.
Definition enc_items (its : list item) : list Z := concat (map enc_item its).
Definition item_bit (it : item) : Z := match it with Lit _ => 0 | Match _ _ => 1 end.
(** The control byte: the kinds of the items, the first in the low bit. *)
Fixpoint ctrl_bits (g : list item) : Z :=
  match g with [] => 0 | it :: g => item_bit it + 2 * ctrl_bits g end.
Definition enc_group (g : list item) : list Z := ctrl_bits g :: enc_items g.
Definition enc_groups (gs : list (list item)) : list Z := concat (map enc_group gs).

(** Every group but the last has eight items. *)
Fixpoint groups_ok (gs : list (list item)) : Prop :=
  match gs with
  | [] => True
  | [g] => (1 <= length g <= 8)%nat
  | g :: gs => length g = 8%nat /\ groups_ok gs
  end.

(** ** Copies *)

Definition cyc (d : list Z) (off i : nat) : Z := nth (length d - off + i mod off) d 0.

Lemma copy_closed n off d :
  (1 <= off <= length d)%nat -> copy n off d = d ++ map (cyc d off) (seq 0 n).
Proof.
  intros Ho. induction n as [|n IH]; cbn [copy]; [by rewrite app_nil_r|].
  rewrite IH. rewrite seq_S, map_app, app_assoc. simpl. f_equal. f_equal.
  rewrite length_app, length_map, length_seq. unfold cyc.
  destruct (decide (n < off)%nat).
  - rewrite app_nth1 by lia. rewrite Nat.mod_small by done. f_equal. lia.
  - rewrite app_nth2 by lia. replace (length d + n - off - length d)%nat with (n - off)%nat by lia.
    rewrite (nth_indep _ 0 (cyc d off 0)) by (rewrite length_map, length_seq; lia).
    rewrite map_nth, seq_nth by lia. unfold cyc. f_equal. f_equal. simpl.
    replace n with (n - off + 1 * off)%nat at 2 by lia. by rewrite Nat.Div0.mod_add.
Qed.

Lemma length_copy n off d : length (copy n off d) = (length d + n)%nat.
Proof. induction n; simpl; [lia|]. rewrite length_app. simpl. lia. Qed.

Lemma zlen_copy n off d : zlen (copy n off d) = zlen d + Z.of_nat n.
Proof. unfold zlen. rewrite length_copy. lia. Qed.

Lemma copy_prefix n off d : exists k, copy n off d = d ++ k.
Proof.
  induction n as [|n [k IH]]; simpl; [exists []; by rewrite app_nil_r|].
  rewrite IH. rewrite <- app_assoc. by eexists.
Qed.

Lemma copy_take m n off d : (m <= n)%nat -> take (length d + m) (copy n off d) = copy m off d.
Proof.
  intros H. induction n as [|n IH]; simpl.
  - replace m with 0%nat by lia. simpl. apply take_ge. lia.
  - destruct (decide (m = S n)) as [->|].
    + rewrite take_ge; [done|]. rewrite length_app, length_copy. simpl. lia.
    + rewrite take_app_le by (rewrite length_copy; lia). apply IH. lia.
Qed.

(** The copy of a real match extends the reproduced prefix of the source. *)
Lemma copy_match source input off n :
  match_here source input off (Z.of_nat n) ->
  copy n (Z.to_nat off) (take (Z.to_nat input) source) = take (Z.to_nat input + n) source.
Proof.
  intros [Ho [_ Hl] He]. unfold zlen in Hl.
  induction n as [|n IH]; simpl; [f_equal; lia|].
  rewrite IH; [|lia|intros; apply He; lia]. rewrite length_take_le by lia.
  specialize (He (Z.of_nat n) ltac:(lia)). unfold rd in He. ztests_in He; try lia.
  destruct (lookup_lt_is_Some_2 source (Z.to_nat input + n)) as [b Hb]; [lia|].
  replace (Z.to_nat (input + Z.of_nat n)) with (Z.to_nat input + n)%nat in He by lia.
  rewrite Hb in He.
  replace (Z.to_nat (input - off + Z.of_nat n)) with (Z.to_nat input + n - Z.to_nat off)%nat in He by lia.
  destruct (source !! (Z.to_nat input + n - Z.to_nat off)%nat) as [c|] eqn:Ec; [|done].
  injection He as <-.
  replace (Z.to_nat input + S n)%nat with (S (Z.to_nat input + n)) by lia.
  rewrite (take_S_r _ _ b) by done. f_equal. f_equal.
  apply nth_lookup_Some. rewrite lookup_take_lt by lia. done.
Qed.

(** ** Items and their encodings *)

Lemma exp_items_app d a b : exp_items d (a ++ b) = exp_items (exp_items d a) b.
Proof. apply fold_left_app. Qed.

Lemma enc_items_app a b : enc_items (a ++ b) = enc_items a ++ enc_items b.
Proof. unfold enc_items. by rewrite map_app, concat_app. Qed.

Lemma enc_items_1 it : enc_items [it] = enc_item it.
Proof. unfold enc_items. simpl. by rewrite app_nil_r. Qed.

Lemma enc_groups_app a b : enc_groups (a ++ b) = enc_groups a ++ enc_groups b.
Proof. unfold enc_groups. by rewrite map_app, concat_app. Qed.

Lemma enc_groups_1 g : enc_groups [g] = enc_group g.
Proof. unfold enc_groups. simpl. by rewrite app_nil_r. Qed.

Lemma items_ok_app d a b : items_ok d (a ++ b) <-> items_ok d a /\ items_ok (exp_items d a) b.
Proof.
  revert d. induction a as [|it a IH]; intros d; simpl; [tauto|].
  rewrite IH. unfold exp_items. simpl. tauto.
Qed.

Lemma ctrl_bits_app a b : ctrl_bits (a ++ b) = ctrl_bits a + 2 ^ zlen a * ctrl_bits b.
Proof.
  induction a as [|it a IH]; cbn [ctrl_bits app].
  - change (zlen []) with 0. lia.
  - rewrite IH, zlen_cons, Z.pow_add_r by (pose proof (zlen_nonneg a); lia). lia.
Qed.

Lemma ctrl_bits_range g : 0 <= ctrl_bits g < 2 ^ zlen g.
Proof.
  induction g as [|it g IH]; cbn [ctrl_bits]; [done|].
  rewrite zlen_cons, Z.pow_add_r by (pose proof (zlen_nonneg g); lia).
  destruct it; simpl item_bit; lia.
Qed.

Lemma zlen_tag_bytes len off : zlen (tag_bytes len off) = if len >? 17 then 3 else 2.
Proof. unfold tag_bytes. by destruct (len >? 17). Qed.

Lemma zlen_exp_item d it :
  wf_item it -> zlen (exp_item d it) = zlen d + match it with Lit _ => 1 | Match len _ => len end.
Proof. destruct it as [b|len off]; simpl; intros; [zl|]. rewrite zlen_copy. lia. Qed.

(** An item is never longer than what it stands for. *)
Lemma enc_item_len d it :
  wf_item it -> 1 <= zlen (enc_item it) <= 3 /\ zlen d + zlen (enc_item it) <= zlen (exp_item d it).
Proof.
  intros H. rewrite zlen_exp_item by done. destruct it as [b|len off]; simpl in *; [zl|].
  rewrite zlen_tag_bytes. ztests; lia.
Qed.

Lemma enc_items_len d its :
  items_ok d its -> zlen d + zlen (enc_items its) <= zlen (exp_items d its) /\
                    zlen d + zlen its <= zlen (exp_items d its).
Proof.
  revert d. induction its as [|it its IH]; intros d; cbn [items_ok].
  - intros _. unfold exp_items, enc_items. simpl. zl.
  - intros [[Hw _] Hr]. apply IH in Hr. destruct (enc_item_len d it Hw).
    unfold exp_items, enc_items in *. simpl. zl.
Qed.

Lemma exp_item_prefix d it : exists k, exp_item d it = d ++ k.
Proof. destruct it; simpl; [by eexists|apply copy_prefix]. Qed.

Lemma exp_items_prefix d its : exists k, exp_items d its = d ++ k.
Proof.
  revert d. induction its as [|it its IH]; intros d; simpl.
  - exists []. by rewrite app_nil_r.
  - destruct (exp_item_prefix d it) as [k Hk]. destruct (IH (exp_item d it)) as [k' Hk'].
    unfold exp_items in *. simpl. rewrite Hk', Hk, <- app_assoc. by eexists.
Qed.

Lemma groups_ok_snoc gs g :
  Forall (fun g => length g = 8%nat) gs -> (1 <= length g <= 8)%nat -> groups_ok (gs ++ [g]).
Proof.
  intros HF Hg. induction HF as [|x gs Hx HF IH]; [done|].
  simpl. destruct (gs ++ [g]) eqn:E; [by destruct gs|]. done.
Qed.

(** ** Tags *)

Lemma lor_pow2 x k : 0 <= k < 8 -> 0 <= x < 2 ^ k -> Z.lor x (2 ^ k) mod 256 = x + 2 ^ k.
Proof.
  intros Hk Hx.
  assert (H : forallb (fun k => forallb (fun x => (2 ^ k <=? x) || (Z.lor x (2 ^ k) mod 256 =? x + 2 ^ k))
    (zrange 128)) (zrange 8) = true) by (vm_compute; reflexivity).
  pose proof (zrange_forall _ _ H k Hk) as Hk'. cbv beta in Hk'.
  assert (Hx' : 0 <= x < 128).
  { split; [lia|]. apply Z.lt_le_trans with (2 ^ k); [lia|]. apply (Z.pow_le_mono_r 2 k 7); lia. }
  pose proof (zrange_forall _ _ Hk' x Hx') as Hc. cbv beta in Hc. lia.
Qed.

(** The two bytes of a tag give back the length nibble and the offset. *)
Definition tag0 (off nib : Z) : Z := Z.lor (Z.shiftr (Z.land off 0xf00) 4) nib mod 256.
Definition tag1 (off : Z) : Z := Z.land off 0xff mod 256.

Lemma tag_decode off nib :
  0 <= off < 4096 -> 0 <= nib < 16 ->
  Z.land (tag0 off nib) 0x0f = nib /\
  Z.lor (Z.shiftl (Z.land (tag0 off nib) 0xf0) 4) (tag1 off) = off.
Proof.
  intros Ho Hn.
  assert (H : forallb (fun off => forallb (fun nib =>
      (Z.land (tag0 off nib) 0x0f =? nib) &&
      (Z.lor (Z.shiftl (Z.land (tag0 off nib) 0xf0) 4) (tag1 off) =? off))
    (zrange 16)) (zrange 4096) = true) by (vm_compute; reflexivity).
  pose proof (zrange_forall _ _ H off Ho) as Ho'. cbv beta in Ho'.
  pose proof (zrange_forall _ _ Ho' nib Hn) as Hc. cbv beta in Hc. lia.
Qed.

Lemma tag_bytes_eq len off :
  tag_bytes len off =
  if len >? 17 then [tag0 off 0x0f; tag1 off; (len - 18) mod 256] else [tag0 off (len - 3); tag1 off].
Proof. done. Qed.

Lemma enc_item_bytes it : wf_item it -> bytes (enc_item it).
Proof.
  destruct it as [b|len off]; simpl; intros H; [by apply Forall_singleton|].
  unfold tag_bytes. destruct (len >? 17); repeat (apply Forall_cons; split); try done;
    unfold is_byte; apply Z.mod_pos_bound; lia.
Qed.
