(* ===== verification/PglzCodec.v ===== *)
(** Correctness of the LZ codec: what pglz_compress writes is the encoding of items
    that expand to its source, pglz_decompress expands any such encoding, in whole
    or for a prefix, and neither writes past its buffer. *)

From S2P Require Import Prelude Pglz PglzHist PglzItems.

(** * Output of items *)

(** The groups [gs] are complete; [g] is being filled, its control byte still pending. *)
Record out_open (o : outst) (gs : list (list item)) (g : list item) : Prop := {
  oo_bp : exists x, bp o = enc_groups gs ++ x :: enc_items g;
  oo_ctrlp : ctrlp o = Some (zlen (enc_groups gs));
  oo_ctrlb : ctrlb o = ctrl_bits g;
  oo_ctrl : ctrl o = 2 ^ zlen g mod 256;
  oo_len : zlen g <= 8;
  oo_full : Forall (fun g => length g = 8%nat) gs
}.

Definition out_init : outst := mkOut [] None 0 0.
Definition out_inv (o : outst) (gs : list (list item)) (g : list item) : Prop :=
  (o = out_init /\ gs = [] /\ g = []) \/ (out_open o gs g /\ 1 <= zlen g).

Lemma store_ctrl_open o gs g :
  out_open o gs g -> store_ctrl o = Ok (enc_groups (gs ++ [g])).
Proof.
  intros [[x Hb] Hp Hc _ _ _]. unfold store_ctrl. rewrite Hp, Hb, Hc.
  replace ((_ <=? _) && (_ <? _)) with true by (symmetry; zl).
  rewrite enc_groups_app, enc_groups_1. f_equal. unfold zlen. rewrite Nat2Z.id.
  rewrite insert_app_r_alt, Nat.sub_diag by lia. done.
Qed.

Lemma pow2_mod_byte k : 0 <= k <= 8 -> Z.land (2 ^ k mod 256) 0xff = if k =? 8 then 0 else 2 ^ k.
Proof.
  intros H. assert (Hc : forallb (fun k => Z.land (2 ^ k mod 256) 0xff =? if k =? 8 then 0 else 2 ^ k)
    (zrange 9) = true) by (vm_compute; reflexivity).
  pose proof (zrange_forall _ _ Hc k ltac:(lia)) as Hk. cbv beta in Hk. lia.
Qed.

Lemma out_ctrl_ok o gs g :
  out_inv o gs g -> exists o' gs' g',
    pglz_out_ctrl o = Ok o' /\ out_open o' gs' g' /\ zlen g' <= 7 /\
    concat gs' ++ g' = concat gs ++ g /\ zlen (bp o') <= zlen (bp o) + 1.
Proof.
  intros [(-> & -> & ->)|[Ho Hg]].
  - exists (mkOut [0] (Some 0) 0 1), [], []. split; [done|]. split; [|done].
    split; try done. by exists 0.
  - unfold pglz_out_ctrl. pose proof Ho as [[x Hb] Hp Hc Hctrl Hlen Hfull].
    rewrite Hctrl, pow2_mod_byte by zl. destruct (Z.eqb_spec (zlen g) 8) as [H8|Hn].
    + rewrite (store_ctrl_open _ _ _ Ho). cbn [mbind res_bind Z.eqb].
      exists (mkOut (enc_groups (gs ++ [g]) ++ [0]) (Some (zlen (enc_groups (gs ++ [g])))) 0 1), (gs ++ [g]), [].
      split; [done|]. split; [|split; [done|split]].
      * split; simpl; try done; [by exists 0|]. apply Forall_app. split; [done|].
        apply Forall_singleton. unfold zlen in H8. lia.
      * rewrite concat_app. simpl. by rewrite !app_nil_r.
      * simpl. rewrite Hb, enc_groups_app, enc_groups_1. unfold enc_group. zl.
    + assert (0 < 2 ^ zlen g) by (apply Z.pow_pos_nonneg; zl).
      replace (2 ^ zlen g =? 0) with false by lia.
      exists o, gs, g. repeat split; try done; try lia. eauto.
Qed.

Lemma shift_ctrl k : 0 <= k <= 7 -> Z.shiftl (2 ^ k mod 256) 1 mod 256 = 2 ^ (k + 1) mod 256.
Proof.
  intros H. assert (Hc : forallb (fun k => Z.shiftl (2 ^ k mod 256) 1 mod 256 =? 2 ^ (k + 1) mod 256)
    (zrange 8) = true) by (vm_compute; reflexivity).
  pose proof (zrange_forall _ _ Hc k ltac:(lia)) as Hk. cbv beta in Hk. lia.
Qed.

(** Appending the bytes of an item and its control bit. *)
Lemma out_push o gs g it cb :
  out_open o gs g -> zlen g <= 7 -> cb = ctrl_bits g + 2 ^ zlen g * item_bit it ->
  out_open (mkOut (bp o ++ enc_item it) (ctrlp o) cb (Z.shiftl (ctrl o) 1 mod 256)) gs (g ++ [it]).
Proof.
  intros [[x Hb] Hp Hc Hctrl Hlen Hfull] Hg ->. split; simpl; try done.
  - exists x. by rewrite Hb, enc_items_app, enc_items_1, <- app_assoc.
  - rewrite ctrl_bits_app. simpl. lia.
  - rewrite Hctrl, shift_ctrl by zl. rewrite zlen_app, zlen_cons. by rewrite zlen_nil, Z.add_0_r.
  - zl.
Qed.

Lemma out_push_inv o gs g it cb :
  out_open o gs g -> zlen g <= 7 -> cb = ctrl_bits g + 2 ^ zlen g * item_bit it ->
  out_inv (mkOut (bp o ++ enc_item it) (ctrlp o) cb (Z.shiftl (ctrl o) 1 mod 256)) gs (g ++ [it]).
Proof. right. split; [by apply out_push|zl]. Qed.

(** What an output step does: one more item, at most four more bytes. *)
Definition pushed (o : outst) (gs : list (list item)) (g : list item) (it : item) (o' : outst) : Prop :=
  exists gs' g', out_inv o' gs' g' /\ concat gs' ++ g' = (concat gs ++ g) ++ [it] /\
    zlen (bp o') <= zlen (bp o) + 4.

Lemma out_literal_ok o gs g b :
  out_inv o gs g -> is_byte b -> returns (pglz_out_literal o b) (pushed o gs g (Lit b)).
Proof.
  intros Ho Hb. unfold pglz_out_literal.
  destruct (out_ctrl_ok _ _ _ Ho) as (o1 & gs1 & g1 & -> & Ho1 & Hg1 & Hc & Hl). simpl.
  exists gs1, (g1 ++ [Lit b]). split; [|split].
  - replace (b mod 256) with b by (unfold is_byte in Hb; lia).
    apply (out_push_inv o1 gs1 g1 (Lit b)); [done|done|]. rewrite (oo_ctrlb _ _ _ Ho1). simpl. lia.
  - by rewrite app_assoc, Hc.
  - simpl. zl.
Qed.

Lemma out_tag_ok o gs g len off :
  out_inv o gs g -> returns (pglz_out_tag o len off) (pushed o gs g (Match len off)).
Proof.
  intros Ho. unfold pglz_out_tag.
  destruct (out_ctrl_ok _ _ _ Ho) as (o1 & gs1 & g1 & -> & Ho1 & Hg1 & Hc & Hl). simpl.
  exists gs1, (g1 ++ [Match len off]). split; [|split].
  - apply (out_push_inv o1 gs1 g1 (Match len off)); [done|done|]. simpl.
    rewrite (oo_ctrlb _ _ _ Ho1), (oo_ctrl _ _ _ Ho1).
    assert (0 < 2 ^ zlen g1 <= 2 ^ 7).
    { split; [apply Z.pow_pos_nonneg; zl|apply Z.pow_le_mono_r; zl]. }
    rewrite (Z.mod_small (2 ^ zlen g1)) by lia.
    rewrite lor_pow2; [lia|zl|apply ctrl_bits_range].
  - by rewrite app_assoc, Hc.
  - simpl. rewrite zlen_app, zlen_tag_bytes. ztests; lia.
Qed.

(** * Compression *)

Section compress.
Context (source : list Z) (strategy : PGLZ_Strategy).
Context (Hbytes : bytes source).
Local Abbreviation slen := (zlen source).
Local Abbreviation mask := (pglz_hashsz slen - 1).
Local Abbreviation result_max := (pglz_result_max strategy slen).

(** The bytes before [dp] are encoded, and their positions are in the history. *)
Record comp_inv (st : pglz_state) : Prop := {
  ci_dp : 0 <= p_dp st <= slen;
  ci_hist : hist_inv mask (p_dp st) (p_hist st) (p_next st) (p_recycle st);
  ci_out : exists gs g,
    out_inv (p_out st) gs g /\ items_ok [] (concat gs ++ g) /\
    exp_items [] (concat gs ++ g) = take (Z.to_nat (p_dp st)) source;
  ci_size : zlen (bp (p_out st)) <= Z.max 0 (result_max + 3)
}.

(** The result: -1, or the encoding of items that expand to the source. *)
Definition comp_result (r : Z) (out : list Z) : Prop :=
  zlen out <= Z.max 0 (result_max + 3) /\
  (r = -1 \/
   (r = zlen out /\ r < result_max /\
    exists gs, groups_ok gs /\ out = enc_groups gs /\
      items_ok [] (concat gs) /\ exp_items [] (concat gs) = source)).

Lemma comp_inv_init : comp_inv (mkPglz hist_empty 1 false 0 out_init false).
Proof.
  split; simpl; [zl|apply hist_inv_init| |change (zlen []) with 0; lia].
  exists [], []. split; [by left|]. done.
Qed.

(** The output after one more item. *)
Lemma comp_out_push o gs g it o' dp n :
  pushed o gs g it o' -> items_ok [] (concat gs ++ g) ->
  exp_items [] (concat gs ++ g) = take (Z.to_nat dp) source ->
  item_ok (take (Z.to_nat dp) source) it ->
  exp_item (take (Z.to_nat dp) source) it = take (Z.to_nat (dp + n)) source ->
  exists gs' g', out_inv o' gs' g' /\ items_ok [] (concat gs' ++ g') /\
    exp_items [] (concat gs' ++ g') = take (Z.to_nat (dp + n)) source.
Proof.
  intros (gs' & g' & Ho & Hc & _) Hok He Hit Hn. exists gs', g'. rewrite Hc.
  rewrite exp_items_app, items_ok_app, He. done.
Qed.

Lemma comp_turn st :
  comp_inv st ->
  returns (pglz_loop_body source strategy st) (fun x => match x with
    | inl st' => comp_inv st' /\ p_dp st < p_dp st' <= slen
    | inr (r, out) => comp_result r out
    end).
Proof.
  intros [Hdp HI (gs & g & Ho & Hok & He) Hsz]. unfold pglz_loop_body.
  destruct (Z.ltb_spec (p_dp st) slen) as [Hlt|Hge]; cbn [andb].
  - destruct (Z.geb_spec (zlen (bp (p_out st))) result_max) as [|Hroom];
      [simpl; split; [done|by left]|].
    destruct (negb (p_found st) && _); [simpl; split; [done|by left]|].
    assert (Hdl : zlen (take (Z.to_nat (p_dp st)) source) = p_dp st) by zl.
    eapply returns_bind; [eapply find_match_ok; [done|done|lia]|].
    intros [[len off]|] Hm; cbn beta iota in Hm |- *.
    + destruct Hm as (Hm & Hlen & Hoff). pose proof Hm as [Hmo [_ Hml] _].
      eapply returns_bind; [by apply out_tag_ok|]. intros o' Hp.
      destruct (pglz_mask slen) as (j & Hj & Hmask).
      destruct (hist_add_n_ok source mask j Hmask Hj (Z.to_nat len) _ _ _ _ HI)
        as (h' & hn' & r' & -> & HI'); [lia|lia|]. simpl.
      rewrite Z2Nat.id in * by lia.
      split; [|lia]. split; simpl; [lia|done| |].
      * eapply comp_out_push; eauto.
        -- split; [simpl; lia|]. lia.
        -- simpl. rewrite copy_match by (rewrite Z2Nat.id by lia; done). f_equal. lia.
      * destruct Hp as (?&?&_&_&?). lia.
    + destruct (rd_in_range source (p_dp st)) as [c Hc]; [lia|]. rewrite Hc. cbn [mbind res_bind].
      assert (is_byte c) by (by eapply rd_byte).
      eapply returns_bind; [by apply out_literal_ok|]. intros o' Hp.
      destruct (pglz_mask slen) as (j & Hj & Hmask).
      destruct (hist_add_ok source mask j Hmask Hj _ _ _ _ HI) as (h' & hn' & r' & -> & HI'); [lia|].
      simpl. split; [|lia]. split; simpl; [lia|done| |].
      * eapply comp_out_push; eauto; [done|]. simpl. apply rd_Ok in Hc as [_ Hc].
        replace (Z.to_nat (p_dp st + 1)) with (S (Z.to_nat (p_dp st))) by lia.
        by rewrite (take_S_r _ _ c).
      * destruct Hp as (?&?&_&_&?). lia.
  - replace (p_dp st) with slen in He by lia. unfold zlen in He. rewrite Nat2Z.id, take_ge in He by lia.
    destruct Ho as [(Ho & -> & ->)|[Ho Hg]].
    + rewrite Ho in *. simpl. ztests; simpl; split; try done; [by left|].
      right. split; [done|]. split; [done|]. exists []. done.
    + rewrite (store_ctrl_open _ _ _ Ho). cbn [mbind res_bind].
      assert (Hlo : zlen (enc_groups (gs ++ [g])) = zlen (bp (p_out st))).
      { destruct (oo_bp _ _ _ Ho) as [x ->]. rewrite enc_groups_app, enc_groups_1. unfold enc_group. zl. }
      destruct (Z.geb_spec (zlen (enc_groups (gs ++ [g]))) result_max); simpl; split; try lia; try (by left).
      right. split; [done|]. split; [done|]. exists (gs ++ [g]).
      assert (Hcc : concat (gs ++ [g]) = concat gs ++ g) by (rewrite concat_app; simpl; by rewrite app_nil_r).
      rewrite Hcc. split; [|done]. apply groups_ok_snoc; [apply Ho|].
      pose proof (oo_len _ _ _ Ho). unfold zlen in *. lia.
Qed.
End compress.

(** * Decompression *)

(** ** The doubling copy is the byte-at-a-time copy *)

Section copies.
Context (d : list Z) (off : nat) (Ho : (1 <= off <= length d)%nat).

Lemma cyc_add m i : ((off * m + i) mod off = i mod off)%nat.
Proof. rewrite Nat.add_comm, Nat.mul_comm. apply Nat.Div0.mod_add. Qed.

Lemma cyc_shift m i n : map (cyc d off) (seq (off * m + i) n) = map (cyc d off) (seq i n).
Proof.
  revert i. induction n as [|n IH]; intros i; simpl; [done|]. f_equal.
  - unfold cyc. by rewrite cyc_add.
  - replace (S (off * m + i)) with (off * m + S i)%nat by lia. apply IH.
Qed.

Lemma cyc_base : drop (length d - off) d = map (cyc d off) (seq 0 off).
Proof.
  apply list_eq. intros i. rewrite lookup_drop, list_lookup_fmap.
  destruct (decide (i < off)%nat).
  - rewrite lookup_seq_lt by done. simpl. unfold cyc. rewrite Nat.mod_small by done.
    destruct (lookup_lt_is_Some_2 d (length d - off + i)) as [b Hb]; [lia|].
    rewrite Hb. symmetry. f_equal. by apply nth_lookup_Some.
  - rewrite lookup_seq_ge by lia. simpl. apply lookup_ge_None. lia.
Qed.

Lemma copy_chunk m n :
  (n <= off + off * m)%nat ->
  copy (off * m) off d ++ take n (drop (length d - off) (copy (off * m) off d)) = copy (off * m + n) off d.
Proof.
  intros Hn. rewrite !copy_closed by done. rewrite drop_app_le by lia. rewrite cyc_base.
  rewrite seq_app, map_app, <- app_assoc. do 2 f_equal.
  rewrite <- map_app. simpl (0 + _)%nat.
  assert (Hs : map (cyc d off) (seq 0 off ++ seq 0 (off * m)) = map (cyc d off) (seq 0 (off + off * m))).
  { rewrite seq_app, !map_app. f_equal. simpl.
    rewrite <- (cyc_shift 1 0). do 2 f_equal. lia. }
  rewrite Hs. rewrite <- (cyc_shift m 0). rewrite Nat.add_0_r.
  rewrite firstn_map. f_equal. rewrite take_seq. f_equal. lia.
Qed.
End copies.

Lemma copy_loop d len off :
  1 <= off <= zlen d -> 0 <= len ->
  iter (S (Z.to_nat len)) copy_body (d, len, off) = Ok (copy (Z.to_nat len) (Z.to_nat off) d).
Proof.
  intros Ho Hl. pose proof (zlen_nonneg d). set (f := Z.to_nat off).
  assert (Hf : (1 <= f <= length d)%nat) by (unfold zlen in *; lia).
  assert (Hk : forall m n, (n <= f + f * m)%nat ->
    rdn (copy (f * m) f d) (zlen (copy (f * m) f d) - Z.of_nat (f + f * m)) (Z.of_nat n)
    = Ok (take n (drop (length d - f) (copy (f * m) f d)))).
  { intros m n Hn. assert (Hz : zlen d = Z.of_nat (length d)) by done.
    rewrite zlen_copy. rewrite rdn_Ok; [|lia|lia|rewrite zlen_copy; lia]. unfold zslice.
    do 2 f_equal; [lia|]. f_equal. lia. }
  enough (returns (iter (S (Z.to_nat len)) copy_body (d, len, off)) (eq (copy (Z.to_nat len) f d))) as Hr.
  { apply returns_eq in Hr as (x & -> & <-). done. }
  apply (iter_returns
    (fun '(d', l, o) => exists m, d' = copy (f * m) f d /\ o = Z.of_nat (f + f * m) /\
       l = len - Z.of_nat (f * m) /\ 0 <= l)
    (fun '(_, l, _) => Z.to_nat l)); [|exists 0%nat; rewrite Nat.mul_0_r; simpl; split_and!; try done; lia|lia].
  intros [[d' l] o] (m & -> & -> & -> & Hlm). unfold copy_body.
  destruct (Z.ltb_spec (Z.of_nat (f + f * m)) (len - Z.of_nat (f * m))).
  - rewrite Hk by lia. cbn [mbind res_bind returns]. split; [|lia].
    exists (m + m + 1)%nat. rewrite copy_chunk by lia. split_and!; try lia. f_equal. lia.
  - rewrite <- (Z2Nat.id (len - _)) by lia. rewrite Hk by lia. simpl. rewrite copy_chunk by lia.
    f_equal. lia.
Qed.

(** ** One item *)

Lemma ctrl_bit it c : Z.land (item_bit it + 2 * c) 1 = item_bit it /\ Z.shiftr (item_bit it + 2 * c) 1 = c.
Proof.
  rewrite (Z.land_ones _ 1), Z.shiftr_div_pow2 by done. destruct it; simpl item_bit; lia.
Qed.

(** [mem] holds the bytes [l] at [sp]. *)
Definition at_pos (mem : list Z) (sp : Z) (l : list Z) : Prop :=
  forall i, 0 <= i < zlen l -> rd mem (sp + i) = rd l i.

Section item.
Context (mem d : list Z) (sp slen n : Z).

Lemma take_exp_item it : zlen d < n -> wf_item it ->
  take (Z.to_nat n) (exp_item d it) =
  match it with
  | Lit b => d ++ [b]
  | Match len off => copy (Z.to_nat (Z.min len (n - zlen d))) (Z.to_nat off) d
  end.
Proof.
  intros Hn Hw. destruct it as [b|len off]; simpl.
  - apply take_ge. rewrite length_app. simpl. unfold zlen in *. lia.
  - simpl in Hw. destruct (decide (len <= n - zlen d)).
    + rewrite Z.min_l by lia. apply take_ge. rewrite length_copy. unfold zlen in *. lia.
    + rewrite Z.min_r by lia.
      rewrite <- (copy_take (Z.to_nat (n - zlen d)) (Z.to_nat len)) by lia. f_equal. unfold zlen in *. lia.
Qed.

(** Decoding a tag: its length, its offset and the place after it. *)
Lemma item_match_step len off c :
  wf_item (Match len off) -> off <= zlen d -> zlen d < n -> sp + zlen (tag_bytes len off) <= slen ->
  at_pos mem sp (tag_bytes len off) ->
  pglz_item mem slen n (1 + 2 * c) sp d =
  Ok (Some (sp + zlen (tag_bytes len off),
            copy (Z.to_nat (Z.min len (n - zlen d))) (Z.to_nat off) d)).
Proof.
  intros [Hl Ho] Hd Hn Hs Hm. unfold at_pos, pglz_item in *.
  change (1 + 2 * c) with (item_bit (Match len off) + 2 * c).
  rewrite (proj1 (ctrl_bit (Match len off) c)). cbn [item_bit Z.eqb negb].
  rewrite zlen_tag_bytes, tag_bytes_eq in *.
  pose proof (Hm 0) as Hm0. rewrite Z.add_0_r in Hm0.
  unfold PGLZ_MAX_MATCH in Hl. destruct (Z.gtb_spec len 17).
  - rewrite Hm0, (Hm 1), (Hm 2) by lia. change (rd [?a; ?b; ?e] 0) with (Ok a).
    change (rd [?a; ?b; ?e] 1) with (Ok b). change (rd [?a; ?b; ?e] 2) with (Ok e). cbn [mbind res_bind].
    destruct (tag_decode off 15) as [-> ->]; [lia|lia|].
    change (15 + 3 =? 18) with true. cbn [mbind res_bind]. rewrite (Z.mod_small (len - 18)) by lia.
    replace ((sp + 2 + 1 >? slen) || (off =? 0)) with false by lia.
    replace (15 + 3 + (len - 18)) with len by lia. rewrite copy_loop by lia.
    cbn [mbind res_bind]. do 3 f_equal. lia.
  - rewrite Hm0, (Hm 1) by lia. change (rd [?a; ?b] 0) with (Ok a).
    change (rd [?a; ?b] 1) with (Ok b). cbn [mbind res_bind].
    destruct (tag_decode off (len - 3)) as [-> ->]; [lia|lia|].
    replace (len - 3 + 3 =? 18) with false by lia. cbn [mbind res_bind].
    replace ((sp + 2 >? slen) || (off =? 0)) with false by lia.
    replace (len - 3 + 3) with len by lia. by rewrite copy_loop by lia.
Qed.

Lemma item_ok_step it c :
  item_ok d it -> zlen d < n -> sp + zlen (enc_item it) <= slen -> at_pos mem sp (enc_item it) ->
  pglz_item mem slen n (item_bit it + 2 * c) sp d =
  Ok (Some (sp + zlen (enc_item it), take (Z.to_nat n) (exp_item d it))).
Proof.
  intros [Hw Hoff] Hn Hs Hm. rewrite take_exp_item by done.
  destruct it as [b|len off]; [|by apply item_match_step].
  unfold pglz_item. rewrite (proj1 (ctrl_bit (Lit b) c)). cbn [item_bit Z.eqb negb enc_item].
  specialize (Hm 0 ltac:(simpl; zl)). rewrite Z.add_0_r in Hm. by rewrite Hm.
Qed.
End item.

(** ** Groups of items *)

Lemma exp_items_grow d it its :
  items_ok d (it :: its) -> zlen d < zlen (exp_items d (it :: its)).
Proof. intros H. apply enc_items_len in H. rewrite zlen_cons in H. zl. Qed.

Lemma take_exp_more d its n : 0 <= n -> n <= zlen d -> take (Z.to_nat n) (exp_items d its) = take (Z.to_nat n) d.
Proof.
  intros H0 Hn. destruct (exp_items_prefix d its) as [k ->]. rewrite take_app_le; [done|].
  unfold zlen in Hn. lia.
Qed.

Lemma zlen_take_full (l : list Z) n : 0 <= n <= zlen l -> zlen (take (Z.to_nat n) l) = n.
Proof. intros. zl. Qed.

(** Decoding [full] when only its first [slen] bytes are in memory. *)
Section groups.
Context (mem full : list Z) (slen n : Z) (Hn : 0 <= n).
Context (Hag : forall i, 0 <= i < slen -> rd mem i = rd full i).

Lemma at_pos_full pre l post :
  full = pre ++ l ++ post -> zlen pre + zlen l <= slen -> at_pos mem (zlen pre) l.
Proof.
  intros -> Hs i Hi. pose proof (zlen_nonneg pre). rewrite Hag by lia.
  rewrite rd_app_r by lia. rewrite rd_app_l by lia. f_equal. lia.
Qed.

Lemma bits_exit ctrlc ctrl sp d fuel :
  n <= zlen d \/ slen <= sp \/ 8 <= ctrlc ->
  iter (S fuel) (pglz_bits_body mem slen n) (ctrlc, ctrl, sp, d) = Ok (inr (sp, d)).
Proof.
  intros H. rewrite iter_S. unfold pglz_bits_body.
  by replace ((ctrlc <? 8) && (sp <? slen) && (zlen d <? n)) with false by lia.
Qed.

Lemma bits_step pre post it c ctrlc d fuel :
  full = pre ++ enc_item it ++ post ->
  item_ok d it -> zlen d < n -> zlen pre + zlen (enc_item it) <= slen -> ctrlc < 8 ->
  iter (S fuel) (pglz_bits_body mem slen n) (ctrlc, item_bit it + 2 * c, zlen pre, d) =
  iter fuel (pglz_bits_body mem slen n)
    (ctrlc + 1, c, zlen pre + zlen (enc_item it), take (Z.to_nat n) (exp_item d it)).
Proof.
  intros Hfull Hit Hd Hs Hc. destruct (enc_item_len d it (proj1 Hit)) as [Hel _].
  assert (Hb : pglz_bits_body mem slen n
      (ctrlc, item_bit it + 2 * c, zlen pre, d) =
    Ok (inl (ctrlc + 1, c, zlen pre + zlen (enc_item it), take (Z.to_nat n) (exp_item d it)))).
  { unfold pglz_bits_body.
    replace ((ctrlc <? 8) && (zlen pre <? slen) && (zlen d <? n)) with true by lia.
    rewrite item_ok_step by (done || by eapply at_pos_full).
    cbn [mbind res_bind]. by rewrite (proj2 (ctrl_bit it c)). }
  by rewrite iter_S, Hb.
Qed.

(** Every item that is still wanted lies before the end of the source. *)
Definition items_fit (d : list Z) (pos : Z) (g : list item) : Prop :=
  forall g1 it g2, g = g1 ++ it :: g2 -> zlen (exp_items d g1) < n ->
    pos + zlen (enc_items g1) + zlen (enc_item it) <= slen.

Lemma items_fit_cons d pos it g :
  items_fit d pos (it :: g) -> items_fit (exp_item d it) (pos + zlen (enc_item it)) g.
Proof.
  intros H g1 it' g2 -> Hlt. specialize (H (it :: g1) it' g2 eq_refl Hlt).
  unfold enc_items in *. simpl in H. zl.
Qed.

Lemma bits_loop g : forall pre post ctrlc d fuel,
  full = pre ++ enc_items g ++ post -> items_ok d g -> zlen d <= n -> 0 <= ctrlc -> ctrlc + zlen g <= 8 ->
  (ctrlc + zlen g = 8 \/ slen <= zlen pre + zlen (enc_items g)) ->
  items_fit d (zlen pre) g -> (length g < fuel)%nat ->
  exists sp', zlen pre <= sp' /\
    (zlen (exp_items d g) <= n -> sp' = zlen pre + zlen (enc_items g)) /\
    iter fuel (pglz_bits_body mem slen n) (ctrlc, ctrl_bits g, zlen pre, d)
      = Ok (inr (sp', take (Z.to_nat n) (exp_items d g))).
Proof.
  induction g as [|it g IH]; intros pre post ctrlc d fuel Hfull Hok Hd Hc Hc8 Hend Hfit Hfuel;
    (destruct fuel as [|fuel]; [simpl in Hfuel; lia|]).
  - exists (zlen pre). change (zlen (enc_items [])) with 0 in *. change (zlen []) with 0 in *.
    split; [lia|]. split; [lia|]. rewrite bits_exit by lia. cbn [exp_items fold_left].
    rewrite take_ge; [done|]. unfold zlen in Hd. lia.
  - pose proof (exp_items_grow _ _ _ Hok) as Hgrow.
    destruct (decide (zlen d = n)) as [Hdn|].
    { exists (zlen pre). split; [lia|]. split; [lia|]. rewrite bits_exit by lia.
      rewrite take_exp_more by lia. rewrite take_ge; [done|]. unfold zlen in Hd. lia. }
    pose proof (Hfit [] it g eq_refl ltac:(simpl; lia)) as Hf. change (zlen (enc_items [])) with 0 in Hf.
    destruct Hok as [Hit Hok]. destruct (enc_item_len d it (proj1 Hit)) as [Hel Hexp].
    assert (Hen : enc_items (it :: g) = enc_item it ++ enc_items g) by done.
    rewrite Hen, <- app_assoc in Hfull. rewrite Hen. cbn [ctrl_bits]. rewrite zlen_cons in *.
    rewrite (bits_step _ _ _ _ _ _ _ Hfull) by (done || zl).
    change (exp_items d (it :: g)) with (exp_items (exp_item d it) g) in *.
    destruct (decide (zlen (exp_item d it) <= n)).
    + rewrite (take_ge (exp_item d it)) by (unfold zlen in *; lia).
      destruct (IH (pre ++ enc_item it) post (ctrlc + 1) (exp_item d it) fuel) as (sp' & Hsp & Hall & Hit');
        try done; try lia.
      * by rewrite <- app_assoc.
      * rewrite Hen in Hend. zl.
      * rewrite zlen_app. by apply items_fit_cons.
      * simpl in Hfuel. lia.
      * rewrite zlen_app in Hsp, Hall, Hit'.
        exists sp'. rewrite zlen_app. split; [lia|]. split; [|done]. intros ?. rewrite Hall by done. lia.
    + exists (zlen pre + zlen (enc_item it)). split; [lia|].
      destruct (exp_items_prefix (exp_item d it) g) as [k Hk].
      split; [rewrite Hk; zl|]. destruct fuel as [|fuel]; [simpl in Hfuel; lia|].
      rewrite bits_exit by (left; rewrite zlen_take_full; lia). by rewrite take_exp_more by lia.
Qed.

Definition groups_fit (d : list Z) (pos : Z) (gs : list (list item)) : Prop :=
  forall gs1 g1 it g2 gs2, gs = gs1 ++ (g1 ++ it :: g2) :: gs2 ->
    zlen (exp_items d (concat gs1 ++ g1)) < n ->
    pos + zlen (enc_groups gs1) + 1 + zlen (enc_items g1) + zlen (enc_item it) <= slen.

Lemma groups_fit_cons d pos g gs :
  groups_fit d pos (g :: gs) ->
  items_fit d (pos + 1) g /\ groups_fit (exp_items d g) (pos + zlen (enc_group g)) gs.
Proof.
  intros H. split.
  - intros g1 it g2 -> Hlt. specialize (H [] g1 it g2 gs eq_refl Hlt).
    change (zlen (enc_groups [])) with 0 in H. lia.
  - intros gs1 g1 it g2 gs2 -> Hlt. specialize (H (g :: gs1) g1 it g2 gs2 eq_refl).
    simpl in H. rewrite <- app_assoc, exp_items_app in H. specialize (H Hlt).
    change (enc_groups (g :: gs1)) with (enc_group g ++ enc_groups gs1) in H. zl.
Qed.

Lemma groups_exit sp d fuel :
  n <= zlen d \/ slen <= sp ->
  iter (S fuel) (pglz_groups_body mem slen n) (sp, d) = Ok (inr (sp, d)).
Proof.
  intros H. rewrite iter_S. unfold pglz_groups_body.
  by replace ((sp <? slen) && (zlen d <? n)) with false by lia.
Qed.

(** One turn of the outer loop decodes a group, or the part of it that is wanted. *)
Lemma groups_step pre post g d fuel :
  full = pre ++ enc_group g ++ post ->
  items_ok d g -> zlen d < n -> zlen pre < slen -> zlen g <= 8 ->
  (zlen g = 8 \/ slen <= zlen pre + zlen (enc_group g)) -> items_fit d (zlen pre + 1) g ->
  exists sp', zlen pre < sp' /\
    (zlen (exp_items d g) <= n -> sp' = zlen pre + zlen (enc_group g)) /\
    iter (S fuel) (pglz_groups_body mem slen n) (zlen pre, d) =
    iter fuel (pglz_groups_body mem slen n)
      (sp', take (Z.to_nat n) (exp_items d g)).
Proof.
  intros Hfull Hok Hd Hs Hg Hend Hfit. unfold enc_group in *. rewrite zlen_cons in *.
  destruct (bits_loop g (pre ++ [ctrl_bits g]) post 0 d 9) as (sp' & Hsp & Hall & Hl);
    try done; try lia.
  - by rewrite <- app_assoc.
  - zl.
  - by rewrite zlen_app.
  - unfold zlen in Hg. lia.
  - exists sp'. rewrite zlen_app in *. change (zlen [ctrl_bits g]) with 1 in *.
    split; [lia|]. split; [intros H; rewrite Hall by done; lia|].
    assert (Hb : pglz_groups_body mem slen n (zlen pre, d) =
      Ok (inl (sp', take (Z.to_nat n) (exp_items d g)))).
    { unfold pglz_groups_body. replace ((zlen pre <? slen) && (zlen d <? n)) with true by lia.
      rewrite Hag by zl. rewrite Hfull, <- app_comm_cons, rd_middle by done. cbn [mbind res_bind].
      by rewrite Hl. }
    by rewrite iter_S, Hb.
Qed.

Lemma groups_ok_cons g gs :
  groups_ok (g :: gs) -> (1 <= length g <= 8)%nat /\ (length g = 8%nat \/ gs = []) /\ groups_ok gs.
Proof. destruct gs; simpl; intros H; [auto|]. destruct H. split; [lia|]. auto. Qed.

Lemma groups_loop gs : forall pre post d fuel,
  full = pre ++ enc_groups gs ++ post -> groups_ok gs -> items_ok d (concat gs) -> zlen d <= n ->
  slen <= zlen pre + zlen (enc_groups gs) -> groups_fit d (zlen pre) gs ->
  slen - zlen pre < Z.of_nat fuel -> (0 < fuel)%nat ->
  exists sp',
    (zlen (exp_items d (concat gs)) <= n -> sp' = zlen pre + zlen (enc_groups gs)) /\
    iter fuel (pglz_groups_body mem slen n) (zlen pre, d)
      = Ok (inr (sp', take (Z.to_nat n) (exp_items d (concat gs)))).
Proof.
  induction gs as [|g gs IH]; intros pre post d fuel Hfull Hgs Hok Hd Hend Hfit Hfuel Hf0;
    (destruct fuel as [|fuel]; [lia|]).
  - exists (zlen pre). change (zlen (enc_groups [])) with 0 in *. split; [lia|].
    rewrite groups_exit by lia. cbn [concat exp_items fold_left].
    rewrite take_ge; [done|]. unfold zlen in Hd. lia.
  - apply groups_ok_cons in Hgs as (Hg8 & Hlast & Hgs). apply groups_fit_cons in Hfit as [Hfit Hfits].
    cbn [concat] in Hok |- *. apply items_ok_app in Hok as [Hokg Hok].
    rewrite exp_items_app. assert (Hen : enc_groups (g :: gs) = enc_group g ++ enc_groups gs) by done.
    destruct (exp_items_prefix (exp_items d g) (concat gs)) as [k Hk].
    assert (Hgrow : zlen d < zlen (exp_items d g)).
    { destruct g as [|it g]; [simpl in Hg8; lia|]. by apply exp_items_grow. }
    destruct (decide (zlen d = n)) as [Hdn|].
    { exists (zlen pre). split; [rewrite Hk; zl|]. rewrite groups_exit by lia.
      rewrite !take_exp_more by lia. rewrite take_ge; [done|]. unfold zlen in Hd. lia. }
    assert (Hps : zlen pre < slen).
    { destruct g as [|it g]; [simpl in Hg8; lia|].
      specialize (Hfit [] it g eq_refl ltac:(simpl; lia)).
      change (zlen (enc_items [])) with 0 in Hfit. zl. }
    rewrite Hen, zlen_app in Hend. rewrite Hen, <- app_assoc in Hfull. rewrite Hen.
    destruct (groups_step pre (enc_groups gs ++ post) g d fuel) as (sp' & Hsp & Hall & ->); try done; try lia.
    + unfold zlen. lia.
    + destruct Hlast as [|H]; [left; unfold zlen; lia|right]. rewrite H in Hend.
      change (zlen (enc_groups [])) with 0 in Hend. lia.
    + destruct (decide (zlen (exp_items d g) <= n)).
      * rewrite (take_ge (exp_items d g)) by (unfold zlen in *; lia). rewrite Hall in * by done.
        destruct (IH (pre ++ enc_group g) post (exp_items d g) fuel) as (sp2 & Hall2 & Hl);
          [by rewrite <- app_assoc|done|done|done|zl|by rewrite zlen_app|zl|lia|].
        exists sp2. rewrite zlen_app in Hl. split; [|done].
        intros H. rewrite Hall2 by done. zl.
      * exists sp'. split; [rewrite Hk; zl|]. destruct fuel as [|fuel]; [lia|].
        rewrite groups_exit by (left; rewrite zlen_take_full; lia).
        by rewrite (take_exp_more (exp_items d g)) by lia.
Qed.
End groups.

(** * The codec as a whole *)

(** The compressed prefix that is enough for n bytes. *)
Definition prefix_size (n : Z) : Z := (n * 9 + 7) / 8 + 2.

Lemma max_compressed_size_eq n total :
  0 <= n -> 0 <= total <= INT_MAX ->
  pglz_maximum_compressed_size n total = Z.min (prefix_size n) total.
Proof.
  intros Hn Ht. unfold pglz_maximum_compressed_size, prefix_size, int32_of, INT_MAX in *.
  rewrite Z.quot_div_nonneg by lia. set (m := Z.min _ total).
  rewrite Z.mod_small by lia. ztests; lia.
Qed.

Lemma groups_ok_before gs1 g gs2 :
  groups_ok (gs1 ++ g :: gs2) -> Forall (fun g => length g = 8%nat) gs1.
Proof.
  induction gs1 as [|x gs1 IH]; simpl; intros H; [constructor|].
  destruct (gs1 ++ g :: gs2) eqn:E; [by destruct gs1|]. destruct H. auto.
Qed.

Lemma enc_groups_len gs : zlen (enc_groups gs) = zlen gs + zlen (enc_items (concat gs)).
Proof.
  induction gs as [|g gs IH]; [done|]. change (enc_groups (g :: gs)) with (enc_group g ++ enc_groups gs).
  cbn [concat]. rewrite enc_items_app. unfold enc_group. zl.
Qed.

Lemma full_groups_len gs :
  Forall (fun g : list item => length g = 8%nat) gs -> zlen (concat gs) = 8 * zlen gs.
Proof. induction 1 as [|g gs Hg _ IH]; [done|]. simpl. unfold zlen in *. rewrite length_app. simpl. lia. Qed.

(** The comment of pglz_maximum_compressed_size, as a fact about the format. *)
Lemma prefix_fits gs slen n :
  groups_ok gs -> items_ok [] (concat gs) ->
  Z.min (zlen (enc_groups gs)) (prefix_size n) <= slen ->
  groups_fit slen n [] 0 gs.
Proof.
  intros Hgs Hok Hs gs1 g1 it g2 gs2 Heq Hlt. subst gs.
  pose proof (groups_ok_before _ _ _ Hgs) as H8. apply full_groups_len in H8.
  rewrite concat_app in Hok. cbn [concat] in Hok. rewrite app_assoc, <- !app_assoc in Hok.
  rewrite (app_assoc (concat gs1)) in Hok. apply items_ok_app in Hok as [Hok1 Hok2].
  apply enc_items_len in Hok1. rewrite enc_items_app, !zlen_app in Hok1.
  change (zlen []) with 0 in Hok1. destruct Hok2 as [[Hw _] _].
  destruct (enc_item_len [] it Hw) as [He _].
  rewrite enc_groups_app, zlen_app in Hs.
  change (enc_groups ((g1 ++ it :: g2) :: gs2)) with (enc_group (g1 ++ it :: g2) ++ enc_groups gs2) in Hs.
  unfold enc_group, prefix_size in Hs. change (it :: g2) with ([it] ++ g2) in Hs.
  rewrite !enc_items_app, enc_items_1 in Hs. rewrite enc_groups_len in *. zl.
Qed.

(** Decompression of an encoding of which the first [slen] bytes are in memory. *)
Lemma pglz_decompress_groups gs mem slen n cc :
  groups_ok gs -> items_ok [] (concat gs) -> 0 <= n ->
  Z.min (zlen (enc_groups gs)) (prefix_size n) <= slen <= zlen (enc_groups gs) ->
  (forall i, 0 <= i < slen -> rd mem i = rd (enc_groups gs) i) ->
  exists sp, let d := take (Z.to_nat n) (exp_items [] (concat gs)) in
    (zlen (exp_items [] (concat gs)) <= n -> sp = zlen (enc_groups gs)) /\
    pglz_decompress mem slen n cc =
      if cc && (negb (zlen d =? n) || negb (sp =? slen)) then Ok (-1, d) else Ok (zlen d, d).
Proof.
  intros Hgs Hok Hn Hs Hag.
  destruct (groups_loop mem (enc_groups gs) slen n Hn Hag gs [] [] [] (S (Z.to_nat slen)))
    as (sp & Hsp & Hl); try done; try lia.
  - by rewrite app_nil_r.
  - change (zlen []) with 0. lia.
  - apply prefix_fits; [done|done|lia].
  - change (zlen []) with 0. lia.
  - exists sp. split; [done|]. unfold pglz_decompress. change 0 with (zlen (@nil Z)) at 1.
    rewrite Hl. done.
Qed.

(** ** Properties *)

Lemma pglz_result_max_le s slen : 0 <= slen -> 0 <= pglz_result_max s slen <= slen.
Proof.
  intros H. assert (Hr : 0 <= pglz_need_rate s <= 99) by (unfold pglz_need_rate; ztests; lia).
  set (r := pglz_need_rate s) in *. unfold pglz_result_max. fold r.
  rewrite !Z.quot_div_nonneg by (unfold INT_MAX; nia). destruct (slen >? INT_MAX / 100).
  - assert (0 <= slen / 100 /\ 100 * (slen / 100) <= slen) by lia. nia.
  - split; [apply Z.div_pos; nia|]. apply Z.div_le_upper_bound; nia.
Qed.

Lemma pglz_result_max_rate s slen :
  0 <= slen -> pglz_result_max s slen * 100 <= slen * (100 - pglz_need_rate s).
Proof.
  intros H. assert (Hn : 0 <= pglz_need_rate s <= 99) by (unfold pglz_need_rate; ztests; lia).
  set (k := pglz_need_rate s) in *. unfold pglz_result_max. fold k.
  rewrite !Z.quot_div_nonneg by (unfold INT_MAX; nia). destruct (slen >? INT_MAX / 100).
  - assert (100 * (slen / 100) <= slen) by lia. nia.
  - rewrite Z.mul_comm. apply Z.mul_div_le. lia.
Qed.

Lemma pglz_compress_spec source strategy :
  bytes source ->
  returns (pglz_compress source strategy) (fun '(r, out) =>
    comp_result source (default strategy_default_data strategy) r out).
Proof.
  intros Hb. unfold pglz_compress. set (s := default strategy_default_data strategy).
  destruct (_ || _ || _).
  - split; [apply Z.le_max_l|by left].
  - apply (iter_returns (comp_inv source s) (fun st => Z.to_nat (zlen source - p_dp st)));
      [|by apply comp_inv_init|simpl; unfold zlen; lia].
    intros st HI. eapply returns_mono; [by apply comp_turn|].
    intros [st'|[r out]]; [|done]. intros [HI' Hdp]. split; [done|]. destruct HI. lia.
Qed.

(** C33: pglz_compress always returns, and what it returns is either -1 or the size of
    compressed data, shorter than the source, that pglz_decompress turns back into the
    source, whatever the strategy, with and without the completeness check, and
    whatever bytes follow the compressed data in memory. *)
Theorem pglz_roundtrip source strategy :
  bytes source ->
  returns (pglz_compress source strategy) (fun '(r, out) =>
    r = -1 \/
    (r = zlen out /\ 0 <= r < zlen source /\
     forall post cc, pglz_decompress (out ++ post) r (zlen source) cc = Ok (zlen source, source))).
Proof.
  intros Hb. eapply returns_mono; [by apply pglz_compress_spec|].
  intros [r out] [_ [->|(-> & Hr & gs & Hgs & -> & Hok & He)]]; [by left|right].
  pose proof (pglz_result_max_le (default strategy_default_data strategy) (zlen source) (zlen_nonneg _)).
  split; [done|]. split; [zl|]. intros post cc.
  destruct (pglz_decompress_groups gs (enc_groups gs ++ post) (zlen (enc_groups gs)) (zlen source) cc)
    as (sp & Hsp & ->); try done; [zl|lia|intros; by apply rd_app_l|].
  rewrite He in *. rewrite Hsp by lia. rewrite take_ge by (unfold zlen; lia).
  by rewrite !Z.eqb_refl, andb_false_r.
Qed.

Definition pglz_sample : list Z := concat (replicate 12 [49; 49; 50; 51; 52; 200; 7; 9]).

Lemma pglz_roundtrip_witness :
  bytes pglz_sample /\
  pglz_compress pglz_sample None = Ok (13, [0; 49; 49; 50; 51; 52; 200; 7; 9; 1; 15; 8; 70]) /\
  pglz_decompress [0; 49; 49; 50; 51; 52; 200; 7; 9; 1; 15; 8; 70] 13 96 true = Ok (96, pglz_sample).
Proof.
  assert (Hb : bytes pglz_sample) by solve_bytes. split; [exact Hb|].
  assert (Hc : pglz_compress pglz_sample None = Ok (13, [0; 49; 49; 50; 51; 52; 200; 7; 9; 1; 15; 8; 70]))
    by (vm_compute; reflexivity).
  split; [exact Hc|]. pose proof (pglz_roundtrip pglz_sample None Hb) as H. rewrite Hc in H.
  destruct H as [H|(_ & _ & H)]; [discriminate|]. exact (H [] true).
Defined.

(** A slice needs only a prefix of the compressed data: with the first
    pglz_maximum_compressed_size(n, total) bytes in memory and nothing after them,
    pglz_decompress yields exactly the first n bytes of the source. *)
Theorem pglz_prefix source strategy r out n :
  bytes source -> zlen source <= INT_MAX -> pglz_compress source strategy = Ok (r, out) -> r <> -1 ->
  0 <= n <= zlen source ->
  let slen := pglz_maximum_compressed_size n r in
  pglz_decompress (take (Z.to_nat slen) out) slen n false = Ok (n, take (Z.to_nat n) source).
Proof.
  intros Hb Hmax Hc Hr Hn slen. pose proof (pglz_compress_spec source strategy Hb) as H. rewrite Hc in H.
  destruct H as [_ [|(-> & Hlt & gs & Hgs & -> & Hok & He)]]; [done|].
  pose proof (pglz_result_max_le (default strategy_default_data strategy) (zlen source) (zlen_nonneg _)).
  unfold slen. rewrite max_compressed_size_eq by (lia || zl). set (m := Z.min _ _).
  assert (Hm : 0 <= m <= zlen (enc_groups gs)) by (unfold m, prefix_size; zl).
  destruct (pglz_decompress_groups gs (take (Z.to_nat m) (enc_groups gs)) m n false)
    as (sp & _ & Hd); try done; try lia.
  - intros i Hi. unfold rd. ztests; [|done]. by rewrite lookup_take_lt by lia.
  - rewrite Hd, He. simpl. by rewrite zlen_take_full.
Qed.

Lemma pglz_prefix_witness :
  pglz_maximum_compressed_size 7 13 = 10 /\
  pglz_decompress [0; 49; 49; 50; 51; 52; 200; 7; 9; 1] 10 7 false = Ok (7, [49; 49; 50; 51; 52; 200; 7]).
Proof.
  split; [reflexivity|].
  exact (pglz_prefix pglz_sample None 13 [0; 49; 49; 50; 51; 52; 200; 7; 9; 1; 15; 8; 70] 7
    ltac:(solve_bytes) ltac:(vm_compute; discriminate) ltac:(vm_compute; reflexivity)
    ltac:(discriminate) ltac:(vm_compute; split; discriminate)).
Defined.

(** The compressor never writes more than PGLZ_MAX_OUTPUT(slen) bytes, also when it
    gives up, and a success meets the strategy's compression rate. *)
Theorem pglz_compress_output source strategy :
  bytes source ->
  returns (pglz_compress source strategy) (fun '(r, out) =>
    zlen out <= PGLZ_MAX_OUTPUT (zlen source) /\
    (r = -1 \/
     r * 100 < zlen source * (100 - pglz_need_rate (default strategy_default_data strategy)))).
Proof.
  intros Hb. eapply returns_mono; [by apply pglz_compress_spec|].
  intros [r out] [Hsz Hr]. set (s := default strategy_default_data strategy) in *.
  pose proof (zlen_nonneg source) as Hs. pose proof (pglz_result_max_le s (zlen source) Hs).
  unfold PGLZ_MAX_OUTPUT. split; [lia|]. destruct Hr as [|(_ & Hr & _)]; [by left|right].
  pose proof (pglz_result_max_rate s (zlen source) Hs).
  lia.
Qed.

Lemma pglz_compress_output_witness :
  bytes pglz_sample /\
  returns (pglz_compress pglz_sample (Some strategy_always_data)) (fun '(r, out) =>
    zlen out <= 100 /\ (r = -1 \/ r * 100 < 9600)).
Proof.
  assert (Hb : bytes pglz_sample) by solve_bytes. split; [exact Hb|].
  exact (pglz_compress_output pglz_sample (Some strategy_always_data) Hb).
Defined.

(** ** Corrupt input *)

(** A result that is a value satisfying P, or an access outside the buffers. *)
Definition ok_or_ub {A} (m : res A) (P : A -> Prop) : Prop :=
  match m with Ok a => P a | Ub => True | _ => False end.

Lemma ok_or_ub_bind {A B} (m : res A) (f : A -> res B) (P : A -> Prop) (Q : B -> Prop) :
  ok_or_ub m P -> (forall a, P a -> ok_or_ub (f a) Q) -> ok_or_ub (m ≫= f) Q.
Proof. destruct m; simpl; auto; contradiction. Qed.

Lemma ok_or_ub_mono {A} (m : res A) (P Q : A -> Prop) :
  ok_or_ub m P -> (forall a, P a -> Q a) -> ok_or_ub m Q.
Proof. destruct m; simpl; auto. Qed.

Lemma ok_or_ub_iter {S R : Type} (I : S -> Prop) (m : S -> nat) (P : R -> Prop)
    (body : S -> res (S + R)) fuel s :
  (forall s, I s ->
     ok_or_ub (body s) (fun x => match x with inl s' => I s' /\ (m s' < m s)%nat | inr r => P r end)) ->
  I s -> (m s < fuel)%nat -> ok_or_ub (iter fuel body s) P.
Proof.
  intros Hbody. apply (iter_rule I m (fun x => ok_or_ub x P)).
  intros s' HI. specialize (Hbody s' HI). destruct (body s') as [[?|?]|?| |]; done.
Qed.

Lemma rd_ok_or_ub mem i : bytes mem -> ok_or_ub (rd mem i) is_byte.
Proof. intros Hb. destruct (rd mem i) eqn:E; simpl; try done; [by eapply rd_byte|..];
  unfold rd in E; destruct (0 <=? i); try done; by destruct (mem !! _). Qed.

Lemma rdn_ok_or_ub d i n : ok_or_ub (rdn d i n) (fun c => zlen c = n).
Proof.
  destruct (rdn d i n) eqn:E; simpl; try done.
  - apply rdn_Ok_inv in E as (?&?&?&->). rewrite zlen_zslice; lia.
  - unfold rdn in E. by destruct (_ && _).
  - unfold rdn in E. by destruct (_ && _).
Qed.

Lemma copy_loop_safe d len off :
  1 <= off -> 0 <= len ->
  ok_or_ub (iter (S (Z.to_nat len)) copy_body (d, len, off)) (fun d' => zlen d' = zlen d + len).
Proof.
  intros Ho Hl. apply (ok_or_ub_iter
    (fun '(d', l, o) => zlen d' + l = zlen d + len /\ 0 <= l /\ 1 <= o) (fun '(_, l, _) => Z.to_nat l));
    [|lia|lia].
  intros [[d' l] o] (H1 & H2 & H3). unfold copy_body. destruct (Z.ltb_spec o l);
    (eapply ok_or_ub_bind; [apply rdn_ok_or_ub|]); intros c Hc; cbv beta in Hc; simpl; zl.
Qed.

Section safe.
Context (mem : list Z) (slen n : Z) (Hm : bytes mem) (Hn : 0 <= n).

Lemma item_safe ctrl sp d :
  zlen d <= n -> zlen d < n ->
  ok_or_ub (pglz_item mem slen n ctrl sp d) (fun r => match r with
    | None => True | Some (sp', d') => sp < sp' /\ zlen d' <= n end).
Proof.
  intros Hd Hlt. unfold pglz_item. destruct (negb _).
  - eapply ok_or_ub_bind; [by apply rd_ok_or_ub|]. intros b0 H0.
    eapply ok_or_ub_bind; [by apply rd_ok_or_ub|]. intros b1 H1.
    set (off := Z.lor _ _). set (l0 := Z.land b0 15 + 3).
    assert (0 <= off).
    { unfold off. apply Z.lor_nonneg. split; [|apply H1]. apply Z.shiftl_nonneg, Z.land_nonneg.
      left. apply H0. }
    assert (0 <= l0).
    { assert (0 <= Z.land b0 15) by (apply Z.land_nonneg; right; lia). unfold l0. lia. }
    apply (ok_or_ub_bind _ _ (fun '(l, sp') => 0 <= l /\ sp < sp')).
    { destruct (l0 =? 18); [|simpl; lia].
      eapply ok_or_ub_bind; [by apply rd_ok_or_ub|]. intros b2 [? ?]. simpl. lia. }
    intros [l sp'] [Hl Hsp]. destruct (Z.eqb_spec off 0); [by rewrite orb_true_r|].
    destruct (sp' >? slen); [done|]. cbn [orb].
    eapply ok_or_ub_bind; [apply copy_loop_safe; lia|]. intros d' Hd'. cbv beta in Hd'. simpl. lia.
  - eapply ok_or_ub_bind; [by apply rd_ok_or_ub|]. intros b Hb. simpl. zl.
Qed.

Lemma bits_safe ctrl sp d :
  zlen d <= n ->
  ok_or_ub (iter 9 (pglz_bits_body mem slen n) (0, ctrl, sp, d)) (fun r => match r with
    | inl d' => zlen d' <= n | inr (sp', d') => sp <= sp' /\ zlen d' <= n end).
Proof.
  intros Hd. apply (ok_or_ub_iter
    (fun '(c, _, sp', d') => 0 <= c <= 8 /\ sp <= sp' /\ zlen d' <= n)
    (fun '(c, _, _, _) => Z.to_nat (8 - c))); [|lia|lia].
  intros [[[c ct] sp'] d'] (Hc & Hsp & Hd'). unfold pglz_bits_body.
  destruct ((c <? 8) && (sp' <? slen) && (zlen d' <? n)) eqn:E; [|done].
  eapply ok_or_ub_bind; [apply item_safe; lia|]. intros [[sp2 d2]|] H; simpl; [|done].
  destruct H. split; lia.
Qed.

Lemma groups_safe :
  ok_or_ub (iter (S (Z.to_nat slen)) (pglz_groups_body mem slen n) (0, [])) (fun r => match r with
    | inl d' => zlen d' <= n | inr (sp', d') => zlen d' <= n end).
Proof.
  apply (ok_or_ub_iter (fun '(sp, d) => zlen d <= n) (fun '(sp, _) => Z.to_nat (slen - sp))); [|done|lia].
  intros [sp d] Hd. unfold pglz_groups_body.
  destruct ((sp <? slen) && (zlen d <? n)) eqn:E; [|done].
  eapply ok_or_ub_bind; [by apply rd_ok_or_ub|]. intros c Hc.
  eapply ok_or_ub_bind; [by apply bits_safe|]. intros [d'|[sp' d']] H; simpl; [done|].
  destruct H. split; [done|lia].
Qed.
End safe.

(** On any compressed bytes at all, corrupt ones included, pglz_decompress
    terminates, never writes more than rawsize bytes, and returns -1 or the number of
    bytes written; with the completeness check it returns -1 or rawsize. *)
Theorem pglz_decompress_safe mem slen rawsize cc :
  bytes mem -> 0 <= rawsize ->
  match pglz_decompress mem slen rawsize cc with
  | Ok (r, d) => zlen d <= rawsize /\ (r = -1 \/ r = zlen d) /\ (cc = true -> r = -1 \/ r = rawsize)
  | Ub => True
  | _ => False
  end.
Proof.
  intros Hm Hn. change (ok_or_ub (pglz_decompress mem slen rawsize cc) (fun '(r, d) =>
    zlen d <= rawsize /\ (r = -1 \/ r = zlen d) /\ (cc = true -> r = -1 \/ r = rawsize))).
  unfold pglz_decompress. eapply ok_or_ub_bind; [by apply groups_safe|].
  intros [d|[sp d]] Hd; simpl in Hd |- *; [auto|].
  destruct cc; simpl; [|split_and!; auto; done].
  destruct (Z.eqb_spec (zlen d) rawsize); simpl; [|auto]. destruct (sp =? slen); simpl; auto with lia.
Qed.

Lemma pglz_decompress_safe_witness :
  bytes [1; 15; 0; 9] /\
  exists r d, pglz_decompress [1; 15; 0; 9] 4 20 true = Ok (r, d) /\ (r = -1 \/ r = 20).
Proof.
  assert (Hb : bytes [1; 15; 0; 9]) by solve_bytes. split; [exact Hb|].
  pose proof (pglz_decompress_safe [1; 15; 0; 9] 4 20 true Hb ltac:(lia)) as H.
  exists (-1), []. split; [vm_compute; reflexivity|]. vm_compute in H. destruct H as (_ & _ & H).
  exact (H eq_refl).
Defined.

(** The corruption check of a tag does not compare the offset with the number of
    bytes already produced: the tag 0x10 0x05 as the first item makes the copy read
    before the start of the destination buffer. *)
Theorem pglz_backref_unchecked : pglz_decompress [1; 0x10; 0x05] 3 100 true = Ub.
Proof. vm_compute. reflexivity. Qed.
