(* ===== verification/ToastCompression.v ===== *)
(** Compression of whole datums: src/backend/access/common/toast_compression.c, with
    toast_compress_datum of toast_internals.c and toast_decompress_datum(_slice) of
    detoast.c, which choose the method.

    liblz4 is a parameter: [None] is a server built without it, [Some L] calls the
    functions of [L], whose documented behaviour is the class [Lz4Ok].  The allocator is
    a parameter too, as the number of bytes that a chunk for a request really has.  The
    RLE routines write more than they request; a write past the end of the chunk is
    undefined behaviour, and the theorems about RLE values say how much room they need.
    PGLZ stays within its requests (pglz_compress_output and pglz_decompress_safe of
    PglzCodec.v). *)

From S2P Require Import Prelude Rle Varatt Pglz PglzHist PglzItems PglzCodec.

(** ** Methods *)

(** enum ToastCompressionId *)
Definition TOAST_PGLZ_COMPRESSION_ID : Z := 0.
Definition TOAST_LZ4_COMPRESSION_ID : Z := 1.
Definition TOAST_INVALID_COMPRESSION_ID : Z := 2.
Definition TOAST_RLE_COMPRESSION_ID : Z := 3.

(** attcompression characters *)
Definition TOAST_PGLZ_COMPRESSION : Z := 112.
Definition TOAST_LZ4_COMPRESSION : Z := 108.
Definition TOAST_RLE_COMPRESSION : Z := 114.
Definition InvalidCompressionMethod : Z := 0.
Definition CompressionMethodIsValid (cm : Z) : bool := negb (cm =? InvalidCompressionMethod).

(** The part of liblz4 that is used; a result is the C value and the bytes written. *)
Record lz4_lib := {
  LZ4_compressBound : Z -> Z;
  LZ4_compress_default : list Z -> Z -> Z * list Z;
  LZ4_decompress_safe : list Z -> Z -> Z * list Z;
  LZ4_decompress_safe_partial : list Z -> Z -> Z -> Z * list Z;
  LZ4_versionNumber : Z
}.

(** What the compression code takes from its environment: liblz4, the usable size of the
    chunk that palloc returns for a request (it may round the request up), and the GUC
    default_toast_compression. *)
Record config := {
  lz4 : option lz4_lib;
  chunk_space : Z -> Z;
  default_toast_compression : Z
}.

(** The literal buffer of rle_compress, for which 127 bytes are requested. *)
Definition rle_bufcap (c : config) : Z := chunk_space c 127.

(** [written] bytes, from the start of a chunk that was requested with [size] bytes. *)
Definition in_chunk (c : config) (size written : Z) : res unit :=
  if written <=? chunk_space c size then Ok tt else Ub.

Definition NO_LZ4_SUPPORT {A} : res A := Ereport ERRCODE_FEATURE_NOT_SUPPORTED.

(** A result buffer: the header bytes are indeterminate until they are set. *)
Definition result_compressed (len : Z) (out : list Z) : list Z :=
  SET_VARSIZE_COMPRESSED (zrep VARHDRSZ_COMPRESSED 0 ++ take (Z.to_nat len) out) (len + VARHDRSZ_COMPRESSED).
Definition result_plain (rawsize : Z) (dest : list Z) : list Z :=
  SET_VARSIZE (zrep VARHDRSZ 0 ++ take (Z.to_nat rawsize) dest) (rawsize + VARHDRSZ).

(** VARDATA_ANY(value) for valsize bytes. *)
Definition value_data (value : list Z) (valsize : Z) : res (list Z) :=
  p ← VARDATA_ANY value; rdn value p valsize.

(** ** PGLZ *)

Definition pglz_compress_datum (value : list Z) : res (option (list Z)) :=
  sz ← VARSIZE_ANY_EXHDR value;
  let valsize := int32_of sz in
  if (valsize <? Pglz.min_input_size strategy_default_data)
     || (valsize >? Pglz.max_input_size strategy_default_data) then Ok None else
  _ ← palloc (PGLZ_MAX_OUTPUT valsize + VARHDRSZ_COMPRESSED);
  data ← value_data value valsize;
  r ← pglz_compress data None;
  let '(len, out) := r in
  if len <? 0 then Ok None else Ok (Some (result_compressed len out)).

Definition pglz_decompress_datum (value : list Z) : res (list Z) :=
  extsize ← VARDATA_COMPRESSED_GET_EXTSIZE value;
  _ ← palloc (extsize + VARHDRSZ);
  sz ← VARSIZE value;
  r ← pglz_decompress (drop (Z.to_nat VARHDRSZ_COMPRESSED) value) (int32_of (sz - VARHDRSZ_COMPRESSED))
        extsize true;
  let '(rawsize, dest) := r in
  if rawsize <? 0 then Ereport ERRCODE_DATA_CORRUPTED else Ok (result_plain rawsize dest).

Definition pglz_decompress_datum_slice (value : list Z) (slicelength : Z) : res (list Z) :=
  _ ← palloc (slicelength + VARHDRSZ);
  sz ← VARSIZE value;
  r ← pglz_decompress (drop (Z.to_nat VARHDRSZ_COMPRESSED) value) (int32_of (sz - VARHDRSZ_COMPRESSED))
        slicelength false;
  let '(rawsize, dest) := r in
  if rawsize <? 0 then Ereport ERRCODE_DATA_CORRUPTED else Ok (result_plain rawsize dest).

(** ** LZ4 *)

Definition lz4_compress_datum (c : config) (value : list Z) : res (option (list Z)) :=
  match lz4 c with
  | None => NO_LZ4_SUPPORT
  | Some L =>
      sz ← VARSIZE_ANY_EXHDR value;
      let valsize := int32_of sz in
      let max_size := LZ4_compressBound L valsize in
      _ ← palloc (max_size + VARHDRSZ_COMPRESSED);
      data ← value_data value valsize;
      let '(len, out) := LZ4_compress_default L data max_size in
      if len <=? 0 then Ereport ERRCODE_INTERNAL_ERROR else
      if len >? valsize then Ok None else Ok (Some (result_compressed len out))
  end.

Definition lz4_decompress_datum (c : config) (value : list Z) : res (list Z) :=
  match lz4 c with
  | None => NO_LZ4_SUPPORT
  | Some L =>
      extsize ← VARDATA_COMPRESSED_GET_EXTSIZE value;
      _ ← palloc (extsize + VARHDRSZ);
      sz ← VARSIZE value;
      src ← rdn value VARHDRSZ_COMPRESSED (sz - VARHDRSZ_COMPRESSED);
      let '(rawsize, dest) := LZ4_decompress_safe L src extsize in
      if rawsize <? 0 then Ereport ERRCODE_DATA_CORRUPTED else Ok (result_plain rawsize dest)
  end.

Definition lz4_decompress_datum_slice (c : config) (value : list Z) (slicelength : Z)
    : res (list Z) :=
  match lz4 c with
  | None => NO_LZ4_SUPPORT
  | Some L =>
      if LZ4_versionNumber L <? 10803 then lz4_decompress_datum c value else
      _ ← palloc (slicelength + VARHDRSZ);
      sz ← VARSIZE value;
      src ← rdn value VARHDRSZ_COMPRESSED (sz - VARHDRSZ_COMPRESSED);
      let '(rawsize, dest) := LZ4_decompress_safe_partial L src slicelength slicelength in
      if rawsize <? 0 then Ereport ERRCODE_DATA_CORRUPTED else Ok (result_plain rawsize dest)
  end.

(** ** RLE *)

Definition rle_compress_datum (c : config) (value : list Z) : res (option (list Z)) :=
  sz ← VARSIZE_ANY_EXHDR value;
  let valsize := int32_of sz in
  if (valsize <? Rle.min_input_size rle_default_strategy)
     || (valsize >? Rle.max_input_size rle_default_strategy) then Ok None else
  _ ← palloc (PGLZ_MAX_OUTPUT valsize + VARHDRSZ_COMPRESSED);
  data ← value_data value valsize;
  r ← rle_compress (rle_bufcap c) data None;
  let '(len, out) := r in
  _ ← in_chunk c (PGLZ_MAX_OUTPUT valsize + VARHDRSZ_COMPRESSED) (VARHDRSZ_COMPRESSED + zlen out);
  if len <? 0 then Ok None else Ok (Some (result_compressed len out)).

Definition rle_decompress_datum (c : config) (value : list Z) : res (list Z) :=
  extsize ← VARDATA_COMPRESSED_GET_EXTSIZE value;
  _ ← palloc (extsize + VARHDRSZ);
  sz ← VARSIZE value;
  src ← rdn value VARHDRSZ_COMPRESSED (sz - VARHDRSZ_COMPRESSED);
  r ← rle_decompress src extsize true;
  let '(rawsize, dest) := r in
  _ ← in_chunk c (extsize + VARHDRSZ) (VARHDRSZ + zlen dest);
  if rawsize <? 0 then Ereport ERRCODE_DATA_CORRUPTED else Ok (result_plain rawsize dest).

Definition rle_decompress_datum_slice (c : config) (value : list Z) (slicelength : Z) : res (list Z) :=
  _ ← palloc (slicelength + VARHDRSZ);
  sz ← VARSIZE value;
  src ← rdn value VARHDRSZ_COMPRESSED (sz - VARHDRSZ_COMPRESSED);
  r ← rle_decompress src slicelength false;
  let '(rawsize, dest) := r in
  _ ← in_chunk c (slicelength + VARHDRSZ) (VARHDRSZ + zlen dest);
  if rawsize <? 0 then Ereport ERRCODE_DATA_CORRUPTED else Ok (result_plain rawsize dest).

(** ** Choice of the method *)

Definition toast_get_compression_id (attr : list Z) : res Z :=
  ondisk ← VARATT_IS_EXTERNAL_ONDISK attr;
  if (ondisk : bool) then
    toast_pointer ← VARATT_EXTERNAL_GET_POINTER attr;
    if VARATT_EXTERNAL_IS_COMPRESSED toast_pointer
    then Ok (VARATT_EXTERNAL_GET_COMPRESS_METHOD toast_pointer)
    else Ok TOAST_INVALID_COMPRESSION_ID
  else
    cmp ← VARATT_IS_COMPRESSED attr;
    if (cmp : bool) then VARDATA_COMPRESSED_GET_COMPRESS_METHOD attr
    else Ok TOAST_INVALID_COMPRESSION_ID.

Definition CompressionNameToMethod (c : config) (compression : string) : res Z :=
  if String.eqb compression "pglz" then Ok TOAST_PGLZ_COMPRESSION
  else if String.eqb compression "rle" then Ok TOAST_RLE_COMPRESSION
  else if String.eqb compression "lz4" then
    match lz4 c with None => NO_LZ4_SUPPORT | Some _ => Ok TOAST_LZ4_COMPRESSION end
  else Ok InvalidCompressionMethod.

Definition GetCompressionMethodName (method : Z) : res string :=
  if method =? TOAST_PGLZ_COMPRESSION then Ok "pglz"
  else if method =? TOAST_LZ4_COMPRESSION then Ok "lz4"
  else if method =? TOAST_RLE_COMPRESSION then Ok "rle"
  else Ereport ERRCODE_INTERNAL_ERROR.

(** toast_compress_datum; [None] is the NULL datum. *)
Definition toast_compress_datum (c : config) (value : list Z) (cmethod : Z) : res (option (list Z)) :=
  sz ← VARSIZE_ANY_EXHDR value;
  let valsize := int32_of sz in
  let cmethod := if CompressionMethodIsValid cmethod then cmethod else default_toast_compression c in
  x ← (if cmethod =? TOAST_PGLZ_COMPRESSION then
         tmp ← pglz_compress_datum value; Ok (tmp, TOAST_PGLZ_COMPRESSION_ID)
       else if cmethod =? TOAST_LZ4_COMPRESSION then
         tmp ← lz4_compress_datum c value; Ok (tmp, TOAST_LZ4_COMPRESSION_ID)
       else if cmethod =? TOAST_RLE_COMPRESSION then
         tmp ← rle_compress_datum c value; Ok (tmp, TOAST_RLE_COMPRESSION_ID)
       else Ereport ERRCODE_INTERNAL_ERROR);
  match x with
  | (None, _) => Ok None
  | (Some tmp, cmid) =>
      tsz ← VARSIZE tmp;
      if tsz <? wrap32 (valsize - 2)
      then Ok (Some (TOAST_COMPRESS_SET_SIZE_AND_COMPRESS_METHOD tmp valsize cmid))
      else Ok None
  end.

Definition toast_decompress_datum (c : config) (attr : list Z) : res (list Z) :=
  cmid ← TOAST_COMPRESS_METHOD attr;
  if cmid =? TOAST_PGLZ_COMPRESSION_ID then pglz_decompress_datum attr
  else if cmid =? TOAST_LZ4_COMPRESSION_ID then lz4_decompress_datum c attr
  else if cmid =? TOAST_RLE_COMPRESSION_ID then rle_decompress_datum c attr
  else Ereport ERRCODE_INTERNAL_ERROR.

Definition toast_decompress_datum_slice (c : config) (attr : list Z) (slicelength : Z) : res (list Z) :=
  extsize ← TOAST_COMPRESS_EXTSIZE attr;
  if wrap32 slicelength >=? extsize then toast_decompress_datum c attr else
  cmid ← TOAST_COMPRESS_METHOD attr;
  if cmid =? TOAST_PGLZ_COMPRESSION_ID then pglz_decompress_datum_slice attr slicelength
  else if cmid =? TOAST_LZ4_COMPRESSION_ID then lz4_decompress_datum_slice c attr slicelength
  else if cmid =? TOAST_RLE_COMPRESSION_ID then rle_decompress_datum_slice c attr slicelength
  else Ereport ERRCODE_INTERNAL_ERROR.

#[global] Arguments pglz_compress_datum : simpl never.
#[global] Arguments pglz_decompress_datum : simpl never.
#[global] Arguments pglz_decompress_datum_slice : simpl never.
#[global] Arguments lz4_compress_datum : simpl never.
#[global] Arguments lz4_decompress_datum : simpl never.
#[global] Arguments lz4_decompress_datum_slice : simpl never.
#[global] Arguments rle_compress_datum : simpl never.
#[global] Arguments rle_decompress_datum : simpl never.
#[global] Arguments rle_decompress_datum_slice : simpl never.

(** * What a codec promises

    [stores payload data]: the bytes [payload] are a compressed form of [data].  [need n
    total] is how much of a payload of [total] bytes must be at hand to read the first
    n bytes of the value, and [room data n] that the buffer for them is large enough. *)

(** A value that is stored in line and not compressed, with its contents; any bytes
    may follow it in memory. *)
Inductive inline_value : list Z -> list Z -> Prop :=
| inline_4b data t : ok_4b_u data -> inline_value (mk_4b_u data ++ t) data
| inline_1b data t : ok_1b data -> inline_value (mk_1b data ++ t) data.

(** The buffer of a compression routine before the size and method are set. *)
Definition unmarked (payload : list Z) : list Z :=
  le32 (4 * (zlen payload + 8) + 2) ++ zrep 4 0 ++ payload.

Class Codec (id : Z) (compress : list Z -> res (option (list Z))) (decompress : list Z -> res (list Z))
    (slice : list Z -> Z -> res (list Z)) (domain : list Z -> Prop)
    (stores : list Z -> list Z -> Prop) (need : Z -> Z -> Z) (room : list Z -> Z -> Prop) : Prop := {
  codec_id : 0 <= id < 4;
  codec_compress v data : inline_value v data -> bytes data -> domain data ->
    returns (compress v) (fun r => match r with
      | None => True
      | Some tmp => exists payload, tmp = unmarked payload /\ stores payload data /\ bytes payload /\
                      zlen payload <= zlen data
      end);
  codec_decompress payload data t : stores payload data -> ok_4b_u data ->
    ok_4b_c (zlen data) id payload ->
    decompress (mk_4b_c (zlen data) id payload ++ t) = Ok (mk_4b_u data);
  codec_slice payload data n m t : stores payload data -> ok_4b_u data ->
    ok_4b_c (zlen data) id payload ->
    0 <= n < zlen data -> need n (zlen payload) <= m <= zlen payload -> room data n ->
    exists d, slice (mk_4b_c (zlen data) id (take (Z.to_nat m) payload) ++ t) n = Ok (mk_4b_u d) /\
      n <= zlen d /\ d = take (length d) data;
  codec_need_all payload data n : stores payload data -> zlen data <= n ->
    zlen payload <= need n (zlen payload)
}.

(** ** Buffers and headers *)

Lemma inline_exhdr v data : inline_value v data -> VARSIZE_ANY_EXHDR v = Ok (zlen data).
Proof.
  intros [d t H|d t H]; unfold VARSIZE_ANY_EXHDR; autorewrite with varatt; simpl;
    pose proof (zlen_nonneg d); unfold wrap32, VARHDRSZ, VARHDRSZ_SHORT, ok_4b_u, ok_1b, VARATT_SHORT_MAX in *;
    f_equal; lia.
Qed.

Lemma inline_len v data : inline_value v data -> 0 <= zlen data < 2 ^ 30.
Proof.
  intros [d t H|d t H]; pose proof (zlen_nonneg d); unfold ok_4b_u, ok_1b, VARATT_SHORT_MAX in *; lia.
Qed.

Lemma inline_int32 v data : inline_value v data -> int32_of (zlen data) = zlen data.
Proof.
  intros H%inline_len. unfold int32_of. rewrite Z.mod_small by lia. ztests; lia.
Qed.

Lemma inline_data v data : inline_value v data -> value_data v (zlen data) = Ok data.
Proof.
  intros [d t H|d t H]; unfold value_data, VARDATA_ANY; autorewrite with varatt;
    cbn [mbind res_bind].
  - unfold mk_4b_u. rewrite <- app_assoc. by apply rdn_middle.
  - unfold mk_1b, VARDATA_SHORT. exact (rdn_middle [2 * (zlen d + 1) + 1] d t 1 (zlen d) eq_refl eq_refl).
Qed.

Lemma result_compressed_eq payload out len :
  len = zlen payload -> zlen payload + 8 < 2 ^ 30 -> take (Z.to_nat len) out = payload ->
  result_compressed len out = unmarked payload.
Proof.
  intros -> Hl Ht. unfold result_compressed, SET_VARSIZE_COMPRESSED, SET_VARSIZE_4B_C, unmarked.
  rewrite Ht. pose proof (zlen_nonneg payload).
  unfold VARHDRSZ_COMPRESSED, wrap32. rewrite Z.mod_small by lia.
  rewrite Z.shiftl_mul_pow2 by lia. rewrite (lor_disjoint _ 2 2) by lia. change (2 ^ 2) with 4.
  by rewrite Z.mul_comm.
Qed.

Lemma result_plain_eq dest rawsize data :
  rawsize = zlen data -> ok_4b_u data -> take (Z.to_nat rawsize) dest = data ->
  result_plain rawsize dest = mk_4b_u data.
Proof.
  intros -> Hl Ht. unfold result_plain, SET_VARSIZE, SET_VARSIZE_4B, mk_4b_u. rewrite Ht.
  unfold ok_4b_u in Hl. pose proof (zlen_nonneg data).
  unfold VARHDRSZ, wrap32. rewrite Z.mod_small by lia.
  rewrite Z.shiftl_mul_pow2 by lia. change (2 ^ 2) with 4. by rewrite Z.mul_comm.
Qed.

Lemma set_size_and_method payload len id :
  0 <= len < 2 ^ 30 ->
  TOAST_COMPRESS_SET_SIZE_AND_COMPRESS_METHOD (unmarked payload) len id = mk_4b_c len id payload.
Proof.
  intros Hl. unfold TOAST_COMPRESS_SET_SIZE_AND_COMPRESS_METHOD, unmarked, mk_4b_c, VARLENA_EXTSIZE_BITS.
  assert (Z.lor len (Z.shiftl id 30) = len + id * 2 ^ 30) as ->; [|reflexivity].
  rewrite Z.lor_comm, Z.shiftl_mul_pow2, (lor_disjoint _ len 30) by lia. lia.
Qed.

(** Reading the payload of a compressed datum. *)
Lemma compressed_payload raw id payload t :
  rdn (mk_4b_c raw id payload ++ t) VARHDRSZ_COMPRESSED (zlen payload) = Ok payload.
Proof.
  unfold mk_4b_c. rewrite <- !app_assoc.
  rewrite (app_assoc (le32 _) (le32 _)). by apply rdn_middle.
Qed.

Lemma drop_compressed raw id payload t : drop 8 (mk_4b_c raw id payload ++ t) = payload ++ t.
Proof. done. Qed.

Lemma size_compressed raw id payload t :
  ok_4b_c raw id payload ->
  VARSIZE (mk_4b_c raw id payload ++ t) = Ok (zlen payload + 8) /\
  int32_of (zlen payload + 8 - VARHDRSZ_COMPRESSED) = zlen payload.
Proof.
  intros Hok. split; [by apply varsize_4b_c|]. destruct Hok as (_ & _ & H).
  unfold VARHDRSZ_COMPRESSED, int32_of. pose proof (zlen_nonneg payload).
  rewrite Z.mod_small by lia. ztests; lia.
Qed.

(** ** PGLZ keeps the promise *)

Definition pglz_stores (payload data : list Z) : Prop :=
  exists gs, groups_ok gs /\ payload = enc_groups gs /\ items_ok [] (concat gs) /\
    exp_items [] (concat gs) = data.
Definition pglz_need (n total : Z) : Z := Z.min total (prefix_size n).

Lemma items_ok_wf d its : items_ok d its -> Forall wf_item its.
Proof.
  revert d. induction its as [|it its IH]; intros d; simpl; [constructor|].
  intros [[Hw _] H]. constructor; eauto.
Qed.

Lemma enc_items_bytes its : Forall wf_item its -> bytes (enc_items its).
Proof.
  induction 1 as [|it its Hw _ IH]; [constructor|].
  change (enc_items (it :: its)) with (enc_item it ++ enc_items its).
  apply Forall_app. split; [by apply enc_item_bytes|done].
Qed.

Lemma enc_groups_bytes gs : groups_ok gs -> Forall wf_item (concat gs) -> bytes (enc_groups gs).
Proof.
  induction gs as [|g gs IH]; intros Hg Hw; [constructor|].
  apply groups_ok_cons in Hg as (Hg8 & _ & Hg). cbn [concat] in Hw. apply Forall_app in Hw as [Hw1 Hw2].
  change (enc_groups (g :: gs)) with (ctrl_bits g :: enc_items g ++ enc_groups gs).
  constructor; [|apply Forall_app; split; [by apply enc_items_bytes|by apply IH]].
  pose proof (ctrl_bits_range g). assert (2 ^ zlen g <= 2 ^ 8) by (apply Z.pow_le_mono_r; unfold zlen; lia).
  unfold is_byte. lia.
Qed.

(** A payload is within the prefix that its whole value needs. *)
Lemma pglz_payload_size gs :
  groups_ok gs -> items_ok [] (concat gs) ->
  zlen (enc_groups gs) <= prefix_size (zlen (exp_items [] (concat gs))).
Proof.
  intros Hg Hok. rewrite enc_groups_len. pose proof (enc_items_len _ _ Hok) as [H1 H2].
  change (zlen []) with 0 in *. unfold prefix_size.
  enough (8 * zlen gs <= zlen (concat gs) + 7) by lia. clear -Hg.
  induction gs as [|g gs IH]; [done|]. pose proof (groups_ok_cons _ _ Hg) as (H8 & Hl & Hg').
  specialize (IH Hg'). cbn [concat]. rewrite zlen_cons, zlen_app. destruct Hl as [H| ->].
  - unfold zlen in *. lia.
  - change (zlen []) with 0 in *. change (zlen (concat [])) with 0 in *. unfold zlen in *. lia.
Qed.

(** The values whose compression buffer can be allocated. *)
Definition fits_alloc (data : list Z) : Prop :=
  PGLZ_MAX_OUTPUT (zlen data) + VARHDRSZ_COMPRESSED <= MaxAllocSize.

Lemma fits_alloc_palloc data :
  fits_alloc data -> palloc (PGLZ_MAX_OUTPUT (zlen data) + VARHDRSZ_COMPRESSED) = Ok tt.
Proof.
  intros H. apply palloc_ok. split; [|done]. unfold PGLZ_MAX_OUTPUT, VARHDRSZ_COMPRESSED. zl.
Qed.

Lemma palloc_value data : ok_4b_u data -> palloc (zlen data + VARHDRSZ) = Ok tt.
Proof.
  intros H. apply palloc_ok. unfold ok_4b_u in H. unfold VARHDRSZ, MaxAllocSize. zl.
Qed.

Lemma pglz_datum_compress v data :
  inline_value v data -> bytes data -> fits_alloc data ->
  returns (pglz_compress_datum v) (fun r => match r with
    | None => True
    | Some tmp => exists payload, tmp = unmarked payload /\ pglz_stores payload data /\ bytes payload /\
                    zlen payload <= zlen data
    end).
Proof.
  intros Hv Hb Hf. unfold pglz_compress_datum. rewrite (inline_exhdr _ _ Hv). cbn [mbind res_bind].
  rewrite (inline_int32 _ _ Hv). destruct (_ || _); [done|].
  rewrite (fits_alloc_palloc _ Hf), (inline_data _ _ Hv). cbn [mbind res_bind].
  eapply returns_bind; [by apply pglz_compress_spec|].
  intros [r out] [_ [->|(-> & Hr & gs & Hgs & -> & Hok & He)]]; [done|].
  pose proof (zlen_nonneg data) as H0. simpl default in Hr.
  pose proof (pglz_result_max_le strategy_default_data (zlen data) H0).
  pose proof (zlen_nonneg (enc_groups gs)).
  unfold fits_alloc, PGLZ_MAX_OUTPUT, VARHDRSZ_COMPRESSED, MaxAllocSize in Hf.
  destruct (Z.ltb_spec (zlen (enc_groups gs)) 0); [lia|].
  exists (enc_groups gs). split.
  - apply result_compressed_eq; [done|lia|]. rewrite take_ge; [done|]. unfold zlen. lia.
  - split; [by exists gs|]. split; [|lia]. apply enc_groups_bytes; [done|by eapply items_ok_wf].
Qed.

Lemma pglz_datum_decompress payload data t :
  pglz_stores payload data -> ok_4b_u data -> ok_4b_c (zlen data) TOAST_PGLZ_COMPRESSION_ID payload ->
  pglz_decompress_datum (mk_4b_c (zlen data) TOAST_PGLZ_COMPRESSION_ID payload ++ t) = Ok (mk_4b_u data).
Proof.
  intros (gs & Hgs & -> & Hok & He) Hd Hc. unfold pglz_decompress_datum.
  rewrite get_extsize_c by done. cbn [mbind res_bind]. rewrite palloc_value by done. cbn [mbind res_bind].
  destruct (size_compressed _ _ _ t Hc) as [Hs1 Hs2]. rewrite Hs1. cbn [mbind res_bind]. rewrite Hs2.
  change (Z.to_nat VARHDRSZ_COMPRESSED) with 8%nat. rewrite drop_compressed.
  destruct (pglz_decompress_groups gs (enc_groups gs ++ t) (zlen (enc_groups gs)) (zlen data) true)
    as (sp & Hsp & ->); try done; [zl|lia|intros; by apply rd_app_l|].
  rewrite He in *. rewrite Hsp by lia. rewrite take_ge by (unfold zlen; lia).
  rewrite !Z.eqb_refl. cbn. pose proof (zlen_nonneg data). destruct (Z.ltb_spec (zlen data) 0); [lia|].
  f_equal. apply result_plain_eq; [done|done|]. rewrite take_ge; [done|]. unfold zlen. lia.
Qed.

Lemma pglz_datum_slice payload data n m t :
  pglz_stores payload data -> ok_4b_u data -> ok_4b_c (zlen data) TOAST_PGLZ_COMPRESSION_ID payload ->
  0 <= n < zlen data -> pglz_need n (zlen payload) <= m <= zlen payload ->
  exists d, pglz_decompress_datum_slice
      (mk_4b_c (zlen data) TOAST_PGLZ_COMPRESSION_ID (take (Z.to_nat m) payload) ++ t) n = Ok (mk_4b_u d) /\
    n <= zlen d /\ d = take (length d) data.
Proof.
  intros (gs & Hgs & -> & Hok & He) Hd Hc Hn Hm. unfold pglz_need in Hm.
  assert (0 <= m) by (unfold prefix_size in Hm; zl). unfold ok_4b_u in Hd.
  set (pl := take (Z.to_nat m) (enc_groups gs)). assert (Hpl : zlen pl = m) by (unfold pl; zl).
  assert (Hc' : ok_4b_c (zlen data) TOAST_PGLZ_COMPRESSION_ID pl) by (destruct Hc as (?&?&?); split_and!; lia).
  exists (take (Z.to_nat n) data). split; [|split; [zl|]].
  - unfold pglz_decompress_datum_slice. rewrite palloc_ok by (unfold VARHDRSZ, MaxAllocSize; lia).
    cbn [mbind res_bind]. destruct (size_compressed _ _ _ t Hc') as [Hs1 Hs2].
    rewrite Hs1. cbn [mbind res_bind]. rewrite Hs2.
    change (Z.to_nat VARHDRSZ_COMPRESSED) with 8%nat. rewrite drop_compressed.
    destruct (pglz_decompress_groups gs (pl ++ t) (zlen pl) n false) as (sp & _ & Hx); try done; try lia.
    + intros i Hi. rewrite rd_app_l by done. unfold rd, pl. ztests; [|done]. by rewrite lookup_take_lt by lia.
    + rewrite Hx, He. cbn [andb mbind res_bind]. rewrite zlen_take_full by lia.
      destruct (Z.ltb_spec n 0); [lia|]. f_equal. apply result_plain_eq.
      * by rewrite zlen_take_full by lia.
      * unfold ok_4b_u. rewrite zlen_take_full by lia. lia.
      * rewrite take_take. f_equal. lia.
  - rewrite length_take_le by (unfold zlen in Hn; lia). done.
Qed.

#[export] Instance pglz_codec :
  Codec TOAST_PGLZ_COMPRESSION_ID pglz_compress_datum pglz_decompress_datum pglz_decompress_datum_slice
    fits_alloc pglz_stores pglz_need (fun _ _ => True).
Proof.
  split.
  - done.
  - apply pglz_datum_compress.
  - apply pglz_datum_decompress.
  - intros. by apply pglz_datum_slice.
  - intros payload data n (gs & Hgs & -> & Hok & <-) Hn. unfold pglz_need.
    pose proof (pglz_payload_size gs Hgs Hok). unfold prefix_size in *. lia.
Qed.

(** ** RLE keeps the promise for values that do not overrun its buffers *)

Definition rle_stores (payload data : list Z) : Prop :=
  exists ts, Forall wf_tok ts /\ payload = encode ts /\ expand ts = data.
Definition whole_payload (n total : Z) : Z := total.

(** The literal buffer of 127 bytes is not overrun. *)
Definition rle_buffer_ok (data : list Z) : Prop := rle_compress 127 data None <> Ub.

(** The chunks that rle_compress_datum works in have the byte more than was requested
    that the literal buffer and the output may need. *)
Definition compress_room (c : config) (data : list Z) : Prop :=
  128 <= rle_bufcap c /\ zlen data + 13 <= chunk_space c (zlen data + 12).

(** The chunk of the decompressed value has a byte for the NUL that rle_decompress writes
    after it. *)
Definition value_room (c : config) (data : list Z) : Prop := zlen data + 5 <= chunk_space c (zlen data + 4).

(** The chunk of a slice of n bytes has room for the token that reaches its end, which
    is expanded whole, and for the NUL. *)
Definition slice_extent (data : list Z) (n : Z) : Z := if n =? 0 then 0 else Z.min (zlen data) (n + 129).
Definition slice_room (c : config) (data : list Z) (n : Z) : Prop := slice_extent data n + 5 <= chunk_space c (n + 4).

Definition rle_readable (c : config) (payload data : list Z) : Prop := rle_stores payload data /\ value_room c data.
Definition rle_domain (c : config) (data : list Z) : Prop :=
  compress_room c data /\ value_room c data /\ fits_alloc data /\ rle_buffer_ok data.

Lemma in_chunk_ok c size n : n <= chunk_space c size -> in_chunk c size n = Ok tt.
Proof. intros. unfold in_chunk. ztests; done || lia. Qed.

(** What rle_compress writes fits into the chunk it is given. *)
Lemma compress_in_chunk c data strategy r out run :
  compress_room c data -> strategy = rle_default_strategy ->
  rle_run_post data (rle_result_max (zlen data) (Rle.min_comp_rate strategy)) r out run ->
  in_chunk c (PGLZ_MAX_OUTPUT (zlen data) + VARHDRSZ_COMPRESSED) (VARHDRSZ_COMPRESSED + zlen out) = Ok tt.
Proof.
  intros [_ Hc] -> [Hb _]. destruct (rle_result_max_bound (zlen data) 25 (zlen_nonneg _)) as [_ Hrm].
  unfold PGLZ_MAX_OUTPUT, VARHDRSZ_COMPRESSED. apply in_chunk_ok.
  replace (zlen data + 4 + 8) with (zlen data + 12) by lia. specialize (Hb (Hrm ltac:(lia))). lia.
Qed.

Section rle.
Context (c : config).

Lemma rle_datum_compress v data :
  inline_value v data -> bytes data -> rle_domain c data ->
  returns (rle_compress_datum c v) (fun r => match r with
    | None => True
    | Some tmp => exists payload, tmp = unmarked payload /\ rle_readable c payload data /\ bytes payload /\
                    zlen payload <= zlen data
    end).
Proof.
  intros Hv Hb ([Hcap Hcr] & Hvr & Hf & Hok). unfold rle_compress_datum. rewrite (inline_exhdr _ _ Hv). cbn [mbind res_bind].
  rewrite (inline_int32 _ _ Hv). destruct (_ || _); [done|].
  rewrite (fits_alloc_palloc _ Hf), (inline_data _ _ Hv). cbn [mbind res_bind].
  eapply returns_bind; [by apply rle_compress_spec|].
  intros [r out] Hpost. rewrite (compress_in_chunk c data _ r out _ (conj Hcap Hcr) eq_refl Hpost). cbn [mbind res_bind].
  destruct Hpost as [_ [(-> & _)|(k & f & sv & ts & Hdone & -> & -> & Hlt & Hk)]]; [done|].
  destruct Hk as [[-> _]|[_ ?]]; [|done]. destruct Hdone as (Hw & _ & He & _).
  pose proof (zlen_nonneg data) as H0. pose proof (zlen_nonneg (encode ts)).
  destruct (rle_result_max_bound (zlen data) 25 H0) as [Hrm _]. simpl default in Hlt. simpl in Hlt.
  unfold fits_alloc, PGLZ_MAX_OUTPUT, VARHDRSZ_COMPRESSED, MaxAllocSize in Hf.
  destruct (Z.ltb_spec (zlen (encode ts)) 0); [lia|].
  exists (encode ts). split.
  - apply result_compressed_eq; [done|lia|]. apply take_zlen_app.
  - split; [split; [exists ts; auto|done]|]. split; [by apply encode_bytes|lia].
Qed.

Lemma rle_datum_decompress payload data t :
  rle_readable c payload data -> ok_4b_u data -> ok_4b_c (zlen data) TOAST_RLE_COMPRESSION_ID payload ->
  rle_decompress_datum c (mk_4b_c (zlen data) TOAST_RLE_COMPRESSION_ID payload ++ t) = Ok (mk_4b_u data).
Proof.
  intros [(ts & Hw & -> & <-) Hroom] Hd Hc. unfold rle_decompress_datum.
  rewrite get_extsize_c by done. cbn [mbind res_bind]. rewrite palloc_value by done. cbn [mbind res_bind].
  destruct (size_compressed _ _ _ t Hc) as [Hs1 _]. rewrite Hs1. cbn [mbind res_bind].
  replace (zlen (encode ts) + 8 - VARHDRSZ_COMPRESSED) with (zlen (encode ts)) by (unfold VARHDRSZ_COMPRESSED; lia).
  rewrite compressed_payload. cbn [mbind res_bind]. rewrite rle_decompress_all by done. cbn [mbind res_bind].
  rewrite in_chunk_ok by (unfold value_room, VARHDRSZ in *; zl). cbn [mbind res_bind].
  pose proof (zlen_nonneg (expand ts)). destruct (Z.ltb_spec (zlen (expand ts)) 0); [lia|].
  f_equal. apply result_plain_eq; [done|done|apply take_zlen_app].
Qed.

Lemma rle_datum_slice payload data n m t :
  rle_readable c payload data -> ok_4b_u data -> ok_4b_c (zlen data) TOAST_RLE_COMPRESSION_ID payload ->
  0 <= n < zlen data -> whole_payload n (zlen payload) <= m <= zlen payload -> slice_room c data n ->
  exists d, rle_decompress_datum_slice c
      (mk_4b_c (zlen data) TOAST_RLE_COMPRESSION_ID (take (Z.to_nat m) payload) ++ t) n = Ok (mk_4b_u d) /\
    n <= zlen d /\ d = take (length d) data.
Proof.
  intros [(ts & Hw & -> & <-) _] Hd Hc Hn Hm Hroom. unfold whole_payload in Hm.
  rewrite take_ge by (unfold zlen in Hm; lia). unfold ok_4b_u in Hd.
  destruct (toks_until_len ts n Hw ltac:(lia)) as (Hl & Hl1 & Hl0). destruct (toks_until_prefix ts n) as [us Hus].
  set (vs := toks_until ts n) in *. exists (expand vs).
  assert (He : expand ts = expand vs ++ expand us) by (rewrite Hus at 1; apply expand_app).
  split; [|split; [done|]].
  - unfold rle_decompress_datum_slice. rewrite palloc_ok by (unfold VARHDRSZ, MaxAllocSize; lia).
    destruct (size_compressed _ _ _ t Hc) as [Hs1 _]. cbn [mbind res_bind]. rewrite Hs1. cbn [mbind res_bind].
    replace (zlen (encode ts) + 8 - VARHDRSZ_COMPRESSED) with (zlen (encode ts)) by (unfold VARHDRSZ_COMPRESSED; lia).
    rewrite compressed_payload. cbn [mbind res_bind]. rewrite rle_decompress_tokens by done. cbn [andb mbind res_bind].
    fold vs. rewrite in_chunk_ok. 2:{ unfold slice_room, slice_extent, VARHDRSZ in *. rewrite He, zlen_app in *.
      pose proof (zlen_nonneg (expand us)). destruct (Z.eqb_spec n 0) as [Hz|]; [rewrite (Hl0 Hz) in *|]; zl. }
    cbn [mbind res_bind]. pose proof (zlen_nonneg (expand vs)). destruct (Z.ltb_spec (zlen (expand vs)) 0); [lia|].
    f_equal. apply result_plain_eq; [done| |apply take_zlen_app].
    unfold ok_4b_u. rewrite He, zlen_app in Hd. zl.
  - rewrite He. by rewrite take_app_length.
Qed.

#[export] Instance rle_codec :
  Codec TOAST_RLE_COMPRESSION_ID (rle_compress_datum c) (rle_decompress_datum c) (rle_decompress_datum_slice c)
    (rle_domain c) (rle_readable c) whole_payload (slice_room c).
Proof.
  split.
  - done.
  - apply rle_datum_compress.
  - apply rle_datum_decompress.
  - apply rle_datum_slice.
  - unfold whole_payload. lia.
Qed.
End rle.

(** ** LZ4, given what its documentation says *)

(** A call with a destination of LZ4_compressBound bytes succeeds; its output
    decompresses to the input, in whole or up to a requested size. *)
Class Lz4Ok (L : lz4_lib) : Prop := {
  lz4_bound n : 0 <= n -> n <= LZ4_compressBound L n;
  lz4_compress src : bytes src ->
    exists n out, LZ4_compress_default L src (LZ4_compressBound L (zlen src)) = (n, out) /\
      1 <= n <= zlen out /\ bytes out;
  lz4_decompress src n out :
    LZ4_compress_default L src (LZ4_compressBound L (zlen src)) = (n, out) ->
    LZ4_decompress_safe L (take (Z.to_nat n) out) (zlen src) = (zlen src, src);
  lz4_partial src n out k :
    LZ4_compress_default L src (LZ4_compressBound L (zlen src)) = (n, out) -> 0 <= k <= zlen src ->
    LZ4_decompress_safe_partial L (take (Z.to_nat n) out) k k = (k, take (Z.to_nat k) src)
}.

(** A library that satisfies the class: the input is stored behind a marker byte. *)
Definition stored_lz4 : lz4_lib :=
  {| LZ4_compressBound n := n + 1;
     LZ4_compress_default src _ := (zlen src + 1, 0 :: src);
     LZ4_decompress_safe src _ := (zlen (tail src), tail src);
     LZ4_decompress_safe_partial src k _ := (k, take (Z.to_nat k) (tail src));
     LZ4_versionNumber := 10904 |}.

#[export] Instance stored_lz4_ok : Lz4Ok stored_lz4.
Proof.
  assert (Htl : forall src : list Z, take (Z.to_nat (zlen src + 1)) (0 :: src) = 0 :: src).
  { intros src. apply take_ge. simpl. unfold zlen. lia. }
  split; simpl.
  - lia.
  - intros src Hb. eexists _, _. split; [done|]. split; [zl|]. by constructor.
  - intros src n out [= <- <-]. by rewrite Htl.
  - intros src n out k [= <- <-] Hk. by rewrite Htl.
Qed.

Definition lz4_stores (L : lz4_lib) (payload data : list Z) : Prop :=
  exists n out, LZ4_compress_default L data (LZ4_compressBound L (zlen data)) = (n, out) /\
    payload = take (Z.to_nat n) out.

Section lz4_codec.
Context (c : config) (L : lz4_lib) {HL : Lz4Ok L} (Hc : lz4 c = Some L).
Local Abbreviation id := TOAST_LZ4_COMPRESSION_ID.

Definition lz4_fits (data : list Z) : Prop :=
  LZ4_compressBound L (zlen data) + VARHDRSZ_COMPRESSED <= MaxAllocSize.

Lemma lz4_datum_compress v data :
  inline_value v data -> bytes data -> lz4_fits data ->
  returns (lz4_compress_datum c v) (fun r => match r with
    | None => True
    | Some tmp => exists payload, tmp = unmarked payload /\ lz4_stores L payload data /\ bytes payload /\
                    zlen payload <= zlen data
    end).
Proof.
  intros Hv Hb Hf. unfold lz4_compress_datum. rewrite Hc, (inline_exhdr _ _ Hv). cbn [mbind res_bind].
  rewrite (inline_int32 _ _ Hv). pose proof (zlen_nonneg data) as H0. pose proof (lz4_bound (zlen data) H0).
  unfold lz4_fits, VARHDRSZ_COMPRESSED, MaxAllocSize in Hf.
  rewrite palloc_ok by (unfold VARHDRSZ_COMPRESSED, MaxAllocSize; lia). rewrite (inline_data _ _ Hv). cbn [mbind res_bind].
  destruct (lz4_compress data Hb) as (n & out & Hx & Hn & Ho). rewrite Hx.
  destruct (Z.leb_spec n 0); [lia|]. destruct (Z.gtb_spec n (zlen data)); [done|].
  assert (Hp : zlen (take (Z.to_nat n) out) = n) by zl.
  exists (take (Z.to_nat n) out). split; [apply result_compressed_eq; done || lia|].
  split; [by exists n, out|]. split; [by apply Forall_take|lia].
Qed.

Lemma lz4_datum_decompress payload data t :
  lz4_stores L payload data -> ok_4b_u data -> ok_4b_c (zlen data) id payload ->
  lz4_decompress_datum c (mk_4b_c (zlen data) id payload ++ t) = Ok (mk_4b_u data).
Proof.
  intros (n & out & Hx & ->) Hd Hok. unfold lz4_decompress_datum. rewrite Hc.
  rewrite get_extsize_c by done. cbn [mbind res_bind]. rewrite palloc_value by done. cbn [mbind res_bind].
  set (pl := take (Z.to_nat n) out) in *. destruct (size_compressed _ _ _ t Hok) as [Hs1 _].
  rewrite Hs1. cbn [mbind res_bind].
  replace (zlen pl + 8 - VARHDRSZ_COMPRESSED) with (zlen pl) by (unfold VARHDRSZ_COMPRESSED; lia).
  rewrite compressed_payload. cbn [mbind res_bind]. unfold pl. rewrite (lz4_decompress _ _ _ Hx).
  pose proof (zlen_nonneg data). destruct (Z.ltb_spec (zlen data) 0); [lia|].
  f_equal. apply result_plain_eq; [done|done|]. rewrite take_ge; [done|]. unfold zlen. lia.
Qed.

Lemma lz4_datum_slice payload data k m t :
  lz4_stores L payload data -> ok_4b_u data -> ok_4b_c (zlen data) id payload ->
  0 <= k < zlen data -> whole_payload k (zlen payload) <= m <= zlen payload ->
  exists d, lz4_decompress_datum_slice c (mk_4b_c (zlen data) id (take (Z.to_nat m) payload) ++ t) k
      = Ok (mk_4b_u d) /\
    k <= zlen d /\ d = take (length d) data.
Proof.
  intros Hst Hd Hok Hk Hm. unfold whole_payload in Hm. rewrite (take_ge payload) by (unfold zlen in Hm; lia).
  unfold lz4_decompress_datum_slice. rewrite Hc. destruct (Z.ltb_spec (LZ4_versionNumber L) 10803).
  { exists data. split; [by apply lz4_datum_decompress|]. split; [lia|]. by rewrite take_ge. }
  destruct Hst as (n & out & Hx & ->). unfold ok_4b_u in Hd.
  exists (take (Z.to_nat k) data). split; [|split; [zl|]].
  - rewrite palloc_ok by (unfold VARHDRSZ, MaxAllocSize; lia). set (pl := take (Z.to_nat n) out) in *.
    destruct (size_compressed _ _ _ t Hok) as [Hs1 _]. cbn [mbind res_bind]. rewrite Hs1. cbn [mbind res_bind].
    replace (zlen pl + 8 - VARHDRSZ_COMPRESSED) with (zlen pl) by (unfold VARHDRSZ_COMPRESSED; lia).
    rewrite compressed_payload. cbn [mbind res_bind]. unfold pl. rewrite (lz4_partial _ _ _ k Hx) by lia.
    destruct (Z.ltb_spec k 0); [lia|]. f_equal. apply result_plain_eq.
    + by rewrite zlen_take_full by lia.
    + unfold ok_4b_u. rewrite zlen_take_full by lia. lia.
    + rewrite take_take. f_equal. lia.
  - rewrite length_take_le by (unfold zlen in Hk; lia). done.
Qed.

#[export] Instance lz4_codec :
  Codec TOAST_LZ4_COMPRESSION_ID (lz4_compress_datum c) (lz4_decompress_datum c)
    (lz4_decompress_datum_slice c) lz4_fits (lz4_stores L) whole_payload (fun _ _ => True).
Proof.
  split.
  - done.
  - apply lz4_datum_compress.
  - apply lz4_datum_decompress.
  - intros. by apply lz4_datum_slice.
  - unfold whole_payload. lia.
Qed.
End lz4_codec.

(** * Values and methods *)

(** [payload] is a compressed form of [data] under the method [id]. *)
Inductive compressed_as (c : config) : Z -> list Z -> list Z -> Prop :=
| as_pglz payload data : pglz_stores payload data ->
    compressed_as c TOAST_PGLZ_COMPRESSION_ID payload data
| as_rle payload data : rle_readable c payload data ->
    compressed_as c TOAST_RLE_COMPRESSION_ID payload data
| as_lz4 L payload data : lz4 c = Some L -> Lz4Ok L -> lz4_stores L payload data ->
    compressed_as c TOAST_LZ4_COMPRESSION_ID payload data.

(** How much of a payload detoast_attr_slice must fetch for n bytes. *)
Definition payload_need (id n total : Z) : Z :=
  if id =? TOAST_PGLZ_COMPRESSION_ID then pglz_need n total else total.

Definition effective_method (c : config) (cmethod : Z) : Z :=
  if CompressionMethodIsValid cmethod then cmethod else default_toast_compression c.

(** The method can be applied to the value: its buffers can be allocated and, for RLE,
    are not overrun. *)
Inductive method_ok (c : config) (data : list Z) : Z -> Prop :=
| ok_pglz : fits_alloc data -> method_ok c data TOAST_PGLZ_COMPRESSION
| ok_rle : rle_domain c data -> method_ok c data TOAST_RLE_COMPRESSION
| ok_lz4 L : lz4 c = Some L -> Lz4Ok L -> lz4_fits L data -> method_ok c data TOAST_LZ4_COMPRESSION.

Lemma varsize_unmarked payload :
  zlen payload + 8 < 2 ^ 30 -> VARSIZE (unmarked payload) = Ok (zlen payload + 8).
Proof.
  intros H. unfold VARSIZE, VARSIZE_4B, unmarked. pose proof (zlen_nonneg payload).
  rewrite rd32_le32 by lia. cbn [mbind res_bind]. land_mod. f_equal. lia.
Qed.

(** The size check and the header that toast_compress_datum adds. *)
Definition finish_compress (valsize cmid : Z) (tmp : option (list Z)) : res (option (list Z)) :=
  match tmp with
  | None => Ok None
  | Some tmp =>
      tsz ← VARSIZE tmp;
      if tsz <? wrap32 (valsize - 2)
      then Ok (Some (TOAST_COMPRESS_SET_SIZE_AND_COMPRESS_METHOD tmp valsize cmid))
      else Ok None
  end.

(** What toast_compress_datum returns for [data]: nothing, or a smaller datum that holds it. *)
Definition compress_post (c : config) (data : list Z) (r : option (list Z)) : Prop :=
  match r with
  | None => True
  | Some d => exists id payload, d = mk_4b_c (zlen data) id payload /\
      ok_4b_c (zlen data) id payload /\ compressed_as c id payload data /\ bytes payload /\
      (2 <= zlen data -> zlen d < zlen data - 2)
  end.

Lemma finish_compress_ok c id data tmp :
  ok_4b_u data -> 0 <= id < 4 ->
  match tmp with
  | None => True
  | Some tmp => exists payload, tmp = unmarked payload /\ compressed_as c id payload data /\ bytes payload /\
      zlen payload <= zlen data /\ zlen payload + 8 < 2 ^ 30
  end ->
  returns (finish_compress (zlen data) id tmp) (compress_post c data).
Proof.
  intros Hd Hid. destruct tmp as [tmp|]; [|done]. intros (payload & -> & Hc & Hb & Hl & Hl2).
  unfold ok_4b_u in Hd. pose proof (zlen_nonneg data). pose proof (zlen_nonneg payload).
  unfold finish_compress. rewrite varsize_unmarked by lia. cbn [mbind res_bind].
  destruct (Z.ltb_spec (zlen payload + 8) (wrap32 (zlen data - 2))) as [Hw|]; [|done].
  rewrite set_size_and_method by lia. exists id, payload. unfold ok_4b_c. split_and!; try done; try lia.
  intros H2. unfold wrap32 in Hw. rewrite Z.mod_small in Hw by lia. rewrite zlen_4b_c. lia.
Qed.

Lemma inline_ok v data : inline_value v data -> ok_4b_u data.
Proof.
  intros [d t H|d t H]; [done|]. unfold ok_1b, VARATT_SHORT_MAX, ok_4b_u in *. lia.
Qed.

(** A codec's promise, with the size limit that its buffer gives. *)
Lemma codec_compress_sized {id compress decompress slice domain stores need room}
    `{!Codec id compress decompress slice domain stores need room} v data :
  inline_value v data -> bytes data -> domain data -> zlen data + 8 < 2 ^ 30 ->
  returns (compress v) (fun r => match r with
    | None => True
    | Some tmp => exists payload, tmp = unmarked payload /\ stores payload data /\ bytes payload /\
        zlen payload <= zlen data /\ zlen payload + 8 < 2 ^ 30
    end).
Proof.
  intros Hv Hb Hdom Hl. eapply returns_mono; [by apply codec_compress|].
  intros [tmp|]; [|done]. intros (payload & ? & ? & ? & ?). exists payload. split_and!; try done. lia.
Qed.

Lemma toast_compress_ok c v data cmethod :
  inline_value v data -> bytes data -> method_ok c data (effective_method c cmethod) ->
  returns (toast_compress_datum c v cmethod) (compress_post c data).
Proof.
  intros Hv Hb Hm. unfold toast_compress_datum. rewrite (inline_exhdr _ _ Hv). cbn [mbind res_bind].
  rewrite (inline_int32 _ _ Hv). fold (effective_method c cmethod).
  pose proof (inline_ok _ _ Hv) as Hd.
  assert (Hfin : forall id (compress : res (option (list Z))),
    0 <= id < 4 ->
    returns compress (fun r => match r with
      | None => True
      | Some tmp => exists payload, tmp = unmarked payload /\ compressed_as c id payload data /\ bytes payload /\
          zlen payload <= zlen data /\ zlen payload + 8 < 2 ^ 30 end) ->
    returns ((tmp ← compress; Ok (tmp, id)) ≫= fun x => match x with
      | (None, _) => Ok None
      | (Some tmp, cmid) => finish_compress (zlen data) cmid (Some tmp) end) (compress_post c data)).
  { intros id compress Hid Hc. apply returns_eq in Hc as (r & -> & Hr). cbn [mbind res_bind].
    destruct r as [tmp|]; [|done]. by apply finish_compress_ok. }
  destruct Hm as [Hf|Hf|L HL HLo Hf].
  - apply (Hfin TOAST_PGLZ_COMPRESSION_ID); [done|].
    eapply returns_mono; [apply codec_compress_sized; try done|].
    + unfold fits_alloc, PGLZ_MAX_OUTPUT, VARHDRSZ_COMPRESSED, MaxAllocSize in Hf. lia.
    + intros [tmp|]; [|done]. intros (p & ? & ? & ?). exists p. split_and!; try done; try tauto. by constructor.
  - apply (Hfin TOAST_RLE_COMPRESSION_ID); [done|].
    eapply returns_mono; [apply (codec_compress_sized (Codec0 := rle_codec c)); try done|].
    + destruct Hf as (_ & _ & Hf & _). unfold fits_alloc, PGLZ_MAX_OUTPUT, VARHDRSZ_COMPRESSED, MaxAllocSize in Hf. lia.
    + intros [tmp|]; [|done]. intros (p & ? & ? & ?). exists p. split_and!; try done; try tauto. by constructor.
  - apply (Hfin TOAST_LZ4_COMPRESSION_ID); [done|].
    eapply returns_mono; [apply (codec_compress_sized (Codec0 := lz4_codec c L HL)); try done|].
    + unfold lz4_fits, VARHDRSZ_COMPRESSED, MaxAllocSize in Hf.
      pose proof (lz4_bound (zlen data) (zlen_nonneg _)). lia.
    + intros [tmp|]; [|done]. intros (p & ? & ? & ?). exists p. split_and!; try done; try tauto. by econstructor.
Qed.

(** ** Reading compressed values *)

Lemma toast_decompress_ok c id payload data t :
  compressed_as c id payload data -> ok_4b_u data -> ok_4b_c (zlen data) id payload ->
  toast_decompress_datum c (mk_4b_c (zlen data) id payload ++ t) = Ok (mk_4b_u data).
Proof.
  intros Hc Hd Hok. unfold toast_decompress_datum, TOAST_COMPRESS_METHOD.
  rewrite get_method_c by done. cbn [mbind res_bind].
  destruct Hc as [payload data H|payload data H|L payload data HL HLo H].
  - by apply pglz_datum_decompress.
  - by apply rle_datum_decompress.
  - by apply (lz4_datum_decompress c L).
Qed.

(** The front of a value, from as much of the payload as that needs. *)
Lemma toast_decompress_slice_ok c id payload data n m t :
  compressed_as c id payload data -> ok_4b_u data -> ok_4b_c (zlen data) id payload ->
  0 <= n < 2 ^ 31 -> payload_need id n (zlen payload) <= m <= zlen payload ->
  (id = TOAST_RLE_COMPRESSION_ID -> n < zlen data -> slice_room c data n) ->
  exists d, toast_decompress_datum_slice c (mk_4b_c (zlen data) id (take (Z.to_nat m) payload) ++ t) n
      = Ok (mk_4b_u d) /\
    Z.min n (zlen data) <= zlen d /\ d = take (length d) data.
Proof.
  intros Hc Hd Hok Hn Hm Hroom. unfold toast_decompress_datum_slice, TOAST_COMPRESS_EXTSIZE.
  assert (Hok' : ok_4b_c (zlen data) id (take (Z.to_nat m) payload)).
  { destruct Hok as (?&?&?). split_and!; try done; zl. }
  rewrite get_extsize_c by done. cbn [mbind res_bind]. unfold wrap32. rewrite Z.mod_small by lia.
  destruct (Z.geb_spec n (zlen data)) as [Hge|Hlt].
  - exists data. split; [|split; [lia|by rewrite take_ge]].
    rewrite take_ge; [by apply toast_decompress_ok|].
    enough (zlen payload <= payload_need id n (zlen payload)) by (unfold zlen in *; lia).
    unfold payload_need. destruct Hc as [payload data H|payload data H|L payload data HL HLo H]; simpl; try lia.
    by apply (codec_need_all (Codec := pglz_codec) payload data).
  - unfold TOAST_COMPRESS_METHOD. rewrite get_method_c by done. cbn [mbind res_bind].
    rewrite Z.min_l by lia.
    destruct Hc as [payload data H|payload data H|L payload data HL HLo H].
    + apply pglz_datum_slice; done || lia.
    + apply rle_datum_slice; try done; [lia|by apply Hroom].
    + apply (lz4_datum_slice c L HL); done || lia.
Qed.

(** ** Properties *)

(** C25: Compressing a value that is stored in line, with a four-byte or with a one-byte
    header, by a method that can be applied to it ([method_ok]), does not fail:
    toast_compress_datum gives up, or returns a datum that is more than two bytes smaller
    than the contents and that toast_decompress_datum turns back into the value with a
    plain header, whatever follows it in memory.  PGLZ can be applied to every value whose
    buffer can be allocated; LZ4 where liblz4 is there and does what it documents; RLE
    where its literal buffer is not overrun and the chunks that palloc gives have a byte
    more than is requested for the output and for the value that is read back. *)
Theorem toast_compress_roundtrip c v data cmethod :
  inline_value v data -> bytes data -> method_ok c data (effective_method c cmethod) ->
  returns (toast_compress_datum c v cmethod) (fun r => match r with
    | None => True
    | Some d =>
        (2 <= zlen data -> zlen d < zlen data - 2) /\
        forall t, toast_decompress_datum c (d ++ t) = Ok (mk_4b_u data)
    end).
Proof.
  intros Hv Hb Hm. eapply returns_mono; [by apply toast_compress_ok|].
  intros [d|]; [|done]. intros (id & payload & -> & Hok & Hc & _ & Hs). split; [done|].
  intros t. apply toast_decompress_ok; [done|by eapply inline_ok|done].
Qed.

(** A server without lz4, with the chunks of AllocSetAlloc. *)
Definition sample_config : config :=
  {| lz4 := None; chunk_space := AllocSetChunkSize 8192; default_toast_compression := TOAST_PGLZ_COMPRESSION |}.

(** The same server with a library in place. *)
Definition sample_config_lz4 : config :=
  {| lz4 := Some stored_lz4; chunk_space := AllocSetChunkSize 8192; default_toast_compression := TOAST_LZ4_COMPRESSION |}.

Lemma sample_domain : rle_domain sample_config rle_sample.
Proof. split_and!; [split|..]; vm_compute; discriminate. Qed.

Lemma toast_compress_roundtrip_witness :
  (exists d, toast_compress_datum sample_config (mk_4b_u rle_sample ++ []) TOAST_RLE_COMPRESSION = Ok (Some d) /\
    zlen d < 42 /\ toast_decompress_datum sample_config (d ++ [7]) = Ok (mk_4b_u rle_sample)) /\
  returns (toast_compress_datum sample_config_lz4 (mk_4b_u rle_sample ++ []) InvalidCompressionMethod)
    (fun r => match r with
    | None => True
    | Some d => (2 <= zlen rle_sample -> zlen d < zlen rle_sample - 2) /\
        forall t, toast_decompress_datum sample_config_lz4 (d ++ t) = Ok (mk_4b_u rle_sample)
    end).
Proof.
  assert (Hv : inline_value (mk_4b_u rle_sample ++ []) rle_sample) by (constructor; vm_compute; reflexivity).
  split.
  - pose proof (toast_compress_roundtrip sample_config _ rle_sample TOAST_RLE_COMPRESSION Hv
      ltac:(solve_bytes) (ok_rle sample_config rle_sample sample_domain)) as H.
    assert (E : exists d, toast_compress_datum sample_config (mk_4b_u rle_sample ++ []) TOAST_RLE_COMPRESSION
      = Ok (Some d)) by (eexists; vm_compute; reflexivity).
    destruct E as [d E]. rewrite E in H. destruct H as [H1 H2]. exists d. split; [exact E|].
    split; [apply H1; vm_compute; discriminate|apply H2].
  - exact (toast_compress_roundtrip sample_config_lz4 _ rle_sample InvalidCompressionMethod Hv
      ltac:(solve_bytes) (ok_lz4 sample_config_lz4 rle_sample stored_lz4 eq_refl _
        ltac:(vm_compute; discriminate))).
Defined.

(** Reading the first n bytes of a compressed value: from as much of the payload as
    detoast_attr_slice fetches for n bytes, toast_decompress_datum_slice returns a
    plain value that is a prefix of the contents and has at least the n bytes asked
    for, or all there are. *)
Theorem toast_decompress_prefix c v data cmethod d n m t :
  inline_value v data -> bytes data -> method_ok c data (effective_method c cmethod) ->
  toast_compress_datum c v cmethod = Ok (Some d) -> 0 <= n < 2 ^ 31 ->
  exists id payload, d = mk_4b_c (zlen data) id payload /\
    (payload_need id n (zlen payload) <= m <= zlen payload ->
     (id = TOAST_RLE_COMPRESSION_ID -> n < zlen data -> slice_room c data n) ->
     exists d', toast_decompress_datum_slice c (mk_4b_c (zlen data) id (take (Z.to_nat m) payload) ++ t) n
         = Ok (mk_4b_u d') /\
       Z.min n (zlen data) <= zlen d' /\ d' = take (length d') data).
Proof.
  intros Hv Hb Hm Hd Hn. pose proof (toast_compress_ok c v data cmethod Hv Hb Hm) as H. rewrite Hd in H.
  destruct H as (id & payload & -> & Hok & Hc & _ & _). exists id, payload. split; [done|].
  intros Hp Hr. apply toast_decompress_slice_ok; try done. by eapply inline_ok.
Qed.

Lemma toast_decompress_prefix_witness :
  exists id payload,
    mk_4b_c 96 TOAST_PGLZ_COMPRESSION_ID [0; 49; 49; 50; 51; 52; 200; 7; 9; 1; 15; 8; 70]
      = mk_4b_c 96 id payload /\
    (payload_need id 7 (zlen payload) <= 10 <= zlen payload ->
     (id = TOAST_RLE_COMPRESSION_ID -> 7 < 96 -> slice_room sample_config pglz_sample 7) ->
     exists d', toast_decompress_datum_slice sample_config (mk_4b_c 96 id (take 10 payload) ++ []) 7
         = Ok (mk_4b_u d') /\
       7 <= zlen d' /\ d' = take (length d') pglz_sample).
Proof.
  exact (toast_decompress_prefix sample_config (mk_4b_u pglz_sample ++ []) pglz_sample
    InvalidCompressionMethod _ 7 10 []
    ltac:(constructor; vm_compute; reflexivity) ltac:(solve_bytes)
    (ok_pglz sample_config pglz_sample ltac:(vm_compute; discriminate))
    ltac:(vm_compute; reflexivity) ltac:(lia)).
Defined.

(** What rle_compress_datum stores when the literal buffer was overrun. *)
Lemma rle_datum_lost c v data :
  inline_value v data -> bytes data -> fits_alloc data -> compress_room c data ->
  rle_compress 127 data None = Ub ->
  returns (rle_compress_datum c v) (fun r => match r with
    | None => True
    | Some tmp => exists ts, Forall wf_tok ts /\ tmp = unmarked (encode ts) /\
        zlen (expand ts) < zlen data /\ zlen (encode ts) + 8 < 2 ^ 30
    end).
Proof.
  intros Hv Hb Hf [Hcap Hcr] HUb. unfold rle_compress_datum. rewrite (inline_exhdr _ _ Hv). cbn [mbind res_bind].
  rewrite (inline_int32 _ _ Hv). destruct (_ || _); [done|].
  rewrite (fits_alloc_palloc _ Hf), (inline_data _ _ Hv). cbn [mbind res_bind].
  eapply returns_bind; [by apply rle_compress_spec|].
  intros [r out] Hpost. rewrite (compress_in_chunk c data _ r out _ (conj Hcap Hcr) eq_refl Hpost). cbn [mbind res_bind].
  destruct Hpost as [_ [(-> & _)|(k & f & sv & ts & Hdone & -> & -> & Hlt & Hk)]]; [done|].
  destruct Hk as [[_ ?]|[Hk _]]; [congruence|]. destruct Hdone as (Hw & Hl & _).
  pose proof (zlen_nonneg data) as H0. pose proof (zlen_nonneg (encode ts)).
  destruct (rle_result_max_bound (zlen data) 25 H0) as [Hrm _]. simpl default in Hlt. simpl in Hlt.
  unfold fits_alloc, PGLZ_MAX_OUTPUT, VARHDRSZ_COMPRESSED, MaxAllocSize in Hf.
  destruct (Z.ltb_spec (zlen (encode ts)) 0); [lia|]. exists ts. split_and!; try done; try lia.
  apply result_compressed_eq; [done|lia|]. apply take_zlen_app.
Qed.

Lemma rle_datum_corrupt c raw ts t :
  Forall wf_tok ts -> ok_4b_c raw TOAST_RLE_COMPRESSION_ID (encode ts) -> raw + 4 < 2 ^ 30 ->
  zlen (expand ts) < raw -> raw + 4 <= chunk_space c (raw + 4) ->
  rle_decompress_datum c (mk_4b_c raw TOAST_RLE_COMPRESSION_ID (encode ts) ++ t)
    = Ereport ERRCODE_DATA_CORRUPTED.
Proof.
  intros Hw Hok Hraw Hlt Hroom. unfold rle_decompress_datum. rewrite get_extsize_c by done. cbn [mbind res_bind].
  rewrite palloc_ok by (unfold VARHDRSZ, MaxAllocSize; destruct Hok; lia). cbn [mbind res_bind].
  destruct (size_compressed _ _ _ t Hok) as [Hs1 _]. rewrite Hs1. cbn [mbind res_bind].
  replace (zlen (encode ts) + 8 - VARHDRSZ_COMPRESSED) with (zlen (encode ts)) by (unfold VARHDRSZ_COMPRESSED; lia).
  rewrite compressed_payload. cbn [mbind res_bind]. rewrite rle_decompress_tokens, toks_until_all by (done || lia).
  replace (zlen (expand ts) =? raw) with false by lia. cbn [andb orb negb mbind res_bind].
  by rewrite in_chunk_ok by (unfold VARHDRSZ; zl).
Qed.

(** C39: A value on which rle_compress overruns its literal buffer is either left
    uncompressed or becomes unreadable: the datum that toast_compress_datum stores makes
    toast_decompress_datum report corrupted data.  The chunks have the byte more than was
    requested that the compression may write, and what was requested otherwise. *)
Theorem rle_value_lost c v data :
  inline_value v data -> bytes data -> fits_alloc data -> compress_room c data ->
  zlen data + 4 <= chunk_space c (zlen data + 4) -> rle_compress 127 data None = Ub ->
  returns (toast_compress_datum c v TOAST_RLE_COMPRESSION) (fun r => match r with
    | None => True
    | Some d => toast_decompress_datum c (d ++ []) = Ereport ERRCODE_DATA_CORRUPTED
    end).
Proof.
  intros Hv Hb Hf Hcap Hreq HUb. unfold toast_compress_datum. rewrite (inline_exhdr _ _ Hv). cbn [mbind res_bind].
  rewrite (inline_int32 _ _ Hv). cbn [CompressionMethodIsValid TOAST_RLE_COMPRESSION InvalidCompressionMethod
    TOAST_PGLZ_COMPRESSION TOAST_LZ4_COMPRESSION Z.eqb Pos.eqb negb].
  pose proof (rle_datum_lost c v data Hv Hb Hf Hcap HUb) as H. apply returns_eq in H as (r & -> & Hr).
  cbn [mbind res_bind]. destruct r as [tmp|]; [|done]. destruct Hr as (ts & Hw & -> & Hne & Hsz).
  rewrite varsize_unmarked by done. cbn [mbind res_bind]. destruct (_ <? _); [|done].
  pose proof (inline_ok _ _ Hv) as Hd. unfold ok_4b_u in Hd. pose proof (zlen_nonneg data).
  rewrite set_size_and_method by lia. cbn [returns].
  assert (Hok : ok_4b_c (zlen data) TOAST_RLE_COMPRESSION_ID (encode ts)).
  { unfold ok_4b_c, TOAST_RLE_COMPRESSION_ID. lia. }
  unfold toast_decompress_datum, TOAST_COMPRESS_METHOD. rewrite get_method_c by done. cbn [mbind res_bind].
  by apply rle_datum_corrupt.
Qed.

Lemma rle_value_lost_witness :
  rle_compress 127 rle_lossy_sample None = Ub /\
  exists d, toast_compress_datum sample_config (mk_4b_u rle_lossy_sample ++ []) TOAST_RLE_COMPRESSION
      = Ok (Some d) /\
    toast_decompress_datum sample_config (d ++ []) = Ereport ERRCODE_DATA_CORRUPTED.
Proof.
  assert (HUb : rle_compress 127 rle_lossy_sample None = Ub) by (vm_compute; reflexivity).
  split; [exact HUb|].
  pose proof (rle_value_lost sample_config (mk_4b_u rle_lossy_sample ++ []) rle_lossy_sample
    ltac:(constructor; vm_compute; reflexivity) ltac:(solve_bytes) ltac:(vm_compute; discriminate)
    ltac:(split; vm_compute; discriminate) ltac:(vm_compute; discriminate) HUb) as H.
  assert (E : exists d, toast_compress_datum sample_config (mk_4b_u rle_lossy_sample ++ [])
    TOAST_RLE_COMPRESSION = Ok (Some d)) by (eexists; vm_compute; reflexivity).
  destruct E as [d E]. rewrite E in H. exists d. split; [exact E|exact H].
Defined.

(** ** Results that do not fit their chunk *)

(** Reading an RLE value, up to the end of the chunk. *)
Lemma rle_decompress_exact c ts t :
  Forall wf_tok ts -> ok_4b_u (expand ts) -> ok_4b_c (zlen (expand ts)) TOAST_RLE_COMPRESSION_ID (encode ts) ->
  toast_decompress_datum c (mk_4b_c (zlen (expand ts)) TOAST_RLE_COMPRESSION_ID (encode ts) ++ t) =
    (_ ← in_chunk c (zlen (expand ts) + 4) (zlen (expand ts) + 5); Ok (mk_4b_u (expand ts))).
Proof.
  intros Hw Hd Hok. unfold in_chunk. destruct (Z.leb_spec (zlen (expand ts) + 5) (chunk_space c (zlen (expand ts) + 4))).
  - apply toast_decompress_ok; [|done..]. constructor. split; [by exists ts|done].
  - unfold toast_decompress_datum, TOAST_COMPRESS_METHOD. rewrite get_method_c by done. cbn [mbind res_bind Z.eqb Pos.eqb
      TOAST_PGLZ_COMPRESSION_ID TOAST_LZ4_COMPRESSION_ID TOAST_RLE_COMPRESSION_ID].
    unfold rle_decompress_datum. rewrite get_extsize_c by done. cbn [mbind res_bind].
    rewrite palloc_value by done. cbn [mbind res_bind]. destruct (size_compressed _ _ _ t Hok) as [Hs1 _]. unfold TOAST_RLE_COMPRESSION_ID in *.
    rewrite Hs1. cbn [mbind res_bind].
    replace (zlen (encode ts) + 8 - VARHDRSZ_COMPRESSED) with (zlen (encode ts)) by (unfold VARHDRSZ_COMPRESSED; lia).
    rewrite compressed_payload. cbn [mbind res_bind]. rewrite rle_decompress_all by done. cbn [mbind res_bind].
    unfold in_chunk, VARHDRSZ. rewrite zlen_app. change (zlen [0]) with 1.
    destruct (Z.leb_spec (4 + (zlen (expand ts) + 1)) (chunk_space c (zlen (expand ts) + 4))); [lia|done].
Qed.

Lemma rle_slice_exact c ts n t :
  Forall wf_tok ts -> ok_4b_u (expand ts) -> ok_4b_c (zlen (expand ts)) TOAST_RLE_COMPRESSION_ID (encode ts) ->
  0 <= n < zlen (expand ts) ->
  let d := expand (toks_until ts n) in
  toast_decompress_datum_slice c (mk_4b_c (zlen (expand ts)) TOAST_RLE_COMPRESSION_ID (encode ts) ++ t) n =
    (_ ← in_chunk c (n + 4) (zlen d + 5); Ok (mk_4b_u d)).
Proof.
  intros Hw Hd Hok Hn d. unfold toast_decompress_datum_slice, TOAST_COMPRESS_EXTSIZE. unfold ok_4b_u in Hd.
  rewrite get_extsize_c by done. cbn [mbind res_bind]. unfold wrap32. rewrite Z.mod_small by lia.
  destruct (Z.geb_spec n (zlen (expand ts))); [lia|].
  unfold TOAST_COMPRESS_METHOD. rewrite get_method_c by done. cbn [mbind res_bind Z.eqb Pos.eqb
      TOAST_PGLZ_COMPRESSION_ID TOAST_LZ4_COMPRESSION_ID TOAST_RLE_COMPRESSION_ID].
  unfold rle_decompress_datum_slice. rewrite palloc_ok by (unfold VARHDRSZ, MaxAllocSize; lia).
  destruct (size_compressed _ _ _ t Hok) as [Hs1 _]. unfold TOAST_RLE_COMPRESSION_ID in *. cbn [mbind res_bind]. rewrite Hs1. cbn [mbind res_bind].
  replace (zlen (encode ts) + 8 - VARHDRSZ_COMPRESSED) with (zlen (encode ts)) by (unfold VARHDRSZ_COMPRESSED; lia).
  rewrite compressed_payload. cbn [mbind res_bind]. rewrite rle_decompress_tokens by done. cbn [andb mbind res_bind]. fold d.
  destruct (toks_until_prefix ts n) as [us Hus]. assert (He : zlen d <= zlen (expand ts)).
  { unfold d. rewrite Hus at 2. rewrite expand_app. zl. }
  replace (VARHDRSZ + zlen (d ++ [0])) with (zlen d + 5) by (unfold VARHDRSZ; zl). change (n + VARHDRSZ) with (n + 4).
  unfold in_chunk. destruct (_ <=? _); [|done]. cbn [mbind res_bind].
  pose proof (zlen_nonneg d). destruct (Z.ltb_spec (zlen d) 0); [lia|]. f_equal.
  apply result_plain_eq; [done|unfold ok_4b_u; lia|apply take_zlen_app].
Qed.

Lemma in_chunk_ub c size n (r : list Z) : (_ ← in_chunk c size n; Ok r) = Ub <-> chunk_space c size < n.
Proof. unfold in_chunk. ztests; split; done || lia. Qed.

(** The chunks of AllocSetAlloc that are as large as the request. *)
Lemma chunk_size_exact limit size :
  (exists k, 3 <= k /\ size = 2 ^ k /\ size <= limit) \/ (limit < size /\ size mod 8 = 0) ->
  AllocSetChunkSize limit size = size.
Proof.
  unfold AllocSetChunkSize. intros [(k & Hk & -> & Hl)|[Hl Hm]].
  - destruct (Z.gtb_spec (2 ^ k) limit); [lia|]. unfold AllocSetFreeIndex. change (Z.shiftl 1 3) with (2 ^ 3).
    destruct (Z.gtb_spec (2 ^ k) (2 ^ 3)) as [H3|H3].
    + rewrite Z.sub_1_r, Z.log2_pred_pow2 by lia. assert (3 < k) by (apply (Z.pow_lt_mono_r_iff 2); lia).
      rewrite Z.shiftl_mul_pow2, <- Z.pow_add_r by lia. f_equal. lia.
    + assert (k <= 3) by (apply (Z.pow_le_mono_r_iff 2); lia). by replace k with 3 by lia.
  - destruct (Z.gtb_spec size limit); [|lia]. unfold MAXALIGN, TYPEALIGN, MAXIMUM_ALIGNOF.
    change (8 - 1) with (Z.ones 3). rewrite <- Z.ldiff_land, Z.ldiff_ones_r, Z.shiftr_div_pow2, Z.shiftl_mul_pow2 by lia.
    change (Z.ones 3) with 7. change (2 ^ 3) with 8. lia.
Qed.

(** C31: The result of decompressing RLE does not fit the memory that is requested for
    it.  Reading a whole value writes past its chunk unless palloc gave a byte more than
    was requested, reading its first n bytes unless the chunk has room for the token that
    reaches the n-th byte, expanded whole, and for a NUL.  In the chunks of
    AllocSetAlloc the first happens to every value whose plain datum has 2^k bytes, up to
    the limit for chunks, or a multiple of 8 bytes above it. *)
Theorem rle_result_overrun c ts data t :
  Forall wf_tok ts -> expand ts = data -> ok_4b_u data -> ok_4b_c (zlen data) TOAST_RLE_COMPRESSION_ID (encode ts) ->
  let v := mk_4b_c (zlen data) TOAST_RLE_COMPRESSION_ID (encode ts) ++ t in
  (toast_decompress_datum c v = Ub <-> chunk_space c (zlen data + 4) < zlen data + 5) /\
  (forall n, 0 <= n < zlen data ->
     toast_decompress_datum_slice c v n = Ub <-> chunk_space c (n + 4) < zlen (expand (toks_until ts n)) + 5) /\
  (forall limit size, chunk_space c = AllocSetChunkSize limit -> size = zlen data + 4 ->
     (exists k, 3 <= k /\ size = 2 ^ k /\ size <= limit) \/ (limit < size /\ size mod 8 = 0) ->
     toast_decompress_datum c v = Ub).
Proof.
  intros Hw <- Hd Hok v. unfold v. rewrite rle_decompress_exact, in_chunk_ub by done. split; [done|]. split.
  - intros n Hn. by rewrite rle_slice_exact, in_chunk_ub.
  - intros limit size Hc -> Hs. apply in_chunk_ub. rewrite Hc, chunk_size_exact by done. lia.
Qed.

(** Sixty equal bytes: 64 bytes with the header.  The whole value and its first three
    bytes are both written past their chunks. *)
Lemma rle_result_overrun_witness :
  let v := mk_4b_c 60 TOAST_RLE_COMPRESSION_ID [185; 97] ++ [] in
  toast_compress_datum sample_config (mk_4b_u (replicate 60 97)) TOAST_RLE_COMPRESSION = Ok (Some v) /\
  toast_decompress_datum sample_config v = Ub /\ toast_decompress_datum_slice sample_config v 3 = Ub.
Proof.
  split; [vm_compute; reflexivity|].
  destruct (rle_result_overrun sample_config [Run 60 97] (replicate 60 97) [] ltac:(repeat constructor; simpl; lia)
    eq_refl ltac:(vm_compute; reflexivity) ltac:(vm_compute; intuition discriminate)) as (_ & Hs & Ha).
  split; [|by apply Hs; vm_compute; [split; [discriminate|reflexivity]|]].
  apply (Ha 8192 64 eq_refl eq_refl). left. exists 6. split_and!; [lia|reflexivity|lia].
Defined.
