(* ===== verification/Oids.v ===== *)
(** Assignment of OIDs to toast values: GetNewObjectId of
    src/backend/access/transam/varsup.c and GetNewOidWithIndex of
    src/backend/catalog/catalog.c. *)

From S2P Require Import Prelude.

Definition VAR_OID_PREFETCH : Z := 8192.
Definition FirstGenbkiObjectId : Z := 10000.
Definition FirstNormalObjectId : Z := 16384.
Definition InvalidOid : Z := 0.

(** The counter in shared memory, and the last value logged by XLogPutNextOid, from
    which a restart after a crash continues. *)
Record oidgen := mkOidgen { nextOid : Z; oidCount : Z; xlog_nextOid : Z }.

Section oids.
Context (IsPostmasterEnvironment : bool).

(** The counter after the check for wraparound. *)
Definition oid_wraparound (g : oidgen) : oidgen :=
  if nextOid g <? FirstNormalObjectId then
    if IsPostmasterEnvironment then mkOidgen FirstNormalObjectId 0 (xlog_nextOid g)
    else if nextOid g <? FirstGenbkiObjectId then mkOidgen FirstNormalObjectId 0 (xlog_nextOid g)
    else g
  else g.

Definition GetNewObjectId (recovery : bool) (g : oidgen) : res (Z * oidgen) :=
  if recovery then Ereport ERRCODE_INTERNAL_ERROR else
  let g := oid_wraparound g in
  let g := if oidCount g =? 0
           then mkOidgen (nextOid g) VAR_OID_PREFETCH (wrap32 (nextOid g + VAR_OID_PREFETCH))
           else g in
  Ok (nextOid g, mkOidgen (wrap32 (nextOid g + 1)) (oidCount g - 1) (xlog_nextOid g)).

(** The do loop of GetNewOidWithIndex; [used] holds the OIDs that the index has, dead
    rows included (SnapshotAny). *)
Definition new_oid_body (recovery : bool) (used : gset Z) (g : oidgen) : res (oidgen + Z * oidgen) :=
  x ← GetNewObjectId recovery g;
  let '(newOid, g) := x in
  if bool_decide (newOid ∈ used) then Ok (inl g) else Ok (inr (newOid, g)).

(** Each turn tries another OID, so one more turn than there are used ones is enough. *)
Definition GetNewOidWithIndex (recovery : bool) (used : gset Z) (g : oidgen) : res (Z * oidgen) :=
  iter (S (size used)) (new_oid_body recovery used) g.
End oids.

#[global] Arguments GetNewObjectId : simpl never.

(** * The generator runs through all OIDs above the reserved ones *)

(** The number of OIDs that normal operation uses. *)
Definition OID_RANGE : Z := 2 ^ 32 - FirstNormalObjectId.

Record oidgen_ok (g : oidgen) : Prop := {
  og_next : 0 <= nextOid g < 2 ^ 32;
  og_count : 0 <= oidCount g <= VAR_OID_PREFETCH;
  (** what has been logged is ahead of the counter by the OIDs still free to use *)
  og_logged : oidCount g = 0 \/ xlog_nextOid g = wrap32 (nextOid g + oidCount g)
}.

(** Index of an OID in the cycle. *)
Definition oid_idx (o : Z) : Z := (if o <? FirstNormalObjectId then FirstNormalObjectId else o) - FirstNormalObjectId.

Lemma get_new_object_id g :
  oidgen_ok g ->
  exists o g', GetNewObjectId true false g = Ok (o, g') /\ oidgen_ok g' /\
    FirstNormalObjectId <= o < 2 ^ 32 /\ oid_idx o = oid_idx (nextOid g) /\
    oid_idx (nextOid g') = (oid_idx (nextOid g) + 1) mod OID_RANGE /\
    1 <= (xlog_nextOid g' - o) mod 2 ^ 32 <= VAR_OID_PREFETCH.
Proof.
  intros [Hn Hc Hl]. unfold GetNewObjectId.
  set (g1 := oid_wraparound true g).
  assert (H1 : FirstNormalObjectId <= nextOid g1 < 2 ^ 32 /\ 0 <= oidCount g1 <= VAR_OID_PREFETCH /\
    (oidCount g1 = 0 \/ xlog_nextOid g1 = wrap32 (nextOid g1 + oidCount g1)) /\
    oid_idx (nextOid g1) = oid_idx (nextOid g)).
  { unfold g1, oid_wraparound, oid_idx, FirstNormalObjectId, VAR_OID_PREFETCH in *.
    destruct (Z.ltb_spec (nextOid g) 16384); simpl; split_and!; try lia; ztests; lia. }
  clearbody g1. destruct H1 as (Hn1 & Hc1 & Hl1 & Hi1).
  set (g2 := if oidCount g1 =? 0 then _ else g1).
  assert (H2 : nextOid g2 = nextOid g1 /\ 1 <= oidCount g2 <= VAR_OID_PREFETCH /\
    xlog_nextOid g2 = wrap32 (nextOid g1 + oidCount g2)).
  { unfold g2, VAR_OID_PREFETCH in *. destruct (Z.eqb_spec (oidCount g1) 0); simpl; split_and!; try lia; done. }
  clearbody g2. destruct H2 as (-> & Hc2 & Hl2).
  eexists _, _. split; [reflexivity|].
  unfold oid_idx, OID_RANGE, FirstNormalObjectId, VAR_OID_PREFETCH, wrap32 in *. simpl in *.
  split_and!; try lia.
  - split; simpl; unfold VAR_OID_PREFETCH, wrap32; [lia|lia|right].
    rewrite Hl2, Zplus_mod_idemp_l. f_equal. lia.
  - revert Hi1. destruct (Z.ltb_spec (nextOid g1) 16384); [lia|]. intros <-.
    destruct (Z.ltb_spec ((nextOid g1 + 1) mod 2 ^ 32) 16384); lia.
Qed.

(** ** Finding an unused OID *)

Lemma nodup_in_set_length (l : list Z) (X : gset Z) :
  NoDup l -> (forall x, x ∈ l -> x ∈ X) -> (length l <= size X)%nat.
Proof.
  intros Hl Hin. rewrite <- (size_list_to_set (C := gset Z) l) by done.
  apply subseteq_size. intros x. rewrite elem_of_list_to_set. auto.
Qed.

(** [l]: the OIDs tried so far, the counter's last ones. *)
Definition tried (used : gset Z) (g : oidgen) (l : list Z) : Prop :=
  NoDup l /\ forall x, x ∈ l -> (x ∈ used) /\
    exists j, 1 <= j <= zlen l /\ oid_idx x = (oid_idx (nextOid g) - j) mod OID_RANGE.

Lemma new_oid_loop used fuel : forall g l,
  oidgen_ok g -> Z.of_nat (size used) < OID_RANGE -> tried used g l ->
  (size used < length l + fuel)%nat ->
  returns (iter fuel (new_oid_body true false used) g) (fun '(o, g') =>
    (o ∉ used) /\ FirstNormalObjectId <= o < 2 ^ 32 /\ oidgen_ok g').
Proof.
  induction fuel as [|fuel IH]; intros g l Hg Hsz [Hnd Hl] Hf.
  - pose proof (nodup_in_set_length l used Hnd (fun x Hx => proj1 (Hl x Hx))). lia.
  - destruct (get_new_object_id g Hg) as (o & g' & Hgen & Hg' & Ho & Hi & Hnext & _).
    assert (Hb : new_oid_body true false used g =
      if bool_decide (o ∈ used) then Ok (inl g') else Ok (inr (o, g')))
      by (unfold new_oid_body; by rewrite Hgen).
    rewrite iter_S, Hb. case_bool_decide as Hu; cbn [mbind res_bind]; [|done].
    apply (IH g' (o :: l)); [done|done| |simpl; lia].
    assert (Hlen : zlen l < OID_RANGE).
    { pose proof (nodup_in_set_length l used Hnd (fun x Hx => proj1 (Hl x Hx))). unfold zlen. lia. }
    assert (Hri : forall y, 0 <= oid_idx y) by (intros y; unfold oid_idx; ztests; lia).
    assert (Hro : oid_idx o < OID_RANGE) by (unfold oid_idx, OID_RANGE; ztests; lia).
    split.
    + apply NoDup_cons. split; [|done]. intros Hin. destruct (Hl o Hin) as [_ (j & Hj & Ho')].
      rewrite <- Hi in Ho'. pose proof (Hri o). unfold OID_RANGE, FirstNormalObjectId in *. lia.
    + intros x [->|Hx]%elem_of_cons; rewrite Hnext, zlen_cons.
      * split; [done|]. exists 1. split; [zl|]. rewrite <- Hi. pose proof (Hri o).
        unfold OID_RANGE, FirstNormalObjectId in *. lia.
      * destruct (Hl x Hx) as [? (j & Hj & Hx')]. split; [done|]. exists (j + 1). split; [lia|].
        rewrite Hx'. rewrite Zminus_mod_idemp_l. f_equal. lia.
Qed.

Lemma get_new_oid used g :
  oidgen_ok g -> Z.of_nat (size used) < OID_RANGE ->
  returns (GetNewOidWithIndex true false used g) (fun '(o, g') =>
    (o ∉ used) /\ FirstNormalObjectId <= o < 2 ^ 32 /\ oidgen_ok g').
Proof.
  intros Hg Hsz. apply (new_oid_loop used _ g []); [done|done| |simpl; lia].
  split; [constructor|]. intros x Hx. by apply elem_of_nil in Hx.
Qed.

(** As long as some OID above the reserved range is free, GetNewOidWithIndex stops
    and returns an OID that no row of the index uses, live or dead, whatever the
    position of the counter, wraparound included. *)
Theorem new_oid_fresh used g :
  oidgen_ok g -> Z.of_nat (size used) < OID_RANGE ->
  returns (GetNewOidWithIndex true false used g) (fun '(o, g') =>
    (o ∉ used) /\ FirstNormalObjectId <= o < 2 ^ 32 /\ oidgen_ok g').
Proof. apply get_new_oid. Qed.

(** The counter at its last value, with the next two OIDs in use. *)
Definition oidgen_sample : oidgen := mkOidgen (2 ^ 32 - 1) 1 0.

Lemma new_oid_fresh_witness :
  oidgen_ok oidgen_sample /\
  exists o g', GetNewOidWithIndex true false {[ 2 ^ 32 - 1; 16384 ]} oidgen_sample = Ok (o, g') /\
    o = 16385 /\ o ∉@{gset Z} {[ 2 ^ 32 - 1; 16384 ]}.
Proof.
  assert (Hg : oidgen_ok oidgen_sample).
  { split; [vm_compute; split; [discriminate|reflexivity]|vm_compute; split; discriminate|].
    right. vm_compute. reflexivity. }
  assert (Hs : Z.of_nat (size ({[ 2 ^ 32 - 1; 16384 ]} : gset Z)) < OID_RANGE) by (vm_compute; reflexivity).
  split; [exact Hg|].
  pose proof (new_oid_fresh {[ 2 ^ 32 - 1; 16384 ]} oidgen_sample Hg Hs) as H.
  assert (E : GetNewOidWithIndex true false {[ 2 ^ 32 - 1; 16384 ]} oidgen_sample
    = Ok (16385, mkOidgen 16386 8190 24576)) by (vm_compute; reflexivity).
  rewrite E in H. destruct H as [H _]. exists 16385, (mkOidgen 16386 8190 24576).
  split; [exact E|]. split; [reflexivity|exact H].
Defined.
