(* ===== verification/ToastStore.v ===== *)
(** Out-of-line storage: toast_save_datum, toast_delete_datum and the index helpers of
    src/backend/access/common/toast_internals.c, heap_fetch_toast_slice of
    src/backend/access/heap/heaptoast.c, and the chunk-size constants of
    src/include/access/heaptoast.h.

    A toast relation is what its valid index shows: for every value id the live chunk
    rows in the order of their sequence numbers, and the ids that still have dead rows,
    which matter to scans with SnapshotAny.  A stored chunk is the bytes of its datum.
    Locks, WAL and interrupts are not modelled; the server runs under the postmaster and
    is not in recovery. *)

From S2P Require Import Prelude Varatt Oids.

(** ** Sizes *)

Definition BLCKSZ : Z := 8192.
Definition SizeOfPageHeaderData : Z := 24.
Definition sizeof_ItemIdData : Z := 4.
Definition SizeofHeapTupleHeader : Z := 23.
Definition sizeof_Oid : Z := 4.

Definition MaximumBytesPerTuple (tuplesPerPage : Z) : Z :=
  MAXALIGN_DOWN ((BLCKSZ - MAXALIGN (SizeOfPageHeaderData + tuplesPerPage * sizeof_ItemIdData))
                 / tuplesPerPage).
Definition TOAST_TUPLES_PER_PAGE : Z := 4.
Definition TOAST_TUPLE_THRESHOLD : Z := MaximumBytesPerTuple TOAST_TUPLES_PER_PAGE.
Definition TOAST_TUPLE_TARGET : Z := TOAST_TUPLE_THRESHOLD.
Definition TOAST_TUPLES_PER_PAGE_MAIN : Z := 1.
Definition TOAST_TUPLE_TARGET_MAIN : Z := MaximumBytesPerTuple TOAST_TUPLES_PER_PAGE_MAIN.
Definition EXTERN_TUPLES_PER_PAGE : Z := 4.
Definition EXTERN_TUPLE_MAX_SIZE : Z := MaximumBytesPerTuple EXTERN_TUPLES_PER_PAGE.
Definition TOAST_MAX_CHUNK_SIZE : Z :=
  EXTERN_TUPLE_MAX_SIZE - MAXALIGN SizeofHeapTupleHeader - sizeof_Oid - 4 - VARHDRSZ.
Definition TOAST_POINTER_SIZE : Z := VARHDRSZ_EXTERNAL + 16.

(** ** Relations *)

Record toast_index := { ti_oid : Z; indisvalid : bool; indisready : bool; indisunique : bool }.

Record toastrel := mkToastrel {
  tr_oid : Z;
  tr_indexes : list toast_index;
  tr_rows : gmap Z (list (Z * list Z));
  tr_dead : gset Z
}.

(** The database as this code sees it; [st_snapshot]: the session has a snapshot. *)
Record store := mkStore {
  st_rels : gmap Z toastrel;
  st_oids : oidgen;
  st_snapshot : bool
}.

(** The fields of the main relation that matter: the toast table, and the OID of the
    permanent toast table while the relation is being rewritten. *)
Record relation := { reltoastrelid : Z; rd_toastoid : Z }.

Definition OidIsValid (o : Z) : bool := negb (o =? InvalidOid).

Definition table_open (st : store) (oid : Z) : res toastrel :=
  match st_rels st !! oid with Some tr => Ok tr | None => Ereport ERRCODE_INTERNAL_ERROR end.

Definition set_rel (st : store) (tr : toastrel) : store :=
  mkStore (<[tr_oid tr := tr]> (st_rels st)) (st_oids st) (st_snapshot st).

(** The position of the first valid index. *)
Fixpoint first_valid (idxs : list toast_index) (i : Z) : option Z :=
  match idxs with
  | [] => None
  | x :: idxs => if indisvalid x then Some i else first_valid idxs (i + 1)
  end.
Definition toast_open_indexes (tr : toastrel) : res Z :=
  match first_valid (tr_indexes tr) 0 with
  | Some i => Ok i
  | None => Ereport ERRCODE_INTERNAL_ERROR
  end.

(** toast_get_valid_index *)
Definition toast_get_valid_index (st : store) (toastoid : Z) : res Z :=
  tr ← table_open st toastoid;
  i ← toast_open_indexes tr;
  match tr_indexes tr !! Z.to_nat i with Some x => Ok (ti_oid x) | None => Ub end.

(** init_toast_snapshot *)
Definition init_toast_snapshot (st : store) : res unit :=
  if st_snapshot st then Ok tt else Ereport ERRCODE_INTERNAL_ERROR.

Definition rows_of (tr : toastrel) (valueid : Z) : list (Z * list Z) := default [] (tr_rows tr !! valueid).

(** Live or dead rows: what a scan with SnapshotAny finds. *)
Definition any_row (tr : toastrel) (valueid : Z) : bool :=
  match rows_of tr valueid with [] => bool_decide (valueid ∈ tr_dead tr) | _ => true end.
Definition used_ids (tr : toastrel) : gset Z := dom (tr_rows tr) ∪ tr_dead tr.

Definition toastrel_valueid_exists (tr : toastrel) (valueid : Z) : res bool :=
  _ ← toast_open_indexes tr; Ok (any_row tr valueid).
Definition toastid_valueid_exists (st : store) (toastrelid valueid : Z) : res bool :=
  tr ← table_open st toastrelid; toastrel_valueid_exists tr valueid.

(** ** Saving *)

(** heap_insert and the index entries: the row is placed by its sequence number; a
    unique index that is ready refuses a key it has. *)
Fixpoint ins_row (seq : Z) (chunk : list Z) (rows : list (Z * list Z)) : list (Z * list Z) :=
  match rows with
  | [] => [(seq, chunk)]
  | (s, c) :: rows' => if s <=? seq then (s, c) :: ins_row seq chunk rows' else (seq, chunk) :: rows
  end.
Definition toast_insert (tr : toastrel) (valueid seq : Z) (chunk : list Z) : res toastrel :=
  if existsb (fun x => indisready x && indisunique x) (tr_indexes tr)
     && existsb (fun r => fst r =? seq) (rows_of tr valueid)
  then Ereport ERRCODE_UNIQUE_VIOLATION
  else Ok (mkToastrel (tr_oid tr) (tr_indexes tr)
             (<[valueid := ins_row seq chunk (rows_of tr valueid)]> (tr_rows tr)) (tr_dead tr)).

(** while (data_todo > 0): one chunk, on (toast relation, chunk_seq, data_p, data_todo) *)
Definition save_chunk_body (dval : list Z) (valueid : Z) (x : toastrel * Z * Z * Z)
    : res (toastrel * Z * Z * Z + toastrel) :=
  let '(tr, chunk_seq, data_p, data_todo) := x in
  if data_todo >? 0 then
    let chunk_size := Z.min TOAST_MAX_CHUNK_SIZE data_todo in
    data ← rdn dval data_p chunk_size;
    let chunk_data := SET_VARSIZE (zrep VARHDRSZ 0 ++ data) (chunk_size + VARHDRSZ) in
    tr ← toast_insert tr valueid chunk_seq chunk_data;
    Ok (inl (tr, chunk_seq + 1, data_p + chunk_size, data_todo - chunk_size))
  else Ok (inr tr).

(** Data offset, data_todo, va_rawsize and va_extinfo of a value. *)
Definition save_sizes (dval : list Z) : res (Z * Z * Z * Z) :=
  s ← VARATT_IS_SHORT dval;
  if (s : bool) then
    sz ← VARSIZE_SHORT dval;
    let data_todo := sz - VARHDRSZ_SHORT in
    Ok (VARDATA_SHORT, data_todo, data_todo + VARHDRSZ, data_todo)
  else
    c ← VARATT_IS_COMPRESSED dval;
    sz ← VARSIZE dval;
    let data_todo := sz - VARHDRSZ in
    if (c : bool) then
      ext ← VARDATA_COMPRESSED_GET_EXTSIZE dval;
      m ← VARDATA_COMPRESSED_GET_COMPRESS_METHOD dval;
      let tp := VARATT_EXTERNAL_SET_SIZE_AND_COMPRESS_METHOD (Build_varatt_external 0 0 0 0) data_todo m in
      Ok (VARDATA, data_todo, ext + VARHDRSZ, va_extinfo tp)
    else Ok (VARDATA, data_todo, sz, data_todo).

(** do GetNewOidWithIndex while (toastid_valueid_exists) *)
Definition rewrite_oid_body (st : store) (tr : toastrel) (old : Z) (g : oidgen) : res (oidgen + Z * oidgen) :=
  x ← GetNewOidWithIndex true false (used_ids tr) g;
  let '(valueid, g) := x in
  e ← toastid_valueid_exists st old valueid;
  if (e : bool) then Ok (inl g) else Ok (inr (valueid, g)).

(** The value id: (id, counter, whether the data is there already). *)
Definition choose_valueid (st : store) (rel : relation) (tr : toastrel) (oldexternal : option (list Z))
    : res (Z * oidgen * bool) :=
  if negb (OidIsValid (rd_toastoid rel)) then
    x ← GetNewOidWithIndex true false (used_ids tr) (st_oids st);
    let '(valueid, g) := x in Ok (valueid, g, false)
  else
    x ← (match oldexternal with
         | None => Ok (InvalidOid, false)
         | Some old =>
             otp ← VARATT_EXTERNAL_GET_POINTER old;
             if va_toastrelid otp =? rd_toastoid rel
             then e ← toastrel_valueid_exists tr (va_valueid otp); Ok (va_valueid otp, e)
             else Ok (InvalidOid, false)
         end);
    let '(valueid, present) := x in
    if valueid =? InvalidOid then
      old ← table_open st (rd_toastoid rel);
      x ← iter (S (size (used_ids old))) (rewrite_oid_body st tr (rd_toastoid rel)) (st_oids st);
      let '(valueid, g) := x in Ok (valueid, g, present)
    else Ok (valueid, st_oids st, present).

Definition toast_save_datum (st : store) (rel : relation) (dval : list Z) (oldexternal : option (list Z))
    : res (list Z * store) :=
  tr ← table_open st (reltoastrelid rel);
  _ ← toast_open_indexes tr;
  x ← save_sizes dval;
  let '(data_p, data_todo, rawsize, extinfo) := x in
  let toastrelid := if OidIsValid (rd_toastoid rel) then rd_toastoid rel else tr_oid tr in
  y ← choose_valueid st rel tr oldexternal;
  let '(valueid, g, present) := y in
  let data_todo := if (present : bool) then 0 else data_todo in
  tr ← iter (S (Z.to_nat data_todo)) (save_chunk_body dval valueid) (tr, 0, data_p, data_todo);
  let tp := Build_varatt_external rawsize extinfo valueid toastrelid in
  Ok (mk_ondisk tp, mkStore (<[tr_oid tr := tr]> (st_rels st)) g (st_snapshot st)).

(** ** Deleting *)

Definition toast_delete_rows (tr : toastrel) (valueid : Z) : toastrel :=
  match rows_of tr valueid with
  | [] => tr
  | _ => mkToastrel (tr_oid tr) (tr_indexes tr) (delete valueid (tr_rows tr)) ({[valueid]} ∪ tr_dead tr)
  end.

Definition toast_delete_datum (st : store) (value : list Z) (is_speculative : bool) : res store :=
  o ← VARATT_IS_EXTERNAL_ONDISK value;
  if negb o then Ok st else
  tp ← VARATT_EXTERNAL_GET_POINTER value;
  tr ← table_open st (va_toastrelid tp);
  _ ← toast_open_indexes tr;
  _ ← init_toast_snapshot st;
  Ok (set_rel st (toast_delete_rows tr (va_valueid tp))).

(** ** Fetching *)

Definition size_t (x : Z) : Z := x mod 2 ^ 64.

(** Size and data offset of a chunk datum. *)
Definition chunk_info (chunk : list Z) : res (Z * Z) :=
  e ← VARATT_IS_EXTENDED chunk;
  if negb e then sz ← VARSIZE chunk; Ok (sz - VARHDRSZ, VARDATA) else
  s ← VARATT_IS_SHORT chunk;
  if (s : bool) then sz ← VARSIZE_SHORT chunk; Ok (sz - VARHDRSZ_SHORT, VARDATA_SHORT)
  else Ereport ERRCODE_INTERNAL_ERROR.

(** The chunk-size arithmetic is in size_t, as TOAST_MAX_CHUNK_SIZE is. *)
Record slice_plan := mkPlan {
  attrsize : Z; sliceoffset : Z; slicelength : Z; totalchunks : Z; startchunk : Z; endchunk : Z
}.
Definition plan_slice (attrsize sliceoffset slicelength : Z) : slice_plan :=
  mkPlan attrsize sliceoffset slicelength
    (int32_of (size_t (attrsize - 1) / TOAST_MAX_CHUNK_SIZE + 1))
    (int32_of (size_t sliceoffset / TOAST_MAX_CHUNK_SIZE))
    (int32_of (size_t (sliceoffset + slicelength - 1) / TOAST_MAX_CHUNK_SIZE)).

(** Copy one row into the result. *)
Definition fetch_row (p : slice_plan) (row : Z * list Z) (expectedchunk : Z) (result : list Z) : res (list Z) :=
  let '(curchunk, chunk) := row in
  x ← chunk_info chunk;
  let '(chunksize, chunkdata) := x in
  if negb (curchunk =? expectedchunk) then Ereport ERRCODE_DATA_CORRUPTED else
  if curchunk >? endchunk p then Ereport ERRCODE_DATA_CORRUPTED else
  let expected_size := if curchunk <? totalchunks p - 1 then TOAST_MAX_CHUNK_SIZE
                       else attrsize p - (totalchunks p - 1) * TOAST_MAX_CHUNK_SIZE in
  if negb (chunksize =? expected_size) then Ereport ERRCODE_DATA_CORRUPTED else
  let chcpystrt := if curchunk =? startchunk p then size_t (sliceoffset p) mod TOAST_MAX_CHUNK_SIZE else 0 in
  let chcpyend := if curchunk =? endchunk p
                  then size_t (sliceoffset p + slicelength p - 1) mod TOAST_MAX_CHUNK_SIZE
                  else chunksize - 1 in
  data ← rdn chunk (chunkdata + chcpystrt) (chcpyend - chcpystrt + 1);
  wr result (curchunk * TOAST_MAX_CHUNK_SIZE - sliceoffset p + chcpystrt) data.

Fixpoint fetch_rows (p : slice_plan) (rows : list (Z * list Z)) (expectedchunk : Z) (result : list Z)
    : res (list Z) :=
  match rows with
  | [] => if negb (expectedchunk =? endchunk p + 1) then Ereport ERRCODE_DATA_CORRUPTED else Ok result
  | row :: rows =>
      result ← fetch_row p row expectedchunk result;
      fetch_rows p rows (expectedchunk + 1) result
  end.

(** The rows selected by the scan keys, in index order. *)
Definition scan_rows (p : slice_plan) (rows : list (Z * list Z)) : list (Z * list Z) :=
  if (startchunk p =? 0) && (endchunk p =? totalchunks p - 1) then rows
  else if startchunk p =? endchunk p then List.filter (fun r => fst r =? startchunk p) rows
  else List.filter (fun r => (fst r >=? startchunk p) && (fst r <=? endchunk p)) rows.

(** [result] is the data area of the caller's varlena. *)
Definition heap_fetch_toast_slice (st : store) (tr : toastrel) (valueid attrsize sliceoffset slicelength : Z)
    (result : list Z) : res (list Z) :=
  _ ← toast_open_indexes tr;
  let p := plan_slice attrsize sliceoffset slicelength in
  _ ← init_toast_snapshot st;
  fetch_rows p (scan_rows p (rows_of tr valueid)) (startchunk p) result.

(** * Chunks *)

#[global] Arguments TOAST_MAX_CHUNK_SIZE : simpl never.
#[global] Arguments toast_insert : simpl never.
#[global] Arguments fetch_row : simpl never.

Lemma chunk_size_val : TOAST_MAX_CHUNK_SIZE = 1996.
Proof. reflexivity. Qed.

(** The number of chunks of n bytes, and the rows that hold a value. *)
Definition nchunks (n : Z) : Z := (n + TOAST_MAX_CHUNK_SIZE - 1) / TOAST_MAX_CHUNK_SIZE.
Definition chunk_row (data : list Z) (i : Z) : Z * list Z :=
  (i, mk_4b_u (zslice data (i * TOAST_MAX_CHUNK_SIZE) TOAST_MAX_CHUNK_SIZE)).
Definition chunk_rows (data : list Z) (k : Z) : list (Z * list Z) := map (chunk_row data) (seqZ 0 k).

Lemma zslice_zslice l a b n m :
  0 <= a -> 0 <= b -> 0 <= m -> b + m <= n -> zslice (zslice l a n) b m = zslice l (a + b) m.
Proof.
  intros. unfold zslice. rewrite skipn_firstn_comm, take_take, drop_drop.
  replace (Z.to_nat a + Z.to_nat b)%nat with (Z.to_nat (a + b)) by lia.
  by replace (Z.to_nat m `min` _)%nat with (Z.to_nat m) by lia.
Qed.

Lemma zslice_app l a n m :
  0 <= a -> 0 <= n -> 0 <= m -> zslice l a n ++ zslice l (a + n) m = zslice l a (n + m).
Proof.
  intros. unfold zslice. replace (Z.to_nat (a + n)) with (Z.to_nat a + Z.to_nat n)%nat by lia.
  rewrite <- drop_drop. replace (Z.to_nat (n + m)) with (Z.to_nat n + Z.to_nat m)%nat by lia.
  rewrite <- (take_drop (Z.to_nat n) (take (Z.to_nat n + Z.to_nat m) (drop (Z.to_nat a) l))).
  rewrite take_take, Nat.min_l by lia. f_equal. rewrite skipn_firstn_comm. f_equal. lia.
Qed.

Lemma zslice_all l : zslice l 0 (zlen l) = l.
Proof. unfold zslice, zlen. rewrite Nat2Z.id. simpl. rewrite drop_0. by apply take_ge. Qed.

Lemma zlen_chunk data i :
  0 <= i -> i * TOAST_MAX_CHUNK_SIZE <= zlen data ->
  zlen (zslice data (i * TOAST_MAX_CHUNK_SIZE) TOAST_MAX_CHUNK_SIZE)
    = Z.min TOAST_MAX_CHUNK_SIZE (zlen data - i * TOAST_MAX_CHUNK_SIZE).
Proof. intros. unfold zslice. rewrite zlen_take, zlen_drop. rewrite chunk_size_val in *. lia. Qed.

Lemma chunk_ok data i : ok_4b_u (zslice data (i * TOAST_MAX_CHUNK_SIZE) TOAST_MAX_CHUNK_SIZE).
Proof. unfold ok_4b_u, zslice. rewrite zlen_take. rewrite chunk_size_val. lia. Qed.

Lemma chunk_rows_S data k : 0 <= k -> chunk_rows data (k + 1) = chunk_rows data k ++ [chunk_row data k].
Proof.
  intros. unfold chunk_rows. rewrite seqZ_app, map_app by lia. done.
Qed.

Lemma chunk_rows_seq data k r : In r (chunk_rows data k) -> 0 <= fst r < k.
Proof.
  unfold chunk_rows. intros (i & <- & Hi)%in_map_iff. simpl.
  apply list_elem_of_In, elem_of_seqZ in Hi. lia.
Qed.

Lemma ins_row_end seq chunk rows :
  (forall r, In r rows -> fst r < seq) -> ins_row seq chunk rows = rows ++ [(seq, chunk)].
Proof.
  induction rows as [|[s c] rows IH]; intros H; simpl; [done|].
  pose proof (H (s, c) (or_introl eq_refl)) as Hs. simpl in Hs. destruct (Z.leb_spec s seq); [|lia].
  f_equal. apply IH. intros r Hr. apply H. by right.
Qed.

Lemma existsb_no_seq seq rows :
  (forall r : Z * list Z, In r rows -> fst r < seq) -> existsb (fun r => fst r =? seq) rows = false.
Proof.
  intros H. apply not_true_is_false. intros (r & Hr & Heq)%existsb_exists.
  specialize (H r Hr). lia.
Qed.

(** ** Saving writes the chunk rows *)

Definition with_rows (tr : toastrel) (valueid : Z) (rows : list (Z * list Z)) : toastrel :=
  match rows with
  | [] => tr
  | _ => mkToastrel (tr_oid tr) (tr_indexes tr) (<[valueid := rows]> (tr_rows tr)) (tr_dead tr)
  end.

Lemma rows_of_with tr valueid rows :
  rows_of tr valueid = [] -> rows_of (with_rows tr valueid rows) valueid = rows.
Proof.
  intros H. destruct rows as [|r rows]; [done|]. unfold rows_of. simpl. by rewrite lookup_insert_eq.
Qed.

Lemma insert_chunk tr valueid data k :
  rows_of tr valueid = [] -> 0 <= k ->
  toast_insert (with_rows tr valueid (chunk_rows data k)) valueid k (snd (chunk_row data k))
  = Ok (with_rows tr valueid (chunk_rows data (k + 1))).
Proof.
  intros Hr Hk. unfold toast_insert. rewrite rows_of_with by done.
  rewrite existsb_no_seq by (intros r Hin%chunk_rows_seq; lia). rewrite andb_false_r.
  rewrite ins_row_end by (intros r Hin%chunk_rows_seq; lia).
  rewrite chunk_rows_S by done. destruct (chunk_rows data k) as [|r rows] eqn:E; simpl; [done|].
  by rewrite insert_insert_eq.
Qed.

Lemma chunk_datum data i :
  zlen data < 2 ^ 31 -> 0 <= i -> i * TOAST_MAX_CHUNK_SIZE < zlen data ->
  let n := Z.min TOAST_MAX_CHUNK_SIZE (zlen data - i * TOAST_MAX_CHUNK_SIZE) in
  SET_VARSIZE (zrep VARHDRSZ 0 ++ zslice data (i * TOAST_MAX_CHUNK_SIZE) n) (n + VARHDRSZ)
  = snd (chunk_row data i).
Proof.
  intros Hd Hi Hlt n. unfold chunk_row, SET_VARSIZE, SET_VARSIZE_4B, mk_4b_u. simpl snd.
  rewrite zlen_chunk by lia. fold n.
  assert (Hn : 0 < n <= 1996) by (unfold n; rewrite chunk_size_val in *; lia).
  unfold wrap32, VARHDRSZ. rewrite Z.mod_small by lia. rewrite Z.shiftl_mul_pow2 by lia.
  change (2 ^ 2) with 4. rewrite (Z.mul_comm (n + 4)). f_equal.
  change (drop 4 (zrep 4 0 ++ ?x)) with x. unfold zslice, n.
  destruct (Z.le_gt_cases TOAST_MAX_CHUNK_SIZE (zlen data - i * TOAST_MAX_CHUNK_SIZE)).
  - by rewrite Z.min_l by lia.
  - rewrite Z.min_r by lia. rewrite !take_ge; [done|..]; rewrite length_drop; unfold zlen in *; lia.
Qed.

(** The loop of toast_save_datum stores the chunk rows of the data. *)
Lemma save_loop tr dval valueid p0 data :
  rows_of tr valueid = [] -> zlen data < 2 ^ 31 ->
  (forall i n, 0 <= i -> 0 <= n -> i + n <= zlen data -> rdn dval (p0 + i) n = Ok (zslice data i n)) ->
  returns (iter (S (Z.to_nat (zlen data))) (save_chunk_body dval valueid) (tr, 0, p0, zlen data))
    (eq (with_rows tr valueid (chunk_rows data (nchunks (zlen data))))).
Proof.
  intros Hr Hd Hrd. pose proof (zlen_nonneg data).
  apply (iter_returns
    (fun '(tr', seq, p, todo) => 0 <= seq <= nchunks (zlen data) /\
       p = p0 + Z.min (zlen data) (seq * TOAST_MAX_CHUNK_SIZE) /\
       todo = Z.max 0 (zlen data - seq * TOAST_MAX_CHUNK_SIZE) /\
       tr' = with_rows tr valueid (chunk_rows data seq))
    (fun '(_, _, _, todo) => Z.to_nat todo)); [| |lia].
  - intros [[[tr' seq] p] todo] (Hseq & -> & -> & ->). unfold save_chunk_body, nchunks in *.
    rewrite chunk_size_val in *. destruct (Z.gtb_spec (Z.max 0 (zlen data - seq * 1996)) 0).
    + rewrite Z.max_r, Z.min_r by lia. rewrite Hrd by lia. cbn [mbind res_bind].
      pose proof (chunk_datum data seq Hd ltac:(lia)) as Hcd. rewrite chunk_size_val in Hcd.
      cbv zeta in Hcd. rewrite Hcd by lia. rewrite insert_chunk by (done || lia). cbn [mbind res_bind returns].
      split; [|lia]. split_and!; try lia. done.
    + simpl. assert (seq = (zlen data + 1996 - 1) / 1996) by lia. by subst seq.
  - unfold nchunks. rewrite chunk_size_val. split_and!; try lia; done.
Qed.

(** ** Fetching a slice of the chunk rows *)

Section fetch.
Context (data : list Z) (off len : Z).
Context (Hd : zlen data < 2 ^ 31) (Hoff : 0 <= off) (Hlen : 0 < len) (Hend : off + len <= zlen data).
Local Abbreviation C := TOAST_MAX_CHUNK_SIZE.
Local Abbreviation p := (plan_slice (zlen data) off len).

Lemma plan_total : totalchunks p = nchunks (zlen data).
Proof.
  simpl. unfold size_t, nchunks. rewrite Z.mod_small by lia. rewrite chunk_size_val.
  rewrite int32_small; lia.
Qed.
Lemma plan_start : startchunk p = off / C.
Proof. simpl. unfold size_t. rewrite Z.mod_small by lia. rewrite chunk_size_val. apply int32_small. lia. Qed.
Lemma plan_end : endchunk p = (off + len - 1) / C.
Proof. simpl. unfold size_t. rewrite Z.mod_small by lia. rewrite chunk_size_val. apply int32_small. lia. Qed.

(** Bytes of the slice that come before chunk e. *)
Definition fetched (e : Z) : Z := if e =? off / C then 0 else Z.min len (e * C - off).

Lemma chunk_info_row i : chunk_info (mk_4b_u (zslice data (i * C) C)) = Ok (zlen (zslice data (i * C) C), VARDATA).
Proof.
  unfold chunk_info, VARATT_IS_EXTENDED. rewrite <- (app_nil_r (mk_4b_u _)). autorewrite with varatt.
  cbn [mbind res_bind negb]. unfold VARSIZE. rewrite varsize_4b_u by apply chunk_ok. cbn [mbind res_bind].
  do 2 f_equal. unfold VARHDRSZ. lia.
Qed.

Lemma rdn_chunk i strt n :
  0 <= i -> i * C <= zlen data -> 0 <= strt -> 0 <= n -> strt + n <= zlen (zslice data (i * C) C) ->
  rdn (mk_4b_u (zslice data (i * C) C)) (VARDATA + strt) n = Ok (zslice data (i * C + strt) n).
Proof.
  intros Hi HiC Hs Hn Hle. rewrite zlen_chunk in Hle by done. unfold VARDATA.
  rewrite rdn_Ok by (rewrite ?zlen_4b_u, ?zlen_chunk by done; lia). f_equal.
  unfold mk_4b_u, zslice at 1. replace (Z.to_nat (4 + strt)) with (4 + Z.to_nat strt)%nat by lia.
  rewrite <- drop_drop. change (drop 4 (le32 ?z ++ ?k)) with k.
  fold (zslice (zslice data (i * C) C) strt n). apply zslice_zslice; rewrite chunk_size_val in *; lia.
Qed.

(** One row: the next part of the slice is appended to what has been fetched. *)
Lemma fetch_row_ok e rest :
  off / C <= e <= (off + len - 1) / C -> fetched e + zlen rest = len ->
  exists rest', fetch_row p (chunk_row data e) e (zslice data off (fetched e) ++ rest)
    = Ok (zslice data off (fetched (e + 1)) ++ rest') /\ fetched (e + 1) + zlen rest' = len.
Proof.
  intros He Hrest. unfold fetch_row, chunk_row. rewrite chunk_info_row. cbn [mbind res_bind].
  rewrite Z.eqb_refl. cbn [negb]. rewrite plan_end, plan_start, plan_total.
  simpl (attrsize p). simpl (sliceoffset p). simpl (slicelength p).
  unfold fetched, nchunks, size_t in *. rewrite !(Z.mod_small _ (2 ^ 64)) by lia.
  pose proof (zlen_chunk data e) as Hzc. rewrite chunk_size_val in *.
  destruct (Z.gtb_spec e ((off + len - 1) / 1996)); [lia|].
  rewrite Hzc by lia.
  set (es := if e <? (zlen data + 1996 - 1) / 1996 - 1 then _ else _).
  assert (es = Z.min 1996 (zlen data - e * 1996)) as -> by (unfold es; ztests; lia).
  rewrite Z.eqb_refl. cbn [negb].
  set (strt := if e =? off / 1996 then off mod 1996 else 0).
  set (en := if e =? (off + len - 1) / 1996 then (off + len - 1) mod 1996
             else Z.min 1996 (zlen data - e * 1996) - 1).
  set (f := if e =? off / 1996 then 0 else Z.min len (e * 1996 - off)) in *.
  set (f' := if e + 1 =? off / 1996 then 0 else Z.min len ((e + 1) * 1996 - off)).
  assert (Hst : 0 <= strt /\ e * 1996 + strt = off + f) by (unfold strt, f; ztests; lia).
  assert (Hf : 0 <= f) by (unfold f; ztests; lia).
  assert (Hcp : en - strt + 1 = f' - f /\ 0 <= f' - f /\ strt + (f' - f) <= Z.min 1996 (zlen data - e * 1996) /\ f' <= len).
  { unfold en, f', f, strt in *. ztests; lia. }
  destruct Hcp as (Hcp & Hpos & Hin & Hf'). rewrite Hcp.
  pose proof (rdn_chunk e strt (f' - f)) as Hrc. rewrite chunk_size_val in Hrc.
  rewrite Hrc by (rewrite ?Hzc by lia; lia). cbn [mbind res_bind].
  replace (e * 1996 - off + strt) with (zlen (zslice data off f)) by (rewrite zlen_zslice; lia).
  rewrite (proj2 Hst).
  assert (Hzl : zlen (zslice data (off + f) (f' - f)) = f' - f) by (rewrite zlen_zslice; lia).
  rewrite wr_append by lia. eexists. split.
  - rewrite zslice_app by lia. replace (f + (f' - f)) with f' by lia. reflexivity.
  - rewrite zlen_drop. change (Z.of_nat (length ?x)) with (zlen x). rewrite Hzl. lia.
Qed.

Lemma fetch_rows_ok k : forall e rest,
  off / C <= e -> e + Z.of_nat k = (off + len - 1) / C + 1 -> fetched e + zlen rest = len ->
  fetch_rows p (map (chunk_row data) (seqZ e (Z.of_nat k))) e (zslice data off (fetched e) ++ rest)
  = Ok (zslice data off len).
Proof.
  induction k as [|k IH]; intros e rest He Hk Hr.
  - change (map _ (seqZ e (Z.of_nat 0))) with (@nil (Z * list Z)). cbn [fetch_rows].
    rewrite plan_end. replace (e =? (off + len - 1) / C + 1) with true by lia. cbn [negb].
    assert (Hf : fetched e = len).
    { unfold fetched in *. rewrite chunk_size_val in *. destruct (Z.eqb_spec e (off / 1996)); lia. }
    rewrite Hf in *. rewrite (zlen_0_nil rest) by lia. by rewrite app_nil_r.
  - rewrite seqZ_cons by lia. cbn [map fetch_rows].
    destruct (fetch_row_ok e rest) as (rest' & -> & Hr'); [lia|done|]. cbn [mbind res_bind].
    replace (Z.pred (Z.of_nat (S k))) with (Z.of_nat k) by lia.
    replace (Z.succ e) with (e + 1) by lia. apply IH; lia.
Qed.

Lemma filter_rows_range (f : Z * list Z -> bool) a b n :
  0 <= a -> a <= b -> b < n ->
  (forall i, f (chunk_row data i) = (a <=? i) && (i <=? b)) ->
  List.filter f (chunk_rows data n) = map (chunk_row data) (seqZ a (b - a + 1)).
Proof.
  intros Ha Hab Hbn Hf. unfold chunk_rows.
  replace n with (a + ((b - a + 1) + (n - b - 1))) by lia.
  rewrite seqZ_app, map_app, List.filter_app by lia. rewrite seqZ_app, map_app, List.filter_app by lia.
  assert (Hno : forall s k, (forall i, s <= i < s + k -> f (chunk_row data i) = false) ->
    List.filter f (map (chunk_row data) (seqZ s k)) = []).
  { intros s k Hn. assert (Hall : forall l, (forall i, i ∈ l -> f (chunk_row data i) = false) ->
      List.filter f (map (chunk_row data) l) = []).
    { induction l as [|i l IH]; intros Hl; [done|]. simpl. rewrite Hl by (by left). apply IH.
      intros j Hj. apply Hl. by right. }
    apply Hall. intros i Hi%elem_of_seqZ. apply Hn. lia. }
  rewrite (Hno 0 a) by (intros; rewrite Hf; lia).
  rewrite (Hno _ (n - b - 1)) by (intros; rewrite Hf; lia). rewrite app_nil_r. simpl.
  assert (Hall : forall l, (forall i, i ∈ l -> f (chunk_row data i) = true) ->
    List.filter f (map (chunk_row data) l) = map (chunk_row data) l).
  { induction l as [|i l IH]; intros Hl; [done|]. simpl. rewrite Hl by (by left). f_equal. apply IH.
    intros j Hj. apply Hl. by right. }
  apply Hall. intros i Hi%elem_of_seqZ. rewrite Hf. lia.
Qed.

Lemma scan_rows_ok :
  scan_rows p (chunk_rows data (nchunks (zlen data))) =
  map (chunk_row data) (seqZ (off / C) ((off + len - 1) / C - off / C + 1)).
Proof.
  unfold scan_rows. rewrite plan_start, plan_end, plan_total.
  assert (H : 0 <= off / C <= (off + len - 1) / C /\ (off + len - 1) / C < nchunks (zlen data)).
  { unfold nchunks. rewrite chunk_size_val. lia. }
  destruct (Z.eqb_spec (off / C) 0) as [H0|]; cbn [andb].
  - destruct (Z.eqb_spec ((off + len - 1) / C) (nchunks (zlen data) - 1)) as [He|].
    + unfold chunk_rows. rewrite H0, He. do 2 f_equal. lia.
    + destruct (Z.eqb_spec (off / C) ((off + len - 1) / C)) as [He|];
        apply filter_rows_range; try lia; intros i; simpl; lia.
  - destruct (Z.eqb_spec (off / C) ((off + len - 1) / C)) as [He|];
      apply filter_rows_range; try lia; intros i; simpl; lia.
Qed.

(** Fetching a slice of a stored value. *)
Lemma heap_fetch_ok st tr valueid result i :
  rows_of tr valueid = chunk_rows data (nchunks (zlen data)) ->
  toast_open_indexes tr = Ok i -> st_snapshot st = true -> zlen result = len ->
  heap_fetch_toast_slice st tr valueid (zlen data) off len result = Ok (zslice data off len).
Proof.
  intros Hr Hi Hsn Hres. unfold heap_fetch_toast_slice. rewrite Hi. cbn [mbind res_bind].
  unfold init_toast_snapshot. rewrite Hsn. cbn [mbind res_bind]. rewrite Hr, scan_rows_ok, plan_start.
  assert (H : 0 <= off / C <= (off + len - 1) / C) by (rewrite chunk_size_val; lia).
  pose proof (fetch_rows_ok (Z.to_nat ((off + len - 1) / C - off / C + 1)) (off / C) result) as Hf.
  rewrite Z2Nat.id in Hf by lia. unfold fetched in Hf. rewrite Z.eqb_refl in Hf. simpl app in Hf.
  apply Hf; lia.
Qed.
End fetch.
