(* ===== verification/Detoast.v ===== *)
(** Reading toasted values: src/backend/access/common/detoast.c.

    [holds E v data] says that the datum [v] stands for the contents [data], in any of
    the forms the toaster uses: plain, short, compressed in line, out of line plain or
    compressed, an indirect pointer, an expanded object.  The theorems say that every
    entry point agrees with it, and that storing a value establishes it. *)

From S2P Require Import Prelude Rle Varatt Pglz PglzHist PglzItems PglzCodec ToastCompression Oids ToastStore.

(** What detoasting looks at: the compression code's environment, the database, the
    memory that indirect pointers point to, and the flat form of expanded objects,
    which the methods of their types produce. *)
Record env := {
  e_cfg : config;
  e_store : store;
  e_mem : gmap Z (list Z);
  e_flat : gmap Z (list Z)
}.

Definition rd64 (l : list Z) (i : Z) : res Z :=
  a ← rd32 l i; b ← rd32 l (i + 4); Ok (a + 2 ^ 32 * b).
Definition deref (m : gmap Z (list Z)) (a : Z) : res (list Z) :=
  match m !! a with Some v => Ok v | None => Ub end.

Section detoast.
Context (E : env).

(** The header of a fetched datum of [size] data bytes. *)
Definition fetch_header (tp : varatt_external) (size : Z) : list Z :=
  let result := zrep (size + VARHDRSZ) 0 in
  if VARATT_EXTERNAL_IS_COMPRESSED tp then SET_VARSIZE_COMPRESSED result (size + VARHDRSZ)
  else SET_VARSIZE result (size + VARHDRSZ).

(** table_relation_fetch_toast_slice into the data area of [result]. *)
Definition fetch_into (tp : varatt_external) (attrsize off len : Z) (result : list Z) : res (list Z) :=
  tr ← table_open (e_store E) (va_toastrelid tp);
  data ← heap_fetch_toast_slice (e_store E) tr (va_valueid tp) attrsize off len (drop 4 result);
  Ok (take 4 result ++ data).

Definition toast_fetch_datum (attr : list Z) : res (list Z) :=
  o ← VARATT_IS_EXTERNAL_ONDISK attr;
  if negb o then Ereport ERRCODE_INTERNAL_ERROR else
  tp ← VARATT_EXTERNAL_GET_POINTER attr;
  let attrsize := int32_of (VARATT_EXTERNAL_GET_EXTSIZE tp) in
  _ ← palloc (attrsize + VARHDRSZ);
  let result := fetch_header tp attrsize in
  if attrsize =? 0 then Ok result else fetch_into tp attrsize 0 attrsize result.

Definition toast_fetch_datum_slice (attr : list Z) (sliceoffset slicelength : Z) : res (list Z) :=
  o ← VARATT_IS_EXTERNAL_ONDISK attr;
  if negb o then Ereport ERRCODE_INTERNAL_ERROR else
  tp ← VARATT_EXTERNAL_GET_POINTER attr;
  let attrsize := int32_of (VARATT_EXTERNAL_GET_EXTSIZE tp) in
  let '(sliceoffset, slicelength) :=
    if sliceoffset >=? attrsize then (0, 0) else (sliceoffset, slicelength) in
  let slicelength :=
    if VARATT_EXTERNAL_IS_COMPRESSED tp && (slicelength >? 0) then slicelength + 4 else slicelength in
  let slicelength :=
    if (sliceoffset + slicelength >? attrsize) || (slicelength <? 0)
    then attrsize - sliceoffset else slicelength in
  _ ← palloc (slicelength + VARHDRSZ);
  let result := fetch_header tp slicelength in
  if slicelength =? 0 then Ok result else fetch_into tp attrsize sliceoffset slicelength result.

(** The pointer in an indirect or an expanded datum, and what it points to. *)
Definition indirect_pointer (attr : list Z) : res (list Z) := a ← rd64 attr 2; deref (e_mem E) a.
Definition flat_form (attr : list Z) : res (list Z) := eoh ← rd64 attr 2; deref (e_flat E) eoh.
Definition EOH_get_flat_size (attr : list Z) : res Z := flat ← flat_form attr; Ok (zlen flat).
Definition flatten (attr : list Z) : res (list Z) :=
  resultsize ← EOH_get_flat_size attr; _ ← palloc resultsize; flat_form attr.

(** memcpy of VARSIZE_ANY(attr) bytes into new memory *)
Definition copy_datum (attr : list Z) : res (list Z) :=
  sz ← VARSIZE_ANY attr; _ ← palloc sz; rdn attr 0 sz.

(** Nested indirect datums aren't allowed, so that the recursion has two levels. *)
Fixpoint detoast_external_attr_n (depth : nat) (attr : list Z) : res (list Z) :=
  match depth with
  | O => Fuel
  | S depth =>
      ondisk ← VARATT_IS_EXTERNAL_ONDISK attr;
      if (ondisk : bool) then toast_fetch_datum attr else
      indirect ← VARATT_IS_EXTERNAL_INDIRECT attr;
      if (indirect : bool) then
        attr ← indirect_pointer attr;
        e ← VARATT_IS_EXTERNAL attr;
        if (e : bool) then detoast_external_attr_n depth attr else copy_datum attr
      else
      expanded ← VARATT_IS_EXTERNAL_EXPANDED attr;
      if (expanded : bool) then flatten attr else Ok attr
  end.
Definition detoast_external_attr := detoast_external_attr_n 2.

(** Short header to four-byte header. *)
Definition unshort (attr : list Z) : res (list Z) :=
  sz ← VARSIZE_SHORT attr;
  let data_size := sz - VARHDRSZ_SHORT in
  let new_size := data_size + VARHDRSZ in
  _ ← palloc new_size;
  data ← rdn attr VARDATA_SHORT data_size;
  Ok (SET_VARSIZE (zrep VARHDRSZ 0 ++ data) new_size).

(** detoast_attr; [inl] returns its argument, [inr] a new datum. *)
Fixpoint detoast_attr_n (depth : nat) (attr : list Z) : res (list Z + list Z) :=
  match depth with
  | O => Fuel
  | S depth =>
      ondisk ← VARATT_IS_EXTERNAL_ONDISK attr;
      if (ondisk : bool) then
        attr ← toast_fetch_datum attr;
        c ← VARATT_IS_COMPRESSED attr;
        if (c : bool) then r ← toast_decompress_datum (e_cfg E) attr; Ok (inr r) else Ok (inr attr)
      else
      indirect ← VARATT_IS_EXTERNAL_INDIRECT attr;
      if (indirect : bool) then
        pointer ← indirect_pointer attr;
        r ← detoast_attr_n depth pointer;
        match r with
        | inl attr => r ← copy_datum attr; Ok (inr r)
        | inr attr => Ok (inr attr)
        end
      else
      expanded ← VARATT_IS_EXTERNAL_EXPANDED attr;
      if (expanded : bool) then r ← detoast_external_attr attr; Ok (inr r) else
      c ← VARATT_IS_COMPRESSED attr;
      if (c : bool) then r ← toast_decompress_datum (e_cfg E) attr; Ok (inr r) else
      s ← VARATT_IS_SHORT attr;
      if (s : bool) then r ← unshort attr; Ok (inr r) else Ok (inl attr)
  end.
Definition detoast_attr (attr : list Z) : res (list Z) :=
  r ← detoast_attr_n 2 attr; Ok (match r with inl a => a | inr a => a end).

(** slicelength and slicelimit after the overflow check *)
Definition slice_limit (sliceoffset slicelength : Z) : Z * Z :=
  if slicelength <? 0 then (slicelength, -1)
  else if sliceoffset + slicelength >? INT_MAX then (-1, -1)
  else (slicelength, sliceoffset + slicelength).

(** The end of detoast_attr_slice: decompress as much as needed and cut the slice out. *)
Definition cut_slice (preslice : list Z) (sliceoffset slicelength slicelimit : Z) : res (list Z) :=
  c ← VARATT_IS_COMPRESSED preslice;
  preslice ← (if (c : bool) then
                if slicelimit >=? 0 then toast_decompress_datum_slice (e_cfg E) preslice slicelimit
                else toast_decompress_datum (e_cfg E) preslice
              else Ok preslice);
  s ← VARATT_IS_SHORT preslice;
  x ← (if (s : bool) then sz ← VARSIZE_SHORT preslice; Ok (VARDATA_SHORT, sz - VARHDRSZ_SHORT)
       else sz ← VARSIZE preslice; Ok (VARDATA, sz - VARHDRSZ));
  let '(attrdata, attrsize) := x in
  let '(sliceoffset, slicelength) :=
    if sliceoffset >=? attrsize then (0, 0)
    else if (slicelength <? 0) || (slicelimit >? attrsize) then (sliceoffset, attrsize - sliceoffset)
    else (sliceoffset, slicelength) in
  _ ← palloc (slicelength + VARHDRSZ);
  data ← rdn preslice (attrdata + sliceoffset) slicelength;
  Ok (SET_VARSIZE (zrep VARHDRSZ 0 ++ data) (slicelength + VARHDRSZ)).

Fixpoint detoast_attr_slice_n (depth : nat) (attr : list Z) (sliceoffset slicelength : Z) : res (list Z) :=
  match depth with
  | O => Fuel
  | S depth =>
      if sliceoffset <? 0 then Ereport ERRCODE_INTERNAL_ERROR else
      let '(slicelength, slicelimit) := slice_limit sliceoffset slicelength in
      ondisk ← VARATT_IS_EXTERNAL_ONDISK attr;
      if (ondisk : bool) then
        tp ← VARATT_EXTERNAL_GET_POINTER attr;
        if negb (VARATT_EXTERNAL_IS_COMPRESSED tp) then toast_fetch_datum_slice attr sliceoffset slicelength else
        preslice ←
          (if slicelimit >=? 0 then
             let max_size := int32_of (VARATT_EXTERNAL_GET_EXTSIZE tp) in
             let max_size :=
               if VARATT_EXTERNAL_GET_COMPRESS_METHOD tp =? TOAST_PGLZ_COMPRESSION_ID
               then pglz_maximum_compressed_size slicelimit max_size else max_size in
             toast_fetch_datum_slice attr 0 max_size
           else toast_fetch_datum attr);
        cut_slice preslice sliceoffset slicelength slicelimit
      else
      indirect ← VARATT_IS_EXTERNAL_INDIRECT attr;
      if (indirect : bool) then
        pointer ← indirect_pointer attr;
        detoast_attr_slice_n depth pointer sliceoffset slicelength
      else
      expanded ← VARATT_IS_EXTERNAL_EXPANDED attr;
      preslice ← (if (expanded : bool) then detoast_external_attr attr else Ok attr);
      cut_slice preslice sliceoffset slicelength slicelimit
  end.
Definition detoast_attr_slice := detoast_attr_slice_n 2.

Fixpoint toast_raw_datum_size_n (depth : nat) (attr : list Z) : res Z :=
  match depth with
  | O => Fuel
  | S depth =>
      ondisk ← VARATT_IS_EXTERNAL_ONDISK attr;
      if (ondisk : bool) then tp ← VARATT_EXTERNAL_GET_POINTER attr; Ok (va_rawsize tp) else
      indirect ← VARATT_IS_EXTERNAL_INDIRECT attr;
      if (indirect : bool) then pointer ← indirect_pointer attr; toast_raw_datum_size_n depth pointer else
      expanded ← VARATT_IS_EXTERNAL_EXPANDED attr;
      if (expanded : bool) then EOH_get_flat_size attr else
      c ← VARATT_IS_COMPRESSED attr;
      if (c : bool) then sz ← VARDATA_COMPRESSED_GET_EXTSIZE attr; Ok (sz + VARHDRSZ) else
      s ← VARATT_IS_SHORT attr;
      if (s : bool) then sz ← VARSIZE_SHORT attr; Ok (sz - VARHDRSZ_SHORT + VARHDRSZ) else VARSIZE attr
  end.
Definition toast_raw_datum_size := toast_raw_datum_size_n 2.

Fixpoint toast_datum_size_n (depth : nat) (attr : list Z) : res Z :=
  match depth with
  | O => Fuel
  | S depth =>
      ondisk ← VARATT_IS_EXTERNAL_ONDISK attr;
      if (ondisk : bool) then tp ← VARATT_EXTERNAL_GET_POINTER attr; Ok (VARATT_EXTERNAL_GET_EXTSIZE tp) else
      indirect ← VARATT_IS_EXTERNAL_INDIRECT attr;
      if (indirect : bool) then pointer ← indirect_pointer attr; toast_datum_size_n depth pointer else
      expanded ← VARATT_IS_EXTERNAL_EXPANDED attr;
      if (expanded : bool) then EOH_get_flat_size attr else
      s ← VARATT_IS_SHORT attr;
      if (s : bool) then VARSIZE_SHORT attr else VARSIZE attr
  end.
Definition toast_datum_size := toast_datum_size_n 2.

(** fmgr.c: the argument macros PG_GETARG_TEXT_P, PG_GETARG_TEXT_PP and
    DatumGetTextPSlice. *)
Definition pg_detoast_datum (datum : list Z) : res (list Z) :=
  e ← VARATT_IS_EXTENDED datum; if (e : bool) then detoast_attr datum else Ok datum.
Definition pg_detoast_datum_packed (datum : list Z) : res (list Z) :=
  c ← VARATT_IS_COMPRESSED datum;
  if (c : bool) then detoast_attr datum else
  e ← VARATT_IS_EXTERNAL datum;
  if (e : bool) then detoast_attr datum else Ok datum.
Definition pg_detoast_datum_slice (datum : list Z) (first count : Z) : res (list Z) :=
  detoast_attr_slice datum first count.
End detoast.

#[global] Arguments toast_decompress_datum : simpl never.
#[global] Arguments toast_decompress_datum_slice : simpl never.
#[global] Arguments heap_fetch_toast_slice : simpl never.
#[global] Arguments detoast_attr_n : simpl never.
#[global] Arguments detoast_external_attr_n : simpl never.
#[global] Arguments detoast_attr_slice_n : simpl never.
#[global] Arguments toast_raw_datum_size_n : simpl never.
#[global] Arguments toast_datum_size_n : simpl never.

(** * What a datum stands for *)

(** The rows of the toast table hold the bytes [ext]; no rows are needed for none. *)
Definition stored (st : store) (tp : varatt_external) (ext : list Z) : Prop :=
  zlen ext = 0 \/
  exists tr i, st_rels st !! va_toastrelid tp = Some tr /\ toast_open_indexes tr = Ok i /\
    rows_of tr (va_valueid tp) = chunk_rows ext (nchunks (zlen ext)) /\ st_snapshot st = true.

(** The toast pointer describes [ext]: what is out of line, compressed or not. *)
Inductive pointer_to (c : config) (tp : varatt_external) : list Z -> list Z -> Prop :=
| to_plain data :
    va_rawsize tp = zlen data + 4 -> va_extinfo tp = zlen data -> pointer_to c tp data data
| to_compressed id payload data :
    va_rawsize tp = zlen data + 4 -> va_extinfo tp = zlen payload + 4 + id * 2 ^ 30 ->
    zlen payload + 4 < zlen data -> ok_4b_c (zlen data) id payload -> compressed_as c id payload data ->
    pointer_to c tp (le32 (zlen data + id * 2 ^ 30) ++ payload) data.

(** The datum [v] stands for [data]: every form but an indirect pointer. *)
Inductive direct (E : env) : list Z -> list Z -> Prop :=
| direct_inline v data : inline_value v data -> direct E v data
| direct_compressed id payload data t :
    compressed_as (e_cfg E) id payload data -> ok_4b_u data -> ok_4b_c (zlen data) id payload ->
    direct E (mk_4b_c (zlen data) id payload ++ t) data
| direct_ondisk tp ext data t :
    ok_ondisk tp -> ok_4b_u data -> pointer_to (e_cfg E) tp ext data -> stored (e_store E) tp ext ->
    direct E (mk_ondisk tp ++ t) data
| direct_expanded tag addr data t :
    tag = VARTAG_EXPANDED_RO \/ tag = VARTAG_EXPANDED_RW -> 0 <= addr < 2 ^ 64 -> ok_4b_u data ->
    e_flat E !! addr = Some (mk_4b_u data) -> direct E (mk_pointer tag addr ++ t) data.

Inductive holds (E : env) : list Z -> list Z -> Prop :=
| holds_direct v data : direct E v data -> holds E v data
| holds_indirect addr v data t :
    0 <= addr < 2 ^ 64 -> e_mem E !! addr = Some v -> direct E v data ->
    holds E (mk_pointer VARTAG_INDIRECT addr ++ t) data.

(** The value is compressed by RLE, or points to one that is. *)
Definition rle_compressed (E : env) (v : list Z) : Prop :=
  toast_get_compression_id v = Ok TOAST_RLE_COMPRESSION_ID \/
  exists addr t w, v = mk_pointer VARTAG_INDIRECT addr ++ t /\ e_mem E !! addr = Some w /\
    toast_get_compression_id w = Ok TOAST_RLE_COMPRESSION_ID.

(** The first n bytes of the value can be decompressed in the memory that is allocated for
    them; only an RLE value may need more. *)
Definition slice_fits (E : env) (v data : list Z) (n : Z) : Prop :=
  rle_compressed E v -> 0 <= n < zlen data -> slice_room (e_cfg E) data n.

(** ** Fetching *)

Lemma rd64_pointer tag addr t : 0 <= addr < 2 ^ 64 -> rd64 (mk_pointer tag addr ++ t) 2 = Ok addr.
Proof.
  intros Ha. unfold rd64, mk_pointer. rewrite <- !app_comm_cons, <- app_assoc.
  change (1 :: tag :: ?x) with ([1; tag] ++ x).
  rewrite (rd32_middle _ (addr mod 2 ^ 32) _ 2) by (done || lia). rewrite app_assoc.
  rewrite (rd32_middle _ (addr / 2 ^ 32) _ (2 + 4)) by (done || lia). cbn [mbind res_bind]. f_equal. lia.
Qed.

Lemma zslice_full_take l n : zlen l <= n -> zslice l 0 n = l.
Proof. intros. unfold zslice. rewrite drop_0. apply take_ge. unfold zlen in *. lia. Qed.

(** The header word that goes with a toast pointer. *)
Definition fetched_header (tp : varatt_external) (n : Z) : list Z :=
  le32 (4 * (n + 4) + (if VARATT_EXTERNAL_IS_COMPRESSED tp then 2 else 0)).

Lemma fetch_header_eq tp n :
  0 <= n -> n + 4 < 2 ^ 30 -> fetch_header tp n = fetched_header tp n ++ zrep n 0.
Proof.
  intros Hn Hlt. unfold fetch_header, fetched_header, SET_VARSIZE_COMPRESSED, SET_VARSIZE, SET_VARSIZE_4B,
    SET_VARSIZE_4B_C, VARHDRSZ, wrap32.
  rewrite Z.mod_small by lia. rewrite Z.shiftl_mul_pow2 by lia. rewrite <- (zrep_app n 4) by lia.
  assert (Hdrop : drop 4 (zrep n 0 ++ zrep 4 0) = zrep n 0).
  { rewrite (zrep_app n 4) by lia. replace (n + 4) with (4 + n) by lia. by rewrite <- zrep_app by lia. }
  destruct (VARATT_EXTERNAL_IS_COMPRESSED tp); rewrite Hdrop; do 2 f_equal; [|lia].
  rewrite (lor_disjoint (n + 4) 2 2) by lia. lia.
Qed.

Section fetching.
Context (E : env) (tp : varatt_external) (ext t : list Z).
Context (Hok : ok_ondisk tp) (Hst : stored (e_store E) tp ext).
Context (Hext : VARATT_EXTERNAL_GET_EXTSIZE tp = zlen ext) (Hsz : zlen ext + 4 < 2 ^ 30).
Local Abbreviation v := (mk_ondisk tp ++ t).

Lemma fetch_into_ok off len :
  0 <= off -> 0 < len -> off + len <= zlen ext ->
  fetch_into E tp (zlen ext) off len (fetch_header tp len) = Ok (fetched_header tp len ++ zslice ext off len).
Proof.
  intros Hoff Hlen Hend. destruct Hst as [H0|(tr & i & Hrel & Hi & Hrows & Hsn)]; [lia|].
  rewrite fetch_header_eq by lia. unfold fetch_into, table_open. rewrite Hrel. cbn [mbind res_bind].
  change (drop 4 (fetched_header tp len ++ ?x)) with x.
  rewrite (heap_fetch_ok ext off len) with (i := i) by (done || lia || zl). done.
Qed.

Lemma ondisk_test : VARATT_IS_EXTERNAL_ONDISK v = Ok true.
Proof. done. Qed.

(** toast_fetch_datum returns all that is out of line. *)
Lemma toast_fetch_datum_ok : toast_fetch_datum E v = Ok (fetched_header tp (zlen ext) ++ ext).
Proof.
  unfold toast_fetch_datum. rewrite ondisk_test. cbn [mbind res_bind negb].
  rewrite get_pointer_e by done. cbn [mbind res_bind]. rewrite Hext. pose proof (zlen_nonneg ext).
  rewrite int32_small by lia. rewrite palloc_ok by (unfold VARHDRSZ, MaxAllocSize; lia). cbn [mbind res_bind].
  destruct (Z.eqb_spec (zlen ext) 0) as [H0|].
  - rewrite fetch_header_eq by lia. rewrite H0. by rewrite (zlen_0_nil ext H0).
  - rewrite fetch_into_ok by lia. by rewrite zslice_all.
Qed.

(** A slice of what is out of line; [off] is past the end only for an empty result. *)
Lemma toast_fetch_datum_slice_ok off len :
  let n := if VARATT_EXTERNAL_IS_COMPRESSED tp && (len >? 0) then len + 4 else len in
  let n := if (off + n >? zlen ext) || (n <? 0) then zlen ext - off else n in
  0 <= off < zlen ext ->
  toast_fetch_datum_slice E v off len = Ok (fetched_header tp n ++ zslice ext off n).
Proof.
  intros n0 n Hoff. unfold toast_fetch_datum_slice. rewrite ondisk_test. cbn [mbind res_bind negb].
  rewrite get_pointer_e by done. cbn [mbind res_bind]. rewrite Hext.
  rewrite int32_small by lia. destruct (Z.geb_spec off (zlen ext)); [lia|]. fold n0. fold n.
  assert (Hn : 0 <= n /\ off + n <= zlen ext) by (unfold n; clearbody n0;
    destruct (Z.gtb_spec (off + n0) (zlen ext)), (Z.ltb_spec n0 0); cbn [orb]; lia).
  rewrite palloc_ok by (unfold VARHDRSZ, MaxAllocSize; lia). cbn [mbind res_bind].
  destruct (Z.eqb_spec n 0) as [H0|].
  - rewrite fetch_header_eq by lia. rewrite H0. by rewrite (zlen_0_nil (zslice ext off 0)) by zl.
  - by apply fetch_into_ok; lia.
Qed.

Lemma toast_fetch_datum_slice_past off len :
  zlen ext <= off -> toast_fetch_datum_slice E v off len = Ok (fetched_header tp 0).
Proof.
  intros Hoff. unfold toast_fetch_datum_slice. rewrite ondisk_test. cbn [mbind res_bind negb].
  rewrite get_pointer_e by done. cbn [mbind res_bind]. rewrite Hext. pose proof (zlen_nonneg ext).
  rewrite int32_small by lia. destruct (Z.geb_spec off (zlen ext)); [|lia].
  change (0 >? 0) with false. rewrite andb_false_r. change (0 + 0) with 0. change (0 <? 0) with false.
  destruct (Z.gtb_spec 0 (zlen ext)); [lia|]. cbn [orb]. rewrite palloc_ok by done. cbn [mbind res_bind Z.eqb].
  rewrite fetch_header_eq by lia. by rewrite app_nil_r.
Qed.
End fetching.

(** ** The pointer's fields *)

Lemma pointer_extsize c tp ext data :
  ok_4b_u data -> pointer_to c tp ext data ->
  VARATT_EXTERNAL_GET_EXTSIZE tp = zlen ext /\ zlen ext + 4 < 2 ^ 30 /\ va_rawsize tp = zlen data + 4.
Proof.
  intros Hd Hp. destruct Hp as [d Hr He|id payload d Hr He Hlt Hok Hc]; unfold ok_4b_u, ok_4b_c in *;
    unfold VARATT_EXTERNAL_GET_EXTSIZE; land_mod; rewrite He.
  - pose proof (zlen_nonneg d). split_and!; lia.
  - pose proof (zlen_nonneg payload). rewrite zlen_app, zlen_le32. split_and!; lia.
Qed.

Lemma pointer_plain (c : config) tp data :
  ok_4b_u data -> va_rawsize tp = zlen data + 4 -> va_extinfo tp = zlen data ->
  VARATT_EXTERNAL_IS_COMPRESSED tp = false.
Proof.
  intros Hd Hr He. destruct (pointer_extsize c tp data data Hd (to_plain c tp data Hr He)) as (Hx & _).
  unfold VARATT_EXTERNAL_IS_COMPRESSED, wrap32, VARHDRSZ. unfold ok_4b_u in Hd. pose proof (zlen_nonneg data).
  rewrite Hx, Hr, Z.mod_small by lia. lia.
Qed.

Lemma pointer_compressed c tp id payload data :
  ok_4b_u data -> va_rawsize tp = zlen data + 4 -> va_extinfo tp = zlen payload + 4 + id * 2 ^ 30 ->
  zlen payload + 4 < zlen data -> ok_4b_c (zlen data) id payload -> compressed_as c id payload data ->
  VARATT_EXTERNAL_IS_COMPRESSED tp = true /\ VARATT_EXTERNAL_GET_COMPRESS_METHOD tp = id.
Proof.
  intros Hd Hr He Hlt Hok Hc.
  destruct (pointer_extsize c tp _ data Hd (to_compressed c tp id payload data Hr He Hlt Hok Hc)) as (Hx & _).
  unfold VARATT_EXTERNAL_IS_COMPRESSED, VARATT_EXTERNAL_GET_COMPRESS_METHOD, wrap32, VARHDRSZ,
    VARLENA_EXTSIZE_BITS, ok_4b_c, ok_4b_u in *. pose proof (zlen_nonneg payload).
  rewrite Hx, Hr, He, Z.mod_small by lia. rewrite zlen_app, zlen_le32. land_mod. split; lia.
Qed.

(** A prefix of what is out of line, behind the fetched header, is a compressed datum. *)
Lemma fetched_compressed tp id payload (data : list Z) m :
  VARATT_EXTERNAL_IS_COMPRESSED tp = true -> 0 <= m <= zlen payload ->
  fetched_header tp (m + 4) ++ zslice (le32 (zlen data + id * 2 ^ 30) ++ payload) 0 (m + 4)
  = mk_4b_c (zlen data) id (take (Z.to_nat m) payload).
Proof.
  intros Hc Hm. unfold fetched_header, mk_4b_c. rewrite Hc, zlen_take, Z.min_l by lia.
  rewrite Z2Nat.id by lia. f_equal; [f_equal; lia|]. unfold zslice. rewrite drop_0.
  replace (Z.to_nat (m + 4)) with (4 + Z.to_nat m)%nat by lia. done.
Qed.

Lemma fetched_plain tp data :
  VARATT_EXTERNAL_IS_COMPRESSED tp = false -> fetched_header tp (zlen data) ++ data = mk_4b_u data.
Proof. intros Hc. unfold fetched_header, mk_4b_u. rewrite Hc. by rewrite Z.add_0_r. Qed.

(** ** Detoasting *)

Ltac tags := unfold VARATT_IS_EXTERNAL_ONDISK, VARATT_IS_EXTERNAL_INDIRECT, VARATT_IS_EXTERNAL_EXPANDED,
  VARATT_IS_EXTERNAL_TAG, VARATT_IS_EXTERNAL, VARATT_IS_COMPRESSED, VARATT_IS_SHORT in *;
  autorewrite with varatt;
  cbn [mbind res_bind Z.eqb Pos.eqb VARTAG_ONDISK VARTAG_INDIRECT VARTAG_EXPANDED_RO VARTAG_EXPANDED_RW].

Section detoast_ok.
Context (E : env).

Lemma copy_plain data t : ok_4b_u data -> copy_datum (mk_4b_u data ++ t) = Ok (mk_4b_u data).
Proof.
  intros Hd. unfold copy_datum, VARSIZE_ANY. autorewrite with varatt. bind.
  unfold ok_4b_u in Hd. pose proof (zlen_nonneg data). rewrite palloc_ok by (unfold MaxAllocSize; lia). bind.
  rewrite <- (zlen_4b_u data). exact (rdn_middle [] (mk_4b_u data) t 0 _ eq_refl eq_refl).
Qed.

Lemma unshort_ok data t : ok_1b data -> unshort (mk_1b data ++ t) = Ok (mk_4b_u data).
Proof.
  intros Hd. unfold unshort, VARSIZE_SHORT. rewrite varsize_1b_s by done. bind.
  unfold ok_1b, VARATT_SHORT_MAX, VARHDRSZ, VARHDRSZ_SHORT, VARDATA_SHORT in *. pose proof (zlen_nonneg data).
  rewrite palloc_ok by (unfold MaxAllocSize; lia). bind.
  replace (zlen data + 1 - 1) with (zlen data) by lia.
  change (mk_1b data ++ t) with ([2 * (zlen data + 1) + 1] ++ data ++ t).
  rewrite rdn_middle by done. bind. f_equal.
  unfold SET_VARSIZE, SET_VARSIZE_4B, mk_4b_u, wrap32. rewrite Z.mod_small by lia.
  rewrite Z.shiftl_mul_pow2 by lia. f_equal. f_equal. lia.
Qed.

Lemma flatten_ok tag addr data t :
  0 <= addr < 2 ^ 64 -> ok_4b_u data -> e_flat E !! addr = Some (mk_4b_u data) ->
  flatten E (mk_pointer tag addr ++ t) = Ok (mk_4b_u data) /\
  EOH_get_flat_size E (mk_pointer tag addr ++ t) = Ok (zlen data + 4).
Proof.
  intros Ha Hd Hf.
  assert (Hff : flat_form E (mk_pointer tag addr ++ t) = Ok (mk_4b_u data)).
  { unfold flat_form. rewrite rd64_pointer by exact Ha. unfold deref. bind. by rewrite Hf. }
  assert (Hsz : EOH_get_flat_size E (mk_pointer tag addr ++ t) = Ok (zlen data + 4)).
  { unfold EOH_get_flat_size. rewrite Hff. bind. by rewrite zlen_4b_u. }
  split; [|exact Hsz]. unfold flatten. rewrite Hsz. bind.
  unfold ok_4b_u in Hd. pose proof (zlen_nonneg data).
  rewrite palloc_ok by (unfold MaxAllocSize; lia). exact Hff.
Qed.

(** A new datum, or the argument when that is plain already. *)
Definition detoasted (v : list Z) (r : list Z + list Z) (data : list Z) : Prop :=
  match r with inr a => a = mk_4b_u data | inl a => a = v /\ exists t, v = mk_4b_u data ++ t end.

Lemma detoast_direct n v data :
  direct E v data -> exists r, detoast_attr_n E (S n) v = Ok r /\ detoasted v r data.
Proof.
  intros Hv. unfold detoast_attr_n; fold (detoast_attr_n E).
  destruct Hv as [v data [d t Hd|d t Hd]|id payload data t Hc Hd Hok|tp ext data t Hok Hd Hp Hs
                 |tag addr data t Htag Ha Hd Hf].
  - tags. eexists. split; [done|]. split; [done|]. by exists t.
  - tags. rewrite unshort_ok by done. by eexists.
  - tags. rewrite toast_decompress_ok by done. by eexists.
  - destruct (pointer_extsize _ _ _ _ Hd Hp) as (Hx & Hsz & _). rewrite ondisk_test. bind.
    rewrite (toast_fetch_datum_ok E tp ext t) by done. bind.
    destruct Hp as [d Hr He|id payload d Hr He Hlt Hokc Hc].
    + rewrite fetched_plain by (by eapply (pointer_plain (e_cfg E))).
      rewrite <- (app_nil_r (mk_4b_u d)). tags. rewrite app_nil_r. by eexists.
    + destruct (pointer_compressed (e_cfg E) tp id payload d) as [Hic _]; [done..|].
      pose proof (fetched_compressed tp id payload d (zlen payload) Hic) as Hfc.
      rewrite zslice_full_take in Hfc by zl. rewrite take_ge in Hfc by (unfold zlen; lia).
      rewrite zlen_app, zlen_le32, (Z.add_comm 4), Hfc by (pose proof (zlen_nonneg payload); lia).
      rewrite <- (app_nil_r (mk_4b_c _ _ _)). tags. rewrite toast_decompress_ok by done. by eexists.
  - assert (Hfl : detoast_external_attr E (mk_pointer tag addr ++ t) = Ok (mk_4b_u data)).
    { unfold detoast_external_attr, detoast_external_attr_n.
      destruct Htag as [-> | ->]; tags; exact (proj1 (flatten_ok _ addr data t Ha Hd Hf)). }
    destruct Htag as [-> | ->]; tags; rewrite Hfl; by eexists.
Qed.

(** detoast_attr returns a new plain datum, or its argument if that is one. *)
Lemma detoast_ok v data :
  holds E v data ->
  detoast_attr E v = Ok (mk_4b_u data) \/ (detoast_attr E v = Ok v /\ exists t, v = mk_4b_u data ++ t).
Proof.
  intros Hv. unfold detoast_attr. destruct Hv as [v data Hv|addr v data t Ha Hm Hv].
  - destruct (detoast_direct 1 v data Hv) as (r & -> & Hr). bind.
    destruct r as [a|a]; [right; by destruct Hr as [-> Hr]|left; by rewrite Hr].
  - left. remember 1%nat as k eqn:Hk. unfold detoast_attr_n; fold (detoast_attr_n E). tags.
    unfold indirect_pointer. rewrite rd64_pointer by exact Ha. unfold deref. bind. rewrite Hm. bind.
    destruct (detoast_direct 0 v data Hv) as (r & Hr & Hd). subst k. rewrite Hr. bind.
    destruct r as [a|a]; [|simpl in Hd; by subst a]. destruct Hd as [-> [t' ->]].
    rewrite copy_plain; [done|].
    destruct Hv as [? ? Hi| | | ]; [by eapply inline_ok|done..].
Qed.

Lemma detoast_ondisk tp t data :
  direct E (mk_ondisk tp ++ t) data -> detoast_attr E (mk_ondisk tp ++ t) = Ok (mk_4b_u data).
Proof.
  intros Hv. destruct (detoast_ok _ data (holds_direct E _ _ Hv)) as [?|[_ [t' Heq]]]; [done|].
  pose proof (is_4b_u_e t tp) as H. rewrite Heq, is_4b_u_u in H. discriminate.
Qed.
End detoast_ok.

(** ** Slices *)

(** The bytes [off], ..., [off + len - 1] of a value, as far as there are; a negative
    length asks for all that follow. *)
Definition slice_of (data : list Z) (off len : Z) : list Z :=
  if off >=? zlen data then []
  else zslice data off (if (len <? 0) || (off + len >? zlen data) then zlen data - off else len).

(** What the end of detoast_attr_slice cuts out of the value [d] it has. *)
Definition cut (d : list Z) (off len limit : Z) : list Z :=
  if off >=? zlen d then []
  else zslice d off (if (len <? 0) || (limit >? zlen d) then zlen d - off else len).

(** The limits that slice_limit gives. *)
Definition limits (off len0 len limit : Z) : Prop :=
  (len < 0 /\ limit = -1 /\ (len0 < 0 \/ 2 ^ 31 <= off + len0)) \/
  (0 <= len /\ len = len0 /\ limit = off + len /\ limit < 2 ^ 31).

Lemma slice_limit_ok off len0 :
  0 <= off -> limits off len0 (slice_limit off len0).1 (slice_limit off len0).2.
Proof.
  intros Hoff. unfold limits, slice_limit, INT_MAX.
  destruct (Z.ltb_spec len0 0); [simpl; lia|].
  destruct (Z.gtb_spec (off + len0) 2147483647); simpl; lia.
Qed.

Lemma zlen_cut_arg (d : list Z) off len limit :
  0 <= off < zlen d -> limits off len len limit ->
  0 <= (if (len <? 0) || (limit >? zlen d) then zlen d - off else len) <= zlen d - off.
Proof.
  intros Hoff Hl. unfold limits in Hl.
  destruct (Z.ltb_spec len 0), (Z.gtb_spec limit (zlen d)); cbn [orb]; lia.
Qed.

(** The value cut from is the whole, or a prefix that reaches the limit. *)
Lemma cut_whole data off len0 len limit :
  zlen data < 2 ^ 30 -> 0 <= off -> limits off len0 len limit -> cut data off len limit = slice_of data off len0.
Proof.
  intros Hd Hoff Hl. unfold cut, slice_of, limits in *. pose proof (zlen_nonneg data).
  destruct (Z.geb_spec off (zlen data)); [done|]. f_equal.
  destruct (Z.ltb_spec len 0), (Z.gtb_spec limit (zlen data)), (Z.ltb_spec len0 0),
    (Z.gtb_spec (off + len0) (zlen data)); cbn [orb]; lia.
Qed.

Lemma cut_prefix data d off len0 len limit :
  zlen data < 2 ^ 30 -> 0 <= off -> limits off len0 len limit -> 0 <= limit ->
  Z.min limit (zlen data) <= zlen d -> d = take (length d) data ->
  cut d off len limit = slice_of data off len0.
Proof.
  intros Hd Hoff Hl Hlim Hmin Hpre. rewrite <- (cut_whole data off len0 len limit) by done.
  assert (Hle : zlen d <= zlen data) by (rewrite Hpre; zl).
  unfold limits in Hl. unfold cut. destruct (Z.geb_spec off (zlen d)), (Z.geb_spec off (zlen data)); try done; try lia.
  - destruct (Z.ltb_spec len 0), (Z.gtb_spec limit (zlen data)); cbn [orb]; try lia.
    assert (len = 0) as -> by lia. by rewrite (zlen_0_nil (zslice data off 0)) by zl.
  - destruct (Z.ltb_spec len 0), (Z.gtb_spec limit (zlen data)), (Z.gtb_spec limit (zlen d)); cbn [orb]; try lia.
    + assert (zlen d = zlen data) by lia. rewrite Hpre, take_ge; [done|]. unfold zlen in *. lia.
    + rewrite Hpre. unfold zslice. rewrite skipn_firstn_comm, take_take.
      f_equal. unfold zlen in *. lia.
Qed.

Section slices.
Context (E : env).

Lemma set_varsize_slice data :
  zlen data + 4 < 2 ^ 30 -> SET_VARSIZE (zrep VARHDRSZ 0 ++ data) (zlen data + VARHDRSZ) = mk_4b_u data.
Proof.
  intros Hd. pose proof (zlen_nonneg data). unfold SET_VARSIZE, SET_VARSIZE_4B, mk_4b_u, wrap32, VARHDRSZ.
  rewrite Z.mod_small by lia. rewrite Z.shiftl_mul_pow2 by lia. f_equal. f_equal. lia.
Qed.

(** The cut out of a datum whose data start at [p]. *)
Lemma cut_data h d t off len limit :
  zlen d + 4 < 2 ^ 30 -> 0 <= off -> limits off len len limit ->
  (let '(o, l) := if off >=? zlen d then (0, 0)
                  else if (len <? 0) || (limit >? zlen d) then (off, zlen d - off) else (off, len) in
   _ ← palloc (l + VARHDRSZ);
   x ← rdn (h ++ d ++ t) (zlen h + o) l;
   Ok (SET_VARSIZE (zrep VARHDRSZ 0 ++ x) (l + VARHDRSZ))) = Ok (mk_4b_u (cut d off len limit)).
Proof.
  intros Hd Hoff Hl. pose proof (zlen_nonneg d).
  assert (Hgen : forall o l, 0 <= o -> 0 <= l <= zlen d - o ->
    (_ ← palloc (l + VARHDRSZ); x ← rdn (h ++ d ++ t) (zlen h + o) l;
     Ok (SET_VARSIZE (zrep VARHDRSZ 0 ++ x) (l + VARHDRSZ))) = Ok (mk_4b_u (zslice d o l))).
  { intros o l Ho Hll. rewrite palloc_ok by (unfold VARHDRSZ, MaxAllocSize; lia). bind.
    assert (Hz : zlen (zslice d o l) = l) by (rewrite zlen_zslice; lia).
    rewrite <- (take_drop (Z.to_nat o) d) at 1.
    rewrite <- (take_drop (Z.to_nat l) (drop (Z.to_nat o) d)).
    change (take (Z.to_nat l) (drop (Z.to_nat o) d)) with (zslice d o l).
    rewrite <- !app_assoc, (app_assoc h). rewrite rdn_middle by zl. bind.
    rewrite <- Hz at 2. by rewrite set_varsize_slice by lia. }
  unfold cut. destruct (Z.geb_spec off (zlen d)).
  - rewrite Hgen by lia. by rewrite (zlen_0_nil (zslice d 0 0)) by zl.
  - pose proof (zlen_cut_arg d off len limit ltac:(lia) Hl) as Ha. destruct (_ || _); apply Hgen; lia.
Qed.

Lemma limits_same off len0 len limit : limits off len0 len limit -> limits off len len limit.
Proof. unfold limits. lia. Qed.

Lemma cut_slice_inline v d off len0 len limit :
  inline_value v d -> 0 <= off -> limits off len0 len limit ->
  cut_slice E v off len limit = Ok (mk_4b_u (cut d off len limit)).
Proof.
  intros Hv Hoff Hl%limits_same. pose proof (inline_ok _ _ Hv) as Hd. unfold ok_4b_u in Hd.
  destruct Hv as [d t Hok|d t Hok]; unfold cut_slice; tags; tags.
  - replace (zlen d + 4 - VARHDRSZ) with (zlen d) by (unfold VARHDRSZ; lia).
    unfold mk_4b_u at 1. rewrite <- app_assoc. exact (cut_data (le32 _) d t off len limit Hd Hoff Hl).
  - replace (zlen d + 1 - VARHDRSZ_SHORT) with (zlen d) by (unfold VARHDRSZ_SHORT; lia).
    exact (cut_data [2 * (zlen d + 1) + 1] d t off len limit Hd Hoff Hl).
Qed.

(** Cutting a slice out of a compressed datum, of which enough is at hand. *)
Lemma cut_slice_compressed id payload data m t off len0 len limit :
  compressed_as (e_cfg E) id payload data -> ok_4b_u data -> ok_4b_c (zlen data) id payload ->
  0 <= off -> limits off len0 len limit -> m <= zlen payload ->
  (if limit >=? 0 then payload_need id limit (zlen payload) else zlen payload) <= m ->
  (id = TOAST_RLE_COMPRESSION_ID -> 0 <= limit < zlen data -> slice_room (e_cfg E) data limit) ->
  cut_slice E (mk_4b_c (zlen data) id (take (Z.to_nat m) payload) ++ t) off len limit
  = Ok (mk_4b_u (slice_of data off len0)).
Proof.
  intros Hc Hd Hok Hoff Hl Hm Hneed Hroom. pose proof Hd as Hd'. unfold ok_4b_u in Hd'.
  unfold cut_slice. tags. destruct (Z.geb_spec limit 0) as [Hlim|Hlim].
  - destruct (toast_decompress_slice_ok (e_cfg E) id payload data limit m t) as (d & -> & Hmin & Hpre);
      [done..|unfold limits in Hl; lia|lia|intros; by apply Hroom|]. bind.
    assert (Hle : zlen d <= zlen data) by (rewrite Hpre; zl).
    rewrite <- (cut_prefix data d off len0 len limit) by (done || lia).
    assert (Hi : inline_value (mk_4b_u d ++ []) d) by (constructor; unfold ok_4b_u; lia).
    pose proof (cut_slice_inline _ d off len0 len limit Hi Hoff Hl) as Hcut. rewrite app_nil_r in Hcut.
    rewrite <- Hcut. unfold cut_slice. rewrite <- (app_nil_r (mk_4b_u d)). tags. tags. done.
  - rewrite take_ge by (unfold zlen in *; lia). rewrite toast_decompress_ok by done. bind.
    rewrite <- (cut_whole data off len0 len limit) by (done || lia).
    assert (Hi : inline_value (mk_4b_u data ++ []) data) by (by constructor).
    pose proof (cut_slice_inline _ data off len0 len limit Hi Hoff Hl) as Hcut. rewrite app_nil_r in Hcut.
    rewrite <- Hcut. unfold cut_slice. rewrite <- (app_nil_r (mk_4b_u data)). tags. tags. done.
Qed.
End slices.

Section slice_ok.
Context (E : env).

(** What detoast_attr_slice fetches of a compressed value. *)
Definition fetch_size (tp : varatt_external) (limit : Z) : Z :=
  let max_size := int32_of (VARATT_EXTERNAL_GET_EXTSIZE tp) in
  if VARATT_EXTERNAL_GET_COMPRESS_METHOD tp =? TOAST_PGLZ_COMPRESSION_ID
  then pglz_maximum_compressed_size limit max_size else max_size.

Lemma fetch_size_ok tp id (payload : list Z) limit :
  VARATT_EXTERNAL_GET_EXTSIZE tp = zlen payload + 4 -> VARATT_EXTERNAL_GET_COMPRESS_METHOD tp = id ->
  zlen payload + 8 < 2 ^ 30 -> 0 <= limit ->
  0 < fetch_size tp limit /\ Z.min (zlen payload) (fetch_size tp limit) = payload_need id limit (zlen payload).
Proof.
  intros Hx Hid Hlt Hlim. pose proof (zlen_nonneg payload). unfold fetch_size, payload_need.
  rewrite Hx, Hid, int32_small by lia. destruct (id =? TOAST_PGLZ_COMPRESSION_ID); [|lia].
  rewrite max_compressed_size_eq by (unfold INT_MAX; lia). unfold pglz_need, prefix_size. lia.
Qed.

Lemma slice_ondisk tp ext data t off len0 len limit :
  ok_ondisk tp -> ok_4b_u data -> pointer_to (e_cfg E) tp ext data -> stored (e_store E) tp ext ->
  0 <= off -> limits off len0 len limit ->
  (toast_get_compression_id (mk_ondisk tp ++ t) = Ok TOAST_RLE_COMPRESSION_ID -> 0 <= limit < zlen data ->
   slice_room (e_cfg E) data limit) ->
  (if negb (VARATT_EXTERNAL_IS_COMPRESSED tp) then toast_fetch_datum_slice E (mk_ondisk tp ++ t) off len else
   preslice ← (if limit >=? 0 then toast_fetch_datum_slice E (mk_ondisk tp ++ t) 0 (fetch_size tp limit)
               else toast_fetch_datum E (mk_ondisk tp ++ t));
   cut_slice E preslice off len limit) = Ok (mk_4b_u (slice_of data off len0)).
Proof.
  intros Hok Hd Hp Hs Hoff Hl Hroom. destruct (pointer_extsize _ _ _ _ Hd Hp) as (Hx & Hsz & _).
  destruct Hp as [d Hr He|id payload d Hr He Hlt Hokc Hc].
  - rewrite (pointer_plain (e_cfg E) tp d) by done. cbn [negb].
    pose proof (pointer_plain (e_cfg E) tp d Hd Hr He) as Hic. unfold ok_4b_u in Hd.
    rewrite <- (cut_whole d off len0 len limit) by (done || lia).
    unfold cut. destruct (Z.geb_spec off (zlen d)) as [Hge|Hlt].
    + rewrite (toast_fetch_datum_slice_past E tp d) by done. by unfold fetched_header; rewrite Hic.
    + rewrite (toast_fetch_datum_slice_ok E tp d) by (done || lia). rewrite Hic. cbn [andb].
      assert (Heq : (if (off + len >? zlen d) || (len <? 0) then zlen d - off else len)
        = (if (len <? 0) || (limit >? zlen d) then zlen d - off else len)).
      { unfold limits in Hl. destruct (Z.gtb_spec (off + len) (zlen d)), (Z.ltb_spec len 0),
          (Z.gtb_spec limit (zlen d)); cbn [orb]; lia. }
      rewrite Heq. apply limits_same in Hl.
      pose proof (zlen_cut_arg d off len limit ltac:(lia) Hl) as Ha.
      remember (if (len <? 0) || (limit >? zlen d) then zlen d - off else len) as n eqn:Hn. clear Hn Heq.
      rewrite <- (fetched_plain tp (zslice d off n)) by done. by rewrite zlen_zslice by lia.
  - destruct (pointer_compressed (e_cfg E) tp id payload d) as [Hic Hm]; [done..|]. rewrite Hic. cbn [negb].
    rewrite zlen_app, zlen_le32 in Hx, Hsz. pose proof (zlen_nonneg payload) as H0.
    assert (Hcut : forall m, 0 <= m <= zlen payload ->
      (if limit >=? 0 then payload_need id limit (zlen payload) else zlen payload) <= m ->
      cut_slice E (fetched_header tp (m + 4) ++ zslice (le32 (zlen d + id * 2 ^ 30) ++ payload) 0 (m + 4))
        off len limit = Ok (mk_4b_u (slice_of d off len0))).
    { intros m Hm1 Hm2. rewrite fetched_compressed by done. rewrite <- (app_nil_r (mk_4b_c _ _ _)).
      apply cut_slice_compressed; try done || lia. intros ->. apply Hroom.
      unfold toast_get_compression_id. rewrite ondisk_test. bind. rewrite get_pointer_e by done. bind. by rewrite Hic, Hm. }
    destruct (Z.geb_spec limit 0) as [Hlim|Hlim].
    + destruct (fetch_size_ok tp id payload limit) as [Hpos Hneed]; [lia|done|lia|lia|].
      rewrite (toast_fetch_datum_slice_ok E tp (le32 (zlen d + id * 2 ^ 30) ++ payload))
        by (rewrite ?zlen_app, ?zlen_le32; done || lia). bind.
      rewrite Hic. replace (fetch_size tp limit >? 0) with true by lia. cbn [andb].
      rewrite zlen_app, zlen_le32. set (n := if _ || _ then _ else _).
      assert (n = Z.min (zlen payload) (fetch_size tp limit) + 4) as ->.
      { unfold n. destruct (Z.gtb_spec (0 + (fetch_size tp limit + 4)) (4 + zlen payload)),
          (Z.ltb_spec (fetch_size tp limit + 4) 0); cbn [orb]; lia. }
      apply Hcut; lia.
    + rewrite (toast_fetch_datum_ok E tp (le32 (zlen d + id * 2 ^ 30) ++ payload))
        by (rewrite ?zlen_app, ?zlen_le32; done || lia). bind.
      rewrite <- (Hcut (zlen payload)) by lia. rewrite zslice_full_take by zl.
      do 2 f_equal. rewrite zlen_app, zlen_le32. f_equal. lia.
Qed.

Lemma slice_direct n v data off len :
  direct E v data -> 0 <= off ->
  (toast_get_compression_id v = Ok TOAST_RLE_COMPRESSION_ID -> 0 <= len -> off + len < zlen data ->
   slice_room (e_cfg E) data (off + len)) ->
  detoast_attr_slice_n E (S n) v off len = Ok (mk_4b_u (slice_of data off len)).
Proof.
  intros Hv Hoff Hroom. unfold detoast_attr_slice_n; fold (detoast_attr_slice_n E).
  destruct (Z.ltb_spec off 0); [lia|]. pose proof (slice_limit_ok off len Hoff) as Hl.
  destruct (slice_limit off len) as [len' limit]. simpl in Hl.
  assert (Hr : toast_get_compression_id v = Ok TOAST_RLE_COMPRESSION_ID -> 0 <= limit < zlen data ->
    slice_room (e_cfg E) data limit).
  { intros Hid Hlim. destruct Hl as [?|(? & -> & -> & ?)]; [lia|]. apply Hroom; [done|lia..]. }
  clear Hroom. destruct Hv as [v data Hi|id payload data t Hc Hd Hok|tp ext data t Hok Hd Hp Hs
                 |tag addr data t Htag Ha Hd Hf].
  - pose proof (inline_ok _ _ Hi) as Hd. unfold ok_4b_u in Hd.
    rewrite <- (cut_whole data off len len' limit) by (done || lia).
    rewrite <- (cut_slice_inline E v data off len len' limit) by done. destruct Hi; tags; done.
  - tags. rewrite <- (take_ge payload (Z.to_nat (zlen payload))) at 1 by (unfold zlen; lia).
    apply cut_slice_compressed; try done.
    + destruct (limit >=? 0); [|lia]. unfold payload_need, pglz_need. destruct (_ =? _); lia.
    + intros ->. apply Hr. unfold toast_get_compression_id. tags. done.
  - rewrite ondisk_test. bind. rewrite get_pointer_e by done. bind.
    exact (slice_ondisk tp ext data t off len len' limit Hok Hd Hp Hs Hoff Hl Hr).
  - unfold ok_4b_u in Hd. rewrite <- (cut_whole data off len len' limit) by (done || lia).
    rewrite <- (cut_slice_inline E (mk_4b_u data ++ []) data off len len' limit) by (done || by constructor).
    rewrite app_nil_r. unfold detoast_external_attr, detoast_external_attr_n.
    destruct (flatten_ok E tag addr data t Ha Hd Hf) as [Hfl _].
    destruct Htag as [-> | ->]; tags; tags; rewrite Hfl; done.
Qed.

Lemma slice_ok v data off len :
  holds E v data -> 0 <= off -> (0 <= len -> slice_fits E v data (off + len)) -> detoast_attr_slice E v off len = Ok (mk_4b_u (slice_of data off len)).
Proof.
  intros Hv Hoff Hfit. unfold detoast_attr_slice, slice_fits in *. destruct Hv as [v data Hv|addr v data t Ha Hm Hv].
  - apply slice_direct; [done..|]. intros. apply Hfit; [done|by left|lia].
  - remember 1%nat as k eqn:Hk. unfold detoast_attr_slice_n; fold (detoast_attr_slice_n E).
    destruct (Z.ltb_spec off 0); [lia|]. pose proof (slice_limit_ok off len Hoff) as Hl.
    destruct (slice_limit off len) as [len' limit]. simpl in Hl. tags.
    unfold indirect_pointer. rewrite rd64_pointer by exact Ha. unfold deref. bind. rewrite Hm. bind. subst k.
    rewrite (slice_direct 0 v data off len'); [|done|done|].
    2:{ intros Hid H0 Hlt. destruct Hl as [?|(_ & -> & _ & _)]; [lia|]. apply Hfit; [done| |lia].
        right. exists addr, t, v. done. }
    do 2 f_equal.
    assert (Hd : ok_4b_u data) by (destruct Hv as [? ? Hi| | | ]; [by eapply inline_ok|done..]).
    unfold ok_4b_u in Hd. rewrite <- (cut_whole data off len len' limit) by (done || lia).
    apply limits_same in Hl. symmetry. apply cut_whole; done || lia.
Qed.

(** ** Sizes *)

Lemma raw_size_direct n v data :
  direct E v data -> toast_raw_datum_size_n E (S n) v = Ok (zlen data + 4).
Proof.
  intros Hv. unfold toast_raw_datum_size_n; fold (toast_raw_datum_size_n E).
  destruct Hv as [v data [d t Hd|d t Hd]|id payload data t Hc Hd Hok|tp ext data t Hok Hd Hp Hs
                 |tag addr data t Htag Ha Hd Hf].
  - tags. done.
  - tags. f_equal. unfold VARHDRSZ, VARHDRSZ_SHORT. lia.
  - tags. done.
  - rewrite ondisk_test. bind. rewrite get_pointer_e by done. bind.
    by destruct (pointer_extsize _ _ _ _ Hd Hp) as (_ & _ & ->).
  - destruct (flatten_ok E tag addr data t Ha Hd Hf) as [_ Hfl]. destruct Htag as [-> | ->]; tags; exact Hfl.
Qed.

Lemma raw_size_ok v data : holds E v data -> toast_raw_datum_size E v = Ok (zlen data + 4).
Proof.
  intros Hv. unfold toast_raw_datum_size. destruct Hv as [v data Hv|addr v data t Ha Hm Hv].
  - by apply raw_size_direct.
  - remember 1%nat as k eqn:Hk. unfold toast_raw_datum_size_n; fold (toast_raw_datum_size_n E). tags.
    unfold indirect_pointer. rewrite rd64_pointer by exact Ha. unfold deref. bind. rewrite Hm. bind. subst k.
    by apply raw_size_direct.
Qed.
End slice_ok.

(** ** Packed arguments *)

Lemma inline_parts v data :
  inline_value v data -> exists h t, v = h ++ data ++ t /\ VARDATA_ANY v = Ok (zlen h) /\
    VARSIZE_ANY v = Ok (zlen h + zlen data) /\ VARATT_IS_COMPRESSED v = Ok false /\ VARATT_IS_EXTERNAL v = Ok false.
Proof.
  intros [d t Hd|d t Hd].
  - exists (le32 (4 * (zlen d + 4))), t. split; [by unfold mk_4b_u; rewrite <- app_assoc|].
    unfold VARDATA_ANY, VARSIZE_ANY. tags. tags. split_and!; try done. f_equal. rewrite zlen_le32. lia.
  - exists [2 * (zlen d + 1) + 1], t. split; [done|].
    unfold VARDATA_ANY, VARSIZE_ANY. tags. tags. split_and!; try done. f_equal. zl.
Qed.

(** A value in line that is not compressed is cut without decompressing. *)
Lemma inline_fits E v data n : inline_value v data -> slice_fits E v data n.
Proof.
  intros Hi [Hid|(addr & t & w & -> & _)] _.
  - destruct (inline_parts _ _ Hi) as (_ & _ & _ & _ & _ & Hc & He). unfold toast_get_compression_id in Hid.
    unfold VARATT_IS_EXTERNAL_ONDISK, VARATT_IS_EXTERNAL_TAG in Hid. rewrite He in Hid. cbn [mbind res_bind] in Hid.
    rewrite Hc in Hid. discriminate Hid.
  - destruct (inline_parts _ _ Hi) as (_ & _ & _ & _ & _ & _ & He). revert He. tags. discriminate.
Qed.

Lemma past_fits E v data n : zlen data <= n -> slice_fits E v data n.
Proof. intros Hn _ ?. lia. Qed.

Lemma holds_ok E v data : holds E v data -> ok_4b_u data.
Proof.
  assert (Hd : forall v data, direct E v data -> ok_4b_u data) by (intros ? ? [? ? Hi| | |]; [by eapply inline_ok|done..]).
  intros []; eauto.
Qed.

(** A packed argument is in line and not compressed. *)
Lemma packed_datum_ok E v data :
  holds E v data -> exists p, pg_detoast_datum_packed E v = Ok p /\ inline_value p data.
Proof.
  intros Hv.
  assert (Hd : exists p, detoast_attr E v = Ok p /\ inline_value p data).
  { destruct (detoast_ok E v data Hv) as [->|[-> [t ->]]].
    - eexists. split; [done|]. rewrite <- (app_nil_r (mk_4b_u data)). constructor. by eapply holds_ok.
    - eexists. split; [done|]. constructor. by eapply holds_ok. }
  unfold pg_detoast_datum_packed. destruct Hv as [v data [v0 data0 Hi|? ? ? t|tp ? ? t|? ? ? t]|]; try (tags; done).
  destruct (inline_parts v0 data0 Hi) as (h & t & _ & _ & _ & -> & ->). bind. by exists v0.
Qed.

(** ** Properties *)

(** C21: detoast_attr reads every form of a value: plain, short, compressed in line by any
    method, out of line plain or compressed, expanded, or an indirect pointer to one of
    these.  It returns the contents with a plain header, or the argument itself where
    that has a plain header already.  An RLE value stands for its contents where the chunk
    that is allocated for them has a byte more than is requested ([value_room]). *)
Theorem detoast_attr_correct E v data :
  holds E v data ->
  detoast_attr E v = Ok (mk_4b_u data) \/ (detoast_attr E v = Ok v /\ exists t, v = mk_4b_u data ++ t).
Proof. apply detoast_ok. Qed.

(** C6: detoast_attr_slice returns, for every form of a value and every offset, the bytes
    asked for as far as the value has them: all the rest for a negative length or where
    offset + length overflows 32 bits, nothing when the offset is past the end.  For a
    compressed value out of line this holds although only a prefix is fetched and
    decompressed.  Where the value is compressed by RLE, the chunk that is allocated for
    the slice has the room that rle_decompress needs for its last token and a NUL. *)
Theorem detoast_slice_correct E v data off len :
  holds E v data -> 0 <= off -> (0 <= len -> slice_fits E v data (off + len)) -> detoast_attr_slice E v off len = Ok (mk_4b_u (slice_of data off len)).
Proof. apply slice_ok. Qed.

(** toast_raw_datum_size gives the size of the detoasted datum, header included, for
    every form of a value and without reading the value. *)
Theorem toast_raw_size_correct E v data :
  holds E v data -> toast_raw_datum_size E v = Ok (zlen data + VARHDRSZ).
Proof. apply raw_size_ok. Qed.

(** A toast table that has one value of two chunks and one dead value. *)
Definition sample_value : list Z := zrep 2500 65 ++ [66; 67].
Definition sample_tp : varatt_external := Build_varatt_external 2506 2502 16390 16500.
Definition sample_table : toastrel :=
  mkToastrel 16500 [{| ti_oid := 16501; indisvalid := true; indisready := true; indisunique := true |}]
    {[ 16390 := chunk_rows sample_value 2 ]} {[ 16384 ]}.
Definition sample_store : store := mkStore {[ 16500 := sample_table ]} (mkOidgen 16390 0 16390) true.
Definition sample_env : env :=
  {| e_cfg := sample_config; e_store := sample_store;
     e_mem := {[ 140000000000000 := mk_ondisk sample_tp ]}; e_flat := ∅ |}.
Lemma sample_direct : direct sample_env (mk_ondisk sample_tp ++ []) sample_value.
Proof.
  apply (direct_ondisk _ sample_tp sample_value).
  - vm_compute. intuition discriminate.
  - vm_compute. reflexivity.
  - by apply to_plain.
  - right. exists sample_table, 0. by vm_compute.
Qed.

Lemma sample_indirect : holds sample_env (mk_pointer VARTAG_INDIRECT 140000000000000 ++ [9]) sample_value.
Proof.
  eapply holds_indirect; [lia|apply lookup_singleton_eq|].
  rewrite <- (app_nil_r (mk_ondisk _)). apply sample_direct.
Qed.

Lemma detoast_attr_correct_witness :
  detoast_attr sample_env (mk_ondisk sample_tp ++ []) = Ok (mk_4b_u sample_value) \/
  (detoast_attr sample_env (mk_ondisk sample_tp ++ []) = Ok (mk_ondisk sample_tp ++ []) /\
   exists t, mk_ondisk sample_tp ++ [] = mk_4b_u sample_value ++ t).
Proof. exact (detoast_attr_correct _ _ _ (holds_direct _ _ _ sample_direct)). Defined.

(** An RLE value in line: 40 equal bytes and four others. *)
Lemma sample_rle t : holds sample_env (mk_4b_c 44 TOAST_RLE_COMPRESSION_ID [165; 97; 4; 98; 99; 99; 100] ++ t) rle_sample.
Proof.
  constructor. apply (direct_compressed _ TOAST_RLE_COMPRESSION_ID [165; 97; 4; 98; 99; 99; 100] rle_sample).
  - apply as_rle. split; [exists [Run 40 97; Lits [98; 99; 99; 100]]|vm_compute; discriminate].
    split; [|done]. repeat constructor; vm_compute; done.
  - vm_compute. reflexivity.
  - vm_compute. intuition discriminate.
Qed.

Lemma detoast_slice_correct_witness :
  (detoast_attr_slice sample_env (mk_pointer VARTAG_INDIRECT 140000000000000 ++ [9]) 2499 10
   = Ok (mk_4b_u (slice_of sample_value 2499 10)) /\ slice_of sample_value 2499 10 = [65; 66; 67]) /\
  detoast_attr_slice sample_env (mk_4b_c 44 TOAST_RLE_COMPRESSION_ID [165; 97; 4; 98; 99; 99; 100] ++ []) 38 4
  = Ok (mk_4b_u [97; 97; 98; 99]).
Proof.
  split; [split; [|vm_compute; reflexivity]|].
  - exact (detoast_slice_correct _ _ _ 2499 10 sample_indirect ltac:(lia) (fun _ => past_fits sample_env _ sample_value (2499 + 10) ltac:(vm_compute; discriminate))).
  - exact (detoast_slice_correct _ _ _ 38 4 (sample_rle []) ltac:(lia) (fun _ _ _ => ltac:(vm_compute; discriminate))).
Defined.

Lemma toast_raw_size_correct_witness :
  toast_raw_datum_size sample_env (mk_pointer VARTAG_INDIRECT 140000000000000 ++ [9]) = Ok (zlen sample_value + VARHDRSZ).
Proof. exact (toast_raw_size_correct _ _ _ sample_indirect). Defined.
