(* ===== verification/ToastSave.v ===== *)
(** Storing a value out of line, reading it back and deleting it: the operations of
    toast_internals.c (ToastStore) against those of detoast.c (Detoast).

    The contract is that of a map from toast pointers to contents: saving adds an entry
    under a key that no live or dead row has, and changes no other; deleting removes
    that entry only, and reading it afterwards is reported. *)

From S2P Require Import Prelude Rle Varatt Pglz PglzHist PglzItems PglzCodec ToastCompression Oids ToastStore Detoast.

(** The values that toast_save_datum is given: plain, short or compressed. *)
Inductive savable (c : config) : list Z -> list Z -> Prop :=
| savable_inline v data : inline_value v data -> savable c v data
| savable_compressed id payload data t :
    compressed_as c id payload data -> ok_4b_u data -> ok_4b_c (zlen data) id payload ->
    zlen payload + 4 < zlen data -> savable c (mk_4b_c (zlen data) id payload ++ t) data.

(** The invariant of the database. *)
Record store_ok (st : store) : Prop := {
  ok_oids : oidgen_ok (st_oids st);
  ok_snapshot : st_snapshot st = true;
  ok_rels oid tr : st_rels st !! oid = Some tr ->
    tr_oid tr = oid /\ 0 <= oid < 2 ^ 32 /\ exists i, toast_open_indexes tr = Ok i
}.

Definition with_store (E : env) (st : store) : env :=
  {| e_cfg := e_cfg E; e_store := st; e_mem := e_mem E; e_flat := e_flat E |}.

(** No value that was stored is lost. *)
Definition keeps (st st' : store) : Prop := forall tp ext, stored st tp ext -> stored st' tp ext.

Lemma direct_keeps E st' v data :
  keeps (e_store E) st' -> direct E v data -> direct (with_store E st') v data.
Proof.
  intros Hk Hv. destruct Hv as [v data Hi|id payload data t Hc Hd Hok|tp ext data t Hok Hd Hp Hs
                               |tag addr data t Htag Ha Hd Hf].
  - by apply direct_inline.
  - by apply direct_compressed.
  - apply (direct_ondisk _ tp ext); [done..|]. by apply Hk.
  - by apply direct_expanded.
Qed.

Lemma holds_keeps E st' v data :
  keeps (e_store E) st' -> holds E v data -> holds (with_store E st') v data.
Proof.
  intros Hk [v' d Hv|addr v' d t Ha Hm Hv]; [constructor|econstructor; [done|done|]]; by apply direct_keeps.
Qed.

(** ** What is written *)

Lemma rdn_inside h d t i n :
  0 <= i -> 0 <= n -> i + n <= zlen d -> rdn (h ++ d ++ t) (zlen h + i) n = Ok (zslice d i n).
Proof.
  intros Hi Hn Hle. rewrite <- (take_drop (Z.to_nat i) d) at 1.
  rewrite <- (take_drop (Z.to_nat n) (drop (Z.to_nat i) d)).
  rewrite <- !app_assoc, (app_assoc h). apply rdn_middle; [zl|by rewrite zlen_zslice].
Qed.

Lemma save_sizes_ok c v data :
  savable c v data ->
  exists p ext raw info, save_sizes v = Ok (p, zlen ext, raw, info) /\
    (forall i n, 0 <= i -> 0 <= n -> i + n <= zlen ext -> rdn v (p + i) n = Ok (zslice ext i n)) /\
    forall valueid rel, pointer_to c (Build_varatt_external raw info valueid rel) ext data /\
      (0 <= valueid < 2 ^ 32 -> 0 <= rel < 2 ^ 32 -> ok_ondisk (Build_varatt_external raw info valueid rel)).
Proof.
  intros Hv. destruct Hv as [v data [d t Hd|d t Hd]|id payload data t Hc Hd Hok Hlt].
  - exists 4, d, (zlen d + 4), (zlen d). split; [|split].
    + unfold save_sizes. tags. tags. tags.
      unfold VARDATA, VARHDRSZ. do 4 f_equal; lia.
    + unfold mk_4b_u. rewrite <- app_assoc. exact (rdn_inside (le32 _) d t).
    + intros vid rel. split; [by constructor|]. unfold ok_ondisk, ok_4b_u in *. simpl.
      pose proof (zlen_nonneg d). lia.
  - exists 1, d, (zlen d + 4), (zlen d). split; [|split].
    + unfold save_sizes. tags. unfold VARDATA_SHORT, VARHDRSZ, VARHDRSZ_SHORT. do 5 f_equal; lia.
    + exact (rdn_inside [2 * (zlen d + 1) + 1] d t).
    + intros vid rel. split; [by constructor|]. unfold ok_ondisk, ok_1b, VARATT_SHORT_MAX in *. simpl.
      pose proof (zlen_nonneg d). lia.
  - exists 4, (le32 (zlen data + id * 2 ^ 30) ++ payload), (zlen data + 4), (zlen payload + 4 + id * 2 ^ 30).
    pose proof Hok as (H1 & H2 & H3). pose proof (zlen_nonneg payload). split; [|split].
    + unfold save_sizes. tags. tags. tags. tags.
      unfold VARATT_EXTERNAL_SET_SIZE_AND_COMPRESS_METHOD, VARDATA, VARHDRSZ, VARLENA_EXTSIZE_BITS. simpl va_extinfo.
      rewrite zlen_app, zlen_le32. rewrite Z.lor_comm, Z.shiftl_mul_pow2 by lia.
      rewrite (lor_disjoint id (zlen payload + 8 - 4) 30) by lia. do 2 f_equal; [do 2 f_equal|]; lia.
    + unfold mk_4b_c. rewrite <- app_assoc. exact (rdn_inside (le32 _) _ t).
    + intros vid rel. split; [by constructor|]. unfold ok_ondisk. unfold ok_4b_u in Hd. simpl. lia.
Qed.

(** ** Saving *)

(** The database after the rows of a value were added to a toast table. *)
Definition added (st : store) (tr : toastrel) (valueid : Z) (ext : list Z) (g : oidgen) : store :=
  mkStore (<[tr_oid tr := with_rows tr valueid (chunk_rows ext (nchunks (zlen ext)))]> (st_rels st)) g (st_snapshot st).

Lemma chunk_rows_nil n : chunk_rows [] 0 = [] /\ nchunks 0 = 0 /\ (0 < n -> 0 < nchunks n).
Proof. split; [done|]. split; [done|]. unfold nchunks. rewrite chunk_size_val. lia. Qed.

Lemma with_rows_same tr valueid rows :
  tr_oid (with_rows tr valueid rows) = tr_oid tr /\ tr_indexes (with_rows tr valueid rows) = tr_indexes tr.
Proof. by destruct rows. Qed.

Lemma rows_of_with_ne tr valueid rows valueid' :
  valueid <> valueid' -> rows_of (with_rows tr valueid rows) valueid' = rows_of tr valueid'.
Proof. intros Hne. destruct rows; [done|]. unfold rows_of. simpl. by rewrite lookup_insert_ne. Qed.

Lemma unused_rows tr valueid : valueid ∉ used_ids tr -> rows_of tr valueid = [].
Proof.
  unfold used_ids, rows_of. rewrite not_elem_of_union, not_elem_of_dom. intros [-> _]. done.
Qed.

Lemma open_with tr valueid rows : toast_open_indexes (with_rows tr valueid rows) = toast_open_indexes tr.
Proof. unfold toast_open_indexes. by destruct (with_rows_same tr valueid rows) as [_ ->]. Qed.

Section added.
Context (st : store) (tr : toastrel) (valueid : Z) (ext : list Z) (g : oidgen).
Context (Hst : store_ok st) (Htr : st_rels st !! tr_oid tr = Some tr) (Hnew : valueid ∉ used_ids tr).

Lemma added_ok : oidgen_ok g -> store_ok (added st tr valueid ext g).
Proof.
  intros Hg. split; [done|apply (ok_snapshot st Hst)|]. intros oid tr' Hl. unfold added in Hl. simpl in Hl.
  destruct (decide (tr_oid tr = oid)) as [<-|Hne].
  - rewrite lookup_insert_eq in Hl. injection Hl as <-. rewrite open_with.
    destruct (with_rows_same tr valueid (chunk_rows ext (nchunks (zlen ext)))) as [-> _].
    exact (ok_rels st Hst _ _ Htr).
  - rewrite lookup_insert_ne in Hl by done. exact (ok_rels st Hst _ _ Hl).
Qed.

Lemma added_stored raw info :
  stored (added st tr valueid ext g) (Build_varatt_external raw info valueid (tr_oid tr)) ext.
Proof.
  right. destruct (ok_rels st Hst _ _ Htr) as (_ & _ & i & Hi). eexists _, i. simpl.
  rewrite lookup_insert_eq. split; [done|]. rewrite open_with. split; [done|].
  split; [|apply (ok_snapshot st Hst)]. by apply rows_of_with, unused_rows.
Qed.

Lemma added_keeps : keeps st (added st tr valueid ext g).
Proof.
  intros tp ext' [H0|(tr' & i & Hr & Hi & Hrows & Hsn)]; [by left|].
  destruct (decide (tr_oid tr = va_toastrelid tp)) as [Heq|Hne].
  - rewrite <- Heq, Htr in Hr. injection Hr as <-.
    destruct (decide (valueid = va_valueid tp)) as [Hv|Hv].
    + left. rewrite <- Hv, unused_rows in Hrows by done. pose proof (zlen_nonneg ext').
      destruct (chunk_rows_nil (zlen ext')) as (_ & _ & Hpos).
      destruct (decide (0 < zlen ext')) as [Hlt|]; [|lia]. specialize (Hpos Hlt).
      apply (f_equal length) in Hrows. unfold chunk_rows in Hrows. rewrite length_map, length_seqZ in Hrows.
      simpl in Hrows. lia.
    + right. eexists _, i. simpl. rewrite <- Heq, lookup_insert_eq. split; [done|].
      rewrite open_with, rows_of_with_ne by done. done.
  - right. exists tr', i. simpl. by rewrite lookup_insert_ne.
Qed.
End added.

(** There is an OID left for another value. *)
Definition has_room (tr : toastrel) : Prop := Z.of_nat (size (used_ids tr)) < OID_RANGE.

Lemma save_ok c st rel tr v data old :
  store_ok st -> st_rels st !! reltoastrelid rel = Some tr -> rd_toastoid rel = InvalidOid -> has_room tr ->
  savable c v data ->
  returns (toast_save_datum st rel v old) (fun '(p, st') => exists tp ext g,
    p = mk_ondisk tp /\ ok_ondisk tp /\ pointer_to c tp ext data /\ va_toastrelid tp = tr_oid tr /\
    (va_valueid tp ∉ used_ids tr) /\ oidgen_ok g /\ st' = added st tr (va_valueid tp) ext g).
Proof.
  intros Hst Htr Hrw Hroom Hv. destruct (ok_rels st Hst _ _ Htr) as (Hoid & Hrange & i & Hi).
  destruct (save_sizes_ok c v data Hv) as (p0 & ext & raw & info & Hsz & Hrd & Hptr).
  unfold toast_save_datum, table_open. rewrite Htr. bind. rewrite Hi. bind. rewrite Hsz. bind.
  unfold choose_valueid, OidIsValid. rewrite Hrw. change (InvalidOid =? InvalidOid) with true. cbn [negb].
  pose proof (get_new_oid (used_ids tr) (st_oids st) (ok_oids st Hst) Hroom) as Hnew.
  apply returns_eq in Hnew as ([valueid g] & Hg & Hfresh & Hvr & Hgok). rewrite Hg. bind.
  destruct (Hptr valueid (tr_oid tr)) as [Hp Hok].
  assert (Hd : zlen ext < 2 ^ 31).
  { assert (Hd : ok_4b_u data) by (destruct Hv as [? ? Hin|]; [by eapply inline_ok|done]).
    destruct (pointer_extsize c _ ext data Hd Hp) as (_ & ? & _). lia. }
  pose proof (save_loop tr v valueid p0 ext (unused_rows _ _ Hfresh) Hd Hrd) as Hloop.
  apply returns_eq in Hloop as (tr' & -> & <-). bind. cbn [returns].
  exists (Build_varatt_external raw info valueid (tr_oid tr)), ext, g. split_and!; try done.
  - apply Hok; [unfold FirstNormalObjectId in Hvr; lia|by rewrite Hoid].
  - simpl. unfold added. by destruct (with_rows_same tr valueid (chunk_rows ext (nchunks (zlen ext)))) as [-> _].
Qed.

(** ** Deleting *)

Lemma delete_rows_same tr valueid :
  tr_oid (toast_delete_rows tr valueid) = tr_oid tr /\
  toast_open_indexes (toast_delete_rows tr valueid) = toast_open_indexes tr /\
  rows_of (toast_delete_rows tr valueid) valueid = [] /\
  (forall valueid', valueid <> valueid' ->
     rows_of (toast_delete_rows tr valueid) valueid' = rows_of tr valueid').
Proof.
  unfold toast_delete_rows. destruct (rows_of tr valueid) as [|r rows] eqn:Hr; [done|].
  split_and!; try done.
  - unfold rows_of. simpl. by rewrite lookup_delete_eq.
  - intros valueid' Hne. unfold rows_of. simpl. by rewrite lookup_delete_ne.
Qed.

Lemma delete_used tr valueid : used_ids tr ⊆ used_ids (toast_delete_rows tr valueid).
Proof.
  unfold toast_delete_rows, used_ids. destruct (rows_of tr valueid); [done|]. simpl. rewrite dom_delete_L.
  intros x. rewrite !elem_of_union, elem_of_difference, elem_of_singleton.
  destruct (decide (x = valueid)); tauto.
Qed.

(** The scan of a value without rows is reported. *)
Lemma fetch_missing st tr valueid n result :
  0 < n -> n + 4 < 2 ^ 30 -> rows_of tr valueid = [] -> st_snapshot st = true ->
  (exists i, toast_open_indexes tr = Ok i) ->
  heap_fetch_toast_slice st tr valueid n 0 n result = Ereport ERRCODE_DATA_CORRUPTED.
Proof.
  intros Hn Hlt Hr Hsn [i Hi]. unfold heap_fetch_toast_slice. rewrite Hi. bind.
  unfold init_toast_snapshot. rewrite Hsn. bind. rewrite Hr.
  assert (Hs : forall p, scan_rows p [] = []) by (intros p; unfold scan_rows; by destruct (_ && _); [|destruct (_ =? _)]).
  rewrite Hs. cbn [fetch_rows plan_slice startchunk endchunk]. unfold size_t.
  rewrite !Z.mod_small by lia. rewrite chunk_size_val, !int32_small by lia.
  destruct (Z.eqb_spec (0 / 1996) ((0 + n - 1) / 1996 + 1)); [lia|done].
Qed.

Lemma delete_ok st tp tr :
  store_ok st -> ok_ondisk tp -> st_rels st !! va_toastrelid tp = Some tr ->
  forall t spec, toast_delete_datum st (mk_ondisk tp ++ t) spec
    = Ok (set_rel st (toast_delete_rows tr (va_valueid tp))).
Proof.
  intros Hst Hok Htr t spec. unfold toast_delete_datum. rewrite ondisk_test. cbn [mbind res_bind negb].
  rewrite get_pointer_e by done. bind. unfold table_open. rewrite Htr. bind.
  destruct (ok_rels st Hst _ _ Htr) as (_ & _ & i & ->). bind.
  unfold init_toast_snapshot. by rewrite (ok_snapshot st Hst).
Qed.

Lemma deleted_ok st tr valueid :
  store_ok st -> st_rels st !! tr_oid tr = Some tr -> store_ok (set_rel st (toast_delete_rows tr valueid)).
Proof.
  intros Hst Htr. destruct (delete_rows_same tr valueid) as (Ho & Hi & _).
  split; [apply Hst..|]. intros oid tr' Hl. simpl in Hl. rewrite Ho in Hl.
  destruct (decide (tr_oid tr = oid)) as [<-|Hne].
  - rewrite lookup_insert_eq in Hl. injection Hl as <-. rewrite Ho, Hi. exact (ok_rels st Hst _ _ Htr).
  - rewrite lookup_insert_ne in Hl by done. exact (ok_rels st Hst _ _ Hl).
Qed.

(** Two pointers to different entries. *)
Definition other (tp tp' : varatt_external) : Prop :=
  va_toastrelid tp <> va_toastrelid tp' \/ va_valueid tp <> va_valueid tp'.

Lemma deleted_keeps st tp tr tp' ext :
  store_ok st -> st_rels st !! va_toastrelid tp = Some tr -> other tp tp' -> stored st tp' ext ->
  stored (set_rel st (toast_delete_rows tr (va_valueid tp))) tp' ext.
Proof.
  intros Hst Htr Hne [H0|(tr' & i & Hr & Hi & Hrows & Hsn)]; [by left|]. right.
  destruct (ok_rels st Hst _ _ Htr) as (Hoid & _).
  destruct (delete_rows_same tr (va_valueid tp)) as (Ho & Hix & _ & Hsame).
  destruct (decide (va_toastrelid tp = va_toastrelid tp')) as [Heq|Hn].
  - rewrite <- Heq, Htr in Hr. injection Hr as <-. eexists _, i. simpl. rewrite Ho, Hoid, Heq, lookup_insert_eq.
    split; [done|]. rewrite Hix. split; [done|]. rewrite Hsame; [done|]. by destruct Hne.
  - exists tr', i. simpl. rewrite Ho, Hoid. by rewrite lookup_insert_ne.
Qed.

(** ** Properties *)

(** C5: A value that was stored out of line comes back: for a plain, short or compressed
    value, toast_save_datum returns a toast pointer, and in the database it leaves,
    detoast_attr of the pointer is the contents with a plain header, detoast_attr_slice
    is any slice of the contents, and toast_raw_datum_size is their size.  The value's
    chunks may be any number.  A value that is compressed by RLE can be read where the
    chunks that palloc gives have room for what rle_decompress writes past a result: a
    NUL for the whole value, the rest of the last token and a NUL for a slice. *)
Theorem toast_save_roundtrip E rel tr v data old t :
  store_ok (e_store E) -> st_rels (e_store E) !! reltoastrelid rel = Some tr -> rd_toastoid rel = InvalidOid ->
  has_room tr -> savable (e_cfg E) v data ->
  returns (toast_save_datum (e_store E) rel v old) (fun '(p, st') =>
    detoast_attr (with_store E st') (p ++ t) = Ok (mk_4b_u data) /\
    (forall off len, 0 <= off -> (0 <= len -> slice_fits (with_store E st') (p ++ t) data (off + len)) ->
       detoast_attr_slice (with_store E st') (p ++ t) off len = Ok (mk_4b_u (slice_of data off len))) /\
    toast_raw_datum_size (with_store E st') (p ++ t) = Ok (zlen data + VARHDRSZ)).
Proof.
  intros Hst Htr Hrw Hroom Hv. eapply returns_mono; [by eapply save_ok|].
  intros [p st'] (tp & ext & g & -> & Hok & Hp & Hrel & Hnew & Hg & ->).
  destruct (ok_rels _ Hst _ _ Htr) as (Hoid & _). rewrite <- Hoid in Htr.
  assert (Hd : direct (with_store E (added (e_store E) tr (va_valueid tp) ext g)) (mk_ondisk tp ++ t) data).
  { apply (direct_ondisk _ tp ext); try done.
    - destruct Hv as [? ? Hi|]; [by eapply inline_ok|done].
    - destruct tp as [raw info vid rid]. simpl in Hrel. subst rid. by apply added_stored. }
  split; [by apply detoast_ondisk|]. split; [|by apply raw_size_ok, holds_direct].
  intros off len Hoff Hfit. by apply slice_ok; [apply holds_direct|..].
Qed.

(** Storing a value out of line changes nothing else: the database invariant is kept,
    the new pointer's value id is one that no row of the toast table had, live or dead,
    and every datum that stood for some contents, in any form, still does. *)
Theorem toast_save_frame E rel tr v data old :
  store_ok (e_store E) -> st_rels (e_store E) !! reltoastrelid rel = Some tr -> rd_toastoid rel = InvalidOid ->
  has_room tr -> savable (e_cfg E) v data ->
  returns (toast_save_datum (e_store E) rel v old) (fun '(p, st') =>
    store_ok st' /\
    (exists tp, p = mk_ondisk tp /\ va_toastrelid tp = reltoastrelid rel /\ (va_valueid tp ∉ used_ids tr)) /\
    forall v' data', holds E v' data' -> holds (with_store E st') v' data').
Proof.
  intros Hst Htr Hrw Hroom Hv. eapply returns_mono; [by eapply save_ok|].
  intros [p st'] (tp & ext & g & -> & Hok & Hp & Hrel & Hnew & Hg & ->).
  destruct (ok_rels _ Hst _ _ Htr) as (Hoid & _). rewrite Hoid in Hrel. rewrite <- Hoid in Htr.
  split; [by apply added_ok|]. split; [by exists tp|].
  intros v' data' H'. apply holds_keeps; [by apply added_keeps|done].
Qed.

(** Deleting a stored value removes it and nothing else: afterwards reading the
    pointer is reported as corrupted data instead of returning something, every toast
    pointer to another entry still has its bytes, the invariant is kept, and the value
    id stays marked as used, so that it is not given out again. *)
Theorem toast_delete_correct E tp tr ext data t spec :
  store_ok (e_store E) -> ok_ondisk tp -> ok_4b_u data -> pointer_to (e_cfg E) tp ext data ->
  st_rels (e_store E) !! va_toastrelid tp = Some tr -> 0 < zlen ext ->
  returns (toast_delete_datum (e_store E) (mk_ondisk tp ++ t) spec) (fun st' =>
    store_ok st' /\
    detoast_attr (with_store E st') (mk_ondisk tp ++ t) = Ereport ERRCODE_DATA_CORRUPTED /\
    (forall tp' ext', other tp tp' -> stored (e_store E) tp' ext' -> stored st' tp' ext') /\
    exists tr', st_rels st' !! va_toastrelid tp = Some tr' /\ used_ids tr ⊆ used_ids tr').
Proof.
  intros Hst Hok Hd Hp Htr Hpos. rewrite (delete_ok _ tp tr) by done. cbn [returns].
  destruct (ok_rels _ Hst _ _ Htr) as (Hoid & _ & Hix).
  destruct (delete_rows_same tr (va_valueid tp)) as (Ho & Hi & Hnone & _).
  assert (Hl : st_rels (set_rel (e_store E) (toast_delete_rows tr (va_valueid tp))) !! va_toastrelid tp
    = Some (toast_delete_rows tr (va_valueid tp))) by (simpl; by rewrite Ho, Hoid, lookup_insert_eq).
  split_and!.
  - apply deleted_ok; [done|by rewrite Hoid].
  - destruct (pointer_extsize _ _ _ _ Hd Hp) as (Hx & Hsz & _).
    unfold detoast_attr, detoast_attr_n. rewrite ondisk_test. bind.
    unfold toast_fetch_datum. rewrite ondisk_test. cbn [mbind res_bind negb]. rewrite get_pointer_e by done. bind.
    rewrite Hx, int32_small by lia. rewrite palloc_ok by (unfold VARHDRSZ, MaxAllocSize; lia). bind.
    destruct (Z.eqb_spec (zlen ext) 0); [lia|]. unfold fetch_into, table_open. cbn [with_store e_store].
    rewrite Hl. bind. rewrite fetch_missing; [done|done|done|done|apply Hst|by rewrite Hi].
  - intros tp' ext' Hne Hs. by apply deleted_keeps.
  - eexists. split; [exact Hl|]. apply delete_used.
Qed.

(** *** Witnesses *)

Definition sample_relation : relation := {| reltoastrelid := 16500; rd_toastoid := InvalidOid |}.

Lemma sample_store_ok : store_ok sample_store.
Proof.
  split; [split; simpl; [lia|unfold VAR_OID_PREFETCH; lia|by left]|done|].
  intros oid tr Hl. unfold sample_store in Hl. cbn [st_rels] in Hl. apply lookup_singleton_Some in Hl as [<- <-]. split; [done|]. split; [simpl; lia|]. by exists 0.
Qed.
Lemma sample_room : has_room sample_table.
Proof. vm_compute. reflexivity. Qed.
Lemma sample_savable : savable sample_config (mk_1b [1; 2; 3]) [1; 2; 3].
Proof. apply savable_inline. rewrite <- (app_nil_r (mk_1b _)). constructor. vm_compute. discriminate. Qed.
Lemma toast_save_roundtrip_witness :
  exists p st', toast_save_datum sample_store sample_relation (mk_1b [1; 2; 3]) None = Ok (p, st') /\
    detoast_attr (with_store sample_env st') (p ++ []) = Ok (mk_4b_u [1; 2; 3]).
Proof.
  pose proof (toast_save_roundtrip sample_env sample_relation sample_table _ _ None [] sample_store_ok
    eq_refl eq_refl sample_room sample_savable) as H.
  apply returns_eq in H as ([p st'] & E & H & _). exists p, st'. split; [exact E|exact H].
Defined.

Lemma toast_save_frame_witness :
  exists p st', toast_save_datum sample_store sample_relation (mk_1b [1; 2; 3]) None = Ok (p, st') /\
    store_ok st' /\ holds (with_store sample_env st') (mk_ondisk sample_tp ++ []) sample_value.
Proof.
  pose proof (toast_save_frame sample_env sample_relation sample_table _ _ None sample_store_ok
    eq_refl eq_refl sample_room sample_savable) as H.
  apply returns_eq in H as ([p st'] & E & Hok & _ & H). exists p, st'. split; [exact E|]. split; [exact Hok|].
  apply H, holds_direct, sample_direct.
Defined.

Lemma toast_delete_correct_witness :
  exists st', toast_delete_datum sample_store (mk_ondisk sample_tp ++ []) false = Ok st' /\
    detoast_attr (with_store sample_env st') (mk_ondisk sample_tp ++ []) = Ereport ERRCODE_DATA_CORRUPTED.
Proof.
  pose proof (toast_delete_correct sample_env sample_tp sample_table sample_value sample_value [] false
    sample_store_ok ltac:(vm_compute; intuition discriminate) ltac:(vm_compute; reflexivity)
    ltac:(by apply to_plain) eq_refl ltac:(vm_compute; reflexivity)) as H.
  apply returns_eq in H as (st' & E & _ & H & _). exists st'. split; [exact E|exact H].
Defined.
