(* ===== verification/HeapTuple.v ===== *)
(** Heap tuples: src/backend/access/common/heaptuple.c with the attribute macros of
    src/include/access/tupmacs.h and the tuple header of
    src/include/access/htup_details.h.

    The toaster works on the attributes of a tuple, and what it decides is written to
    disk by heap_fill_tuple.  A [Datum] is a word or a pointer; a pointer is the bytes it
    points to, as in Varatt.  The arrays values and isnull are one list of options.  The
    bitmap and the data area of a tuple are separate lists; the data area starts at a
    MAXALIGNed address, so that aligning a pointer into it is aligning its offset.  The
    offsets that deforming caches in the tuple descriptor are explicit state. *)

From S2P Require Import Prelude Rle Varatt Pglz PglzHist PglzItems PglzCodec ToastCompression Oids ToastStore Detoast.

(** ** Constants *)

Definition MaxTupleAttributeNumber : Z := 1664.
Definition MaxHeapAttributeNumber : Z := 1600.
Definition HIGHBIT : Z := 0x80.
Definition HEAP_HASNULL : Z := 0x0001.
Definition HEAP_HASVARWIDTH : Z := 0x0002.
Definition HEAP_HASEXTERNAL : Z := 0x0004.
Definition HEAP_XACT_MASK : Z := 0xFFF0.
Definition HEAP_NATTS_MASK : Z := 0x07FF.
Definition HEAP2_XACT_MASK : Z := 0xE000.
Definition BITMAPLEN (natts : Z) : Z := (natts + 7) / 8.
(** MAXALIGN(sizeof(HeapTupleData)) *)
Definition HEAPTUPLESIZE : Z := 24.

Definition TYPALIGN_CHAR : Z := 99.
Definition TYPALIGN_SHORT : Z := 115.
Definition TYPALIGN_INT : Z := 105.
Definition TYPALIGN_DOUBLE : Z := 100.
Definition TYPSTORAGE_PLAIN : Z := 112.
Definition TYPSTORAGE_EXTERNAL : Z := 101.
Definition TYPSTORAGE_EXTENDED : Z := 120.
Definition TYPSTORAGE_MAIN : Z := 109.

(** ** Datums, descriptors, tuples *)

Inductive Datum :=
| DVal (z : Z)
| DPtr (p : list Z).

Definition DatumGetPointer (d : Datum) : res (list Z) :=
  match d with DPtr p => Ok p | DVal _ => Ub end.
Definition DatumGetWord (d : Datum) : res Z :=
  match d with DVal z => Ok z | DPtr _ => Ub end.

(** FormData_pg_attribute, without attcacheoff *)
Record attribute := mkAtt {
  attlen : Z;
  attbyval : bool;
  attalign : Z;
  attstorage : Z;
  attcompression : Z;
  attisdropped : bool;
  atthasmissing : bool
}.

(** [attcacheoff] of the attributes; [missing] is tupleDesc->constr->missing. *)
Record tupledesc := mkDesc {
  td_atts : list attribute;
  td_cache : list Z;
  td_missing : option (list (option Datum));
  tdtypeid : Z;
  tdtypmod : Z
}.
Definition natts (desc : tupledesc) : Z := zlen (td_atts desc).
Definition set_cache (desc : tupledesc) (cache : list Z) : tupledesc :=
  mkDesc (td_atts desc) cache (td_missing desc) (tdtypeid desc) (tdtypmod desc).

(** [t_choice] is the union of transaction fields and datum fields (12 bytes);
    [t_bits] runs from offsetof(t_bits) to t_hoff, [t_body] from t_hoff on. *)
Record HeapTupleHeader := mkHeader {
  t_choice : list Z;
  t_ctid : Z * Z;
  t_infomask2 : Z;
  t_infomask : Z;
  t_hoff : Z;
  t_bits : list Z;
  t_body : list Z
}.
Record HeapTuple := mkTuple {
  t_len : Z;
  t_self : Z * Z;
  t_tableOid : Z;
  t_data : HeapTupleHeader
}.

(** ItemPointerSetInvalid: InvalidBlockNumber, InvalidOffsetNumber *)
Definition InvalidItemPointer : Z * Z := (0xFFFFFFFF, 0).

Definition HeapTupleHeaderGetNatts (td : HeapTupleHeader) : Z := Z.land (t_infomask2 td) HEAP_NATTS_MASK.
Definition SetNatts (infomask2 n : Z) : Z := Z.lor (Z.land infomask2 (Z.lnot HEAP_NATTS_MASK)) n.
Definition HeapTupleHasNulls (tup : HeapTuple) : bool := negb (Z.land (t_infomask (t_data tup)) HEAP_HASNULL =? 0).
Definition HeapTupleHasVarWidth (tup : HeapTuple) : bool :=
  negb (Z.land (t_infomask (t_data tup)) HEAP_HASVARWIDTH =? 0).
Definition HeapTupleHasExternal (tup : HeapTuple) : bool :=
  negb (Z.land (t_infomask (t_data tup)) HEAP_HASEXTERNAL =? 0).

(** SetDatumLength, SetTypeId, SetTypMod on t_choice *)
Definition SetDatumFields (choice : list Z) (len typeid typmod : Z) : list Z :=
  take 4 (SET_VARSIZE choice len) ++ le32 (wrap32 typmod) ++ le32 (wrap32 typeid).

(** ** tupmacs.h *)

Definition att_isnull (att : Z) (bits : list Z) : res bool :=
  b ← rd bits (Z.shiftr att 3); Ok (Z.land b (Z.shiftl 1 (Z.land att 0x07)) =? 0).

(** Little-endian integers of n bytes. *)
Fixpoint le (n : nat) (z : Z) : list Z :=
  match n with O => [] | S n => z mod 256 :: le n (z / 256) end.
Fixpoint le_val (l : list Z) : Z :=
  match l with [] => 0 | b :: l => b + 256 * le_val l end.

(** Datum of a signed integer of w bits: sign extension to the 64-bit word. *)
Definition word_of (w z : Z) : Z := (if z <? 2 ^ (w - 1) then z else z - 2 ^ w) mod 2 ^ 64.
Definition byval_len (len : Z) : bool := (len =? 1) || (len =? 2) || (len =? 4) || (len =? 8).

Definition fetch_att (T : list Z) (byval : bool) (len : Z) : res Datum :=
  if byval then
    if byval_len len then x ← rdn T 0 len; Ok (DVal (word_of (8 * len) (le_val x)))
    else Ereport ERRCODE_INTERNAL_ERROR
  else Ok (DPtr T).
Definition fetchatt (att : attribute) (T : list Z) : res Datum := fetch_att T (attbyval att) (attlen att).

(** The bytes store_att_byval writes. *)
Definition store_att_byval (newdatum len : Z) : res (list Z) :=
  if byval_len len then Ok (le (Z.to_nat len) newdatum) else Ereport ERRCODE_INTERNAL_ERROR.

Definition att_align_nominal (off align : Z) : Z :=
  if align =? TYPALIGN_INT then TYPEALIGN 4 off
  else if align =? TYPALIGN_CHAR then off
  else if align =? TYPALIGN_DOUBLE then TYPEALIGN 8 off
  else TYPEALIGN 2 off.

Definition att_align_datum (off align len : Z) (d : Datum) : res Z :=
  short ← (if len =? -1 then p ← DatumGetPointer d; VARATT_IS_SHORT p else Ok false);
  Ok (if (short : bool) then off else att_align_nominal off align).

(** [p]: the memory from the current offset on. *)
Definition att_align_pointer (off align len : Z) (p : list Z) : res Z :=
  nopad ← (if len =? -1 then VARATT_NOT_PAD_BYTE p else Ok false);
  Ok (if (nopad : bool) then off else att_align_nominal off align).

Definition att_addlength_pointer (off len : Z) (p : list Z) : res Z :=
  if len >? 0 then Ok (off + len)
  else if len =? -1 then n ← VARSIZE_ANY p; Ok (off + n)
  else n ← strlen p; Ok (off + (n + 1)).
(** The datum is only looked at for a variable length. *)
Definition att_addlength_datum (off len : Z) (d : Datum) : res Z :=
  if len >? 0 then Ok (off + len) else p ← DatumGetPointer d; att_addlength_pointer off len p.

(** ** Forming *)

Definition ATT_IS_PACKABLE (att : attribute) : bool :=
  (attlen att =? -1) && negb (attstorage att =? TYPSTORAGE_PLAIN).
Definition VARLENA_ATT_IS_PACKABLE (att : attribute) : bool := negb (attstorage att =? TYPSTORAGE_PLAIN).

Section form.
Context (E : env).

(** The space of one attribute. *)
Definition add_data_size (att : attribute) (val : Datum) (data_length : Z) : res Z :=
  short ← (if ATT_IS_PACKABLE att then p ← DatumGetPointer val; VARATT_CAN_MAKE_SHORT p else Ok false);
  if (short : bool) then
    p ← DatumGetPointer val; n ← VARATT_CONVERTED_SHORT_SIZE p; Ok (data_length + n)
  else
  expanded ← (if attlen att =? -1 then p ← DatumGetPointer val; VARATT_IS_EXTERNAL_EXPANDED p else Ok false);
  if (expanded : bool) then
    p ← DatumGetPointer val; n ← EOH_get_flat_size E p;
    Ok (att_align_nominal data_length (attalign att) + n)
  else
    data_length ← att_align_datum data_length (attalign att) (attlen att) val;
    att_addlength_datum data_length (attlen att) val.

Fixpoint data_size_loop (atts : list attribute) (values : list (option Datum)) (data_length : Z) : res Z :=
  match atts, values with
  | [], _ => Ok data_length
  | _ :: atts, None :: values => data_size_loop atts values data_length
  | att :: atts, Some val :: values =>
      data_length ← add_data_size att val data_length; data_size_loop atts values data_length
  | _ :: _, [] => Ub
  end.
Definition heap_compute_data_size (desc : tupledesc) (values : list (option Datum)) : res Z :=
  data_size_loop (td_atts desc) values 0.

(** The state of filling: the bitmap with the pointer bit and the bitmask, if there is
    a bitmap, the data area, the pointer data and the infomask. *)
Record fill_state := mkFill {
  fs_bit : option (list Z * Z * Z);
  fs_area : list Z;
  fs_data : Z;
  fs_infomask : Z
}.

(** fill_val's part on the bitmap. *)
Definition next_bit (x : list Z * Z * Z) (isnull : bool) : res (list Z * Z * Z) :=
  let '(bits, bit, bitmask) := x in
  x ← (if negb (bitmask =? HIGHBIT) then Ok (bits, bit, Z.shiftl bitmask 1)
       else bits ← wr bits (bit + 1) [0x0]; Ok (bits, bit + 1, 1));
  let '(bits, bit, bitmask) := x in
  if (isnull : bool) then Ok (bits, bit, bitmask) else
  b ← rd bits bit;
  bits ← wr bits bit [Z.lor b bitmask];
  Ok (bits, bit, bitmask).

(** The value of an attribute, without the bitmap: data area, pointer, infomask. *)
Definition put (area : list Z) (data : Z) (x : list Z) (infomask : Z) : res (list Z * Z * Z) :=
  area ← wr area data x; Ok (area, data + zlen x, infomask).
Definition store_val (att : attribute) (datum : Datum) (area : list Z) (data infomask : Z)
    : res (list Z * Z * Z) :=
  if attbyval att then
    z ← DatumGetWord datum;
    x ← store_att_byval z (attlen att);
    put area (att_align_nominal data (attalign att)) x infomask
  else if attlen att =? -1 then
    val ← DatumGetPointer datum;
    let infomask := Z.lor infomask HEAP_HASVARWIDTH in
    external ← VARATT_IS_EXTERNAL val;
    if (external : bool) then
      expanded ← VARATT_IS_EXTERNAL_EXPANDED val;
      if (expanded : bool) then
        flat ← flat_form E val;
        put area (att_align_nominal data (attalign att)) flat infomask
      else
        data_length ← VARSIZE_EXTERNAL val;
        x ← rdn val 0 data_length;
        put area data x (Z.lor infomask HEAP_HASEXTERNAL)
    else
    short ← VARATT_IS_SHORT val;
    if (short : bool) then
      data_length ← VARSIZE_SHORT val;
      x ← rdn val 0 data_length;
      put area data x infomask
    else
    pack ← (if VARLENA_ATT_IS_PACKABLE att then VARATT_CAN_MAKE_SHORT val else Ok false);
    if (pack : bool) then
      data_length ← VARATT_CONVERTED_SHORT_SIZE val;
      x ← rdn val VARDATA (data_length - 1);
      put area data (SET_VARSIZE_SHORT [0] data_length ++ x) infomask
    else
      data_length ← VARSIZE val;
      x ← rdn val 0 data_length;
      put area (att_align_nominal data (attalign att)) x infomask
  else if attlen att =? -2 then
    p ← DatumGetPointer datum;
    n ← strlen p;
    x ← rdn p 0 (n + 1);
    put area data x (Z.lor infomask HEAP_HASVARWIDTH)
  else
    p ← DatumGetPointer datum;
    x ← rdn p 0 (attlen att);
    put area (att_align_nominal data (attalign att)) x infomask.

(** A null without a bitmap does not occur: the datum of a null is a null pointer. *)
Definition fill_val (att : attribute) (s : fill_state) (datum : option Datum) : res fill_state :=
  bit ← (match fs_bit s with
         | None => Ok None
         | Some x => y ← next_bit x (match datum with None => true | Some _ => false end); Ok (Some y)
         end);
  match datum with
  | None =>
      match bit with
      | Some _ => Ok (mkFill bit (fs_area s) (fs_data s) (Z.lor (fs_infomask s) HEAP_HASNULL))
      | None => Ub
      end
  | Some d =>
      x ← store_val att d (fs_area s) (fs_data s) (fs_infomask s);
      let '(area, data, infomask) := x in Ok (mkFill bit area data infomask)
  end.

Fixpoint fill_loop (atts : list attribute) (values : list (option Datum)) (s : fill_state) : res fill_state :=
  match atts, values with
  | [], _ => Ok s
  | att :: atts, d :: values => s ← fill_val att s d; fill_loop atts values s
  | _ :: _, [] => Ub
  end.
(** [bit]: the bitmap, if one is wanted; bitP starts at &bit[-1]. *)
Definition heap_fill_tuple (desc : tupledesc) (values : list (option Datum)) (area : list Z) (infomask : Z)
    (bit : option (list Z)) : res fill_state :=
  let bitP := match bit with Some bits => Some (bits, -1, HIGHBIT) | None => None end in
  let infomask := Z.land infomask (Z.lnot (Z.lor (Z.lor HEAP_HASNULL HEAP_HASVARWIDTH) HEAP_HASEXTERNAL)) in
  fill_loop (td_atts desc) values (mkFill bitP area 0 infomask).
Definition filled_bits (s : fill_state) (none : list Z) : list Z :=
  match fs_bit s with Some (bits, _, _) => bits | None => none end.

Definition has_nulls (desc : tupledesc) (values : list (option Datum)) : bool :=
  existsb (fun d => match d with None => true | Some _ => false end) (take (length (td_atts desc)) values).

Definition heap_form_tuple (desc : tupledesc) (values : list (option Datum)) : res HeapTuple :=
  let numberOfAttributes := natts desc in
  if numberOfAttributes >? MaxTupleAttributeNumber then Ereport ERRCODE_TOO_MANY_COLUMNS else
  let hasnull := has_nulls desc values in
  let len := SizeofHeapTupleHeader in
  let len := if hasnull then len + BITMAPLEN numberOfAttributes else len in
  let hoff := MAXALIGN len in
  data_len ← heap_compute_data_size desc values;
  let len := hoff + data_len in
  _ ← palloc (HEAPTUPLESIZE + len);
  let bits := zrep (hoff - SizeofHeapTupleHeader) 0 in
  s ← heap_fill_tuple desc values (zrep data_len 0) 0 (if hasnull then Some bits else None);
  Ok (mkTuple len InvalidItemPointer InvalidOid
       (mkHeader (SetDatumFields (zrep 12 0) len (tdtypeid desc) (tdtypmod desc)) InvalidItemPointer
          (SetNatts 0 numberOfAttributes) (fs_infomask s) (hoff mod 256) (filled_bits s bits) (fs_area s))).
End form.

(** ** Deforming *)

Definition TupleDescAttr (desc : tupledesc) (i : Z) : res attribute :=
  if 0 <=? i then match td_atts desc !! Z.to_nat i with Some att => Ok att | None => Ub end else Ub.

(** The value of an attribute that was added after the tuple was written.  The cache of
    missing values holds copies with the same bytes. *)
Definition getmissingattr (desc : tupledesc) (attnum : Z) : res (option Datum) :=
  att ← TupleDescAttr desc (attnum - 1);
  if atthasmissing att then
    match td_missing desc with
    | None => Ub
    | Some attrmiss =>
        match attrmiss !! Z.to_nat (attnum - 1) with
        | None => Ub
        | Some None => Ok None
        | Some (Some am_value) =>
            if attbyval att then Ok (Some am_value) else
            p ← DatumGetPointer am_value;
            len ← (if attlen att >? 0 then Ok (attlen att) else VARSIZE_ANY p);
            x ← rdn p 0 len;
            Ok (Some (DPtr x))
        end
    end
  else Ok None.

(** tp + off *)
Definition at_off (tp : list Z) (off : Z) : list Z := drop (Z.to_nat off) tp.

(** Where an attribute that is not null is: offset, cached offset, slow. *)
Definition locate_att (tp : list Z) (att : attribute) (cacheoff off : Z) (slow : bool) : res (Z * Z * bool) :=
  if negb slow && (cacheoff >=? 0) then Ok (cacheoff, cacheoff, slow)
  else if attlen att =? -1 then
    if negb slow && (off =? att_align_nominal off (attalign att)) then Ok (off, off, slow)
    else off ← att_align_pointer off (attalign att) (-1) (at_off tp off); Ok (off, cacheoff, true)
  else
    let off := att_align_nominal off (attalign att) in
    Ok (off, if slow then cacheoff else off, slow).

Fixpoint deform_loop (tp bp : list Z) (hasnulls : bool) (atts : list attribute) (cache : list Z)
    (attnum off : Z) (slow : bool) : res (list (option Datum) * list Z) :=
  match atts, cache with
  | [], _ => Ok ([], cache)
  | thisatt :: atts, cacheoff :: cache =>
      isnull ← (if hasnulls then att_isnull attnum bp else Ok false);
      if (isnull : bool) then
        x ← deform_loop tp bp hasnulls atts cache (attnum + 1) off true;
        Ok (None :: fst x, cacheoff :: snd x)
      else
        y ← locate_att tp thisatt cacheoff off slow;
        let '(off, cacheoff, slow) := y in
        value ← fetchatt thisatt (at_off tp off);
        off ← att_addlength_pointer off (attlen thisatt) (at_off tp off);
        x ← deform_loop tp bp hasnulls atts cache (attnum + 1) off (if attlen thisatt <=? 0 then true else slow);
        Ok (Some value :: fst x, cacheoff :: snd x)
  | _ :: _, [] => Ub
  end.

(** for (; attnum < tdesc_natts; attnum++) *)
Fixpoint missing_loop (desc : tupledesc) (attnum : Z) (n : nat) : res (list (option Datum)) :=
  match n with
  | O => Ok []
  | S n =>
      v ← getmissingattr desc (attnum + 1);
      rest ← missing_loop desc (attnum + 1) n;
      Ok (v :: rest)
  end.

(** The values, and the descriptor with the offsets that are known now. *)
Definition heap_deform_tuple (tuple : HeapTuple) (desc : tupledesc) : res (list (option Datum) * tupledesc) :=
  let tup := t_data tuple in
  let hasnulls := HeapTupleHasNulls tuple in
  let n := Z.min (HeapTupleHeaderGetNatts tup) (natts desc) in
  x ← deform_loop (t_body tup) (t_bits tup) hasnulls (take (Z.to_nat n) (td_atts desc)) (td_cache desc) 0 0 false;
  rest ← missing_loop desc n (Z.to_nat (natts desc - n));
  Ok (fst x ++ rest, set_cache desc (snd x)).

(** Forming a tuple again with some columns replaced. *)
Fixpoint replace_cols (values repl : list (option Datum)) (doReplace : list bool) : res (list (option Datum)) :=
  match values, repl, doReplace with
  | [], _, _ => Ok []
  | v :: values, r :: repl, b :: doReplace =>
      rest ← replace_cols values repl doReplace; Ok ((if b : bool then r else v) :: rest)
  | _, _, _ => Ub
  end.

Definition with_identity (newTuple tuple : HeapTuple) : HeapTuple :=
  let td := t_data newTuple in
  mkTuple (t_len newTuple) (t_self tuple) (t_tableOid tuple)
    (mkHeader (t_choice td) (t_ctid (t_data tuple)) (t_infomask2 td) (t_infomask td) (t_hoff td) (t_bits td) (t_body td)).

Definition heap_modify_tuple (E : env) (tuple : HeapTuple) (desc : tupledesc) (replValues : list (option Datum))
    (doReplace : list bool) : res (HeapTuple * tupledesc) :=
  x ← heap_deform_tuple tuple desc;
  let '(values, desc) := x in
  values ← replace_cols values replValues doReplace;
  newTuple ← heap_form_tuple E desc values;
  Ok (with_identity newTuple tuple, desc).

Fixpoint replace_by_cols (n : Z) (values : list (option Datum)) (cols : list (Z * option Datum))
    : res (list (option Datum)) :=
  match cols with
  | [] => Ok values
  | (attnum, v) :: cols =>
      if (attnum <=? 0) || (attnum >? n) then Ereport ERRCODE_INTERNAL_ERROR
      else replace_by_cols n (<[Z.to_nat (attnum - 1) := v]> values) cols
  end.

Definition heap_modify_tuple_by_cols (E : env) (tuple : HeapTuple) (desc : tupledesc)
    (cols : list (Z * option Datum)) : res (HeapTuple * tupledesc) :=
  x ← heap_deform_tuple tuple desc;
  let '(values, desc) := x in
  values ← replace_by_cols (natts desc) values cols;
  newTuple ← heap_form_tuple E desc values;
  Ok (with_identity newTuple tuple, desc).

(** ** One attribute *)

(** Are there nulls before attribute attnum (counted from 0)? *)
Definition nulls_before (bp : list Z) (attnum : Z) : res bool :=
  let byte := Z.shiftr attnum 3 in
  let finalbit := Z.land attnum 0x07 in
  b ← rd bp byte;
  if negb (Z.land (Z.lnot b) (Z.shiftl 1 finalbit - 1) =? 0) then Ok true
  else x ← rdn bp 0 byte; Ok (existsb (fun b => negb (b =? 0xFF)) x).

(** The offsets of the leading fixed-width attributes: the attributes with an offset are
    passed over first. *)
Fixpoint init_offsets (atts : list attribute) (cache : list Z) (over : bool) (off : Z) : list Z :=
  match atts, cache with
  | att :: atts, c :: cache =>
      if over && (c >? 0) then c :: init_offsets atts cache true (c + attlen att)
      else if attlen att <=? 0 then c :: cache
      else
        let off := att_align_nominal off (attalign att) in
        off :: init_offsets atts cache false (off + attlen att)
  | _, _ => cache
  end.

(** The walk to attribute attnum; [i] counts up to it. *)
Fixpoint walk_loop (tp bp : list Z) (hasnulls : bool) (atts : list attribute) (cache : list Z)
    (i attnum off : Z) (usecache : bool) : res (Z * list Z) :=
  match atts, cache with
  | att :: atts, c :: cache =>
      isnull ← (if hasnulls then att_isnull i bp else Ok false);
      if (isnull : bool) then
        x ← walk_loop tp bp hasnulls atts cache (i + 1) attnum off false; Ok (fst x, c :: snd x)
      else
        y ← locate_att tp att c off (negb usecache);
        let '(off, c, slow) := y in
        if i =? attnum then Ok (off, c :: cache) else
        off ← att_addlength_pointer off (attlen att) (at_off tp off);
        x ← walk_loop tp bp hasnulls atts cache (i + 1) attnum off (negb slow && negb (attlen att <=? 0));
        Ok (fst x, c :: snd x)
  | _, _ => Ub
  end.

(** nocachegetattr, attnum counted from 1 as in the call. *)
Definition nocachegetattr (tup : HeapTuple) (attnum : Z) (desc : tupledesc) : res (Datum * tupledesc) :=
  let td := t_data tup in
  let bp := t_bits td in
  let tp := t_body td in
  let attnum := attnum - 1 in
  slow ← (if HeapTupleHasNulls tup then nulls_before bp attnum else Ok false);
  att ← TupleDescAttr desc attnum;
  cacheoff ← (match td_cache desc !! Z.to_nat attnum with Some c => Ok c | None => Ub end);
  if negb slow && (cacheoff >=? 0) then v ← fetchatt att (at_off tp cacheoff); Ok (v, desc) else
  let slow := slow || (HeapTupleHasVarWidth tup &&
                       existsb (fun a => attlen a <=? 0) (take (Z.to_nat (attnum + 1)) (td_atts desc))) in
  if negb slow then
    match td_atts desc, td_cache desc with
    | att0 :: atts, _ :: cache =>
        let cache := 0 :: init_offsets atts cache true (0 + attlen att0) in
        off ← (match cache !! Z.to_nat attnum with Some c => Ok c | None => Ub end);
        v ← fetchatt att (at_off tp off);
        Ok (v, set_cache desc cache)
    | _, _ => Ub
    end
  else
    x ← walk_loop tp bp (HeapTupleHasNulls tup) (td_atts desc) (td_cache desc) 0 attnum 0 true;
    v ← fetchatt att (at_off tp (fst x));
    Ok (v, set_cache desc (snd x)).

Definition fastgetattr (tup : HeapTuple) (attnum : Z) (desc : tupledesc) : res (option Datum * tupledesc) :=
  if negb (HeapTupleHasNulls tup) then
    att ← TupleDescAttr desc (attnum - 1);
    cacheoff ← (match td_cache desc !! Z.to_nat (attnum - 1) with Some c => Ok c | None => Ub end);
    if cacheoff >=? 0 then v ← fetchatt att (at_off (t_body (t_data tup)) cacheoff); Ok (Some v, desc)
    else x ← nocachegetattr tup attnum desc; Ok (Some (fst x), snd x)
  else
    isnull ← att_isnull (attnum - 1) (t_bits (t_data tup));
    if (isnull : bool) then Ok (None, desc)
    else x ← nocachegetattr tup attnum desc; Ok (Some (fst x), snd x).

(** System attributes: t_choice holds t_xmin, t_xmax and t_cid. *)
Definition SelfItemPointerAttributeNumber : Z := -1.
Definition MinTransactionIdAttributeNumber : Z := -2.
Definition MinCommandIdAttributeNumber : Z := -3.
Definition MaxTransactionIdAttributeNumber : Z := -4.
Definition MaxCommandIdAttributeNumber : Z := -5.
Definition TableOidAttributeNumber : Z := -6.
(** ItemPointerData: bi_hi, bi_lo, ip_posid *)
Definition ItemPointerData (tid : Z * Z) : list Z := le 2 (fst tid / 2 ^ 16) ++ le 2 (fst tid) ++ le 2 (snd tid).

Definition heap_getsysattr (tup : HeapTuple) (attnum : Z) : res Datum :=
  let td := t_data tup in
  if attnum =? SelfItemPointerAttributeNumber then Ok (DPtr (ItemPointerData (t_self tup)))
  else if attnum =? MinTransactionIdAttributeNumber then x ← rd32 (t_choice td) 0; Ok (DVal x)
  else if attnum =? MaxTransactionIdAttributeNumber then x ← rd32 (t_choice td) 4; Ok (DVal x)
  else if (attnum =? MinCommandIdAttributeNumber) || (attnum =? MaxCommandIdAttributeNumber) then
    x ← rd32 (t_choice td) 8; Ok (DVal x)
  else if attnum =? TableOidAttributeNumber then Ok (DVal (t_tableOid tup))
  else Ereport ERRCODE_INTERNAL_ERROR.

Definition heap_getattr (tup : HeapTuple) (attnum : Z) (desc : tupledesc) : res (option Datum * tupledesc) :=
  if attnum >? 0 then
    if attnum >? HeapTupleHeaderGetNatts (t_data tup) then
      v ← getmissingattr desc attnum; Ok (v, desc)
    else fastgetattr tup attnum desc
  else v ← heap_getsysattr tup attnum; Ok (Some v, desc).

Definition heap_attisnull (tup : HeapTuple) (attnum : Z) (desc : tupledesc) : res bool :=
  if attnum >? HeapTupleHeaderGetNatts (t_data tup) then
    att ← TupleDescAttr desc (attnum - 1); Ok (negb (atthasmissing att))
  else if attnum >? 0 then
    if negb (HeapTupleHasNulls tup) then Ok false else att_isnull (attnum - 1) (t_bits (t_data tup))
  else if (attnum <? 0) && (-7 <? attnum) then Ok false
  else Ereport ERRCODE_INTERNAL_ERROR.
