(* ===== verification/HeapTupleForm.v ===== *)
(** Forming tuples: heap_compute_data_size, fill_val, heap_fill_tuple and heap_form_tuple
    of heaptuple.c against a description of the layout.

    [packs E att d al w]: the datum [d] of a column [att] is stored as the bytes [w],
    after alignment padding if [al].  [lay] puts the pieces of a row one after another.
    The size computed before filling is the size of the layout, and filling writes it. *)

From S2P Require Import Prelude Rle Varatt Pglz PglzHist PglzItems PglzCodec ToastCompression Oids ToastStore Detoast HeapTuple.

#[global] Arguments att_align_nominal : simpl never.

(** ** Alignment *)

Lemma typealign_spec k off : 0 <= k -> TYPEALIGN (2 ^ k) off = (off + (2 ^ k - 1)) / 2 ^ k * 2 ^ k.
Proof.
  intros Hk. unfold TYPEALIGN. replace (2 ^ k - 1) with (Z.ones k) by (rewrite Z.ones_equiv; lia).
  rewrite <- Z.ldiff_land, Z.ldiff_ones_r by done. by rewrite Z.shiftr_div_pow2, Z.shiftl_mul_pow2.
Qed.

Lemma typealign_2 off : TYPEALIGN 2 off = (off + 1) / 2 * 2.
Proof. exact (typealign_spec 1 off ltac:(lia)). Qed.
Lemma typealign_4 off : TYPEALIGN 4 off = (off + 3) / 4 * 4.
Proof. exact (typealign_spec 2 off ltac:(lia)). Qed.
Lemma typealign_8 off : TYPEALIGN 8 off = (off + 7) / 8 * 8.
Proof. exact (typealign_spec 3 off ltac:(lia)). Qed.

Lemma att_align_bounds off a : 0 <= off -> off <= att_align_nominal off a < off + 8.
Proof.
  intros Ho. unfold att_align_nominal.
  rewrite typealign_2, typealign_4, typealign_8. ztests; lia.
Qed.

Lemma att_align_idem off a : att_align_nominal (att_align_nominal off a) a = att_align_nominal off a.
Proof.
  unfold att_align_nominal. ztests; rewrite ?typealign_2, ?typealign_4, ?typealign_8; lia.
Qed.

Lemma att_align_char off : att_align_nominal off TYPALIGN_CHAR = off.
Proof. done. Qed.

(** ** Words *)

Lemma le_length n z : zlen (le n z) = Z.of_nat n.
Proof. revert z. induction n as [|n IH]; intros z; cbn [le]; [done|]. rewrite zlen_cons, IH. lia. Qed.

Lemma le_val_le n z : le_val (le n z) = z mod 2 ^ (8 * Z.of_nat n).
Proof.
  revert z. induction n as [|n IH]; intros z; cbn [le le_val]; [by rewrite Z.mod_1_r|].
  rewrite IH. replace (8 * Z.of_nat (S n)) with (8 + 8 * Z.of_nat n) by lia.
  rewrite Z.pow_add_r by lia. change (2 ^ 8) with 256.
  rewrite Z.rem_mul_r by lia. lia.
Qed.

(** ** The bytes of an attribute *)

Section packs.
Context (E : env).

Inductive varlena_packs (att : attribute) : list Z -> bool -> list Z -> Prop :=
| vp_packed data t :
    attstorage att <> TYPSTORAGE_PLAIN -> ok_1b data -> varlena_packs att (mk_4b_u data ++ t) false (mk_1b data)
| vp_plain data t :
    attstorage att = TYPSTORAGE_PLAIN \/ ~ ok_1b data -> ok_4b_u data ->
    varlena_packs att (mk_4b_u data ++ t) true (mk_4b_u data)
| vp_short data t : ok_1b data -> varlena_packs att (mk_1b data ++ t) false (mk_1b data)
| vp_compressed raw id payload t :
    ok_4b_c raw id payload -> varlena_packs att (mk_4b_c raw id payload ++ t) true (mk_4b_c raw id payload)
| vp_ondisk tp t : varlena_packs att (mk_ondisk tp ++ t) false (mk_ondisk tp)
| vp_indirect addr t :
    varlena_packs att (mk_pointer VARTAG_INDIRECT addr ++ t) false (mk_pointer VARTAG_INDIRECT addr)
| vp_expanded tag addr data t :
    tag = VARTAG_EXPANDED_RO \/ tag = VARTAG_EXPANDED_RW -> 0 <= addr < 2 ^ 64 -> ok_4b_u data ->
    e_flat E !! addr = Some (mk_4b_u data) ->
    varlena_packs att (mk_pointer tag addr ++ t) true (mk_4b_u data).

Inductive packs (att : attribute) : Datum -> bool -> list Z -> Prop :=
| packs_byval z :
    attbyval att = true -> byval_len (attlen att) = true ->
    word_of (8 * attlen att) (z mod 2 ^ (8 * attlen att)) = z ->
    packs att (DVal z) true (le (Z.to_nat (attlen att)) z)
| packs_fixed p t :
    attbyval att = false -> 0 < attlen att -> zlen p = attlen att -> packs att (DPtr (p ++ t)) true p
| packs_cstring s t :
    attbyval att = false -> attlen att = -2 -> attalign att = TYPALIGN_CHAR -> Forall (fun c => c <> 0) s ->
    packs att (DPtr (s ++ 0 :: t)) true (s ++ [0])
| packs_varlena p al w :
    attbyval att = false -> attlen att = -1 -> varlena_packs att p al w -> packs att (DPtr p) al w.

Definition place (att : attribute) (al : bool) (off : Z) : Z :=
  if al then att_align_nominal off (attalign att) else off.

Lemma place_bounds att al off : 0 <= off -> off <= place att al off < off + 8.
Proof. intros. unfold place. destruct al; [by apply att_align_bounds|lia]. Qed.

Lemma can_make_short data t :
  ok_4b_u data -> VARATT_CAN_MAKE_SHORT (mk_4b_u data ++ t) = Ok (bool_decide (ok_1b data)).
Proof.
  intros Hd. unfold VARATT_CAN_MAKE_SHORT, VARSIZE. tags. tags. f_equal. unfold wrap32, VARHDRSZ, VARHDRSZ_SHORT.
  unfold ok_4b_u in Hd. pose proof (zlen_nonneg data). rewrite Z.mod_small by lia.
  case_bool_decide as Hs; unfold ok_1b in Hs; lia.
Qed.

Lemma flat_form_ok tag addr data t :
  0 <= addr < 2 ^ 64 -> e_flat E !! addr = Some (mk_4b_u data) ->
  flat_form E (mk_pointer tag addr ++ t) = Ok (mk_4b_u data).
Proof. intros Ha Hf. unfold flat_form. rewrite rd64_pointer by exact Ha. unfold deref. bind. by rewrite Hf. Qed.

Lemma mk_1b_small data : ok_1b data -> ok_4b_u data.
Proof. unfold ok_1b, ok_4b_u, VARATT_SHORT_MAX. lia. Qed.

Lemma converted_short_size data t :
  ok_4b_u data -> VARATT_CONVERTED_SHORT_SIZE (mk_4b_u data ++ t) = Ok (zlen data + 1).
Proof.
  intros Hd. unfold VARATT_CONVERTED_SHORT_SIZE, VARSIZE. tags. f_equal. unfold wrap32, VARHDRSZ, VARHDRSZ_SHORT.
  unfold ok_4b_u in Hd. pose proof (zlen_nonneg data). rewrite Z.mod_small by lia. lia.
Qed.

Lemma varlena_size att p al w off :
  attlen att = -1 -> varlena_packs att p al w ->
  add_data_size E att (DPtr p) off = Ok (place att al off + zlen w).
Proof.
  intros Hl Hp. unfold add_data_size, ATT_IS_PACKABLE, att_align_datum, att_addlength_datum, place.
  rewrite Hl. cbn [Z.eqb Pos.eqb andb DatumGetPointer]. bind.
  destruct Hp as [data t Hs Hd|data t Hs Hd|data t Hd|raw id payload t Hok|tp t|addr t|tag addr data t Ht Ha Hd Hf].
  - destruct (Z.eqb_spec (attstorage att) TYPSTORAGE_PLAIN); [done|]. cbn [negb].
    rewrite can_make_short, bool_decide_eq_true_2 by (done || by apply mk_1b_small). bind.
    rewrite converted_short_size by (by apply mk_1b_small). bind. f_equal. zl.
  - assert (H1 : (if negb (attstorage att =? TYPSTORAGE_PLAIN) then VARATT_CAN_MAKE_SHORT (mk_4b_u data ++ t)
                 else Ok false) = Ok false).
    { destruct (Z.eqb_spec (attstorage att) TYPSTORAGE_PLAIN); [done|]. cbn [negb].
      rewrite can_make_short, bool_decide_eq_false_2 by (done || by destruct Hs). done. }
    rewrite H1. bind. unfold att_addlength_pointer, VARSIZE_ANY. tags. tags. tags. f_equal. zl.
  - unfold VARATT_CAN_MAKE_SHORT. destruct (negb _); tags; tags; unfold att_addlength_pointer, VARSIZE_ANY; tags; tags;
      f_equal; zl.
  - unfold VARATT_CAN_MAKE_SHORT. destruct (negb _); tags; tags; unfold att_addlength_pointer, VARSIZE_ANY; tags; tags;
      tags; f_equal; zl.
  - by destruct (negb _).
  - by destruct (negb _).
  - assert (Hsz := proj2 (flatten_ok E tag addr data t Ha Hd Hf)).
    unfold VARATT_CAN_MAKE_SHORT. destruct Ht as [-> | ->]; destruct (negb _); tags; rewrite Hsz; bind; f_equal; zl.
Qed.

Lemma add_data_size_ok att d al w off :
  packs att d al w -> add_data_size E att d off = Ok (place att al off + zlen w).
Proof.
  intros [z Hb Hl _|p t Hb Hl Hp|s t Hb Hl Ha Hs|p al' w' Hb Hl Hp].
  - assert (0 < attlen att) by (unfold byval_len in Hl; lia).
    unfold add_data_size, ATT_IS_PACKABLE, att_align_datum, att_addlength_datum, place.
    destruct (Z.eqb_spec (attlen att) (-1)); [lia|]. cbn [andb]. bind. destruct (Z.gtb_spec (attlen att) 0); [|lia].
    rewrite le_length. f_equal. lia.
  - unfold add_data_size, ATT_IS_PACKABLE, att_align_datum, att_addlength_datum, place.
    destruct (Z.eqb_spec (attlen att) (-1)); [lia|]. cbn [andb]. bind. destruct (Z.gtb_spec (attlen att) 0); [|lia].
    f_equal. lia.
  - unfold add_data_size, ATT_IS_PACKABLE, att_align_datum, att_addlength_datum, att_addlength_pointer, place.
    rewrite Hl. cbn. rewrite strlen_ok by done. cbn. f_equal. zl.
  - by apply varlena_size.
Qed.

(** ** The infomask *)

(** The bits a stored attribute sets. *)
Definition piece_mask (att : attribute) (w : list Z) : Z :=
  Z.lor (if attlen att <? 0 then HEAP_HASVARWIDTH else 0)
        (if (attlen att =? -1) && (default 0 (head w) =? 1) then HEAP_HASEXTERNAL else 0).

Lemma wr_zeros done n o x :
  zlen done <= o -> o + zlen x <= zlen done + n ->
  wr (done ++ zrep n 0) o x
  = Ok ((done ++ zrep (o - zlen done) 0 ++ x) ++ zrep (zlen done + n - o - zlen x) 0).
Proof.
  intros Ho Hx. pose proof (zlen_nonneg x). pose proof (zlen_nonneg done).
  replace (zrep n 0) with (zrep (o - zlen done) 0 ++ zrep (zlen x) 0 ++ zrep (zlen done + n - o - zlen x) 0)
    by (rewrite !zrep_app by lia; f_equal; lia).
  unfold wr. replace (0 <=? o) with true by lia.
  replace (o + zlen x <=? _) with true by (zl). cbn [andb].
  rewrite (app_assoc done (zrep (o - zlen done) 0)).
  rewrite take_app_length' by (unfold zlen, zrep in *; rewrite length_app, length_replicate; lia).
  rewrite (app_assoc _ (zrep (zlen x) 0)).
  rewrite drop_app_length' by (unfold zlen, zrep in *; rewrite !length_app, !length_replicate; lia).
  by rewrite <- !app_assoc.
Qed.

Lemma put_zeros att al done n off x im :
  off = zlen done -> place att al off + zlen x <= off + n ->
  put (done ++ zrep n 0) (place att al off) x im
  = Ok ((done ++ zrep (place att al off - off) 0 ++ x) ++ zrep (off + n - place att al off - zlen x) 0,
        place att al off + zlen x, im).
Proof.
  intros -> Hx. unfold put. pose proof (place_bounds att al _ (zlen_nonneg done)).
  rewrite wr_zeros by lia. done.
Qed.

Lemma set_short_header data : ok_1b data -> SET_VARSIZE_SHORT [0] (zlen data + 1) ++ data = mk_1b data.
Proof.
  intros Hd. unfold SET_VARSIZE_SHORT, SET_VARSIZE_1B, mk_1b, ok_1b, VARATT_SHORT_MAX in *. pose proof (zlen_nonneg data).
  rewrite Z.shiftl_mul_pow2 by lia. rewrite (Z.mod_small (zlen data + 1)) by lia.
  rewrite (lor_disjoint (zlen data + 1) 1 1) by lia. rewrite Z.mod_small by lia. cbn [drop app]. f_equal. lia.
Qed.

Lemma rdn_exact l t n : n = zlen l -> rdn (l ++ t) 0 n = Ok l.
Proof. intros ->. exact (rdn_middle [] l t 0 _ eq_refl eq_refl). Qed.

Lemma head_mask att w im :
  attlen att = -1 -> default 0 (head w) <> 1 -> Z.lor im (piece_mask att w) = Z.lor im HEAP_HASVARWIDTH.
Proof.
  intros Hl Hw. unfold piece_mask. rewrite Hl. destruct (Z.eqb_spec (default 0 (head w)) 1); [done|]. done.
Qed.
Lemma head_4b_u data : default 0 (head (mk_4b_u data)) <> 1.
Proof. cbn. lia. Qed.
Lemma head_4b_c raw id payload : default 0 (head (mk_4b_c raw id payload)) <> 1.
Proof. cbn. lia. Qed.
Lemma head_1b data : default 0 (head (mk_1b data)) <> 1.
Proof. cbn. pose proof (zlen_nonneg data). lia. Qed.

(** The part of store_val that copies a varlena. *)
Lemma varlena_store att p al w area off im :
  attbyval att = false -> attlen att = -1 -> varlena_packs att p al w ->
  store_val E att (DPtr p) area off im = put area (place att al off) w (Z.lor im (piece_mask att w)).
Proof.
  intros Hb Hl Hp. unfold store_val, place, VARLENA_ATT_IS_PACKABLE. rewrite Hb, Hl.
  cbn [Z.eqb Pos.eqb DatumGetPointer]. bind.
  destruct Hp as [data t Hs Hd|data t Hs Hd|data t Hd|raw id payload t Hok|tp t|addr t|tag addr data t Ht Ha Hd Hf].
  - rewrite head_mask by (done || apply head_1b). tags. tags.
    destruct (Z.eqb_spec (attstorage att) TYPSTORAGE_PLAIN); [done|]. cbn [negb].
    assert (Hu : ok_4b_u data) by (by apply mk_1b_small).
    rewrite can_make_short, bool_decide_eq_true_2 by done. bind. rewrite converted_short_size by done. bind.
    replace (zlen data + 1 - 1) with (zlen data) by lia. unfold mk_4b_u. rewrite <- app_assoc.
    rewrite (rdn_middle (le32 _) data t VARDATA) by done. bind. by rewrite set_short_header.
  - rewrite head_mask by (done || apply head_4b_u). tags. tags.
    assert (H1 : (if negb (attstorage att =? TYPSTORAGE_PLAIN) then VARATT_CAN_MAKE_SHORT (mk_4b_u data ++ t)
                 else Ok false) = Ok false).
    { destruct (Z.eqb_spec (attstorage att) TYPSTORAGE_PLAIN); [done|]. cbn [negb].
      rewrite can_make_short, bool_decide_eq_false_2 by (done || by destruct Hs). done. }
    rewrite H1. bind. unfold VARSIZE. tags. rewrite rdn_exact by zl. done.
  - rewrite head_mask by (done || apply head_1b). tags. tags. unfold VARSIZE_SHORT. tags. by rewrite rdn_exact by zl.
  - rewrite head_mask by (done || apply head_4b_c). tags. tags. unfold VARATT_CAN_MAKE_SHORT, VARSIZE. tags.
    destruct (negb _); bind; tags; by rewrite rdn_exact by zl.
  - tags. rewrite rdn_exact by done. bind. unfold piece_mask. rewrite Hl. cbn. by rewrite <- Z.lor_assoc.
  - tags. change (VARSIZE_EXTERNAL _) with (Ok 10). bind. rewrite rdn_exact by done. bind. unfold piece_mask.
    rewrite Hl. cbn. by rewrite <- Z.lor_assoc.
  - rewrite head_mask by (done || apply head_4b_u).
    destruct Ht as [-> | ->]; tags; by rewrite flat_form_ok with (data := data).
Qed.

Lemma store_val_ok att d al w area off im :
  packs att d al w -> store_val E att d area off im = put area (place att al off) w (Z.lor im (piece_mask att w)).
Proof.
  intros [z Hb Hl _|p t Hb Hl Hp|s t Hb Hl Ha Hs|p al' w' Hb Hl Hp]; [| | |by apply varlena_store].
  - assert (Hm : piece_mask att (le (Z.to_nat (attlen att)) z) = 0).
    { unfold piece_mask, byval_len in *. destruct (Z.ltb_spec (attlen att) 0), (Z.eqb_spec (attlen att) (-1)); try lia. done. }
    unfold store_val. rewrite Hb, Hm, Z.lor_0_r. cbn [DatumGetWord]. bind. unfold store_att_byval. rewrite Hl. done.
  - assert (Hm : piece_mask att p = 0).
    { unfold piece_mask. destruct (Z.ltb_spec (attlen att) 0), (Z.eqb_spec (attlen att) (-1)); try lia. done. }
    unfold store_val. rewrite Hb, Hm, Z.lor_0_r. destruct (Z.eqb_spec (attlen att) (-1)), (Z.eqb_spec (attlen att) (-2)); try lia.
    cbn [DatumGetPointer]. bind. by rewrite rdn_exact.
  - assert (Hm : piece_mask att (s ++ [0]) = HEAP_HASVARWIDTH) by (unfold piece_mask; by rewrite Hl).
    unfold store_val, place. rewrite Hb, Hl, Hm, Ha. cbn [Z.eqb Pos.eqb DatumGetPointer]. bind. rewrite strlen_ok by done. bind.
    change (s ++ 0 :: t) with (s ++ [0] ++ t). rewrite app_assoc, rdn_exact by zl. done.
Qed.
End packs.

(** ** The layout of a row *)

(** A column's bytes, with the need for alignment; None for a null. *)
Abbreviation piece := (option (bool * list Z)).

Definition packs_col (E : env) (att : attribute) (v : option Datum) (x : piece) : Prop :=
  match v, x with
  | None, None => True
  | Some d, Some (al, w) => packs E att d al w
  | _, _ => False
  end.

Inductive packs_row (E : env) : list attribute -> list (option Datum) -> list piece -> Prop :=
| packs_nil : packs_row E [] [] []
| packs_cons att v x atts values xs :
    packs_col E att v x -> packs_row E atts values xs -> packs_row E (att :: atts) (v :: values) (x :: xs).

(** The bytes from offset [off] on. *)
Fixpoint lay (off : Z) (atts : list attribute) (xs : list piece) : list Z :=
  match atts, xs with
  | att :: atts, Some (al, w) :: xs =>
      let o := place att al off in zrep (o - off) 0 ++ w ++ lay (o + zlen w) atts xs
  | _ :: atts, None :: xs => lay off atts xs
  | _, _ => []
  end.

Definition piece_len (x : piece) : Z := match x with Some (_, w) => zlen w | None => 0 end.

Fixpoint row_mask (atts : list attribute) (xs : list piece) : Z :=
  match atts, xs with
  | att :: atts, Some (_, w) :: xs => Z.lor (piece_mask att w) (row_mask atts xs)
  | _ :: atts, None :: xs => Z.lor HEAP_HASNULL (row_mask atts xs)
  | _, _ => 0
  end.

Definition null_col (v : option Datum) : bool := match v with None => true | Some _ => false end.

Lemma packs_row_length E atts values xs :
  packs_row E atts values xs -> length values = length atts /\ length xs = length atts.
Proof. induction 1; simpl; lia. Qed.

Lemma data_size_loop_ok E atts values xs off :
  0 <= off -> packs_row E atts values xs ->
  data_size_loop E atts values off = Ok (off + zlen (lay off atts xs)).
Proof.
  intros Hoff Hrow. revert off Hoff. induction Hrow as [|att v x atts values xs Hx _ IH]; intros off Hoff.
  - cbn. f_equal. zl.
  - destruct v as [d|], x as [[al w]|]; try done; cbn [data_size_loop lay].
    + cbn in Hx. rewrite (add_data_size_ok E att d al w) by done. bind.
      pose proof (place_bounds att al off Hoff). pose proof (zlen_nonneg w).
      rewrite IH by lia. f_equal. zl.
    + by apply IH.
Qed.

(** ** The null bitmap *)

(** Columns before [i] have their bits, and the bits after them in the last byte that
    was begun are clear. *)
Definition bits_upto (bits : list Z) (i : Z) (nulls : Z -> bool) : Prop :=
  bytes bits /\
  (forall j, 0 <= j < i -> exists b, rd bits (j / 8) = Ok b /\ Z.testbit b (j mod 8) = negb (nulls j)) /\
  (forall j, i <= j < (i + 7) / 8 * 8 -> exists b, rd bits (j / 8) = Ok b /\ Z.testbit b (j mod 8) = false).
Definition bit_state (bits : list Z) (i : Z) : list Z * Z * Z :=
  (bits, (i + 7) / 8 - 1, if i =? 0 then HIGHBIT else Z.shiftl 1 ((i - 1) mod 8)).

Lemma wr_one l i x : 0 <= i < zlen l -> wr l i [x] = Ok (<[Z.to_nat i := x]> l).
Proof.
  intros Hi. unfold wr. change (zlen [x]) with 1. replace (0 <=? i) with true by lia.
  replace (i + 1 <=? zlen l) with true by lia. cbn [andb].
  rewrite insert_take_drop by (unfold zlen in *; lia).
  replace (Z.to_nat (i + 1)) with (S (Z.to_nat i)) by lia. done.
Qed.

Lemma rd_insert l i x j :
  0 <= i < zlen l -> rd (<[Z.to_nat i := x]> l) j = if j =? i then Ok x else rd l j.
Proof.
  intros Hi. unfold rd. destruct (Z.leb_spec 0 j); destruct (Z.eqb_spec j i) as [->|]; try done; try lia.
  - rewrite list_lookup_insert_eq by (unfold zlen in *; lia). done.
  - rewrite list_lookup_insert_ne by lia. done.
Qed.

Lemma bytes_insert l i x : bytes l -> is_byte x -> bytes (<[i := x]> l).
Proof. intros. by apply Forall_insert. Qed.

Lemma testbit_mask m k : 0 <= k -> Z.testbit (Z.shiftl 1 k) m = (m =? k).
Proof. intros Hk. rewrite Z.shiftl_1_l. rewrite Z.pow2_bits_eqb by done. by rewrite Z.eqb_sym. Qed.

Lemma byte_lor b k : is_byte b -> 0 <= k < 8 -> is_byte (Z.lor b (Z.shiftl 1 k)).
Proof.
  unfold is_byte. intros Hb Hk. rewrite Z.shiftl_1_l.
  assert (H0 : 0 <= Z.lor b (2 ^ k)) by (apply Z.lor_nonneg; lia). split; [done|].
  destruct (Z.eq_dec (Z.lor b (2 ^ k)) 0) as [->|Hne]; [lia|]. change 256 with (2 ^ 8). apply Z.log2_lt_pow2; [lia|].
  rewrite Z.log2_lor, Z.log2_pow2 by lia. apply Z.max_lub_lt; [|lia].
  destruct (Z.eq_dec b 0) as [->|]; [done|]. apply Z.log2_lt_pow2; lia.
Qed.

Section bitmap.
Context (nulls : Z -> bool).

(** The byte of the next column is there, with the column's bit and the later ones clear. *)
Lemma begin_bit bits i :
  0 <= i -> i / 8 < zlen bits -> bits_upto bits i nulls ->
  exists bits1,
    (let '(bits, bit, bitmask) := bit_state bits i in
     if negb (bitmask =? HIGHBIT) then Ok (bits, bit, Z.shiftl bitmask 1)
     else bits ← wr bits (bit + 1) [0x0]; Ok (bits, bit + 1, 1)) = Ok (bits1, i / 8, Z.shiftl 1 (i mod 8)) /\
    zlen bits1 = zlen bits /\ bytes bits1 /\
    (forall j, 0 <= j < i -> exists b, rd bits1 (j / 8) = Ok b /\ Z.testbit b (j mod 8) = negb (nulls j)) /\
    (forall j, i <= j < i / 8 * 8 + 8 -> exists b, rd bits1 (j / 8) = Ok b /\ Z.testbit b (j mod 8) = false).
Proof.
  intros Hi Hlen (Hb & Hset & Hclr). unfold bit_state.
  destruct (Z.eq_dec (i mod 8) 0) as [H0|H0].
  - exists (<[Z.to_nat (i / 8) := 0]> bits).
    assert (Hm : (if i =? 0 then HIGHBIT else Z.shiftl 1 ((i - 1) mod 8)) = HIGHBIT).
    { destruct (Z.eqb_spec i 0); [done|]. replace ((i - 1) mod 8) with 7 by lia. done. }
    rewrite Hm. cbn [negb Z.eqb HIGHBIT Pos.eqb]. replace ((i + 7) / 8 - 1 + 1) with (i / 8) by lia.
    rewrite wr_one by lia. bind. rewrite H0. split; [done|]. split; [zl|]. split; [by apply bytes_insert|]. split.
    + intros j Hj. rewrite rd_insert by lia. destruct (Z.eqb_spec (j / 8) (i / 8)); [lia|]. by apply Hset.
    + intros j Hj. rewrite rd_insert by lia. destruct (Z.eqb_spec (j / 8) (i / 8)); [|lia]. exists 0.
      split; [done|]. apply Z.testbit_0_l.
  - exists bits. destruct (Z.eqb_spec i 0); [lia|].
    assert (Hm : (Z.shiftl 1 ((i - 1) mod 8) =? HIGHBIT) = false).
    { rewrite Z.shiftl_1_l. apply Z.eqb_neq. change HIGHBIT with (2 ^ 7). intros Heq. apply Z.pow_inj_r in Heq; lia. }
    rewrite Hm. cbn [negb]. rewrite Z.shiftl_shiftl by lia. replace ((i - 1) mod 8 + 1) with (i mod 8) by lia.
    replace ((i + 7) / 8 - 1) with (i / 8) by lia. split_and!; try done.
    intros j Hj. apply Hclr. lia.
Qed.

Lemma next_bit_ok bits i :
  0 <= i -> i / 8 < zlen bits -> bits_upto bits i nulls ->
  exists bits', next_bit (bit_state bits i) (nulls i) = Ok (bit_state bits' (i + 1)) /\
    zlen bits' = zlen bits /\ bits_upto bits' (i + 1) nulls.
Proof.
  intros Hi Hlen Hbits. destruct (begin_bit bits i Hi Hlen Hbits) as (bits1 & Hs & Hl & Hb & Hset & Hclr).
  unfold next_bit. unfold bit_state in Hs |- * at 1. rewrite Hs. bind.
  assert (Hst : forall b, bit_state b (i + 1) = (b, i / 8, Z.shiftl 1 (i mod 8))).
  { intros b. unfold bit_state. destruct (Z.eqb_spec (i + 1) 0); [lia|]. repeat f_equal; lia. }
  destruct (nulls i) eqn:Hn.
  - exists bits1. rewrite Hst. split; [done|]. split; [done|]. split; [done|]. split.
    + intros j Hj. destruct (Z.eq_dec j i) as [->|]; [rewrite Hn; apply Hclr; lia|apply Hset; lia].
    + intros j Hj. apply Hclr. lia.
  - destruct (Hclr i) as (b & Hrd & Htb); [lia|]. rewrite Hrd. bind. rewrite wr_one by lia. bind.
    exists (<[Z.to_nat (i / 8) := Z.lor b (Z.shiftl 1 (i mod 8))]> bits1). rewrite Hst. split; [done|]. split; [zl|].
    split; [apply bytes_insert; [done|]; apply byte_lor; [by eapply rd_byte|lia]|].
    assert (Hbit : forall j, j / 8 = i / 8 -> forall b', rd bits1 (j / 8) = Ok b' ->
      Z.testbit (Z.lor b (Z.shiftl 1 (i mod 8))) (j mod 8) = Z.testbit b' (j mod 8) || (j =? i)).
    { intros j Hj b' Hb'. rewrite Hj, Hrd in Hb'. injection Hb' as <-. rewrite Z.lor_spec, testbit_mask by lia. f_equal. lia. }
    split.
    + intros j Hj. rewrite rd_insert by lia. destruct (Z.eqb_spec (j / 8) (i / 8)) as [He|].
      * eexists. split; [done|]. destruct (Z.eq_dec j i) as [->|Hne].
        -- rewrite (Hbit i He b Hrd), Z.eqb_refl, Hn. apply orb_true_r.
        -- destruct (Hset j ltac:(lia)) as (b' & Hb' & <-). rewrite (Hbit j He b' Hb').
           destruct (Z.eqb_spec j i); [done|]. apply orb_false_r.
      * apply Hset. lia.
    + intros j Hj. rewrite rd_insert by lia. destruct (Z.eqb_spec (j / 8) (i / 8)) as [He|]; [|lia].
      eexists. split; [done|]. destruct (Hclr j ltac:(lia)) as (b' & Hb' & Hf). rewrite (Hbit j He b' Hb'), Hf.
      destruct (Z.eqb_spec j i); [lia|done].
Qed.
End bitmap.

Lemma att_isnull_bits bits i nulls j :
  bits_upto bits i nulls -> 0 <= j < i -> att_isnull j bits = Ok (nulls j).
Proof.
  intros (_ & Hset & _) Hj. destruct (Hset j Hj) as (b & Hrd & Htb). unfold att_isnull.
  rewrite Z.shiftr_div_pow2 by lia. change (2 ^ 3) with 8. rewrite Hrd. bind.
  rewrite (land_ones_mod j 3 0x07) by done. change (2 ^ 3) with 8. f_equal.
  destruct (Z.eqb_spec (Z.land b (Z.shiftl 1 (j mod 8))) 0) as [H0|H0].
  - apply (f_equal (fun x => Z.testbit x (j mod 8))) in H0. rewrite Z.land_spec, testbit_mask, Z.eqb_refl in H0 by lia.
    rewrite Z.testbit_0_l, andb_true_r, Htb in H0. by destruct (nulls j).
  - destruct (nulls j) eqn:Hn; [|done]. exfalso. apply H0. apply Z.bits_inj. intros m.
    rewrite Z.land_spec, testbit_mask, Z.testbit_0_l by lia. destruct (Z.eqb_spec m (j mod 8)) as [->|]; [by rewrite Htb|].
    apply andb_false_r.
Qed.

(** ** Filling *)

(** The bitmap, if any, after [i] columns, with room for the rest. *)
Definition bitmap_ok (ob : option (list Z)) (i left : Z) (nulls : Z -> bool) : Prop :=
  match ob with
  | Some bits => bits_upto bits i nulls /\ i + left <= 8 * zlen bits
  | None => forall j, i <= j < i + left -> nulls j = false
  end.
Definition bit_ptr (ob : option (list Z)) (i : Z) : option (list Z * Z * Z) :=
  match ob with Some bits => Some (bit_state bits i) | None => None end.
Definition same_size (ob ob' : option (list Z)) : Prop :=
  match ob, ob' with
  | Some bits, Some bits' => zlen bits' = zlen bits
  | None, None => True
  | _, _ => False
  end.

Lemma bitmap_next ob i left nulls v att s :
  0 <= i -> 0 < left -> bitmap_ok ob i left nulls -> nulls i = null_col v -> fs_bit s = bit_ptr ob i ->
  exists ob', same_size ob ob' /\ bitmap_ok ob' (i + 1) (left - 1) nulls /\
    forall E, fill_val E att s v =
      match v with
      | None => Ok (mkFill (bit_ptr ob' (i + 1)) (fs_area s) (fs_data s) (Z.lor (fs_infomask s) HEAP_HASNULL))
      | Some d =>
          x ← store_val E att d (fs_area s) (fs_data s) (fs_infomask s);
          let '(area, data, infomask) := x in Ok (mkFill (bit_ptr ob' (i + 1)) area data infomask)
      end.
Proof.
  intros Hi Hl Hok Hn Hs. unfold fill_val. rewrite Hs. destruct ob as [bits|]; cbn [bit_ptr].
  - destruct Hok as [Hb Hc]. destruct (next_bit_ok nulls bits i Hi ltac:(lia) Hb) as (bits' & Hx & Hz & Hb').
    exists (Some bits'). split; [done|]. split; [split; [done|lia]|]. intros E. rewrite Hn in Hx.
    destruct v as [d|]; cbn [null_col] in Hx; by rewrite Hx.
  - exists None. split; [done|]. split; [intros j Hj; apply Hok; lia|]. intros E. bind.
    destruct v as [d|]; [done|]. rewrite (Hok i ltac:(lia)) in Hn. done.
Qed.

Lemma same_size_trans a b c : same_size a b -> same_size b c -> same_size a c.
Proof. destruct a, b, c; simpl; try done. lia. Qed.

Lemma fill_loop_ok E nulls atts values xs : packs_row E atts values xs -> forall ob i done n im,
  0 <= i -> bitmap_ok ob i (zlen atts) nulls ->
  (forall k v, values !! k = Some v -> nulls (i + Z.of_nat k) = null_col v) ->
  zlen (lay (zlen done) atts xs) <= n ->
  exists ob', same_size ob ob' /\ bitmap_ok ob' (i + zlen atts) 0 nulls /\
    fill_loop E atts values (mkFill (bit_ptr ob i) (done ++ zrep n 0) (zlen done) im)
    = Ok (mkFill (bit_ptr ob' (i + zlen atts))
           ((done ++ lay (zlen done) atts xs) ++ zrep (n - zlen (lay (zlen done) atts xs)) 0)
           (zlen done + zlen (lay (zlen done) atts xs)) (Z.lor im (row_mask atts xs))).
Proof.
  induction 1 as [|att v x atts values xs Hx Hrow IH]; intros ob i done n im Hi Hob Hnull Hn.
  - exists ob. cbn [lay] in *. change (zlen (@nil attribute)) with 0. change (zlen (@nil Z)) with 0 in *.
    rewrite !Z.add_0_r, app_nil_r, Z.sub_0_r. split; [by destruct ob|].
    split; [done|]. cbn. by rewrite Z.lor_0_r.
  - rewrite zlen_cons in *. pose proof (zlen_nonneg atts).
    set (s := mkFill (bit_ptr ob i) (done ++ zrep n 0) (zlen done) im).
    destruct (bitmap_next ob i (1 + zlen atts) nulls v att s) as (ob1 & Hs1 & Hob1 & Hfill); [done|lia|done| |done|].
    { specialize (Hnull 0%nat v eq_refl). by rewrite Z.add_0_r in Hnull. }
    replace (1 + zlen atts - 1) with (zlen atts) in Hob1 by lia.
    assert (Hnull' : forall k v, values !! k = Some v -> nulls (i + 1 + Z.of_nat k) = null_col v).
    { intros k v' Hk. replace (i + 1 + Z.of_nat k) with (i + Z.of_nat (S k)) by lia. by apply Hnull. }
    replace (i + (1 + zlen atts)) with (i + 1 + zlen atts) by lia.
    cbn [fill_loop]. rewrite Hfill. unfold s; cbn [fs_area fs_data fs_infomask].
    destruct v as [d|], x as [[al w]|]; try done; cbn [packs_col lay row_mask] in *.
    + rewrite (store_val_ok E att d al w) by done. pose proof (place_bounds att al _ (zlen_nonneg done)).
      pose proof (zlen_nonneg w). set (o := place att al (zlen done)) in *.
      rewrite !zlen_app, zlen_zrep in Hn. pose proof (zlen_nonneg (lay (o + zlen w) atts xs)).
      unfold o. rewrite (put_zeros att al done n (zlen done)) by (done || fold o; lia). fold o. bind.
      set (d' := done ++ zrep (o - zlen done) 0 ++ w). assert (Hd : zlen d' = o + zlen w) by (unfold d'; zl).
      rewrite <- Hd in *.
      destruct (IH ob1 (i + 1) d' (zlen done + n - o - zlen w)
                  (Z.lor im (piece_mask att w))) as (ob' & Hs' & Hob' & ->); [lia|done|done|lia|].
      exists ob'. split; [by eapply same_size_trans|]. split; [done|]. rewrite <- Z.lor_assoc.
      set (L := lay (zlen d') atts xs) in *. rewrite !zlen_app, zlen_zrep.
      replace (zlen done + (Z.max 0 (o - zlen done) + (zlen w + zlen L))) with (zlen d' + zlen L) by lia.
      replace (n - (Z.max 0 (o - zlen done) + (zlen w + zlen L))) with (zlen done + n - o - zlen w - zlen L) by lia.
      unfold d'. by rewrite <- !app_assoc.
    + bind. destruct (IH ob1 (i + 1) done n (Z.lor im HEAP_HASNULL)) as (ob' & Hs' & Hob' & ->); [lia|done|done|done|].
      exists ob'. split; [by eapply same_size_trans|]. split; [done|]. by rewrite <- Z.lor_assoc.
Qed.

(** ** A formed tuple *)

Definition null_at (values : list (option Datum)) (j : Z) : bool :=
  default false (null_col <$> values !! Z.to_nat j).

Lemma land_bit m k : 0 <= k -> negb (Z.land m (2 ^ k) =? 0) = Z.testbit m k.
Proof.
  intros Hk. destruct (Z.testbit m k) eqn:Hb.
  - destruct (Z.eqb_spec (Z.land m (2 ^ k)) 0) as [H0|]; [|done].
    apply (f_equal (fun x => Z.testbit x k)) in H0.
    by rewrite Z.land_spec, Z.pow2_bits_true, Z.testbit_0_l, Hb in H0 by done.
  - destruct (Z.eqb_spec (Z.land m (2 ^ k)) 0) as [|Hne]; [done|]. exfalso. apply Hne. apply Z.bits_inj. intros j.
    rewrite Z.land_spec, Z.testbit_0_l, Z.pow2_bits_eqb by done.
    destruct (Z.eqb_spec k j) as [<-|]; [by rewrite Hb|apply andb_false_r].
Qed.

(** An attribute whose bytes are a pointer out of the tuple. *)
Definition external_col (att : attribute) (x : piece) : bool :=
  match x with Some (_, w) => (attlen att =? -1) && (default 0 (head w) =? 1) | None => false end.
Definition varwidth_col (att : attribute) (x : piece) : bool :=
  match x with Some _ => attlen att <? 0 | None => false end.
Definition null_piece (x : piece) : bool := match x with None => true | Some _ => false end.

Lemma row_mask_bits atts xs : length xs = length atts ->
  Z.testbit (row_mask atts xs) 0 = existsb null_piece xs /\
  Z.testbit (row_mask atts xs) 1 = existsb (fun '(a, x) => varwidth_col a x) (zip atts xs) /\
  Z.testbit (row_mask atts xs) 2 = existsb (fun '(a, x) => external_col a x) (zip atts xs).
Proof.
  revert xs. induction atts as [|att atts IH]; intros [|x xs] Hl; try done.
  destruct (IH xs ltac:(simpl in Hl; lia)) as (H0 & H1 & H2).
  destruct x as [[al w]|]; cbn [row_mask zip zip_with existsb null_piece varwidth_col external_col];
    rewrite !Z.lor_spec, H0, H1, H2; [|done].
  unfold piece_mask. rewrite !Z.lor_spec. by destruct (attlen att <? 0), ((attlen att =? -1) && _).
Qed.

(** What heap_form_tuple promises of the tuple it returns. *)
Record formed (desc : tupledesc) (values : list (option Datum)) (xs : list piece) (tup : HeapTuple) : Prop := {
  formed_body : t_body (t_data tup) = lay 0 (td_atts desc) xs;
  formed_len : t_len tup = t_hoff (t_data tup) + zlen (t_body (t_data tup));
  formed_hoff : t_hoff (t_data tup) = SizeofHeapTupleHeader + zlen (t_bits (t_data tup)) /\
                t_hoff (t_data tup) mod 8 = 0 /\ t_hoff (t_data tup) < 256;
  formed_mask : Z.land (t_infomask (t_data tup)) 7 = row_mask (td_atts desc) xs;
  formed_natts : HeapTupleHeaderGetNatts (t_data tup) = natts desc;
  formed_bits : has_nulls desc values = true -> bits_upto (t_bits (t_data tup)) (natts desc) (null_at values)
}.

Lemma packs_row_nulls E atts values xs :
  packs_row E atts values xs -> existsb null_piece xs = existsb null_col values.
Proof.
  induction 1 as [|att v x atts values xs Hx _ IH]; [done|]. cbn [existsb]. rewrite IH.
  by destruct v, x as [[]|].
Qed.

Lemma has_nulls_row E desc values xs :
  packs_row E (td_atts desc) values xs -> has_nulls desc values = existsb null_col values.
Proof. intros Hr. unfold has_nulls. destruct (packs_row_length _ _ _ _ Hr) as [<- _]. by rewrite take_ge. Qed.

Lemma not_null_at values j : existsb null_col values = false -> null_at values j = false.
Proof.
  intros Hn. unfold null_at. destruct (values !! Z.to_nat j) as [v|] eqn:Hv; [|done]. cbn.
  destruct (null_col v) eqn:Hc; [|done]. rewrite <- Hn. symmetry. apply existsb_exists. exists v.
  split; [|done]. apply list_elem_of_In. by eapply list_elem_of_lookup_2.
Qed.

Lemma maxalign_header n : 0 <= n <= 208 ->
  SizeofHeapTupleHeader + n <= MAXALIGN (SizeofHeapTupleHeader + n) < 256 /\
  MAXALIGN (SizeofHeapTupleHeader + n) mod 8 = 0.
Proof. intros Hn. unfold MAXALIGN, MAXIMUM_ALIGNOF, SizeofHeapTupleHeader. rewrite typealign_8. lia. Qed.

(** The header length, as heap_form_tuple and its copies in heaptoast.c compute it. *)
Definition header_len (hasnull : bool) (n : Z) : Z :=
  MAXALIGN (if hasnull then SizeofHeapTupleHeader + BITMAPLEN n else SizeofHeapTupleHeader).

Lemma header_len_bounds hasnull n : 0 <= n <= MaxTupleAttributeNumber ->
  SizeofHeapTupleHeader <= header_len hasnull n < 256 /\ header_len hasnull n mod 8 = 0 /\
  (hasnull = true -> n <= 8 * (header_len hasnull n - SizeofHeapTupleHeader)).
Proof.
  intros Hn. unfold header_len, MaxTupleAttributeNumber, BITMAPLEN in *. destruct hasnull.
  - destruct (maxalign_header ((n + 7) / 8) ltac:(lia)) as [H1 H2]. unfold SizeofHeapTupleHeader in *. lia.
  - destruct (maxalign_header 0 ltac:(lia)) as [H1 H2]. rewrite Z.add_0_r in *. split; [lia|done].
Qed.

Lemma row_mask_7 atts xs : Z.land (row_mask atts xs) 7 = row_mask atts xs.
Proof.
  revert xs. induction atts as [|att atts IH]; intros [|x xs]; try done.
  destruct x as [[al w]|]; cbn [row_mask]; rewrite Z.land_lor_distr_l, IH; f_equal.
  unfold piece_mask. by destruct (attlen att <? 0), ((attlen att =? -1) && _).
Qed.

(** heap_fill_tuple into a zeroed tuple of the computed size. *)
Lemma fill_tuple_ok E desc values xs im (n : Z) :
  natts desc <= MaxTupleAttributeNumber -> packs_row E (td_atts desc) values xs ->
  n = zlen (lay 0 (td_atts desc) xs) ->
  let hasnull := has_nulls desc values in
  let bits := zrep (header_len hasnull (natts desc) - SizeofHeapTupleHeader) 0 in
  exists s, heap_fill_tuple E desc values (zrep n 0) im (if hasnull then Some bits else None) = Ok s /\
    fs_area s = lay 0 (td_atts desc) xs /\
    fs_infomask s = Z.lor (Z.land im (Z.lnot 7)) (row_mask (td_atts desc) xs) /\
    zlen (filled_bits s bits) = zlen bits /\
    (hasnull = true -> bits_upto (filled_bits s bits) (natts desc) (null_at values)).
Proof.
  intros Hnat Hrow -> hasnull bits. assert (Hn0 : 0 <= natts desc) by apply zlen_nonneg.
  destruct (header_len_bounds hasnull (natts desc) ltac:(lia)) as (Hh & _ & Hcap).
  set (ob := if hasnull then Some bits else None). unfold heap_fill_tuple.
  change (match ob with Some bits => Some (bits, -1, HIGHBIT) | None => None end) with (bit_ptr ob 0).
  destruct (fill_loop_ok E (null_at values) _ _ xs Hrow ob 0 [] (zlen (lay 0 (td_atts desc) xs))
    (Z.land im (Z.lnot (Z.lor (Z.lor HEAP_HASNULL HEAP_HASVARWIDTH) HEAP_HASEXTERNAL))))
    as (ob' & Hsize & Hob' & Hfill); [lia| | |done|].
  - unfold ob, bitmap_ok. fold (natts desc). destruct hasnull eqn:Hnull.
    + specialize (Hcap eq_refl). split; [|unfold bits; rewrite zlen_zrep; lia].
      split; [by apply bytes_zrep|]. split; intros; lia.
    + intros j Hj. apply not_null_at. unfold hasnull in Hnull. by rewrite <- (has_nulls_row E desc values xs Hrow).
  - intros k v Hk. unfold null_at. replace (Z.to_nat (0 + Z.of_nat k)) with k by lia. by rewrite Hk.
  - cbn [app] in Hfill. change (zlen (@nil Z)) with 0 in Hfill. rewrite Hfill. eexists. split; [reflexivity|].
    rewrite Z.sub_diag, app_nil_r, !Z.add_0_l. cbn [fs_area fs_infomask]. split; [done|]. split; [done|].
    unfold filled_bits, ob, same_size, bit_ptr, bit_state in *. cbn [fs_bit].
    destruct hasnull, ob' as [bits'|]; try done. split; [done|]. intros _. destruct Hob' as [Hb _]. by rewrite Z.add_0_l in Hb.
Qed.

(** A tuple with a filled body is a formed one, whatever the rest of its header is. *)
Lemma formed_intro E desc values xs len self tab choice ctid im2 im s :
  natts desc <= MaxTupleAttributeNumber -> packs_row E (td_atts desc) values xs ->
  let hasnull := has_nulls desc values in
  let hoff := header_len hasnull (natts desc) in
  let bits := zrep (hoff - SizeofHeapTupleHeader) 0 in
  len = hoff + zlen (lay 0 (td_atts desc) xs) ->
  fs_area s = lay 0 (td_atts desc) xs ->
  fs_infomask s = Z.lor (Z.land im (Z.lnot 7)) (row_mask (td_atts desc) xs) ->
  zlen (filled_bits s bits) = zlen bits ->
  (hasnull = true -> bits_upto (filled_bits s bits) (natts desc) (null_at values)) ->
  formed desc values xs
    (mkTuple len self tab
       (mkHeader choice ctid (SetNatts im2 (natts desc)) (fs_infomask s) (hoff mod 256) (filled_bits s bits) (fs_area s))).
Proof.
  intros Hnat Hrow hasnull hoff bits -> Ha Him Hz Hb. assert (Hn0 : 0 <= natts desc) by apply zlen_nonneg.
  destruct (header_len_bounds hasnull (natts desc) ltac:(lia)) as (Hh & Hmod & _). fold hoff in Hh, Hmod.
  constructor; cbn [t_data t_body t_len t_hoff t_bits t_infomask].
  - done.
  - rewrite Z.mod_small by (unfold SizeofHeapTupleHeader in *; lia). by rewrite Ha.
  - rewrite Hz. unfold bits, SizeofHeapTupleHeader in *. rewrite zlen_zrep, !(Z.mod_small hoff) by lia. lia.
  - rewrite Him, Z.land_lor_distr_l, row_mask_7, <- Z.land_assoc. change (Z.land (Z.lnot 7) 7) with 0. by rewrite Z.land_0_r.
  - unfold HeapTupleHeaderGetNatts, SetNatts. cbn [t_infomask2]. unfold MaxTupleAttributeNumber in Hnat.
    rewrite Z.land_lor_distr_l, <- Z.land_assoc. change (Z.land (Z.lnot HEAP_NATTS_MASK) HEAP_NATTS_MASK) with 0.
    rewrite Z.land_0_r, Z.lor_0_l. unfold HEAP_NATTS_MASK. rewrite (land_ones_mod _ 11) by done. rewrite Z.mod_small by lia. done.
  - exact Hb.
Qed.

Lemma form_ok E desc values xs :
  natts desc <= MaxTupleAttributeNumber -> packs_row E (td_atts desc) values xs ->
  zlen (lay 0 (td_atts desc) xs) + 512 <= MaxAllocSize ->
  returns (heap_form_tuple E desc values) (formed desc values xs).
Proof.
  intros Hnat Hrow Hfit. unfold heap_form_tuple.
  destruct (Z.gtb_spec (natts desc) MaxTupleAttributeNumber); [lia|]. fold (header_len (has_nulls desc values) (natts desc)).
  assert (Hn0 : 0 <= natts desc) by apply zlen_nonneg.
  destruct (header_len_bounds (has_nulls desc values) (natts desc) ltac:(lia)) as (Hh & _).
  unfold heap_compute_data_size. rewrite (data_size_loop_ok E _ _ xs) by done. bind. rewrite Z.add_0_l.
  pose proof (zlen_nonneg (lay 0 (td_atts desc) xs)).
  rewrite palloc_ok by (unfold HEAPTUPLESIZE, SizeofHeapTupleHeader in *; lia). bind.
  destruct (fill_tuple_ok E desc values xs 0 _ Hnat Hrow eq_refl) as (s & -> & Ha & Him & Hz & Hb). bind. cbn [returns].
  by apply (formed_intro E desc values xs _ _ _ _ _ _ 0).
Qed.

Lemma formed_flags E desc values xs tup :
  packs_row E (td_atts desc) values xs -> formed desc values xs tup ->
  HeapTupleHasNulls tup = has_nulls desc values /\
  HeapTupleHasVarWidth tup = existsb (fun '(a, x) => varwidth_col a x) (zip (td_atts desc) xs) /\
  HeapTupleHasExternal tup = existsb (fun '(a, x) => external_col a x) (zip (td_atts desc) xs).
Proof.
  intros Hrow Hf. unfold HeapTupleHasNulls, HeapTupleHasVarWidth, HeapTupleHasExternal.
  rewrite (land_bit _ 0), (land_bit _ 1), (land_bit _ 2) by done.
  assert (Hbit : forall k, 0 <= k < 3 -> Z.testbit (t_infomask (t_data tup)) k = Z.testbit (row_mask (td_atts desc) xs) k).
  { intros k Hk. rewrite <- (formed_mask _ _ _ _ Hf), Z.land_spec. change 7 with (Z.ones 3).
    rewrite Z.ones_spec_low by lia. by rewrite andb_true_r. }
  rewrite !Hbit by lia.
  rewrite (has_nulls_row E desc values xs Hrow), <- (packs_row_nulls _ _ _ _ Hrow).
  apply row_mask_bits. exact (proj2 (packs_row_length _ _ _ _ Hrow)).
Qed.

(** ** Properties *)

(** C22: heap_form_tuple lays a row out as computed: with at most MaxTupleAttributeNumber
    columns and a size that can be allocated it returns a tuple whose data area has
    exactly the size that heap_compute_data_size announced (the assertion at the end of
    heap_fill_tuple) and holds every column at its alignment with zero padding, whose
    header offset is MAXALIGNed and fits the one-byte field, whose null bitmap has a bit
    for every column, and whose HEAP_HASNULL and HEAP_HASEXTERNAL bits say whether a
    column is null or stored out of the tuple. *)
Theorem heap_form_tuple_layout E desc values xs :
  natts desc <= MaxTupleAttributeNumber -> packs_row E (td_atts desc) values xs ->
  zlen (lay 0 (td_atts desc) xs) + 512 <= MaxAllocSize ->
  returns (heap_form_tuple E desc values) (fun tup =>
    formed desc values xs tup /\
    heap_compute_data_size E desc values = Ok (zlen (t_body (t_data tup))) /\
    HeapTupleHasNulls tup = has_nulls desc values /\
    HeapTupleHasExternal tup = existsb (fun '(a, x) => external_col a x) (zip (td_atts desc) xs) /\
    (has_nulls desc values = true -> forall j, 0 <= j < natts desc ->
       att_isnull j (t_bits (t_data tup)) = Ok (null_at values j))).
Proof.
  intros Hn Hrow Hfit. eapply returns_mono; [by apply form_ok|]. intros tup Hf.
  destruct (formed_flags E desc values xs tup Hrow Hf) as (Hnull & _ & Hext).
  split; [done|]. split; [|split; [done|split; [done|]]].
  - rewrite (formed_body _ _ _ _ Hf). exact (data_size_loop_ok E _ _ xs 0 ltac:(lia) Hrow).
  - intros Hh j Hj. apply (att_isnull_bits _ (natts desc)); [by apply (formed_bits _ _ _ _ Hf)|done].
Qed.

(** A row wider than MaxTupleAttributeNumber is refused before anything is built. *)
Theorem heap_form_tuple_too_wide E desc values :
  natts desc > MaxTupleAttributeNumber -> heap_form_tuple E desc values = Ereport ERRCODE_TOO_MANY_COLUMNS.
Proof. intros Hn. unfold heap_form_tuple. destruct (Z.gtb_spec (natts desc) MaxTupleAttributeNumber); [done|lia]. Qed.

(** *** Witnesses *)

Definition int4_att : attribute := mkAtt 4 true TYPALIGN_INT TYPSTORAGE_PLAIN 0 false false.
Definition int8_att : attribute := mkAtt 8 true TYPALIGN_DOUBLE TYPSTORAGE_PLAIN 0 false false.
Definition text_att : attribute := mkAtt (-1) false TYPALIGN_INT TYPSTORAGE_EXTENDED 0 false false.
Definition sample_desc : tupledesc :=
  mkDesc [int4_att; text_att; int8_att; text_att] [-1; -1; -1; -1] None 2249 (-1).
Definition sample_row : list (option Datum) :=
  [Some (DVal (2 ^ 64 - 5)); Some (DPtr (mk_4b_u [72; 79; 67; 79] ++ [])); None; Some (DPtr (mk_ondisk sample_tp ++ []))].
Definition sample_pieces : list piece :=
  [Some (true, le 4 (2 ^ 64 - 5)); Some (false, mk_1b [72; 79; 67; 79]); None; Some (false, mk_ondisk sample_tp)].

Lemma sample_row_packs E : packs_row E (td_atts sample_desc) sample_row sample_pieces.
Proof.
  repeat apply packs_cons; try apply packs_nil; cbn [packs_col].
  - by apply (packs_byval E int4_att).
  - apply packs_varlena; [done|done|]. apply vp_packed; vm_compute; discriminate.
  - done.
  - apply packs_varlena; [done|done|]. apply vp_ondisk.
Qed.

Lemma heap_form_tuple_layout_witness :
  exists tup, heap_form_tuple sample_env sample_desc sample_row = Ok tup /\
    zlen (t_body (t_data tup)) = 27 /\ HeapTupleHasExternal tup = true /\
    att_isnull 2 (t_bits (t_data tup)) = Ok true.
Proof.
  pose proof (heap_form_tuple_layout sample_env sample_desc sample_row sample_pieces
    ltac:(vm_compute; discriminate) (sample_row_packs sample_env) ltac:(vm_compute; discriminate)) as H.
  apply returns_eq in H as (tup & Heq & Hf & Hsz & Hn & Hx & Hb). exists tup. split; [exact Heq|].
  split; [rewrite (formed_body _ _ _ _ Hf); reflexivity|]. split; [rewrite Hx; reflexivity|].
  rewrite Hb; [reflexivity|reflexivity|]. vm_compute. split; [discriminate|reflexivity].
Defined.
