(* ===== verification/HeapTupleDeform.v ===== *)
(** Reading tuples: heap_deform_tuple, heap_modify_tuple, nocachegetattr and heap_getattr
    of heaptuple.c on the tuples that heap_form_tuple builds (HeapTupleForm).

    Deforming remembers in the tuple descriptor the offsets of leading attributes, and
    every later call uses them.  [cache_ok] is the invariant of these offsets; it is what
    makes the fast and the careful path agree, and every operation keeps it. *)

From S2P Require Import Prelude Rle Varatt Pglz PglzHist PglzItems PglzCodec ToastCompression Oids ToastStore Detoast.
From S2P Require Import HeapTuple HeapTupleForm.

(** The cached offsets of a suffix of the attributes; [known] is the offset at which it
    starts in every tuple, if nothing of variable width is before. *)
Fixpoint cache_ok (known : option Z) (atts : list attribute) (cache : list Z) : Prop :=
  match atts, cache with
  | [], [] => True
  | att :: atts, c :: cache =>
      (c < 0 /\ cache_ok None atts cache) \/
      (exists off, known = Some off /\ c = att_align_nominal off (attalign att) /\
         (attlen att = -1 -> c = off) /\
         cache_ok (if attlen att >? 0 then Some (c + attlen att) else None) atts cache)
  | _, _ => False
  end.

Lemma cache_ok_any known atts cache : cache_ok None atts cache -> cache_ok known atts cache.
Proof.
  destruct atts as [|att atts], cache as [|c cache]; try done. cbn [cache_ok].
  intros [H|(off & H & _)]; [by left|done].
Qed.

Lemma cache_ok_length known atts cache : cache_ok known atts cache -> length cache = length atts.
Proof.
  revert known cache. induction atts as [|att atts IH]; intros known [|c cache]; try done.
  cbn [cache_ok]. intros [[_ H]|(off & _ & _ & _ & H)]; apply IH in H; simpl; lia.
Qed.

(** ** One attribute *)

Lemma at_off_app pre rest off : off = zlen pre -> at_off (pre ++ rest) off = rest.
Proof. intros ->. unfold at_off, zlen. rewrite Nat2Z.id. by rewrite drop_app_length. Qed.

(** The first byte of a varlena that is stored without alignment is not a pad byte. *)
Lemma unaligned_head E att p w : varlena_packs E att p false w -> exists b r, w = b :: r /\ b <> 0.
Proof.
  inversion 1; subst.
  - eexists _, _. split; [reflexivity|]. pose proof (zlen_nonneg data). lia.
  - eexists _, _. split; [reflexivity|]. pose proof (zlen_nonneg data). lia.
  - by eexists _, _.
  - by eexists _, _.
Qed.

Lemma varlena_nonempty E att p al w : varlena_packs E att p al w -> exists b r, w = b :: r.
Proof. inversion 1; subst; eexists _, _; reflexivity. Qed.

Lemma packs_kind E att d al w :
  packs E att d al w -> (attlen att <> -1 /\ al = true) \/ (attlen att = -1 /\ exists p, varlena_packs E att p al w).
Proof.
  intros [z Hb Hl _|p t Hb Hl Hp|s t Hb Hl Ha Hs|p al' w' Hb Hl Hp]; [left|left|left|right].
  - unfold byval_len in Hl. split; [lia|done].
  - split; [lia|done].
  - split; [lia|done].
  - split; [done|by eexists].
Qed.

Lemma align_pointer_ok E att p al w pre t :
  varlena_packs E att p al w ->
  att_align_pointer (zlen pre) (attalign att) (-1)
    (at_off (pre ++ zrep (place att al (zlen pre) - zlen pre) 0 ++ w ++ t) (zlen pre)) = Ok (place att al (zlen pre)).
Proof.
  intros Hw. rewrite at_off_app by done. unfold att_align_pointer, VARATT_NOT_PAD_BYTE. cbn [Z.eqb Pos.eqb].
  pose proof (zlen_nonneg pre). destruct al; cbn [place].
  - destruct (varlena_nonempty _ _ _ _ _ Hw) as (b & r & ->).
    pose proof (att_align_bounds (zlen pre) (attalign att) (zlen_nonneg pre)).
    destruct (Z.eq_dec (att_align_nominal (zlen pre) (attalign att)) (zlen pre)) as [He|Hne].
    + rewrite He, Z.sub_diag. change (zrep 0 0) with (@nil Z). cbn [app]. rewrite rd_cons_0. bind.
      by destruct (negb (b =? 0)).
    + replace (att_align_nominal (zlen pre) (attalign att) - zlen pre)
        with (1 + (att_align_nominal (zlen pre) (attalign att) - zlen pre - 1)) by lia.
      rewrite <- zrep_app by lia. change (zrep 1 0) with [0]. cbn [app]. rewrite rd_cons_0. done.
  - destruct (unaligned_head _ _ _ _ Hw) as (b & r & -> & Hb). rewrite Z.sub_diag. change (zrep 0 0) with (@nil Z). cbn [app]. rewrite rd_cons_0. bind.
    by destruct (Z.eqb_spec b 0).
Qed.

(** locate_att finds the place of the attribute, and caches it only where it is the same
    in every tuple. *)
Lemma locate_att_ok E att d al w pre t c slow :
  packs E att d al w ->
  (slow = false -> c < 0 \/ c = att_align_nominal (zlen pre) (attalign att) /\ (attlen att = -1 -> c = zlen pre)) ->
  exists c' slow',
    locate_att (pre ++ zrep (place att al (zlen pre) - zlen pre) 0 ++ w ++ t) att c (zlen pre) slow
      = Ok (place att al (zlen pre), c', slow') /\
    (slow = true -> slow' = true) /\ (slow' = true -> c' = c) /\
    (slow' = false -> c' = att_align_nominal (zlen pre) (attalign att) /\ (attlen att = -1 -> c' = zlen pre)).
Proof.
  intros Hp Hc. pose proof (att_align_bounds (zlen pre) (attalign att) (zlen_nonneg pre)) as Hb.
  pose proof (zlen_nonneg pre) as Hpre. unfold locate_att.
  destruct (Z.geb_spec c 0); destruct slow; cbn [negb andb].
  2: { destruct (Hc eq_refl) as [?|[He Hv]]; [lia|]. exists c, false. split_and!; try done.
       do 3 f_equal. unfold place. destruct (packs_kind _ _ _ _ _ Hp) as [[? ->]|[Hl _]]; [done|].
       specialize (Hv Hl). destruct al; congruence. }
  all: destruct (packs_kind _ _ _ _ _ Hp) as [[Hl ->]|[Hl [p Hw]]];
    [destruct (Z.eqb_spec (attlen att) (-1)); [done|]; cbn [place]; eexists _, _; split_and!; try done|].
  all: rewrite Hl; cbn [Z.eqb Pos.eqb].
  1,2,3: rewrite (align_pointer_ok E att p) by done; bind.
  1,2: exists c, true; split_and!; done.
  destruct (Z.eqb_spec (zlen pre) (att_align_nominal (zlen pre) (attalign att))) as [He|];
    [exists (zlen pre), false|exists c, true]; split_and!; try done.
  unfold place. destruct al; congruence.
Qed.

(** What fetching returns: a by-value datum itself, or a pointer into the tuple. *)
Definition fetched_datum (att : attribute) (d : Datum) (w rest : list Z) : Datum :=
  if attbyval att then d else DPtr (w ++ rest).

Lemma fetchatt_ok E att d al w rest : packs E att d al w -> fetchatt att (w ++ rest) = Ok (fetched_datum att d w rest).
Proof.
  intros Hp. unfold fetchatt, fetch_att, fetched_datum.
  destruct Hp as [z Hb Hl Hz|p t Hb Hl Hp|s t Hb Hl Ha Hs|p al' w' Hb Hl Hp]; rewrite Hb; try done.
  rewrite Hl. assert (0 < attlen att) by (unfold byval_len in Hl; lia).
  rewrite rdn_exact by (rewrite le_length; lia). bind. rewrite le_val_le, Z2Nat.id by lia. by rewrite Hz.
Qed.

Lemma addlength_ok E att d al w rest off :
  packs E att d al w -> att_addlength_pointer off (attlen att) (w ++ rest) = Ok (off + zlen w).
Proof.
  intros Hp. unfold att_addlength_pointer.
  destruct Hp as [z Hb Hl Hz|p t Hb Hl Hp|s t Hb Hl Ha Hs|p al' w' Hb Hl Hp].
  - assert (0 < attlen att) by (unfold byval_len in Hl; lia). destruct (Z.gtb_spec (attlen att) 0); [|lia].
    rewrite le_length. f_equal. lia.
  - destruct (Z.gtb_spec (attlen att) 0); [|lia]. by rewrite Hp.
  - rewrite Hl. cbn [Z.gtb Z.compare Z.eqb Pos.eqb]. rewrite <- app_assoc. cbn [app]. rewrite strlen_ok by done.
    bind. f_equal. zl.
  - rewrite Hl. cbn [Z.gtb Z.compare Z.eqb Pos.eqb]. unfold VARSIZE_ANY.
    destruct Hp as [data t Hs Hd|data t Hs Hd|data t Hd|raw id payload t Hok|tp t|addr t|tag addr data t Ht Ha Hd Hf];
      tags; tags; tags; try done; f_equal; zl.
Qed.

(** ** The whole tuple *)

(** The values that deforming finds in a row laid out from [off] and followed by [t]. *)
Fixpoint view (off : Z) (atts : list attribute) (values : list (option Datum)) (xs : list piece) (t : list Z)
    : list (option Datum) :=
  match atts, values, xs with
  | att :: atts, Some d :: values, Some (al, w) :: xs =>
      let o := place att al off in
      Some (fetched_datum att d w (lay (o + zlen w) atts xs ++ t)) :: view (o + zlen w) atts values xs t
  | _ :: atts, None :: values, None :: xs => None :: view off atts values xs t
  | _, _, _ => []
  end.

(** The bitmap, as deforming asks it. *)
Definition nulls_known (hasnulls : bool) (bp : list Z) (attnum : Z) (values : list (option Datum)) : Prop :=
  forall k v, values !! k = Some v ->
    (if hasnulls then att_isnull (attnum + Z.of_nat k) bp else Ok false) = Ok (null_col v).

Lemma nulls_known_tail hasnulls bp attnum v values :
  nulls_known hasnulls bp attnum (v :: values) -> nulls_known hasnulls bp (attnum + 1) values.
Proof.
  intros Hn k v' Hk. specialize (Hn (S k) v' Hk). by replace (attnum + 1 + Z.of_nat k) with (attnum + Z.of_nat (S k)) by lia.
Qed.

(** The offsets known when an attribute was found: those of the rest go with it. *)
Lemma cache_step att al w d E (pre : list Z) atts cache c :
  packs E att d al w -> cache_ok (Some (zlen pre)) (att :: atts) (c :: cache) ->
  (c < 0 \/ c = att_align_nominal (zlen pre) (attalign att) /\ (attlen att = -1 -> c = zlen pre)) /\
  (0 < attlen att -> place att al (zlen pre) + zlen w = att_align_nominal (zlen pre) (attalign att) + attlen att /\
     cache_ok (Some (place att al (zlen pre) + zlen w)) atts cache) /\
  (attlen att <= 0 -> cache_ok None atts cache).
Proof.
  intros Hp Hc. cbn [cache_ok] in Hc.
  assert (Hfix : 0 < attlen att -> al = true /\ zlen w = attlen att).
  { intros Hl. destruct Hp as [z Hb Hl' _|p t Hb Hl' Hp|s t Hb Hl' Ha Hs|p al' w' Hb Hl' Hp]; try lia.
    rewrite le_length. split; [done|lia]. }
  destruct Hc as [[Hneg Hrest]|(off & [= <-] & Hce & Hv & Hrest)].
  - split; [by left|]. split; [|done]. intros Hl. destruct (Hfix Hl) as [-> ->]. split; [done|by apply cache_ok_any].
  - split; [by right|]. destruct (Z.gtb_spec (attlen att) 0).
    + split; [|lia]. intros Hl. destruct (Hfix Hl) as [-> ->]. cbn [place]. split; [done|]. by rewrite <- Hce.
    + split; [lia|done].
Qed.

Lemma deform_loop_ok E bp hasnulls more atts values xs : packs_row E atts values xs ->
  forall pre t attnum slow cache,
  nulls_known hasnulls bp attnum values ->
  (if slow : bool then (length atts <= length cache)%nat else cache_ok (Some (zlen pre)) (atts ++ more) cache) ->
  exists cache',
    deform_loop (pre ++ lay (zlen pre) atts xs ++ t) bp hasnulls atts cache attnum (zlen pre) slow
      = Ok (view (zlen pre) atts values xs t, cache') /\
    (if slow then cache' = cache else cache_ok (Some (zlen pre)) (atts ++ more) cache').
Proof.
  induction 1 as [|att v x atts values xs Hx Hrow IH]; intros pre t attnum slow cache Hn Hc.
  { exists cache. by destruct slow. }
  destruct cache as [|c cache]; [destruct slow; [simpl in Hc; lia|done]|].
  pose proof (Hn 0%nat v eq_refl) as Hnull. rewrite Z.add_0_r in Hnull. apply nulls_known_tail in Hn.
  cbn [deform_loop]. rewrite Hnull. bind.
  destruct v as [d|], x as [[al w]|]; try done; cbn [null_col packs_col lay view] in *.
  - set (o := place att al (zlen pre)) in *. set (L := lay (o + zlen w) atts xs).
    destruct (locate_att_ok E att d al w pre (L ++ t) c slow Hx) as (c' & slow' & Hloc & Hmono & Hkeep & Hset).
    { intros ->. by apply (cache_step att al w d E pre (atts ++ more) cache c) in Hc as [? _]. }
    fold o in Hloc. rewrite <- !app_assoc. rewrite Hloc. bind.
    set (pre' := pre ++ zrep (o - zlen pre) 0 ++ w).
    pose proof (place_bounds att al _ (zlen_nonneg pre)) as Hb. fold o in Hb.
    assert (Ho : zlen pre' = o + zlen w) by (unfold pre'; zl).
    assert (Htp : pre ++ zrep (o - zlen pre) 0 ++ w ++ L ++ t = pre' ++ L ++ t) by (unfold pre'; by rewrite <- !app_assoc).
    replace (at_off _ o) with (w ++ L ++ t)
      by (rewrite (app_assoc pre); symmetry; apply at_off_app; zl).
    rewrite (fetchatt_ok E att d al w), (addlength_ok E att d al w) by done. bind. rewrite Htp. rewrite <- Ho.
    unfold L. rewrite <- Ho.
    assert (Hcond : if (if attlen att <=? 0 then true else slow') then (length atts <= length cache)%nat
                    else cache_ok (Some (zlen pre')) (atts ++ more) cache).
    { destruct slow.
      - rewrite (Hmono eq_refl). simpl in Hc. destruct (attlen att <=? 0); lia.
      - pose proof (cache_ok_length _ _ _ Hc) as Hlen. simpl in Hlen. rewrite length_app in Hlen.
        apply (cache_step att al w d E) in Hc as (_ & Hpos & _); [|done].
        destruct (Z.leb_spec (attlen att) 0); [lia|]. destruct slow'; [lia|]. rewrite Ho. by apply Hpos. }
    destruct (IH pre' t (attnum + 1) _ cache Hn Hcond) as (cache' & -> & Hc'). bind.
    eexists. split; [reflexivity|]. cbn [fst snd]. destruct slow.
    { rewrite (Hkeep (Hmono eq_refl)). f_equal. rewrite (Hmono eq_refl) in Hc'. by destruct (attlen att <=? 0). }
    destruct slow'.
    { rewrite (Hkeep eq_refl). replace (if attlen att <=? 0 then true else true) with true in Hc' by (by destruct (_ <=? _)).
      by rewrite Hc'. }
    destruct (Hset eq_refl) as [Hce Hv].
    destruct (cache_step att al w d E pre (atts ++ more) cache c Hx Hc) as (_ & Hpos & Hnone).
    cbn [app cache_ok]. right. exists (zlen pre). split; [done|]. split; [done|]. split; [done|].
    destruct (Z.gtb_spec (attlen att) 0) as [Hl|Hl]; destruct (Z.leb_spec (attlen att) 0); try lia.
    + destruct (Hpos Hl) as [He _]. fold o in He. by rewrite Hce, <- He, <- Ho.
    + rewrite Hc'. by apply Hnone.
  - destruct (IH pre t (attnum + 1) true cache Hn) as (cache' & -> & ->).
    { destruct slow; [simpl in Hc; lia|]. apply cache_ok_length in Hc. simpl in Hc. rewrite length_app in Hc. lia. }
    bind. eexists. split; [reflexivity|]. by destruct slow.
Qed.

(** The invariant of a tuple descriptor. *)
Definition desc_ok (desc : tupledesc) : Prop := cache_ok (Some 0) (td_atts desc) (td_cache desc).

(** A descriptor of the same columns, with perhaps other offsets cached. *)
Definition same_desc (desc desc' : tupledesc) : Prop := exists cache, desc' = set_cache desc cache.

(** [desc] may have columns that were added after the tuple was formed with [desc0]. *)
Definition extends (desc0 desc : tupledesc) (more : list attribute) : Prop :=
  td_atts desc = td_atts desc0 ++ more.

Section formed.
Context (E : env) (desc0 desc : tupledesc) (more : list attribute) (values : list (option Datum)) (xs : list piece).
Context (tup : HeapTuple).
Context (Hext : extends desc0 desc more) (Hdesc : desc_ok desc).
Context (Hrow : packs_row E (td_atts desc0) values xs) (Hf : formed desc0 values xs tup).

Lemma formed_nulls : nulls_known (HeapTupleHasNulls tup) (t_bits (t_data tup)) 0 values.
Proof.
  intros k v Hk. destruct (formed_flags E desc0 values xs tup Hrow Hf) as (-> & _ & _).
  destruct (packs_row_length _ _ _ _ Hrow) as [Hl _]. pose proof (lookup_lt_Some _ _ _ Hk).
  destruct (has_nulls desc0 values) eqn:Hn.
  - rewrite (att_isnull_bits _ (natts desc0) (null_at values)).
    + unfold null_at. by replace (Z.to_nat (0 + Z.of_nat k)) with k by lia; rewrite Hk.
    + by apply (formed_bits _ _ _ _ Hf).
    + unfold natts, zlen. lia.
  - rewrite (has_nulls_row E desc0 values xs Hrow) in Hn.
    pose proof (not_null_at values (Z.of_nat k) Hn) as H'. unfold null_at in H'. rewrite Nat2Z.id, Hk in H'.
    cbn in H'. by rewrite H'.
Qed.

Lemma formed_min : Z.min (HeapTupleHeaderGetNatts (t_data tup)) (natts desc) = natts desc0.
Proof.
  rewrite (formed_natts _ _ _ _ Hf). unfold natts. rewrite Hext, zlen_app. pose proof (zlen_nonneg more). lia.
Qed.

Lemma deform_formed rest :
  missing_loop desc (natts desc0) (length more) = Ok rest ->
  exists desc', heap_deform_tuple tup desc = Ok (view 0 (td_atts desc0) values xs [] ++ rest, desc') /\
    same_desc desc desc' /\ desc_ok desc'.
Proof.
  intros Hm. unfold heap_deform_tuple. rewrite formed_min.
  replace (take (Z.to_nat (natts desc0)) (td_atts desc)) with (td_atts desc0)
    by (rewrite Hext; unfold natts, zlen; by rewrite Nat2Z.id, take_app_length).
  replace (Z.to_nat (natts desc - natts desc0)) with (length more)
    by (unfold natts; rewrite Hext, zlen_app; unfold zlen; lia).
  rewrite (formed_body _ _ _ _ Hf).
  destruct (deform_loop_ok E (t_bits (t_data tup)) (HeapTupleHasNulls tup) more _ _ _ Hrow [] [] 0 false (td_cache desc)
    formed_nulls) as (cache' & Heq & Hc); [unfold desc_ok in Hdesc; by rewrite Hext in Hdesc|].
  cbn [app] in Heq. rewrite app_nil_r in Heq. change (zlen (@nil Z)) with 0 in *. rewrite Heq. bind. rewrite Hm. bind.
  eexists. split; [reflexivity|]. split; [by eexists|]. unfold desc_ok. cbn [set_cache td_atts td_cache snd]. by rewrite Hext.
Qed.
End formed.

(** ** What a column holds *)

Inductive content :=
| CNull
| CWord (z : Z)
| CFixed (p : list Z)
| CString (s : list Z)
| CVarlena (data : list Z).

Inductive col_holds (E : env) (att : attribute) : option Datum -> content -> Prop :=
| ch_null : col_holds E att None CNull
| ch_word z :
    attbyval att = true -> byval_len (attlen att) = true ->
    word_of (8 * attlen att) (z mod 2 ^ (8 * attlen att)) = z -> col_holds E att (Some (DVal z)) (CWord z)
| ch_fixed p t :
    attbyval att = false -> 0 < attlen att -> zlen p = attlen att ->
    col_holds E att (Some (DPtr (p ++ t))) (CFixed p)
| ch_string s t :
    attbyval att = false -> attlen att = -2 -> attalign att = TYPALIGN_CHAR -> Forall (fun c => c <> 0) s ->
    col_holds E att (Some (DPtr (s ++ 0 :: t))) (CString s)
| ch_varlena p data :
    attbyval att = false -> attlen att = -1 -> holds E p data -> col_holds E att (Some (DPtr p)) (CVarlena data).

Inductive row_holds (E : env) : list attribute -> list (option Datum) -> list content -> Prop :=
| rh_nil : row_holds E [] [] []
| rh_cons att v c atts values cs :
    col_holds E att v c -> row_holds E atts values cs -> row_holds E (att :: atts) (v :: values) (c :: cs).

(** A varlena is stored in some form, and wherever that form is read it has the same
    contents. *)
Lemma holds_packs E att p data :
  holds E p data -> exists al w, varlena_packs E att p al w /\ forall t, holds E (w ++ t) data.
Proof.
  assert (Hin : forall d, ok_4b_u d -> forall t, holds E (mk_4b_u d ++ t) d)
    by (intros d Hd t; by apply holds_direct, direct_inline; constructor).
  intros [v d Hd|addr v d t Ha Hm Hd].
  - destruct Hd as [v d Hi|id payload d t Hc Hd Hok|tp ext d t Hok Hd Hp Hs|tag addr d t Ht Ha Hd Hf].
    + destruct Hi as [d t Hd|d t Hd].
      * destruct (decide (attstorage att = TYPSTORAGE_PLAIN)) as [He|He].
        { exists true, (mk_4b_u d). split; [constructor; auto|auto]. }
        destruct (decide (ok_1b d)) as [H1|H1].
        -- exists false, (mk_1b d). split; [by constructor|]. intros t'. by apply holds_direct, direct_inline; constructor.
        -- exists true, (mk_4b_u d). split; [constructor; auto|auto].
      * exists false, (mk_1b d). split; [by constructor|]. intros t'. by apply holds_direct, direct_inline; constructor.
    + exists true, (mk_4b_c (zlen d) id payload). split; [by constructor|].
      intros t'. by apply holds_direct, direct_compressed.
    + exists false, (mk_ondisk tp). split; [constructor|]. intros t'. by apply holds_direct, (direct_ondisk _ tp ext).
    + exists true, (mk_4b_u d). split; [by apply vp_expanded|auto].
  - exists false, (mk_pointer VARTAG_INDIRECT addr). split; [constructor|]. intros t'. by apply (holds_indirect _ _ v).
Qed.

Lemma col_holds_packs E att v c :
  col_holds E att v c -> exists x, packs_col E att v x /\
    match v, x with
    | Some d, Some (_, w) => forall t, col_holds E att (Some (fetched_datum att d w t)) c
    | _, _ => True
    end.
Proof.
  unfold fetched_datum. intros [|z Hb Hl Hz|p t Hb Hl Hp|s t Hb Hl Ha Hs|p data Hb Hl Hp].
  - by exists None.
  - eexists (Some (_, _)). split; [by apply packs_byval|]. intros t. rewrite Hb. by constructor.
  - eexists (Some (_, _)). split; [by apply packs_fixed|]. intros t'. rewrite Hb. by constructor.
  - eexists (Some (_, _)). split; [by apply packs_cstring|]. intros t'. rewrite Hb, <- app_assoc. by constructor.
  - destruct (holds_packs E att p data Hp) as (al & w & Hw & Hh). exists (Some (al, w)).
    split; [by apply packs_varlena|]. intros t. rewrite Hb. by constructor.
Qed.

Lemma row_holds_packs E atts values cs :
  row_holds E atts values cs -> exists xs, packs_row E atts values xs /\
    forall off t, row_holds E atts (view off atts values xs t) cs.
Proof.
  induction 1 as [|att v c atts values cs Hc _ (xs & Hrow & Hv)].
  - exists []. split; [constructor|]. intros. constructor.
  - destruct (col_holds_packs E att v c Hc) as (x & Hx & Hd). exists (x :: xs). split; [by constructor|].
    intros off t. destruct v as [d|], x as [[al w]|]; try done; cbn [view]; (constructor; [|done]); [apply Hd|done].
Qed.

Lemma row_holds_length E atts values cs :
  row_holds E atts values cs -> length values = length atts /\ length cs = length atts.
Proof. induction 1; simpl; lia. Qed.

(** ** What a tuple holds *)

Definition row_fits (E : env) (desc : tupledesc) (values : list (option Datum)) : Prop :=
  exists n, heap_compute_data_size E desc values = Ok n /\ n + 512 <= MaxAllocSize.

Definition tuple_holds (E : env) (desc : tupledesc) (tup : HeapTuple) (cs : list content) : Prop :=
  exists values xs, packs_row E (td_atts desc) values xs /\ formed desc values xs tup /\
    row_holds E (td_atts desc) (view 0 (td_atts desc) values xs []) cs.

Lemma form_holds E desc values cs :
  natts desc <= MaxTupleAttributeNumber -> row_holds E (td_atts desc) values cs -> row_fits E desc values ->
  returns (heap_form_tuple E desc values) (fun tup => tuple_holds E desc tup cs).
Proof.
  intros Hn Hrow (n & Hsz & Hfit). destruct (row_holds_packs E _ _ _ Hrow) as (xs & Hp & Hv).
  unfold heap_compute_data_size in Hsz. rewrite (data_size_loop_ok E _ _ xs) in Hsz by done. injection Hsz as <-.
  eapply returns_mono; [apply form_ok; [done|done|lia]|]. intros tup Hf. by exists values, xs.
Qed.

Lemma deform_holds E desc tup cs :
  desc_ok desc -> tuple_holds E desc tup cs ->
  returns (heap_deform_tuple tup desc) (fun '(values, desc') =>
    row_holds E (td_atts desc) values cs /\ same_desc desc desc' /\ desc_ok desc').
Proof.
  intros Hd (values & xs & Hp & Hf & Hv).
  destruct (deform_formed E desc desc [] values xs tup) with (rest := @nil (option Datum)) as (desc' & -> & Hs & Hd'); try done.
  - unfold extends. by rewrite app_nil_r.
  - cbn [returns]. by rewrite app_nil_r.
Qed.

Lemma same_desc_atts desc desc' : same_desc desc desc' -> td_atts desc' = td_atts desc /\ natts desc' = natts desc.
Proof. by intros [cache ->]. Qed.

(** Everything about a tuple but the cached offsets is a matter of the columns. *)
Lemma tuple_holds_same E desc desc' tup cs : same_desc desc desc' -> tuple_holds E desc tup cs -> tuple_holds E desc' tup cs.
Proof.
  intros [cache ->] (values & xs & Hp & Hf & Hv). exists values, xs. split; [done|]. split; [|done].
  destruct Hf. by split.
Qed.

Lemma form_same_desc E desc desc' values :
  same_desc desc desc' -> heap_form_tuple E desc' values = heap_form_tuple E desc values.
Proof. by intros [cache ->]. Qed.

(** Columns replaced where the flag is set. *)
Fixpoint replaced {A} (xs ys : list A) (flags : list bool) : list A :=
  match xs, ys, flags with
  | x :: xs, y :: ys, b :: flags => (if b : bool then y else x) :: replaced xs ys flags
  | _, _, _ => []
  end.

Lemma replace_cols_ok E atts values cs : row_holds E atts values cs -> forall repl cs' flags,
  row_holds E atts repl cs' -> length flags = length atts ->
  exists values', replace_cols values repl flags = Ok values' /\ row_holds E atts values' (replaced cs cs' flags).
Proof.
  induction 1 as [|att v c atts values cs Hc Hrow IH]; intros repl cs' flags Hr Hl.
  - inversion Hr; subst. exists []. split; [done|constructor].
  - inversion Hr as [|? v' c' ? repl' cs'' Hc' Hr']; subst. destruct flags as [|b flags]; [done|].
    destruct (IH repl' cs'' flags Hr' ltac:(simpl in Hl; lia)) as (values' & Heq & Hv').
    cbn [replace_cols replaced]. rewrite Heq. bind. eexists. split; [reflexivity|]. constructor; [by destruct b|done].
Qed.

Lemma with_identity_holds E desc tup old cs : tuple_holds E desc tup cs -> tuple_holds E desc (with_identity tup old) cs.
Proof. intros (values & xs & Hp & Hf & Hv). exists values, xs. split; [done|]. split; [|done]. destruct Hf. by split. Qed.

(** ** Properties *)

(** C7: Forming a tuple and deforming it gives the row back: nulls are null, by-value
    columns have the same word, fixed-length columns and C strings the same bytes, and
    every varlena column, whatever form it was in (plain, short, compressed, out of
    line, an indirect pointer or an expanded object) and whatever header it was packed
    with, the same contents.  The offsets cached in the descriptor stay valid. *)
Theorem heap_form_deform_roundtrip E desc values cs :
  desc_ok desc -> natts desc <= MaxTupleAttributeNumber -> row_holds E (td_atts desc) values cs ->
  row_fits E desc values ->
  returns (tup ← heap_form_tuple E desc values; heap_deform_tuple tup desc) (fun '(values', desc') =>
    row_holds E (td_atts desc) values' cs /\ same_desc desc desc' /\ desc_ok desc').
Proof.
  intros Hd Hn Hrow Hfit. eapply returns_bind; [by apply form_holds|]. intros tup Ht. by apply deform_holds.
Qed.

(** heap_modify_tuple replaces the columns it is told to and keeps the others: the
    new tuple holds, column by column, the replacement where the flag is set and what
    the old tuple held elsewhere, and it has the old tuple's identity. *)
Theorem heap_modify_tuple_correct E desc tup cs repl cs' flags :
  desc_ok desc -> natts desc <= MaxTupleAttributeNumber -> tuple_holds E desc tup cs ->
  row_holds E (td_atts desc) repl cs' -> length flags = length (td_atts desc) ->
  (forall values, row_holds E (td_atts desc) values (replaced cs cs' flags) ->
     (x ← heap_deform_tuple tup desc; replace_cols (fst x) repl flags) = Ok values -> row_fits E desc values) ->
  returns (heap_modify_tuple E tup desc repl flags) (fun '(new, desc') =>
    tuple_holds E desc new (replaced cs cs' flags) /\ desc_ok desc' /\ same_desc desc desc' /\
    t_self new = t_self tup /\ t_tableOid new = t_tableOid tup /\ t_ctid (t_data new) = t_ctid (t_data tup)).
Proof.
  intros Hd Hn Ht Hr Hl Hfit. unfold heap_modify_tuple.
  pose proof (deform_holds E desc tup cs Hd Ht) as Hx.
  apply returns_eq in Hx as ([values desc'] & Heq & Hv & Hs & Hd'). rewrite Heq in *. cbn [mbind res_bind fst] in *.
  destruct (replace_cols_ok E _ values cs Hv repl cs' flags Hr Hl) as (values' & Hrep & Hv'). rewrite Hrep. bind.
  rewrite (form_same_desc E desc desc') by done.
  pose proof (form_holds E desc values' _ Hn Hv' (Hfit _ Hv' Hrep)) as Hnew.
  apply returns_eq in Hnew as (new & -> & Hnew). bind. cbn [returns]. split_and!; try done. by apply with_identity_holds.
Qed.

(** *** Witnesses *)

Lemma sample_desc_ok : desc_ok sample_desc.
Proof. unfold desc_ok. cbn. repeat (left; split; [lia|]). done. Qed.

Definition sample_contents : list content :=
  [CWord (2 ^ 64 - 5); CVarlena [72; 79; 67; 79]; CNull; CVarlena sample_value].

Lemma sample_row_holds : row_holds sample_env (td_atts sample_desc) sample_row sample_contents.
Proof.
  repeat apply rh_cons; try apply rh_nil.
  - by apply (ch_word sample_env int4_att).
  - apply ch_varlena; [done|done|]. apply holds_direct, direct_inline. constructor. vm_compute. reflexivity.
  - apply ch_null.
  - apply ch_varlena; [done|done|]. apply holds_direct, sample_direct.
Qed.

Lemma sample_fits : row_fits sample_env sample_desc sample_row.
Proof. exists 27. split; [vm_compute; reflexivity|vm_compute; discriminate]. Qed.

Lemma heap_form_deform_roundtrip_witness :
  exists values' desc', (tup ← heap_form_tuple sample_env sample_desc sample_row; heap_deform_tuple tup sample_desc)
    = Ok (values', desc') /\ row_holds sample_env (td_atts sample_desc) values' sample_contents.
Proof.
  pose proof (heap_form_deform_roundtrip sample_env sample_desc sample_row sample_contents sample_desc_ok
    ltac:(vm_compute; discriminate) sample_row_holds sample_fits) as H.
  apply returns_eq in H as ([values' desc'] & Heq & H & _). exists values', desc'. split; [exact Heq|exact H].
Defined.

Definition sample_tuple : HeapTuple :=
  match heap_form_tuple sample_env sample_desc sample_row with
  | Ok tup => tup
  | _ => mkTuple 0 InvalidItemPointer 0 (mkHeader [] InvalidItemPointer 0 0 0 [] [])
  end.
Lemma sample_tuple_holds : tuple_holds sample_env sample_desc sample_tuple sample_contents.
Proof.
  pose proof (form_holds sample_env sample_desc sample_row sample_contents
    ltac:(vm_compute; discriminate) sample_row_holds sample_fits) as H.
  unfold sample_tuple. by destruct (heap_form_tuple sample_env sample_desc sample_row).
Qed.

Lemma heap_modify_tuple_correct_witness :
  exists new desc', heap_modify_tuple sample_env sample_tuple sample_desc sample_row [false; true; true; false]
    = Ok (new, desc') /\ tuple_holds sample_env sample_desc new sample_contents.
Proof.
  pose proof (heap_modify_tuple_correct sample_env sample_desc sample_tuple sample_contents sample_row sample_contents
    [false; true; true; false] sample_desc_ok ltac:(vm_compute; discriminate) sample_tuple_holds sample_row_holds
    eq_refl) as H.
  assert (Hfit : forall values, row_holds sample_env (td_atts sample_desc) values
      (replaced sample_contents sample_contents [false; true; true; false]) ->
    (x ← heap_deform_tuple sample_tuple sample_desc; replace_cols (fst x) sample_row [false; true; true; false])
      = Ok values -> row_fits sample_env sample_desc values).
  { intros values _ Hv. vm_compute in Hv. injection Hv as <-. exists 27. split; [vm_compute; reflexivity|vm_compute; discriminate]. }
  specialize (H Hfit). apply returns_eq in H as ([new desc'] & Heq & H & _). exists new, desc'. split; [exact Heq|exact H].
Defined.
