(* ===== verification/HeapTupleGetattr.v ===== *)
(** One attribute of a tuple: heap_getattr, fastgetattr and nocachegetattr.

    They find an attribute by one of three ways: a cached offset, the offsets of leading
    fixed-width attributes, or a walk over the tuple.  All of them return what
    heap_deform_tuple returns in that column, and keep the cached offsets valid. *)

From S2P Require Import Prelude Rle Varatt Pglz PglzHist PglzItems PglzCodec ToastCompression Oids ToastStore Detoast.
From S2P Require Import HeapTuple HeapTupleForm HeapTupleDeform.

(** The offset of column [i] of a row laid out from [off]. *)
Fixpoint pos (off : Z) (atts : list attribute) (xs : list piece) (i : nat) : Z :=
  match atts, xs, i with
  | att :: _, Some (al, _) :: _, O => place att al off
  | att :: atts, Some (al, w) :: xs, S i => pos (place att al off + zlen w) atts xs i
  | _ :: atts, None :: xs, S i => pos off atts xs i
  | _, _, _ => off
  end.

(** The columns before [i] are not null. *)
Definition full_before (values : list (option Datum)) (i : nat) : Prop :=
  forall j v, (j < i)%nat -> values !! j = Some v -> null_col v = false.

Section at_pos.
Context (E : env).

Lemma fetch_at_pos atts values xs : packs_row E atts values xs -> forall pre t i att d,
  atts !! i = Some att -> values !! i = Some (Some d) ->
  exists v, fetchatt att (at_off (pre ++ lay (zlen pre) atts xs ++ t) (pos (zlen pre) atts xs i)) = Ok v /\
    view (zlen pre) atts values xs t !! i = Some (Some v).
Proof.
  induction 1 as [|a v x atts values xs Hx _ IH]; intros pre t i att d Ha Hd; [done|].
  pose proof (zlen_nonneg pre) as Hpre.
  destruct v as [d'|], x as [[al w]|]; try done; cbn [packs_col lay view] in *.
  - pose proof (place_bounds a al _ Hpre) as Hb. set (o := place a al (zlen pre)) in *.
    set (pre' := pre ++ zrep (o - zlen pre) 0 ++ w). assert (Ho : zlen pre' = o + zlen w) by (unfold pre'; zl).
    destruct i as [|i].
    + injection Ha as <-. injection Hd as <-. cbn [pos lookup list_lookup]. fold o. eexists. split; [|reflexivity].
      rewrite <- !app_assoc, (app_assoc pre), at_off_app by zl. by apply (fetchatt_ok E a d' al).
    + cbn [pos]. fold o. destruct (IH pre' t i att d Ha Hd) as (v & Hv & Hview). exists v. rewrite Ho in *.
      split; [|done]. rewrite <- Hv. unfold pre'. by rewrite <- !app_assoc.
  - destruct i as [|i]; [done|]. cbn [pos]. by apply (IH pre t i att d).
Qed.

Lemma view_null atts values xs : packs_row E atts values xs -> forall off t i,
  values !! i = Some None -> view off atts values xs t !! i = Some None.
Proof.
  induction 1 as [|a v x atts values xs Hx _ IH]; intros off t i Hi; [done|].
  destruct v as [d|], x as [[al w]|]; try done; destruct i as [|i]; try done; cbn [view]; by apply IH.
Qed.

(** A cached offset is the offset in every tuple without nulls before the column. *)
Lemma cache_pos atts values xs : packs_row E atts values xs -> forall more (pre : list Z) cache i c d,
  cache_ok (Some (zlen pre)) (atts ++ more) cache -> cache !! i = Some c -> 0 <= c ->
  full_before values i -> values !! i = Some (Some d) -> c = pos (zlen pre) atts xs i.
Proof.
  induction 1 as [|a v x atts values xs Hx _ IH]; intros more pre cache i c d Hc Hi Hpos Hfull Hd; [done|].
  pose proof (zlen_nonneg pre) as Hpre.
  destruct cache as [|c0 cache]; [done|]. destruct v as [d'|], x as [[al w]|]; try done; cbn [packs_col] in *.
  - pose proof (cache_step a al w d' E pre (atts ++ more) cache c0 Hx Hc) as (Hc0 & Hnext & Hnone).
    destruct i as [|i]; cbn [pos].
    + injection Hi as ->. destruct Hc0 as [?|[He Hv]]; [lia|]. unfold place.
      destruct (packs_kind _ _ _ _ _ Hx) as [[_ ->]|[Hl _]]; [done|]. specialize (Hv Hl). destruct al; congruence.
    + set (o := place a al (zlen pre)) in *. pose proof (place_bounds a al _ Hpre) as Hb. fold o in Hb.
      set (pre' := pre ++ zrep (o - zlen pre) 0 ++ w). assert (Ho : zlen pre' = o + zlen w) by (unfold pre'; zl).
      rewrite <- Ho in *. apply (IH more pre' cache i c d); [|done|done| |done].
      * destruct (decide (0 < attlen a)); [by apply Hnext|]. apply cache_ok_any, Hnone. lia.
      * intros j v Hj. apply (Hfull (S j)). lia.
  - destruct i as [|i]; [done|]. specialize (Hfull 0%nat None ltac:(lia) eq_refl). done.
Qed.

(** ** Leading fixed-width columns *)

Lemma init_rest atts cache off :
  0 <= off -> cache_ok None atts cache -> cache_ok (Some off) atts (init_offsets atts cache false off).
Proof.
  revert cache off. induction atts as [|a atts IH]; intros [|c cache] off Hoff Hc; try done.
  cbn [cache_ok] in Hc. destruct Hc as [[Hneg Hrest]|(? & ? & _)]; [|done]. cbn [init_offsets andb].
  destruct (Z.leb_spec (attlen a) 0); cbn [cache_ok]; [by left|]. right. exists off.
  pose proof (att_align_bounds off (attalign a) Hoff). split_and!; [done|done|lia|].
  destruct (Z.gtb_spec (attlen a) 0); [|lia]. apply IH; [lia|done].
Qed.

Lemma init_ok atts cache over off i c :
  0 < off -> cache_ok (Some off) atts cache -> (over = false -> cache_ok None atts cache) ->
  (forall j a, (j <= i)%nat -> atts !! j = Some a -> 0 < attlen a) -> cache !! i = Some c -> c < 0 ->
  cache_ok (Some off) atts (init_offsets atts cache over off) /\
  exists c', init_offsets atts cache over off !! i = Some c' /\ 0 <= c'.
Proof.
  revert cache over off i. induction atts as [|a atts IH]; intros [|c0 cache] over off i Hoff Hc Hov Hfix Hi Hneg; try done.
  pose proof (att_align_bounds off (attalign a) ltac:(lia)) as Hb.
  pose proof (Hfix 0%nat a ltac:(lia) eq_refl) as Ha. cbn [init_offsets].
  assert (Hcases : c0 < 0 /\ cache_ok None atts cache \/
    over = true /\ c0 = att_align_nominal off (attalign a) /\ cache_ok (Some (c0 + attlen a)) atts cache).
  { cbn [cache_ok] in Hc. destruct Hc as [?|(o & [= <-] & He & _ & Hrest)]; [by left|].
    destruct over; [right; by destruct (Z.gtb_spec (attlen a) 0); [|lia]|].
    specialize (Hov eq_refl). cbn [cache_ok] in Hov. destruct Hov as [?|(? & ? & _)]; [by left|done]. }
  destruct Hcases as [[Hc0 Hrest]|(-> & He & Hrest)].
  - replace (over && (c0 >? 0)) with false by (destruct over; lia).
    destruct (Z.leb_spec (attlen a) 0); [lia|]. set (o := att_align_nominal off (attalign a)) in *.
    assert (Hright : forall cache', cache_ok (Some (o + attlen a)) atts cache' -> cache_ok (Some off) (a :: atts) (o :: cache')).
    { intros cache' H'. cbn [cache_ok]. right. exists off. split_and!; [done|done|lia|].
      by destruct (Z.gtb_spec (attlen a) 0); [|lia]. }
    destruct i as [|i].
    + split; [apply Hright, init_rest; [lia|done]|]. exists o. split; [done|lia].
    + destruct (IH cache false (o + attlen a) i) as [H1 H2]; [lia|by apply cache_ok_any|done| |done|done|].
      { intros j a' Hj. apply (Hfix (S j)). lia. }
      split; [by apply Hright|exact H2].
  - replace (true && (c0 >? 0)) with true by lia.
    destruct i as [|i]; [simpl in Hi; simplify_eq; lia|].
    destruct (IH cache true (c0 + attlen a) i) as [H1 H2]; [lia|done|done| |done|done|].
    { intros j a' Hj. apply (Hfix (S j)). lia. }
    split; [|exact H2]. cbn [cache_ok]. right. exists off. split_and!; [done|done|lia|].
    by destruct (Z.gtb_spec (attlen a) 0); [|lia].
Qed.

(** ** The walk *)

Lemma walk_ok bp hasnulls more atts values xs : packs_row E atts values xs ->
  forall pre t i k d usecache cache,
  nulls_known hasnulls bp i values -> values !! k = Some (Some d) ->
  (if usecache : bool then cache_ok (Some (zlen pre)) (atts ++ more) cache else (length atts <= length cache)%nat) ->
  exists cache',
    walk_loop (pre ++ lay (zlen pre) atts xs ++ t) bp hasnulls (atts ++ more) cache i (i + Z.of_nat k) (zlen pre) usecache
      = Ok (pos (zlen pre) atts xs k, cache') /\
    (if usecache then cache_ok (Some (zlen pre)) (atts ++ more) cache' else cache' = cache).
Proof.
  induction 1 as [|a v x atts values xs Hx Hrow IH]; intros pre t i k d usecache cache Hn Hk Hc; [done|].
  destruct cache as [|c cache]; [destruct usecache; [done|simpl in Hc; lia]|].
  pose proof (Hn 0%nat v eq_refl) as Hnull. rewrite Z.add_0_r in Hnull. apply nulls_known_tail in Hn.
  cbn [app walk_loop]. rewrite Hnull. bind.
  destruct v as [d'|], x as [[al w]|]; try done; cbn [null_col packs_col lay] in *.
  - set (o := place a al (zlen pre)) in *. set (L := lay (o + zlen w) atts xs).
    destruct (locate_att_ok E a d' al w pre (L ++ t) c (negb usecache) Hx) as (c' & slow' & Hloc & Hmono & Hkeep & Hset).
    { intros Hu. destruct usecache; [|done]. by apply (cache_step a al w d' E pre (atts ++ more) cache c) in Hc as [? _]. }
    fold o in Hloc. rewrite <- !app_assoc. rewrite Hloc. bind.
    assert (Hhead : forall rest', (slow' = true -> rest' = cache) ->
      (slow' = false -> cache_ok (if attlen a >? 0 then Some (att_align_nominal (zlen pre) (attalign a) + attlen a) else None)
         (atts ++ more) rest') ->
      usecache = true -> cache_ok (Some (zlen pre)) (a :: atts ++ more) (c' :: rest')).
    { intros rest' Hsl Hfa ->. destruct slow'.
      - by rewrite (Hkeep eq_refl), (Hsl eq_refl).
      - destruct (Hset eq_refl) as [Hce Hv]. cbn [cache_ok]. right. exists (zlen pre). split_and!; [done|done|done|].
        rewrite Hce. by apply Hfa. }
    assert (Hcs : usecache = true -> (0 < attlen a -> o + zlen w = att_align_nominal (zlen pre) (attalign a) + attlen a /\
        cache_ok (Some (o + zlen w)) (atts ++ more) cache) /\ (attlen a <= 0 -> cache_ok None (atts ++ more) cache)).
    { intros ->. by apply (cache_step a al w d' E pre (atts ++ more) cache c) in Hc as [_ ?]. }
    destruct k as [|k].
    + rewrite Z.add_0_r, Z.eqb_refl. cbn [pos]. fold o. eexists. split; [reflexivity|].
      destruct usecache; [|by rewrite (Hkeep (Hmono eq_refl))]. apply Hhead; [done| |done]. intros _.
      destruct (Hcs eq_refl) as [Hp Hq]. destruct (Z.gtb_spec (attlen a) 0) as [Hl|]; [|by apply Hq].
      destruct (Hp Hl) as [He Hok]. by rewrite <- He.
    + destruct (Z.eqb_spec i (i + Z.of_nat (S k))); [lia|].
      set (pre' := pre ++ zrep (o - zlen pre) 0 ++ w).
      pose proof (place_bounds a al _ (zlen_nonneg pre)) as Hb. fold o in Hb.
      assert (Ho : zlen pre' = o + zlen w) by (unfold pre'; zl).
      assert (Htp : pre ++ zrep (o - zlen pre) 0 ++ w ++ L ++ t = pre' ++ L ++ t) by (unfold pre'; by rewrite <- !app_assoc).
      replace (at_off _ o) with (w ++ L ++ t) by (rewrite (app_assoc pre); symmetry; apply at_off_app; zl).
      rewrite (addlength_ok E a d' al w) by done. bind. rewrite Htp. unfold L. cbn [pos]. fold o. rewrite <- Ho.
      replace (i + Z.of_nat (S k)) with (i + 1 + Z.of_nat k) by lia.
      assert (Hcond : if negb slow' && negb (attlen a <=? 0) then cache_ok (Some (zlen pre')) (atts ++ more) cache
                      else (length atts <= length cache)%nat).
      { destruct usecache.
        - pose proof (cache_ok_length _ _ _ Hc) as Hlen. simpl in Hlen. rewrite length_app in Hlen.
          destruct slow'; cbn [negb andb]; [lia|]. destruct (Z.leb_spec (attlen a) 0); cbn [negb]; [lia|].
          rewrite Ho. by apply Hcs.
        - rewrite (Hmono eq_refl). simpl in Hc. cbn [negb andb]. lia. }
      destruct (IH pre' t (i + 1) k d _ cache Hn Hk Hcond) as (cache' & -> & Hc'). bind.
      eexists. split; [reflexivity|]. cbn [snd].
      assert (Hslow : slow' = true -> cache' = cache) by (intros Hs; by rewrite Hs in Hc').
      destruct usecache; [|by rewrite (Hkeep (Hmono eq_refl)), (Hslow (Hmono eq_refl))].
      apply Hhead; [done| |done]. intros Hs. rewrite Hs in Hc'. cbn [negb andb] in Hc'. destruct (Hcs eq_refl) as [Hp Hq].
      destruct (Z.gtb_spec (attlen a) 0) as [Hl|Hl]; destruct (Z.leb_spec (attlen a) 0); cbn [negb] in Hc'; try lia.
      * destruct (Hp Hl) as [He _]. by rewrite <- He, <- Ho.
      * rewrite Hc'. by apply Hq.
  - destruct k as [|k]; [done|]. replace (i + Z.of_nat (S k)) with (i + 1 + Z.of_nat k) by lia.
    destruct (IH pre t (i + 1) k d false cache Hn Hk) as (cache' & -> & ->).
    { destruct usecache; [|simpl in Hc; lia]. apply cache_ok_length in Hc. simpl in Hc. rewrite length_app in Hc. lia. }
    bind. eexists. split; [reflexivity|]. by destruct usecache.
Qed.
End at_pos.

(** ** Nulls before a column *)

Lemma nulls_before_ok bits n nulls i :
  bits_upto bits n nulls -> 0 <= i < n ->
  exists b, nulls_before bits i = Ok b /\ (b = false -> forall j, 0 <= j < i -> nulls j = false).
Proof.
  intros (Hbytes & Hset & _) Hi. unfold nulls_before. rewrite Z.shiftr_div_pow2 by lia. change (2 ^ 3) with 8.
  rewrite (land_ones_mod i 3 0x07) by done. change (2 ^ 3) with 8.
  destruct (Hset i Hi) as (b & Hb & _). rewrite Hb. bind. apply rd_Ok in Hb as [Hr Hb].
  destruct (Z.eqb_spec (Z.land (Z.lnot b) (Z.shiftl 1 (i mod 8) - 1)) 0) as [H0|]; cbn [negb]; [|by exists true].
  rewrite rdn_Ok by lia. bind. eexists. split; [reflexivity|]. intros Hex j Hj.
  destruct (Hset j ltac:(lia)) as (b' & Hb' & Ht). apply rd_Ok in Hb' as [Hr' Hb'].
  destruct (Z.eq_dec (j / 8) (i / 8)) as [He|He].
  - rewrite He, Hb in Hb'. injection Hb' as <-. apply (f_equal (fun x => Z.testbit x (j mod 8))) in H0.
    rewrite Z.shiftl_1_l in H0. replace (2 ^ (i mod 8) - 1) with (Z.ones (i mod 8)) in H0 by (rewrite Z.ones_equiv; lia).
    rewrite Z.land_spec, Z.lnot_spec, Z.ones_spec_low, Z.testbit_0_l, andb_true_r, Ht in H0 by lia. by destruct (nulls j).
  - assert (Hff : b' = 0xFF).
    { destruct (Z.eqb_spec b' 0xFF) as [|Hne]; [done|]. exfalso.
      assert (Hin : existsb (fun b => negb (b =? 255)) (zslice bits 0 (i / 8)) = true); [|congruence].
      apply existsb_exists. exists b'. split; [|destruct (Z.eqb_spec b' 255); done].
      apply list_elem_of_In. apply (list_elem_of_lookup_2 _ (Z.to_nat (j / 8))). unfold zslice. rewrite drop_0.
      rewrite lookup_take_lt by lia. done. }
    subst b'. change 255 with (Z.ones 8) in Ht. rewrite Z.ones_spec_low in Ht by lia. by destruct (nulls j).
Qed.

(** ** heap_getattr *)

Lemma missing_loop_lookup desc n k rest j :
  missing_loop desc n k = Ok rest -> (j < k)%nat ->
  exists v, rest !! j = Some v /\ getmissingattr desc (n + Z.of_nat j + 1) = Ok v.
Proof.
  revert n rest j. induction k as [|k IH]; intros n rest j Hm Hj; [lia|]. cbn [missing_loop] in Hm.
  destruct (getmissingattr desc (n + 1)) as [v|e| |] eqn:Hg; try done. cbn [mbind res_bind] in Hm.
  destruct (missing_loop desc (n + 1) k) as [rest'|e| |] eqn:Hl; try done. injection Hm as <-.
  destruct j as [|j]; [exists v; by rewrite Z.add_0_r|].
  destruct (IH (n + 1) rest' j Hl ltac:(lia)) as (v' & Hv & Hg'). exists v'. split; [done|].
  rewrite <- Hg'. f_equal. lia.
Qed.

Lemma packs_len E att d al w : packs E att d al w -> 0 < attlen att \/ attlen att < 0.
Proof. intros [z Hb Hl _|p t Hb Hl Hp|s t Hb Hl Ha Hs|p al' w' Hb Hl Hp]; unfold byval_len in *; lia. Qed.

Lemma packs_row_lookup E atts values xs : packs_row E atts values xs -> forall j a v,
  atts !! j = Some a -> values !! j = Some v -> exists x, xs !! j = Some x /\ packs_col E a v x.
Proof.
  induction 1 as [|a' v' x' atts values xs Hx _ IH]; intros [|j] a v Ha Hv; try done.
  - injection Ha as <-. injection Hv as <-. by exists x'.
  - by apply IH.
Qed.

Section formed_attr.
Context (E : env) (desc0 desc : tupledesc) (more : list attribute) (values : list (option Datum)) (xs : list piece).
Context (tup : HeapTuple).
Context (Hext : extends desc0 desc more) (Hdesc : desc_ok desc).
Context (Hrow : packs_row E (td_atts desc0) values xs) (Hf : formed desc0 values xs tup).
Local Abbreviation vals := (view 0 (td_atts desc0) values xs []).

Section column.
Context (i : nat) (d : Datum) (Hi : values !! i = Some (Some d)).

Lemma column_att : exists att, td_atts desc0 !! i = Some att /\ td_atts desc !! i = Some att /\
  TupleDescAttr desc (Z.of_nat i) = Ok att /\ exists c, td_cache desc !! i = Some c.
Proof.
  pose proof (lookup_lt_Some _ _ _ Hi) as Hl. destruct (packs_row_length _ _ _ _ Hrow) as [Hlen _].
  destruct (lookup_lt_is_Some_2 (td_atts desc0) i) as [att Ha]; [lia|]. exists att.
  assert (Ha' : td_atts desc !! i = Some att) by (rewrite Hext; by apply lookup_app_l_Some).
  split_and!; [done|done| |].
  - unfold TupleDescAttr. replace (0 <=? Z.of_nat i) with true by lia. by rewrite Nat2Z.id, Ha'.
  - apply lookup_lt_is_Some_2. rewrite (cache_ok_length _ _ _ Hdesc). by apply lookup_lt_Some in Ha'.
Qed.

(** Fetching at the column's offset gives what deforming gives. *)
Lemma column_fetch att : td_atts desc0 !! i = Some att ->
  exists v, fetchatt att (at_off (t_body (t_data tup)) (pos 0 (td_atts desc0) xs i)) = Ok v /\ vals !! i = Some (Some v).
Proof.
  intros Ha. destruct (fetch_at_pos E _ _ _ Hrow [] [] i att d Ha Hi) as (v & Hv & Hw). exists v. split; [|exact Hw].
  rewrite (formed_body _ _ _ _ Hf). cbn [app] in Hv. rewrite app_nil_r in Hv. exact Hv.
Qed.

Lemma column_cached c : td_cache desc !! i = Some c -> 0 <= c -> full_before values i -> c = pos 0 (td_atts desc0) xs i.
Proof.
  intros Hc Hpos Hfull. apply (cache_pos E _ _ _ Hrow more [] (td_cache desc) i c d); [|done..].
  unfold desc_ok in Hdesc. by rewrite Hext in Hdesc.
Qed.

(** Without variable width up to the column the leading attributes are of fixed width. *)
Lemma column_fixed :
  full_before values i ->
  HeapTupleHasVarWidth tup && existsb (fun a => attlen a <=? 0) (take (S i) (td_atts desc)) = false ->
  forall j a, (j <= i)%nat -> td_atts desc !! j = Some a -> 0 < attlen a.
Proof.
  intros Hfull Hvw j a Hj Ha. destruct (decide (0 < attlen a)) as [|Hle]; [done|]. exfalso.
  pose proof (lookup_lt_Some _ _ _ Hi) as Hl. destruct (packs_row_length _ _ _ _ Hrow) as [Hlen Hlenx].
  assert (Ha0 : td_atts desc0 !! j = Some a) by (rewrite Hext, lookup_app_l in Ha by lia; done).
  destruct (lookup_lt_is_Some_2 values j) as [v Hv]; [lia|].
  assert (Hnn : null_col v = false).
  { destruct (decide (j = i)) as [->|]; [by simplify_eq|]. apply (Hfull j v); [lia|done]. }
  pose proof (packs_row_lookup E _ _ _ Hrow j a v Ha0 Hv) as Hp.
  destruct Hp as (x & Hx & Hp). destruct v as [d'|], x as [[al w]|]; try done. cbn [packs_col] in Hp.
  apply andb_false_iff in Hvw as [Hvw|Hvw].
  - destruct (formed_flags E desc0 values xs tup Hrow Hf) as (_ & Hw & _). rewrite Hw in Hvw.
    assert (Ht : existsb (fun '(a, x) => varwidth_col a x) (zip (td_atts desc0) xs) = true); [|congruence].
    apply existsb_exists. exists (a, Some (al, w)). split; [|cbn; destruct (packs_len _ _ _ _ _ Hp); lia].
    apply list_elem_of_In, (list_elem_of_lookup_2 _ j). rewrite lookup_zip_with, Ha0, Hx. done.
  - assert (Ht : existsb (fun a => attlen a <=? 0) (take (S i) (td_atts desc)) = true); [|congruence].
    apply existsb_exists. exists a. split; [|lia].
    apply list_elem_of_In, (list_elem_of_lookup_2 _ j). rewrite lookup_take_lt by lia. done.
Qed.

(** What finding the column means: its value, and a descriptor that is still valid. *)
Definition found (r : res (Datum * tupledesc)) : Prop :=
  exists v desc', r = Ok (v, desc') /\ vals !! i = Some (Some v) /\ same_desc desc desc' /\ desc_ok desc'.

Lemma found_here att c :
  td_atts desc0 !! i = Some att -> td_cache desc !! i = Some c -> 0 <= c -> full_before values i ->
  found (v ← fetchatt att (at_off (t_body (t_data tup)) c); Ok (v, desc)).
Proof.
  intros Ha Hc Hpos Hfull. rewrite (column_cached c Hc Hpos Hfull).
  destruct (column_fetch att Ha) as (v & -> & Hv). bind. exists v, desc. split_and!; try done. by exists (td_cache desc); destruct desc.
Qed.

(** The offsets of the leading fixed-width attributes. *)
Lemma found_init att c :
  td_atts desc0 !! i = Some att -> td_cache desc !! i = Some c -> c < 0 -> full_before values i ->
  (forall j a, (j <= i)%nat -> td_atts desc !! j = Some a -> 0 < attlen a) ->
  found (match td_atts desc, td_cache desc with
         | att0 :: atts, _ :: cache =>
             let cache := 0 :: init_offsets atts cache true (0 + attlen att0) in
             off ← (match cache !! i with Some c => Ok c | None => Ub end);
             v ← fetchatt att (at_off (t_body (t_data tup)) off);
             Ok (v, set_cache desc cache)
         | _, _ => Ub
         end).
Proof.
  intros Ha Hc Hneg Hfull Hfix. pose proof Hdesc as Hd. unfold desc_ok in Hd.
  destruct (td_atts desc) as [|a0 atts] eqn:Hatts; [by destruct (td_cache desc)|].
  destruct (td_cache desc) as [|c0 cache] eqn:Hcache; [done|].
  pose proof (Hfix 0%nat a0 ltac:(lia) eq_refl) as Ha0.
  assert (Hal : att_align_nominal 0 (attalign a0) = 0).
  { unfold att_align_nominal. ztests; done. }
  assert (Hrest : cache_ok (Some (0 + attlen a0)) atts cache).
  { cbn [cache_ok] in Hd. destruct Hd as [[_ Hn]|(off & [= <-] & -> & _ & Hn)]; [by apply cache_ok_any|].
    rewrite Hal in Hn. by destruct (Z.gtb_spec (attlen a0) 0); [|lia]. }
  set (cache1 := init_offsets atts cache true (0 + attlen a0)).
  assert (Hnew : cache_ok (Some 0) (a0 :: atts) (0 :: cache1) /\ exists c', (0 :: cache1) !! i = Some c' /\ 0 <= c').
  { assert (Hright : cache_ok (Some (0 + attlen a0)) atts cache1 -> cache_ok (Some 0) (a0 :: atts) (0 :: cache1)).
    { intros H1. cbn [cache_ok]. right. exists 0. rewrite Hal. split_and!; [done|done|done|].
      by destruct (Z.gtb_spec (attlen a0) 0); [|lia]. }
    destruct i as [|k].
    - assert (Hneg0 : c0 < 0) by (injection Hc as ->; exact Hneg).
      cbn [cache_ok] in Hd. destruct Hd as [[_ Hn]|(off & [= <-] & -> & _)]; [|rewrite Hal in Hneg0; lia].
      split; [|by exists 0]. apply Hright. unfold cache1.
      replace (init_offsets atts cache true (0 + attlen a0)) with (init_offsets atts cache false (0 + attlen a0));
        [apply init_rest; [lia|done]|].
      destruct atts as [|a1 atts1], cache as [|c1 cache1']; try done. cbn [cache_ok] in Hn.
      destruct Hn as [[Hc1 _]|(? & ? & _)]; [|done]. cbn [init_offsets andb]. by replace (c1 >? 0) with false by lia.
    - destruct (init_ok atts cache true (0 + attlen a0) k c) as [H1 H2]; [lia|done|done| |done|done|].
      { intros j a Hj. apply (Hfix (S j)). lia. }
      split; [by apply Hright|exact H2]. }
  destruct Hnew as (Hok & c' & Hc' & Hpos). cbv zeta. rewrite Hc'. bind.
  assert (Hp : c' = pos 0 (td_atts desc0) xs i).
  { apply (cache_pos E _ _ _ Hrow more [] (0 :: cache1) i c' d); try done. by rewrite Hext in Hatts; rewrite Hatts. }
  rewrite Hp. destruct (column_fetch att Ha) as (v & -> & Hv). bind. eexists v, _. split_and!; [reflexivity|done|by eexists|].
  unfold desc_ok. cbn [set_cache td_atts td_cache]. by rewrite Hatts.
Qed.

Lemma found_walk att :
  td_atts desc0 !! i = Some att ->
  found (x ← walk_loop (t_body (t_data tup)) (t_bits (t_data tup)) (HeapTupleHasNulls tup) (td_atts desc) (td_cache desc)
               0 (Z.of_nat i) 0 true;
         v ← fetchatt att (at_off (t_body (t_data tup)) (fst x));
         Ok (v, set_cache desc (snd x))).
Proof.
  intros Ha. pose proof Hdesc as Hd. unfold desc_ok in Hd. rewrite Hext in Hd.
  destruct (walk_ok E (t_bits (t_data tup)) (HeapTupleHasNulls tup) more _ _ _ Hrow [] [] 0 i d true (td_cache desc)
    (formed_nulls E desc0 values xs tup Hrow Hf) Hi Hd) as (cache' & Heq & Hc').
  cbn [app] in Heq. rewrite app_nil_r in Heq. change (zlen (@nil Z)) with 0 in *. rewrite Z.add_0_l in Heq.
  rewrite Hext. destruct (column_fetch att Ha) as (v & Hfetch & Hv).
  rewrite (formed_body _ _ _ _ Hf) in *. rewrite Heq. bind. cbn [fst snd]. rewrite Hfetch. bind.
  eexists v, _. split_and!; [reflexivity|done|by eexists|]. unfold desc_ok. cbn [set_cache td_atts td_cache]. by rewrite Hext.
Qed.

Lemma nocachegetattr_found : found (nocachegetattr tup (Z.of_nat i + 1) desc).
Proof.
  destruct column_att as (att & Ha0 & Ha & Hda & c & Hc). unfold nocachegetattr.
  replace (Z.of_nat i + 1 - 1) with (Z.of_nat i) by lia.
  pose proof (lookup_lt_Some _ _ _ Hi) as Hl. destruct (packs_row_length _ _ _ _ Hrow) as [Hlen _].
  assert (Hslow : exists slow, (if HeapTupleHasNulls tup then nulls_before (t_bits (t_data tup)) (Z.of_nat i) else Ok false)
      = Ok slow /\ (slow = false -> full_before values i)).
  { destruct (formed_flags E desc0 values xs tup Hrow Hf) as (-> & _ & _). destruct (has_nulls desc0 values) eqn:Hn.
    - destruct (nulls_before_ok _ (natts desc0) (null_at values) (Z.of_nat i) (formed_bits _ _ _ _ Hf Hn)) as (b & Hb & Hall);
        [unfold natts, zlen; lia|].
      exists b. split; [done|]. intros Hb' j v Hj Hv. specialize (Hall Hb' (Z.of_nat j) ltac:(lia)).
      unfold null_at in Hall. by rewrite Nat2Z.id, Hv in Hall.
    - exists false. split; [done|]. intros _ j v Hj Hv. rewrite (has_nulls_row E desc0 values xs Hrow) in Hn.
      pose proof (not_null_at values (Z.of_nat j) Hn) as H'. unfold null_at in H'. by rewrite Nat2Z.id, Hv in H'. }
  destruct Hslow as (slow & -> & Hfull). bind. rewrite Hda. bind. rewrite Nat2Z.id, Hc. bind.
  destruct slow; cbn [negb andb orb].
  { by apply found_walk. }
  specialize (Hfull eq_refl). destruct (Z.geb_spec c 0); [by apply found_here|].
  replace (Z.to_nat (Z.of_nat i + 1)) with (S i) by lia.
  destruct (HeapTupleHasVarWidth tup && existsb (fun a => attlen a <=? 0) (take (S i) (td_atts desc))) eqn:Hvw; cbn [negb].
  - by apply found_walk.
  - apply (found_init att c); try done. by apply column_fixed.
Qed.
End column.
End formed_attr.

Lemma view_length E atts values xs : packs_row E atts values xs -> forall off t,
  length (view off atts values xs t) = length atts.
Proof.
  induction 1 as [|a v x atts values xs Hx _ IH]; intros off t; [done|].
  destruct v as [d|], x as [[al w]|]; try done; cbn [view length]; by rewrite IH.
Qed.

Section getattr.
Context (E : env) (desc0 desc : tupledesc) (more : list attribute) (values : list (option Datum)) (xs : list piece).
Context (tup : HeapTuple).
Context (Hext : extends desc0 desc more) (Hdesc : desc_ok desc).
Context (Hrow : packs_row E (td_atts desc0) values xs) (Hf : formed desc0 values xs tup).

Lemma fastgetattr_ok i v :
  values !! i = Some v ->
  exists w desc', fastgetattr tup (Z.of_nat i + 1) desc = Ok (w, desc') /\
    view 0 (td_atts desc0) values xs [] !! i = Some w /\ null_col w = null_col v /\ same_desc desc desc' /\ desc_ok desc'.
Proof.
  intros Hv. pose proof (formed_nulls E desc0 values xs tup Hrow Hf i v Hv) as Hn. rewrite Z.add_0_l in Hn.
  unfold fastgetattr. replace (Z.of_nat i + 1 - 1) with (Z.of_nat i) by lia.
  assert (Hsame : same_desc desc desc) by (exists (td_cache desc); by destruct desc).
  destruct v as [d|]; cbn [null_col] in *.
  - destruct (nocachegetattr_found E desc0 desc more values xs tup Hext Hdesc Hrow Hf i d Hv) as (w & desc' & Hnc & Hw & Hs & Hd').
    destruct (HeapTupleHasNulls tup) eqn:Hnull; cbn [negb].
    + rewrite Hn. bind. rewrite Hnc. bind. by exists (Some w), desc'.
    + destruct (column_att E desc0 desc more values xs Hext Hdesc Hrow i d Hv) as (att & Ha0 & Ha & Hda & c & Hc).
      rewrite Hda. bind. rewrite Nat2Z.id, Hc. bind. destruct (Z.geb_spec c 0) as [Hpos|]; [|rewrite Hnc; by exists (Some w), desc'].
      assert (Hfull : full_before values i).
      { intros j v' Hj Hv'. pose proof (formed_nulls E desc0 values xs tup Hrow Hf j v' Hv') as H'.
        rewrite Hnull in H'. by injection H' as <-. }
      destruct (found_here E desc0 desc more values xs tup Hext Hdesc Hrow Hf i d Hv att c Ha0 Hc Hpos Hfull)
        as (w' & desc'' & Heq & Hw' & Hs' & Hd'').
      destruct (fetchatt att _) as [u|e| |]; try done. cbn [mbind res_bind] in *. injection Heq as <- <-.
      by exists (Some u), desc.
  - destruct (HeapTupleHasNulls tup) eqn:Hnull; [|done]. cbn [negb]. rewrite Hn. bind.
    exists None, desc. split_and!; try done. by apply (view_null E _ _ _ Hrow).
Qed.

Lemma heap_getattr_ok rest attnum :
  missing_loop desc (natts desc0) (length more) = Ok rest -> 1 <= attnum <= natts desc ->
  exists w desc', heap_getattr tup attnum desc = Ok (w, desc') /\
    (view 0 (td_atts desc0) values xs [] ++ rest) !! Z.to_nat (attnum - 1) = Some w /\ same_desc desc desc' /\ desc_ok desc' /\
    (attnum <= natts desc0 -> heap_attisnull tup attnum desc = Ok (null_col w)).
Proof.
  intros Hm Hat. unfold heap_getattr, heap_attisnull. rewrite (formed_natts _ _ _ _ Hf).
  assert ((attnum >? 0) = true) as -> by lia.
  destruct (packs_row_length _ _ _ _ Hrow) as [Hlen _].
  pose proof (view_length E _ _ _ Hrow 0 []) as Hvl.
  assert (Hnd : natts desc = natts desc0 + zlen more) by (unfold natts; rewrite Hext; zl).
  destruct (Z.gtb_spec attnum (natts desc0)) as [Hgt|Hle].
  - destruct (missing_loop_lookup desc (natts desc0) (length more) rest (Z.to_nat (attnum - 1 - natts desc0)) Hm)
      as (v & Hv & Hg); [unfold natts, zlen in *; lia|].
    assert (0 <= natts desc0) by apply zlen_nonneg.
    replace (natts desc0 + Z.of_nat (Z.to_nat (attnum - 1 - natts desc0)) + 1) with attnum in Hg by lia.
    rewrite Hg. bind. exists v, desc. split; [done|]. split.
    + rewrite lookup_app_r; [|rewrite Hvl; unfold natts, zlen in *; lia]. rewrite Hvl, <- Hv. f_equal.
      unfold natts, zlen in *. lia.
    + split; [exists (td_cache desc); by destruct desc|]. split; [done|lia].
  - destruct (lookup_lt_is_Some_2 values (Z.to_nat (attnum - 1))) as [v Hv]; [unfold natts, zlen in *; lia|].
    destruct (fastgetattr_ok _ v Hv) as (w & desc' & Hfa & Hw & Hnull & Hs & Hd').
    replace (Z.of_nat (Z.to_nat (attnum - 1)) + 1) with attnum in Hfa by lia. rewrite Hfa.
    exists w, desc'. split; [done|]. split; [by apply lookup_app_l_Some|]. split; [done|]. split; [done|]. intros _.
    destruct (Z.gtb_spec attnum 0); [|lia]. pose proof (formed_nulls E desc0 values xs tup Hrow Hf _ v Hv) as Hn.
    replace (0 + Z.of_nat (Z.to_nat (attnum - 1))) with (attnum - 1) in Hn by lia. rewrite Hnull.
    destruct (HeapTupleHasNulls tup); cbn [negb]; [done|by rewrite Hn].
Qed.
End getattr.

(** ** Properties *)

(** C26: heap_getattr and heap_deform_tuple agree: for a tuple formed with a descriptor,
    read with that descriptor or with one that has columns added since, heap_getattr of
    any column returns what heap_deform_tuple puts into that column, by whichever way
    the offset is found (a cached offset, the leading fixed-width columns, or the walk
    over the tuple), whatever offsets earlier calls have cached; heap_attisnull says
    whether it is null; and the offsets both leave behind are valid. *)
Theorem heap_getattr_deform E desc0 desc more tup cs rest attnum :
  extends desc0 desc more -> desc_ok desc -> tuple_holds E desc0 tup cs ->
  missing_loop desc (natts desc0) (length more) = Ok rest -> 1 <= attnum <= natts desc ->
  exists vals desc1 v desc2,
    heap_deform_tuple tup desc = Ok (vals, desc1) /\ heap_getattr tup attnum desc = Ok (v, desc2) /\
    vals !! Z.to_nat (attnum - 1) = Some v /\ desc_ok desc1 /\ desc_ok desc2 /\
    (attnum <= natts desc0 -> heap_attisnull tup attnum desc = Ok (null_col v)).
Proof.
  intros Hext Hd (values & xs & Hp & Hf & Hv) Hm Hat.
  destruct (deform_formed E desc0 desc more values xs tup Hext Hd Hp Hf rest Hm) as (desc1 & Hdef & _ & Hd1).
  destruct (heap_getattr_ok E desc0 desc more values xs tup Hext Hd Hp Hf rest attnum Hm Hat)
    as (v & desc2 & Hget & Hlook & _ & Hd2 & Hnull).
  eexists _, desc1, v, desc2. split_and!; eauto.
Qed.

(** *** Witnesses *)

Definition added_desc : tupledesc :=
  mkDesc (td_atts sample_desc ++ [mkAtt 4 true TYPALIGN_INT TYPSTORAGE_PLAIN 0 false true]) [-1; -1; -1; -1; -1]
    (Some [None; None; None; None; Some (DVal 7)]) 2249 (-1).

Lemma heap_getattr_deform_witness :
  (exists v desc2, heap_getattr sample_tuple 2 added_desc = Ok (v, desc2) /\ null_col v = false) /\
  (exists v desc2, heap_getattr sample_tuple 5 added_desc = Ok (v, desc2) /\ v = Some (DVal 7)).
Proof.
  assert (Hd : desc_ok added_desc) by (unfold desc_ok; cbn; repeat (left; split; [lia|]); exact I).
  assert (Hm : missing_loop added_desc (natts sample_desc) 1 = Ok [Some (DVal 7)]) by (vm_compute; reflexivity).
  split.
  - destruct (heap_getattr_deform sample_env sample_desc added_desc [mkAtt 4 true TYPALIGN_INT TYPSTORAGE_PLAIN 0 false true]
      sample_tuple sample_contents _ 2 eq_refl Hd sample_tuple_holds Hm ltac:(vm_compute; split; discriminate))
      as (vals & desc1 & v & desc2 & _ & Hg & _ & _ & _ & Hn).
    exists v, desc2. split; [exact Hg|]. specialize (Hn ltac:(vm_compute; discriminate)). assert (He : Ok (null_col v) = Ok false) by (rewrite <- Hn; vm_compute; reflexivity).
    injection He as He. exact He.
  - destruct (heap_getattr_deform sample_env sample_desc added_desc [mkAtt 4 true TYPALIGN_INT TYPSTORAGE_PLAIN 0 false true]
      sample_tuple sample_contents _ 5 eq_refl Hd sample_tuple_holds Hm ltac:(vm_compute; split; discriminate))
      as (vals & desc1 & v & desc2 & Hdef & Hg & Hl & _).
    exists v, desc2. split; [exact Hg|]. vm_compute in Hdef. injection Hdef as <- _. vm_compute in Hl. injection Hl as <-. reflexivity.
Defined.
