(* ===== verification/HeapToast.v ===== *)
(** Toasting a tuple: src/backend/access/table/toast_helper.c and
    heap_toast_insert_or_update, heap_toast_delete and the flattening functions of
    src/backend/access/heap/heaptoast.c.

    The toaster compresses the attributes of a tuple or moves them out of line until
    the tuple fits.  Its context is explicit state: the values, what is known of every
    column, and the flags; the database is the store of ToastStore.  Freed memory is not
    reused by this code, so pfree is not modelled. *)

From S2P Require Import Prelude Rle Varatt Pglz PglzHist PglzItems PglzCodec ToastCompression Oids ToastStore Detoast.
From S2P Require Import HeapTuple.

Definition TOAST_NEEDS_DELETE_OLD : Z := 0x0001.
Definition TOAST_NEEDS_FREE : Z := 0x0002.
Definition TOAST_HAS_NULLS : Z := 0x0004.
Definition TOAST_NEEDS_CHANGE : Z := 0x0008.
Definition TOASTCOL_NEEDS_DELETE_OLD : Z := TOAST_NEEDS_DELETE_OLD.
Definition TOASTCOL_NEEDS_FREE : Z := TOAST_NEEDS_FREE.
Definition TOASTCOL_IGNORE : Z := 0x0010.
Definition TOASTCOL_INCOMPRESSIBLE : Z := 0x0020.

(** (flags & f) != 0 *)
Definition flag (flags f : Z) : bool := negb (Z.land flags f =? 0).

Record ToastAttrInfo := mkInfo {
  tai_oldexternal : option (list Z);
  tai_size : Z;
  tai_colflags : Z;
  tai_compression : Z
}.
Definition add_colflags (a : ToastAttrInfo) (f : Z) : ToastAttrInfo :=
  mkInfo (tai_oldexternal a) (tai_size a) (Z.lor (tai_colflags a) f) (tai_compression a).

(** A relation: its toast table, its columns, and toast_tuple_target of rd_options. *)
Record heaprel := mkHeaprel {
  hr_rel : relation;
  rd_att : tupledesc;
  toast_tuple_target : option Z
}.

(** ttc_rel and the old values do not change and are arguments. *)
Record ToastTupleContext := mkTtc {
  ttc_values : list (option Datum);
  ttc_flags : Z;
  ttc_attr : list ToastAttrInfo
}.

Section toaster.
Context (E : env).

(** ** toast_helper.c *)

(** One column of toast_tuple_init: [old] is None for INSERT.  The result is the value,
    what is known of the column, and the flags to add. *)
Definition old_changed (op : list Z) (new : option Datum) : res bool :=
  match new with
  | None => Ok true
  | Some d =>
      np ← DatumGetPointer d;
      ondisk ← VARATT_IS_EXTERNAL_ONDISK np;
      if negb ondisk then Ok true else
      n ← VARSIZE_EXTERNAL op;
      a ← rdn op 0 n;
      b ← rdn np 0 n;
      Ok (negb (bool_decide (a = b)))
  end.
(** None: the column does not change; otherwise the flag for deleting the old value. *)
Definition init_old (att : attribute) (old : option (option Datum)) (new : option Datum) : res (option Z) :=
  match old with
  | Some (Some d) =>
      if negb (attlen att =? -1) then Ok (Some 0) else
      op ← DatumGetPointer d;
      ondisk ← VARATT_IS_EXTERNAL_ONDISK op;
      if negb ondisk then Ok (Some 0) else
      changed ← old_changed op new;
      Ok (if (changed : bool) then Some TOAST_NEEDS_DELETE_OLD else None)
  | _ => Ok (Some 0)
  end.

Definition init_col (att : attribute) (old : option (option Datum)) (new : option Datum)
    : res (option Datum * ToastAttrInfo * Z) :=
  let info colflags size oldexternal := mkInfo oldexternal size colflags (attcompression att) in
  x ← init_old att old new;
  match x with
  | None => Ok (new, info TOASTCOL_IGNORE 0 None, 0)
  | Some del =>
      match new with
      | None => Ok (None, info (Z.lor del TOASTCOL_IGNORE) 0 None, Z.lor del TOAST_HAS_NULLS)
      | Some d =>
          if attlen att =? -1 then
            let plain := attstorage att =? TYPSTORAGE_PLAIN in
            let colflags := if plain then Z.lor del TOASTCOL_IGNORE else del in
            new_value ← DatumGetPointer d;
            external ← VARATT_IS_EXTERNAL new_value;
            if (external : bool) then
              new_value' ← (if plain then detoast_attr E new_value else detoast_external_attr E new_value);
              size ← VARSIZE_ANY new_value';
              Ok (Some (DPtr new_value'), info (Z.lor colflags TOASTCOL_NEEDS_FREE) size (Some new_value),
                  Z.lor del (Z.lor TOAST_NEEDS_CHANGE TOAST_NEEDS_FREE))
            else
              size ← VARSIZE_ANY new_value;
              Ok (Some d, info colflags size None, del)
          else Ok (Some d, info (Z.lor del TOASTCOL_IGNORE) 0 None, del)
      end
  end.

Fixpoint init_loop (atts : list attribute) (olds : option (list (option Datum))) (values : list (option Datum))
    : res (list (option Datum) * list ToastAttrInfo * Z) :=
  match atts, values with
  | [], _ => Ok ([], [], 0)
  | att :: atts, new :: values =>
      old ← (match olds with
             | None => Ok None
             | Some (o :: _) => Ok (Some o)
             | Some [] => Ub
             end);
      x ← init_col att old new;
      let '(v, a, f) := x in
      y ← init_loop atts (match olds with Some (_ :: os) => Some os | _ => None end) values;
      let '(vs, infos, fs) := y in
      Ok (v :: vs, a :: infos, Z.lor f fs)
  | _ :: _, [] => Ub
  end.
Definition toast_tuple_init (desc : tupledesc) (values : list (option Datum)) (olds : option (list (option Datum)))
    : res ToastTupleContext :=
  x ← init_loop (td_atts desc) olds values;
  let '(vs, infos, flags) := x in Ok (mkTtc vs flags infos).

(** The tests of toast_tuple_find_biggest_attribute on one column. *)
Definition candidate (for_compression check_main : bool) (att : attribute) (v : option Datum) (a : ToastAttrInfo)
    : res bool :=
  let skip_colflags := if for_compression then Z.lor TOASTCOL_IGNORE TOASTCOL_INCOMPRESSIBLE else TOASTCOL_IGNORE in
  if flag (tai_colflags a) skip_colflags then Ok false else
  p ← (match v with Some d => DatumGetPointer d | None => Ub end);
  external ← VARATT_IS_EXTERNAL p;
  if (external : bool) then Ok false else
  compressed ← (if for_compression then VARATT_IS_COMPRESSED p else Ok false);
  if (compressed : bool) then Ok false else
  if check_main && negb (attstorage att =? TYPSTORAGE_MAIN) then Ok false else
  if negb check_main && negb (attstorage att =? TYPSTORAGE_EXTENDED) && negb (attstorage att =? TYPSTORAGE_EXTERNAL)
  then Ok false else Ok true.

Fixpoint find_biggest (for_compression check_main : bool) (atts : list attribute) (values : list (option Datum))
    (infos : list ToastAttrInfo) (i biggest_attno biggest_size : Z) : res Z :=
  match atts, values, infos with
  | [], _, _ => Ok biggest_attno
  | att :: atts, v :: values, a :: infos =>
      c ← candidate for_compression check_main att v a;
      if c && (tai_size a >? biggest_size)
      then find_biggest for_compression check_main atts values infos (i + 1) i (tai_size a)
      else find_biggest for_compression check_main atts values infos (i + 1) biggest_attno biggest_size
  | _, _, _ => Ub
  end.
Definition toast_tuple_find_biggest_attribute (desc : tupledesc) (ttc : ToastTupleContext)
    (for_compression check_main : bool) : res Z :=
  find_biggest for_compression check_main (td_atts desc) (ttc_values ttc) (ttc_attr ttc) 0 (-1)
    (MAXALIGN TOAST_POINTER_SIZE).

(** ttc_values[i] and ttc_attr[i] of a column that is not null *)
Definition get_col (ttc : ToastTupleContext) (i : Z) : res (list Z * ToastAttrInfo) :=
  match ttc_values ttc !! Z.to_nat i, ttc_attr ttc !! Z.to_nat i with
  | Some (Some d), Some a => p ← DatumGetPointer d; Ok (p, a)
  | _, _ => Ub
  end.
Definition set_col (ttc : ToastTupleContext) (i : Z) (p : list Z) (a : ToastAttrInfo) (flags : Z) : ToastTupleContext :=
  mkTtc (<[Z.to_nat i := Some (DPtr p)]> (ttc_values ttc)) (Z.lor (ttc_flags ttc) flags)
    (<[Z.to_nat i := a]> (ttc_attr ttc)).
Definition set_info (ttc : ToastTupleContext) (i : Z) (a : ToastAttrInfo) : ToastTupleContext :=
  mkTtc (ttc_values ttc) (ttc_flags ttc) (<[Z.to_nat i := a]> (ttc_attr ttc)).

Definition toast_tuple_try_compression (ttc : ToastTupleContext) (attribute : Z) : res ToastTupleContext :=
  x ← get_col ttc attribute;
  let '(value, attr) := x in
  new_value ← toast_compress_datum (e_cfg E) value (tai_compression attr);
  match new_value with
  | Some value =>
      size ← VARSIZE value;
      let attr := mkInfo (tai_oldexternal attr) size (Z.lor (tai_colflags attr) TOASTCOL_NEEDS_FREE) (tai_compression attr) in
      Ok (set_col ttc attribute value attr (Z.lor TOAST_NEEDS_CHANGE TOAST_NEEDS_FREE))
  | None => Ok (set_info ttc attribute (add_colflags attr TOASTCOL_INCOMPRESSIBLE))
  end.

Definition toast_tuple_externalize (rel : heaprel) (st : store) (ttc : ToastTupleContext) (attribute : Z)
    : res (ToastTupleContext * store) :=
  x ← get_col ttc attribute;
  let '(old_value, attr) := x in
  let attr := add_colflags attr TOASTCOL_IGNORE in
  y ← toast_save_datum st (hr_rel rel) old_value (tai_oldexternal attr);
  let '(value, st) := y in
  Ok (set_col ttc attribute value (add_colflags attr TOASTCOL_NEEDS_FREE) (Z.lor TOAST_NEEDS_CHANGE TOAST_NEEDS_FREE), st).

(** The deletions of toast_tuple_cleanup. *)
Fixpoint cleanup_loop (st : store) (infos : list ToastAttrInfo) (olds : list (option Datum)) : res store :=
  match infos, olds with
  | [], _ => Ok st
  | a :: infos, o :: olds =>
      st ← (if flag (tai_colflags a) TOASTCOL_NEEDS_DELETE_OLD then
              p ← (match o with Some d => DatumGetPointer d | None => Ub end);
              toast_delete_datum st p false
            else Ok st);
      cleanup_loop st infos olds
  | _ :: _, [] => Ub
  end.
Definition toast_tuple_cleanup (st : store) (ttc : ToastTupleContext) (olds : option (list (option Datum))) : res store :=
  if flag (ttc_flags ttc) TOAST_NEEDS_DELETE_OLD then
    match olds with Some olds => cleanup_loop st (ttc_attr ttc) olds | None => Ub end
  else Ok st.

Fixpoint toast_delete_external (atts : list attribute) (values : list (option Datum)) (st : store)
    (is_speculative : bool) : res store :=
  match atts, values with
  | [], _ => Ok st
  | att :: atts, v :: values =>
      st ← (match v with
            | Some d =>
                if attlen att =? -1 then
                  p ← DatumGetPointer d;
                  ondisk ← VARATT_IS_EXTERNAL_ONDISK p;
                  if (ondisk : bool) then toast_delete_datum st p is_speculative else Ok st
                else Ok st
            | None => Ok st
            end);
      toast_delete_external atts values st is_speculative
  | _ :: _, [] => Ub
  end.

(** ** heaptoast.c *)

Definition heap_toast_delete (rel : heaprel) (st : store) (oldtup : HeapTuple) (is_speculative : bool)
    : res (store * tupledesc) :=
  x ← heap_deform_tuple oldtup (rd_att rel);
  let '(toast_values, desc) := x in
  st ← toast_delete_external (td_atts desc) toast_values st is_speculative;
  Ok (st, desc).

Definition RelationGetToastTupleTarget (rel : heaprel) (defaulttarg : Z) : Z :=
  match toast_tuple_target rel with Some t => t | None => defaulttarg end.

(** The conditions and bodies of the four loops, on the context and the database. *)
Section rounds.
Context (rel : heaprel) (maxDataLen : Z).
Local Abbreviation desc := (rd_att rel).
Local Abbreviation has_toast := (negb (reltoastrelid (hr_rel rel) =? InvalidOid)).

Definition too_big (ttc : ToastTupleContext) : res bool :=
  n ← heap_compute_data_size E desc (ttc_values ttc); Ok (n >? maxDataLen).

Definition round1 (x : ToastTupleContext * store) : res (ToastTupleContext * store + ToastTupleContext * store) :=
  let '(ttc, st) := x in
  big ← too_big ttc;
  if negb big then Ok (inr (ttc, st)) else
  biggest_attno ← toast_tuple_find_biggest_attribute desc ttc true false;
  if biggest_attno <? 0 then Ok (inr (ttc, st)) else
  att ← TupleDescAttr desc biggest_attno;
  ttc ← (if attstorage att =? TYPSTORAGE_EXTENDED then toast_tuple_try_compression ttc biggest_attno
         else
           x ← get_col ttc biggest_attno;
           Ok (set_info ttc biggest_attno (add_colflags (snd x) TOASTCOL_INCOMPRESSIBLE)));
  x ← get_col ttc biggest_attno;
  if (tai_size (snd x) >? maxDataLen) && has_toast
  then y ← toast_tuple_externalize rel st ttc biggest_attno; Ok (inl y)
  else Ok (inl (ttc, st)).

(** Rounds 2 and 4: move attributes out of line. *)
Definition round_store (check_main : bool) (x : ToastTupleContext * store)
    : res (ToastTupleContext * store + ToastTupleContext * store) :=
  let '(ttc, st) := x in
  big ← too_big ttc;
  if negb (big && has_toast) then Ok (inr (ttc, st)) else
  biggest_attno ← toast_tuple_find_biggest_attribute desc ttc false check_main;
  if biggest_attno <? 0 then Ok (inr (ttc, st)) else
  y ← toast_tuple_externalize rel st ttc biggest_attno; Ok (inl y).

Definition round3 (x : ToastTupleContext * store) : res (ToastTupleContext * store + ToastTupleContext * store) :=
  let '(ttc, st) := x in
  big ← too_big ttc;
  if negb big then Ok (inr (ttc, st)) else
  biggest_attno ← toast_tuple_find_biggest_attribute desc ttc true true;
  if biggest_attno <? 0 then Ok (inr (ttc, st)) else
  ttc ← toast_tuple_try_compression ttc biggest_attno; Ok (inl (ttc, st)).
End rounds.

(** Every round of a loop uses up a column. *)
Definition round_fuel (rel : heaprel) : nat := S (length (td_atts (rd_att rel))).

(** maxDataLen is a Size: the difference wraps around. *)
Definition toast_rounds (rel : heaprel) (ttc : ToastTupleContext) (st : store) : res (ToastTupleContext * store) :=
  let hoff := SizeofHeapTupleHeader in
  let hoff := if flag (ttc_flags ttc) TOAST_HAS_NULLS then hoff + BITMAPLEN (natts (rd_att rel)) else hoff in
  let hoff := MAXALIGN hoff in
  let maxDataLen := size_t (RelationGetToastTupleTarget rel TOAST_TUPLE_TARGET - hoff) in
  x ← iter (round_fuel rel) (round1 rel maxDataLen) (ttc, st);
  x ← iter (round_fuel rel) (round_store rel maxDataLen false) x;
  x ← iter (round_fuel rel) (round3 rel maxDataLen) x;
  let maxDataLen := size_t (TOAST_TUPLE_TARGET_MAIN - hoff) in
  iter (round_fuel rel) (round_store rel maxDataLen true) x.

(** The tuple with the changed values: the old header, adjusted. *)
Definition rebuild_tuple (desc : tupledesc) (newtup : HeapTuple) (values : list (option Datum)) (hasnulls : bool)
    : res HeapTuple :=
  let new_header_len := SizeofHeapTupleHeader in
  let new_header_len := if hasnulls then new_header_len + BITMAPLEN (natts desc) else new_header_len in
  let new_header_len := MAXALIGN new_header_len in
  new_data_len ← heap_compute_data_size E desc values;
  let new_tuple_len := new_header_len + new_data_len in
  _ ← palloc (HEAPTUPLESIZE + new_tuple_len);
  let olddata := t_data newtup in
  let bits := zrep (new_header_len - SizeofHeapTupleHeader) 0 in
  s ← heap_fill_tuple E desc values (zrep new_data_len 0) (t_infomask olddata) (if hasnulls then Some bits else None);
  Ok (mkTuple new_tuple_len (t_self newtup) (t_tableOid newtup)
       (mkHeader (t_choice olddata) (t_ctid olddata) (SetNatts (t_infomask2 olddata) (natts desc)) (fs_infomask s)
          (new_header_len mod 256) (filled_bits s bits) (fs_area s))).

Definition heap_toast_insert_or_update (rel : heaprel) (newtup : HeapTuple) (oldtup : option HeapTuple)
    : res (HeapTuple * store * tupledesc) :=
  x ← heap_deform_tuple newtup (rd_att rel);
  let '(toast_values, desc) := x in
  y ← (match oldtup with
       | None => Ok (None, desc)
       | Some oldtup => z ← heap_deform_tuple oldtup desc; Ok (Some (fst z), snd z)
       end);
  let '(olds, desc) := y in
  ttc ← toast_tuple_init desc toast_values olds;
  x ← toast_rounds (mkHeaprel (hr_rel rel) desc (toast_tuple_target rel)) ttc (e_store E);
  let '(ttc, st) := x in
  result_tuple ←
    (if flag (ttc_flags ttc) TOAST_NEEDS_CHANGE
     then rebuild_tuple desc newtup (ttc_values ttc) (flag (ttc_flags ttc) TOAST_HAS_NULLS)
     else Ok newtup);
  st ← toast_tuple_cleanup st ttc olds;
  Ok (result_tuple, st, desc).

(** ** Flattening *)

(** External values fetched; [detoast] is detoast_external_attr or detoast_attr. *)
Fixpoint flatten_loop (test : list Z -> res bool) (detoast : list Z -> res (list Z)) (atts : list attribute)
    (values : list (option Datum)) : res (list (option Datum)) :=
  match atts, values with
  | [], _ => Ok []
  | att :: atts, v :: values =>
      v ← (match v with
           | Some d =>
               if attlen att =? -1 then
                 p ← DatumGetPointer d;
                 e ← test p;
                 if (e : bool) then p ← detoast p; Ok (Some (DPtr p)) else Ok v
               else Ok v
           | None => Ok v
           end);
      rest ← flatten_loop test detoast atts values;
      Ok (v :: rest)
  | _ :: _, [] => Ub
  end.

Definition toast_flatten_tuple (tup : HeapTuple) (desc : tupledesc) : res (HeapTuple * tupledesc) :=
  x ← heap_deform_tuple tup desc;
  let '(toast_values, desc) := x in
  toast_values ← flatten_loop VARATT_IS_EXTERNAL (detoast_external_attr E) (td_atts desc) toast_values;
  new_tuple ← heap_form_tuple E desc toast_values;
  let td := t_data new_tuple in
  let old := t_data tup in
  let infomask := Z.lor (Z.land (t_infomask td) (Z.lnot HEAP_XACT_MASK)) (Z.land (t_infomask old) HEAP_XACT_MASK) in
  let infomask2 := Z.lor (Z.land (t_infomask2 td) (Z.lnot HEAP2_XACT_MASK)) (Z.land (t_infomask2 old) HEAP2_XACT_MASK) in
  Ok (mkTuple (t_len new_tuple) (t_self tup) (t_tableOid tup)
       (mkHeader (t_choice old) (t_ctid old) infomask2 infomask (t_hoff td) (t_bits td) (t_body td)), desc).

Definition external_or_compressed (p : list Z) : res bool :=
  e ← VARATT_IS_EXTERNAL p; if (e : bool) then Ok true else VARATT_IS_COMPRESSED p.

Definition toast_flatten_tuple_to_datum (tup : HeapTupleHeader) (tup_len : Z) (desc : tupledesc)
    : res (HeapTupleHeader * tupledesc) :=
  let tmptup := mkTuple tup_len InvalidItemPointer InvalidOid tup in
  x ← heap_deform_tuple tmptup desc;
  let '(toast_values, desc) := x in
  toast_values ← flatten_loop external_or_compressed (detoast_attr E) (td_atts desc) toast_values;
  let hasnulls := has_nulls desc toast_values in
  let new_header_len := SizeofHeapTupleHeader in
  let new_header_len := if hasnulls then new_header_len + BITMAPLEN (natts desc) else new_header_len in
  let new_header_len := MAXALIGN new_header_len in
  new_data_len ← heap_compute_data_size E desc toast_values;
  let new_tuple_len := new_header_len + new_data_len in
  _ ← palloc new_tuple_len;
  let bits := zrep (new_header_len - SizeofHeapTupleHeader) 0 in
  s ← heap_fill_tuple E desc toast_values (zrep new_data_len 0) (t_infomask tup) (if hasnulls then Some bits else None);
  Ok (mkHeader (SetDatumFields (t_choice tup) new_tuple_len (tdtypeid desc) (tdtypmod desc)) (t_ctid tup)
        (SetNatts (t_infomask2 tup) (natts desc)) (fs_infomask s) (new_header_len mod 256) (filled_bits s bits)
        (fs_area s), desc).

Definition toast_build_flattened_tuple (desc : tupledesc) (values : list (option Datum)) : res HeapTuple :=
  new_values ← flatten_loop VARATT_IS_EXTERNAL (detoast_external_attr E) (td_atts desc) values;
  heap_form_tuple E desc new_values.

(** heap_copy_tuple_as_datum of heaptuple.c *)
Definition heap_copy_tuple_as_datum (tuple : HeapTuple) (desc : tupledesc) : res (HeapTupleHeader * tupledesc) :=
  if HeapTupleHasExternal tuple then toast_flatten_tuple_to_datum (t_data tuple) (t_len tuple) desc
  else
    _ ← palloc (t_len tuple);
    let td := t_data tuple in
    Ok (mkHeader (SetDatumFields (t_choice td) (t_len tuple) (tdtypeid desc) (tdtypmod desc)) (t_ctid td)
          (t_infomask2 td) (t_infomask td) (t_hoff td) (t_bits td) (t_body td), desc).
End toaster.
