(* ===== verification/HeapToastValues.v ===== *)
(** What the toaster's calls do to one value, and flattened tuples.

    [inrow c v data]: the datum [v] is stored in line, plain, short or compressed, and
    holds [data].  detoast_external_attr makes such a datum of any external one, so that
    a flattened tuple refers to nothing outside itself. *)

From S2P Require Import Prelude Rle Varatt Pglz PglzHist PglzItems PglzCodec ToastCompression Oids ToastStore Detoast ToastSave.
From S2P Require Import HeapTuple HeapTupleForm HeapTupleDeform HeapToast.

Inductive inrow (c : config) : list Z -> list Z -> Prop :=
| inrow_inline v data : inline_value v data -> inrow c v data
| inrow_compressed id payload data t :
    compressed_as c id payload data -> ok_4b_u data -> ok_4b_c (zlen data) id payload ->
    inrow c (mk_4b_c (zlen data) id payload ++ t) data.

(** A compressed datum that is smaller than what it holds, as all are that
    toast_compress_datum returns. *)
Definition compact_inline (v : list Z) : Prop :=
  VARATT_IS_COMPRESSED v = Ok true -> forall sz raw, VARSIZE v = Ok sz -> VARDATA_COMPRESSED_GET_EXTSIZE v = Ok raw ->
  sz - VARHDRSZ < raw.
Definition compact (E : env) (v : list Z) : Prop :=
  compact_inline v /\
  forall addr w t, v = mk_pointer VARTAG_INDIRECT addr ++ t -> e_mem E !! addr = Some w -> compact_inline w.

Section values.
Context (E : env).

Lemma inrow_direct v data : inrow (e_cfg E) v data -> direct E v data.
Proof. intros [v' d Hi|id payload d t Hc Hd Hok]; [by apply direct_inline|by apply direct_compressed]. Qed.
Lemma inrow_holds v data : inrow (e_cfg E) v data -> holds E v data.
Proof. intros H. by apply holds_direct, inrow_direct. Qed.

Lemma savable_inrow c v data : savable c v data -> inrow c v data.
Proof. intros [v' d Hi|id payload d t Hc Hd Hok Hlt]; [by apply inrow_inline|by apply inrow_compressed]. Qed.
Lemma compact_small raw id payload t :
  ok_4b_c raw id payload -> compact_inline (mk_4b_c raw id payload ++ t) -> zlen payload + 4 < raw.
Proof.
  intros Hok Hcomp.
  pose proof (Hcomp (is_4b_c_c _ _ _ _) _ _ (varsize_4b_c _ _ _ _ Hok) (get_extsize_c _ _ _ _ Hok)) as H.
  unfold VARHDRSZ in H. lia.
Qed.
Lemma inrow_savable c v data : inrow c v data -> compact_inline v -> savable c v data.
Proof.
  intros [v' d Hi|id payload d t Hc Hd Hok] Hcomp; [by constructor|].
  apply savable_compressed; try done. by eapply compact_small.
Qed.

Lemma inline_plain data : ok_4b_u data -> inline_value (mk_4b_u data) data.
Proof. intros Hd. rewrite <- (app_nil_r (mk_4b_u data)). by constructor. Qed.
Lemma inline_short data : ok_1b data -> inline_value (mk_1b data) data.
Proof. intros Hd. rewrite <- (app_nil_r (mk_1b data)). by constructor. Qed.

Lemma inrow_not_external c v data : inrow c v data -> VARATT_IS_EXTERNAL v = Ok false.
Proof.
  intros [v' d Hi|id payload d t Hc Hd Hok]; unfold VARATT_IS_EXTERNAL; [destruct Hi|]; by autorewrite with varatt.
Qed.

(** A datum that stands for some contents is in line, or it is external. *)
Lemma holds_inrow v data :
  holds E v data -> inrow (e_cfg E) v data /\ VARATT_IS_EXTERNAL v = Ok false \/ VARATT_IS_EXTERNAL v = Ok true.
Proof.
  intros [v' d Hd|addr v' d t Ha Hm Hd]; [|by right].
  destruct Hd as [v' d Hi|id payload d t Hc Hd Hok|tp ext d t Hok Hd Hp Hs|tag addr d t Ht Ha Hd Hf]; [| |by right|by right].
  - left. assert (Hin : inrow (e_cfg E) v' d) by (by constructor). split; [done|by eapply inrow_not_external].
  - left. assert (Hin : inrow (e_cfg E) (mk_4b_c (zlen d) id payload ++ t) d) by (by apply inrow_compressed).
    split; [done|by eapply inrow_not_external].
Qed.

Lemma inline_compact v data : inline_value v data -> compact_inline v.
Proof. intros [d t Hd|d t Hd] Hc; unfold VARATT_IS_COMPRESSED in Hc; by autorewrite with varatt in Hc. Qed.

(** ** Fetching back what is out of line *)

Lemma fetch_savable tp ext data t :
  ok_ondisk tp -> ok_4b_u data -> pointer_to (e_cfg E) tp ext data -> stored (e_store E) tp ext ->
  exists v, toast_fetch_datum E (mk_ondisk tp ++ t) = Ok v /\ savable (e_cfg E) v data.
Proof.
  intros Hok Hd Hp Hs. destruct (pointer_extsize _ _ _ _ Hd Hp) as (Hx & Hsz & _).
  rewrite (toast_fetch_datum_ok E tp ext t) by done. eexists. split; [reflexivity|].
  destruct Hp as [d Hr He|id payload d Hr He Hlt Hokc Hc].
  - rewrite fetched_plain by (by eapply (pointer_plain (e_cfg E))). rewrite <- (app_nil_r (mk_4b_u d)).
    apply savable_inline. by constructor.
  - destruct (pointer_compressed (e_cfg E) tp id payload d) as [Hic _]; [done..|].
    pose proof (fetched_compressed tp id payload d (zlen payload) Hic) as Hfc.
    rewrite zslice_full_take in Hfc by zl. rewrite take_ge in Hfc by (unfold zlen; lia).
    rewrite zlen_app, zlen_le32, (Z.add_comm 4), Hfc by (pose proof (zlen_nonneg payload); lia).
    rewrite <- (app_nil_r (mk_4b_c _ _ _)). by apply savable_compressed.
Qed.

Lemma copy_inrow c v data :
  inrow c v data -> exists v', copy_datum v = Ok v' /\ inrow c v' data /\ (compact_inline v -> savable c v' data).
Proof.
  intros Hv. pose proof Hv as Hin. destruct Hv as [v data [d t Hd|d t Hd]|id payload data t Hc Hd Hok].
  - exists (mk_4b_u d). rewrite copy_plain by done. pose proof (inline_plain d Hd) as Hi.
    split; [done|]. split; [by apply inrow_inline|intros _; by apply savable_inline].
  - exists (mk_1b d). pose proof (mk_1b_small d Hd) as Hu. unfold ok_4b_u in Hu. pose proof (zlen_nonneg d).
    pose proof (inline_short d Hd) as Hi.
    split; [|split; [by apply inrow_inline|intros _; by apply savable_inline]].
    unfold copy_datum, VARSIZE_ANY. tags. tags. rewrite palloc_ok by (unfold MaxAllocSize; lia). bind. apply rdn_exact. zl.
  - exists (mk_4b_c (zlen data) id payload). pose proof Hok as (_ & _ & Hl). pose proof (zlen_nonneg payload). split.
    + unfold copy_datum, VARSIZE_ANY. tags. tags. tags. rewrite palloc_ok by (unfold MaxAllocSize; lia). bind.
      apply rdn_exact. zl.
    + split; [rewrite <- (app_nil_r (mk_4b_c _ _ _)); by apply inrow_compressed|]. intros Hcomp.
      rewrite <- (app_nil_r (mk_4b_c _ _ _)). apply savable_compressed; try done. by eapply compact_small.
Qed.

Lemma detoast_external_direct n v data :
  direct E v data -> VARATT_IS_EXTERNAL v = Ok true ->
  exists v', detoast_external_attr_n E (S n) v = Ok v' /\ savable (e_cfg E) v' data.
Proof.
  intros Hv Hx. unfold detoast_external_attr_n; fold (detoast_external_attr_n E).
  destruct Hv as [v data Hi|id payload data t Hc Hd Hok|tp ext data t Hok Hd Hp Hs|tag addr data t Htag Ha Hd Hf].
  - rewrite (inrow_not_external (e_cfg E) v data) in Hx by (by apply inrow_inline). done.
  - rewrite (inrow_not_external (e_cfg E) _ data) in Hx by (by apply inrow_compressed). done.
  - rewrite ondisk_test. bind. by apply (fetch_savable tp ext).
  - exists (mk_4b_u data). split; [|by apply savable_inline, inline_plain].
    destruct Htag as [-> | ->]; tags; exact (proj1 (flatten_ok E _ addr data t Ha Hd Hf)).
Qed.

(** detoast_external_attr of an external datum is a datum in line, still compressed if
    what is out of line is. *)
Lemma detoast_external_ok v data :
  holds E v data -> VARATT_IS_EXTERNAL v = Ok true ->
  exists v', detoast_external_attr E v = Ok v' /\ inrow (e_cfg E) v' data /\ (compact E v -> savable (e_cfg E) v' data).
Proof.
  intros Hv Hx. unfold detoast_external_attr. destruct Hv as [v data Hv|addr v data t Ha Hm Hv].
  - destruct (detoast_external_direct 1 v data Hv Hx) as (v' & -> & Hs). exists v'.
    split; [done|]. split; [by apply savable_inrow|done].
  - remember 1%nat as k eqn:Hk. unfold detoast_external_attr_n; fold (detoast_external_attr_n E). tags.
    unfold indirect_pointer. rewrite rd64_pointer by exact Ha. unfold deref. bind. rewrite Hm. bind.
    destruct (holds_inrow v data (holds_direct E v data Hv)) as [[Hin Hne]|Hext].
    + unfold VARATT_IS_EXTERNAL in Hne. rewrite Hne. bind.
      destruct (copy_inrow (e_cfg E) v data Hin) as (v' & -> & Hin' & Hs). exists v'. split; [done|]. split; [done|].
      intros [_ Hc]. apply Hs. by eapply Hc.
    + unfold VARATT_IS_EXTERNAL in Hext. rewrite Hext. bind. subst k.
      destruct (detoast_external_direct 0 v data Hv Hext) as (v' & -> & Hs). exists v'.
      split; [done|]. split; [by apply savable_inrow|done].
Qed.

(** detoast_attr of a datum that is external or compressed is a plain one. *)
Lemma detoast_plain v data :
  holds E v data -> VARATT_IS_4B_U v = Ok false -> detoast_attr E v = Ok (mk_4b_u data).
Proof.
  intros Hv Hu. destruct (detoast_ok E v data Hv) as [?|[_ [t ->]]]; [done|]. by rewrite is_4b_u_u in Hu.
Qed.
End values.

(** ** Flattened rows *)

(** The varlena columns of a row that are not null. *)
Inductive row_all (P : list Z -> Prop) : list attribute -> list (option Datum) -> Prop :=
| ra_nil : row_all P [] []
| ra_cons att v atts values :
    (forall p, attlen att = -1 -> v = Some (DPtr p) -> P p) -> row_all P atts values ->
    row_all P (att :: atts) (v :: values).

Definition not_external (p : list Z) : Prop := VARATT_IS_EXTERNAL p = Ok false.
Definition plain_or_short (p : list Z) : Prop := VARATT_IS_EXTERNAL p = Ok false /\ VARATT_IS_COMPRESSED p = Ok false.

Lemma direct_ok E v data : direct E v data -> ok_4b_u data.
Proof. intros [v' d Hi| | | ]; [by eapply inline_ok|done..]. Qed.
(** What a detoasting function does for the columns that pass its test. *)
Definition flattens (E : env) (test : list Z -> res bool) (detoast : list Z -> res (list Z)) (P : list Z -> Prop) : Prop :=
  forall p data, holds E p data -> exists b, test p = Ok b /\ (b = false -> P p) /\
    (b = true -> exists p', detoast p = Ok p' /\ holds E p' data /\ P p').

Lemma flatten_external E : flattens E VARATT_IS_EXTERNAL (detoast_external_attr E) not_external.
Proof.
  intros p data Hp. destruct (holds_inrow E p data Hp) as [[_ Hne]|Hx].
  - exists false. split; [done|]. split; done.
  - exists true. split; [done|]. split; [done|]. intros _.
    destruct (detoast_external_ok E p data Hp Hx) as (p' & Hd & Hin & _). exists p'. split; [done|].
    split; [by apply inrow_holds|by eapply inrow_not_external].
Qed.

Lemma plain_plain data : ok_4b_u data -> plain_or_short (mk_4b_u data).
Proof.
  intros Hd. rewrite <- (app_nil_r (mk_4b_u data)).
  unfold plain_or_short, VARATT_IS_EXTERNAL, VARATT_IS_COMPRESSED. by autorewrite with varatt.
Qed.

Lemma flatten_all E : flattens E external_or_compressed (detoast_attr E) plain_or_short.
Proof.
  intros p data Hp. unfold external_or_compressed. pose proof (holds_ok E p data Hp) as Hd.
  assert (Hdo : VARATT_IS_4B_U p = Ok false -> exists p', detoast_attr E p = Ok p' /\ holds E p' data /\ plain_or_short p').
  { intros Hu. exists (mk_4b_u data). split; [by apply detoast_plain|]. split; [|by apply plain_plain].
    by apply holds_direct, direct_inline, inline_plain. }
  destruct (holds_inrow E p data Hp) as [[Hin Hne]|Hx].
  - rewrite Hne. bind. destruct Hin as [v d Hi|id payload d t Hc Hok Hok'].
    + exists false. assert (Hnc : VARATT_IS_COMPRESSED v = Ok false)
        by (destruct Hi; unfold VARATT_IS_COMPRESSED; by autorewrite with varatt). split; [done|]. split; done.
    + exists true. unfold VARATT_IS_COMPRESSED. autorewrite with varatt. split; [done|]. split; [done|].
      intros _. apply Hdo. by autorewrite with varatt.
  - rewrite Hx. bind. exists true. split; [done|]. split; [done|]. intros _. apply Hdo.
    unfold VARATT_IS_EXTERNAL, VARATT_IS_1B_E, VARATT_IS_4B_U in *. destruct (rd p 0) as [h|e| |]; try done. cbn in *.
    injection Hx as Hx. assert (h = 1) as -> by lia. done.
Qed.

Lemma flatten_loop_ok E test detoast P atts values cs :
  flattens E test detoast P -> row_holds E atts values cs ->
  exists values', flatten_loop test detoast atts values = Ok values' /\ row_holds E atts values' cs /\ row_all P atts values'.
Proof.
  intros Hfl. induction 1 as [|att v c atts values cs Hc _ (values' & Heq & Hrow & Hall)].
  - exists []. split; [done|]. split; constructor.
  - cbn [flatten_loop]. rewrite Heq.
    assert (Hcol : exists v', (match v with
      | Some d =>
          if attlen att =? -1 then
            p ← DatumGetPointer d; e ← test p; if (e : bool) then p ← detoast p; Ok (Some (DPtr p)) else Ok v
          else Ok v
      | None => Ok v
      end) = Ok v' /\ col_holds E att v' c /\ forall p, attlen att = -1 -> v' = Some (DPtr p) -> P p).
    { destruct (Z.eqb_spec (attlen att) (-1)) as [Hl|Hl].
      - destruct Hc as [|z Hb Hl' Hz|p t Hb Hl' Hp|s t Hb Hl' Ha Hs|p data Hb Hl' Hp]; try (unfold byval_len in *; lia).
        + exists None. split; [done|]. split; [constructor|done].
        + cbn [DatumGetPointer]. bind. destruct (Hfl p data Hp) as (b & -> & Hf & Ht). bind. destruct b.
          * destruct (Ht eq_refl) as (p' & -> & Hh & HP). bind. eexists. split; [reflexivity|].
            split; [by constructor|]. intros q _ [= <-]. done.
          * eexists. split; [reflexivity|]. split; [by constructor|]. intros q _ [= <-]. by apply Hf.
      - exists v. split; [by destruct v|]. split; [done|]. intros; lia. }
    destruct Hcol as (v' & -> & Hh & HP). bind. eexists. split; [reflexivity|]. split; by constructor.
Qed.

(** How a column is stored keeps these properties. *)
Definition stable (P : list Z -> Prop) : Prop :=
  (forall p, P p -> not_external p) /\ (forall d t, ok_1b d -> P (mk_1b d ++ t)) /\
  (forall d t t', ok_4b_u d -> P (mk_4b_u d ++ t) -> P (mk_4b_u d ++ t')) /\
  (forall raw id payload t t', P (mk_4b_c raw id payload ++ t) -> P (mk_4b_c raw id payload ++ t')).

Lemma stable_not_external : stable not_external.
Proof.
  unfold not_external, VARATT_IS_EXTERNAL. split_and!; [done| | |]; intros; by autorewrite with varatt.
Qed.
Lemma stable_plain : stable plain_or_short.
Proof.
  unfold plain_or_short, VARATT_IS_EXTERNAL, VARATT_IS_COMPRESSED. split_and!.
  - by intros p [? _].
  - intros. by autorewrite with varatt.
  - intros. by autorewrite with varatt.
  - intros raw id payload t t' [_ Hc]. by autorewrite with varatt in Hc.
Qed.

Lemma packs_stable E P att p al w :
  stable P -> varlena_packs E att p al w -> P p -> (forall t, P (w ++ t)) /\ default 0 (head w) <> 1.
Proof.
  intros (Hne & Hs & Hu & Hc) Hp HP. pose proof (Hne _ HP) as Hx. unfold not_external in Hx.
  destruct Hp as [data t Hst Hd|data t Hst Hd|data t Hd|raw id payload t Hok|tp t|addr t|tag addr data t Ht Ha Hd Hf];
    try done.
  - split; [intros; by apply Hs|apply head_1b].
  - split; [intros t'; by apply (Hu _ t)|apply head_4b_u].
  - split; [intros; by apply Hs|apply head_1b].
  - split; [intros t'; by apply (Hc _ _ _ t)|apply head_4b_c].
Qed.

Lemma row_all_view E P atts values xs :
  stable P -> packs_row E atts values xs -> row_all P atts values ->
  existsb (fun '(a, x) => external_col a x) (zip atts xs) = false /\
  forall off t, row_all P atts (view off atts values xs t).
Proof.
  intros HP. induction 1 as [|att v x atts values xs Hx _ IH]; intros Hall; [split; [done|intros; constructor]|].
  inversion Hall as [|? ? ? ? Hv Hrest]; subst. destruct (IH Hrest) as [Hex Hview].
  destruct v as [d|], x as [[al w]|]; try done; cbn [packs_col zip zip_with existsb external_col view] in *.
  - destruct (Z.eqb_spec (attlen att) (-1)) as [Hl|Hl].
    + destruct Hx as [z Hb Hl' Hz|p t Hb Hl' Hp|s t Hb Hl' Ha Hs|p al' w' Hb Hl' Hp]; try (unfold byval_len in *; lia).
      destruct (packs_stable E P att p al' w' HP Hp (Hv p Hl eq_refl)) as [Hw Hh].
      split; [by destruct (Z.eqb_spec (default 0 (head w')) 1)|]. intros off t. constructor; [|by apply Hview].
      intros q _ Hq. unfold fetched_datum in Hq. rewrite Hb in Hq. injection Hq as <-. apply Hw.
    + split; [done|]. intros off t. constructor; [intros; lia|by apply Hview].
  - split; [done|]. intros off t. constructor; [done|by apply Hview].
Qed.

(** A tuple of which the varlena columns have the property P. *)
Definition tuple_all (P : list Z -> Prop) (E : env) (desc : tupledesc) (tup : HeapTuple) (cs : list content) : Prop :=
  exists values xs, packs_row E (td_atts desc) values xs /\ formed desc values xs tup /\
    row_holds E (td_atts desc) (view 0 (td_atts desc) values xs []) cs /\
    row_all P (td_atts desc) (view 0 (td_atts desc) values xs []) /\ HeapTupleHasExternal tup = false.

Lemma tuple_all_holds P E desc tup cs : tuple_all P E desc tup cs -> tuple_holds E desc tup cs.
Proof. intros (values & xs & Hp & Hf & Hh & _). by exists values, xs. Qed.

Lemma tuple_all_intro P E desc values xs tup cs :
  stable P -> packs_row E (td_atts desc) values xs -> formed desc values xs tup ->
  row_holds E (td_atts desc) (view 0 (td_atts desc) values xs []) cs -> row_all P (td_atts desc) values ->
  tuple_all P E desc tup cs.
Proof.
  intros HP Hp Hf Hh Hall. destruct (row_all_view E P _ _ _ HP Hp Hall) as [Hex Hview].
  exists values, xs. split_and!; try done. destruct (formed_flags E desc values xs tup Hp Hf) as (_ & _ & ->). done.
Qed.

Lemma form_all P E desc values cs :
  stable P -> natts desc <= MaxTupleAttributeNumber -> row_holds E (td_atts desc) values cs ->
  row_all P (td_atts desc) values -> row_fits E desc values ->
  returns (heap_form_tuple E desc values) (fun tup => tuple_all P E desc tup cs).
Proof.
  intros HP Hn Hrow Hall (n & Hsz & Hfit). destruct (row_holds_packs E _ _ _ Hrow) as (xs & Hp & Hv).
  unfold heap_compute_data_size in Hsz. rewrite (data_size_loop_ok E _ _ xs) in Hsz by done. injection Hsz as <-.
  eapply returns_mono; [apply form_ok; [done|done|lia]|]. intros tup Hf. by apply (tuple_all_intro P E desc values xs).
Qed.

(** The rest of the header may change. *)
Definition with_header (tup : HeapTuple) (self : Z * Z) (tab : Z) (choice : list Z) (ctid : Z * Z) (im2 im : Z) : HeapTuple :=
  let td := t_data tup in
  mkTuple (t_len tup) self tab (mkHeader choice ctid im2 im (t_hoff td) (t_bits td) (t_body td)).

Lemma formed_header desc values xs tup self tab choice ctid im2 im :
  formed desc values xs tup -> Z.land im 7 = Z.land (t_infomask (t_data tup)) 7 ->
  Z.land im2 HEAP_NATTS_MASK = Z.land (t_infomask2 (t_data tup)) HEAP_NATTS_MASK ->
  formed desc values xs (with_header tup self tab choice ctid im2 im).
Proof. intros [Hb Hl Hh Hm Hn Hbits] Him Him2. constructor; try done;
  unfold HeapTupleHeaderGetNatts in *; cbn [with_header t_data t_infomask t_infomask2]; congruence. Qed.

Lemma tuple_all_header P E desc tup cs self tab choice ctid im2 im :
  tuple_all P E desc tup cs -> Z.land im 7 = Z.land (t_infomask (t_data tup)) 7 ->
  Z.land im2 HEAP_NATTS_MASK = Z.land (t_infomask2 (t_data tup)) HEAP_NATTS_MASK ->
  tuple_all P E desc (with_header tup self tab choice ctid im2 im) cs.
Proof.
  intros (values & xs & Hp & Hf & Hh & Hall & Hx) Him Him2. exists values, xs.
  pose proof (formed_header desc values xs tup self tab choice ctid im2 im Hf Him Him2) as Hf'.
  split_and!; try done. destruct (formed_flags E desc values xs _ Hp Hf') as (_ & _ & ->).
  by destruct (formed_flags E desc values xs tup Hp Hf) as (_ & _ & <-).
Qed.

Lemma flattened_row E desc tup cs test detoast P :
  flattens E test detoast P -> desc_ok desc -> tuple_holds E desc tup cs ->
  exists values desc' values', heap_deform_tuple tup desc = Ok (values, desc') /\ same_desc desc desc' /\ desc_ok desc' /\
    flatten_loop test detoast (td_atts desc') values = Ok values' /\
    row_holds E (td_atts desc) values' cs /\ row_all P (td_atts desc) values'.
Proof.
  intros Hfl Hd Ht. pose proof (deform_holds E desc tup cs Hd Ht) as Hx.
  apply returns_eq in Hx as ([values desc'] & Heq & Hv & Hs & Hd').
  destruct (flatten_loop_ok E test detoast P _ _ _ Hfl Hv) as (values' & Hl & Hv' & Hall).
  exists values, desc', values'. split_and!; try done. by destruct (same_desc_atts _ _ Hs) as [-> _].
Qed.

Lemma fits_same E desc desc' values : same_desc desc desc' -> row_fits E desc' values <-> row_fits E desc values.
Proof. by intros [cache ->]. Qed.

(** ** Properties *)

(** A flattened tuple depends on nothing outside itself: toast_flatten_tuple returns a
    tuple that holds the same row, of which no column is an external datum any more (so
    HEAP_HASEXTERNAL is clear), with the identity and the transaction fields of the
    original.  Compressed columns stay compressed. *)
Theorem toast_flatten_tuple_correct E desc tup cs :
  desc_ok desc -> natts desc <= MaxTupleAttributeNumber -> tuple_holds E desc tup cs ->
  (forall values, (x ← heap_deform_tuple tup desc;
     flatten_loop VARATT_IS_EXTERNAL (detoast_external_attr E) (td_atts desc) (fst x)) = Ok values -> row_fits E desc values) ->
  returns (toast_flatten_tuple E tup desc) (fun '(new, desc') =>
    tuple_all not_external E desc new cs /\ HeapTupleHasExternal new = false /\
    t_self new = t_self tup /\ t_tableOid new = t_tableOid tup /\
    t_choice (t_data new) = t_choice (t_data tup) /\ t_ctid (t_data new) = t_ctid (t_data tup) /\
    Z.land (t_infomask (t_data new)) HEAP_XACT_MASK = Z.land (t_infomask (t_data tup)) HEAP_XACT_MASK /\ desc_ok desc').
Proof.
  intros Hd Hn Ht Hfit.
  destruct (flattened_row E desc tup cs _ _ _ (flatten_external E) Hd Ht) as (vals & desc' & values & Heq & Hs & Hd' & Hl & Hv & Hall).
  unfold toast_flatten_tuple. rewrite Heq in *. cbn [mbind res_bind fst] in Hfit |- *. destruct (same_desc_atts _ _ Hs) as [Ha _].
  rewrite Ha in *. rewrite Hl. bind. rewrite (form_same_desc E desc desc') by done.
  pose proof (form_all not_external E desc values cs stable_not_external Hn Hv Hall (Hfit _ Hl)) as Hf.
  apply returns_eq in Hf as (new & -> & Hnew). bind. cbn [returns t_self t_tableOid t_data t_choice t_ctid t_infomask].
  set (im := Z.lor (Z.land (t_infomask (t_data new)) (Z.lnot HEAP_XACT_MASK)) _). set (im2 := Z.lor _ (Z.land _ HEAP2_XACT_MASK)).
  assert (Hnew' : tuple_all not_external E desc
    (with_header new (t_self tup) (t_tableOid tup) (t_choice (t_data tup)) (t_ctid (t_data tup)) im2 im) cs).
  { apply tuple_all_header; [done| |].
    - unfold im. rewrite Z.land_lor_distr_l, <- !Z.land_assoc. change (Z.land (Z.lnot HEAP_XACT_MASK) 7) with 7.
      change (Z.land HEAP_XACT_MASK 7) with 0. by rewrite Z.land_0_r, Z.lor_0_r.
    - unfold im2. rewrite Z.land_lor_distr_l, <- !Z.land_assoc.
      change (Z.land (Z.lnot HEAP2_XACT_MASK) HEAP_NATTS_MASK) with HEAP_NATTS_MASK.
      change (Z.land HEAP2_XACT_MASK HEAP_NATTS_MASK) with 0. by rewrite Z.land_0_r, Z.lor_0_r. }
  split; [exact Hnew'|]. split; [by destruct Hnew' as (? & ? & _ & _ & _ & _ & Hx)|]. split_and!; try done.
  unfold im. rewrite Z.land_lor_distr_l, <- !Z.land_assoc. change (Z.land (Z.lnot HEAP_XACT_MASK) HEAP_XACT_MASK) with 0.
  rewrite Z.land_0_r, Z.lor_0_l. by rewrite Z.land_diag.
Qed.

(** Without HEAP_HASEXTERNAL no column is external. *)
Lemma row_no_external E atts values xs :
  packs_row E atts values xs -> existsb (fun '(a, x) => external_col a x) (zip atts xs) = false ->
  forall off t, row_all not_external atts (view off atts values xs t).
Proof.
  induction 1 as [|att v x atts values xs Hx _ IH]; intros Hex off t; [constructor|].
  destruct v as [d|], x as [[al w]|]; try done; cbn [packs_col zip zip_with existsb external_col view] in *.
  - apply orb_false_iff in Hex as [Hw Hex]. constructor; [|by apply IH]. intros p Hl Hp.
    destruct Hx as [z Hb Hl' Hz|q s Hb Hl' Hq|s s' Hb Hl' Ha Hs|q al' w' Hb Hl' Hq]; try (unfold byval_len in *; lia).
    unfold fetched_datum in Hp. rewrite Hb in Hp. injection Hp as <-. rewrite Hl in Hw. cbn [Z.eqb Pos.eqb andb] in Hw.
    destruct (varlena_nonempty _ _ _ _ _ Hq) as (b & r & ->). unfold not_external, VARATT_IS_EXTERNAL, VARATT_IS_1B_E.
    cbn [app]. rewrite rd_cons_0. bind. f_equal. exact Hw.
  - constructor; [done|by apply IH].
Qed.

Lemma datum_length choice len typeid typmod :
  0 <= len < 2 ^ 30 -> VARSIZE (SetDatumFields choice len typeid typmod) = Ok len.
Proof.
  intros Hl. unfold VARSIZE, VARSIZE_4B, SetDatumFields, SET_VARSIZE, SET_VARSIZE_4B, wrap32.
  change (take 4 (le32 ?x ++ ?y)) with (le32 x). rewrite (Z.mod_small len) by lia. rewrite Z.shiftl_mul_pow2 by lia.
  rewrite rd32_le32 by lia. bind. land_mod. f_equal. lia.
Qed.

(** A composite datum: a tuple header with the datum fields set. *)
Definition datum_holds (E : env) (desc : tupledesc) (td : HeapTupleHeader) (cs : list content) : Prop :=
  exists len, VARSIZE (t_choice td) = Ok len /\
    tuple_all not_external E desc (mkTuple len InvalidItemPointer InvalidOid td) cs.

Lemma row_all_mono (P Q : list Z -> Prop) atts values :
  (forall p, P p -> Q p) -> row_all P atts values -> row_all Q atts values.
Proof. intros H. induction 1; constructor; eauto. Qed.

Lemma flatten_to_datum_ok E desc tup cs :
  desc_ok desc -> natts desc <= MaxTupleAttributeNumber -> tuple_holds E desc tup cs ->
  (forall values, (x ← heap_deform_tuple tup desc;
     flatten_loop external_or_compressed (detoast_attr E) (td_atts desc) (fst x)) = Ok values -> row_fits E desc values) ->
  returns (toast_flatten_tuple_to_datum E (t_data tup) (t_len tup) desc) (fun '(td, desc') =>
    datum_holds E desc td cs /\ desc_ok desc').
Proof.
  intros Hd Hn Ht Hfit. pose proof (zlen_nonneg (td_atts desc)) as Hn0.
  destruct (flattened_row E desc tup cs _ _ _ (flatten_all E) Hd Ht) as (vals & desc' & values & Heq & Hs & Hd' & Hl & Hv & Hall).
  unfold toast_flatten_tuple_to_datum.
  assert (Heq' : heap_deform_tuple (mkTuple (t_len tup) InvalidItemPointer InvalidOid (t_data tup)) desc = Ok (vals, desc'))
    by exact Heq.
  rewrite Heq' in *. rewrite Heq in Hfit. cbn [mbind res_bind fst] in Hfit |- *. destruct (same_desc_atts _ _ Hs) as [Ha Hna].
  rewrite Ha in *. rewrite Hl. bind. destruct (Hfit _ Hl) as (n & Hsz & Hfits).
  destruct (row_holds_packs E _ _ _ Hv) as (xs & Hp & Hview).
  replace (has_nulls desc' values) with (has_nulls desc values) by (unfold has_nulls; by rewrite Ha). rewrite Hna.
  fold (header_len (has_nulls desc values) (natts desc)).
  destruct (header_len_bounds (has_nulls desc values) (natts desc) ltac:(unfold natts in *; lia)) as (Hh & _).
  unfold heap_compute_data_size in Hsz |- *. rewrite Ha. rewrite Hsz. bind.
  rewrite (data_size_loop_ok E _ _ xs) in Hsz by done. injection Hsz as <-. rewrite Z.add_0_l in *.
  pose proof (zlen_nonneg (lay 0 (td_atts desc) xs)). unfold MaxAllocSize in *.
  rewrite palloc_ok by (unfold SizeofHeapTupleHeader, MaxAllocSize in *; lia). bind.
  destruct (fill_tuple_ok E desc values xs (t_infomask (t_data tup)) _ Hn Hp eq_refl) as (s & Hfill & Hs1 & Hs2 & Hs3 & Hs4).
  replace (heap_fill_tuple E desc') with (heap_fill_tuple E desc) by (by destruct Hs as [cache ->]).
  rewrite Hfill. bind. cbn [returns]. split; [|done].
  eexists. split; [apply datum_length; unfold SizeofHeapTupleHeader in *; lia|].
  pose proof (formed_intro E desc values xs _ InvalidItemPointer InvalidOid
    (SetDatumFields (t_choice (t_data tup)) (header_len (has_nulls desc values) (natts desc) + zlen (lay 0 (td_atts desc) xs))
      (tdtypeid desc') (tdtypmod desc')) (t_ctid (t_data tup)) (t_infomask2 (t_data tup)) _ s Hn Hp eq_refl Hs1 Hs2 Hs3 Hs4) as Hf.
  apply (tuple_all_intro not_external E desc values xs _ cs stable_not_external Hp Hf); [done|].
  apply (row_all_mono plain_or_short); [by intros p [? _]|done].
Qed.

Lemma formed_size desc values xs tup : formed desc values xs tup -> 0 <= t_len tup.
Proof.
  intros Hf. pose proof (formed_len _ _ _ _ Hf). pose proof (formed_hoff _ _ _ _ Hf).
  pose proof (zlen_nonneg (t_bits (t_data tup))). pose proof (zlen_nonneg (t_body (t_data tup))).
  unfold SizeofHeapTupleHeader in *. lia.
Qed.

(** A row value never refers to the toast tables: heap_copy_tuple_as_datum returns a
    composite datum that holds the same row, whose length word is its length, and no
    column of which is an external datum; if the tuple had one, all its columns are
    detoasted and decompressed. *)
Theorem heap_copy_tuple_as_datum_correct E desc tup cs :
  desc_ok desc -> natts desc <= MaxTupleAttributeNumber -> tuple_holds E desc tup cs -> t_len tup < 2 ^ 29 ->
  (forall values, (x ← heap_deform_tuple tup desc;
     flatten_loop external_or_compressed (detoast_attr E) (td_atts desc) (fst x)) = Ok values -> row_fits E desc values) ->
  returns (heap_copy_tuple_as_datum E tup desc) (fun '(td, desc') => datum_holds E desc td cs /\ desc_ok desc').
Proof.
  intros Hd Hn Ht Hlen Hfit. unfold heap_copy_tuple_as_datum.
  destruct (HeapTupleHasExternal tup) eqn:Hx.
  - by apply flatten_to_datum_ok.
  - destruct Ht as (values & xs & Hp & Hf & Hh).
    pose proof (formed_size _ _ _ _ Hf). rewrite palloc_ok by (unfold MaxAllocSize; lia).
    bind. cbn [returns]. split; [|done]. exists (t_len tup). split.
    + apply datum_length. lia.
    + destruct (formed_flags E desc values xs tup Hp Hf) as (_ & _ & Hex). rewrite Hx in Hex. symmetry in Hex.
      assert (Hall : tuple_all not_external E desc tup cs).
      { exists values, xs. split_and!; try done. by apply row_no_external with E. }
      exact (tuple_all_header not_external E desc tup cs InvalidItemPointer InvalidOid _ (t_ctid (t_data tup))
        (t_infomask2 (t_data tup)) (t_infomask (t_data tup)) Hall eq_refl eq_refl).
Qed.

(** toast_build_flattened_tuple is heap_form_tuple of a row without external datums. *)
Theorem toast_build_flattened_tuple_correct E desc values cs :
  natts desc <= MaxTupleAttributeNumber -> row_holds E (td_atts desc) values cs ->
  (forall values', flatten_loop VARATT_IS_EXTERNAL (detoast_external_attr E) (td_atts desc) values = Ok values' ->
     row_fits E desc values') ->
  returns (toast_build_flattened_tuple E desc values) (fun tup => tuple_all not_external E desc tup cs).
Proof.
  intros Hn Hv Hfit. destruct (flatten_loop_ok E _ _ _ _ _ _ (flatten_external E) Hv) as (values' & Hl & Hv' & Hall).
  unfold toast_build_flattened_tuple. rewrite Hl. bind. apply form_all; try done; [apply stable_not_external|by apply Hfit].
Qed.

(** *** Witnesses *)

Lemma toast_flatten_tuple_correct_witness :
  HeapTupleHasExternal sample_tuple = true /\
  exists new desc', toast_flatten_tuple sample_env sample_tuple sample_desc = Ok (new, desc') /\
    HeapTupleHasExternal new = false.
Proof.
  split; [vm_compute; reflexivity|].
  assert (Hfit : forall values, (x ← heap_deform_tuple sample_tuple sample_desc;
      flatten_loop VARATT_IS_EXTERNAL (detoast_external_attr sample_env) (td_atts sample_desc) (fst x)) = Ok values ->
    row_fits sample_env sample_desc values).
  { intros values Hv. exists 2518. split; [|vm_compute; discriminate].
    assert (E : (values ← (x ← heap_deform_tuple sample_tuple sample_desc;
      flatten_loop VARATT_IS_EXTERNAL (detoast_external_attr sample_env) (td_atts sample_desc) (fst x));
      heap_compute_data_size sample_env sample_desc values) = Ok 2518) by (vm_compute; reflexivity).
    rewrite Hv in E. exact E. }
  pose proof (toast_flatten_tuple_correct sample_env sample_desc sample_tuple sample_contents sample_desc_ok
    ltac:(vm_compute; discriminate) sample_tuple_holds Hfit) as H.
  apply returns_eq in H as ([new desc'] & Heq & _ & H & _). exists new, desc'. split; [exact Heq|exact H].
Defined.

Lemma heap_copy_tuple_as_datum_correct_witness :
  exists td desc', heap_copy_tuple_as_datum sample_env sample_tuple sample_desc = Ok (td, desc') /\
    datum_holds sample_env sample_desc td sample_contents.
Proof.
  assert (Hfit : forall values, (x ← heap_deform_tuple sample_tuple sample_desc;
      flatten_loop external_or_compressed (detoast_attr sample_env) (td_atts sample_desc) (fst x)) = Ok values ->
    row_fits sample_env sample_desc values).
  { intros values Hv. exists 2518. split; [|vm_compute; discriminate].
    assert (E : (values ← (x ← heap_deform_tuple sample_tuple sample_desc;
      flatten_loop external_or_compressed (detoast_attr sample_env) (td_atts sample_desc) (fst x));
      heap_compute_data_size sample_env sample_desc values) = Ok 2518) by (vm_compute; reflexivity).
    rewrite Hv in E. exact E. }
  pose proof (heap_copy_tuple_as_datum_correct sample_env sample_desc sample_tuple sample_contents sample_desc_ok
    ltac:(vm_compute; discriminate) sample_tuple_holds ltac:(vm_compute; reflexivity) Hfit) as H.
  apply returns_eq in H as ([td desc'] & Heq & H & _). exists td, desc'. split; [exact Heq|exact H].
Defined.
