(* ===== verification/HeapTupleExpand.v ===== *)
(** Copies of tuples, minimal tuples, and tuples expanded to the columns added since:
    the rest of src/backend/access/common/heaptuple.c.

    A minimal tuple is a tuple without its system columns; the two are converted into
    each other without looking at the data.  An expanded tuple stores the missing values
    that reading the old tuple would supply, so it reads as the same row. *)

From S2P Require Import Prelude Rle Varatt Pglz PglzHist PglzItems PglzCodec ToastCompression Oids ToastStore Detoast ToastSave.
From S2P Require Import HeapTuple HeapTupleForm HeapTupleDeform HeapTupleGetattr HeapToast HeapToastValues.

(** ** Copies *)

(** memcpy of len bytes from the header on *)
Definition copy_header (td : HeapTupleHeader) (len : Z) : res HeapTupleHeader :=
  body ← rdn (t_body td) 0 (len - t_hoff td);
  Ok (mkHeader (t_choice td) (t_ctid td) (t_infomask2 td) (t_infomask td) (t_hoff td) (t_bits td) body).

(** None: an invalid tuple, or one without data *)
Definition heap_copytuple (tuple : option HeapTuple) : res (option HeapTuple) :=
  match tuple with
  | None => Ok None
  | Some tuple =>
      _ ← palloc (HEAPTUPLESIZE + t_len tuple);
      td ← copy_header (t_data tuple) (t_len tuple);
      Ok (Some (mkTuple (t_len tuple) (t_self tuple) (t_tableOid tuple) td))
  end.
Definition heap_copytuple_with_tuple (src : option HeapTuple) : res (option HeapTuple) :=
  match src with
  | None => Ok None
  | Some src =>
      _ ← palloc (t_len src);
      td ← copy_header (t_data src) (t_len src);
      Ok (Some (mkTuple (t_len src) (t_self src) (t_tableOid src) td))
  end.

(** ** Minimal tuples *)

Definition MINIMAL_TUPLE_OFFSET : Z := (18 - 4) / 8 * 8.
Definition MINIMAL_TUPLE_PADDING : Z := (18 - 4) mod 8.
Definition SizeofMinimalTupleHeader : Z := 4 + MINIMAL_TUPLE_PADDING + 5.

(** [mt_bits] runs from offsetof(t_bits) to t_hoff - MINIMAL_TUPLE_OFFSET. *)
Record MinimalTuple := mkMinimal {
  mt_len : Z;
  mt_padding : list Z;
  mt_infomask2 : Z;
  mt_infomask : Z;
  mt_hoff : Z;
  mt_bits : list Z;
  mt_body : list Z
}.

Definition heap_form_minimal_tuple (E : env) (desc : tupledesc) (values : list (option Datum)) : res MinimalTuple :=
  let numberOfAttributes := natts desc in
  if numberOfAttributes >? MaxTupleAttributeNumber then Ereport ERRCODE_TOO_MANY_COLUMNS else
  let hasnull := has_nulls desc values in
  let len := SizeofMinimalTupleHeader in
  let len := if hasnull then len + BITMAPLEN numberOfAttributes else len in
  let hoff := MAXALIGN len in
  data_len ← heap_compute_data_size E desc values;
  let len := hoff + data_len in
  _ ← palloc len;
  let bits := zrep (hoff - SizeofMinimalTupleHeader) 0 in
  s ← heap_fill_tuple E desc values (zrep data_len 0) 0 (if hasnull then Some bits else None);
  Ok (mkMinimal len (zrep MINIMAL_TUPLE_PADDING 0) (SetNatts 0 numberOfAttributes) (fs_infomask s)
       ((hoff + MINIMAL_TUPLE_OFFSET) mod 256) (filled_bits s bits) (fs_area s)).

Definition heap_copy_minimal_tuple (mtup : MinimalTuple) : res MinimalTuple :=
  _ ← palloc (mt_len mtup);
  body ← rdn (mt_body mtup) 0 (mt_len mtup - (mt_hoff mtup - MINIMAL_TUPLE_OFFSET));
  Ok (mkMinimal (mt_len mtup) (mt_padding mtup) (mt_infomask2 mtup) (mt_infomask mtup) (mt_hoff mtup) (mt_bits mtup) body).

(** memset up to offsetof(t_infomask2): the length word and the padding are overwritten. *)
Definition heap_tuple_from_minimal_tuple (mtup : MinimalTuple) : res HeapTuple :=
  let len := mt_len mtup + MINIMAL_TUPLE_OFFSET in
  _ ← palloc (HEAPTUPLESIZE + len);
  body ← rdn (mt_body mtup) 0 (mt_len mtup - (mt_hoff mtup - MINIMAL_TUPLE_OFFSET));
  Ok (mkTuple len InvalidItemPointer InvalidOid
       (mkHeader (zrep 12 0) (0, 0) (mt_infomask2 mtup) (mt_infomask mtup) (mt_hoff mtup) (mt_bits mtup) body)).

(** The padding is what t_ctid was. *)
Definition minimal_tuple_from_heap_tuple (htup : HeapTuple) : res MinimalTuple :=
  let td := t_data htup in
  let len := t_len htup - MINIMAL_TUPLE_OFFSET in
  _ ← palloc len;
  body ← rdn (t_body td) 0 (t_len htup - t_hoff td);
  Ok (mkMinimal len (ItemPointerData (t_ctid td)) (t_infomask2 td) (t_infomask td) (t_hoff td) (t_bits td) body).

(** ** Expansion *)

Section expand.
Context (E : env).

(** for (firstmissingnum = sourceNatts; ...): how many attributes are skipped, hasNulls *)
Fixpoint first_missing (attrmiss : list (option Datum)) (hasNulls : bool) : nat * bool :=
  match attrmiss with
  | [] => (O, hasNulls)
  | Some _ :: _ => (O, hasNulls)
  | None :: attrmiss => let '(n, b) := first_missing attrmiss true in (S n, b)
  end.
(** for (attnum = firstmissingnum; ...): the space for the missing values, hasNulls *)
Fixpoint missing_len (atts : list attribute) (attrmiss : list (option Datum)) (targetDataLen : Z) (hasNulls : bool)
    : res (Z * bool) :=
  match atts, attrmiss with
  | [], _ => Ok (targetDataLen, hasNulls)
  | att :: atts, Some am_value :: attrmiss =>
      targetDataLen ← att_align_datum targetDataLen (attalign att) (attlen att) am_value;
      targetDataLen ← att_addlength_datum targetDataLen (attlen att) am_value;
      missing_len atts attrmiss targetDataLen hasNulls
  | _ :: atts, None :: attrmiss => missing_len atts attrmiss targetDataLen true
  | _ :: _, [] => Ub
  end.

(** The bits of the attributes the source has: the bitmap, the position nullBits, bitMask. *)
Definition expand_bits (source : HeapTuple) (sourceNatts sourceNullLen : Z) (bits : list Z) : res (list Z * Z * Z) :=
  x ← (if sourceNullLen >? 0 then
         old ← rdn (t_bits (t_data source)) 0 sourceNullLen;
         bits ← wr bits 0 old;
         Ok (bits, sourceNullLen - 1)
       else
         let sourceNullLen := BITMAPLEN sourceNatts in
         bits ← wr bits 0 (zrep sourceNullLen 0xff);
         let nullBits := sourceNullLen - 1 in
         bits ← (if negb (Z.land sourceNatts 0x07 =? 0)
                 then wr bits nullBits [Z.lnot (Z.shiftl 0xff (Z.land sourceNatts 0x07)) mod 256]
                 else Ok bits);
         Ok (bits, nullBits));
  Ok (x, Z.shiftl 1 (Z.land (sourceNatts - 1) 0x07)).

(** expand_tuple; [header] is the fixed part of the target's header, [extra] what is
    allocated before it.  The result: t_hoff, the length, and what has been filled in. *)
Definition expand_tuple (source : HeapTuple) (desc : tupledesc) (header extra : Z) : res (Z * Z * fill_state * list Z) :=
  let td := t_data source in
  let sourceNatts := HeapTupleHeaderGetNatts td in
  let sourceDataLen := t_len source - t_hoff td in
  let sourceNullLen := if HeapTupleHasNulls source then BITMAPLEN sourceNatts else 0 in
  let rest {A} (l : list A) := drop (Z.to_nat sourceNatts) l in
  x ← (match td_missing desc with
       | Some attrmiss =>
           let '(n, hasNulls) := first_missing (rest (take (Z.to_nat (natts desc)) attrmiss)) (HeapTupleHasNulls source) in
           missing_len (drop n (rest (td_atts desc))) (drop n (rest attrmiss)) sourceDataLen hasNulls
       | None => Ok (sourceDataLen, true)
       end);
  let '(targetDataLen, hasNulls) := x in
  let targetNullLen := if (hasNulls : bool) then BITMAPLEN (natts desc) else 0 in
  let hoff := MAXALIGN (targetNullLen + header) in
  let len := hoff + targetDataLen in
  _ ← palloc (extra + len);
  let bits := zrep (hoff - header) 0 in
  nullBits ← (if targetNullLen >? 0 then x ← expand_bits source sourceNatts sourceNullLen bits; Ok (Some x) else Ok None);
  data ← rdn (t_body td) 0 sourceDataLen;
  area ← wr (zrep targetDataLen 0) 0 data;
  s ← fill_loop E (rest (td_atts desc))
        (match td_missing desc with Some attrmiss => rest attrmiss | None => map (fun _ => None) (rest (td_atts desc)) end)
        (mkFill nullBits area sourceDataLen (t_infomask td));
  Ok (hoff, len, s, bits).

Definition heap_expand_tuple (source : HeapTuple) (desc : tupledesc) : res HeapTuple :=
  x ← expand_tuple source desc SizeofHeapTupleHeader HEAPTUPLESIZE;
  let '(hoff, len, s, bits) := x in
  Ok (mkTuple len (t_self source) (t_tableOid source)
       (mkHeader (SetDatumFields (zrep 12 0) len (tdtypeid desc) (tdtypmod desc)) InvalidItemPointer
          (SetNatts 0 (natts desc)) (fs_infomask s) (hoff mod 256) (filled_bits s bits) (fs_area s))).

Definition minimal_expand_tuple (source : HeapTuple) (desc : tupledesc) : res MinimalTuple :=
  x ← expand_tuple source desc SizeofMinimalTupleHeader 0;
  let '(hoff, len, s, bits) := x in
  Ok (mkMinimal len (zrep MINIMAL_TUPLE_PADDING 0) (SetNatts 0 (natts desc)) (fs_infomask s)
       ((hoff + MINIMAL_TUPLE_OFFSET) mod 256) (filled_bits s bits) (fs_area s)).
End expand.

(** ** Copies and conversions *)

Lemma rdn_all l n : n = zlen l -> rdn l 0 n = Ok l.
Proof. intros ->. rewrite <- (app_nil_r l) at 1. by apply rdn_exact. Qed.

(** A tuple without its system columns. *)
Definition no_system (tup : HeapTuple) : HeapTuple :=
  let td := t_data tup in
  mkTuple (t_len tup) InvalidItemPointer InvalidOid
    (mkHeader (zrep 12 0) (0, 0) (t_infomask2 td) (t_infomask td) (t_hoff td) (t_bits td) (t_body td)).

(** The offset of the data is the same in both kinds of tuple. *)
Lemma minimal_hoff (hasnull : bool) n :
  MAXALIGN (if hasnull then SizeofMinimalTupleHeader + BITMAPLEN n else SizeofMinimalTupleHeader)
  = header_len hasnull n - MINIMAL_TUPLE_OFFSET.
Proof.
  unfold header_len, MAXALIGN, MAXIMUM_ALIGNOF, SizeofMinimalTupleHeader, SizeofHeapTupleHeader, MINIMAL_TUPLE_OFFSET, MINIMAL_TUPLE_PADDING.
  rewrite !typealign_8. destruct hasnull; lia.
Qed.

Lemma form_minimal E desc values xs :
  natts desc <= MaxTupleAttributeNumber -> packs_row E (td_atts desc) values xs ->
  zlen (lay 0 (td_atts desc) xs) + 512 <= MaxAllocSize ->
  exists tup m, heap_form_tuple E desc values = Ok tup /\ formed desc values xs tup /\
    heap_form_minimal_tuple E desc values = Ok m /\
    m = mkMinimal (t_len tup - MINIMAL_TUPLE_OFFSET) (zrep MINIMAL_TUPLE_PADDING 0) (t_infomask2 (t_data tup))
          (t_infomask (t_data tup)) (t_hoff (t_data tup)) (t_bits (t_data tup)) (t_body (t_data tup)).
Proof.
  intros Hnat Hrow Hfit. pose proof (form_ok E desc values xs Hnat Hrow Hfit) as Hform.
  apply returns_eq in Hform as (tup & Heq & Hf). exists tup.
  unfold heap_form_minimal_tuple. unfold heap_form_tuple in Heq |- * at 1.
  destruct (Z.gtb_spec (natts desc) MaxTupleAttributeNumber); [lia|].
  rewrite minimal_hoff. fold (header_len (has_nulls desc values) (natts desc)) in Heq |- *.
  set (h := header_len (has_nulls desc values) (natts desc)) in *.
  destruct (heap_compute_data_size E desc values) as [n|?| |] eqn:Hsz; try done. cbn [mbind res_bind] in Heq |- *.
  assert (Hn : n = zlen (lay 0 (td_atts desc) xs)).
  { unfold heap_compute_data_size in Hsz. rewrite (data_size_loop_ok E _ _ xs) in Hsz by done. by injection Hsz as <-. }
  pose proof (zlen_nonneg (td_atts desc)). pose proof (zlen_nonneg (lay 0 (td_atts desc) xs)).
  destruct (header_len_bounds (has_nulls desc values) (natts desc)) as (Hh & _); [unfold natts in *; lia|]. fold h in Hh.
  unfold MINIMAL_TUPLE_OFFSET, SizeofMinimalTupleHeader, MINIMAL_TUPLE_PADDING, HEAPTUPLESIZE, SizeofHeapTupleHeader in *.
  rewrite palloc_ok in Heq by lia. rewrite !palloc_ok by lia. cbn [mbind res_bind] in Heq |- *.
  replace (h - (18 - 4) / 8 * 8 - (4 + (18 - 4) mod 8 + 5)) with (h - 23) by lia.
  destruct (heap_fill_tuple _ _ _ _ _ _) as [s|?| |]; try done. cbn [mbind res_bind] in Heq |- *. injection Heq as <-.
  eexists. split; [done|]. split; [done|]. split; [done|]. cbn [t_len t_data t_infomask2 t_infomask t_hoff t_bits t_body].
  f_equal; [lia|]. f_equal. lia.
Qed.

(** ** Rows in two parts *)

Lemma packs_row_app E atts values xs atts' values' xs' :
  packs_row E atts values xs -> packs_row E atts' values' xs' -> packs_row E (atts ++ atts') (values ++ values') (xs ++ xs').
Proof. induction 1 as [|att v x atts values xs Hx _ IH]; intros H'; [done|]. cbn [app]. constructor; [done|by apply IH]. Qed.

Lemma row_holds_app E atts values cs atts' values' cs' :
  row_holds E atts values cs -> row_holds E atts' values' cs' -> row_holds E (atts ++ atts') (values ++ values') (cs ++ cs').
Proof. induction 1 as [|att v c atts values cs Hc _ IH]; intros H'; [done|]. cbn [app]. constructor; [done|by apply IH]. Qed.

Lemma lay_app E atts values xs more mxs : packs_row E atts values xs -> forall off, 0 <= off ->
  lay off (atts ++ more) (xs ++ mxs) = lay off atts xs ++ lay (off + zlen (lay off atts xs)) more mxs.
Proof.
  induction 1 as [|att v x atts values xs Hx _ IH]; intros off Hoff; [cbn; by rewrite Z.add_0_r|].
  destruct v as [d|], x as [[al w]|]; try done; cbn [app lay]; [|by apply IH].
  pose proof (place_bounds att al off Hoff). pose proof (zlen_nonneg w). rewrite IH by lia. rewrite !app_assoc. do 2 f_equal. zl.
Qed.

Lemma view_app E atts values xs more mvals mxs t : packs_row E atts values xs -> forall off, 0 <= off ->
  let off' := off + zlen (lay off atts xs) in
  view off (atts ++ more) (values ++ mvals) (xs ++ mxs) t
  = view off atts values xs (lay off' more mxs ++ t) ++ view off' more mvals mxs t.
Proof.
  induction 1 as [|att v x atts values xs Hx Hrow IH]; intros off Hoff; [cbn; by rewrite Z.add_0_r|].
  destruct v as [d|], x as [[al w]|]; try done; cbn [app lay view]; [|f_equal; by apply IH].
  pose proof (place_bounds att al off Hoff). pose proof (zlen_nonneg w). set (o := place att al off) in *.
  rewrite (lay_app E atts values xs more mxs Hrow) by lia. rewrite IH by lia.
  replace (off + zlen (zrep (o - off) 0 ++ w ++ lay (o + zlen w) atts xs)) with (o + zlen w + zlen (lay (o + zlen w) atts xs)) by zl.
  by rewrite <- app_assoc.
Qed.

Lemma row_mask_app atts xs more mxs : length xs = length atts ->
  row_mask (atts ++ more) (xs ++ mxs) = Z.lor (row_mask atts xs) (row_mask more mxs).
Proof.
  revert xs. induction atts as [|att atts IH]; intros [|x xs] Hl; try done.
  destruct x as [[al w]|]; cbn [app row_mask]; rewrite IH by (simpl in Hl; lia); by rewrite Z.lor_assoc.
Qed.

(** ** The space for the missing values *)

Lemma att_align_mono o c a : o <= c -> att_align_nominal o a <= att_align_nominal c a.
Proof.
  intros H. unfold att_align_nominal. rewrite !typealign_2, !typealign_4, !typealign_8. ztests; lia.
Qed.

(** The space is counted without packing, so it is at least what is used. *)
Lemma missing_step E att d al w o c :
  packs E att d al w -> (forall p, attlen att = -1 -> d = DPtr p -> not_external p) -> 0 <= o <= c ->
  exists c', (x ← att_align_datum c (attalign att) (attlen att) d; att_addlength_datum x (attlen att) d) = Ok c' /\
    place att al o + zlen w <= c'.
Proof.
  intros Hp Hne Ho. pose proof (att_align_mono o c (attalign att) ltac:(lia)). pose proof (att_align_bounds c (attalign att) ltac:(lia)).
  pose proof (att_align_bounds o (attalign att) ltac:(lia)).
  unfold att_align_datum, att_addlength_datum, att_addlength_pointer, place.
  destruct Hp as [z Hb Hl Hz|p t Hb Hl Hp|s t Hb Hl Ha Hs|p al' w' Hb Hl Hp].
  - assert (0 < attlen att) by (unfold byval_len in Hl; lia). destruct (Z.eqb_spec (attlen att) (-1)); [lia|]. bind.
    destruct (Z.gtb_spec (attlen att) 0); [|lia]. eexists. split; [done|]. rewrite le_length. lia.
  - destruct (Z.eqb_spec (attlen att) (-1)); [lia|]. bind.
    destruct (Z.gtb_spec (attlen att) 0); [|lia]. eexists. split; [done|]. lia.
  - rewrite Hl. cbn [Z.gtb Z.compare Z.eqb Pos.eqb CompOpp]. bind. cbn [DatumGetPointer]. bind. rewrite strlen_ok by done. bind.
    eexists. split; [done|]. zl.
  - rewrite Hl. cbn [Z.gtb Z.compare Z.eqb Pos.eqb CompOpp DatumGetPointer]. bind. specialize (Hne p Hl eq_refl). unfold not_external in Hne.
    unfold VARSIZE_ANY.
    destruct Hp as [data t Hst Hd|data t Hst Hd|data t Hd|raw id payload t Hok|tp t|addr t|tag addr data t Ht Ha Hd Hf]; try done.
    + pose proof (mk_1b_small data Hd). tags. bind. tags. tags. eexists. split; [done|]. rewrite zlen_1b. lia.
    + tags. bind. tags. tags. eexists. split; [done|]. rewrite zlen_4b_u. lia.
    + tags. bind. tags. eexists. split; [done|]. rewrite zlen_1b. lia.
    + tags. bind. tags. tags. eexists. split; [done|]. rewrite zlen_4b_c. lia.
Qed.

Lemma missing_len_ok E atts values xs : packs_row E atts values xs -> row_all not_external atts values ->
  forall o c, 0 <= o <= c ->
  exists c', (forall b, missing_len atts values c b = Ok (c', b || existsb null_col values)) /\ o + zlen (lay o atts xs) <= c'.
Proof.
  induction 1 as [|att v x atts values xs Hx _ IH]; intros Hall o c Ho.
  { exists c. cbn [missing_len existsb lay]. split; [intros b; by rewrite orb_false_r|]. change (zlen (@nil Z)) with 0. lia. }
  inversion Hall as [|? ? ? ? Hv Hrest]; subst.
  destruct v as [d|], x as [[al w]|]; try done; cbn [missing_len lay existsb null_col orb].
  - destruct (missing_step E att d al w o c Hx) as (c1 & Hc1 & Hb1); [|done|].
    { intros p Hl ->. by apply (Hv p). }
    destruct (att_align_datum c (attalign att) (attlen att) d) as [x|?| |]; try done. cbn [mbind res_bind] in Hc1 |- *.
    rewrite Hc1. bind. pose proof (place_bounds att al o ltac:(lia)). pose proof (zlen_nonneg w).
    destruct (IH Hrest (place att al o + zlen w) c1) as (c' & Hc' & Hb'); [lia|]. exists c'. split; [done|]. zl.
  - destruct (IH Hrest o c) as (c' & Hc' & Hb'); [lia|]. exists c'. split; [intros b; by rewrite Hc', orb_true_r|done].
Qed.

Lemma first_missing_ok : forall miss atts c b, length miss = length atts ->
  let '(n, b') := first_missing miss b in missing_len (drop n atts) (drop n miss) c b' = missing_len atts miss c b.
Proof.
  induction miss as [|m miss IH]; intros [|att atts] c b Hl; try done. destruct m as [d|]; [done|]. cbn [first_missing missing_len].
  specialize (IH atts c true ltac:(simpl in Hl; lia)). destruct (first_missing miss true) as [n b']. exact IH.
Qed.

(** ** The bits of the old columns *)

Lemma rd_take_app (l r : list Z) n i : 0 <= i < n -> n <= zlen l -> rd (take (Z.to_nat n) l ++ r) i = rd l i.
Proof.
  intros Hi Hn. assert (Hz : zlen (take (Z.to_nat n) l) = n) by (unfold zlen in *; rewrite length_take; lia).
  rewrite rd_app_l by lia. rewrite <- (take_drop (Z.to_nat n) l) at 2. by rewrite rd_app_l by lia.
Qed.

Lemma bits_upto_copy bits n nulls r :
  0 <= n -> bits_upto bits n nulls -> BITMAPLEN n <= zlen bits -> bytes r ->
  bits_upto (take (Z.to_nat (BITMAPLEN n)) bits ++ r) n nulls.
Proof.
  intros Hn (Hb & Hset & Hclr) Hlen Hr. unfold BITMAPLEN in *.
  split; [apply Forall_app; split; [by apply Forall_take|done]|].
  split; intros j Hj; rewrite rd_take_app by lia; [by apply Hset|by apply Hclr].
Qed.

Lemma low_bits k j : 0 <= k < 8 -> 0 <= j < 8 -> Z.testbit (Z.lnot (Z.shiftl 0xff k) mod 256) j = (j <? k).
Proof.
  intros Hk Hj. change 256 with (2 ^ 8). rewrite Z.mod_pow2_bits_low by lia. rewrite Z.lnot_spec by lia.
  rewrite Z.shiftl_spec by lia. change 255 with (Z.ones 8).
  destruct (Z.ltb_spec j k) as [Hlt|Hge]; [by rewrite Z.testbit_neg_r by lia|].
  by rewrite Z.ones_spec_low by lia.
Qed.

Lemma bits_upto_ones n m nulls :
  0 <= n -> BITMAPLEN n <= m -> (forall j, 0 <= j < n -> nulls j = false) ->
  exists bits, (b ← wr (zrep m 0) 0 (zrep (BITMAPLEN n) 0xff);
      if negb (Z.land n 0x07 =? 0) then wr b (BITMAPLEN n - 1) [Z.lnot (Z.shiftl 0xff (Z.land n 0x07)) mod 256] else Ok b) = Ok bits /\
    zlen bits = m /\ bits_upto bits n nulls.
Proof.
  intros Hn Hm Hnull. assert (HB : BITMAPLEN n = (n + 7) / 8) by done. set (B := BITMAPLEN n) in *.
  rewrite (land_ones_mod n 3 0x07) by done. change (2 ^ 3) with 8.
  assert (Hwr : wr (zrep m 0) 0 (zrep B 0xff) = Ok (zrep B 0xff ++ zrep (m - B) 0)).
  { pose proof (wr_zeros [] m 0 (zrep B 255)) as H. cbn [app] in H. change (zlen (@nil Z)) with 0 in H.
    rewrite H by (rewrite ?zlen_zrep; lia). change (zrep (0 - 0) 0) with (@nil Z). cbn [app]. rewrite zlen_zrep. do 3 f_equal. lia. }
  rewrite Hwr. bind. set (L := zrep B 255 ++ zrep (m - B) 0). assert (HL : zlen L = m) by (unfold L; zl).
  assert (Hones : forall j, 0 <= j / 8 < B -> rd L (j / 8) = Ok 255).
  { intros j Hj. unfold L. rewrite rd_app_l by zl. apply rd_Some; [lia|]. unfold zrep. apply lookup_replicate. split; [done|lia]. }
  assert (Hbytes : bytes L) by (unfold L; apply Forall_app; split; apply Forall_replicate; unfold is_byte; lia).
  assert (H255 : forall j, 0 <= j -> Z.testbit 255 (j mod 8) = true) by (intros j Hj; change 255 with (Z.ones 8); apply Z.ones_spec_low; lia).
  destruct (Z.eqb_spec (n mod 8) 0) as [H0|H0]; cbn [negb].
  - exists L. split; [done|]. split; [done|]. split; [done|]. split; intros j Hj; [|lia].
    exists 255. rewrite Hones, Hnull by lia. split; [done|]. rewrite H255 by lia. done.
  - rewrite wr_one by lia. eexists. split; [done|]. split; [unfold zlen in *; rewrite length_insert; lia|].
    split; [apply bytes_insert; [done|]; unfold is_byte; lia|].
    split; intros j Hj; rewrite rd_insert by lia; destruct (Z.eqb_spec (j / 8) (B - 1)).
    + eexists. split; [done|]. rewrite low_bits, Hnull by lia. cbn [negb]. lia.
    + exists 255. rewrite Hones, Hnull by lia. split; [done|]. rewrite H255 by lia. done.
    + eexists. split; [done|]. rewrite low_bits by lia. lia.
    + lia.
Qed.

Lemma bits_upto_ext bits n f g : (forall j, 0 <= j < n -> f j = g j) -> bits_upto bits n f -> bits_upto bits n g.
Proof.
  intros He (Hb & Hset & Hclr). split; [done|]. split; [|done]. intros j Hj. rewrite <- He by done. by apply Hset.
Qed.

Lemma null_at_app values mvals j : 0 <= j < zlen values -> null_at (values ++ mvals) j = null_at values j.
Proof. intros Hj. unfold null_at. rewrite lookup_app_l; [done|]. unfold zlen in Hj. lia. Qed.

Section expand_ok.
Context (E : env) (desc0 desc : tupledesc) (more : list attribute) (values mvals : list (option Datum)).
Context (xs mxs : list piece) (src : HeapTuple).
Context (Hext : extends desc0 desc more) (Hmore : more <> []).
Context (Hnat : natts desc <= MaxTupleAttributeNumber).
Context (Hrow : packs_row E (td_atts desc0) values xs) (Hf : formed desc0 values xs src).
Context (Hmrow : packs_row E more mvals mxs) (Hplain : row_all not_external more mvals).
Local Abbreviation n := (natts desc0).
Local Abbreviation body := (lay 0 (td_atts desc0) xs).
Local Abbreviation nulls := (null_at (values ++ mvals)).

Lemma expand_natts : natts desc = n + zlen more /\ 0 <= n /\ 0 < zlen more /\ zlen values = n /\ zlen mvals = zlen more.
Proof.
  destruct (packs_row_length _ _ _ _ Hrow) as [Hl _]. destruct (packs_row_length _ _ _ _ Hmrow) as [Hl' _].
  unfold natts. rewrite Hext, zlen_app. pose proof (zlen_nonneg (td_atts desc0)). pose proof (zlen_nonneg more).
  assert (zlen more <> 0) by (intros Hz; apply Hmore; destruct more as [|a l]; [done|rewrite zlen_cons in Hz; pose proof (zlen_nonneg l); lia]).
  unfold zlen in *. lia.
Qed.

Lemma expand_bits_ok m :
  BITMAPLEN (natts desc) <= m ->
  exists bits, expand_bits src n (if HeapTupleHasNulls src then BITMAPLEN n else 0) (zrep m 0) = Ok (bit_state bits n) /\
    zlen bits = m /\ bits_upto bits n nulls.
Proof.
  intros Hm. destruct expand_natts as (Hd & Hn & Hpos & Hv & _). unfold expand_bits.
  assert (Hle : BITMAPLEN n <= m) by (unfold BITMAPLEN in *; lia).
  assert (Hmask : Z.shiftl 1 (Z.land (n - 1) 0x07) = if n =? 0 then HIGHBIT else Z.shiftl 1 ((n - 1) mod 8)).
  { rewrite (land_ones_mod (n - 1) 3 0x07) by done. change (2 ^ 3) with 8. destruct (Z.eqb_spec n 0) as [->|]; done. }
  rewrite Hmask. destruct (formed_flags E desc0 values xs src Hrow Hf) as (Hhn & _). rewrite Hhn.
  assert (Happ : forall j, 0 <= j < n -> null_at values j = nulls j) by (intros j Hj; rewrite null_at_app by lia; done).
  destruct (has_nulls desc0 values) eqn:Hnull.
  - pose proof (formed_bits _ _ _ _ Hf Hnull) as Hbits.
    assert (Hn1 : 0 < n).
    { destruct (Z.eq_dec n 0) as [H0|]; [|lia]. unfold has_nulls in Hnull. unfold natts, zlen in H0.
      replace (length (td_atts desc0)) with 0%nat in Hnull by lia. done. }
    assert (Hlen : BITMAPLEN n <= zlen (t_bits (t_data src))).
    { destruct Hbits as (_ & Hset & _). destruct (Hset (n - 1)) as (b & Hrd & _); [lia|]. apply rd_Ok in Hrd as [Hrd _].
      unfold BITMAPLEN. lia. }
    assert ((BITMAPLEN n >? 0) = true) as -> by (unfold BITMAPLEN; lia).
    rewrite rdn_Ok by (unfold BITMAPLEN in *; lia). bind. unfold zslice. change (Z.to_nat 0) with 0%nat. rewrite drop_0.
    set (old := take _ _). assert (Hold : zlen old = BITMAPLEN n) by (unfold old, zlen in *; rewrite length_take; unfold BITMAPLEN in *; lia).
    pose proof (wr_append [] (zrep m 0) old) as Hwr. cbn [app] in Hwr. change (zlen (@nil Z)) with 0 in Hwr.
    rewrite Hwr by (rewrite zlen_zrep; lia). bind. eexists. split; [unfold bit_state, BITMAPLEN; done|].
    split; [rewrite zlen_app, Hold; unfold zlen, zrep in *; rewrite length_drop, length_replicate; lia|].
    apply (bits_upto_ext _ _ (null_at values)); [done|]. apply bits_upto_copy; try done. apply Forall_drop, Forall_replicate. unfold is_byte. lia.
  - change (0 >? 0) with false. cbv iota.
    destruct (bits_upto_ones n m nulls) as (bits & Hb & Hz & Hup); [done|done| |].
    { intros j Hj. rewrite <- Happ by done. apply not_null_at. by rewrite <- (has_nulls_row E desc0 values xs). }
    destruct (wr (zrep m 0) 0 (zrep (BITMAPLEN n) 255)) as [b|?| |]; try done. cbn [mbind res_bind] in Hb |- *.
    rewrite Hb. bind. exists bits. split; [unfold bit_state, BITMAPLEN; done|]. done.
Qed.

(** The missing values of the descriptor are those of the columns added. *)
Definition missing_are : Prop :=
  match td_missing desc with
  | Some l => length l = length (td_atts desc) /\ drop (length (td_atts desc0)) l = mvals
  | None => mvals = map (fun _ => None) more
  end.

Lemma existsb_nulls : existsb null_col (values ++ mvals) = HeapTupleHasNulls src || existsb null_col mvals.
Proof.
  rewrite existsb_app. destruct (formed_flags E desc0 values xs src Hrow Hf) as (-> & _).
  by rewrite (has_nulls_row E desc0 values xs Hrow).
Qed.

Lemma expand_sizes :
  missing_are ->
  exists c, match td_missing desc with
     | Some attrmiss =>
         let '(k, hasNulls) := first_missing (drop (Z.to_nat n) (take (Z.to_nat (natts desc)) attrmiss)) (HeapTupleHasNulls src) in
         missing_len (drop k (drop (Z.to_nat n) (td_atts desc))) (drop k (drop (Z.to_nat n) attrmiss)) (zlen body) hasNulls
     | None => Ok (zlen body, true)
     end = Ok (c, existsb null_col (values ++ mvals)) /\
    zlen body + zlen (lay (zlen body) more mxs) <= c /\ (forall b, exists b', missing_len more mvals (zlen body) b = Ok (c, b')).
Proof.
  intros Hmiss. destruct expand_natts as (Hd & Hn & Hpos & Hv & Hm). rewrite existsb_nulls. unfold missing_are in Hmiss.
  assert (Hn0 : Z.to_nat n = length (td_atts desc0)) by (unfold natts, zlen; lia).
  assert (Hdm : drop (Z.to_nat n) (td_atts desc) = more) by (rewrite Hn0, Hext; apply drop_app_length).
  pose proof (zlen_nonneg body) as Hb0.
  destruct (td_missing desc) as [l|].
  - destruct Hmiss as [Hl Hmv]. rewrite (take_ge l) by (rewrite Hl; unfold natts, zlen; lia). rewrite Hdm, Hn0, Hmv.
    pose proof (first_missing_ok mvals more (zlen body) (HeapTupleHasNulls src)) as Hfm.
    destruct (first_missing mvals (HeapTupleHasNulls src)) as [k b']. rewrite Hfm by (unfold zlen in Hm; lia).
    destruct (missing_len_ok E more mvals mxs Hmrow Hplain (zlen body) (zlen body)) as (c & Hlen & Hc); [lia|].
    exists c. rewrite Hlen. split; [done|]. split; [done|]. intros b. by eexists.
  - exists (zlen body). assert (Hnone : existsb null_col mvals = true) by (rewrite Hmiss; by destruct more).
    rewrite Hnone, orb_true_r. split; [done|]. clear - Hmrow Hmiss. subst mvals. induction more as [|a l IH] in mxs, Hmrow |- *.
    + inversion Hmrow; subst. cbn [lay map missing_len]. change (zlen (@nil Z)) with 0. split; [lia|]. intros b. by eexists.
    + inversion Hmrow as [|? ? x ? ? xs' Hx Hr]; subst. destruct x as [[? ?]|]; [done|]. cbn [lay map missing_len].
      destruct (IH xs' Hr) as [IH1 IH2]. by split.
Qed.

Lemma expand_ok header extra :
  0 <= header <= 23 -> 0 <= extra <= 24 -> missing_are ->
  (exists c b, missing_len more mvals (zlen body) false = Ok (c, b) /\ c + 512 <= MaxAllocSize) ->
  let hasnull := existsb null_col (values ++ mvals) in
  let hoff := MAXALIGN ((if hasnull then BITMAPLEN (natts desc) else 0) + header) in
  exists c s, expand_tuple E src desc header extra = Ok (hoff, hoff + c, s, zrep (hoff - header) 0) /\
    zlen (lay 0 (td_atts desc) (xs ++ mxs)) <= c /\ c + 512 <= MaxAllocSize /\
    fs_area s = lay 0 (td_atts desc) (xs ++ mxs) ++ zrep (c - zlen (lay 0 (td_atts desc) (xs ++ mxs))) 0 /\
    fs_infomask s = Z.lor (t_infomask (t_data src)) (row_mask more mxs) /\
    zlen (filled_bits s (zrep (hoff - header) 0)) = hoff - header /\
    (hasnull = true -> bits_upto (filled_bits s (zrep (hoff - header) 0)) (natts desc) nulls).
Proof.
  intros Hh Hx Hmiss (cm & bm & Hcm & Hfit) hasnull hoff. destruct expand_natts as (Hd & Hn & Hpos & Hv & Hm).
  destruct (expand_sizes Hmiss) as (c & Hsz & Hc & Hlen). fold hasnull in Hsz.
  destruct (Hlen false) as (bl & Hcm'). rewrite Hcm' in Hcm. injection Hcm as <- _.
  assert (Hn0 : Z.to_nat n = length (td_atts desc0)) by (unfold natts, zlen; lia).
  assert (Hdm : drop (Z.to_nat n) (td_atts desc) = more) by (rewrite Hn0, Hext; apply drop_app_length).
  pose proof (zlen_nonneg body) as Hb0.
  unfold expand_tuple. rewrite (formed_natts _ _ _ _ Hf).
  replace (t_len src - t_hoff (t_data src)) with (zlen body) by (rewrite (formed_len _ _ _ _ Hf), (formed_body _ _ _ _ Hf); lia).
  rewrite Hsz. bind. fold hoff.
  assert (Hhoff : 0 <= hoff <= 300 /\ (hasnull = true -> BITMAPLEN (natts desc) <= hoff - header) /\ header <= hoff).
  { unfold hoff, MAXALIGN, MAXIMUM_ALIGNOF, BITMAPLEN. rewrite typealign_8. unfold MaxTupleAttributeNumber in Hnat. destruct hasnull; lia. }
  pose proof (zlen_nonneg (lay (zlen body) more mxs)).
  rewrite palloc_ok by lia. bind.
  assert (Hlay : lay 0 (td_atts desc) (xs ++ mxs) = body ++ lay (zlen body) more mxs)
    by (rewrite Hext; rewrite (lay_app E _ values xs more mxs Hrow) by lia; by rewrite Z.add_0_l).
  assert (Hbits : exists ob, bitmap_ok ob n (zlen more) nulls /\ (if hasnull then exists b, ob = Some b /\ zlen b = hoff - header else ob = None) /\
    (if (if hasnull then BITMAPLEN (natts desc) else 0) >? 0
     then x ← expand_bits src n (if HeapTupleHasNulls src then BITMAPLEN n else 0) (zrep (hoff - header) 0); Ok (Some x) else Ok None)
    = Ok (bit_ptr ob n)).
  { destruct hasnull eqn:Hnull.
    - assert ((BITMAPLEN (natts desc) >? 0) = true) as -> by (unfold BITMAPLEN; lia).
      destruct (expand_bits_ok (hoff - header)) as (bits & -> & Hz & Hup); [by apply Hhoff|].
      exists (Some bits). split; [|by split; [exists bits|]]. split; [done|]. destruct Hhoff as (_ & Hcap & _). specialize (Hcap eq_refl).
      unfold BITMAPLEN in Hcap. lia.
    - exists None. split; [|done]. intros j _. unfold hasnull in Hnull. by apply not_null_at. }
  destruct Hbits as (ob & Hob & Hsize & ->). bind. rewrite (formed_body _ _ _ _ Hf). rewrite rdn_all by done. bind.
  pose proof (wr_zeros [] c 0 body) as Hwr. cbn [app] in Hwr. change (zlen (@nil Z)) with 0 in Hwr. rewrite Hwr by lia.
  change (zrep (0 - 0) 0) with (@nil Z). cbn [app]. bind. rewrite Hdm.
  assert (Hmv : match td_missing desc with Some attrmiss => drop (Z.to_nat n) attrmiss | None => map (fun _ => None) more end = mvals).
  { unfold missing_are in Hmiss. destruct (td_missing desc); [|done]. rewrite Hn0. by destruct Hmiss. }
  rewrite Hmv. replace (0 + c - 0 - zlen body) with (c - zlen body) by lia.
  destruct (fill_loop_ok E nulls more mvals mxs Hmrow ob n body (c - zlen body) (t_infomask (t_data src)))
    as (ob' & Hsame & Hob' & ->); [done|done| |lia|].
  { intros k v Hk. unfold null_at. rewrite lookup_app_r by (unfold zlen in Hv; lia).
    replace (Z.to_nat (n + Z.of_nat k) - length values)%nat with k by (unfold zlen in Hv; lia). by rewrite Hk. }
  bind. eexists c, _. split; [done|]. unfold filled_bits. cbn [fs_area fs_infomask fs_bit]. rewrite Hlay. split_and!.
  - rewrite zlen_app. lia.
  - done.
  - f_equal. f_equal. rewrite zlen_app. lia.
  - done.
  - destruct ob' as [b'|], ob as [b|]; try done; cbn [bit_ptr bit_state]; [|rewrite zlen_zrep; lia].
    destruct hasnull; [|done]. destruct Hsize as (b0 & [= <-] & Hz). cbn in Hsame. lia.
  - intros Hnull. rewrite Hnull in Hsize. destruct Hsize as (b & -> & Hz). destruct ob' as [b'|]; [|done]. cbn [bit_ptr bit_state].
    rewrite Hd. by destruct Hob' as [? _].
Qed.

(** ** Reading an expanded tuple *)

Lemma expanded_nulls im :
  im = Z.lor (t_infomask (t_data src)) (row_mask more mxs) ->
  negb (Z.land im HEAP_HASNULL =? 0) = existsb null_col (values ++ mvals).
Proof.
  intros ->. rewrite existsb_nulls, (land_bit _ 0), Z.lor_spec by done. unfold HeapTupleHasNulls. rewrite (land_bit _ 0) by done. f_equal.
  destruct (packs_row_length _ _ _ _ Hmrow) as [_ Hl]. destruct (row_mask_bits more mxs Hl) as (-> & _).
  by apply (packs_row_nulls E more).
Qed.
End expand_ok.

(** A tuple whose data may be followed by unused space. *)
Lemma deform_laid E desc values xs t tup :
  desc_ok desc -> packs_row E (td_atts desc) values xs -> t_body (t_data tup) = lay 0 (td_atts desc) xs ++ t ->
  HeapTupleHeaderGetNatts (t_data tup) = natts desc -> HeapTupleHasNulls tup = existsb null_col values ->
  (existsb null_col values = true -> bits_upto (t_bits (t_data tup)) (natts desc) (null_at values)) ->
  exists desc', heap_deform_tuple tup desc = Ok (view 0 (td_atts desc) values xs t, desc') /\ same_desc desc desc' /\ desc_ok desc'.
Proof.
  intros Hdesc Hrow Hbody Hn Hnulls Hbits. unfold heap_deform_tuple. rewrite Hn, Z.min_id, Z.sub_diag.
  rewrite (take_ge (td_atts desc)) by (unfold natts, zlen; lia). rewrite Hbody.
  destruct (packs_row_length _ _ _ _ Hrow) as [Hl _].
  assert (Hk : nulls_known (HeapTupleHasNulls tup) (t_bits (t_data tup)) 0 values).
  { intros k v Hk. pose proof (lookup_lt_Some _ _ _ Hk). rewrite Hnulls.
    assert (Hat : null_at values (Z.of_nat k) = null_col v) by (unfold null_at; by rewrite Nat2Z.id, Hk).
    destruct (existsb null_col values) eqn:He.
    - rewrite (att_isnull_bits _ (natts desc) (null_at values)); [by rewrite Z.add_0_l, Hat|by apply Hbits|unfold natts, zlen; lia].
    - by rewrite (not_null_at values _ He) in Hat; rewrite <- Hat. }
  destruct (deform_loop_ok E (t_bits (t_data tup)) (HeapTupleHasNulls tup) [] _ _ _ Hrow [] t 0 false (td_cache desc) Hk)
    as (cache' & Heq & Hc); [by rewrite app_nil_r|].
  cbn [app] in Heq. change (zlen (@nil Z)) with 0 in *. rewrite Heq. bind. change (Z.to_nat 0) with 0%nat. cbn [missing_loop]. bind. cbn [fst snd].
  eexists. rewrite app_nil_r. split; [reflexivity|]. split; [by eexists|]. unfold desc_ok. cbn [set_cache td_atts td_cache snd].
  by rewrite app_nil_r in Hc.
Qed.

(** ** Reading the old tuple *)

(** atthasmissing says whether there is a missing value; such a value is no cstring. *)
Definition flagged (att : attribute) (m : option Datum) : Prop :=
  atthasmissing att = negb (null_col m) /\ (null_col m = false -> attlen att <> -2).

Lemma getmissing_ok E desc i att m ct :
  td_atts desc !! i = Some att -> flagged att m ->
  (match td_missing desc with Some l => l !! i = Some m | None => m = None end) ->
  col_holds E att m ct -> (forall p, attlen att = -1 -> m = Some (DPtr p) -> not_external p) ->
  exists v, getmissingattr desc (Z.of_nat i + 1) = Ok v /\ col_holds E att v ct.
Proof.
  intros Ha [Hflag Hcs] Hm Hc Hne. unfold getmissingattr, TupleDescAttr.
  replace (Z.of_nat i + 1 - 1) with (Z.of_nat i) by lia. assert ((0 <=? Z.of_nat i) = true) as -> by (apply Z.leb_le; lia). rewrite Nat2Z.id, Ha. bind.
  rewrite Hflag. destruct m as [d|]; cbn [null_col negb] in *; [|by exists None].
  destruct (td_missing desc) as [l|]; [|done]. rewrite Hm.
  inversion Hc as [|z Hb Hl Hz|p t Hb Hl Hz|s t Hb Hl Has Hs|p data Hb Hl Hh]; subst; rewrite Hb.
  - eexists. split; [done|by apply ch_word].
  - cbn [DatumGetPointer]. bind. destruct (Z.gtb_spec (attlen att) 0); [|lia]. bind. rewrite rdn_exact by done. bind.
    eexists. split; [done|]. pose proof (ch_fixed E att p [] Hb Hl Hz) as H'. by rewrite app_nil_r in H'.
  - by destruct (Hcs eq_refl).
  - cbn [DatumGetPointer]. bind. rewrite Hl. cbn [Z.gtb Z.compare]. specialize (Hne p Hl eq_refl). unfold not_external in Hne.
    destruct (holds_inrow E p data Hh) as [[Hin _]|Hx]; [|congruence].
    destruct (copy_inrow (e_cfg E) p data Hin) as (v' & Hcopy & Hin' & _). unfold copy_datum in Hcopy.
    destruct (VARSIZE_ANY p) as [sz|?| |]; try done. cbn [mbind res_bind] in Hcopy |- *.
    destruct (palloc sz) as [[]|?| |]; try done. cbn [mbind res_bind] in Hcopy. rewrite Hcopy. bind.
    eexists. split; [done|]. apply ch_varlena; try done. by apply inrow_holds.
Qed.

Lemma missing_loop_holds E desc more mvals ms : row_holds E more mvals ms -> row_all not_external more mvals ->
  Forall2 flagged more mvals -> forall pre mpre,
  td_atts desc = pre ++ more -> length mpre = length pre ->
  (match td_missing desc with Some l => l = mpre ++ mvals | None => mvals = map (fun _ => None) more end) ->
  exists rest, missing_loop desc (zlen pre) (length more) = Ok rest /\ row_holds E more rest ms.
Proof.
  induction 1 as [|att m ct more mvals ms Hc _ IH]; intros Hall Hfl pre mpre Hd Hl Hm; [by exists []; split; [|constructor]|].
  inversion Hall as [|? ? ? ? Hne Hrest]; subst. inversion Hfl as [|? ? ? ? Hf Hfl']; subst. cbn [length missing_loop].
  destruct (getmissing_ok E desc (length pre) att m ct) as (v & Hv & Hcv); try done.
  { by rewrite Hd, list_lookup_middle. }
  { destruct (td_missing desc) as [l|]; [|by injection Hm]. by rewrite Hm, list_lookup_middle. }
  change (Z.of_nat (length pre)) with (zlen pre) in Hv. rewrite Hv. bind.
  destruct (IH Hrest Hfl' (pre ++ [att]) (mpre ++ [m])) as (rest & Hr & Hrow).
  - by rewrite <- app_assoc.
  - rewrite !length_app. simpl. lia.
  - destruct (td_missing desc) as [l|]; [by rewrite <- app_assoc|by injection Hm].
  - rewrite zlen_app in Hr. change (zlen [att]) with 1 in Hr. rewrite Hr. bind. eexists. split; [done|]. by constructor.
Qed.

(** ** Properties *)

(** [src] was formed before the columns [more] were added to the table, whose missing
    values are [mvals]. *)
Record expandable (E : env) (desc0 desc : tupledesc) (more : list attribute) (values mvals : list (option Datum))
    (cs ms : list content) (src : HeapTuple) : Prop := {
  ex_extends : extends desc0 desc more;
  ex_more : more <> [];
  ex_desc : desc_ok desc;
  ex_natts : natts desc <= MaxTupleAttributeNumber;
  ex_formed : heap_form_tuple E desc0 values = Ok src;
  ex_fits : row_fits E desc0 values;
  ex_holds : row_holds E (td_atts desc0) values cs;
  ex_missing : missing_are desc0 desc more mvals;
  ex_mholds : row_holds E more mvals ms;
  ex_plain : row_all not_external more mvals;
  ex_flagged : Forall2 flagged more mvals;
  ex_size : exists c b, missing_len more mvals (t_len src - t_hoff (t_data src)) false = Ok (c, b) /\ c + 512 <= MaxAllocSize
}.

Lemma get_set_natts n : 0 <= n <= MaxTupleAttributeNumber -> Z.land (SetNatts 0 n) HEAP_NATTS_MASK = n.
Proof.
  unfold MaxTupleAttributeNumber. intros Hn. unfold SetNatts. rewrite Z.land_0_l, Z.lor_0_l.
  unfold HEAP_NATTS_MASK. rewrite (land_ones_mod _ 11) by done. by rewrite Z.mod_small by lia.
Qed.

Section expandable.
Context (E : env) (desc0 desc : tupledesc) (more : list attribute) (values mvals : list (option Datum)).
Context (cs ms : list content) (src : HeapTuple).
Context (Hex : expandable E desc0 desc more values mvals cs ms src).

(** The source as a formed tuple, and the row that the expanded one holds. *)
Lemma expandable_rows :
  exists xs mxs, packs_row E (td_atts desc0) values xs /\ packs_row E more mvals mxs /\ formed desc0 values xs src /\
    packs_row E (td_atts desc) (values ++ mvals) (xs ++ mxs) /\
    (forall off t, row_holds E (td_atts desc0) (view off (td_atts desc0) values xs t) cs) /\
    (forall t, row_holds E (td_atts desc) (view 0 (td_atts desc) (values ++ mvals) (xs ++ mxs) t) (cs ++ ms)).
Proof.
  destruct (row_holds_packs E _ _ _ (ex_holds _ _ _ _ _ _ _ _ _ Hex)) as (xs & Hp & Hv).
  destruct (row_holds_packs E _ _ _ (ex_mholds _ _ _ _ _ _ _ _ _ Hex)) as (mxs & Hmp & Hmv).
  exists xs, mxs. split; [done|]. split; [done|]. split; [|split; [|split; [done|]]].
  - destruct (ex_fits _ _ _ _ _ _ _ _ _ Hex) as (k & Hk & Hfit). unfold heap_compute_data_size in Hk.
    rewrite (data_size_loop_ok E _ _ xs) in Hk by done. injection Hk as <-.
    assert (Hn : natts desc0 <= MaxTupleAttributeNumber).
    { pose proof (ex_natts _ _ _ _ _ _ _ _ _ Hex) as Hn. unfold natts in *. rewrite (ex_extends _ _ _ _ _ _ _ _ _ Hex), zlen_app in Hn.
      pose proof (zlen_nonneg more). lia. }
    pose proof (form_ok E desc0 values xs Hn Hp ltac:(lia)) as Hf. rewrite (ex_formed _ _ _ _ _ _ _ _ _ Hex) in Hf. exact Hf.
  - rewrite (ex_extends _ _ _ _ _ _ _ _ _ Hex). by apply packs_row_app.
  - intros t. rewrite (ex_extends _ _ _ _ _ _ _ _ _ Hex). rewrite (view_app E _ values xs more mvals mxs t Hp) by lia. by apply row_holds_app.
Qed.

(** The old tuple, read with the new descriptor. *)
Lemma source_row :
  exists vals d, heap_deform_tuple src desc = Ok (vals, d) /\ row_holds E (td_atts desc) vals (cs ++ ms).
Proof.
  destruct expandable_rows as (xs & mxs & Hp & Hmp & Hf & _ & Hv & _).
  destruct (missing_loop_holds E desc more mvals ms (ex_mholds _ _ _ _ _ _ _ _ _ Hex) (ex_plain _ _ _ _ _ _ _ _ _ Hex)
    (ex_flagged _ _ _ _ _ _ _ _ _ Hex) (td_atts desc0)
    (match td_missing desc with Some l => take (length (td_atts desc0)) l | None => map (fun _ => None) (td_atts desc0) end))
    as (rest & Hr & Hrow).
  - apply (ex_extends _ _ _ _ _ _ _ _ _ Hex).
  - pose proof (ex_missing _ _ _ _ _ _ _ _ _ Hex) as Hm. unfold missing_are in Hm.
    destruct (td_missing desc) as [l|]; [|by rewrite length_map]. destruct Hm as [Hl _]. rewrite length_take, Hl.
    rewrite (ex_extends _ _ _ _ _ _ _ _ _ Hex), length_app. lia.
  - pose proof (ex_missing _ _ _ _ _ _ _ _ _ Hex) as Hm. unfold missing_are in Hm.
    destruct (td_missing desc) as [l|]; [|done]. destruct Hm as [_ <-]. by rewrite take_drop.
  - destruct (deform_formed E desc0 desc more values xs src (ex_extends _ _ _ _ _ _ _ _ _ Hex) (ex_desc _ _ _ _ _ _ _ _ _ Hex) Hp Hf rest Hr)
      as (d & Heq & _). eexists _, d. split; [done|]. rewrite (ex_extends _ _ _ _ _ _ _ _ _ Hex). by apply row_holds_app.
Qed.

(** Any tuple made of what expand_tuple has filled in reads as the row. *)
Lemma expanded_row header extra :
  0 <= header <= 23 -> 0 <= extra <= 24 ->
  exists hoff c s, expand_tuple E src desc header extra = Ok (hoff, hoff + c, s, zrep (hoff - header) 0) /\
    0 <= hoff /\ hoff + (23 - header) < 256 /\ zlen (fs_area s) = c /\ c + 512 <= MaxAllocSize /\
    forall tup, t_body (t_data tup) = fs_area s -> t_infomask (t_data tup) = fs_infomask s ->
      t_infomask2 (t_data tup) = SetNatts 0 (natts desc) -> t_bits (t_data tup) = filled_bits s (zrep (hoff - header) 0) ->
      HeapTupleHeaderGetNatts (t_data tup) = natts desc /\
      exists vals d, heap_deform_tuple tup desc = Ok (vals, d) /\ row_holds E (td_atts desc) vals (cs ++ ms).
Proof.
  intros Hh Hx. destruct expandable_rows as (xs & mxs & Hp & Hmp & Hf & Hall & _ & Hv).
  pose proof (ex_natts _ _ _ _ _ _ _ _ _ Hex) as Hn. pose proof (zlen_nonneg (td_atts desc)) as Hn0. fold (natts desc) in Hn0.
  pose proof (ex_size _ _ _ _ _ _ _ _ _ Hex) as Hsize.
  replace (t_len src - t_hoff (t_data src)) with (zlen (lay 0 (td_atts desc0) xs)) in Hsize
    by (rewrite (formed_len _ _ _ _ Hf), (formed_body _ _ _ _ Hf); lia).
  destruct (expand_ok E desc0 desc more values mvals xs mxs src (ex_extends _ _ _ _ _ _ _ _ _ Hex) (ex_more _ _ _ _ _ _ _ _ _ Hex) Hn Hp Hf Hmp
    (ex_plain _ _ _ _ _ _ _ _ _ Hex) header extra Hh Hx (ex_missing _ _ _ _ _ _ _ _ _ Hex) Hsize)
    as (c & s & Heq & Hc & Hmax & Harea & Him & Hz & Hbits).
  set (hoff := MAXALIGN _) in *. exists hoff, c, s. split; [done|]. split; [|split; [|split; [|split; [done|]]]].
  - unfold hoff, MAXALIGN, MAXIMUM_ALIGNOF, BITMAPLEN. rewrite typealign_8. destruct (existsb null_col _); lia.
  - unfold hoff, MAXALIGN, MAXIMUM_ALIGNOF, BITMAPLEN. rewrite typealign_8. unfold MaxTupleAttributeNumber in Hn. destruct (existsb null_col _); lia.
  - rewrite Harea. pose proof (zlen_nonneg (lay 0 (td_atts desc) (xs ++ mxs))). zl.
  - intros tup Hb Hi Hi2 Hbt. assert (Hg : HeapTupleHeaderGetNatts (t_data tup) = natts desc)
      by (unfold HeapTupleHeaderGetNatts; rewrite Hi2; by apply get_set_natts).
    split; [done|]. edestruct (deform_laid E desc (values ++ mvals) (xs ++ mxs)) as (d & Heq' & _);
      [apply (ex_desc _ _ _ _ _ _ _ _ _ Hex)|done|by rewrite Hb|done| | |].
    + unfold HeapTupleHasNulls. rewrite Hi. by apply (expanded_nulls E desc0 more values mvals xs mxs src).
    + intros He. rewrite Hbt. by apply Hbits.
    + eexists _, d. split; [done|]. apply Hv.
Qed.
End expandable.

(** A tuple stored before columns were added, read with the table's present
    descriptor, and the tuple that heap_expand_tuple or minimal_expand_tuple makes of it,
    hold the same row: the old columns, and the missing values of the added ones. *)
Theorem heap_expand_tuple_correct E desc0 desc more values mvals cs ms src :
  expandable E desc0 desc more values mvals cs ms src ->
  (exists vals d, heap_deform_tuple src desc = Ok (vals, d) /\ row_holds E (td_atts desc) vals (cs ++ ms)) /\
  (exists tup, heap_expand_tuple E src desc = Ok tup /\ HeapTupleHeaderGetNatts (t_data tup) = natts desc /\
     exists vals d, heap_deform_tuple tup desc = Ok (vals, d) /\ row_holds E (td_atts desc) vals (cs ++ ms)) /\
  (exists mtup tup, minimal_expand_tuple E src desc = Ok mtup /\ heap_tuple_from_minimal_tuple mtup = Ok tup /\
     exists vals d, heap_deform_tuple tup desc = Ok (vals, d) /\ row_holds E (td_atts desc) vals (cs ++ ms)).
Proof.
  intros Hex. split; [by apply (source_row _ _ _ _ _ _ _ _ _ Hex)|]. split.
  - destruct (expanded_row _ _ _ _ _ _ _ _ _ Hex SizeofHeapTupleHeader HEAPTUPLESIZE) as (hoff & c & s & Heq & _ & _ & _ & _ & Hrow);
      [done|done|]. unfold heap_expand_tuple. rewrite Heq. bind. eexists. split; [done|]. by apply Hrow.
  - destruct (expanded_row _ _ _ _ _ _ _ _ _ Hex SizeofMinimalTupleHeader 0) as (hoff & c & s & Heq & Hh & Hh2 & Hc & Hmax & Hrow);
      [done|done|]. unfold minimal_expand_tuple. rewrite Heq. bind. eexists _, _. split; [reflexivity|]. unfold heap_tuple_from_minimal_tuple.
    cbn [mt_len mt_body mt_hoff mt_infomask2 mt_infomask mt_bits]. pose proof (zlen_nonneg (fs_area s)).
    unfold SizeofMinimalTupleHeader, MINIMAL_TUPLE_PADDING, MINIMAL_TUPLE_OFFSET in *. rewrite (Z.mod_small (hoff + _)) by lia.
    rewrite palloc_ok by (unfold HEAPTUPLESIZE; lia). bind. rewrite rdn_all by lia. bind.
    split; [done|]. by apply Hrow.
Qed.

(** A minimal tuple is a tuple without its system columns: heap_form_minimal_tuple builds
    what heap_form_tuple builds, converting it to a tuple and back loses nothing, and
    copies of either are equal to the original. *)
Theorem minimal_tuple_correct E desc values cs :
  natts desc <= MaxTupleAttributeNumber -> row_holds E (td_atts desc) values cs -> row_fits E desc values ->
  exists tup mtup, heap_form_tuple E desc values = Ok tup /\ heap_form_minimal_tuple E desc values = Ok mtup /\
    heap_tuple_from_minimal_tuple mtup = Ok (no_system tup) /\
    minimal_tuple_from_heap_tuple (no_system tup) = Ok mtup /\ heap_copy_minimal_tuple mtup = Ok mtup /\
    heap_copytuple (Some tup) = Ok (Some tup) /\ heap_copytuple_with_tuple (Some tup) = Ok (Some tup).
Proof.
  intros Hn Hrow (k & Hk & Hfit). destruct (row_holds_packs E _ _ _ Hrow) as (xs & Hp & _).
  unfold heap_compute_data_size in Hk. rewrite (data_size_loop_ok E _ _ xs) in Hk by done. injection Hk as <-.
  destruct (form_minimal E desc values xs Hn Hp ltac:(lia)) as (tup & m & Hform & Hf & Hmin & ->).
  eexists tup, _. split; [done|]. split; [done|].
  unfold heap_tuple_from_minimal_tuple, minimal_tuple_from_heap_tuple, heap_copy_minimal_tuple, heap_copytuple, heap_copytuple_with_tuple, copy_header, no_system.
  cbn [mt_len mt_body mt_hoff mt_infomask2 mt_infomask mt_bits mt_padding t_len t_data t_body t_hoff t_bits t_infomask t_infomask2 t_ctid].
  pose proof (formed_len _ _ _ _ Hf) as Hlen. destruct (formed_hoff _ _ _ _ Hf) as (Hh & _ & Hh2).
  pose proof (zlen_nonneg (t_bits (t_data tup))). pose proof (zlen_nonneg (t_body (t_data tup))).
  rewrite (formed_body _ _ _ _ Hf) in *. unfold SizeofHeapTupleHeader, MINIMAL_TUPLE_OFFSET, HEAPTUPLESIZE in *.
  rewrite !palloc_ok by lia. bind. rewrite !rdn_all by lia. bind. split_and!; try done.
  - do 2 f_equal. lia.
  - rewrite <- (formed_body _ _ _ _ Hf). by destruct tup as [? ? ? []].
  - rewrite <- (formed_body _ _ _ _ Hf). by destruct tup as [? ? ? []].
Qed.

(** *** Witnesses *)

Definition added_att : attribute := mkAtt 4 true TYPALIGN_INT TYPSTORAGE_PLAIN 0 false true.

Lemma sample_expandable :
  expandable sample_env sample_desc added_desc [added_att] sample_row [Some (DVal 7)] sample_contents [CWord 7] sample_tuple.
Proof.
  split.
  - reflexivity.
  - discriminate.
  - unfold desc_ok. cbn. repeat (left; split; [lia|]). done.
  - vm_compute. discriminate.
  - vm_compute. reflexivity.
  - exact sample_fits.
  - exact sample_row_holds.
  - split; reflexivity.
  - apply rh_cons; [|apply rh_nil]. by apply (ch_word sample_env added_att).
  - constructor; [|constructor]. discriminate.
  - constructor; [|constructor]. split; [reflexivity|discriminate].
  - exists 32, false. split; [vm_compute; reflexivity|vm_compute; discriminate].
Qed.

Lemma heap_expand_tuple_correct_witness :
  exists tup, heap_expand_tuple sample_env sample_tuple added_desc = Ok tup /\ HeapTupleHeaderGetNatts (t_data tup) = 5.
Proof.
  destruct (heap_expand_tuple_correct _ _ _ _ _ _ _ _ _ sample_expandable) as (_ & (tup & Heq & Hn & _) & _).
  exists tup. split; [exact Heq|exact Hn].
Defined.

Lemma minimal_tuple_correct_witness :
  exists tup mtup, heap_form_minimal_tuple sample_env sample_desc sample_row = Ok mtup /\
    heap_tuple_from_minimal_tuple mtup = Ok (no_system tup) /\ t_len tup = mt_len mtup + 8.
Proof.
  destruct (minimal_tuple_correct sample_env sample_desc sample_row sample_contents ltac:(vm_compute; discriminate)
    sample_row_holds sample_fits) as (tup & mtup & Hf & Hm & Hc & Hb & _).
  exists tup, mtup. split; [exact Hm|]. split; [exact Hc|].
  assert (E : (m ← heap_form_minimal_tuple sample_env sample_desc sample_row; Ok (mt_len m)) = Ok 43) by (vm_compute; reflexivity).
  assert (E' : (t ← heap_form_tuple sample_env sample_desc sample_row; Ok (t_len t)) = Ok 51) by (vm_compute; reflexivity).
  rewrite Hm in E. rewrite Hf in E'. cbn [mbind res_bind] in E, E'. injection E as E. injection E' as E'. rewrite E, E'. reflexivity.
Defined.
