(* ===== verification/HeapToastRounds.v ===== *)
(** The four rounds of heap_toast_insert_or_update.

    [col_state] is the invariant of a column: a column the toaster is done with holds
    its contents in a form that may be stored, any other is in line, with its size
    known.  Every step moves one column from one state to a later one, so that every
    loop ends, and keeps what the columns hold, in whatever database the step leaves. *)

From S2P Require Import Prelude Rle Varatt Pglz PglzHist PglzItems PglzCodec ToastCompression Oids ToastStore Detoast ToastSave.
From S2P Require Import HeapTuple HeapTupleForm HeapTupleDeform HeapToast HeapToastValues.

(** ** Flags and counting *)

Lemma flag_lor_l x g f : flag (Z.lor x g) f = flag x f || flag g f.
Proof.
  unfold flag. rewrite Z.land_lor_distr_l. destruct (Z.eqb_spec (Z.lor (Z.land x f) (Z.land g f)) 0) as [H|H].
  - apply Z.lor_eq_0_iff in H as [-> ->]. done.
  - destruct (Z.eqb_spec (Z.land x f) 0) as [Hx|], (Z.eqb_spec (Z.land g f) 0) as [Hg|]; try done.
    rewrite Hx, Hg in H. done.
Qed.
Lemma flag_lor_r x g f : flag x (Z.lor g f) = flag x g || flag x f.
Proof. unfold flag. rewrite !(Z.land_comm x). apply flag_lor_l. Qed.

(** How many of the first n columns satisfy P. *)
Fixpoint count (P : nat -> bool) (n : nat) : nat :=
  match n with O => O | S n => ((if P n then 1 else 0) + count P n)%nat end.

Lemma count_le P n : (count P n <= n)%nat.
Proof. induction n as [|n IH]; simpl; [lia|]. destruct (P n); lia. Qed.

Lemma count_mono P Q n : (forall j, (j < n)%nat -> P j = true -> Q j = true) -> (count P n <= count Q n)%nat.
Proof.
  induction n as [|n IH]; intros H; simpl; [lia|]. specialize (IH (fun j Hj => H j ltac:(lia))).
  pose proof (H n ltac:(lia)). destruct (P n), (Q n); lia.
Qed.

Lemma count_lt P Q n i :
  (i < n)%nat -> P i = false -> Q i = true -> (forall j, (j < n)%nat -> P j = true -> Q j = true) ->
  (count P n < count Q n)%nat.
Proof.
  intros Hi Hp Hq. induction n as [|n IH]; intros H; [lia|]. simpl. destruct (decide (i = n)) as [->|].
  - rewrite Hp, Hq. pose proof (count_mono P Q n (fun j Hj => H j ltac:(lia))). lia.
  - specialize (IH ltac:(lia) (fun j Hj => H j ltac:(lia))). pose proof (H n ltac:(lia)).
    destruct (P n), (Q n); lia.
Qed.

(** ** Columns *)

(** A datum that may be stored: in line, or out of line and not to be deleted. *)
Inductive final_value (c : config) (st : store) (dels : list varatt_external) : list Z -> list Z -> Prop :=
| fv_inrow v data : savable c v data -> final_value c st dels v data
| fv_ondisk tp ext data t :
    ok_ondisk tp -> ok_4b_u data -> pointer_to c tp ext data -> stored st tp ext ->
    (forall tp', tp' ∈ dels -> other tp' tp) -> final_value c st dels (mk_ondisk tp ++ t) data.

Inductive col_final (c : config) (st : store) (dels : list varatt_external) (att : attribute)
    : option Datum -> content -> Prop :=
| cf_null : col_final c st dels att None CNull
| cf_fixed v ct : attlen att <> -1 -> (forall E, col_holds E att v ct) -> ct <> CNull -> col_final c st dels att v ct
| cf_varlena p data :
    attbyval att = false -> attlen att = -1 -> final_value c st dels p data ->
    col_final c st dels att (Some (DPtr p)) (CVarlena data).

(** The column's contents can be compressed by its method. *)
Definition compressible (c : config) (att : attribute) (data : list Z) : Prop :=
  bytes data /\ method_ok c data (effective_method c (attcompression att)).

(** A column the toaster leaves alone is one it may not touch, or is out of line. *)
Definition moved (att : attribute) (v : option Datum) : Prop :=
  forall p, v = Some (DPtr p) -> attlen att = -1 -> attstorage att <> TYPSTORAGE_PLAIN ->
  VARATT_IS_EXTERNAL_ONDISK p = Ok true.

Inductive col_state (c : config) (st : store) (dels : list varatt_external) (att : attribute)
    : option Datum -> ToastAttrInfo -> content -> Prop :=
| cs_done v a ct :
    flag (tai_colflags a) TOASTCOL_IGNORE = true -> col_final c st dels att v ct -> moved att v ->
    col_state c st dels att v a ct
| cs_open p a data :
    flag (tai_colflags a) TOASTCOL_IGNORE = false -> attbyval att = false -> attlen att = -1 ->
    attstorage att <> TYPSTORAGE_PLAIN -> savable c p data -> VARSIZE_ANY p = Ok (tai_size a) ->
    tai_compression a = attcompression att -> compressible c att data ->
    col_state c st dels att (Some (DPtr p)) a (CVarlena data).

Section columns.
Context (c : config) (dels : list varatt_external).

Lemma final_keeps st st' v data : keeps st st' -> final_value c st dels v data -> final_value c st' dels v data.
Proof.
  intros Hk [v' d Hi|tp ext d t Hok Hd Hp Hs Ho]; [by constructor|]. apply (fv_ondisk _ _ _ tp ext); try done. by apply Hk.
Qed.
Lemma col_final_keeps st st' att v ct : keeps st st' -> col_final c st dels att v ct -> col_final c st' dels att v ct.
Proof.
  intros Hk [|v' ct' Hl Hh Hn|p data Hb Hl Hf]; [constructor|by apply cf_fixed|]. apply cf_varlena; try done. by eapply final_keeps.
Qed.
Lemma col_state_keeps st st' att v a ct : keeps st st' -> col_state c st dels att v a ct -> col_state c st' dels att v a ct.
Proof.
  intros Hk [v' a' ct' Hi Hf Hm|p a' data]; [|by apply cs_open]. apply cs_done; [done|by eapply col_final_keeps|done].
Qed.

(** What is stored is what is held, in any environment of that configuration and database. *)
Lemma final_holds E st v data :
  e_cfg E = c -> e_store E = st -> final_value c st dels v data -> holds E v data.
Proof.
  intros <- <- [v' d Hi|tp ext d t Hok Hd Hp Hs Ho]; [by apply inrow_holds, savable_inrow|]. by apply holds_direct, (direct_ondisk _ tp ext).
Qed.
Lemma col_final_holds E st att v ct :
  e_cfg E = c -> e_store E = st -> col_final c st dels att v ct -> col_holds E att v ct.
Proof.
  intros Hc Hst [|v' ct' Hl Hh Hn|p data Hb Hl Hf]; [constructor|apply Hh|]. apply ch_varlena; try done. by eapply final_holds.
Qed.
Lemma col_state_final st att v a ct : col_state c st dels att v a ct -> col_final c st dels att v ct.
Proof.
  intros [v' a' ct' Hi Hf _|p a' data Hi Hb Hl Hst Hs Hsz Hcm Hco]; [done|]. apply cf_varlena; try done. by apply fv_inrow.
Qed.
Lemma col_final_null st att v ct : col_final c st dels att v ct -> null_col v = true <-> ct = CNull.
Proof.
  intros [|v' ct' Hl Hh Hn|p data Hb Hl Hf]; [done| |done]. specialize (Hh (Build_env c st ∅ ∅)).
  destruct Hh; done.
Qed.

(** Deleting a doomed entry does not touch a final column. *)
Lemma final_deleted st tp tr v data :
  store_ok st -> st_rels st !! va_toastrelid tp = Some tr -> tp ∈ dels -> final_value c st dels v data ->
  final_value c (set_rel st (toast_delete_rows tr (va_valueid tp))) dels v data.
Proof.
  intros Hst Htr Hin [v' d Hi|tp' ext d t Hok Hd Hp Hs Ho]; [by constructor|].
  apply (fv_ondisk _ _ _ tp' ext); try done. apply deleted_keeps; try done. by apply Ho.
Qed.
Lemma col_final_deleted st tp tr att v ct :
  store_ok st -> st_rels st !! va_toastrelid tp = Some tr -> tp ∈ dels -> col_final c st dels att v ct ->
  col_final c (set_rel st (toast_delete_rows tr (va_valueid tp))) dels att v ct.
Proof.
  intros Hst Htr Hin [|v' ct' Hl Hh Hn|p data Hb Hl Hf]; [constructor|by apply cf_fixed|]. apply cf_varlena; try done.
  by apply final_deleted.
Qed.
End columns.

(** ** Rows *)

Record row_state (c : config) (st : store) (dels : list varatt_external) (atts : list attribute) (cs : list content)
    (values : list (option Datum)) (infos : list ToastAttrInfo) : Prop := {
  rs_values : length values = length atts;
  rs_infos : length infos = length atts;
  rs_contents : length cs = length atts;
  rs_col i att v a ct :
    atts !! i = Some att -> values !! i = Some v -> infos !! i = Some a -> cs !! i = Some ct ->
    col_state c st dels att v a ct
}.

Section candidates.
Context (c : config) (st : store) (dels : list varatt_external).

Lemma savable_varsize p data : savable c p data -> exists n, VARSIZE_ANY p = Ok n /\ 0 < n <= zlen data + 4.
Proof.
  intros [v d [d' t Hd|d' t Hd]|id payload d t Hc Hd Hok Hlt]; unfold VARSIZE_ANY; tags; tags; tags;
    eexists; (split; [reflexivity|]); zl.
Qed.

Lemma savable_size p data size : savable c p data -> VARSIZE_ANY p = Ok size -> 24 < size -> 20 < zlen data.
Proof. intros Hs Hsz Hlt. destruct (savable_varsize p data Hs) as (n & Hn & ?). rewrite Hn in Hsz. injection Hsz as <-. lia. Qed.

Definition is_compressed (p : list Z) : bool := match VARATT_IS_COMPRESSED p with Ok b => b | _ => false end.
Lemma inrow_compressed_test p data :
  inrow c p data -> VARATT_IS_COMPRESSED p = Ok (is_compressed p) /\ (is_compressed p = false -> inline_value p data).
Proof.
  unfold is_compressed, VARATT_IS_COMPRESSED.
  intros [v d Hi|id payload d t Hc Hd Hok]; [|by autorewrite with varatt].
  pose proof Hi as Hi'. destruct Hi; by autorewrite with varatt.
Qed.

(** The storage classes a round looks at. *)
Definition right_storage (check_main : bool) (att : attribute) : bool :=
  if check_main then attstorage att =? TYPSTORAGE_MAIN
  else (attstorage att =? TYPSTORAGE_EXTENDED) || (attstorage att =? TYPSTORAGE_EXTERNAL).

Lemma candidate_done fc cm att v a ct :
  col_state c st dels att v a ct -> flag (tai_colflags a) TOASTCOL_IGNORE = true -> candidate fc cm att v a = Ok false.
Proof.
  intros _ Hi. unfold candidate. destruct fc; [rewrite flag_lor_r|]; by rewrite Hi.
Qed.

Lemma candidate_open fc cm att p a data :
  savable c p data -> flag (tai_colflags a) TOASTCOL_IGNORE = false ->
  candidate fc cm att (Some (DPtr p)) a
  = Ok (negb (fc && (flag (tai_colflags a) TOASTCOL_INCOMPRESSIBLE || is_compressed p)) && right_storage cm att).
Proof.
  intros Hs Hi. apply savable_inrow in Hs. unfold candidate, right_storage.
  assert (Hf : flag (tai_colflags a) (if fc then Z.lor TOASTCOL_IGNORE TOASTCOL_INCOMPRESSIBLE else TOASTCOL_IGNORE)
    = fc && flag (tai_colflags a) TOASTCOL_INCOMPRESSIBLE) by (destruct fc; [rewrite flag_lor_r|]; by rewrite Hi).
  rewrite Hf. cbn [DatumGetPointer]. bind. rewrite (inrow_not_external c p data Hs). bind.
  destruct (inrow_compressed_test p data Hs) as [-> _].
  destruct fc, (flag (tai_colflags a) TOASTCOL_INCOMPRESSIBLE), (is_compressed p), cm;
    cbn [andb orb negb mbind res_bind]; try done;
    destruct (attstorage att =? TYPSTORAGE_MAIN), (attstorage att =? TYPSTORAGE_EXTENDED), (attstorage att =? TYPSTORAGE_EXTERNAL); done.
Qed.

Lemma candidate_ok fc cm att v a ct : col_state c st dels att v a ct -> exists b, candidate fc cm att v a = Ok b.
Proof.
  intros H. destruct (flag (tai_colflags a) TOASTCOL_IGNORE) eqn:Hi.
  - exists false. by eapply candidate_done.
  - destruct H as [v' a' ct' Hi' _ _|p a' data Hi' Hb Hl Hst Hs Hsz Hcm Hco]; [congruence|].
    eexists. by eapply candidate_open.
Qed.

(** What a candidate column is like. *)
Lemma candidate_inv fc cm att v a ct :
  col_state c st dels att v a ct -> candidate fc cm att v a = Ok true ->
  exists p data, v = Some (DPtr p) /\ ct = CVarlena data /\ flag (tai_colflags a) TOASTCOL_IGNORE = false /\
    savable c p data /\ VARSIZE_ANY p = Ok (tai_size a) /\ compressible c att data /\
    tai_compression a = attcompression att /\ attbyval att = false /\ attlen att = -1 /\ attstorage att <> TYPSTORAGE_PLAIN /\
    right_storage cm att = true /\
    (fc = true -> inline_value p data /\ flag (tai_colflags a) TOASTCOL_INCOMPRESSIBLE = false).
Proof.
  intros H Hc. destruct (flag (tai_colflags a) TOASTCOL_IGNORE) eqn:Hi; [by rewrite (candidate_done fc cm att v a ct) in Hc|].
  destruct H as [v' a' ct' Hi' _ _|p a' data Hi' Hb Hl Hst Hs Hsz Hcm Hco]; [congruence|].
  rewrite (candidate_open fc cm att p a' data Hs Hi) in Hc. injection Hc as Hc. apply andb_true_iff in Hc as [Hfc Hrs].
  exists p, data. split_and!; try done. intros ->. cbn [andb] in Hfc. apply negb_true_iff, orb_false_iff in Hfc as [Hin Hnc].
  split; [|done]. by apply (inrow_compressed_test p data (savable_inrow _ _ _ Hs)).
Qed.
End candidates.

(** toast_tuple_find_biggest_attribute finds a candidate column above the least size, if
    there is one. *)
Lemma find_biggest_ok c st dels fc cm atts : forall values infos cs i best size,
  (forall k att v a ct, atts !! k = Some att -> values !! k = Some v -> infos !! k = Some a -> cs !! k = Some ct ->
     col_state c st dels att v a ct) ->
  length values = length atts -> length infos = length atts -> length cs = length atts ->
  0 <= i ->
  exists r, find_biggest fc cm atts values infos i best size = Ok r /\
    ((r = best /\ (forall k att v a, atts !! k = Some att -> values !! k = Some v -> infos !! k = Some a ->
        candidate fc cm att v a = Ok true -> tai_size a <= size)) \/
     (exists k att v a, r = i + Z.of_nat k /\ atts !! k = Some att /\ values !! k = Some v /\ infos !! k = Some a /\
        candidate fc cm att v a = Ok true /\ size < tai_size a)).
Proof.
  induction atts as [|att atts IH]; intros values infos cs i best size Hcol Hv Hi Hc Hpos.
  { exists best. split; [done|]. left. split; [done|]. done. }
  destruct values as [|v values], infos as [|a infos], cs as [|ct cs]; try done. simpl in Hv, Hi, Hc.
  pose proof (Hcol 0%nat att v a ct eq_refl eq_refl eq_refl eq_refl) as H0.
  destruct (candidate_ok c st dels fc cm att v a ct H0) as (b & Hb). cbn [find_biggest]. rewrite Hb. bind.
  assert (Hcol' : forall k att v a ct, atts !! k = Some att -> values !! k = Some v -> infos !! k = Some a -> cs !! k = Some ct ->
     col_state c st dels att v a ct) by (intros k ? ? ? ? ? ? ? ?; by apply (Hcol (S k))).
  destruct (b && (tai_size a >? size)) eqn:Hbig.
  - apply andb_true_iff in Hbig as [-> Hgt]. assert (Hlt : size < tai_size a) by lia.
    destruct (IH values infos cs (i + 1) i (tai_size a) Hcol') as (r & -> & Hr); [lia..|]. exists r. split; [done|]. right.
    destruct Hr as [[-> _]|(k & att' & v' & a' & -> & H1 & H2 & H3 & H4 & H5)].
    + exists 0%nat, att, v, a. split; [lia|done].
    + exists (S k), att', v', a'. split_and!; try done; lia.
  - destruct (IH values infos cs (i + 1) best size Hcol') as (r & -> & Hr); [lia..|]. exists r. split; [done|].
    destruct Hr as [[-> Hall]|(k & att' & v' & a' & -> & H1 & H2 & H3 & H4 & H5)].
    + left. split; [done|]. intros [|k] att' v' a' H1 H2 H3 H4; [|by eapply (Hall k)].
      injection H1 as <-. injection H2 as <-. injection H3 as <-. rewrite Hb in H4. injection H4 as ->. lia.
    + right. exists (S k), att', v', a'. split_and!; try done; lia.
Qed.

(** ** The invariant of the rounds *)

Definition is_open (infos : list ToastAttrInfo) (i : nat) : bool :=
  match infos !! i with Some a => negb (flag (tai_colflags a) TOASTCOL_IGNORE) | None => false end.
Definition open_count (infos : list ToastAttrInfo) : nat := count (is_open infos) (length infos).
Definition del_flags (infos : list ToastAttrInfo) : list bool :=
  map (fun a => flag (tai_colflags a) TOASTCOL_NEEDS_DELETE_OLD) infos.

Lemma row_state_insert c st st' dels atts cs values infos i att v' a' ct :
  row_state c st dels atts cs values infos -> keeps st st' -> atts !! i = Some att -> cs !! i = Some ct ->
  col_state c st' dels att v' a' ct -> row_state c st' dels atts cs (<[i := v']> values) (<[i := a']> infos).
Proof.
  intros [H1 H2 H3 Hcol] Hk Ha Hct Hnew. split; rewrite ?length_insert; try done.
  intros k att' v a ct' Hatt Hv Hi Hc. destruct (decide (k = i)) as [->|Hne].
  - pose proof (lookup_lt_Some _ _ _ Ha). rewrite list_lookup_insert_eq in Hv by lia.
    rewrite list_lookup_insert_eq in Hi by lia. by simplify_eq.
  - rewrite list_lookup_insert_ne in Hv by done. rewrite list_lookup_insert_ne in Hi by done. eapply col_state_keeps; [done|]. by eapply Hcol.
Qed.

Lemma open_count_insert infos i a a' :
  infos !! i = Some a ->
  (flag (tai_colflags a) TOASTCOL_IGNORE = true -> flag (tai_colflags a') TOASTCOL_IGNORE = true) ->
  (open_count (<[i := a']> infos) <= open_count infos)%nat /\
  (flag (tai_colflags a) TOASTCOL_IGNORE = false -> flag (tai_colflags a') TOASTCOL_IGNORE = true ->
   (open_count (<[i := a']> infos) < open_count infos)%nat).
Proof.
  intros Hi Hmono. unfold open_count. rewrite length_insert. pose proof (lookup_lt_Some _ _ _ Hi).
  assert (Hsub : forall j, (j < length infos)%nat -> is_open (<[i := a']> infos) j = true -> is_open infos j = true).
  { intros j _. unfold is_open. destruct (decide (j = i)) as [->|]; [|by rewrite list_lookup_insert_ne].
    rewrite list_lookup_insert_eq, Hi by done. destruct (flag (tai_colflags a) TOASTCOL_IGNORE) eqn:Hf; [|done].
    by rewrite (Hmono eq_refl). }
  split; [by apply count_mono|]. intros Hf Hf'. apply (count_lt _ _ _ i); try done; unfold is_open.
  - rewrite list_lookup_insert_eq by done. by rewrite Hf'.
  - by rewrite Hi, Hf.
Qed.

Lemma del_flags_insert infos i a a' :
  infos !! i = Some a ->
  flag (tai_colflags a') TOASTCOL_NEEDS_DELETE_OLD = flag (tai_colflags a) TOASTCOL_NEEDS_DELETE_OLD ->
  del_flags (<[i := a']> infos) = del_flags infos.
Proof.
  intros Hi Hf. unfold del_flags. rewrite list_fmap_insert. apply list_insert_id. rewrite list_lookup_fmap, Hi. simpl. by rewrite Hf.
Qed.

Lemma varsize_any_compressed raw id payload :
  ok_4b_c raw id payload -> VARSIZE_ANY (mk_4b_c raw id payload) = Ok (zlen payload + 8).
Proof. intros Hok. rewrite <- (app_nil_r (mk_4b_c _ _ _)). unfold VARSIZE_ANY. tags. tags. tags. done. Qed.

Section rounds_ok.
Context (E : env) (rel : heaprel) (dels : list varatt_external) (cs : list content) (values0 : list (option Datum)).
Local Abbreviation c := (e_cfg E).
Local Abbreviation desc := (rd_att rel).
Local Abbreviation atts := (td_atts (rd_att rel)).
Local Abbreviation toastid := (reltoastrelid (hr_rel rel)).

(** The toast table has room for the columns that may still move, and the doomed entries
    are in it. *)
Definition toast_room (st : store) (n : nat) : Prop :=
  toastid <> InvalidOid ->
  rd_toastoid (hr_rel rel) = InvalidOid /\
  exists tr, st_rels st !! toastid = Some tr /\ Z.of_nat (size (used_ids tr) + n) <= OID_RANGE /\
    forall tp, tp ∈ dels -> va_toastrelid tp = toastid -> va_valueid tp ∈ used_ids tr.

Record inv (nulls del : bool) (delf : list bool) (x : ToastTupleContext * store) : Prop := {
  inv_row : row_state c (snd x) dels atts cs (ttc_values (fst x)) (ttc_attr (fst x));
  inv_nulls : flag (ttc_flags (fst x)) TOAST_HAS_NULLS = nulls;
  inv_del : flag (ttc_flags (fst x)) TOAST_NEEDS_DELETE_OLD = del;
  inv_delf : del_flags (ttc_attr (fst x)) = delf;
  inv_change : flag (ttc_flags (fst x)) TOAST_NEEDS_CHANGE = false -> ttc_values (fst x) = values0;
  inv_store : store_ok (snd x);
  inv_keeps : keeps (e_store E) (snd x);
  inv_rels oid : is_Some (st_rels (e_store E) !! oid) -> is_Some (st_rels (snd x) !! oid);
  inv_room : toast_room (snd x) (open_count (ttc_attr (fst x)))
}.

(** One column changes. *)
Lemma inv_step nulls del delf ttc st ttc' st' i att v a ct v' a' f :
  inv nulls del delf (ttc, st) -> atts !! i = Some att -> ttc_values ttc !! i = Some v -> ttc_attr ttc !! i = Some a ->
  cs !! i = Some ct ->
  ttc' = mkTtc (<[i := v']> (ttc_values ttc)) (Z.lor (ttc_flags ttc) f) (<[i := a']> (ttc_attr ttc)) ->
  flag f TOAST_HAS_NULLS = false -> flag f TOAST_NEEDS_DELETE_OLD = false -> (flag f TOAST_NEEDS_CHANGE = true \/ v' = v) ->
  flag (tai_colflags a') TOASTCOL_NEEDS_DELETE_OLD = flag (tai_colflags a) TOASTCOL_NEEDS_DELETE_OLD ->
  col_state c st' dels att v' a' ct -> store_ok st' -> keeps st st' ->
  (forall oid, is_Some (st_rels st !! oid) -> is_Some (st_rels st' !! oid)) ->
  toast_room st' (open_count (<[i := a']> (ttc_attr ttc))) ->
  inv nulls del delf (ttc', st').
Proof.
  intros [Hrow Hn Hd Hdf Hch Hst Hk Hrels Hroom] Ha Hv Hi Hct -> Hfn Hfd Hfc Hfa Hnew Hst' Hk' Hrels' Hroom'. cbn [fst snd] in *.
  constructor; cbn [fst snd ttc_values ttc_flags ttc_attr].
  - by eapply row_state_insert.
  - by rewrite flag_lor_l, Hfn, orb_false_r.
  - by rewrite flag_lor_l, Hfd, orb_false_r.
  - by rewrite (del_flags_insert _ i a).
  - rewrite flag_lor_l. intros [Hf Hg]%orb_false_iff. destruct Hfc as [?| ->]; [congruence|].
    by rewrite (list_insert_id (ttc_values ttc)), Hch.
  - done.
  - intros tp ext Hs. by apply Hk', Hk.
  - auto.
  - done.
Qed.

Lemma room_same st n n' : (n' <= n)%nat -> toast_room st n -> toast_room st n'.
Proof.
  intros Hle Hr Hid. destruct (Hr Hid) as (Hrw & tr & Htr & Hsz & Hin). split; [done|]. exists tr. split_and!; try done. lia.
Qed.

(** ** Compression of one column *)

Lemma get_col_ok ttc i p a :
  ttc_values ttc !! i = Some (Some (DPtr p)) -> ttc_attr ttc !! i = Some a -> get_col ttc (Z.of_nat i) = Ok (p, a).
Proof. intros Hv Ha. unfold get_col. by rewrite Nat2Z.id, Hv, Ha. Qed.

(** The compressed columns, the ones found incompressible and the ones put out of line
    are no candidates for compression any more. *)
Definition settled (v : option Datum) (a : ToastAttrInfo) : Prop :=
  flag (tai_colflags a) TOASTCOL_IGNORE = true \/
  exists p data, v = Some (DPtr p) /\ savable c p data /\ flag (tai_colflags a) TOASTCOL_IGNORE = false /\
    (flag (tai_colflags a) TOASTCOL_INCOMPRESSIBLE = true \/ is_compressed p = true).

(** A column that is marked incompressible. *)
Lemma incompressible_ok nulls del delf ttc st i att v a ct :
  inv nulls del delf (ttc, st) -> atts !! i = Some att -> ttc_values ttc !! i = Some v -> ttc_attr ttc !! i = Some a ->
  cs !! i = Some ct -> forall cm, candidate true cm att v a = Ok true ->
  exists p, v = Some (DPtr p) /\
  let a' := add_colflags a TOASTCOL_INCOMPRESSIBLE in
  inv nulls del delf (set_info ttc (Z.of_nat i) a', st) /\ flag (tai_colflags a') TOASTCOL_IGNORE = false /\ settled v a'.
Proof.
  intros Hinv Ha Hv Hi Hct cm Hcand. pose proof (rs_col _ _ _ _ _ _ _ (inv_row _ _ _ _ Hinv) i att v a ct Ha Hv Hi Hct) as Hcol.
  destruct (candidate_inv c st dels true cm att v a ct Hcol Hcand)
    as (p & data & -> & -> & Hig & Hs & Hsz & Hco & Hcm & Hby & Hl & Hst & _ & _).
  exists p. split; [done|]. intros a'.
  assert (Hig' : flag (tai_colflags a') TOASTCOL_IGNORE = false) by (cbn; by rewrite flag_lor_l, Hig). split_and!; [|done|].
  - eapply (inv_step _ _ _ ttc st _ st i att _ a _ (Some (DPtr p)) a' 0); try done.
    + unfold set_info. rewrite Nat2Z.id, Z.lor_0_r. by rewrite (list_insert_id (ttc_values ttc)).
    + by right.
    + cbn. rewrite flag_lor_l. apply orb_false_r.
    + by apply cs_open.
    + apply (inv_store _ _ _ _ Hinv).
    + by intros ? ? ?.
    + refine (room_same _ _ _ _ (inv_room _ _ _ _ Hinv)). cbn [fst]. apply (open_count_insert _ i a); [done|congruence].
  - right. exists p, data. split_and!; try done. left. cbn. rewrite flag_lor_l. apply orb_true_r.
Qed.

Lemma try_compression_ok nulls del delf ttc st i att v a ct :
  inv nulls del delf (ttc, st) -> atts !! i = Some att -> ttc_values ttc !! i = Some v -> ttc_attr ttc !! i = Some a ->
  cs !! i = Some ct -> forall cm, candidate true cm att v a = Ok true -> 24 < tai_size a ->
  returns (toast_tuple_try_compression E ttc (Z.of_nat i)) (fun ttc' => inv nulls del delf (ttc', st) /\
    exists v' a', ttc_values ttc' = <[i := v']> (ttc_values ttc) /\ ttc_attr ttc' = <[i := a']> (ttc_attr ttc) /\
      flag (tai_colflags a') TOASTCOL_IGNORE = false /\ settled v' a').
Proof.
  intros Hinv Ha Hv Hi Hct cm Hcand Hbig.
  pose proof (rs_col _ _ _ _ _ _ _ (inv_row _ _ _ _ Hinv) i att v a ct Ha Hv Hi Hct) as Hcol.
  destruct (candidate_inv c st dels true cm att v a ct Hcol Hcand)
    as (p & data & -> & -> & Hig & Hs & Hsz & Hco & Hcm & Hby & Hl & Hst & _ & Hin).
  pose proof Hco as [Hb Hm].
  destruct (Hin eq_refl) as [Hinl Hnin]. pose proof (savable_size c p data _ Hs Hsz Hbig) as Hdata.
  unfold toast_tuple_try_compression. rewrite (get_col_ok ttc i p a Hv Hi). bind. rewrite Hcm.
  pose proof (toast_compress_ok c p data _ Hinl Hb Hm) as Hcomp. apply returns_eq in Hcomp as (r & -> & Hr). bind.
  destruct r as [d|].
  - destruct Hr as (id & payload & -> & Hok & Hc & Hpb & Hlen). specialize (Hlen ltac:(lia)). rewrite zlen_4b_c in Hlen.
    pose proof (varsize_4b_c [] _ _ _ Hok) as Hvs. rewrite app_nil_r in Hvs. unfold VARSIZE. rewrite Hvs. bind. cbn [returns].
    assert (Hsv : savable c (mk_4b_c (zlen data) id payload) data).
    { rewrite <- (app_nil_r (mk_4b_c _ _ _)). apply savable_compressed; try done; [by eapply inline_ok|lia]. }
    set (a' := mkInfo _ _ _ _). assert (Hig' : flag (tai_colflags a') TOASTCOL_IGNORE = false) by (cbn; by rewrite flag_lor_l, Hig).
    split.
    + eapply (inv_step _ _ _ ttc st _ st i att _ a _ _ a'); try done.
      * unfold set_col. rewrite Nat2Z.id. reflexivity.
      * done.
      * done.
      * by left.
      * cbn. rewrite flag_lor_l. apply orb_false_r.
      * apply cs_open; try done. by apply varsize_any_compressed.
      * apply (inv_store _ _ _ _ Hinv).
      * by intros ? ? ?.
      * refine (room_same _ _ _ _ (inv_room _ _ _ _ Hinv)). cbn [fst]. apply (open_count_insert _ i a); [done|congruence].
    + exists (Some (DPtr (mk_4b_c (zlen data) id payload))), a'. unfold set_col. rewrite Nat2Z.id. split_and!; try done.
      right. exists (mk_4b_c (zlen data) id payload), data. split_and!; try done. right. unfold is_compressed, VARATT_IS_COMPRESSED.
      rewrite <- (app_nil_r (mk_4b_c _ _ _)). by autorewrite with varatt.
  - cbn [returns]. destruct (incompressible_ok _ _ _ ttc st i att _ a _ Hinv Ha Hv Hi Hct cm Hcand) as (p' & [= <-] & H1 & H2 & H3).
    split; [done|]. exists (Some (DPtr p)), (add_colflags a TOASTCOL_INCOMPRESSIBLE). unfold set_info. rewrite Nat2Z.id.
    split_and!; try done. by rewrite (list_insert_id (ttc_values ttc)).
Qed.

(** ** Moving one column out of line *)

Lemma used_with tr valueid rows :
  used_ids tr ⊆ used_ids (with_rows tr valueid rows) /\
  (size (used_ids (with_rows tr valueid rows)) <= size (used_ids tr) + 1)%nat.
Proof.
  destruct rows as [|r rows]; [split; [done|simpl; lia]|]. unfold used_ids, with_rows. cbn [tr_rows tr_dead].
  rewrite dom_insert_L. split; [set_solver|]. rewrite <- union_assoc_L.
  rewrite union_comm_L, size_union_alt.
  assert (size ({[valueid]} ∖ (dom (tr_rows tr) ∪ tr_dead tr) : gset Z) <= size ({[valueid]} : gset Z))%nat by (apply subseteq_size; set_solver).
  rewrite size_singleton in *. lia.
Qed.

Lemma externalize_ok nulls del delf ttc st i att p a data :
  inv nulls del delf (ttc, st) -> atts !! i = Some att -> ttc_values ttc !! i = Some (Some (DPtr p)) ->
  ttc_attr ttc !! i = Some a -> cs !! i = Some (CVarlena data) -> flag (tai_colflags a) TOASTCOL_IGNORE = false ->
  toastid <> InvalidOid ->
  returns (toast_tuple_externalize rel st ttc (Z.of_nat i)) (fun '(ttc', st') => inv nulls del delf (ttc', st') /\
    exists v' a', ttc_values ttc' = <[i := v']> (ttc_values ttc) /\ ttc_attr ttc' = <[i := a']> (ttc_attr ttc) /\
      flag (tai_colflags a') TOASTCOL_IGNORE = true).
Proof.
  intros Hinv Ha Hv Hi Hct Hig Hid.
  pose proof (rs_col _ _ _ _ _ _ _ (inv_row _ _ _ _ Hinv) i att _ a _ Ha Hv Hi Hct) as Hcol. cbn [snd] in Hcol.
  inversion Hcol as [|p' a' data' _ Hb Hl Hst Hs Hsz Hcm Hco]; subst; [congruence|].
  destruct (inv_room _ _ _ _ Hinv Hid) as (Hrw & tr & Htr & Hsize & Hdel). cbn [fst snd] in *.
  destruct (open_count_insert (ttc_attr ttc) i a (add_colflags (add_colflags a TOASTCOL_IGNORE) TOASTCOL_NEEDS_FREE) Hi)
    as [_ Hdec]; [congruence|].
  assert (Hig' : flag (tai_colflags (add_colflags (add_colflags a TOASTCOL_IGNORE) TOASTCOL_NEEDS_FREE)) TOASTCOL_IGNORE = true)
    by (cbn; rewrite !flag_lor_l; destruct (flag (tai_colflags a) TOASTCOL_IGNORE); done).
  specialize (Hdec Hig Hig').
  unfold toast_tuple_externalize. rewrite (get_col_ok ttc i p a Hv Hi). bind.
  pose proof (save_ok c st (hr_rel rel) tr p data (tai_oldexternal (add_colflags a TOASTCOL_IGNORE))
    (inv_store _ _ _ _ Hinv) Htr Hrw) as Hsave.
  specialize (Hsave ltac:(unfold has_room; lia) Hs).
  apply returns_eq in Hsave as ([q st'] & -> & tp & ext & g & -> & Hok & Hp & Hrel & Hnew & Hg & ->). bind. cbn [returns].
  destruct (ok_rels _ (inv_store _ _ _ _ Hinv) _ _ Htr) as (Hoid & _). cbn [snd] in *.
  assert (Htr' : st_rels st !! tr_oid tr = Some tr) by (by rewrite Hoid).
  destruct (used_with tr (va_valueid tp) (chunk_rows ext (nchunks (zlen ext)))) as [Hsub Hgrow].
  split.
  - eapply (inv_step _ _ _ ttc st _ _ i att _ a _ (Some (DPtr (mk_ondisk tp)))
      (add_colflags (add_colflags a TOASTCOL_IGNORE) TOASTCOL_NEEDS_FREE)); try done.
    + unfold set_col. rewrite Nat2Z.id. reflexivity.
    + done.
    + done.
    + by left.
    + cbn. rewrite !flag_lor_l. cbn. by rewrite !orb_false_r.
    + apply cs_done; [done| |intros p' [= <-] _ _; done].
      apply cf_varlena; [done|done|]. rewrite <- (app_nil_r (mk_ondisk tp)).
      apply (fv_ondisk _ _ _ tp ext); try done.
      * by apply (direct_ok E p), inrow_direct, savable_inrow.
      * destruct tp as [raw info vid rid]. simpl in Hrel. subst rid. apply (added_stored st tr vid ext g); try done.
        apply (inv_store _ _ _ _ Hinv).
      * intros tp' Hin. destruct (decide (va_toastrelid tp' = va_toastrelid tp)) as [He|]; [|by left]. right.
        intros Heq. apply Hnew. rewrite <- Heq. apply Hdel; [done|congruence].
    + apply added_ok; try done. apply (inv_store _ _ _ _ Hinv).
    + by apply added_keeps.
    + intros oid Hoid'. unfold added. cbn [st_rels]. destruct (decide (tr_oid tr = oid)) as [<-|].
      * rewrite lookup_insert_eq. by eexists.
      * by rewrite lookup_insert_ne.
    + intros _. split; [done|]. eexists. split; [unfold added; cbn [st_rels]; rewrite Hoid; apply lookup_insert_eq|]. split; [lia|].
      intros tp' Hin He. apply Hsub. by apply Hdel.
  - eexists _, _. unfold set_col. rewrite Nat2Z.id. split; [reflexivity|]. split; [reflexivity|]. exact Hig'.
Qed.

(** ** The loops *)

Lemma row_state_holds st values infos :
  row_state c st dels atts cs values infos -> row_holds (with_store E st) atts values cs.
Proof.
  intros [H1 H2 H3 Hcol]. revert values infos cs H1 H2 H3 Hcol.
  induction atts as [|att l IH]; intros [|v values] [|a infos] [|ct cs'] H1 H2 H3 Hcol; try done; [constructor|].
  simpl in *. constructor.
  - apply (col_final_holds c dels _ st); [done|done|]. apply (col_state_final c dels st att v a). by apply (Hcol 0%nat).
  - apply (IH values infos); try lia. intros k ? ? ? ? ? ? ? ?. by apply (Hcol (S k)).
Qed.

(** The data of the row is no longer than [limit]. *)
Definition small (limit : Z) (ttc : ToastTupleContext) : Prop :=
  exists n, heap_compute_data_size E desc (ttc_values ttc) = Ok n /\ n <= limit.

Lemma too_big_ok limit nulls del delf ttc st :
  inv nulls del delf (ttc, st) ->
  exists b, too_big E rel limit ttc = Ok b /\ (b = false <-> small limit ttc).
Proof.
  intros Hinv. pose proof (row_state_holds _ _ _ (inv_row _ _ _ _ Hinv)) as Hrow. cbn [fst snd] in Hrow.
  destruct (row_holds_packs _ _ _ _ Hrow) as (xs & Hp & _).
  assert (Hsz : heap_compute_data_size E desc (ttc_values ttc) = Ok (zlen (lay 0 atts xs))).
  { change (heap_compute_data_size E) with (heap_compute_data_size (with_store E st)). unfold heap_compute_data_size.
    by rewrite (data_size_loop_ok _ _ _ xs) by done. }
  unfold too_big, small. rewrite Hsz. bind. eexists. split; [done|]. split.
  - intros Hb. eexists. split; [done|]. lia.
  - intros (n & [= <-] & Hn). lia.
Qed.

Definition yes (r : res bool) : bool := match r with Ok b => b | _ => false end.
Lemma yes_true r : yes r = true <-> r = Ok true.
Proof. destruct r as [[]| | |]; done. Qed.
Lemma yes_false r : r <> Ok true -> yes r = false.
Proof. destruct r as [[]| | |]; done. Qed.

(** Which columns a loop may still pick. *)
Definition pick (fc cm : bool) (ttc : ToastTupleContext) (i : nat) : bool :=
  match atts !! i, ttc_values ttc !! i, ttc_attr ttc !! i with
  | Some att, Some v, Some a => yes (candidate fc cm att v a)
  | _, _, _ => false
  end.
Definition picks (fc cm : bool) (x : ToastTupleContext * store) : nat := count (pick fc cm (fst x)) (length atts).

Lemma picks_fuel fc cm x : (picks fc cm x < round_fuel rel)%nat.
Proof. unfold picks, round_fuel. pose proof (count_le (pick fc cm (fst x)) (length atts)). lia. Qed.

(** No column a loop picks is longer than a pointer. *)
Definition stuck (cm : bool) (ttc : ToastTupleContext) : Prop :=
  forall k att v a, atts !! k = Some att -> ttc_values ttc !! k = Some v -> ttc_attr ttc !! k = Some a ->
    candidate false cm att v a = Ok true -> tai_size a <= 24.

Lemma find_ok fc cm nulls del delf ttc st :
  inv nulls del delf (ttc, st) ->
  exists r, toast_tuple_find_biggest_attribute desc ttc fc cm = Ok r /\
    ((r < 0 /\ (fc = false -> stuck cm ttc)) \/
     (exists i att v a ct, r = Z.of_nat i /\ atts !! i = Some att /\ ttc_values ttc !! i = Some v /\
        ttc_attr ttc !! i = Some a /\ cs !! i = Some ct /\ candidate fc cm att v a = Ok true /\ 24 < tai_size a)).
Proof.
  intros Hinv. destruct (inv_row _ _ _ _ Hinv) as [H1 H2 H3 Hcol]. cbn [fst snd] in *.
  destruct (find_biggest_ok c st dels fc cm atts (ttc_values ttc) (ttc_attr ttc) cs 0 (-1) (MAXALIGN TOAST_POINTER_SIZE) Hcol)
    as (r & Hr & Hcase); try done. exists r. split; [done|].
  destruct Hcase as [[-> Hall]|(k & att & v & a & -> & Ha & Hv & Hi & Hc & Hlt)].
  - left. split; [lia|]. intros -> k att v a Ha Hv Hi Hc. exact (Hall k att v a Ha Hv Hi Hc).
  - right. destruct (lookup_lt_is_Some_2 cs k) as (ct & Hct); [rewrite H3; by eapply lookup_lt_Some|].
    by exists k, att, v, a, ct.
Qed.

(** A change of a picked column that cannot be picked again. *)
Lemma picks_insert fc cm ttc st ttc' st' i att v a v' a' :
  atts !! i = Some att -> ttc_values ttc !! i = Some v -> ttc_attr ttc !! i = Some a ->
  candidate fc cm att v a = Ok true ->
  ttc_values ttc' = <[i := v']> (ttc_values ttc) -> ttc_attr ttc' = <[i := a']> (ttc_attr ttc) ->
  candidate fc cm att v' a' <> Ok true -> (picks fc cm (ttc', st') < picks fc cm (ttc, st))%nat.
Proof.
  intros Ha Hv Hi Hc Ev Ei Hc'. pose proof (lookup_lt_Some _ _ _ Hv). pose proof (lookup_lt_Some _ _ _ Hi).
  apply (count_lt _ _ _ i); unfold pick; cbn [fst]; rewrite ?Ev, ?Ei.
  - by eapply lookup_lt_Some.
  - rewrite !list_lookup_insert_eq, Ha by done. by apply yes_false.
  - rewrite Ha, Hv, Hi. by apply yes_true.
  - intros j _. destruct (decide (j = i)) as [->|]; [|by rewrite !list_lookup_insert_ne].
    rewrite !list_lookup_insert_eq, Ha, Hv, Hi by done. rewrite (yes_false _ Hc'). done.
Qed.

Lemma candidate_ignored fc cm att v a : flag (tai_colflags a) TOASTCOL_IGNORE = true -> candidate fc cm att v a <> Ok true.
Proof. intros Hi. unfold candidate. destruct fc; [rewrite flag_lor_r|]; by rewrite Hi. Qed.

Lemma candidate_settled cm att v a : settled v a -> candidate true cm att v a <> Ok true.
Proof.
  intros [Hi|(p & data & -> & Hs & Hi & Hor)]; [by apply candidate_ignored|].
  rewrite (candidate_open c true cm att p a data Hs Hi). destruct Hor as [-> | ->]; [done|]. by rewrite orb_true_r.
Qed.

Lemma candidate_storage fc cm att v a : candidate fc cm att v a = Ok true -> right_storage cm att = true.
Proof.
  unfold candidate, right_storage. destruct (flag _ _); [done|]. destruct v as [d|]; [|done].
  destruct (DatumGetPointer d) as [p| | |]; try done. bind. destruct (VARATT_IS_EXTERNAL p) as [[]| | |]; try done. bind.
  destruct (if fc then VARATT_IS_COMPRESSED p else Ok false) as [[]| | |]; try done. bind.
  destruct cm, (attstorage att =? TYPSTORAGE_MAIN), (attstorage att =? TYPSTORAGE_EXTENDED), (attstorage att =? TYPSTORAGE_EXTERNAL); done.
Qed.

Lemma main_storage att : right_storage true att = true -> right_storage false att = false.
Proof. unfold right_storage, TYPSTORAGE_MAIN, TYPSTORAGE_EXTENDED, TYPSTORAGE_EXTERNAL. lia. Qed.

Lemma stuck_insert cm ttc ttc' i att v a v' a' :
  atts !! i = Some att -> ttc_values ttc !! i = Some v -> ttc_attr ttc !! i = Some a -> right_storage cm att = false ->
  ttc_values ttc' = <[i := v']> (ttc_values ttc) -> ttc_attr ttc' = <[i := a']> (ttc_attr ttc) ->
  stuck cm ttc -> stuck cm ttc'.
Proof.
  intros Ha Hv Hi Hst Ev Ei H k att' w b Hk Hw Hb Hc. rewrite Ev in Hw. rewrite Ei in Hb. destruct (decide (k = i)) as [->|].
  - apply candidate_storage in Hc. congruence.
  - rewrite list_lookup_insert_ne in Hw by done. rewrite list_lookup_insert_ne in Hb by done. by eapply H.
Qed.

Local Abbreviation has_toast := (toastid <> InvalidOid).

Section loops.
Context (nulls del : bool) (delf : list bool).
Local Abbreviation Inv := (inv nulls del delf).

(** The first half of the body of round 1: the column is compressed or marked. *)
Lemma compress_ok ttc st i att v a ct cm :
  Inv (ttc, st) -> atts !! i = Some att -> ttc_values ttc !! i = Some v -> ttc_attr ttc !! i = Some a ->
  cs !! i = Some ct -> candidate true cm att v a = Ok true -> 24 < tai_size a -> forall extended : bool,
  returns (if extended then toast_tuple_try_compression E ttc (Z.of_nat i)
           else x ← get_col ttc (Z.of_nat i); Ok (set_info ttc (Z.of_nat i) (add_colflags (snd x) TOASTCOL_INCOMPRESSIBLE)))
    (fun ttc' => Inv (ttc', st) /\ exists v' a',
      ttc_values ttc' = <[i := v']> (ttc_values ttc) /\ ttc_attr ttc' = <[i := a']> (ttc_attr ttc) /\
      flag (tai_colflags a') TOASTCOL_IGNORE = false /\ settled v' a').
Proof.
  intros Hinv Ha Hv Hi Hct Hc Hbig [|]; [by apply (try_compression_ok nulls del delf ttc st i att v a ct Hinv Ha Hv Hi Hct cm)|].
  destruct (incompressible_ok _ _ _ ttc st i att v a ct Hinv Ha Hv Hi Hct cm Hc) as (p & -> & H1 & H2 & H3).
  rewrite (get_col_ok ttc i p a Hv Hi). bind. cbn [returns snd]. split; [done|].
  exists (Some (DPtr p)), (add_colflags a TOASTCOL_INCOMPRESSIBLE). split_and!; try done.
  - cbn. by rewrite list_insert_id.
  - unfold set_info. by rewrite Nat2Z.id.
Qed.

Lemma round1_ok limit x : Inv x -> returns (iter (round_fuel rel) (round1 E rel limit) x) Inv.
Proof.
  intros Hx. apply (iter_returns Inv (picks true false)); [|done|apply picks_fuel]. clear x Hx. intros [ttc st] Hinv.
  unfold round1. destruct (too_big_ok limit _ _ _ _ _ Hinv) as (b & -> & _). bind. destruct b; [|done]. cbn [negb].
  destruct (find_ok true false _ _ _ _ _ Hinv) as (r & -> & Hr). bind.
  destruct Hr as [[Hr _]|(i & att & v & a & ct & -> & Ha & Hv & Hi & Hct & Hc & Hbig)].
  { assert ((r <? 0) = true) as -> by lia. done. }
  assert ((Z.of_nat i <? 0) = false) as -> by (apply Z.ltb_ge; lia). unfold TupleDescAttr. rewrite Nat2Z.id, Ha.
  assert ((0 <=? Z.of_nat i) = true) as -> by (apply Z.leb_le; lia). bind.
  pose proof (compress_ok ttc st i att v a ct false Hinv Ha Hv Hi Hct Hc Hbig (attstorage att =? TYPSTORAGE_EXTENDED)) as H1.
  apply returns_eq in H1 as (ttc1 & -> & Hinv1 & v1 & a1 & Ev & Ei & Hig & Hset). bind.
  pose proof (lookup_lt_Some _ _ _ Hv) as Hlv. pose proof (lookup_lt_Some _ _ _ Hi) as Hli.
  destruct Hset as [?|(p & data & -> & Hs)]; [congruence|].
  assert (Hv1 : ttc_values ttc1 !! i = Some (Some (DPtr p))) by (by rewrite Ev, list_lookup_insert_eq).
  assert (Hi1 : ttc_attr ttc1 !! i = Some a1) by (by rewrite Ei, list_lookup_insert_eq).
  rewrite (get_col_ok ttc1 i p a1) by done. bind. cbn [snd].
  destruct ((tai_size a1 >? limit) && _) eqn:Hext.
  - apply andb_true_iff in Hext as [_ Hid].
    destruct (candidate_inv c st dels true false att v a ct) as (_ & data' & _ & -> & _); [by eapply (inv_row _ _ _ _ Hinv)|done|].
    pose proof (externalize_ok _ _ _ ttc1 st i att p a1 data' Hinv1 Ha Hv1 Hi1 Hct Hig ltac:(lia)) as H2.
    apply returns_eq in H2 as ([ttc2 st2] & -> & Hinv2 & v2 & a2 & Ev2 & Ei2 & Hig2). bind. cbn [returns]. split; [done|].
    rewrite Ev, list_insert_insert_eq in Ev2. rewrite Ei, list_insert_insert_eq in Ei2.
    eapply (picks_insert _ _ ttc st ttc2 st2 i att v a v2 a2); try done. by apply candidate_ignored.
  - cbn [returns]. split; [done|]. eapply (picks_insert _ _ ttc st ttc1 st i att v a _ a1); try done.
    apply candidate_settled. right. by exists p, data.
Qed.

(** One column of a storage class the loop looks at has changed. *)
Definition changes (cm : bool) (ttc ttc' : ToastTupleContext) : Prop :=
  exists i att v a v' a', atts !! i = Some att /\ ttc_values ttc !! i = Some v /\ ttc_attr ttc !! i = Some a /\
    right_storage cm att = true /\
    ttc_values ttc' = <[i := v']> (ttc_values ttc) /\ ttc_attr ttc' = <[i := a']> (ttc_attr ttc).

Lemma round_store_ok cm limit (J : ToastTupleContext -> Prop) x :
  (forall ttc ttc', ~ small limit ttc -> changes cm ttc ttc' -> J ttc -> J ttc') -> Inv x -> J (fst x) ->
  returns (iter (round_fuel rel) (round_store E rel limit cm) x)
    (fun y => Inv y /\ J (fst y) /\ (small limit (fst y) \/ (has_toast -> stuck cm (fst y)))).
Proof.
  intros HJ Hx Jx. apply (iter_returns (fun x => Inv x /\ J (fst x)) (picks false cm)); [|done|apply picks_fuel].
  clear x Hx Jx. intros [ttc st] [Hinv Hj]. cbn [fst] in Hj.
  unfold round_store. destruct (too_big_ok limit _ _ _ _ _ Hinv) as (b & -> & Hb). bind.
  destruct b; [|split_and!; try done; left; by apply Hb].
  destruct (Z.eqb_spec toastid InvalidOid) as [Hid|Hid]; [split_and!; try done; by right|]. cbn [andb negb].
  destruct (find_ok false cm _ _ _ _ _ Hinv) as (r & -> & Hr). bind.
  destruct Hr as [[Hr Hstuck]|(i & att & v & a & ct & -> & Ha & Hv & Hi & Hct & Hc & Hbig)].
  { assert ((r <? 0) = true) as -> by lia. split_and!; try done. right. intros _. by apply Hstuck. }
  assert ((Z.of_nat i <? 0) = false) as -> by (apply Z.ltb_ge; lia).
  destruct (candidate_inv c st dels false cm att v a ct) as (p & data & -> & -> & Hig & _ & _ & _ & _ & _ & _ & _ & Hrs & _);
    [by eapply (inv_row _ _ _ _ Hinv)|done|].
  pose proof (externalize_ok _ _ _ ttc st i att p a data Hinv Ha Hv Hi Hct Hig Hid) as H2.
  apply returns_eq in H2 as ([ttc2 st2] & -> & Hinv2 & v2 & a2 & Ev2 & Ei2 & Hig2). bind. cbn [returns fst]. split_and!.
  - done.
  - apply (HJ ttc); [|by exists i, att, (Some (DPtr p)), a, v2, a2|done]. intros Hs. apply Hb in Hs. done.
  - eapply (picks_insert _ _ ttc st ttc2 st2 i att _ a v2 a2); try done. by apply candidate_ignored.
Qed.

Lemma round3_ok limit (J : ToastTupleContext -> Prop) x :
  (forall ttc ttc', ~ small limit ttc -> changes true ttc ttc' -> J ttc -> J ttc') -> Inv x -> J (fst x) ->
  returns (iter (round_fuel rel) (round3 E rel limit) x) (fun y => Inv y /\ J (fst y)).
Proof.
  intros HJ Hx Jx. apply (iter_returns (fun x => Inv x /\ J (fst x)) (picks true true)); [|done|apply picks_fuel].
  clear x Hx Jx. intros [ttc st] [Hinv Hj]. cbn [fst] in Hj.
  unfold round3. destruct (too_big_ok limit _ _ _ _ _ Hinv) as (b & -> & Hb). bind. destruct b; [|done]. cbn [negb].
  destruct (find_ok true true _ _ _ _ _ Hinv) as (r & -> & Hr). bind.
  destruct Hr as [[Hr _]|(i & att & v & a & ct & -> & Ha & Hv & Hi & Hct & Hc & Hbig)].
  { assert ((r <? 0) = true) as -> by lia. done. }
  assert ((Z.of_nat i <? 0) = false) as -> by (apply Z.ltb_ge; lia).
  pose proof (compress_ok ttc st i att v a ct true Hinv Ha Hv Hi Hct Hc Hbig true) as H1.
  apply returns_eq in H1 as (ttc1 & -> & Hinv1 & v1 & a1 & Ev & Ei & Hig & Hset). bind. cbn [returns fst]. split_and!.
  - done.
  - apply (HJ ttc); [|exists i, att, v, a, v1, a1; split_and!; try done; by eapply candidate_storage|done].
    intros Hs. apply Hb in Hs. done.
  - eapply (picks_insert _ _ ttc st ttc1 st i att v a v1 a1); try done. by apply candidate_settled.
Qed.

(** ** All rounds *)

(** The row fits in the first limit; or nothing more can be gained from the columns of
    class EXTENDED and EXTERNAL, and it fits in the second limit or nothing more can be
    gained from those of class MAIN. *)
Definition fitted (limit limit' : Z) (ttc : ToastTupleContext) : Prop :=
  small limit ttc \/
  ((has_toast -> stuck false ttc) /\ (small limit' ttc \/ (has_toast -> stuck true ttc))).

Lemma small_le limit limit' ttc : limit <= limit' -> small limit ttc -> small limit' ttc.
Proof. intros Hle (n & Hn & ?). exists n. split; [done|lia]. Qed.

Lemma changes_stuck ttc ttc' : changes true ttc ttc' -> stuck false ttc -> stuck false ttc'.
Proof.
  intros (i & att & v & a & v' & a' & Ha & Hv & Hi & Hrs & Ev & Ei).
  apply (stuck_insert false ttc ttc' i att v a v' a'); try done. by apply main_storage.
Qed.

Lemma rounds_returns ttc st :
  let hoff := header_len nulls (natts desc) in
  let limit := size_t (RelationGetToastTupleTarget rel TOAST_TUPLE_TARGET - hoff) in
  let limit' := size_t (TOAST_TUPLE_TARGET_MAIN - hoff) in
  Inv (ttc, st) ->
  returns (toast_rounds E rel ttc st) (fun y => Inv y /\ (limit <= limit' -> fitted limit limit' (fst y))).
Proof.
  intros hoff limit limit' Hinv. unfold toast_rounds. pose proof (inv_nulls _ _ _ _ Hinv) as Hn. cbn [fst] in Hn. rewrite Hn.
  fold (header_len nulls (natts desc)). fold hoff. fold limit. fold limit'.
  set (J := fun ttc => small limit ttc \/ (has_toast -> stuck false ttc)).
  eapply returns_bind; [by apply round1_ok|]. intros x1 H1.
  eapply returns_bind; [by apply (round_store_ok false limit (fun _ => True))|]. cbn beta. intros x2 (H2 & _ & J2).
  eapply returns_bind; [apply (round3_ok limit J); [|done|done]|].
  { intros t t' Hs Hch [?|Hst]; [done|]. right. intros Hid. by apply (changes_stuck t), Hst. }
  cbn beta. intros x3 [H3 J3]. eapply returns_mono; [apply (round_store_ok true limit' (fun t => limit <= limit' -> J t)); [|done|done]|].
  { intros t t' Hs Hch HJ Hle. destruct (HJ Hle) as [?|Hst]; [exfalso; by apply Hs, (small_le limit)|].
    right. intros Hid. by apply (changes_stuck t), Hst. }
  cbn beta. intros x4 (H4 & J4 & Hfit). split; [done|]. intros Hle. destruct (J4 Hle) as [?|?]; [by left|]. by right.
Qed.
End loops.
End rounds_ok.
