(* ===== verification/HeapToastUpdate.v ===== *)
(** INSERT, UPDATE and DELETE of a toasted tuple.

    The old version's out-of-line values are deleted unless the new version still has
    their pointers; what other tuples refer to is not touched.  The new version holds the
    same row as before toasting, and is as small as the columns' storage classes allow. *)

From S2P Require Import Prelude Rle Varatt Pglz PglzHist PglzItems PglzCodec ToastCompression Oids ToastStore Detoast ToastSave.
From S2P Require Import HeapTuple HeapTupleForm HeapTupleDeform HeapToast HeapToastValues HeapToastRounds.

#[export] Instance varatt_external_eq_dec : EqDecision varatt_external.
Proof. solve_decision. Defined.

(** ** The out-of-line values of a row *)

Definition pointer_of (att : attribute) (v : option Datum) : option varatt_external :=
  match v with
  | Some (DPtr p) =>
      if attlen att =? -1 then
        match VARATT_IS_EXTERNAL_ONDISK p with
        | Ok true => match VARATT_EXTERNAL_GET_POINTER p with Ok tp => Some tp | _ => None end
        | _ => None
        end
      else None
  | _ => None
  end.
Fixpoint pointers (atts : list attribute) (values : list (option Datum)) : list varatt_external :=
  match atts, values with
  | att :: atts, v :: values => option_list (pointer_of att v) ++ pointers atts values
  | _, _ => []
  end.

(** The value of the old row that the new row does not have in the same column. *)
Definition drop_of (att : attribute) (o v : option Datum) : option varatt_external :=
  tp ← pointer_of att o; if decide (pointer_of att v = Some tp) then None else Some tp.
Fixpoint dropped (atts : list attribute) (olds values : list (option Datum)) : list varatt_external :=
  match atts, olds, values with
  | att :: atts, o :: olds, v :: values => option_list (drop_of att o v) ++ dropped atts olds values
  | _, _, _ => []
  end.

Definition in_table (st : store) (tp : varatt_external) : Prop :=
  exists tr, st_rels st !! va_toastrelid tp = Some tr /\ va_valueid tp ∈ used_ids tr.
Definition gone (st : store) (tp : varatt_external) : Prop :=
  exists tr, st_rels st !! va_toastrelid tp = Some tr /\ rows_of tr (va_valueid tp) = [].

(** What a varlena that holds something looks like from outside. *)
Lemma holds_ondisk E p data :
  holds E p data ->
  (exists tp ext t, p = mk_ondisk tp ++ t /\ ok_ondisk tp /\ ok_4b_u data /\ pointer_to (e_cfg E) tp ext data /\
     stored (e_store E) tp ext) \/ VARATT_IS_EXTERNAL_ONDISK p = Ok false.
Proof.
  intros [v d [v' d' Hi|id payload d' t Hc Hd Hok|tp ext d' t Hok Hd Hp Hs|tag addr d' t Ht Ha Hd Hf]|addr v d t Ha Hm Hd].
  - right. destruct Hi; by tags.
  - right. by tags.
  - left. by exists tp, ext, t.
  - right. by destruct Ht as [-> | ->].
  - by right.
Qed.

Lemma pointer_of_ondisk att tp t :
  attlen att = -1 -> ok_ondisk tp -> pointer_of att (Some (DPtr (mk_ondisk tp ++ t))) = Some tp.
Proof. intros Hl Hok. unfold pointer_of. rewrite Hl, ondisk_test, get_pointer_e by done. done. Qed.

Lemma pointer_of_holds E att v ct tp :
  col_holds E att v ct -> pointer_of att v = Some tp ->
  exists t ext data, v = Some (DPtr (mk_ondisk tp ++ t)) /\ ct = CVarlena data /\ attbyval att = false /\ attlen att = -1 /\
    ok_ondisk tp /\ ok_4b_u data /\ pointer_to (e_cfg E) tp ext data /\ stored (e_store E) tp ext.
Proof.
  intros Hc Hp. destruct Hc as [|z Hb Hl Hz|p t Hb Hl Hz|s t Hb Hl|p data Hb Hl Hh]; try done; unfold pointer_of in Hp.
  - assert ((attlen att =? -1) = false) as Hne by lia. by rewrite Hne in Hp.
  - assert ((attlen att =? -1) = false) as Hne by lia. by rewrite Hne in Hp.
  - destruct (holds_ondisk E p data Hh) as [(tp' & ext & t & -> & Hok & Hd & Hpt & Hs)|Hno].
    + rewrite Hl, ondisk_test, get_pointer_e in Hp by done. injection Hp as <-. by exists t, ext, data.
    + rewrite Hl, Hno in Hp. done.
Qed.

Lemma pointers_elem atts : forall values tp, tp ∈ pointers atts values <->
  exists i att v, atts !! i = Some att /\ values !! i = Some v /\ pointer_of att v = Some tp.
Proof.
  induction atts as [|att atts IH]; intros [|v values] tp; cbn [pointers].
  1-3: split; [by intros ?%elem_of_nil|intros (i & ? & ? & Ha & Hv & _); by (rewrite lookup_nil in Ha || rewrite lookup_nil in Hv)].
  rewrite elem_of_app, IH. split.
  - intros [H|(i & att' & v' & Ha & Hv & Hp)].
    + exists 0%nat, att, v. split_and!; try done. destruct (pointer_of att v); [|by apply elem_of_nil in H]. by apply list_elem_of_singleton in H as ->.
    + by exists (S i), att', v'.
  - intros ([|i] & att' & v' & Ha & Hv & Hp).
    + injection Ha as ->. injection Hv as ->. rewrite Hp. left. by apply list_elem_of_singleton.
    + right. by exists i, att', v'.
Qed.

(** ** Deleting the values of a row *)

(** [st'] is [st] without the entries of [tps]. *)
Record after_delete (st : store) (tps : list varatt_external) (st' : store) : Prop := {
  ad_ok : store_ok st';
  ad_rels oid : is_Some (st_rels st !! oid) -> is_Some (st_rels st' !! oid);
  ad_keeps tp ext : stored st tp ext -> (forall tp', tp' ∈ tps -> other tp' tp) -> stored st' tp ext;
  ad_mono tp : gone st tp -> gone st' tp;
  ad_gone tp : tp ∈ tps -> gone st' tp
}.

Lemma set_rel_rels st tr oid : is_Some (st_rels st !! oid) -> is_Some (st_rels (set_rel st tr) !! oid).
Proof.
  intros H. cbn. destruct (decide (tr_oid tr = oid)) as [<-|]; [rewrite lookup_insert_eq; by eexists|by rewrite lookup_insert_ne].
Qed.

Lemma after_none st : store_ok st -> after_delete st [] st.
Proof. intros Hst. split; try done. intros tp H. by apply elem_of_nil in H. Qed.

Lemma after_step st tp tr tps st' :
  store_ok st -> st_rels st !! va_toastrelid tp = Some tr ->
  after_delete (set_rel st (toast_delete_rows tr (va_valueid tp))) tps st' -> after_delete st (tp :: tps) st'.
Proof.
  intros Hst Htr [Hok Hrels Hk Hm Hg]. destruct (ok_rels _ Hst _ _ Htr) as (Hoid & _).
  destruct (delete_rows_same tr (va_valueid tp)) as (Ho & _ & Hnone & Hsame).
  assert (Hgone : gone (set_rel st (toast_delete_rows tr (va_valueid tp))) tp).
  { eexists. cbn. rewrite Ho, Hoid, lookup_insert_eq. by split. }
  assert (Hmono : forall t, gone st t -> gone (set_rel st (toast_delete_rows tr (va_valueid tp))) t).
  { intros t (tr' & Hr & Hrows). cbn. unfold gone. cbn. rewrite Ho, Hoid.
    destruct (decide (va_toastrelid tp = va_toastrelid t)) as [He|]; [|rewrite lookup_insert_ne by done; by exists tr'].
    rewrite He, lookup_insert_eq. eexists. split; [done|]. rewrite <- He, Htr in Hr. injection Hr as <-.
    destruct (decide (va_valueid tp = va_valueid t)) as [<-|]; [done|by rewrite Hsame]. }
  split; try done.
  - intros oid H. by apply Hrels, set_rel_rels.
  - intros t ext Hs Hall. apply Hk; [|intros; apply Hall; set_solver]. apply deleted_keeps; try done. apply Hall. set_solver.
  - auto.
  - intros t [->|H]%elem_of_cons; auto.
Qed.

(** A loop that deletes one value, or none, and goes on. *)
Lemma delete_value st att v ct (E : env) (f : store -> res store) tps :
  store_ok st -> col_holds E att v ct -> (forall tp, pointer_of att v = Some tp -> is_Some (st_rels st !! va_toastrelid tp)) ->
  (forall st1, store_ok st1 -> (forall oid, is_Some (st_rels st !! oid) -> is_Some (st_rels st1 !! oid)) ->
     returns (f st1) (after_delete st1 tps)) ->
  forall spec tp, pointer_of att v = Some tp ->
  exists p, v = Some (DPtr p) /\ attlen att = -1 /\ VARATT_IS_EXTERNAL_ONDISK p = Ok true /\
  returns (toast_delete_datum st p spec ≫= f) (after_delete st (tp :: tps)).
Proof.
  intros Hst Hc Hrel Hf spec tp Hp. destruct (pointer_of_holds E att v ct tp Hc Hp) as (t & ext & data & -> & _ & _ & Hl & Hok & _).
  exists (mk_ondisk tp ++ t). split_and!; try done. destruct (Hrel tp Hp) as (tr & Htr).
  rewrite (delete_ok st tp tr) by done. bind. destruct (ok_rels _ Hst _ _ Htr) as (Hoid & _).
  eapply returns_mono; [apply Hf|intros st'; by apply after_step].
  - apply deleted_ok; [done|by rewrite Hoid].
  - intros oid. apply set_rel_rels.
Qed.

Lemma delete_external_ok E atts values cs : row_holds E atts values cs -> forall st spec,
  store_ok st -> (forall tp, tp ∈ pointers atts values -> is_Some (st_rels st !! va_toastrelid tp)) ->
  returns (toast_delete_external atts values st spec) (after_delete st (pointers atts values)).
Proof.
  induction 1 as [|att v ct atts values cs Hc _ IH]; intros st spec Hst Hrel; [by apply after_none|].
  cbn [toast_delete_external pointers] in *.
  destruct (pointer_of att v) as [tp|] eqn:Hp; cbn [option_list app] in *.
  - destruct (delete_value st att v ct E (fun st => toast_delete_external atts values st spec) (pointers atts values))
      with (spec := spec) (tp := tp) as (p & -> & -> & Hod & Hret); try done.
    + intros tp' Htp'. apply Hrel. rewrite Hp in Htp'. injection Htp' as <-. set_solver.
    + intros st1 Hst1 Hr1. apply IH; [done|]. intros tp' Hin. apply Hr1, Hrel. set_solver.
    + cbn [DatumGetPointer]. change (-1 =? -1) with true. bind. rewrite Hod. bind. exact Hret.
  - assert (Hskip : match v with
        | Some d => if attlen att =? -1 then p ← DatumGetPointer d; ondisk ← VARATT_IS_EXTERNAL_ONDISK p;
                    (if (ondisk : bool) then toast_delete_datum st p spec else Ok st) else Ok st
        | None => Ok st end = Ok st).
    { destruct Hc as [|z Hb Hl Hz|p t Hb Hl Hz|s t Hb Hl|p data Hb Hl Hh]; [done|..].
      1-3: assert ((attlen att =? -1) = false) as -> by (unfold byval_len in *; lia); done.
      rewrite Hl. change (-1 =? -1) with true. cbn [DatumGetPointer]. bind.
      destruct (holds_ondisk E p data Hh) as [(tp & ext & t & -> & Hok & _)| ->]; [|done]. by rewrite pointer_of_ondisk in Hp. }
    rewrite Hskip. bind. apply IH; done.
Qed.

(** ** toast_tuple_cleanup *)

Definition drops (att : attribute) (o v : option Datum) : bool := match drop_of att o v with Some _ => true | None => false end.
Fixpoint drop_flags (atts : list attribute) (olds values : list (option Datum)) : list bool :=
  match atts, olds, values with
  | att :: atts, o :: olds, v :: values => drops att o v :: drop_flags atts olds values
  | _, _, _ => []
  end.

Lemma drop_of_pointer att o v tp : drop_of att o v = Some tp -> pointer_of att o = Some tp /\ pointer_of att v <> Some tp.
Proof. unfold drop_of. destruct (pointer_of att o) as [tp'|]; [|done]. simpl. by case_decide; intros [= <-]. Qed.

Lemma cleanup_ok E atts olds ocs : row_holds E atts olds ocs -> forall values infos st,
  length values = length atts -> del_flags infos = drop_flags atts olds values ->
  store_ok st -> (forall tp, tp ∈ dropped atts olds values -> is_Some (st_rels st !! va_toastrelid tp)) ->
  returns (cleanup_loop st infos olds) (after_delete st (dropped atts olds values)).
Proof.
  induction 1 as [|att o ct atts olds ocs Hc _ IH]; intros values infos st Hlen Hf Hst Hrel.
  { destruct infos; [|done]. by apply after_none. }
  destruct values as [|v values]; [done|]. destruct infos as [|a infos]; [done|].
  cbn [cleanup_loop dropped drop_flags] in *. injection Hf as Ha Hf. injection Hlen as Hlen. unfold drops in Ha. rewrite Ha.
  destruct (drop_of att o v) as [tp|] eqn:Hd; cbn [option_list app] in *; [|by apply IH].
  apply drop_of_pointer in Hd as [Hp _].
  destruct (delete_value st att o ct E (fun st => cleanup_loop st infos olds) (dropped atts olds values))
    with (spec := false) (tp := tp) as (p & -> & _ & _ & Hret); try done.
  - intros tp' Htp'. apply Hrel. rewrite Hp in Htp'. injection Htp' as <-. set_solver.
  - intros st1 Hst1 Hr1. apply IH; try done. intros tp' Hin. apply Hr1, Hrel. set_solver.
Qed.

(** ** toast_tuple_init *)

Lemma ondisk_bytes tp t : VARSIZE_EXTERNAL (mk_ondisk tp ++ t) = Ok 18 /\ rdn (mk_ondisk tp ++ t) 0 18 = Ok (mk_ondisk tp).
Proof. split; [done|]. apply rdn_exact. zl. Qed.

Lemma mk_ondisk_inj tp tp' : ok_ondisk tp -> ok_ondisk tp' -> mk_ondisk tp = mk_ondisk tp' -> tp = tp'.
Proof.
  intros H H' He. pose proof (get_pointer_e [] tp H) as G. rewrite He, get_pointer_e in G by done. by injection G as ->.
Qed.

Section init.
Context (E : env).

(** The comparison of the toast pointers' bytes compares the pointers. *)
Lemma init_old_ok att o oct v ct :
  col_holds E att o oct -> col_holds E att v ct ->
  init_old att (Some o) v
  = Ok (match pointer_of att o with
        | None => Some 0
        | Some tp => if decide (pointer_of att v = Some tp) then None else Some TOAST_NEEDS_DELETE_OLD
        end).
Proof.
  intros Ho Hv. destruct (pointer_of att o) as [tp|] eqn:Hp.
  - destruct (pointer_of_holds E att o oct tp Ho Hp) as (t & _ & _ & -> & _ & Hb & Hl & Hok & _). cbn [init_old].
    rewrite Hl. change (negb (-1 =? -1)) with false. cbn [DatumGetPointer]. bind. rewrite ondisk_test. bind. cbn [negb].
    destruct Hv as [|z Hb'|p t' Hb' Hl'|s t' Hb' Hl'|p data Hb' Hl' Hh]; try congruence; [by rewrite decide_False|lia|].
    unfold old_changed. cbn [DatumGetPointer]. bind. unfold pointer_of. rewrite Hl.
    destruct (holds_ondisk E p data Hh) as [(tp' & ext & t' & -> & Hok' & _)|Hno].
    + rewrite !ondisk_test. bind. cbn [negb]. rewrite get_pointer_e by done. change (-1 =? -1) with true.
      destruct (ondisk_bytes tp t) as [-> Hr]. bind. rewrite Hr. bind. destruct (ondisk_bytes tp' t') as [_ ->]. bind.
      case_decide as Hd; [injection Hd as ->; by rewrite bool_decide_eq_true_2|].
      rewrite bool_decide_eq_false_2; [done|]. intros He. apply Hd. f_equal. by apply mk_ondisk_inj.
    + rewrite Hno. bind. by rewrite decide_False.
  - destruct Ho as [|z Hb Hl Hz|p t Hb Hl Hz|s t Hb Hl|p data Hb Hl Hh]; cbn [init_old]; [done|..].
    1-3: assert ((attlen att =? -1) = false) as -> by (unfold byval_len in *; lia); done.
    rewrite Hl. change (negb (-1 =? -1)) with false. cbn [DatumGetPointer]. bind.
    destruct (holds_ondisk E p data Hh) as [(tp & ext & t & -> & Hok & _)| ->]; [|done]. by rewrite pointer_of_ondisk in Hp.
Qed.

(** What the toaster asks of a value: that it is compact, and that it can be compressed
    if the column's storage class says so. *)
Definition toastable (att : attribute) (v : option Datum) (ct : content) : Prop :=
  forall p data, v = Some (DPtr p) -> ct = CVarlena data -> attlen att = -1 ->
  compact E p /\ (attstorage att <> TYPSTORAGE_PLAIN -> compressible (e_cfg E) att data).

(** An external value is fetched; a column of class PLAIN is not even compressed. *)
Lemma fetch_new (plain : bool) p data :
  holds E p data -> VARATT_IS_EXTERNAL p = Ok true -> compact E p ->
  exists v n, (if plain then detoast_attr E p else detoast_external_attr E p) = Ok v /\ savable (e_cfg E) v data /\ VARSIZE_ANY v = Ok n.
Proof.
  intros Hh Hx Hc. assert (Hv : exists v, (if plain then detoast_attr E p else detoast_external_attr E p) = Ok v /\
    savable (e_cfg E) v data).
  { destruct plain.
    - exists (mk_4b_u data). split; [|apply savable_inline, inline_plain; by eapply holds_ok].
      destruct (detoast_ok E p data Hh) as [?|[_ [t ->]]]; [done|]. unfold VARATT_IS_EXTERNAL in Hx. by autorewrite with varatt in Hx.
    - destruct (detoast_external_ok E p data Hh Hx) as (v & -> & _ & Hs). exists v. auto. }
  destruct Hv as (v & Hv & Hs). destruct (savable_varsize _ v data Hs) as (n & Hn & _). by exists v, n.
Qed.

(** One column, with the flag [d] for deleting its old value. *)
Lemma init_new dels att d v ct :
  d = 0 \/ d = TOAST_NEEDS_DELETE_OLD -> col_holds E att v ct -> toastable att v ct ->
  forall old, init_old att old v = Ok (Some d) ->
  returns (init_col E att old v) (fun '(v', a, f) =>
    col_state (e_cfg E) (e_store E) dels att v' a ct /\
    flag (tai_colflags a) TOASTCOL_NEEDS_DELETE_OLD = flag d TOAST_NEEDS_DELETE_OLD /\
    flag f TOAST_NEEDS_DELETE_OLD = flag d TOAST_NEEDS_DELETE_OLD /\ flag f TOAST_HAS_NULLS = null_col v /\
    (flag f TOAST_NEEDS_CHANGE = false -> v' = v)).
Proof.
  intros Hd Hc Ht old Hold. unfold init_col. rewrite Hold. bind.
  assert (Hmark : forall w, attlen att <> -1 -> moved att w) by (intros w Hl p _ Hl'; done).
  destruct Hc as [|z Hb Hl Hz|p t Hb Hl Hz|s t Hb Hl Ha Hs|p data Hb Hl Hh].
  - cbn [returns]. destruct Hd as [-> | ->]; (split; [apply cs_done; [done|constructor|intros ?; done]|done]).
  - assert ((attlen att =? -1) = false) as -> by (unfold byval_len in *; lia). cbn [returns].
    split; [|by destruct Hd as [-> | ->]]. apply cs_done; [by destruct Hd as [-> | ->]| |apply Hmark; unfold byval_len in *; lia].
    apply cf_fixed; [unfold byval_len in *; lia|by intros; apply ch_word|done].
  - assert ((attlen att =? -1) = false) as -> by lia. cbn [returns].
    split; [|by destruct Hd as [-> | ->]]. apply cs_done; [by destruct Hd as [-> | ->]| |apply Hmark; lia].
    apply cf_fixed; [lia|by intros; apply ch_fixed|done].
  - assert ((attlen att =? -1) = false) as -> by lia. cbn [returns].
    split; [|by destruct Hd as [-> | ->]]. apply cs_done; [by destruct Hd as [-> | ->]| |apply Hmark; lia].
    apply cf_fixed; [lia|by intros; apply ch_string|done].
  - destruct (Ht p data eq_refl eq_refl Hl) as [Hcp Hco]. rewrite Hl. change (-1 =? -1) with true. cbn [DatumGetPointer]. bind.
    set (plain := attstorage att =? TYPSTORAGE_PLAIN). set (fl := if plain then _ else _).
    assert (Hstate : forall v' n a, savable (e_cfg E) v' data -> VARSIZE_ANY v' = Ok n -> tai_size a = n ->
      flag (tai_colflags a) TOASTCOL_IGNORE = plain -> tai_compression a = attcompression att ->
      col_state (e_cfg E) (e_store E) dels att (Some (DPtr v')) a (CVarlena data)).
    { intros v' n a Hs Hn <- Hf Hm. destruct plain eqn:Hpl; subst plain.
      - apply cs_done; [done|by apply cf_varlena, fv_inrow|]. intros ? _ _ Hne. lia.
      - apply cs_open; try done; [lia|]. apply Hco. lia. }
    destruct (holds_inrow E p data Hh) as [[Hin ->]|Hx].
    + bind. pose proof (inrow_savable _ p data Hin (proj1 Hcp)) as Hs. destruct (savable_varsize _ p data Hs) as (n & Hn & _).
      rewrite Hn. bind. cbn [returns]. split; [eapply Hstate; try done; subst fl; by destruct Hd as [-> | ->], plain|].
      subst fl. by destruct Hd as [-> | ->], plain.
    + rewrite Hx. bind. destruct (fetch_new plain p data Hh Hx Hcp) as (v' & n & -> & Hs & Hn). bind. rewrite Hn. bind.
      cbn [returns]. split; [eapply Hstate; try done; subst fl; by destruct Hd as [-> | ->], plain|].
      subst fl. by destruct Hd as [-> | ->], plain.
Qed.

(** The same for any column: the pointers it keeps are to none of the doomed entries. *)
Definition col_flag (att : attribute) (old : option (option Datum)) (v : option Datum) : bool :=
  match old with Some o => drops att o v | None => false end.

Lemma init_col_ok dels att old v ct :
  col_holds E att v ct -> toastable att v ct -> (forall o, old = Some o -> exists oct, col_holds E att o oct) ->
  (forall o tp, old = Some o -> pointer_of att o = Some tp -> pointer_of att v = Some tp ->
     forall tp', tp' ∈ dels -> other tp' tp) ->
  returns (init_col E att old v) (fun '(v', a, f) =>
    col_state (e_cfg E) (e_store E) dels att v' a ct /\
    flag (tai_colflags a) TOASTCOL_NEEDS_DELETE_OLD = col_flag att old v /\
    flag f TOAST_NEEDS_DELETE_OLD = col_flag att old v /\ flag f TOAST_HAS_NULLS = null_col v /\
    (flag f TOAST_NEEDS_CHANGE = false -> v' = v)).
Proof.
  intros Hc Ht Hold Hkept. destruct old as [o|]; [|by apply (init_new dels att 0); [left| | |]].
  destruct (Hold o eq_refl) as (oct & Ho). pose proof (init_old_ok att o oct v ct Ho Hc) as Hio.
  unfold col_flag, drops, drop_of. destruct (pointer_of att o) as [tp|] eqn:Hp; cbn [mbind option_bind];
    [|by apply (init_new dels att 0); [left| | |]].
  case_decide as Hd; [|by apply (init_new dels att TOAST_NEEDS_DELETE_OLD); [right| | |]].
  unfold init_col. rewrite Hio. bind. cbn [returns].
  destruct (pointer_of_holds E att v ct tp Hc Hd) as (t & ext & data & -> & -> & Hb & Hl & Hok & Hdt & Hpt & Hs).
  split; [|done]. apply cs_done; [done| |by intros p [= <-]]. apply cf_varlena; try done.
  apply (fv_ondisk _ _ _ tp ext); try done. by apply (Hkept o).
Qed.

Lemma row_state_cons c st dels att v a ct atts values infos cs :
  col_state c st dels att v a ct -> row_state c st dels atts cs values infos ->
  row_state c st dels (att :: atts) (ct :: cs) (v :: values) (a :: infos).
Proof.
  intros Hc [H1 H2 H3 Hcol]. split; try (simpl; lia). intros [|i] att' v' a' ct' Ha Hv Hi Hct; [|by apply (Hcol i)].
  simpl in *. by simplify_eq.
Qed.

Definition row_flags (atts : list attribute) (olds : option (list (option Datum))) (values : list (option Datum)) : list bool :=
  match olds with Some os => drop_flags atts os values | None => map (fun _ => false) values end.

(** No pointer that is kept is to a doomed entry. *)
Definition kept_row (dels : list varatt_external) (atts : list attribute) (olds values : list (option Datum)) : Prop :=
  forall i att o v tp, atts !! i = Some att -> olds !! i = Some o -> values !! i = Some v ->
    pointer_of att o = Some tp -> pointer_of att v = Some tp -> forall tp', tp' ∈ dels -> other tp' tp.

Definition toastable_row (atts : list attribute) (values : list (option Datum)) (cs : list content) : Prop :=
  forall i att v ct, atts !! i = Some att -> values !! i = Some v -> cs !! i = Some ct -> toastable att v ct.

Lemma init_loop_ok dels atts values cs : row_holds E atts values cs -> forall olds,
  toastable_row atts values cs -> (forall os, olds = Some os -> exists ocs, row_holds E atts os ocs) ->
  (forall os, olds = Some os -> kept_row dels atts os values) ->
  returns (init_loop E atts olds values) (fun '(vs, infos, f) =>
    row_state (e_cfg E) (e_store E) dels atts cs vs infos /\ del_flags infos = row_flags atts olds values /\
    flag f TOAST_NEEDS_DELETE_OLD = existsb id (row_flags atts olds values) /\
    flag f TOAST_HAS_NULLS = existsb null_col values /\ (flag f TOAST_NEEDS_CHANGE = false -> vs = values)).
Proof.
  induction 1 as [|att v ct atts values cs Hc Hrow IH]; intros olds Ht Hold Hkept.
  { cbn [init_loop returns]. split; [split; done|]. destruct olds; done. }
  cbn [init_loop].
  assert (Hsplit : exists old rest, match olds with None => Ok None | Some (o :: _) => Ok (Some o) | Some [] => Ub end = Ok old /\
    match olds with Some (_ :: os) => Some os | _ => None end = rest /\
    row_flags (att :: atts) olds (v :: values) = col_flag att old v :: row_flags atts rest values /\
    (forall o, old = Some o -> exists oct, col_holds E att o oct) /\
    (forall os, rest = Some os -> exists ocs, row_holds E atts os ocs) /\
    (forall o tp, old = Some o -> pointer_of att o = Some tp -> pointer_of att v = Some tp ->
       forall tp', tp' ∈ dels -> other tp' tp) /\ (forall os, rest = Some os -> kept_row dels atts os values)).
  { destruct olds as [os|]; [|exists None, None; split_and!; done].
    destruct (Hold os eq_refl) as (ocs & Ho). inversion Ho as [|? o oct ? os' ocs' Hoc Hor]; subst.
    exists (Some o), (Some os'). split_and!; try done.
    - intros o' [= <-]. by exists oct.
    - intros os [= <-]. by exists ocs'.
    - intros o' tp [= <-]. by apply (Hkept _ eq_refl 0%nat att o v).
    - intros os [= <-] i ? ? ? ? ? ? ?. by apply (Hkept _ eq_refl (S i)). }
  destruct Hsplit as (old & rest & -> & -> & -> & Ho1 & Hos & Hk1 & Hks). bind.
  pose proof (init_col_ok dels att old v ct Hc (Ht 0%nat _ _ _ eq_refl eq_refl eq_refl) Ho1 Hk1) as H1.
  apply returns_eq in H1 as ([[v' a] f] & -> & Hst & Ha & Hf & Hn & Hch). bind.
  specialize (IH rest (fun i => Ht (S i)) Hos Hks). apply returns_eq in IH as ([[vs infos] fs] & -> & Hrs & Hdf & Hfs & Hns & Hchs).
  bind. cbn [returns existsb]. split_and!.
  - by apply row_state_cons.
  - unfold del_flags in *. cbn [map]. by rewrite Ha, Hdf.
  - by rewrite flag_lor_l, Hf, Hfs.
  - by rewrite flag_lor_l, Hn, Hns.
  - rewrite flag_lor_l. intros [Hg Hgs]%orb_false_iff. by rewrite Hch, Hchs.
Qed.
End init.

(** ** The size of the row *)

Definition content_len (ct : content) : Z :=
  match ct with CNull => 0 | CWord _ => 8 | CFixed p => zlen p | CString s => zlen s | CVarlena data => zlen data end.
Definition row_bytes (cs : list content) : Z := foldr (fun ct n => content_len ct + 32 + n) 0 cs.

Lemma savable_piece E att p data :
  savable (e_cfg E) p data -> exists al w, varlena_packs E att p al w /\ zlen w <= zlen data + 4.
Proof.
  intros [v d [d' t Hd|d' t Hd]|id payload d t Hc Hd Hok Hlt].
  - destruct (decide (attstorage att = TYPSTORAGE_PLAIN)) as [Hp|Hp]; [|destruct (decide (ok_1b d')) as [Hs|Hs]].
    + exists true, (mk_4b_u d'). split; [apply vp_plain; [by left|done]|zl].
    + exists false, (mk_1b d'). split; [by apply vp_packed|zl].
    + exists true, (mk_4b_u d'). split; [apply vp_plain; [by right|done]|zl].
  - exists false, (mk_1b d'). split; [by apply vp_short|zl].
  - exists true, (mk_4b_c (zlen d) id payload). split; [by apply vp_compressed|rewrite zlen_4b_c; lia].
Qed.

Lemma final_piece E st dels att v ct :
  col_final (e_cfg E) st dels att v ct -> exists x, packs_col E att v x /\ piece_len x <= content_len ct + 18.
Proof.
  intros [|v' ct' Hl Hh Hn|p data Hb Hl [p' d Hs|tp ext d t Hok Hd Hp Hs Ho]].
  - exists None. split; [done|]. cbn. lia.
  - specialize (Hh E). destruct Hh as [|z Hb Hbl Hz|p t Hb Hpos Hz|s t Hb Hl2 Ha Hs|p data Hb Hl2 Hh]; [done| | | |done].
    + eexists (Some (_, _)). split; [by apply packs_byval|]. cbn [piece_len content_len]. rewrite le_length.
      unfold byval_len in Hbl. lia.
    + eexists (Some (_, _)). split; [by apply packs_fixed|]. cbn [piece_len content_len]. lia.
    + eexists (Some (_, _)). split; [by apply packs_cstring|]. cbn [piece_len content_len]. zl.
  - destruct (savable_piece E att p' d Hs) as (al & w & Hp & Hw). exists (Some (al, w)). split; [by apply packs_varlena|]. cbn. lia.
  - exists (Some (false, mk_ondisk tp)). split; [by apply packs_varlena, vp_ondisk|]. cbn [piece_len content_len].
    rewrite zlen_ondisk. pose proof (zlen_nonneg d). lia.
Qed.

Lemma lay_cons att x atts xs off :
  0 <= off -> exists off', 0 <= off' /\ zlen (lay off (att :: atts) (x :: xs)) <= piece_len x + 8 + zlen (lay off' atts xs).
Proof.
  intros Hoff. destruct x as [[al w]|]; cbn [lay piece_len]; [|exists off; split; [done|lia]].
  pose proof (place_bounds att al off Hoff). exists (place att al off + zlen w). pose proof (zlen_nonneg w). split; [lia|]. zl.
Qed.

Lemma row_size E st dels atts : forall values infos cs,
  row_state (e_cfg E) st dels atts cs values infos ->
  exists xs, packs_row E atts values xs /\ forall off, 0 <= off -> zlen (lay off atts xs) <= row_bytes cs.
Proof.
  induction atts as [|att atts IH]; intros [|v values] [|a infos] [|ct cs] [H1 H2 H3 Hcol]; try done.
  { exists []. split; [constructor|done]. }
  pose proof (Hcol 0%nat att v a ct eq_refl eq_refl eq_refl eq_refl) as Hst.
  destruct (final_piece E st dels att v ct (col_state_final _ _ _ _ _ _ _ Hst)) as (x & Hx & Hlen).
  destruct (IH values infos cs) as (xs & Hp & Hle).
  { split; [simpl in *; lia..|]. intros k ? ? ? ? ? ? ? ?. by apply (Hcol (S k)). }
  exists (x :: xs). split; [by constructor|]. intros off Hoff.
  destruct (lay_cons att x atts xs off Hoff) as (off' & Hoff' & Hl). specialize (Hle off' Hoff'). cbn [row_bytes foldr] in *.
  unfold row_bytes in Hle. lia.
Qed.

(** ** The new tuple *)

Lemma packs_store E st att d al w : packs E att d al w -> packs (with_store E st) att d al w.
Proof.
  intros [z|p t|s t|p al' w' Hb Hl Hp]; [by apply packs_byval|by apply packs_fixed|by apply packs_cstring|].
  apply packs_varlena; try done.
  destruct Hp; [by apply vp_packed|by apply vp_plain|by apply vp_short|by apply vp_compressed|by apply vp_ondisk|by apply vp_indirect|].
  by eapply vp_expanded.
Qed.
Lemma packs_row_store E st atts values xs : packs_row E atts values xs -> packs_row (with_store E st) atts values xs.
Proof.
  induction 1 as [|att v x atts values xs Hx _ IH]; constructor; [|done].
  destruct v as [d|], x as [[al w]|]; try done. by apply packs_store.
Qed.

Definition null_content (ct : content) : bool := match ct with CNull => true | _ => false end.
Lemma row_holds_nulls E atts values cs : row_holds E atts values cs -> existsb null_col values = existsb null_content cs.
Proof. induction 1 as [|att v ct atts values cs [] _ IH]; cbn [existsb null_col null_content]; by rewrite ?IH. Qed.

Lemma row_state_after c st dels st' atts cs values infos :
  after_delete st dels st' -> row_state c st dels atts cs values infos -> row_state c st' dels atts cs values infos.
Proof.
  intros Had [H1 H2 H3 Hcol]. split; try done. intros i att v a ct Ha Hv Hi Hct.
  destruct (Hcol i att v a ct Ha Hv Hi Hct) as [v' a' ct' Hig Hf Hm|]; [|by apply cs_open]. apply cs_done; try done.
  destruct Hf as [|v' ct' Hl Hh Hn|p data Hb Hl [p' d Hs|tp ext d t Hok Hd Hp Hs Ho]];
    [constructor|by apply cf_fixed|by apply cf_varlena, fv_inrow|]. apply cf_varlena; try done.
  apply (fv_ondisk _ _ _ tp ext); try done. by apply (ad_keeps _ _ _ Had).
Qed.

Section new_tuple.
Context (E : env) (st : store) (dels : list varatt_external) (desc : tupledesc) (newtup : HeapTuple).
Context (values : list (option Datum)) (infos : list ToastAttrInfo) (cs : list content).
Context (Hn : natts desc <= MaxTupleAttributeNumber) (Hfit : row_bytes cs + 512 <= MaxAllocSize).
Context (Hrow : row_state (e_cfg E) st dels (td_atts desc) cs values infos).

Lemma rebuild_ok :
  returns (rebuild_tuple E desc newtup values (existsb null_content cs)) (fun tup =>
    (exists xs, packs_row (with_store E st) (td_atts desc) values xs /\ formed desc values xs tup /\
       row_holds (with_store E st) (td_atts desc) (view 0 (td_atts desc) values xs []) cs) /\
    exists n, heap_compute_data_size E desc values = Ok n /\ t_len tup = header_len (existsb null_content cs) (natts desc) + n).
Proof.
  assert (Hholds : row_holds (with_store E st) (td_atts desc) values cs).
  { apply (row_state_holds E (mkHeaprel {| reltoastrelid := 0; rd_toastoid := 0 |} desc None) dels cs st values infos Hrow). }
  destruct (row_holds_packs _ _ _ _ Hholds) as (xs & Hp & Hview).
  destruct (row_size (with_store E st) st dels _ _ _ _ Hrow) as (xs' & Hp' & Hle). specialize (Hle 0 ltac:(lia)).
  assert (Hsz : forall ys, packs_row (with_store E st) (td_atts desc) values ys ->
    heap_compute_data_size E desc values = Ok (zlen (lay 0 (td_atts desc) ys))).
  { intros ys Hys. change (heap_compute_data_size E) with (heap_compute_data_size (with_store E st)).
    unfold heap_compute_data_size. by rewrite (data_size_loop_ok _ _ _ ys) by done. }
  pose proof (Hsz xs Hp) as Hs. rewrite (Hsz xs' Hp') in Hs. injection Hs as Hs.
  rewrite <- (row_holds_nulls _ _ _ _ Hholds), <- (has_nulls_row _ desc values xs Hp).
  pose proof (zlen_nonneg (td_atts desc)) as Hpos.
  destruct (header_len_bounds (has_nulls desc values) (natts desc)) as (Hh & _); [unfold natts in *; lia|].
  destruct (fill_tuple_ok (with_store E st) desc values xs (t_infomask (t_data newtup)) _ Hn Hp eq_refl) as (s & Hfill & Ha & Him & Hz & Hb).
  unfold rebuild_tuple. rewrite (Hsz xs Hp). bind. fold (header_len (has_nulls desc values) (natts desc)).
  pose proof (zlen_nonneg (lay 0 (td_atts desc) xs)).
  rewrite palloc_ok by (unfold HEAPTUPLESIZE in *; unfold SizeofHeapTupleHeader in *; lia). bind.
  change (heap_fill_tuple E) with (heap_fill_tuple (with_store E st)). rewrite Hfill. bind. cbn [returns]. split.
  - exists xs. split; [done|]. split; [|by apply Hview].
    by apply (formed_intro (with_store E st) desc values xs _ _ _ _ _ _ (t_infomask (t_data newtup))).
  - eexists. split; [done|]. done.
Qed.
End new_tuple.

(** ** Columns nothing more can be gained from *)

(** Out of line, or no longer than a pointer. *)
Definition shrunk (p : list Z) : Prop :=
  VARATT_IS_EXTERNAL_ONDISK p = Ok true \/
  (VARATT_IS_EXTERNAL p = Ok false /\ exists n, VARSIZE_ANY p = Ok n /\ n <= MAXALIGN TOAST_POINTER_SIZE).
Definition shrunk_row (check_main : bool) (atts : list attribute) (values : list (option Datum)) : Prop :=
  forall k att p, atts !! k = Some att -> values !! k = Some (Some (DPtr p)) -> attlen att = -1 ->
  right_storage check_main att = true -> shrunk p.

Lemma packs_shrunk E att p al w t : varlena_packs E att p al w -> shrunk p -> shrunk (w ++ t).
Proof.
  unfold shrunk, VARSIZE_ANY. intros [d t' Hst Hd|d t' Hst Hd|d t' Hd|raw id payload t' Hok|tp t'|addr t'|tag addr d t' Ht Ha Hd Hf] [Ho|[Hx (n & Hn & Hle)]];
    try (by left).
  all: try (exfalso; revert Ho; by tags).
  - right. pose proof (mk_1b_small d Hd). tags. split; [done|]. tags. eexists. split; [done|]. revert Hn. tags. tags. intros [= <-]. lia.
  - right. tags. split; [done|]. tags. tags. eexists. split; [done|]. revert Hn. tags. tags. intros [= <-]. lia.
  - right. tags. split; [done|]. tags. eexists. split; [done|]. revert Hn. tags. intros [= <-]. lia.
  - right. tags. split; [done|]. tags. tags. eexists. split; [done|]. revert Hn. tags. tags. intros [= <-]. lia.
  - by destruct Ht as [-> | ->].
Qed.

Lemma shrunk_view E cm atts values xs : packs_row E atts values xs -> shrunk_row cm atts values -> forall off t,
  shrunk_row cm atts (view off atts values xs t).
Proof.
  induction 1 as [|att v x atts values xs Hx _ IH]; intros Hs off t; [done|].
  assert (Hs' : shrunk_row cm atts values) by (intros k; apply (Hs (S k))).
  destruct v as [d|], x as [[al w]|]; try done; cbn [view]; intros [|k] att' p Ha Hv Hl Hr; try done; try (by eapply IH).
  injection Ha as <-. injection Hv as Hv. unfold fetched_datum in Hv.
  destruct Hx as [z Hb|q t' Hb Hl'|s t' Hb Hl'|q al' w' Hb Hl' Hp]; rewrite Hb in Hv; try done; try lia.
  injection Hv as <-. eapply packs_shrunk; [done|]. by apply (Hs 0%nat att q).
Qed.

Lemma stuck_shrunk c st dels rel cm cs ttc :
  row_state c st dels (td_atts (rd_att rel)) cs (ttc_values ttc) (ttc_attr ttc) -> stuck rel cm ttc ->
  shrunk_row cm (td_atts (rd_att rel)) (ttc_values ttc).
Proof.
  intros [H1 H2 H3 Hcol] Hs k att p Ha Hv Hl Hr. pose proof (lookup_lt_Some _ _ _ Ha).
  destruct (lookup_lt_is_Some_2 (ttc_attr ttc) k) as (a & Hi); [lia|]. destruct (lookup_lt_is_Some_2 cs k) as (ct & Hct); [lia|].
  pose proof (Hcol k att _ a ct Ha Hv Hi Hct) as Hst.
  inversion Hst as [v' a' ct' Hig Hf Hm|p' a' data Hig Hb Hl' Hne Hsv Hsz Hcm Hco]; subst.
  - left. apply Hm; try done. unfold right_storage, TYPSTORAGE_MAIN, TYPSTORAGE_EXTENDED, TYPSTORAGE_EXTERNAL, TYPSTORAGE_PLAIN in *. destruct cm; lia.
  - right. split; [by eapply inrow_not_external, savable_inrow|]. exists (tai_size a). split; [done|].
    apply (Hs k att _ a Ha Hv Hi). rewrite (candidate_open c false cm att p a data Hsv Hig). cbn [andb negb]. by rewrite Hr.
Qed.

(** ** The columns of a tuple *)

Definition row (tup : HeapTuple) (desc : tupledesc) : list (option Datum) :=
  match heap_deform_tuple tup desc with Ok x => fst x | _ => [] end.

Lemma row_view E desc tup values xs :
  desc_ok desc -> packs_row E (td_atts desc) values xs -> formed desc values xs tup ->
  row tup desc = view 0 (td_atts desc) values xs [].
Proof.
  intros Hd Hp Hf. destruct (deform_formed E desc desc [] values xs tup) with (rest := @nil (option Datum)) as (d' & Heq & _); try done.
  - unfold extends. by rewrite app_nil_r.
  - unfold row. rewrite Heq. cbn [fst]. by rewrite app_nil_r.
Qed.

(** Deforming does not depend on which offsets are cached. *)
Lemma deform_row E desc d tup cs :
  desc_ok desc -> tuple_holds E desc tup cs -> same_desc desc d -> desc_ok d ->
  exists d', heap_deform_tuple tup d = Ok (row tup desc, d') /\ same_desc desc d' /\ desc_ok d' /\
    row_holds E (td_atts desc) (row tup desc) cs.
Proof.
  intros Hok (values & xs & Hp & Hf & Hh) [cache ->] Hd.
  destruct (deform_formed E desc (set_cache desc cache) [] values xs tup) with (rest := @nil (option Datum)) as (d' & Heq & [cache' ->] & Hd');
    try done.
  - unfold extends. by rewrite app_nil_r.
  - rewrite app_nil_r in Heq. rewrite (row_view E desc tup values xs) by done. exists (set_cache (set_cache desc cache) cache').
    split; [done|]. split; [by exists cache'|]. by split.
Qed.

Lemma dropped_elem atts : forall olds values tp, tp ∈ dropped atts olds values ->
  exists i att o v, atts !! i = Some att /\ olds !! i = Some o /\ values !! i = Some v /\ drop_of att o v = Some tp.
Proof.
  induction atts as [|att atts IH]; intros [|o olds] [|v values] tp; cbn [dropped]; try (by intros ?%elem_of_nil).
  rewrite elem_of_app. intros [H|H].
  - exists 0%nat, att, o, v. split_and!; try done. destruct (drop_of att o v); [|by apply elem_of_nil in H].
    by apply list_elem_of_singleton in H as ->.
  - destruct (IH olds values tp H) as (i & att' & o' & v' & ?). by exists (S i), att', o', v'.
Qed.

Lemma dropped_pointers atts olds values tp : tp ∈ dropped atts olds values -> tp ∈ pointers atts olds.
Proof.
  intros (i & att & o & v & Ha & Ho & Hv & Hd)%dropped_elem. apply drop_of_pointer in Hd as [Hp _]. apply pointers_elem. by exists i, att, o.
Qed.

Lemma dropped_none atts : forall olds values, existsb id (drop_flags atts olds values) = false -> dropped atts olds values = [].
Proof.
  induction atts as [|att atts IH]; intros [|o olds] [|v values] H; cbn [dropped drop_flags existsb] in *; try done.
  apply orb_false_iff in H as [Hd H]. unfold drops in Hd. cbn [id] in Hd. destruct (drop_of att o v); [done|]. by apply IH.
Qed.

(** No two columns refer to the same entry. *)
Definition apart (atts : list attribute) (values : list (option Datum)) : Prop :=
  forall i j att att' v v' tp tp', i <> j -> atts !! i = Some att -> atts !! j = Some att' ->
    values !! i = Some v -> values !! j = Some v' -> pointer_of att v = Some tp -> pointer_of att' v' = Some tp' -> other tp tp'.

Lemma apart_kept atts olds values : apart atts olds -> kept_row (dropped atts olds values) atts olds values.
Proof.
  intros Hap i att o v tp Ha Ho Hv Hpo Hpv tp' (j & att' & o' & v' & Ha' & Ho' & Hv' & Hd)%dropped_elem.
  apply drop_of_pointer in Hd as [Hp' Hne]. apply (Hap j i att' att o' o); try done. intros ->. by simplify_eq.
Qed.

(** ** INSERT and UPDATE *)

(** The old tuple's entries that the new tuple does not have. *)
Definition obsolete (rel : heaprel) (newtup : HeapTuple) (oldtup : option HeapTuple) : list varatt_external :=
  match oldtup with
  | Some old => dropped (td_atts (rd_att rel)) (row old (rd_att rel)) (row newtup (rd_att rel))
  | None => []
  end.

(** The row that is to be stored and the database it comes to.  The callers, heap_insert and
    heap_update, provide a formed tuple of less than a gigabyte, and the old tuple's
    entries in their toast tables, each of one column.  Two conditions are not theirs to
    provide: [up_toastable], that each column's compression method can be applied to its
    value ([method_ok]: liblz4 is there and works where LZ4 is the method; where RLE is,
    its literal buffer is not overrun and the chunks have room for what it writes past
    its requests), and [up_room], that there are unused value ids in the toast table. *)
Record updatable (E : env) (rel : heaprel) (newtup : HeapTuple) (oldtup : option HeapTuple) (cs : list content) : Prop := {
  up_desc : desc_ok (rd_att rel);
  up_natts : natts (rd_att rel) <= MaxTupleAttributeNumber;
  up_new : tuple_holds E (rd_att rel) newtup cs;
  up_size : row_bytes cs + 512 <= MaxAllocSize;
  up_toastable : toastable_row E (td_atts (rd_att rel)) (row newtup (rd_att rel)) cs;
  up_store : store_ok (e_store E);
  up_room : reltoastrelid (hr_rel rel) <> InvalidOid ->
    rd_toastoid (hr_rel rel) = InvalidOid /\
    exists tr, st_rels (e_store E) !! reltoastrelid (hr_rel rel) = Some tr /\
      Z.of_nat (size (used_ids tr)) + natts (rd_att rel) <= OID_RANGE;
  up_old old : oldtup = Some old -> exists ocs, tuple_holds E (rd_att rel) old ocs;
  up_apart old : oldtup = Some old -> apart (td_atts (rd_att rel)) (row old (rd_att rel));
  up_live old tp : oldtup = Some old -> tp ∈ pointers (td_atts (rd_att rel)) (row old (rd_att rel)) -> in_table (e_store E) tp
}.

Section update.
Context (E : env) (rel : heaprel) (newtup : HeapTuple) (oldtup : option HeapTuple) (cs : list content).
Context (Hup : updatable E rel newtup oldtup cs).
Local Abbreviation atts := (td_atts (rd_att rel)).
Local Abbreviation nulls := (existsb null_content cs).
Local Abbreviation olds := ((fun o => row o (rd_att rel)) <$> oldtup).
Local Abbreviation dels := (obsolete rel newtup oldtup).
Local Abbreviation flags := (row_flags atts olds (row newtup (rd_att rel))).

Lemma obsolete_live tp : tp ∈ dels -> in_table (e_store E) tp.
Proof.
  unfold obsolete. destruct oldtup as [old|] eqn:Ho; [|by intros ?%elem_of_nil].
  intros H%dropped_pointers. by apply (up_live _ _ _ _ _ Hup old).
Qed.

Lemma deform_both :
  exists d d', heap_deform_tuple newtup (rd_att rel) = Ok (row newtup (rd_att rel), d) /\
    (match oldtup with
     | None => Ok (None, d)
     | Some oldtup => z ← heap_deform_tuple oldtup d; Ok (Some (fst z), snd z)
     end) = Ok (olds, d') /\ same_desc (rd_att rel) d' /\ desc_ok d' /\
    row_holds E atts (row newtup (rd_att rel)) cs /\ (forall os, olds = Some os -> exists ocs, row_holds E atts os ocs).
Proof.
  pose proof (up_desc _ _ _ _ _ Hup) as Hd.
  destruct (deform_row E (rd_att rel) (rd_att rel) newtup cs Hd (up_new _ _ _ _ _ Hup)) as (d & Heq & Hsame & Hd' & Hrow);
    [by exists (td_cache (rd_att rel)); destruct (rd_att rel)|done|].
  exists d. destruct oldtup as [old|] eqn:Ho; [|by exists d].
  destruct (up_old _ _ _ _ _ Hup old eq_refl) as (ocs & Hold).
  destruct (deform_row E (rd_att rel) d old ocs Hd Hold Hsame Hd') as (d' & Heq' & Hsame' & Hd'' & Hrow'). exists d'. rewrite Heq'. bind.
  split_and!; try done. intros os [= <-]. by exists ocs.
Qed.

(** The context after toast_tuple_init satisfies the invariant of the rounds. *)
Lemma init_inv d :
  same_desc (rd_att rel) d -> row_holds E atts (row newtup (rd_att rel)) cs ->
  (forall os, olds = Some os -> exists ocs, row_holds E atts os ocs) ->
  returns (toast_tuple_init E d (row newtup (rd_att rel)) olds) (fun ttc =>
    inv E (mkHeaprel (hr_rel rel) d (toast_tuple_target rel)) dels cs (row newtup (rd_att rel))
      nulls (existsb id flags) flags (ttc, e_store E)).
Proof.
  intros Hsame Hrow Hold. destruct (same_desc_atts _ _ Hsame) as [Hatts Hnat]. unfold toast_tuple_init. rewrite Hatts.
  eapply returns_bind; [apply (init_loop_ok E dels atts _ cs Hrow olds (up_toastable _ _ _ _ _ Hup) Hold)|].
  { intros os. unfold obsolete. destruct oldtup as [old|] eqn:Ho; [|done]. intros [= <-].
    by apply apart_kept, (up_apart _ _ _ _ _ Hup). }
  intros [[vs infos] f] (Hst & Hdf & Hfd & Hfn & Hch). cbn [returns].
  constructor; cbn [fst snd ttc_values ttc_attr ttc_flags rd_att hr_rel]; rewrite ?Hatts; try done.
  - rewrite Hfn. by apply (row_holds_nulls E atts).
  - apply (up_store _ _ _ _ _ Hup).
  - by intros ? ? ?.
  - intros Hid. cbn [hr_rel] in *. destruct (up_room _ _ _ _ _ Hup Hid) as (Hrw & tr & Htr & Hsz). split; [done|].
    exists tr. split_and!; try done.
    + pose proof (count_le (is_open infos) (length infos)). unfold open_count. rewrite (rs_infos _ _ _ _ _ _ _ Hst) in *.
      unfold natts, zlen in Hsz. lia.
    + intros tp Hin He. destruct (obsolete_live tp Hin) as (tr' & Htr' & Hu). rewrite He, Htr in Htr'. by injection Htr' as <-.
Qed.

Lemma no_flags (values : list (option Datum)) : existsb id (map (fun _ => false) values) = false.
Proof. by induction values. Qed.

(** toast_tuple_cleanup removes the obsolete entries. *)
Lemma cleanup_inv d ttc st :
  same_desc (rd_att rel) d -> row_holds E atts (row newtup (rd_att rel)) cs ->
  (forall os, olds = Some os -> exists ocs, row_holds E atts os ocs) ->
  inv E (mkHeaprel (hr_rel rel) d (toast_tuple_target rel)) dels cs (row newtup (rd_att rel))
    nulls (existsb id flags) flags (ttc, st) ->
  returns (toast_tuple_cleanup st ttc olds) (after_delete st dels).
Proof.
  intros Hsame Hrow Hold Hinv. unfold toast_tuple_cleanup.
  pose proof (inv_del _ _ _ _ _ _ _ _ _ Hinv) as Hdel. pose proof (inv_delf _ _ _ _ _ _ _ _ _ Hinv) as Hdf.
  pose proof (inv_store _ _ _ _ _ _ _ _ _ Hinv) as Hst. cbn [fst snd] in *. rewrite Hdel.
  destruct (row_holds_length _ _ _ _ Hrow) as [Hlen _].
  assert (Hrels : forall tp, tp ∈ dels -> is_Some (st_rels st !! va_toastrelid tp)).
  { intros tp Hin. apply (inv_rels _ _ _ _ _ _ _ _ _ Hinv). destruct (obsolete_live tp Hin) as (tr & -> & _). by eexists. }
  unfold obsolete in *. destruct oldtup as [old|]; cbn [fmap option_fmap option_map row_flags] in *.
  - destruct (existsb id _) eqn:Hex.
    + destruct (Hold _ eq_refl) as (ocs & Hor). by apply (cleanup_ok E atts _ ocs Hor (row newtup (rd_att rel))).
    + rewrite (dropped_none _ _ _ Hex). by apply after_none.
  - rewrite no_flags. by apply after_none.
Qed.

(** The tuple is as long as heap_form_tuple would make it from its own columns. *)
Definition tight (tup : HeapTuple) : Prop :=
  exists n, heap_compute_data_size E (rd_att rel) (row tup (rd_att rel)) = Ok n /\
    t_len tup = header_len nulls (natts (rd_att rel)) + n.

(** The rebuilt tuple, or the given one if nothing has changed. *)
Lemma result_ok d ttc st :
  same_desc (rd_att rel) d -> desc_ok d ->
  row_state (e_cfg E) st dels atts cs (ttc_values ttc) (ttc_attr ttc) ->
  flag (ttc_flags ttc) TOAST_HAS_NULLS = nulls ->
  (flag (ttc_flags ttc) TOAST_NEEDS_CHANGE = false -> ttc_values ttc = row newtup (rd_att rel)) ->
  returns (if flag (ttc_flags ttc) TOAST_NEEDS_CHANGE
           then rebuild_tuple E d newtup (ttc_values ttc) (flag (ttc_flags ttc) TOAST_HAS_NULLS) else Ok newtup)
    (fun tup => tuple_holds (with_store E st) (rd_att rel) tup cs /\
       (tight newtup -> exists n, heap_compute_data_size E d (ttc_values ttc) = Ok n /\
          t_len tup = header_len nulls (natts (rd_att rel)) + n) /\
       (forall cm, shrunk_row cm atts (ttc_values ttc) -> shrunk_row cm atts (row tup (rd_att rel)))).
Proof.
  intros [cache ->] Hd Hrow Hnulls Hch. pose proof (up_desc _ _ _ _ _ Hup) as Hdesc. destruct (flag _ TOAST_NEEDS_CHANGE).
  - rewrite Hnulls. eapply returns_mono; [apply (rebuild_ok E st dels (set_cache (rd_att rel) cache) newtup (ttc_values ttc) (ttc_attr ttc) cs); try done|].
    + apply (up_natts _ _ _ _ _ Hup).
    + apply (up_size _ _ _ _ _ Hup).
    + intros tup [(xs & Hp & Hf & Hh) Hlen].
      assert (Hf' : formed (rd_att rel) (ttc_values ttc) xs tup) by (destruct Hf; by split).
      split; [by exists (ttc_values ttc), xs|]. split; [done|]. intros cm Hs.
      rewrite (row_view (with_store E st) _ tup (ttc_values ttc) xs) by done. by eapply shrunk_view.
  - cbn [returns]. rewrite (Hch eq_refl) in *. split; [|by split].
    destruct (up_new _ _ _ _ _ Hup) as (values & xs & Hp & Hf & _). exists values, xs.
    split; [by apply packs_row_store|]. split; [done|]. rewrite <- (row_view E _ newtup values xs) by done.
    apply (row_state_holds E rel dels cs st _ _ Hrow).
Qed.

(** Where the length of the tuple ends up. *)
Definition toasted (tup : HeapTuple) : Prop :=
  t_len tup <= RelationGetToastTupleTarget rel TOAST_TUPLE_TARGET \/
  (shrunk_row false atts (row tup (rd_att rel)) /\
   (t_len tup <= TOAST_TUPLE_TARGET_MAIN \/ shrunk_row true atts (row tup (rd_att rel)))).

Lemma fitted_toasted d ttc st tup :
  let hoff := header_len nulls (natts (rd_att rel)) in
  let limit := size_t (RelationGetToastTupleTarget rel TOAST_TUPLE_TARGET - hoff) in
  let limit' := size_t (TOAST_TUPLE_TARGET_MAIN - hoff) in
  same_desc (rd_att rel) d -> reltoastrelid (hr_rel rel) <> InvalidOid ->
  hoff <= RelationGetToastTupleTarget rel TOAST_TUPLE_TARGET <= TOAST_TUPLE_TARGET_MAIN ->
  row_state (e_cfg E) st dels atts cs (ttc_values ttc) (ttc_attr ttc) ->
  (limit <= limit' -> fitted E (mkHeaprel (hr_rel rel) d (toast_tuple_target rel)) limit limit' ttc) ->
  (exists n, heap_compute_data_size E d (ttc_values ttc) = Ok n /\ t_len tup = hoff + n) ->
  (forall cm, shrunk_row cm atts (ttc_values ttc) -> shrunk_row cm atts (row tup (rd_att rel))) -> toasted tup.
Proof.
  intros hoff limit limit' [cache ->] Hid Hle Hrow Hfit (n & Hn & Hlen) Hshrunk.
  assert (Hoff : 0 <= hoff).
  { pose proof (zlen_nonneg (td_atts (rd_att rel))). pose proof (up_natts _ _ _ _ _ Hup).
    destruct (header_len_bounds nulls (natts (rd_att rel))) as (? & _); [unfold natts in *; lia|].
    unfold SizeofHeapTupleHeader, hoff in *. lia. }
  assert (HM : TOAST_TUPLE_TARGET_MAIN < 2 ^ 32) by done.
  assert (Hl : limit = RelationGetToastTupleTarget rel TOAST_TUPLE_TARGET - hoff) by (apply Z.mod_small; lia).
  assert (Hl' : limit' = TOAST_TUPLE_TARGET_MAIN - hoff) by (apply Z.mod_small; lia).
  assert (Hsmall : forall l, small E (mkHeaprel (hr_rel rel) (set_cache (rd_att rel) cache) (toast_tuple_target rel)) l ttc -> t_len tup <= hoff + l)
    by (intros l (m & Hm & ?); cbn [rd_att] in Hm; rewrite Hn in Hm; injection Hm as <-; lia).
  assert (Hst : forall cm, stuck (mkHeaprel (hr_rel rel) (set_cache (rd_att rel) cache) (toast_tuple_target rel)) cm ttc ->
    shrunk_row cm atts (row tup (rd_att rel))) by (intros cm Hs; by eapply Hshrunk, stuck_shrunk).
  destruct (Hfit ltac:(lia)) as [Hs|[Hs1 Hs2]]; [left; apply Hsmall in Hs; lia|right]. cbn [hr_rel] in *. split; [auto|].
  destruct Hs2 as [Hs|Hs]; [left; apply Hsmall in Hs; lia|right; auto].
Qed.

Lemma update_ok :
  returns (heap_toast_insert_or_update E rel newtup oldtup) (fun '(tup, st, d) =>
    tuple_holds (with_store E st) (rd_att rel) tup cs /\ store_ok st /\ same_desc (rd_att rel) d /\ desc_ok d /\
    (forall tp ext, stored (e_store E) tp ext -> (forall tp', tp' ∈ dels -> other tp' tp) -> stored st tp ext) /\
    (forall tp, tp ∈ dels -> gone st tp) /\
    (tight newtup -> reltoastrelid (hr_rel rel) <> InvalidOid ->
     header_len nulls (natts (rd_att rel)) <= RelationGetToastTupleTarget rel TOAST_TUPLE_TARGET <= TOAST_TUPLE_TARGET_MAIN ->
     toasted tup)).
Proof.
  destruct deform_both as (d & d' & Hnew & Hold & Hsame & Hd & Hrow & Hos). unfold heap_toast_insert_or_update. rewrite Hnew. bind.
  rewrite Hold. bind. eapply returns_bind; [by apply init_inv|]. intros ttc Hinv.
  eapply returns_bind; [by apply (rounds_returns E (mkHeaprel (hr_rel rel) d' (toast_tuple_target rel)) dels cs (row newtup (rd_att rel)) nulls (existsb id flags) flags)|].
  intros [ttc' st] [Hinv' Hfit]. destruct (same_desc_atts _ _ Hsame) as [Hatts Hnat].
  pose proof (cleanup_inv d' ttc' st Hsame Hrow Hos Hinv') as Hclean. apply returns_eq in Hclean as (st' & Hclean & Hdel).
  pose proof (inv_row _ _ _ _ _ _ _ _ _ Hinv') as Hst. cbn [fst snd rd_att] in *. rewrite Hatts in *.
  eapply returns_bind; [apply (result_ok d' ttc' st'); try done|].
  - by eapply row_state_after.
  - apply (inv_nulls _ _ _ _ _ _ _ _ _ Hinv').
  - apply (inv_change _ _ _ _ _ _ _ _ _ Hinv').
  - cbn beta. intros tup (Hholds & Hlen & Hshrunk). rewrite Hclean. bind. cbn [returns]. split_and!; try done.
    + apply (ad_ok _ _ _ Hdel).
    + intros tp ext Hs Hoth. apply (ad_keeps _ _ _ Hdel); [|done]. by apply (inv_keeps _ _ _ _ _ _ _ _ _ Hinv').
    + apply (ad_gone _ _ _ Hdel).
    + intros Ht Hid Hle. rewrite Hnat in Hfit. apply (fitted_toasted d' ttc' st tup); try done. by apply Hlen.
Qed.
End update.

(** ** Correctness *)

(** C1: Where each column's compression method can be applied to its value and there are
    unused value ids ([updatable]), heap_toast_insert_or_update returns a tuple that holds
    the same row as the one it was given, read with the toast tables as it leaves them:
    whatever was compressed or moved out of line reads back.  The entries of the old tuple
    that the new one does not have are gone, and no other entry of any toast table has
    changed. *)
Theorem heap_toast_insert_or_update_correct E rel newtup oldtup cs :
  updatable E rel newtup oldtup cs ->
  returns (heap_toast_insert_or_update E rel newtup oldtup) (fun '(tup, st, desc') =>
    tuple_holds (with_store E st) (rd_att rel) tup cs /\ store_ok st /\
    same_desc (rd_att rel) desc' /\ desc_ok desc' /\
    (forall tp, tp ∈ obsolete rel newtup oldtup -> gone st tp) /\
    (forall tp ext, stored (e_store E) tp ext -> (forall tp', tp' ∈ obsolete rel newtup oldtup -> other tp' tp) ->
       stored st tp ext)).
Proof.
  intros Hup. eapply returns_mono; [by apply update_ok|]. intros [[tup st] d] (H1 & H2 & H3 & H4 & H5 & H6 & _). by split_and!.
Qed.

(** C2: The toaster makes the tuple as small as it has to, for a relation with a toast
    table, a toast_tuple_target between the length of the tuple's header and
    TOAST_TUPLE_TARGET_MAIN, and a tuple without spare bytes ([tight]), to whose columns
    their compression methods can be applied ([updatable]).  The four rounds end, with a
    tuple within toast_tuple_target, or with all columns of class EXTENDED and EXTERNAL
    out of line or no longer than a toast pointer; and then within TOAST_TUPLE_TARGET_MAIN,
    or with all columns of class MAIN out of line, or no longer than a toast pointer,
    too. *)
Theorem heap_toast_insert_or_update_fits E rel newtup oldtup cs :
  updatable E rel newtup oldtup cs -> tight E rel cs newtup -> reltoastrelid (hr_rel rel) <> InvalidOid ->
  header_len (existsb null_content cs) (natts (rd_att rel)) <= RelationGetToastTupleTarget rel TOAST_TUPLE_TARGET
    <= TOAST_TUPLE_TARGET_MAIN ->
  returns (heap_toast_insert_or_update E rel newtup oldtup) (fun '(tup, _, _) => toasted rel tup).
Proof.
  intros Hup Ht Hid Hle. eapply returns_mono; [by apply update_ok|].
  intros [[tup st] d] (_ & _ & _ & _ & _ & _ & H). by apply H.
Qed.

(** Deleting a tuple deletes what it has out of line, and nothing else. *)
Theorem heap_toast_delete_correct E rel tup cs is_speculative :
  desc_ok (rd_att rel) -> tuple_holds E (rd_att rel) tup cs -> store_ok (e_store E) ->
  (forall tp, tp ∈ pointers (td_atts (rd_att rel)) (row tup (rd_att rel)) -> in_table (e_store E) tp) ->
  returns (heap_toast_delete rel (e_store E) tup is_speculative) (fun '(st, desc') =>
    store_ok st /\ same_desc (rd_att rel) desc' /\ desc_ok desc' /\
    (forall tp, tp ∈ pointers (td_atts (rd_att rel)) (row tup (rd_att rel)) -> gone st tp) /\
    (forall tp ext, stored (e_store E) tp ext ->
       (forall tp', tp' ∈ pointers (td_atts (rd_att rel)) (row tup (rd_att rel)) -> other tp' tp) -> stored st tp ext)).
Proof.
  intros Hd Ht Hst Hlive.
  destruct (deform_row E (rd_att rel) (rd_att rel) tup cs Hd Ht) as (d & Heq & Hsame & Hd' & Hrow);
    [by exists (td_cache (rd_att rel)); destruct (rd_att rel)|done|].
  unfold heap_toast_delete. rewrite Heq. bind. destruct (same_desc_atts _ _ Hsame) as [-> _].
  eapply returns_bind; [eapply (delete_external_ok E _ _ cs Hrow); [done|]|].
  - intros tp Hin. destruct (Hlive tp Hin) as (tr & -> & _). by eexists.
  - intros st Had. cbn [returns]. split_and!; try done; [apply (ad_ok _ _ _ Had)|apply (ad_gone _ _ _ Had)|].
    intros tp ext Hs Hoth. by apply (ad_keeps _ _ _ Had).
Qed.


(** *** Witnesses *)

Definition sample_rel : heaprel := mkHeaprel sample_relation sample_desc None.
Definition big_value : list Z := zrep 3000 65.
Definition big_row : list (option Datum) :=
  [Some (DVal 7); Some (DPtr (mk_4b_u big_value ++ [])); None; Some (DPtr (mk_1b [72; 79; 67; 79] ++ []))].
Definition big_contents : list content := [CWord 7; CVarlena big_value; CNull; CVarlena [72; 79; 67; 79]].
Definition big_tuple : HeapTuple :=
  match heap_form_tuple sample_env sample_desc big_row with Ok tup => tup | _ => sample_tuple end.

Lemma big_row_holds : row_holds sample_env (td_atts sample_desc) big_row big_contents.
Proof.
  repeat apply rh_cons; try apply rh_nil.
  - by apply (ch_word sample_env int4_att).
  - apply ch_varlena; [done|done|]. apply holds_direct, direct_inline. constructor. vm_compute. reflexivity.
  - apply ch_null.
  - apply ch_varlena; [done|done|]. apply holds_direct, direct_inline. constructor. vm_compute. discriminate.
Qed.
Lemma big_tuple_holds : tuple_holds sample_env sample_desc big_tuple big_contents.
Proof.
  pose proof (form_holds sample_env sample_desc big_row big_contents ltac:(vm_compute; discriminate) big_row_holds) as H.
  assert (Hfit : row_fits sample_env sample_desc big_row) by (exists 3013; vm_compute; split; [reflexivity|discriminate]).
  specialize (H Hfit). unfold big_tuple. by destruct (heap_form_tuple sample_env sample_desc big_row).
Qed.

Definition plainb (v : option Datum) : bool :=
  match v with
  | Some (DPtr p) =>
      match VARATT_IS_EXTERNAL p, VARATT_IS_COMPRESSED p with Ok false, Ok false => true | _, _ => false end
  | _ => true
  end.
Lemma plainb_compact E p : plainb (Some (DPtr p)) = true -> compact E p.
Proof.
  unfold plainb. intros Hp. split.
  - intros Hc. rewrite Hc in Hp. by destruct (VARATT_IS_EXTERNAL p) as [[]| | |].
  - intros addr w t -> _. done.
Qed.

Lemma forallb_lookup {A} (f : A -> bool) (l : list A) i x : forallb f l = true -> l !! i = Some x -> f x = true.
Proof.
  revert i. induction l as [|y l IH]; intros i Hf H; [done|]. apply andb_true_iff in Hf as [Hy Hl].
  destruct i as [|i]; [by injection H as <-|by apply (IH i)].
Qed.

Lemma big_toastable : toastable_row sample_env (td_atts sample_desc) (row big_tuple sample_desc) big_contents.
Proof.
  assert (Hpl : forallb plainb (row big_tuple sample_desc) = true) by (vm_compute; reflexivity).
  intros i att v ct Ha Hv Hct p data -> -> _. split.
  - exact (plainb_compact _ _ (forallb_lookup plainb _ _ _ Hpl Hv)).
  - intros _. clear Hv Hpl. destruct i as [|[|[|[|i]]]]; try discriminate Hct; injection Ha as <-; injection Hct as <-.
    + split; [apply Forall_replicate; unfold is_byte; lia|]. apply ok_pglz. vm_compute. discriminate.
    + split; [repeat constructor; unfold is_byte; lia|]. apply ok_pglz. vm_compute. discriminate.
Qed.

Lemma sample_pointer i att v tp :
  td_atts sample_desc !! i = Some att -> row sample_tuple sample_desc !! i = Some v -> pointer_of att v = Some tp ->
  i = 3%nat /\ tp = sample_tp.
Proof.
  assert (Hall : zip_with pointer_of (td_atts sample_desc) (row sample_tuple sample_desc) = [None; None; None; Some sample_tp])
    by (vm_compute; reflexivity).
  intros Ha Hv Hp. assert (Hi : zip_with pointer_of (td_atts sample_desc) (row sample_tuple sample_desc) !! i = Some (Some tp))
    by (rewrite lookup_zip_with, Ha, Hv; cbn [mbind option_bind]; rewrite Hp; reflexivity).
  rewrite Hall in Hi. clear Hall Ha Hv Hp. destruct i as [|[|[|[|i]]]]; try discriminate Hi. by injection Hi as <-.
Qed.

Lemma sample_live tp : tp ∈ pointers (td_atts sample_desc) (row sample_tuple sample_desc) -> in_table sample_store tp.
Proof.
  intros (i & att & v & Ha & Hv & Hp)%pointers_elem. destruct (sample_pointer i att v tp Ha Hv Hp) as [_ ->].
  exists sample_table. split; [reflexivity|]. apply (bool_decide_unpack _). vm_compute. exact I.
Qed.

Lemma sample_updatable : updatable sample_env sample_rel big_tuple (Some sample_tuple) big_contents.
Proof.
  split; cbn [sample_rel rd_att hr_rel].
  - exact sample_desc_ok.
  - vm_compute. discriminate.
  - exact big_tuple_holds.
  - vm_compute. discriminate.
  - exact big_toastable.
  - exact sample_store_ok.
  - intros _. split; [reflexivity|]. exists sample_table. split; [reflexivity|vm_compute; discriminate].
  - intros old [= <-]. exists sample_contents. exact sample_tuple_holds.
  - intros old [= <-] i j att att' v v' tp tp' Hne Ha Ha' Hv Hv' Hp Hp'.
    destruct (sample_pointer i att v tp Ha Hv Hp) as [-> _]. destruct (sample_pointer j att' v' tp' Ha' Hv' Hp') as [-> _].
    destruct (Hne eq_refl).
  - intros old tp [= <-]. exact (sample_live tp).
Qed.

Lemma heap_toast_insert_or_update_correct_witness :
  exists tup st desc', heap_toast_insert_or_update sample_env sample_rel big_tuple (Some sample_tuple) = Ok (tup, st, desc') /\
    tuple_holds (with_store sample_env st) sample_desc tup big_contents /\ gone st sample_tp.
Proof.
  pose proof (heap_toast_insert_or_update_correct _ _ _ _ _ sample_updatable) as H.
  apply returns_eq in H as ([[tup st] desc'] & Heq & Hh & _ & _ & _ & Hg & _). exists tup, st, desc'.
  split; [exact Heq|]. split; [exact Hh|]. apply Hg.
  assert (E : obsolete sample_rel big_tuple (Some sample_tuple) = [sample_tp]) by (vm_compute; reflexivity).
  rewrite E. apply list_elem_of_singleton. reflexivity.
Defined.

Lemma heap_toast_insert_or_update_fits_witness :
  t_len big_tuple = 3037 /\
  exists tup st desc', heap_toast_insert_or_update sample_env sample_rel big_tuple (Some sample_tuple) = Ok (tup, st, desc') /\
    t_len tup < 150 /\ toasted sample_rel tup.
Proof.
  split; [vm_compute; reflexivity|].
  assert (Ht : tight sample_env sample_rel big_contents big_tuple) by (exists 3013; vm_compute; split; reflexivity).
  pose proof (heap_toast_insert_or_update_fits _ _ _ _ _ sample_updatable Ht ltac:(vm_compute; discriminate)
    ltac:(vm_compute; split; discriminate)) as H.
  apply returns_eq in H as ([[tup st] desc'] & Heq & H). exists tup, st, desc'. split; [exact Heq|]. split; [|exact H].
  assert (E : (x ← heap_toast_insert_or_update sample_env sample_rel big_tuple (Some sample_tuple); Ok (t_len (fst (fst x)) <? 150))
    = Ok true) by (vm_compute; reflexivity).
  rewrite Heq in E. cbn [mbind res_bind fst] in E. injection E as E. apply Z.ltb_lt. exact E.
Defined.

Lemma heap_toast_delete_correct_witness :
  exists st desc', heap_toast_delete sample_rel sample_store sample_tuple false = Ok (st, desc') /\ gone st sample_tp.
Proof.
  pose proof (heap_toast_delete_correct sample_env sample_rel sample_tuple sample_contents false sample_desc_ok sample_tuple_holds
    sample_store_ok sample_live) as H.
  apply returns_eq in H as ([st desc'] & Heq & _ & _ & _ & Hg & _). exists st, desc'. split; [exact Heq|]. apply Hg.
  assert (E : pointers (td_atts (rd_att sample_rel)) (row sample_tuple (rd_att sample_rel)) = [sample_tp]) by (vm_compute; reflexivity).
  rewrite E. apply list_elem_of_singleton. reflexivity.
Defined.


