(* ===== verification/Hocotext.v ===== *)
(** The hocotext type: contrib/hocotext/hocotext.c, whose operators work on the
    RLE-compressed form of a value without decompressing it.

    The comparison functions expand one token at a time into a 131-byte buffer for each
    side; the buffers and pointers are kept, with every access checked.  Memory that
    palloc returns uninitialised and that the code reads is an argument ([mem]).
    HocotextCmp and HocotextExtract hold the theorems. *)

From S2P Require Import Prelude Rle Varatt Pglz PglzHist PglzItems PglzCodec ToastCompression Oids ToastStore Detoast.

(** ** Utility functions *)

Section utility.
Context (E : env).

(** The file's own copy of toast_fetch_datum, line for line that of detoast.c. *)
Definition hocotext_toast_fetch_datum (attr : list Z) : res (list Z) := toast_fetch_datum E attr.

(** [inl]: the argument itself, [inr]: a new datum. *)
Fixpoint hocotext_fetch_toasted_attr_n (depth : nat) (attr : list Z) : res (list Z + list Z) :=
  match depth with
  | O => Fuel
  | S depth =>
      ondisk ← VARATT_IS_EXTERNAL_ONDISK attr;
      if (ondisk : bool) then r ← hocotext_toast_fetch_datum attr; Ok (inr r) else
      indirect ← VARATT_IS_EXTERNAL_INDIRECT attr;
      if (indirect : bool) then
        pointer ← indirect_pointer E attr;
        r ← hocotext_fetch_toasted_attr_n depth pointer;
        match r with
        | inl attr => r ← copy_datum attr; Ok (inr r)
        | inr attr => Ok (inr attr)
        end
      else
      expanded ← VARATT_IS_EXTERNAL_EXPANDED attr;
      if (expanded : bool) then r ← detoast_external_attr E attr; Ok (inr r) else
      c ← VARATT_IS_COMPRESSED attr;
      if (c : bool) then Ok (inl attr) else
      s ← VARATT_IS_SHORT attr;
      if (s : bool) then r ← unshort attr; Ok (inr r) else Ok (inl attr)
  end.
Definition hocotext_fetch_toasted_attr (attr : list Z) : res (list Z) :=
  r ← hocotext_fetch_toasted_attr_n 2 attr; Ok (match r with inl a => a | inr a => a end).

Definition hocotext_datum_packed (datum : list Z) : res (list Z) :=
  c ← VARATT_IS_COMPRESSED datum;
  if (c : bool) then hocotext_fetch_toasted_attr datum else
  e ← VARATT_IS_EXTERNAL datum;
  if (e : bool) then hocotext_fetch_toasted_attr datum else Ok datum.
End utility.

(** ** Comparison *)

(** One side of a comparison: lefp, lef_count, the buffer cur_lef and cur_lef_p. *)
Record side := mkSide { s_p : Z; s_count : Z; s_cur : list Z; s_cur_p : Z }.

Definition TOKEN_BUF : Z := 131.
Definition side_init (p : Z) : side := mkSide p 0 (zrep TOKEN_BUF 0) 0.

(** Expand the token at the pointer into the buffer; [nul]: a literal token is
    terminated too (the second loop of hocotext_hoco_cmp does not). *)
Definition load_token (nul : bool) (src : list Z) (s : side) : res side :=
  b ← rd src (s_p s);
  if Z.land (Z.shiftr b 7) 1 =? 1 then
    let count := Z.land b 0x7f + THRESHOLD in
    c ← rd src (s_p s + 1);
    cur ← wr (s_cur s) 0 (zrep count c);
    cur ← wr cur count [0];
    Ok (mkSide (s_p s + 2) count cur 0)
  else
    let count := Z.land b 0x7f in
    data ← rdn src (s_p s + 1) count;
    cur ← wr (s_cur s) 0 data;
    cur ← (if nul then wr cur count [0] else Ok cur);
    Ok (mkSide (s_p s + 1 + count) count cur 0).

Definition load_if_empty (nul : bool) (src : list Z) (s : side) : res side :=
  if s_count s =? 0 then load_token nul src s else Ok s.

Definition next_char (s : side) : side := mkSide (s_p s) (s_count s - 1) (s_cur s) (s_cur_p s + 1).

(** a > b ? 1 : (a == b ? 0 : -1), on signed chars *)
Definition cmp_char (a b : Z) : Z := if schar a >? schar b then 1 else if a =? b then 0 else -1.

(** while(lef_count > 0 && righ_count > 0); the result is the value returned, or the
    state at the end of the loop. *)
Definition match_body (x : side * side) : res (side * side + (Z + side * side)) :=
  let '(l, r) := x in
  if (s_count l >? 0) && (s_count r >? 0) then
    a ← rd (s_cur l) (s_cur_p l);
    b ← rd (s_cur r) (s_cur_p r);
    if a =? b then Ok (inl (next_char l, next_char r)) else Ok (inr (inl (cmp_char a b)))
  else Ok (inr (inr (l, r))).
Definition match_loop (x : side * side) : res (Z + side * side) :=
  iter (S (Z.to_nat (s_count (fst x)))) match_body x.

(** Leave the outer loop with a value, or go round again. *)
Definition again {S} (x : Z + S) : S + (Z + S) := match x with inl v => inr (inl v) | inr s => inl s end.

Section hoco_cmp.
Context (left right : list Z) (lefend righend : Z).

Definition both_body (x : side * side) : res (side * side + (Z + side * side)) :=
  let '(l, r) := x in
  if (s_p l <? lefend) && (s_p r <? righend) then
    l ← load_if_empty true left l;
    r ← load_if_empty true right r;
    y ← match_loop (l, r);
    Ok (again y)
  else Ok (inr (inr (l, r))).

Definition left_body (x : side * side) : res (side * side + (Z + side * side)) :=
  let '(l, r) := x in
  if (s_p l <? lefend) && (s_count r >? 0) then
    l ← load_if_empty false left l;
    y ← match_loop (l, r);
    Ok (again y)
  else Ok (inr (inr (l, r))).

Definition right_body (x : side * side) : res (side * side + (Z + side * side)) :=
  let '(l, r) := x in
  if (s_p r <? righend) && (s_count l >? 0) then
    r ← load_if_empty true right r;
    y ← match_loop (l, r);
    Ok (again y)
  else Ok (inr (inr (l, r))).
End hoco_cmp.

(** Go on after a loop that did not return. *)
Definition and_then {S} (m : res (Z + S)) (k : S -> res Z) : res Z :=
  x ← m; match x with inl v => Ok v | inr s => k s end.

(** A turn reads a token of one side at least. *)
Definition hocotext_hoco_cmp (left right : list Z) (collid : Z) : res Z :=
  if negb (OidIsValid collid) then Ereport ERRCODE_INDETERMINATE_COLLATION else
  lefend ← VARSIZE_ANY left;
  righend ← VARSIZE_ANY right;
  let fuel := S (Z.to_nat lefend + Z.to_nat righend) in
  and_then (iter fuel (both_body left right lefend righend)
              (side_init VARHDRSZ_COMPRESSED, side_init VARHDRSZ_COMPRESSED)) (fun x =>
  and_then (iter fuel (left_body left lefend) x) (fun x =>
  and_then (iter fuel (right_body right righend) x) (fun '(l, r) =>
  if (s_p l <? lefend) || (s_count l >? 0) then Ok 1
  else if (s_p r <? righend) || (s_count r >? 0) then Ok (-1)
  else Ok 0))).

(** *** Compressed against plain *)

Section mixed_cmp.
Context (left right : list Z) (exchange : bool) (lefend righend : Z).

Definition mixed_char (a b : Z) : Z :=
  if exchange then if schar a >? schar b then -1 else if a =? b then 0 else 1 else cmp_char a b.

(** while(lef_count > 0 && righp < righend), on the compressed side and righp *)
Definition mixed_match_body (x : side * Z) : res (side * Z + (Z + side * Z)) :=
  let '(l, righp) := x in
  if (s_count l >? 0) && (righp <? righend) then
    a ← rd (s_cur l) (s_cur_p l);
    b ← rd right righp;
    if a =? b then Ok (inl (next_char l, righp + 1)) else Ok (inr (inl (mixed_char a b)))
  else Ok (inr (inr (l, righp))).
Definition mixed_match (x : side * Z) : res (Z + side * Z) :=
  iter (S (Z.to_nat (s_count (fst x)))) mixed_match_body x.

Definition mixed_body (x : side * Z) : res (side * Z + (Z + side * Z)) :=
  let '(l, righp) := x in
  if (s_p l <? lefend) && (righp <? righend) then
    l ← load_if_empty true left l;
    y ← mixed_match (l, righp);
    Ok (again y)
  else Ok (inr (inr (l, righp))).
End mixed_cmp.

Definition hocotext_mixed_cmp (left right : list Z) (collid : Z) : res Z :=
  cl ← VARATT_IS_COMPRESSED left;
  cr ← VARATT_IS_COMPRESSED right;
  let exchange := negb cl && cr in
  let '(comp, plain) := if exchange then (right, left) else (left, right) in
  lefend ← VARSIZE_ANY comp;
  righp ← VARDATA_ANY plain;
  righend ← VARSIZE plain;
  if negb (OidIsValid collid) then Ereport ERRCODE_INDETERMINATE_COLLATION else
  and_then (iter (S (Z.to_nat lefend)) (mixed_body comp plain exchange lefend righend)
              (side_init VARHDRSZ_COMPRESSED, righp)) (fun x =>
  and_then (mixed_match plain exchange righend x) (fun '(l, righp) =>
  if (s_p l <? lefend) || (s_count l >? 0) then Ok (if exchange then -1 else 1)
  else if righp <? righend then Ok (if exchange then 1 else -1)
  else Ok 0)).

(** *** Plain against plain *)

Definition common_body (left right : list Z) (lefend righend : Z) (x : Z * Z) : res (Z * Z + (Z + Z * Z)) :=
  let '(lefp, righp) := x in
  if (lefp <? lefend) && (righp <? righend) then
    a ← rd left lefp;
    b ← rd right righp;
    if a =? b then Ok (inl (lefp + 1, righp + 1)) else Ok (inr (inl (cmp_char a b)))
  else Ok (inr (inr (lefp, righp))).

Definition hocotext_common_cmp (left right : list Z) (collid : Z) : res Z :=
  lefp ← VARDATA_ANY left;
  lefend ← VARSIZE_ANY left;
  righp ← VARDATA_ANY right;
  righend ← VARSIZE_ANY right;
  if negb (OidIsValid collid) then Ereport ERRCODE_INDETERMINATE_COLLATION else
  and_then (iter (S (Z.to_nat lefend)) (common_body left right lefend righend) (lefp, righp))
    (fun '(lefp, righp) => if lefp <? lefend then Ok 1 else if righp <? righend then Ok (-1) else Ok 0).

(** ** Extraction *)

(** exit(0) ends the backend. *)
Inductive extracted := Exited | Returned (result : option (list Z)).

(** palloc(len + VARHDRSZ + 10) in int arithmetic *)
Definition palloc_result (len : Z) : res unit :=
  if len + VARHDRSZ + 10 >? INT_MAX then Ub else palloc (len + VARHDRSZ + 10).

(** sp, cur_offset, type and count while the offset is located *)
Record locate := mkLocate { l_sp : Z; l_cur : Z; l_type : Z; l_count : Z }.

Definition token_type (b : Z) : Z := Z.land (Z.shiftr b 7) 1.
Definition token_count (b : Z) : Z :=
  if token_type b =? 1 then Z.land b 0x7f + THRESHOLD else Z.land b 0x7f.

Definition locate_body (source : list Z) (offset : Z) (s : locate) : res (locate + locate) :=
  if l_cur s <? offset then
    b ← rd source (l_sp s);
    let type := token_type b in
    let count := token_count b in
    let reach := offset - (count + l_cur s) <=? 0 in
    let sp := if type =? 1 then l_sp s + (if reach then 1 else 2)
              else l_sp s + (if reach then offset - l_cur s + 1 else count + 1) in
    let count := if reach then count - (offset - l_cur s) else count in
    let cur := if reach then offset else l_cur s + count in
    Ok (inl (mkLocate sp cur type count))
  else Ok (inr s).

(** The copying loop, on the locate state, dp and the result's memory. *)
Definition extract_body (source : list Z) (offset len rawsize : Z) (x : locate * Z * list Z)
    : res (locate * Z * list Z + locate * Z * list Z) :=
  let '(s, dp, mem) := x in
  if (l_cur s - offset <? len) && (l_cur s <? rawsize) then
    tc ← (if l_sp s =? VARDATA then b ← rd source (l_sp s); Ok (token_type b, token_count b)
          else Ok (l_type s, l_count s));
    let '(type, count) := tc in
    let count := if count + l_cur s - offset >? len then len + offset - l_cur s else count in
    y ← (if type =? 1 then
           mem ← (if count >? 0 then c ← rd source (l_sp s); wr mem dp (zrep count c) else Ok mem);
           Ok (mem, l_sp s + 1)
         else
           data ← rdn source (l_sp s) count;
           mem ← wr mem dp data;
           Ok (mem, l_sp s + count));
    let '(mem, sp) := y in
    b ← rd source sp;
    Ok (inl (mkLocate (sp + 1) (l_cur s + count) (token_type b) (token_count b), dp + count, mem))
  else Ok (inr x).

Definition hocotext_hoco_extract (mem source : list Z) (offset len collid : Z) : res extracted :=
  _ ← palloc_result len;
  ext ← VARDATA_COMPRESSED_GET_EXTSIZE source;
  let rawsize := int32_of ext in
  if negb (OidIsValid collid) then Ereport ERRCODE_INDETERMINATE_COLLATION else
  if len <? 0 then Ok Exited else
  dp ← VARDATA_ANY mem;
  let destend := dp + len in
  s ← iter (S (length source)) (locate_body source offset) (mkLocate VARHDRSZ_COMPRESSED 0 1 0);
  x ← iter (S (length source)) (extract_body source offset len rawsize) (s, dp, mem);
  let '(s, dp, mem) := x in
  mem ← wr mem dp [0];
  if negb (dp =? destend) || (l_cur s =? rawsize) then Ok (Returned None)
  else Ok (Returned (Some (SET_VARSIZE mem (len + VARHDRSZ)))).

Definition hocotext_common_extract (mem source : list Z) (offset len collid : Z) : res (option (list Z)) :=
  _ ← palloc_result len;
  sp ← VARDATA_ANY source;
  srcend ← VARSIZE source;
  if negb (OidIsValid collid) then Ereport ERRCODE_INDETERMINATE_COLLATION else
  exhdr ← VARSIZE_ANY_EXHDR source;
  if size_t offset >? exhdr then Ok None else
  let sp := sp + offset in
  let result_len := if srcend - sp <? len then srcend - sp else len in
  dp ← VARDATA_ANY mem;
  data ← rdn source sp result_len;
  mem ← wr mem dp data;
  dp ← VARDATA_ANY mem;
  mem ← wr mem (dp + result_len) [0];
  Ok (Some (SET_VARSIZE mem (result_len + VARHDRSZ))).

(** result is returned uninitialised *)
Definition hocotext_hoco_insert (source : list Z) (offset : Z) (str : list Z) : res (option (list Z)) := Ub.
Definition hocotext_hoco_delete (source : list Z) (offset len : Z) : res (option (list Z)) := Ub.

(** ** SQL functions *)

Section sql.
Context (E : env) (collid : Z).

(** The cases that every comparison function begins with: the packed arguments and the
    result of the function for their forms. *)
Definition compare_packed (left right : list Z) : res (Z * list Z * list Z) :=
  left_datum ← hocotext_datum_packed E left;
  right_datum ← hocotext_datum_packed E right;
  is_comp_lef ← VARATT_IS_COMPRESSED left_datum;
  is_comp_righ ← VARATT_IS_COMPRESSED right_datum;
  c ← (if is_comp_lef && is_comp_righ then hocotext_hoco_cmp left_datum right_datum collid
       else if is_comp_lef || is_comp_righ then hocotext_mixed_cmp left_datum right_datum collid
       else hocotext_common_cmp left_datum right_datum collid);
  Ok (c, left_datum, right_datum).

Definition hocotext_eq (left right : list Z) : res bool := x ← compare_packed left right; Ok (x.1.1 =? 0).
Definition hocotext_nq (left right : list Z) : res bool := x ← compare_packed left right; Ok (negb (x.1.1 =? 0)).
Definition hocotext_lt (left right : list Z) : res bool := x ← compare_packed left right; Ok (x.1.1 <? 0).
Definition hocotext_le (left right : list Z) : res bool := x ← compare_packed left right; Ok (x.1.1 <=? 0).
Definition hocotext_gt (left right : list Z) : res bool := x ← compare_packed left right; Ok (x.1.1 >? 0).
Definition hocotext_ge (left right : list Z) : res bool := x ← compare_packed left right; Ok (x.1.1 >=? 0).
Definition hocotext_cmp (left right : list Z) : res Z := x ← compare_packed left right; Ok x.1.1.
Definition hocotext_smaller (left right : list Z) : res (list Z) :=
  x ← compare_packed left right; let '(c, l, r) := x in Ok (if c <? 0 then l else r).
Definition hocotext_larger (left right : list Z) : res (list Z) :=
  x ← compare_packed left right; let '(c, l, r) := x in Ok (if c >? 0 then l else r).

Definition hocotext_extract (mem source : list Z) (offset len : Z) : res extracted :=
  source_str ← hocotext_datum_packed E source;
  c ← VARATT_IS_COMPRESSED source_str;
  if (c : bool) then hocotext_hoco_extract mem source_str offset len collid
  else r ← hocotext_common_extract mem source_str offset len collid; Ok (Returned r).
Definition text_extract (mem source : list Z) (offset len : Z) : res (option (list Z)) :=
  source ← pg_detoast_datum_packed E source;
  hocotext_common_extract mem source offset len collid.

Definition hocotext_insert (source : list Z) (offset : Z) (str : list Z) : res (option (list Z)) :=
  str ← pg_detoast_datum E str;
  source_str ← hocotext_fetch_toasted_attr E source;
  c ← VARATT_IS_COMPRESSED source;
  if (c : bool) then hocotext_hoco_insert source_str offset str else Ok None.
Definition hocotext_delete (source : list Z) (offset len : Z) : res (option (list Z)) :=
  source_str ← hocotext_fetch_toasted_attr E source;
  c ← VARATT_IS_COMPRESSED source;
  if (c : bool) then hocotext_hoco_delete source_str offset len else Ok None.

Definition hocotext_hash (str : list Z) : res Z := _ ← hocotext_fetch_toasted_attr E str; Ok 0.
End sql.
