(* ===== verification/HocotextCmp.v ===== *)
(** The comparison operators of hocotext decide the order of the contents: the loops of
    hocotext_hoco_cmp and hocotext_mixed_cmp against a comparison of expanded lists. *)

From S2P Require Import Prelude Rle Varatt Pglz PglzHist PglzItems PglzCodec ToastCompression Oids ToastStore Detoast Hocotext.

(** ** The reference order *)

(** Lexicographic, bytes as signed chars, a proper prefix first. *)
Fixpoint cmp_bytes (l r : list Z) : Z :=
  match l, r with
  | [], [] => 0
  | [], _ => -1
  | _, [] => 1
  | a :: l, b :: r => if a =? b then cmp_bytes l r else cmp_char a b
  end.

Lemma cmp_bytes_nil_r l : l <> [] -> cmp_bytes l [] = 1.
Proof. by destruct l. Qed.
Lemma cmp_bytes_nil_l r : r <> [] -> cmp_bytes [] r = -1.
Proof. by destruct r. Qed.

(** ** One side *)

(** [s] is at the tokens [ts] of the source, which end at [send]; [rest] is what is left
    of the token in the buffer. *)
Record side_at (src : list Z) (send : Z) (s : side) (ts : list rle_tok) (rest : list Z) : Prop := {
  sa_wf : Forall wf_tok ts;
  sa_src : exists pre post, src = pre ++ encode ts ++ post /\ s_p s = zlen pre /\ send = zlen pre + zlen (encode ts);
  sa_buf : zlen (s_cur s) = TOKEN_BUF;
  sa_pos : 0 <= s_cur_p s /\ s_count s = zlen rest /\ s_cur_p s + zlen rest <= TOKEN_BUF;
  sa_rest : zslice (s_cur s) (s_cur_p s) (zlen rest) = rest
}.

Lemma enc_tok_len t : wf_tok t -> 2 <= zlen (enc_tok t).
Proof. destruct t as [n c|l]; simpl; intros Hw; zl. Qed.

Lemma exp_tok_len t : wf_tok t -> 1 <= zlen (exp_tok t) <= 130.
Proof. destruct t as [n c|l]; simpl; intros Hw; zl. Qed.

Lemma side_more src send s ts rest :
  side_at src send s ts rest -> (s_p s <? send) = negb (bool_decide (ts = [])).
Proof.
  intros [Hw (pre & post & _ & -> & ->) _ _ _]. destruct ts as [|t ts].
  - rewrite bool_decide_true by done. change (zlen (encode [])) with 0. lia.
  - rewrite bool_decide_false by done. rewrite encode_cons. inversion Hw; subst.
    pose proof (enc_tok_len t). zl.
Qed.

Lemma side_count src send s ts rest :
  side_at src send s ts rest -> (s_count s >? 0) = negb (bool_decide (rest = [])).
Proof.
  intros [_ _ _ (_ & -> & _) _]. destruct rest as [|b rest].
  - done.
  - rewrite bool_decide_false by done. zl.
Qed.

(** Overwriting the beginning of the buffer. *)
Lemma wr_front buf data :
  zlen data <= zlen buf -> wr buf 0 data = Ok (data ++ drop (length data) buf).
Proof. intros H. exact (wr_append [] buf data H). Qed.

(** Filling the buffer with a token and terminating it. *)
Lemma fill_buffer buf data :
  zlen buf = TOKEN_BUF -> zlen data <= 130 ->
  exists b1 b2, wr buf 0 data = Ok (data ++ b1) /\ wr (data ++ b1) (zlen data) [0] = Ok (data ++ b2) /\
    zlen (data ++ b1) = TOKEN_BUF /\ zlen (data ++ b2) = TOKEN_BUF.
Proof.
  intros Hb Hd. unfold TOKEN_BUF in *. rewrite wr_front by lia.
  assert (Hl : zlen (drop (length data) buf) = 131 - zlen data).
  { rewrite zlen_drop. change (Z.of_nat (length data)) with (zlen data). zl. }
  eexists _, _. split; [done|]. rewrite wr_append by zl. rewrite <- ?app_assoc. split; [done|].
  split; [zl|]. rewrite !zlen_app, zlen_drop, Hl. change (zlen [0]) with 1. simpl length. lia.
Qed.

Lemma token_bits_run n : 3 <= n <= 130 ->
  Z.land (Z.shiftr (n - 3 + 128) 7) 1 = 1 /\ Z.land (n - 3 + 128) 0x7f + THRESHOLD = n.
Proof. intros H. unfold THRESHOLD. land_mod. split; lia. Qed.
Lemma token_bits_lits n : 1 <= n <= 127 ->
  Z.land (Z.shiftr n 7) 1 = 0 /\ Z.land n 0x7f = n.
Proof. intros H. land_mod. split; lia. Qed.

Lemma load_token_ok nul src send s t ts rest :
  side_at src send s (t :: ts) rest ->
  returns (load_token nul src s) (fun s' => side_at src send s' ts (exp_tok t)).
Proof.
  intros [Hw (pre & post & -> & Hp & ->) Hb _ _]. inversion Hw as [|? ? Ht Hts]; subst.
  unfold load_token. rewrite Hp, encode_cons, <- app_assoc.
  assert (Hfin : forall cur n, exists pre' post',
    pre ++ enc_tok t ++ encode ts ++ post = pre' ++ encode ts ++ post' /\
    s_p (mkSide (zlen pre + zlen (enc_tok t)) n cur 0) = zlen pre' /\
    zlen pre + zlen (enc_tok t ++ encode ts) = zlen pre' + zlen (encode ts)).
  { intros cur n. exists (pre ++ enc_tok t), post. rewrite <- app_assoc. split; [done|]. simpl. zl. }
  destruct t as [n c|l]; simpl in Ht; cbn [enc_tok exp_tok] in *.
  - destruct Ht as [Hn Hc]. rewrite <- !app_comm_cons, (rd_middle pre _ _ (zlen pre)) by done. cbn [mbind res_bind].
    destruct (token_bits_run n Hn) as [-> ->]. cbn [Z.eqb Pos.eqb].
    change (n - 3 + 128 :: c :: ?x) with ([n - 3 + 128] ++ c :: x). rewrite app_assoc, rd_middle by zl.
    cbn [mbind res_bind].
    destruct (fill_buffer (s_cur s) (zrep n c) Hb ltac:(zl)) as (b1 & b2 & Hw1 & Hw2 & _ & Hl).
    replace (zlen (zrep n c)) with n in Hw2 by zl.
    rewrite Hw1. cbn [mbind res_bind]. rewrite Hw2. cbn [mbind res_bind returns].
    split; [done| |done| |].
    + destruct (Hfin (zrep n c ++ b2) n) as (pre' & post' & H1 & H2 & H3). exists pre', post'.
      split; [rewrite <- app_assoc; exact H1|]. split; [exact H2|exact H3].
    + simpl. unfold TOKEN_BUF. zl.
    + simpl. unfold zslice. rewrite drop_0. unfold zlen. by rewrite Nat2Z.id, take_app_length.
  - destruct Ht as [Hn Hc]. rewrite <- !app_comm_cons, (rd_middle pre _ _ (zlen pre)) by done. cbn [mbind res_bind].
    destruct (token_bits_lits (zlen l) Hn) as [-> ->]. cbn [Z.eqb].
    change (zlen l :: ?x) with ([zlen l] ++ x). rewrite app_assoc, rdn_middle by zl. cbn [mbind res_bind].
    destruct (fill_buffer (s_cur s) l Hb ltac:(lia)) as (b1 & b2 & Hw1 & Hw2 & Hl1 & Hl2).
    rewrite Hw1. cbn [mbind res_bind].
    assert (Hs : forall b', zlen (l ++ b') = TOKEN_BUF ->
      side_at (pre ++ (zlen l :: l) ++ encode ts ++ post) (zlen pre + zlen ((zlen l :: l) ++ encode ts))
        (mkSide (zlen pre + 1 + zlen l) (zlen l) (l ++ b') 0) ts l).
    { intros b' Hl. split; [done| |done| |].
      + destruct (Hfin (l ++ b') (zlen l)) as (pre' & post' & H1 & H2 & H3). exists pre', post'.
        split; [done|]. split; [|done]. simpl in *. rewrite <- H2. zl.
      + simpl. unfold TOKEN_BUF in *. zl.
      + simpl. unfold zslice. rewrite drop_0. unfold zlen. by rewrite Nat2Z.id, take_app_length. }
    destruct nul; [rewrite Hw2|]; cbn [mbind res_bind returns]; rewrite <- ?app_assoc; by apply Hs.
Qed.

Lemma load_if_empty_ok nul src send s ts rest :
  side_at src send s ts rest -> ts <> [] ->
  returns (load_if_empty nul src s) (fun s' => exists ts' rest',
    side_at src send s' ts' rest' /\ rest' <> [] /\ rest' ++ expand ts' = rest ++ expand ts /\
    zlen (encode ts') <= zlen (encode ts) /\ (rest = [] -> zlen (encode ts') < zlen (encode ts))).
Proof.
  intros Hs Hne. unfold load_if_empty. pose proof (sa_pos _ _ _ _ _ Hs) as (_ & Hc & _). rewrite Hc.
  destruct (decide (rest = [])) as [->|Hr].
  - cbn. destruct ts as [|t ts]; [done|]. eapply returns_mono; [by eapply load_token_ok|].
    intros s' Hs'. pose proof (Forall_inv (sa_wf _ _ _ _ _ Hs)) as Ht.
    exists ts, (exp_tok t). split; [done|]. pose proof (exp_tok_len t Ht). pose proof (enc_tok_len t Ht).
    split; [intros Heq; rewrite Heq in *; zl|]. split; [done|]. rewrite encode_cons. split; intros; zl.
  - destruct (Z.eqb_spec (zlen rest) 0) as [H0|_]; [by apply zlen_0_nil in H0|]. by exists ts, rest.
Qed.

(** ** Matching the buffers *)

Lemma zslice_cons buf i b l :
  0 <= i -> zslice buf i (zlen (b :: l)) = b :: l ->
  rd buf i = Ok b /\ zslice buf (i + 1) (zlen l) = l.
Proof.
  intros Hi. unfold zslice, zlen. rewrite !Nat2Z.id. simpl length. intros H.
  destruct (drop (Z.to_nat i) buf) as [|x k] eqn:Hd; [done|]. simpl in H. injection H as -> Hk.
  assert (Hk' : drop (Z.to_nat (i + 1)) buf = k).
  { replace (Z.to_nat (i + 1)) with (Z.to_nat i + 1)%nat by lia. rewrite <- drop_drop, Hd. done. }
  split; [|by rewrite Hk'].
  apply rd_Some; [done|]. rewrite <- (Nat.add_0_r (Z.to_nat i)), <- lookup_drop, Hd. done.
Qed.

Lemma side_next src send s ts b rest :
  side_at src send s ts (b :: rest) ->
  rd (s_cur s) (s_cur_p s) = Ok b /\ side_at src send (next_char s) ts rest.
Proof.
  intros [Hw Hsrc Hb (Hp & Hc & Hle) Hr]. destruct (zslice_cons _ _ _ _ Hp Hr) as [Hrd Hz].
  split; [done|]. split; try done. simpl. zl.
Qed.

(** The result of the matching loop on two buffers. *)
Definition matched (lsrc rsrc : list Z) (lend rend : Z) (ts us : list rle_tok) (lr rr : list Z)
    (y : Z + side * side) : Prop :=
  match y with
  | inl v => forall X Y, cmp_bytes (lr ++ X) (rr ++ Y) = v
  | inr (l, r) => exists lr' rr', side_at lsrc lend l ts lr' /\ side_at rsrc rend r us rr' /\
      (lr' = [] \/ rr' = []) /\ forall X Y, cmp_bytes (lr ++ X) (rr ++ Y) = cmp_bytes (lr' ++ X) (rr' ++ Y)
  end.

Lemma match_loop_ok lsrc rsrc lend rend l r ts us lr rr :
  side_at lsrc lend l ts lr -> side_at rsrc rend r us rr ->
  returns (match_loop (l, r)) (matched lsrc rsrc lend rend ts us lr rr).
Proof.
  intros Hl Hr. unfold match_loop. cbn [fst]. pose proof (sa_pos _ _ _ _ _ Hl) as (_ & -> & _).
  unfold zlen. rewrite Nat2Z.id. revert l r rr Hl Hr. induction lr as [|a lr IH]; intros l r rr Hl Hr.
  - assert (Hb : match_body (l, r) = Ok (inr (inr (l, r)))).
    { unfold match_body. rewrite (side_count _ _ _ _ _ Hl). done. }
    rewrite iter_S, Hb. cbn. exists [], rr. split_and!; try done. by left.
  - pose proof (side_next _ _ _ _ _ _ Hl) as [Hrdl Hnl].
    destruct rr as [|b rr].
    + assert (Hb : match_body (l, r) = Ok (inr (inr (l, r)))).
      { unfold match_body. rewrite (side_count _ _ _ _ _ Hl), (side_count _ _ _ _ _ Hr). done. }
      rewrite iter_S, Hb. cbn. exists (a :: lr), []. split_and!; try done. by right.
    + pose proof (side_next _ _ _ _ _ _ Hr) as [Hrdr Hnr].
      assert (Hb : match_body (l, r) = if a =? b then Ok (inl (next_char l, next_char r))
                                       else Ok (inr (inl (cmp_char a b)))).
      { unfold match_body. rewrite (side_count _ _ _ _ _ Hl), (side_count _ _ _ _ _ Hr).
        rewrite !bool_decide_false by done. cbn [negb andb]. rewrite Hrdl. cbn [mbind res_bind]. by rewrite Hrdr. }
      rewrite iter_S, Hb. destruct (Z.eqb_spec a b) as [->|Hne]; cbn [mbind res_bind].
      * eapply returns_mono; [by apply (IH (next_char l) (next_char r) rr)|].
        intros [v|[l' r']]; cbn [matched].
        -- intros Hv X Y. cbn [app cmp_bytes]. by rewrite Z.eqb_refl.
        -- intros (lr' & rr' & H1 & H2 & H3 & H4). exists lr', rr'. split_and!; try done.
           intros X Y. cbn [app cmp_bytes]. by rewrite Z.eqb_refl.
      * cbn. intros X Y. destruct (Z.eqb_spec a b); [done|]. done.
Qed.

(** ** The loops of hocotext_hoco_cmp *)

Section hoco.
Context (left right : list Z) (lefend righend target : Z).

(** The rest of both values compares as the values do, and a buffer is empty. *)
Record pair_at (x : side * side) (ts us : list rle_tok) (lr rr : list Z) : Prop := {
  pa_left : side_at left lefend (fst x) ts lr;
  pa_right : side_at right righend (snd x) us rr;
  pa_empty : lr = [] \/ rr = [];
  pa_cmp : cmp_bytes (lr ++ expand ts) (rr ++ expand us) = target
}.

Definition sides_ok (P : list rle_tok -> list rle_tok -> list Z -> list Z -> Prop) (x : side * side) : Prop :=
  exists ts us lr rr, pair_at x ts us lr rr /\ P ts us lr rr.
Definition loop_post (P : list rle_tok -> list rle_tok -> list Z -> list Z -> Prop) (y : Z + side * side) : Prop :=
  match y with inl v => v = target | inr x => sides_ok P x end.

Definition left_todo (x : side * side) : nat := Z.to_nat (lefend - s_p (fst x)).
Definition right_todo (x : side * side) : nat := Z.to_nat (righend - s_p (snd x)).

Lemma side_todo src send s ts rest : side_at src send s ts rest -> send - s_p s = zlen (encode ts).
Proof. intros [_ (pre & post & _ & -> & ->) _ _ _]. lia. Qed.

(** One round of matching after the buffers were filled. *)
Lemma match_round l r ts us lr rr :
  side_at left lefend l ts lr -> side_at right righend r us rr ->
  cmp_bytes (lr ++ expand ts) (rr ++ expand us) = target ->
  returns (match_loop (l, r)) (fun y => match y with
    | inl v => v = target
    | inr x => exists lr' rr', pair_at x ts us lr' rr' end).
Proof.
  intros Hl Hr Hc. eapply returns_mono; [by eapply match_loop_ok|].
  intros [v|[l' r']]; cbn [matched].
  - intros Hv. by rewrite <- (Hv (expand ts) (expand us)), Hc.
  - intros (lr' & rr' & H1 & H2 & H3 & H4). exists lr', rr'. split; try done. by rewrite <- H4.
Qed.

Lemma both_loop fuel x :
  sides_ok (fun _ _ _ _ => True) x -> (left_todo x + right_todo x < fuel)%nat ->
  returns (iter fuel (both_body left right lefend righend) x)
    (loop_post (fun ts us _ _ => ts = [] \/ us = [])).
Proof.
  intros Hx Hf. apply (iter_returns (sides_ok (fun _ _ _ _ => True)) (fun x => left_todo x + right_todo x)%nat);
    [|done|done].
  clear x Hx Hf. intros [l r] (ts & us & lr & rr & [Hl Hr He Hc] & _). cbn [fst snd] in *. unfold both_body.
  rewrite (side_more _ _ _ _ _ Hl), (side_more _ _ _ _ _ Hr).
  destruct (decide (ts = [])) as [->|Hts]; [by exists [], us, lr, rr; split; [|left]|].
  destruct (decide (us = [])) as [->|Hus].
  { rewrite (bool_decide_false (ts = [])) by done. by exists ts, [], lr, rr; split; [|right]. }
  rewrite !bool_decide_false by done. cbn [negb andb].
  eapply returns_bind; [by eapply load_if_empty_ok|]. intros l' (ts' & lr' & Hl' & Hnl & Heql & Hml & Hml'). cbv beta.
  eapply returns_bind; [by eapply load_if_empty_ok|]. intros r' (us' & rr' & Hr' & Hnr & Heqr & Hmr & Hmr'). cbv beta.
  eapply returns_bind; [apply (match_round l' r' ts' us' lr' rr'); try done; by rewrite Heql, Heqr|].
  intros [v|[l2 r2]]; cbn [again returns]; [done|]. intros (lr2 & rr2 & Hp).
  split; [by exists ts', us', lr2, rr2|].
  destruct Hp as [Hl2 Hr2 _ _]. unfold left_todo, right_todo. cbn [fst snd] in *.
  rewrite (side_todo _ _ _ _ _ Hl), (side_todo _ _ _ _ _ Hr).
  rewrite (side_todo _ _ _ _ _ Hl2), (side_todo _ _ _ _ _ Hr2).
  pose proof (zlen_nonneg (encode ts')). pose proof (zlen_nonneg (encode us')).
  destruct He as [He|He]; [specialize (Hml' He)|specialize (Hmr' He)]; lia.
Qed.

(** In the second loop the right side has only its buffer, or the left side has none of
    its tokens. *)
Lemma left_loop fuel x :
  sides_ok (fun ts us _ _ => ts = [] \/ us = []) x -> (left_todo x < fuel)%nat ->
  returns (iter fuel (left_body left lefend) x)
    (loop_post (fun ts us lr rr => ts = [] \/ (us = [] /\ rr = []))).
Proof.
  intros Hx Hf. apply (iter_returns (sides_ok (fun ts us _ _ => ts = [] \/ us = [])) left_todo); [|done|done].
  clear x Hx Hf. intros [l r] (ts & us & lr & rr & [Hl Hr He Hc] & Hor). cbn [fst snd] in *. unfold left_body.
  rewrite (side_more _ _ _ _ _ Hl), (side_count _ _ _ _ _ Hr).
  destruct (decide (ts = [])) as [->|Hts]; [by exists [], us, lr, rr; split; [|left]|].
  destruct Hor as [?| ->]; [done|].
  destruct (decide (rr = [])) as [->|Hrr].
  { rewrite (bool_decide_false (ts = [])) by done. by exists ts, [], lr, []; split; [|right]. }
  rewrite !bool_decide_false by done. cbn [negb andb].
  eapply returns_bind; [by eapply load_if_empty_ok|]. intros l' (ts' & lr' & Hl' & Hnl & Heql & Hml & Hml'). cbv beta.
  eapply returns_bind; [apply (match_round l' r ts' [] lr' rr); try done; by rewrite Heql|].
  intros [v|[l2 r2]]; cbn [again returns]; [done|]. intros (lr2 & rr2 & Hp).
  split; [exists ts', [], lr2, rr2; split; [done|by right]|].
  destruct Hp as [Hl2 _ _ _]. unfold left_todo. cbn [fst snd] in *.
  rewrite (side_todo _ _ _ _ _ Hl), (side_todo _ _ _ _ _ Hl2). pose proof (zlen_nonneg (encode ts')).
  destruct He as [He|He]; [specialize (Hml' He)|done]. lia.
Qed.

Lemma right_loop fuel x :
  sides_ok (fun ts us lr rr => ts = [] \/ (us = [] /\ rr = [])) x -> (right_todo x < fuel)%nat ->
  returns (iter fuel (right_body right righend) x)
    (loop_post (fun ts us lr rr => (ts = [] /\ lr = []) \/ (us = [] /\ rr = []))).
Proof.
  intros Hx Hf.
  apply (iter_returns (sides_ok (fun ts us lr rr => ts = [] \/ (us = [] /\ rr = []))) right_todo); [|done|done].
  clear x Hx Hf. intros [l r] (ts & us & lr & rr & [Hl Hr He Hc] & Hor). cbn [fst snd] in *. unfold right_body.
  rewrite (side_more _ _ _ _ _ Hr), (side_count _ _ _ _ _ Hl).
  destruct Hor as [->|[-> ->]]; [|by exists ts, [], lr, []; split; [|right]].
  destruct (decide (us = [])) as [->|Hus].
  { exists [], [], lr, rr. split; [done|]. destruct He as [->| ->]; [by left|by right]. }
  destruct (decide (lr = [])) as [->|Hlr].
  { rewrite (bool_decide_false (us = [])) by done. by exists [], us, [], rr; split; [|left]. }
  rewrite !bool_decide_false by done. cbn [negb andb].
  eapply returns_bind; [by eapply load_if_empty_ok|]. intros r' (us' & rr' & Hr' & Hnr & Heqr & Hmr & Hmr'). cbv beta.
  eapply returns_bind; [apply (match_round l r' [] us' lr rr'); try done; by rewrite Heqr|].
  intros [v|[l2 r2]]; cbn [again returns]; [done|]. intros (lr2 & rr2 & Hp).
  split; [exists [], us', lr2, rr2; split; [done|by left]|].
  destruct Hp as [_ Hr2 _ _]. unfold right_todo. cbn [fst snd] in *.
  rewrite (side_todo _ _ _ _ _ Hr), (side_todo _ _ _ _ _ Hr2). pose proof (zlen_nonneg (encode us')).
  destruct He as [He|He]; [done|specialize (Hmr' He)]. lia.
Qed.
End hoco.

(** lefp < lefend || lef_count > 0: something is left to compare. *)
Lemma side_nonempty src send s ts rest :
  side_at src send s ts rest ->
  (s_p s <? send) || (s_count s >? 0) = negb (bool_decide (rest ++ expand ts = [])).
Proof.
  intros Hs. rewrite (side_more _ _ _ _ _ Hs), (side_count _ _ _ _ _ Hs).
  destruct rest as [|b rest]; [|by rewrite orb_true_r]. destruct ts as [|t ts]; [done|].
  pose proof (Forall_inv (sa_wf _ _ _ _ _ Hs)) as Ht. pose proof (exp_tok_len _ Ht).
  rewrite expand_cons. destruct (exp_tok t); [zl|done].
Qed.

Lemma and_then_ok {S} (m : res (Z + S)) k (target : Z) (P : S -> Prop) :
  returns m (fun y => match y with inl v => v = target | inr x => P x end) ->
  (forall x, P x -> k x = Ok target) -> and_then m k = Ok target.
Proof.
  intros Hm Hk. apply returns_eq in Hm as ([v|x] & -> & Hy); cbn; [by subst|by apply Hk].
Qed.

Lemma side_init_at raw id ts t :
  Forall wf_tok ts ->
  side_at (mk_4b_c raw id (encode ts) ++ t) (zlen (encode ts) + 8) (side_init VARHDRSZ_COMPRESSED) ts [].
Proof.
  intros Hw. split; [done| |done|simpl; unfold TOKEN_BUF; change (zlen []) with 0; lia|done].
  exists (le32 (4 * (zlen (encode ts) + 8) + 2) ++ le32 (raw + id * 2 ^ 30)), t.
  unfold mk_4b_c. rewrite <- !app_assoc. split; [done|]. split; [done|].
  rewrite zlen_app, !zlen_le32. lia.
Qed.

Lemma varsize_any_c raw id payload t :
  ok_4b_c raw id payload -> VARSIZE_ANY (mk_4b_c raw id payload ++ t) = Ok (zlen payload + 8).
Proof. intros Hok. unfold VARSIZE_ANY. autorewrite with varatt. bind. tags. done. Qed.

(** Two RLE values compare as their contents do. *)
Lemma hoco_cmp_ok rawl idl ts tl rawr idr us tr collid :
  Forall wf_tok ts -> Forall wf_tok us -> ok_4b_c rawl idl (encode ts) -> ok_4b_c rawr idr (encode us) ->
  OidIsValid collid = true ->
  hocotext_hoco_cmp (mk_4b_c rawl idl (encode ts) ++ tl) (mk_4b_c rawr idr (encode us) ++ tr) collid
  = Ok (cmp_bytes (expand ts) (expand us)).
Proof.
  intros Hts Hus Hokl Hokr Hcol. unfold hocotext_hoco_cmp. rewrite Hcol. cbn [negb].
  rewrite !varsize_any_c by done. bind.
  set (left := mk_4b_c rawl idl (encode ts) ++ tl). set (right := mk_4b_c rawr idr (encode us) ++ tr).
  set (lend := zlen (encode ts) + 8). set (rend := zlen (encode us) + 8).
  assert (Hlend : lend = zlen (encode ts) + 8) by done. assert (Hrend : rend = zlen (encode us) + 8) by done.
  set (target := cmp_bytes _ _). pose proof (zlen_nonneg (encode ts)). pose proof (zlen_nonneg (encode us)).
  assert (Hfuel : forall P x, sides_ok left right lend rend target P x ->
    (left_todo lend x + right_todo rend x < S (Z.to_nat lend + Z.to_nat rend))%nat).
  { intros P x (ts' & us' & lr & rr & [[_ (p1 & q1 & _ & H1 & _) _ _ _] [_ (p2 & q2 & _ & H2 & _) _ _ _] _ _] & _).
    unfold left_todo, right_todo. rewrite H1, H2. pose proof (zlen_nonneg p1). pose proof (zlen_nonneg p2). lia. }
  assert (Hini : sides_ok left right lend rend target (fun _ _ _ _ => True)
    (side_init VARHDRSZ_COMPRESSED, side_init VARHDRSZ_COMPRESSED)).
  { exists ts, us, [], []. split; [|done]. split; [by apply side_init_at|by apply side_init_at|by left|done]. }
  clearbody lend rend. eapply and_then_ok; [apply both_loop with (target := target); [done|by eapply Hfuel]|].
  intros x Hx. eapply and_then_ok; [apply left_loop with (target := target) (right := right) (righend := rend);
    [done|pose proof (Hfuel _ _ Hx); lia]|].
  clear x Hx. intros x Hx. eapply and_then_ok; [apply right_loop with (target := target) (left := left) (lefend := lend);
    [done|pose proof (Hfuel _ _ Hx); lia]|].
  clear x Hx. intros [l r] (ts' & us' & lr & rr & [Hl Hr _ Hc] & Hend). cbn [fst snd] in *.
  rewrite (side_nonempty _ _ _ _ _ Hl), (side_nonempty _ _ _ _ _ Hr), <- Hc.
  destruct Hend as [[-> ->]|[-> ->]].
  - simpl (bool_decide ([] ++ expand [] = [])). cbn [negb]. change ([] ++ expand []) with (@nil Z).
    by destruct (rr ++ expand us').
  - simpl (bool_decide ([] ++ expand [] = [])). cbn [negb]. change ([] ++ expand []) with (@nil Z).
    by destruct (lr ++ expand ts').
Qed.

(** ** The loops of hocotext_mixed_cmp *)

(** The comparison with its sides exchanged if need be. *)
Definition cmp_dir (exchange : bool) (l r : list Z) : Z :=
  if exchange then - cmp_bytes l r else cmp_bytes l r.

Lemma mixed_char_dir exchange a b : mixed_char exchange a b = if exchange then - cmp_char a b else cmp_char a b.
Proof. unfold mixed_char, cmp_char. by destruct exchange, (schar a >? schar b), (a =? b). Qed.

Section mixed.
Context (left : list Z) (lefend : Z) (h data t : list Z) (exchange : bool) (target : Z).
Local Abbreviation right := (h ++ data ++ t).
Local Abbreviation righend := (zlen h + zlen data).

(** [rest]: what is left of the plain side, from righp. *)
Definition plain_at (righp : Z) (rest : list Z) : Prop :=
  exists pre, data = pre ++ rest /\ righp = zlen h + zlen pre.

Lemma plain_more righp rest : plain_at righp rest -> (righp <? righend) = negb (bool_decide (rest = [])).
Proof.
  intros (pre & -> & ->). destruct rest as [|b rest].
  - rewrite bool_decide_true by done. zl.
  - rewrite bool_decide_false by done. zl.
Qed.

Lemma plain_next righp b rest :
  plain_at righp (b :: rest) -> rd right righp = Ok b /\ plain_at (righp + 1) rest.
Proof.
  intros (pre & -> & ->). split.
  - rewrite <- !app_assoc, app_assoc. simpl. apply rd_middle. zl.
  - exists (pre ++ [b]). rewrite <- app_assoc. split; [done|]. zl.
Qed.

Definition mixed_ok (P : list rle_tok -> list Z -> list Z -> Prop) (x : side * Z) : Prop :=
  exists ts lr rr, side_at left lefend (fst x) ts lr /\ plain_at (snd x) rr /\
    cmp_dir exchange (lr ++ expand ts) rr = target /\ (lr = [] \/ rr = []) /\ P ts lr rr.

Lemma mixed_match_ok l righp ts lr rr :
  side_at left lefend l ts lr -> plain_at righp rr -> cmp_dir exchange (lr ++ expand ts) rr = target ->
  returns (mixed_match right exchange righend (l, righp)) (fun y => match y with
    | inl v => v = target
    | inr x => mixed_ok (fun ts' _ _ => ts' = ts) x end).
Proof.
  intros Hl Hr Hc. unfold mixed_match. cbn [fst]. pose proof (sa_pos _ _ _ _ _ Hl) as (_ & -> & _).
  unfold zlen at 1. rewrite Nat2Z.id. revert l righp rr Hl Hr Hc. induction lr as [|a lr IH]; intros l righp rr Hl Hr Hc.
  - assert (Hb : mixed_match_body right exchange righend (l, righp) = Ok (inr (inr (l, righp)))).
    { unfold mixed_match_body. rewrite (side_count _ _ _ _ _ Hl). done. }
    rewrite iter_S, Hb. cbn [mbind res_bind returns]. exists ts, [], rr. split_and!; try done. by left.
  - pose proof (side_next _ _ _ _ _ _ Hl) as [Hrdl Hnl]. destruct rr as [|b rr].
    + assert (Hb : mixed_match_body right exchange righend (l, righp) = Ok (inr (inr (l, righp)))).
      { unfold mixed_match_body. rewrite (plain_more _ _ Hr). by rewrite andb_false_r. }
      rewrite iter_S, Hb. cbn [mbind res_bind returns]. exists ts, (a :: lr), []. split_and!; try done. by right.
    + pose proof (plain_next _ _ _ Hr) as [Hrdr Hnr].
      assert (Hb : mixed_match_body right exchange righend (l, righp) =
        if a =? b then Ok (inl (next_char l, righp + 1)) else Ok (inr (inl (mixed_char exchange a b)))).
      { unfold mixed_match_body. rewrite (side_count _ _ _ _ _ Hl), (plain_more _ _ Hr).
        rewrite !bool_decide_false by done. cbn [negb andb]. rewrite Hrdl. cbn [mbind res_bind]. by rewrite Hrdr. }
      rewrite iter_S, Hb. rewrite mixed_char_dir. unfold cmp_dir in Hc. cbn [app cmp_bytes] in Hc.
      destruct (Z.eqb_spec a b) as [->|Hne]; cbn [mbind res_bind]; [|done].
      apply (IH (next_char l) (righp + 1) rr); done.
Qed.

(** With one side exhausted the loop ends where it starts. *)
Lemma mixed_match_stop l righp ts lr rr :
  side_at left lefend l ts lr -> plain_at righp rr -> lr = [] \/ rr = [] ->
  mixed_match right exchange righend (l, righp) = Ok (inr (l, righp)).
Proof.
  intros Hl Hr He. unfold mixed_match. rewrite iter_S.
  assert (Hb : mixed_match_body right exchange righend (l, righp) = Ok (inr (inr (l, righp)))); [|by rewrite Hb].
  unfold mixed_match_body. rewrite (side_count _ _ _ _ _ Hl), (plain_more _ _ Hr).
  destruct He as [-> | ->]; [done|by rewrite andb_false_r].
Qed.

Lemma mixed_loop fuel x :
  mixed_ok (fun _ _ _ => True) x -> (Z.to_nat (lefend - s_p (fst x)) < fuel)%nat ->
  returns (iter fuel (mixed_body left right exchange lefend righend) x)
    (fun y => match y with inl v => v = target | inr x => mixed_ok (fun ts _ rr => ts = [] \/ rr = []) x end).
Proof.
  intros Hx Hf. apply (iter_returns (mixed_ok (fun _ _ _ => True)) (fun x => Z.to_nat (lefend - s_p (fst x))));
    [|done|done].
  clear x Hx Hf. intros [l rp] (ts & lr & rr & Hl & Hr & Hc & He & _). cbn [fst snd] in *. unfold mixed_body.
  rewrite (side_more _ _ _ _ _ Hl), (plain_more _ _ Hr).
  destruct (decide (ts = [])) as [->|Hts]; [exists [], lr, rr; split_and!; try done; by left|].
  rewrite (bool_decide_false (ts = [])) by done.
  destruct (decide (rr = [])) as [->|Hrr]; [exists ts, lr, []; split_and!; try done; by right|].
  rewrite bool_decide_false by done. cbn [negb andb].
  eapply returns_bind; [by eapply load_if_empty_ok|]. intros l' (ts' & lr' & Hl' & Hnl & Heql & Hml & Hml'). cbv beta.
  eapply returns_bind; [apply (mixed_match_ok l' rp ts' lr' rr); try done; by rewrite Heql|].
  intros [v|[l2 rp2]]; cbn [again returns]; [done|]. intros (ts2 & lr2 & rr2 & Hl2 & Hr2 & Hc2 & He2 & ->).
  split; [by exists ts', lr2, rr2|]. cbn [fst snd] in *.
  rewrite (side_todo _ _ _ _ _ Hl), (side_todo _ _ _ _ _ Hl2). pose proof (zlen_nonneg (encode ts')).
  destruct He as [He|He]; [specialize (Hml' He)|done]. lia.
Qed.
End mixed.

(** A compressed value against a plain one, in this order or in the other. *)
Lemma mixed_cmp_ok raw id ts t data t' collid :
  Forall wf_tok ts -> ok_4b_c raw id (encode ts) -> ok_4b_u data -> OidIsValid collid = true ->
  hocotext_mixed_cmp (mk_4b_c raw id (encode ts) ++ t) (mk_4b_u data ++ t') collid
    = Ok (cmp_bytes (expand ts) data) /\
  hocotext_mixed_cmp (mk_4b_u data ++ t') (mk_4b_c raw id (encode ts) ++ t) collid
    = Ok (- cmp_bytes (expand ts) data).
Proof.
  intros Hts Hok Hd Hcol.
  assert (Hgen : forall exchange,
    (lefend ← VARSIZE_ANY (mk_4b_c raw id (encode ts) ++ t);
     righp ← VARDATA_ANY (mk_4b_u data ++ t');
     righend ← VARSIZE (mk_4b_u data ++ t');
     if negb (OidIsValid collid) then Ereport ERRCODE_INDETERMINATE_COLLATION else
     and_then (iter (S (Z.to_nat lefend)) (mixed_body (mk_4b_c raw id (encode ts) ++ t) (mk_4b_u data ++ t') exchange lefend righend)
              (side_init VARHDRSZ_COMPRESSED, righp)) (fun x =>
     and_then (mixed_match (mk_4b_u data ++ t') exchange righend x) (fun '(l, righp) =>
     if (s_p l <? lefend) || (s_count l >? 0) then Ok (if exchange then -1 else 1)
     else if righp <? righend then Ok (if exchange then 1 else -1)
     else Ok 0))) = Ok (cmp_dir exchange (expand ts) data)).
  { intros exchange. rewrite varsize_any_c by done. bind. unfold VARDATA_ANY. autorewrite with varatt. bind.
    tags. rewrite Hcol. cbn [negb]. unfold VARDATA, mk_4b_u. rewrite <- app_assoc.
    set (h := le32 (4 * (zlen data + 4))). replace (zlen data + 4) with (zlen h + zlen data) by (unfold h; rewrite zlen_le32; lia).
    change 4 with (zlen h) at 1. pose proof (side_init_at raw id ts t Hts) as Hs.
    set (lend := zlen (encode ts) + 8) in *. set (target := cmp_dir exchange (expand ts) data).
    eapply and_then_ok; [apply (mixed_loop _ lend h data t' exchange target)|].
    - exists ts, [], data. split_and!; try done; [exists []; cbn [snd]; rewrite zlen_nil; split; [done|lia]|by left].
    - cbn [fst side_init s_p]. unfold lend, VARHDRSZ_COMPRESSED. pose proof (zlen_nonneg (encode ts)). lia.
    - intros [l rp] (ts' & lr & rr & Hl & Hr & Hc & He & Hor). cbn [fst snd] in *.
      rewrite (mixed_match_stop _ lend h data t' exchange l rp ts' lr rr) by done. unfold and_then. bind.
      rewrite (side_nonempty _ _ _ _ _ Hl), (plain_more _ _ _ _ Hr), <- Hc.
      assert (Hend : rr = [] \/ lr ++ expand ts' = []) by (destruct Hor as [-> | ->]; [|by left];
        destruct He as [-> | ->]; [by right|by left]).
      unfold cmp_dir. destruct Hend as [-> | ->].
      + destruct (lr ++ expand ts'); by destruct exchange.
      + destruct rr; by destruct exchange. }
  unfold hocotext_mixed_cmp. tags. tags. split; [exact (Hgen false)|exact (Hgen true)].
Qed.

(** ** Plain values *)

Section common.
Context (hl hr dl dr tl tr : list Z) (target : Z).
Local Abbreviation left := (hl ++ dl ++ tl).
Local Abbreviation right := (hr ++ dr ++ tr).

Lemma common_loop fuel lp rp lr rr :
  plain_at hl dl lp lr -> plain_at hr dr rp rr -> cmp_bytes lr rr = target -> (length lr < fuel)%nat ->
  returns (iter fuel (common_body left right (zlen hl + zlen dl) (zlen hr + zlen dr)) (lp, rp))
    (fun y => match y with
     | inl v => v = target
     | inr (lp, rp) => exists lr rr, plain_at hl dl lp lr /\ plain_at hr dr rp rr /\
                         (lr = [] \/ rr = []) /\ cmp_bytes lr rr = target end).
Proof.
  revert fuel lp rp rr. induction lr as [|a lr IH]; intros fuel lp rp rr Hl Hr Hc Hf;
    (destruct fuel as [|fuel]; [simpl in Hf; lia|]); rewrite iter_S.
  - assert (Hb : common_body left right (zlen hl + zlen dl) (zlen hr + zlen dr) (lp, rp) = Ok (inr (inr (lp, rp)))).
    { unfold common_body. rewrite (plain_more _ _ _ _ Hl). done. }
    rewrite Hb. cbn [mbind res_bind returns]. exists [], rr. split_and!; try done. by left.
  - destruct rr as [|b rr].
    + assert (Hb : common_body left right (zlen hl + zlen dl) (zlen hr + zlen dr) (lp, rp) = Ok (inr (inr (lp, rp)))).
      { unfold common_body. rewrite (plain_more _ _ _ _ Hr). by rewrite andb_false_r. }
      rewrite Hb. cbn [mbind res_bind returns]. exists (a :: lr), []. split_and!; try done. by right.
    + pose proof (plain_next _ _ tl _ _ _ Hl) as [Hrdl Hnl]. pose proof (plain_next _ _ tr _ _ _ Hr) as [Hrdr Hnr].
      assert (Hb : common_body left right (zlen hl + zlen dl) (zlen hr + zlen dr) (lp, rp) =
        if a =? b then Ok (inl (lp + 1, rp + 1)) else Ok (inr (inl (cmp_char a b)))).
      { unfold common_body. rewrite (plain_more _ _ _ _ Hl), (plain_more _ _ _ _ Hr).
        rewrite !bool_decide_false by done. cbn [negb andb]. rewrite Hrdl. cbn [mbind res_bind]. by rewrite Hrdr. }
      rewrite Hb. cbn [cmp_bytes] in Hc. destruct (Z.eqb_spec a b); cbn [mbind res_bind]; [|done].
      apply (IH fuel (lp + 1) (rp + 1) rr); try done. simpl in Hf. lia.
Qed.
End common.

Lemma common_cmp_ok l r dl dr collid :
  inline_value l dl -> inline_value r dr -> OidIsValid collid = true ->
  hocotext_common_cmp l r collid = Ok (cmp_bytes dl dr).
Proof.
  intros Hl Hr Hcol. destruct (inline_parts l dl Hl) as (hl & tl & -> & Hld & Hls & _).
  destruct (inline_parts r dr Hr) as (hr & tr & -> & Hrd & Hrs & _).
  unfold hocotext_common_cmp. rewrite Hld. bind. rewrite Hls. bind. rewrite Hrd. bind. rewrite Hrs. bind.
  rewrite Hcol. cbn [negb]. eapply and_then_ok; [eapply common_loop with (lr := dl) (rr := dr)|].
  - exists []. split; [done|]. zl.
  - exists []. split; [done|]. zl.
  - done.
  - unfold zlen. lia.
  - intros [lp rp] (lr & rr & Hpl & Hpr & He & <-).
    rewrite (plain_more _ _ _ _ Hpl), (plain_more _ _ _ _ Hpr).
    destruct He as [-> | ->]; [by destruct rr|by destruct lr].
Qed.

(** ** The order *)

Lemma schar_inj a b : is_byte a -> is_byte b -> schar a = schar b -> a = b.
Proof. unfold is_byte, schar. intros. ztests_in H1; lia. Qed.

Lemma cmp_char_flip a b : is_byte a -> is_byte b -> cmp_char b a = - cmp_char a b.
Proof.
  intros Ha Hb. unfold cmp_char. rewrite (Z.eqb_sym b a).
  destruct (Z.eqb_spec a b) as [->|Hne]; [destruct (Z.gtb_spec (schar b) (schar b)); lia|].
  assert (schar a <> schar b) by (intros Hs; by apply Hne, schar_inj).
  destruct (Z.gtb_spec (schar a) (schar b)), (Z.gtb_spec (schar b) (schar a)); lia.
Qed.

Lemma cmp_bytes_flip l : forall r, bytes l -> bytes r -> cmp_bytes r l = - cmp_bytes l r.
Proof.
  induction l as [|a l IH]; intros [|b r] Hl Hr; try done. cbn [cmp_bytes]. rewrite (Z.eqb_sym b a).
  inversion Hl; inversion Hr; subst. destruct (a =? b); [by apply IH|by apply cmp_char_flip].
Qed.

Lemma cmp_bytes_eq l : forall r, bytes l -> bytes r -> cmp_bytes l r = 0 <-> l = r.
Proof.
  induction l as [|a l IH]; intros [|b r] Hl Hr; cbn [cmp_bytes]; try (split; [lia|done]); [done|].
  inversion Hl; inversion Hr; subst. destruct (Z.eqb_spec a b) as [->|Hne].
  - rewrite IH by done. split; [by intros ->|by intros [= ->]].
  - split; [|by intros [= ? ?]]. unfold cmp_char.
    destruct (Z.gtb_spec (schar a) (schar b)); [lia|]. by destruct (Z.eqb_spec a b).
Qed.

Lemma cmp_bytes_trans l : forall m r, bytes l -> bytes m -> bytes r ->
  cmp_bytes l m < 0 -> cmp_bytes m r < 0 -> cmp_bytes l r < 0.
Proof.
  induction l as [|a l IH]; intros [|b m] [|c r] Hl Hm Hr; cbn [cmp_bytes]; try lia.
  inversion Hl; inversion Hm; inversion Hr; subst.
  destruct (Z.eqb_spec a b) as [->|Hab], (Z.eqb_spec b c) as [->|Hbc].
  - rewrite ?Z.eqb_refl. eauto.
  - done.
  - destruct (Z.eqb_spec a c); [done|done].
  - unfold cmp_char. intros H1' H2'.
    destruct (Z.gtb_spec (schar a) (schar b)), (Z.gtb_spec (schar b) (schar c)); try lia.
    assert (schar b <> schar c) by (intros Hs; by apply Hbc, schar_inj).
    assert (schar a <> schar b) by (intros Hs; by apply Hab, schar_inj).
    destruct (Z.eqb_spec a c) as [->|]; [lia|]. destruct (Z.gtb_spec (schar a) (schar c)); lia.
Qed.

(** ** Packed arguments *)

(** A datum in line, compressed or not, that holds [data]. *)
Inductive packed (c : config) : list Z -> list Z -> Prop :=
| packed_inline v data : inline_value v data -> packed c v data
| packed_compressed id payload data t :
    compressed_as c id payload data -> ok_4b_u data -> ok_4b_c (zlen data) id payload ->
    packed c (mk_4b_c (zlen data) id payload ++ t) data.

Lemma packed_plain c data : ok_4b_u data -> packed c (mk_4b_u data) data.
Proof. intros Hd. rewrite <- (app_nil_r (mk_4b_u data)). by apply packed_inline, inline_4b. Qed.

Lemma copy_compressed raw id payload t :
  ok_4b_c raw id payload -> copy_datum (mk_4b_c raw id payload ++ t) = Ok (mk_4b_c raw id payload).
Proof.
  intros Hok. unfold copy_datum. rewrite varsize_any_c by done. bind. pose proof Hok as (_ & _ & H3).
  pose proof (zlen_nonneg payload). rewrite palloc_ok by (unfold MaxAllocSize; lia). bind.
  rewrite <- (zlen_4b_c raw id payload). exact (rdn_middle [] (mk_4b_c raw id payload) t 0 _ eq_refl eq_refl).
Qed.

Section packing.
Context (E : env).

Definition fetched_form (v : list Z) (r : list Z + list Z) (data : list Z) : Prop :=
  match r with
  | inr a => packed (e_cfg E) a data
  | inl a => a = v /\ packed (e_cfg E) v data /\
      exists a', copy_datum a = Ok a' /\ packed (e_cfg E) a' data
  end.

Lemma fetch_direct n v data :
  direct E v data ->
  exists r, hocotext_fetch_toasted_attr_n E (S n) v = Ok r /\ fetched_form v r data.
Proof.
  intros Hv. unfold hocotext_fetch_toasted_attr_n; fold (hocotext_fetch_toasted_attr_n E).
  destruct Hv as [v data [d t Hd|d t Hd]|id payload data t Hc Hd Hok|tp ext data t Hok Hd Hp Hs
                 |tag addr data t Htag Ha Hd Hf].
  - tags. eexists. split; [done|]. split; [done|]. split; [by apply packed_inline, inline_4b|].
    rewrite copy_plain by done. eexists. split; [done|]. by apply packed_plain.
  - tags. rewrite unshort_ok by done. eexists. split; [done|]. apply packed_plain.
    by eapply (inline_ok _ d), (inline_1b d []).
  - tags. eexists. split; [done|]. split; [done|]. split; [by apply packed_compressed|].
    rewrite copy_compressed by done. eexists. split; [done|].
    rewrite <- (app_nil_r (mk_4b_c _ _ _)). by apply packed_compressed.
  - destruct (pointer_extsize _ _ _ _ Hd Hp) as (Hx & Hsz & _). rewrite ondisk_test. bind.
    unfold hocotext_toast_fetch_datum. rewrite (toast_fetch_datum_ok E tp ext t) by done. bind.
    eexists. split; [done|]. destruct Hp as [d Hr He|id payload d Hr He Hlt Hokc Hc]; cbn [fetched_form].
    + rewrite fetched_plain by (by eapply (pointer_plain (e_cfg E))). by apply packed_plain.
    + destruct (pointer_compressed (e_cfg E) tp id payload d) as [Hic _]; [done..|].
      pose proof (fetched_compressed tp id payload d (zlen payload) Hic) as Hfc.
      rewrite zslice_full_take in Hfc by zl. rewrite take_ge in Hfc by (unfold zlen; lia).
      rewrite zlen_app, zlen_le32, (Z.add_comm 4), Hfc by (pose proof (zlen_nonneg payload); lia).
      rewrite <- (app_nil_r (mk_4b_c _ _ _)). by apply packed_compressed.
  - assert (Hfl : detoast_external_attr E (mk_pointer tag addr ++ t) = Ok (mk_4b_u data)).
    { unfold detoast_external_attr, detoast_external_attr_n.
      destruct Htag as [-> | ->]; tags; exact (proj1 (flatten_ok E _ addr data t Ha Hd Hf)). }
    destruct Htag as [-> | ->]; tags; rewrite Hfl; eexists; (split; [done|]); by apply packed_plain.
Qed.

Lemma fetch_ok v data :
  holds E v data -> exists d, hocotext_fetch_toasted_attr E v = Ok d /\ packed (e_cfg E) d data.
Proof.
  intros Hv. unfold hocotext_fetch_toasted_attr. destruct Hv as [v data Hv|addr v data t Ha Hm Hv].
  - destruct (fetch_direct 1 v data Hv) as (r & -> & Hr). bind. eexists. split; [done|].
    destruct r as [a|a]; [by destruct Hr as (-> & ? & _)|done].
  - remember 1%nat as k eqn:Hk.
    unfold hocotext_fetch_toasted_attr_n; fold (hocotext_fetch_toasted_attr_n E). tags.
    unfold indirect_pointer. rewrite rd64_pointer by exact Ha. unfold deref. bind. rewrite Hm. bind.
    destruct (fetch_direct 0 v data Hv) as (r & Hr & Hd). subst k. rewrite Hr. bind.
    destruct r as [a|a]; [|by eexists]. destruct Hd as (-> & _ & a' & Hc & Hp). rewrite Hc. bind. by eexists.
Qed.

Lemma packed_ok v data :
  holds E v data -> exists d, hocotext_datum_packed E v = Ok d /\ packed (e_cfg E) d data.
Proof.
  intros Hv. destruct (fetch_ok v data Hv) as (d & Hf & Hp). unfold hocotext_datum_packed.
  destruct Hv as [v data [v' data' Hi|id payload data' t Hc Hd Hok|tp ext data' t Hok Hd Hpt Hs
                         |tag addr data' t Htag Ha Hd Hfl]|addr v data t Ha Hm Hv].
  - destruct (inline_parts _ _ Hi) as (h & t & _ & _ & _ & Hc & He). rewrite Hc. bind. rewrite He. bind.
    eexists. split; [done|]. by apply packed_inline.
  - tags. by exists d.
  - tags. tags. by exists d.
  - tags. tags. by exists d.
  - tags. tags. by exists d.
Qed.
End packing.

(** ** The SQL comparison *)

(** The forms that the comparison functions are written for: a compressed datum is RLE,
    and it is not compared with a datum that has a one-byte header. *)
Definition is_rle (d : list Z) : bool :=
  match TOAST_COMPRESS_METHOD d with Ok m => m =? TOAST_RLE_COMPRESSION_ID | _ => false end.
Definition comparable (dl dr : list Z) : bool :=
  match VARATT_IS_COMPRESSED dl, VARATT_IS_COMPRESSED dr, VARATT_IS_SHORT dl, VARATT_IS_SHORT dr with
  | Ok cl, Ok cr, Ok sl, Ok sr =>
      (negb cl || (is_rle dl && negb sr)) && (negb cr || (is_rle dr && negb sl))
  | _, _, _, _ => false
  end.
Definition comparable_values (E : env) (l r : list Z) : bool :=
  match hocotext_datum_packed E l, hocotext_datum_packed E r with
  | Ok dl, Ok dr => comparable dl dr
  | _, _ => false
  end.

Lemma packed_rle c d data :
  packed c d data -> VARATT_IS_COMPRESSED d = Ok true -> is_rle d = true ->
  exists ts t, d = mk_4b_c (zlen data) TOAST_RLE_COMPRESSION_ID (encode ts) ++ t /\ Forall wf_tok ts /\
    expand ts = data /\ ok_4b_c (zlen data) TOAST_RLE_COMPRESSION_ID (encode ts).
Proof.
  intros Hp Hcomp Hrle. destruct Hp as [v data Hi|id payload data t Hc Hd Hok].
  - destruct (inline_parts _ _ Hi) as (_ & _ & _ & _ & _ & Hc & _). congruence.
  - unfold is_rle, TOAST_COMPRESS_METHOD in Hrle. rewrite get_method_c in Hrle by done.
    apply Z.eqb_eq in Hrle. destruct Hc as [p' d' H|p' d' H|L p' d' HL HLo H]; try discriminate.
    destruct H as [(ts & Hw & -> & Hex) _]. by exists ts, t.
Qed.

Lemma packed_uncompressed c d data :
  packed c d data -> VARATT_IS_COMPRESSED d = Ok false -> inline_value d data.
Proof. intros Hp Hn. destruct Hp as [v data Hi|id payload data t Hc Hd Hok]; [done|]. revert Hn. tags. discriminate. Qed.

Lemma inline_long v data :
  inline_value v data -> VARATT_IS_SHORT v = Ok false -> exists t, v = mk_4b_u data ++ t /\ ok_4b_u data.
Proof. intros [d t Hd|d t Hd]; [by exists t|]. tags. discriminate. Qed.

Lemma compare_ok E l r dl dr collid :
  holds E l dl -> holds E r dr -> bytes dl -> bytes dr -> comparable_values E l r = true ->
  OidIsValid collid = true ->
  exists pl pr, compare_packed E collid l r = Ok (cmp_bytes dl dr, pl, pr) /\
    packed (e_cfg E) pl dl /\ packed (e_cfg E) pr dr.
Proof.
  intros Hl Hr Hbl Hbr Hcomp Hcol. unfold comparable_values in Hcomp.
  destruct (packed_ok E l dl Hl) as (pl & Hpl & Hpkl). destruct (packed_ok E r dr Hr) as (pr & Hpr & Hpkr).
  rewrite Hpl, Hpr in Hcomp. exists pl, pr. split; [|done].
  unfold compare_packed. rewrite Hpl. bind. rewrite Hpr. bind. unfold comparable in Hcomp.
  destruct (VARATT_IS_COMPRESSED pl) as [cl| | |] eqn:Hcl; try done.
  destruct (VARATT_IS_COMPRESSED pr) as [cr| | |] eqn:Hcr; try done.
  destruct (VARATT_IS_SHORT pl) as [sl| | |] eqn:Hsl; try done.
  destruct (VARATT_IS_SHORT pr) as [sr| | |] eqn:Hsr; try done. bind.
  enough (Hc : (if cl && cr then hocotext_hoco_cmp pl pr collid
    else if cl || cr then hocotext_mixed_cmp pl pr collid else hocotext_common_cmp pl pr collid)
    = Ok (cmp_bytes dl dr)) by (by rewrite Hc).
  destruct cl, cr; cbn [andb orb negb] in *.
  - apply andb_true_iff in Hcomp as [[H1 _]%andb_true_iff [H2 _]%andb_true_iff].
    destruct (packed_rle _ _ _ Hpkl Hcl H1) as (ts & t & -> & Hw & <- & Hok).
    destruct (packed_rle _ _ _ Hpkr Hcr H2) as (us & t' & -> & Hw' & <- & Hok'). by apply hoco_cmp_ok.
  - rewrite andb_true_r in Hcomp. apply andb_true_iff in Hcomp as [H1 H2]. destruct sr; [done|].
    destruct (packed_rle _ _ _ Hpkl Hcl H1) as (ts & t & -> & Hw & <- & Hok).
    destruct (inline_long pr dr (packed_uncompressed _ _ _ Hpkr Hcr) Hsr) as (t' & -> & Hd).
    by apply mixed_cmp_ok.
  - apply andb_true_iff in Hcomp as [H1 H2]. destruct sl; [done|].
    destruct (packed_rle _ _ _ Hpkr Hcr H1) as (ts & t & -> & Hw & <- & Hok).
    destruct (inline_long pl dl (packed_uncompressed _ _ _ Hpkl Hcl) Hsl) as (t' & -> & Hd).
    rewrite (cmp_bytes_flip (expand ts) dl) by done. by apply mixed_cmp_ok.
  - apply common_cmp_ok; [by eapply packed_uncompressed|by eapply packed_uncompressed|done].
Qed.

(** ** On arbitrary bytes *)

Lemma wr_ok_or_ub l i data : ok_or_ub (wr l i data) (fun l' => bytes l -> bytes data -> bytes l').
Proof.
  unfold wr. destruct (_ && _); simpl; [|done]. intros Hl Hd. apply Forall_app. split; [by apply Forall_take|].
  apply Forall_app. split; [done|by apply Forall_drop].
Qed.

(** A buffer between its uses. *)
Definition side_safe (s : side) : Prop := 0 <= s_count s /\ bytes (s_cur s).

Lemma load_token_safe nul src s :
  bytes src -> side_safe s ->
  ok_or_ub (load_token nul src s) (fun s' => side_safe s' /\ s_p s < s_p s').
Proof.
  intros Hsrc [_ Hcur]. unfold load_token. eapply ok_or_ub_bind; [by apply rd_ok_or_ub|]. intros b Hb. cbv beta in Hb.
  assert (H0 : 0 <= Z.land b 127) by (apply Z.land_nonneg; lia).
  destruct (_ =? 1).
  - eapply ok_or_ub_bind; [by apply rd_ok_or_ub|]. intros c Hc. cbv beta in Hc.
    eapply ok_or_ub_bind; [apply wr_ok_or_ub|]. intros cur Hcur'. cbv beta in Hcur'.
    eapply ok_or_ub_bind; [apply wr_ok_or_ub|]. intros cur2 Hcur2. cbv beta in Hcur2. simpl.
    split; [|lia]. split; [simpl; unfold THRESHOLD; lia|]. simpl. apply Hcur2; [|repeat constructor; lia].
    apply Hcur'; [done|by apply bytes_zrep].
  - destruct (rdn src (s_p s + 1) (Z.land b 127)) as [data| | |] eqn:Hrd; cbn [mbind res_bind];
      try (by unfold rdn in Hrd; destruct (_ && _)).
    apply rdn_Ok_inv in Hrd as (_ & _ & _ & ->).
    eapply ok_or_ub_bind; [apply wr_ok_or_ub|]. intros cur Hcur'. cbv beta in Hcur'.
    specialize (Hcur' Hcur (bytes_zslice _ _ _ Hsrc)).
    eapply (ok_or_ub_bind _ _ (fun l => bytes l)).
    { destruct nul; [|done]. eapply ok_or_ub_mono; [apply wr_ok_or_ub|]. intros l' Hl'. apply Hl'; [done|].
      repeat constructor; lia. }
    intros cur2 Hcur2. simpl. split; [by split|lia].
Qed.

Lemma load_if_empty_safe nul src s :
  bytes src -> side_safe s ->
  ok_or_ub (load_if_empty nul src s) (fun s' => side_safe s' /\ s_p s <= s_p s' /\ (s_count s = 0 -> s_p s < s_p s')).
Proof.
  intros Hsrc Hs. unfold load_if_empty. destruct (Z.eqb_spec (s_count s) 0).
  - eapply ok_or_ub_mono; [by apply load_token_safe|]. intros s' [H1 H2]. split; [done|]. lia.
  - simpl. split; [done|]. lia.
Qed.

(** A buffer is used up. *)
Definition one_empty (x : side * side) : Prop := s_count (fst x) = 0 \/ s_count (snd x) = 0.

Lemma cmp_char_range a b : -1 <= cmp_char a b <= 1.
Proof. unfold cmp_char. destruct (schar a >? schar b), (a =? b); lia. Qed.

Lemma match_loop_safe l r :
  side_safe l -> side_safe r ->
  ok_or_ub (match_loop (l, r)) (fun y => match y with
    | inl v => -1 <= v <= 1
    | inr (l', r') => side_safe l' /\ side_safe r' /\ one_empty (l', r') /\ s_p l' = s_p l /\ s_p r' = s_p r end).
Proof.
  intros Hl Hr. unfold match_loop. cbn [fst].
  apply (ok_or_ub_iter (fun '(l', r') => side_safe l' /\ side_safe r' /\ s_p l' = s_p l /\ s_p r' = s_p r)
    (fun '(l', _) => Z.to_nat (s_count l'))); [|done|lia].
  intros [l' r'] ([Hl1 Hl2] & [Hr1 Hr2] & Hpl & Hpr). unfold match_body.
  destruct (Z.gtb_spec (s_count l') 0), (Z.gtb_spec (s_count r') 0); cbn [andb];
    try (simpl; split_and!; try done; unfold one_empty; simpl; lia).
  eapply ok_or_ub_bind; [by apply rd_ok_or_ub|]. intros a _.
  eapply ok_or_ub_bind; [by apply rd_ok_or_ub|]. intros b _.
  destruct (a =? b); [|apply cmp_char_range]. simpl. split; [|lia].
  split_and!; try done; split; simpl; done || lia.
Qed.

Section safe_loops.
Context (left right : list Z) (lefend righend : Z) (Hbl : bytes left) (Hbr : bytes right).

Definition pair_safe (x : side * side) : Prop :=
  side_safe (fst x) /\ side_safe (snd x) /\ one_empty x /\ 0 <= s_p (fst x) /\ 0 <= s_p (snd x).
Definition loop_safe (y : Z + side * side) : Prop :=
  match y with inl v => -1 <= v <= 1 | inr x => pair_safe x end.

Lemma round_safe l r p q :
  side_safe l -> side_safe r -> 0 <= p <= s_p l -> 0 <= q <= s_p r ->
  ok_or_ub (y ← match_loop (l, r); Ok (again y)) (fun z => match z with
    | inl x => pair_safe x /\ s_p (fst x) = s_p l /\ s_p (snd x) = s_p r
    | inr y => loop_safe y end).
Proof.
  intros Hl Hr Hp Hq. eapply ok_or_ub_bind; [by apply match_loop_safe|].
  intros [v|[l' r']]; [done|]. intros (H1 & H2 & H3 & H4 & H5). simpl. unfold pair_safe. simpl.
  split_and!; try done; lia.
Qed.

Lemma both_safe fuel x :
  pair_safe x -> (left_todo lefend x + right_todo righend x < fuel)%nat ->
  ok_or_ub (iter fuel (both_body left right lefend righend) x) loop_safe.
Proof.
  intros Hx Hf.
  apply (ok_or_ub_iter pair_safe (fun x => left_todo lefend x + right_todo righend x)%nat); [|done|done].
  clear x Hx Hf. intros [l r] (Hl & Hr & He & Hpl & Hpr). unfold both_body. cbn [fst snd] in *.
  destruct (Z.ltb_spec (s_p l) lefend), (Z.ltb_spec (s_p r) righend); cbn [andb]; try (simpl; done).
  eapply ok_or_ub_bind; [by apply load_if_empty_safe|]. intros l' (Hl' & Hle & Hlt).
  eapply ok_or_ub_bind; [by apply load_if_empty_safe|]. intros r' (Hr' & Hre & Hrt).
  eapply ok_or_ub_mono; [apply (round_safe l' r' (s_p l) (s_p r)); done || lia|].
  intros [[l2 r2]|y]; [|done]. cbn [fst snd]. intros (Hs & H1 & H2). split; [done|].
  unfold left_todo, right_todo. cbn [fst snd]. unfold one_empty in He. cbn [fst snd] in He. lia.
Qed.

Lemma left_safe fuel x :
  pair_safe x -> (left_todo lefend x < fuel)%nat ->
  ok_or_ub (iter fuel (left_body left lefend) x) loop_safe.
Proof.
  intros Hx Hf. apply (ok_or_ub_iter pair_safe (left_todo lefend)); [|done|done].
  clear x Hx Hf. intros [l r] (Hl & Hr & He & Hpl & Hpr). unfold left_body. cbn [fst snd] in *.
  destruct (Z.ltb_spec (s_p l) lefend), (Z.gtb_spec (s_count r) 0); cbn [andb]; try (simpl; done).
  eapply ok_or_ub_bind; [by apply load_if_empty_safe|]. intros l' (Hl' & Hle & Hlt).
  eapply ok_or_ub_mono; [apply (round_safe l' r (s_p l) (s_p r)); done || lia|].
  intros [[l2 r2]|y]; [|done]. cbn [fst snd]. intros (Hs & H1 & H2). split; [done|].
  unfold left_todo. cbn [fst snd]. unfold one_empty in He. cbn [fst snd] in He. lia.
Qed.

Lemma right_safe fuel x :
  pair_safe x -> (right_todo righend x < fuel)%nat ->
  ok_or_ub (iter fuel (right_body right righend) x) loop_safe.
Proof.
  intros Hx Hf. apply (ok_or_ub_iter pair_safe (right_todo righend)); [|done|done].
  clear x Hx Hf. intros [l r] (Hl & Hr & He & Hpl & Hpr). unfold right_body. cbn [fst snd] in *.
  destruct (Z.ltb_spec (s_p r) righend), (Z.gtb_spec (s_count l) 0); cbn [andb]; try (simpl; done).
  eapply ok_or_ub_bind; [by apply load_if_empty_safe|]. intros r' (Hr' & Hre & Hrt).
  eapply ok_or_ub_mono; [apply (round_safe l r' (s_p l) (s_p r)); done || lia|].
  intros [[l2 r2]|y]; [|done]. cbn [fst snd]. intros (Hs & H1 & H2). split; [done|].
  unfold right_todo. cbn [fst snd]. unfold one_empty in He. cbn [fst snd] in He. lia.
Qed.
End safe_loops.

Lemma and_then_safe {S} (m : res (Z + S)) k (P : S -> Prop) :
  ok_or_ub m (fun y => match y with inl v => -1 <= v <= 1 | inr x => P x end) ->
  (forall x, P x -> ok_or_ub (k x) (fun v => -1 <= v <= 1)) ->
  ok_or_ub (and_then m k) (fun v => -1 <= v <= 1).
Proof. intros Hm Hk. eapply ok_or_ub_bind; [done|]. intros [v|x] H; [done|by apply Hk]. Qed.

Lemma todo_fuel lefend righend x :
  pair_safe x -> (left_todo lefend x + right_todo righend x < S (Z.to_nat lefend + Z.to_nat righend))%nat.
Proof. intros (_ & _ & _ & H1 & H2). unfold left_todo, right_todo. lia. Qed.

Lemma hoco_cmp_safe left right collid lefend righend :
  bytes left -> bytes right -> OidIsValid collid = true ->
  VARSIZE_ANY left = Ok lefend -> VARSIZE_ANY right = Ok righend ->
  ok_or_ub (hocotext_hoco_cmp left right collid) (fun v => -1 <= v <= 1).
Proof.
  intros Hl Hr Hcol Hsl Hsr. unfold hocotext_hoco_cmp. rewrite Hcol. cbn [negb]. rewrite Hsl. bind. rewrite Hsr. bind.
  eapply (and_then_safe _ _ pair_safe); [apply both_safe; [done|done| |apply todo_fuel]|].
  1-2: assert (Hi : side_safe (side_init VARHDRSZ_COMPRESSED)) by (split; [done|by apply bytes_zrep]);
    unfold pair_safe, one_empty; cbn; split_and!; try done; by left.
  intros x Hx. pose proof (todo_fuel lefend righend x Hx).
  eapply (and_then_safe _ _ pair_safe); [apply left_safe; [done|done|lia]|].
  clear x Hx H. intros x Hx. pose proof (todo_fuel lefend righend x Hx).
  eapply (and_then_safe _ _ pair_safe); [apply right_safe; [done|done|lia]|].
  intros [l r] _. destruct (_ || _); [simpl; lia|]. destruct (_ || _); simpl; lia.
Qed.

Lemma rd32_ok_or_ub p i : ok_or_ub (rd32 p i) (fun _ => True).
Proof.
  unfold rd32. assert (Hrd : forall j, ok_or_ub (rd p j) (fun _ => True)).
  { intros j. unfold rd. destruct (0 <=? j); [|done]. by destruct (p !! _). }
  repeat (eapply ok_or_ub_bind; [apply Hrd|]; intros ? _). done.
Qed.

Lemma compressed_varsize p :
  VARATT_IS_COMPRESSED p = Ok true -> ok_or_ub (VARSIZE_ANY p) (fun _ => True).
Proof.
  unfold VARATT_IS_COMPRESSED, VARATT_IS_4B_C, VARSIZE_ANY, VARATT_IS_1B_E, VARATT_IS_1B, VARSIZE_4B.
  destruct (rd p 0) as [h| | |]; bind; try done. intros [= Hh]. revert Hh. land_mod. intros Hh%Z.eqb_eq.
  destruct (Z.eqb_spec h 1) as [->|_]; [done|]. bind. replace (h mod 2 ^ 1 =? 1) with false by lia. bind.
  eapply ok_or_ub_bind; [apply rd32_ok_or_ub|]. done.
Qed.

(** * Properties *)

(** C8: hocotext_cmp orders values by their contents without decompressing them: for
    values in line or toasted, plain or RLE-compressed on either side, the result is the
    lexicographic comparison of the contents, bytes taken as signed chars.  Excluded by
    [comparable_values] are the forms the code does not handle: values compressed by other
    methods than RLE, and a one-byte header next to a compressed value. *)
Theorem hocotext_cmp_correct E l r dl dr collid :
  holds E l dl -> holds E r dr -> bytes dl -> bytes dr -> comparable_values E l r = true ->
  OidIsValid collid = true -> hocotext_cmp E collid l r = Ok (cmp_bytes dl dr).
Proof.
  intros Hl Hr Hbl Hbr Hc Hcol. unfold hocotext_cmp.
  destruct (compare_ok E l r dl dr collid) as (pl & pr & -> & _); done.
Qed.

(** C27: The operators agree with the contents and with each other, for the forms that the
    comparison handles: = and <> decide equality of the contents and <, <=, > and >= are
    the order of hocotext_cmp.  The hash of every value is 0, which is consistent with =
    and tells no values apart.  Excluded, as for hocotext_cmp, are values compressed by
    other methods than RLE and a one-byte header next to a compressed value. *)
Theorem hocotext_operators_correct E l r dl dr collid :
  holds E l dl -> holds E r dr -> bytes dl -> bytes dr -> comparable_values E l r = true ->
  OidIsValid collid = true ->
  hocotext_eq E collid l r = Ok (bool_decide (dl = dr)) /\
  hocotext_nq E collid l r = Ok (negb (bool_decide (dl = dr))) /\
  hocotext_lt E collid l r = Ok (cmp_bytes dl dr <? 0) /\ hocotext_le E collid l r = Ok (cmp_bytes dl dr <=? 0) /\
  hocotext_gt E collid l r = Ok (cmp_bytes dl dr >? 0) /\ hocotext_ge E collid l r = Ok (cmp_bytes dl dr >=? 0) /\
  hocotext_hash E l = Ok 0 /\ hocotext_hash E r = Ok 0.
Proof.
  intros Hl Hr Hbl Hbr Hc Hcol.
  assert (Heq : (cmp_bytes dl dr =? 0) = bool_decide (dl = dr)).
  { case_bool_decide as Hd; [apply Z.eqb_eq|apply Z.eqb_neq]; by rewrite cmp_bytes_eq. }
  destruct (fetch_ok E l dl Hl) as (fl & Hfl & _). destruct (fetch_ok E r dr Hr) as (fr & Hfr & _).
  unfold hocotext_eq, hocotext_nq, hocotext_lt, hocotext_le, hocotext_gt, hocotext_ge, hocotext_hash.
  destruct (compare_ok E l r dl dr collid) as (pl & pr & -> & _); try done. bind. cbn [fst].
  rewrite Heq, Hfl, Hfr. done.
Qed.

(** The order is what a btree operator class needs: comparing the other way round
    gives the opposite sign, the result is zero for equal contents only, and "less than" is
    transitive, whatever forms the three values have. *)
Theorem hocotext_cmp_order E collid l m r dl dm dr :
  holds E l dl -> holds E m dm -> holds E r dr -> bytes dl -> bytes dm -> bytes dr ->
  comparable_values E l m = true -> comparable_values E m l = true ->
  comparable_values E m r = true -> comparable_values E l r = true -> OidIsValid collid = true ->
  exists lm ml mr lr, hocotext_cmp E collid l m = Ok lm /\ hocotext_cmp E collid m l = Ok ml /\
    hocotext_cmp E collid m r = Ok mr /\ hocotext_cmp E collid l r = Ok lr /\
    ml = - lm /\ (lm = 0 <-> dl = dm) /\ (lm < 0 -> mr < 0 -> lr < 0).
Proof.
  intros Hl Hm Hr Hbl Hbm Hbr H1 H2 H3 H4 Hcol.
  exists (cmp_bytes dl dm), (cmp_bytes dm dl), (cmp_bytes dm dr), (cmp_bytes dl dr). unfold hocotext_cmp.
  destruct (compare_ok E l m dl dm collid) as (? & ? & -> & _); try done.
  destruct (compare_ok E m l dm dl collid) as (? & ? & -> & _); try done.
  destruct (compare_ok E m r dm dr collid) as (? & ? & -> & _); try done.
  destruct (compare_ok E l r dl dr collid) as (? & ? & -> & _); try done.
  split_and!; try done; [by apply cmp_bytes_flip|by apply cmp_bytes_eq|by apply cmp_bytes_trans].
Qed.

(** The aggregates min and max: hocotext_smaller and hocotext_larger return a datum in
    line that holds the contents of one of their arguments, one that is not greater (not
    less) than the other. *)
Theorem hocotext_min_max E l r dl dr collid :
  holds E l dl -> holds E r dr -> bytes dl -> bytes dr -> comparable_values E l r = true ->
  OidIsValid collid = true ->
  exists s g ds dg, hocotext_smaller E collid l r = Ok s /\ hocotext_larger E collid l r = Ok g /\
    packed (e_cfg E) s ds /\ packed (e_cfg E) g dg /\
    (ds = dl \/ ds = dr) /\ cmp_bytes ds dl <= 0 /\ cmp_bytes ds dr <= 0 /\
    (dg = dl \/ dg = dr) /\ cmp_bytes dg dl >= 0 /\ cmp_bytes dg dr >= 0.
Proof.
  intros Hl Hr Hbl Hbr Hc Hcol. unfold hocotext_smaller, hocotext_larger.
  destruct (compare_ok E l r dl dr collid) as (pl & pr & -> & Hpl & Hpr); try done. bind.
  pose proof (cmp_bytes_flip dl dr Hbl Hbr) as Hf.
  pose proof (proj2 (cmp_bytes_eq dl dl Hbl Hbl) eq_refl). pose proof (proj2 (cmp_bytes_eq dr dr Hbr Hbr) eq_refl).
  exists (if cmp_bytes dl dr <? 0 then pl else pr), (if cmp_bytes dl dr >? 0 then pl else pr),
    (if cmp_bytes dl dr <? 0 then dl else dr), (if cmp_bytes dl dr >? 0 then dl else dr).
  destruct (Z.ltb_spec (cmp_bytes dl dr) 0), (Z.gtb_spec (cmp_bytes dl dr) 0);
    split_and!; try done; try lia; (by left) || (by right).
Qed.

(** hocotext_hoco_cmp ends on every input: whatever the bytes of two compressed datums
    are, corrupt or made by another method, its three loops stop, and the result, if no
    read leaves the memory of the arguments, is -1, 0 or 1. *)
Theorem hocotext_hoco_cmp_total left right collid :
  bytes left -> bytes right -> OidIsValid collid = true ->
  VARATT_IS_COMPRESSED left = Ok true -> VARATT_IS_COMPRESSED right = Ok true ->
  hocotext_hoco_cmp left right collid = Ub \/
  exists v, hocotext_hoco_cmp left right collid = Ok v /\ -1 <= v <= 1.
Proof.
  intros Hl Hr Hcol Hcl Hcr.
  assert (Hs : ok_or_ub (hocotext_hoco_cmp left right collid) (fun v => -1 <= v <= 1)).
  { pose proof (compressed_varsize left Hcl) as Hvl. pose proof (compressed_varsize right Hcr) as Hvr.
    destruct (VARSIZE_ANY left) as [sl| | |] eqn:Hsl; try done;
      [|unfold hocotext_hoco_cmp; by rewrite Hcol, Hsl].
    destruct (VARSIZE_ANY right) as [sr| | |] eqn:Hsr; try done;
      [|unfold hocotext_hoco_cmp; by rewrite Hcol, Hsl, Hsr].
    by apply (hoco_cmp_safe left right collid sl sr). }
  destruct (hocotext_hoco_cmp left right collid) as [v| | |]; try done; [right; by exists v|by left].
Qed.

(** The 131-byte buffers are large enough: expanding any token, of any length that
    a control byte can give, stays inside the buffer, so that load_token fails only if
    the token itself runs out of the source's memory. *)
Theorem hocotext_token_buffer nul src s :
  bytes src -> 0 <= s_p s -> s_p s + 129 <= zlen src -> zlen (s_cur s) = TOKEN_BUF ->
  returns (load_token nul src s) (fun s' => zlen (s_cur s') = TOKEN_BUF /\ s_cur_p s' = 0 /\
    0 <= s_count s' <= 130 /\ s_p s < s_p s' <= s_p s + 128).
Proof.
  intros Hsrc Hp Hlen Hcur. unfold load_token.
  destruct (rd_in_range src (s_p s)) as [b Hb]; [lia|]. rewrite Hb. bind.
  pose proof (rd_byte src (s_p s) b Hsrc Hb) as Hbyte. unfold is_byte in Hbyte.
  assert (H0 : 0 <= Z.land b 127 <= 127) by (land_mod; lia).
  destruct (_ =? 1).
  - destruct (rd_in_range src (s_p s + 1)) as [c Hc]; [lia|]. rewrite Hc. bind.
    destruct (fill_buffer (s_cur s) (zrep (Z.land b 127 + THRESHOLD) c) Hcur) as (b1 & b2 & Hw1 & Hw2 & _ & Hl2);
      [unfold THRESHOLD; zl|].
    rewrite zlen_zrep, Z.max_r in Hw2 by (unfold THRESHOLD; lia).
    rewrite Hw1. bind. rewrite Hw2. simpl. unfold THRESHOLD. split_and!; try done; lia.
  - rewrite rdn_Ok by lia. bind. set (data := zslice src (s_p s + 1) (Z.land b 127)).
    assert (Hd : zlen data = Z.land b 127) by (apply zlen_zslice; lia).
    destruct (fill_buffer (s_cur s) data Hcur) as (b1 & b2 & Hw1 & Hw2 & Hl1 & Hl2); [lia|].
    rewrite Hd in Hw2. rewrite Hw1. bind.
    destruct nul; [rewrite Hw2|]; simpl; split_and!; try done; lia.
Qed.

(** ** Witnesses *)

(** The sample of the RLE codec in its compressed form, in plain form, and a value that
    follows it. *)
Definition hoco_compressed : list Z :=
  mk_4b_c 44 TOAST_RLE_COMPRESSION_ID [165; 97; 4; 98; 99; 99; 100] ++ [0].
Definition hoco_plain : list Z := mk_4b_u rle_sample ++ [].
Definition hoco_next : list Z := mk_4b_u (replicate 40 97 ++ [98; 99; 100]) ++ [].

Lemma hoco_compressed_holds : holds sample_env hoco_compressed rle_sample.
Proof. exact (sample_rle [0]). Qed.
Lemma hoco_plain_holds : holds sample_env hoco_plain rle_sample.
Proof. by apply holds_direct, direct_inline, inline_4b. Qed.
Lemma hoco_next_holds : holds sample_env hoco_next (replicate 40 97 ++ [98; 99; 100]).
Proof. by apply holds_direct, direct_inline, inline_4b. Qed.

Lemma hocotext_cmp_correct_witness :
  hocotext_cmp sample_env 100 hoco_compressed hoco_next
  = Ok (cmp_bytes rle_sample (replicate 40 97 ++ [98; 99; 100])) /\
  cmp_bytes rle_sample (replicate 40 97 ++ [98; 99; 100]) = -1.
Proof.
  split; [|vm_compute; reflexivity].
  exact (hocotext_cmp_correct sample_env _ _ _ _ 100 hoco_compressed_holds hoco_next_holds ltac:(solve_bytes)
    ltac:(solve_bytes) ltac:(vm_compute; reflexivity) eq_refl).
Defined.

Lemma hocotext_operators_correct_witness :
  hocotext_eq sample_env 100 hoco_compressed hoco_plain = Ok (bool_decide (rle_sample = rle_sample)).
Proof.
  exact (proj1 (hocotext_operators_correct sample_env _ _ _ _ 100 hoco_compressed_holds hoco_plain_holds
    ltac:(solve_bytes) ltac:(solve_bytes) ltac:(vm_compute; reflexivity) eq_refl)).
Defined.

Lemma hocotext_cmp_order_witness :
  exists lm ml mr lr, hocotext_cmp sample_env 100 hoco_compressed hoco_plain = Ok lm /\
    hocotext_cmp sample_env 100 hoco_plain hoco_compressed = Ok ml /\
    hocotext_cmp sample_env 100 hoco_plain hoco_next = Ok mr /\
    hocotext_cmp sample_env 100 hoco_compressed hoco_next = Ok lr /\
    ml = - lm /\ (lm = 0 <-> rle_sample = rle_sample) /\ (lm < 0 -> mr < 0 -> lr < 0).
Proof.
  exact (hocotext_cmp_order sample_env 100 _ _ _ _ _ _ hoco_compressed_holds hoco_plain_holds hoco_next_holds
    ltac:(solve_bytes) ltac:(solve_bytes) ltac:(solve_bytes) ltac:(vm_compute; reflexivity)
    ltac:(vm_compute; reflexivity) ltac:(vm_compute; reflexivity) ltac:(vm_compute; reflexivity) eq_refl).
Defined.

Lemma hocotext_min_max_witness :
  exists s g ds dg, hocotext_smaller sample_env 100 hoco_compressed hoco_next = Ok s /\
    hocotext_larger sample_env 100 hoco_compressed hoco_next = Ok g /\
    packed sample_config s ds /\ packed sample_config g dg /\
    (ds = rle_sample \/ ds = replicate 40 97 ++ [98; 99; 100]) /\ cmp_bytes ds rle_sample <= 0 /\
    cmp_bytes ds (replicate 40 97 ++ [98; 99; 100]) <= 0 /\
    (dg = rle_sample \/ dg = replicate 40 97 ++ [98; 99; 100]) /\ cmp_bytes dg rle_sample >= 0 /\
    cmp_bytes dg (replicate 40 97 ++ [98; 99; 100]) >= 0.
Proof.
  exact (hocotext_min_max sample_env _ _ _ _ 100 hoco_compressed_holds hoco_next_holds
    ltac:(solve_bytes) ltac:(solve_bytes) ltac:(vm_compute; reflexivity) eq_refl).
Defined.

Lemma hocotext_hoco_cmp_total_witness :
  hocotext_hoco_cmp (mk_4b_c 9 0 [0; 0; 129; 7]) (mk_4b_c 9 0 [4; 7]) 100 = Ub \/
  exists v, hocotext_hoco_cmp (mk_4b_c 9 0 [0; 0; 129; 7]) (mk_4b_c 9 0 [4; 7]) 100 = Ok v /\ -1 <= v <= 1.
Proof.
  exact (hocotext_hoco_cmp_total (mk_4b_c 9 0 [0; 0; 129; 7]) (mk_4b_c 9 0 [4; 7]) 100
    ltac:(solve_bytes) ltac:(solve_bytes) eq_refl ltac:(vm_compute; reflexivity) ltac:(vm_compute; reflexivity)).
Defined.

Lemma hocotext_token_buffer_witness :
  returns (load_token true (255 :: zrep 130 65) (side_init 0)) (fun s' => zlen (s_cur s') = TOKEN_BUF /\ s_cur_p s' = 0 /\
    0 <= s_count s' <= 130 /\ s_p (side_init 0) < s_p s' <= s_p (side_init 0) + 128).
Proof.
  exact (hocotext_token_buffer true (255 :: zrep 130 65) (side_init 0) ltac:(solve_bytes) ltac:(simpl; lia)
    ltac:(vm_compute; discriminate) ltac:(vm_compute; reflexivity)).
Defined.

(** ** What the comparison does not handle *)

(** A compressed datum in line is compared as it is. *)
Lemma compressed_packed E raw id payload t :
  hocotext_datum_packed E (mk_4b_c raw id payload ++ t) = Ok (mk_4b_c raw id payload ++ t).
Proof.
  unfold hocotext_datum_packed, hocotext_fetch_toasted_attr, hocotext_fetch_toasted_attr_n. tags. tags. done.
Qed.

Lemma plain_packed E data t : ok_4b_u data -> hocotext_datum_packed E (mk_4b_u data ++ t) = Ok (mk_4b_u data ++ t).
Proof. intros Hd. unfold hocotext_datum_packed. tags. tags. done. Qed.

(** C40: The comparison takes every compressed datum for RLE.  Whatever method compressed a
    value in line, where its payload happens to be a sequence of RLE tokens the value is
    ordered like what these stand for: it is equal to the plain form of that, and to the
    plain form of its own contents, which detoasting returns, only if the two are the
    same. *)
Theorem hocotext_other_method E id payload data ts t t' t'' collid :
  compressed_as (e_cfg E) id payload data -> ok_4b_u data -> ok_4b_c (zlen data) id payload -> bytes data ->
  Forall wf_tok ts -> payload = encode ts -> ok_4b_u (expand ts) -> OidIsValid collid = true ->
  let v := mk_4b_c (zlen data) id payload ++ t in
  detoast_attr E v = Ok (mk_4b_u data) /\
  hocotext_cmp E collid v (mk_4b_u data ++ t') = Ok (cmp_bytes (expand ts) data) /\
  hocotext_eq E collid v (mk_4b_u data ++ t') = Ok (bool_decide (expand ts = data)) /\
  hocotext_eq E collid v (mk_4b_u (expand ts) ++ t'') = Ok true.
Proof.
  intros Hc Hd Hok Hb Hw -> Hx Hcol v.
  assert (Hcmp : forall d u, ok_4b_u d ->
    compare_packed E collid v (mk_4b_u d ++ u) = Ok (cmp_bytes (expand ts) d, v, mk_4b_u d ++ u)).
  { intros d u Hd'. unfold compare_packed, v. rewrite compressed_packed. bind. rewrite plain_packed by done. bind. tags. tags.
    cbn [andb orb]. by rewrite (proj1 (mixed_cmp_ok _ _ ts t d u collid Hw Hok Hd' Hcol)). }
  assert (Hbx : bytes (expand ts)) by (by apply expand_bytes).
  split; [|unfold hocotext_cmp, hocotext_eq; rewrite !Hcmp by done; bind; cbn [fst]; split_and!; [done| |]].
  - destruct (detoast_ok E v data) as [?|[_ [t0 Heq]]]; [by apply holds_direct, direct_compressed|done|].
    pose proof (is_4b_u_u t0 data) as Hu. rewrite <- Heq in Hu. unfold v in Hu. by autorewrite with varatt in Hu.
  - f_equal. case_bool_decide as He; [apply Z.eqb_eq|apply Z.eqb_neq]; by rewrite cmp_bytes_eq.
  - f_equal. apply Z.eqb_eq. by apply cmp_bytes_eq.
Qed.

Lemma pglz_run_stored : compressed_as sample_config TOAST_PGLZ_COMPRESSION_ID [2; 97; 15; 1; 21] (replicate 40 97).
Proof.
  apply as_pglz. exists [[Lit 97; Match 39 1]]. split_and!; [simpl; lia|reflexivity| |reflexivity].
  vm_compute. intuition discriminate.
Qed.

(** Forty equal bytes, compressed by the server's default method, PGLZ: the payload reads
    as the three literals 97, 15 and 21. *)
Lemma hocotext_other_method_witness :
  let v := mk_4b_c 40 TOAST_PGLZ_COMPRESSION_ID [2; 97; 15; 1; 21] ++ [] in
  toast_compress_datum sample_config (mk_4b_u (replicate 40 97)) InvalidCompressionMethod = Ok (Some v) /\
  detoast_attr sample_env v = Ok (mk_4b_u (replicate 40 97)) /\
  hocotext_eq sample_env 100 v (mk_4b_u (replicate 40 97) ++ []) = Ok false /\
  hocotext_eq sample_env 100 v (mk_4b_u [97; 15; 21] ++ []) = Ok true.
Proof.
  split; [vm_compute; reflexivity|].
  destruct (hocotext_other_method sample_env TOAST_PGLZ_COMPRESSION_ID [2; 97; 15; 1; 21] (replicate 40 97)
    [Lits [97; 15]; Lits [21]] [] [] [] 100 pglz_run_stored ltac:(vm_compute; reflexivity)
    ltac:(vm_compute; intuition discriminate) ltac:(solve_bytes) ltac:(repeat constructor; vm_compute; done)
    eq_refl ltac:(vm_compute; reflexivity) eq_refl) as (H1 & _ & H3 & H4).
  split; [exact H1|]. split; [|exact H4]. rewrite bool_decide_eq_false_2 in H3 by discriminate. exact H3.
Defined.

(** hocotext_mixed_cmp reads the length of the plain side from a four-byte header: a
    value with a one-byte header, as tuples store short values, is found different from
    the same value compressed. *)
Theorem hocotext_short_misread :
  detoast_attr sample_env (mk_1b rle_sample) = Ok (mk_4b_u rle_sample) /\
  detoast_attr sample_env hoco_compressed = Ok (mk_4b_u rle_sample) /\
  hocotext_eq sample_env 100 hoco_compressed (mk_1b rle_sample) = Ok false.
Proof. split_and!; vm_compute; reflexivity. Qed.
