(* ===== verification/HocotextExtract.v ===== *)
(** Substring extraction of hocotext: hocotext_hoco_extract, which walks the tokens of
    an RLE value, and hocotext_common_extract for plain values. *)

From S2P Require Import Prelude Rle Varatt Pglz PglzHist PglzItems PglzCodec ToastCompression Oids ToastStore Detoast Hocotext HocotextCmp.

(** ** Positions inside a compressed value *)

(** The state is inside a token of which the bytes [r] are left; [ts] follow. *)
Inductive at_pos (src post : list Z) (s : locate) (r : list Z) (ts : list rle_tok) : Prop :=
| at_run pre c : src = pre ++ c :: encode ts ++ post -> l_sp s = zlen pre -> l_type s = 1 ->
    l_count s = zlen r -> r = zrep (zlen r) c -> at_pos src post s r ts
| at_lits pre : src = pre ++ r ++ encode ts ++ post -> l_sp s = zlen pre -> l_type s = 0 ->
    l_count s = zlen r -> at_pos src post s r ts.

Definition control (t : rle_tok) : Z := match t with Run n _ => n - 3 + 128 | Lits l => zlen l end.
Definition token_data (t : rle_tok) : list Z := match t with Run _ c => [c] | Lits l => l end.

Lemma enc_control t : enc_tok t = control t :: token_data t.
Proof. by destruct t. Qed.

Lemma control_bits t :
  wf_tok t -> token_type (control t) = (match t with Run _ _ => 1 | Lits _ => 0 end) /\
    token_count (control t) = zlen (exp_tok t).
Proof.
  unfold token_count, token_type. destruct t as [n c|l]; simpl; intros [Hn _].
  - destruct (token_bits_run n Hn) as [-> ->]. cbn [Z.eqb Pos.eqb]. split; [done|]. rewrite zlen_zrep. lia.
  - destruct (token_bits_lits (zlen l) Hn) as [-> ->]. done.
Qed.

Lemma zrep_drop n c k : 0 <= k <= n -> drop (Z.to_nat k) (zrep n c) = zrep (n - k) c.
Proof. intros Hk. unfold zrep. rewrite drop_replicate. f_equal. lia. Qed.
Lemma zrep_take n c k : 0 <= k <= n -> take (Z.to_nat k) (zrep n c) = zrep k c.
Proof. intros Hk. unfold zrep. rewrite take_replicate. f_equal. lia. Qed.

(** At the control byte of a token, with the pointer moved [k] bytes into its contents. *)
Lemma at_token src pre post t ts k s :
  wf_tok t -> src = pre ++ enc_tok t ++ encode ts ++ post -> 0 <= k <= zlen (exp_tok t) ->
  l_type s = token_type (control t) -> l_count s = zlen (exp_tok t) - k ->
  l_sp s = zlen pre + 1 + (match t with Run _ _ => 0 | Lits _ => k end) ->
  at_pos src post s (drop (Z.to_nat k) (exp_tok t)) ts.
Proof.
  intros Hw -> Hk Hty Hct Hsp. destruct (control_bits t Hw) as [Hb _]. rewrite Hb in Hty.
  destruct t as [n c|l]; cbn [enc_tok exp_tok] in *.
  - simpl in Hw. apply (at_run _ _ _ _ _ (pre ++ [n - 3 + 128]) c); try done.
    + by rewrite <- app_assoc.
    + zl.
    + rewrite zlen_drop. zl.
    + rewrite zrep_drop by zl. f_equal. zl.
  - apply (at_lits _ _ _ _ _ (pre ++ zlen l :: take (Z.to_nat k) l)); try done.
    + rewrite <- app_assoc. simpl. do 2 f_equal. rewrite (app_assoc (take _ _)), take_drop. done.
    + rewrite zlen_app, zlen_cons, zlen_take. lia.
    + rewrite zlen_drop. lia.
Qed.

(** ** Locating the offset *)

Lemma locate_ok src post offset ts : forall pre cur ty cnt fuel,
  Forall wf_tok ts -> src = pre ++ encode ts ++ post -> cur < offset -> offset <= cur + zlen (expand ts) ->
  (length ts < fuel)%nat ->
  exists s r ts', iter fuel (locate_body src offset) (mkLocate (zlen pre) cur ty cnt) = Ok s /\
    at_pos src post s r ts' /\ l_cur s = offset /\ Forall wf_tok ts' /\ (length ts' <= length ts)%nat /\
    zlen pre < l_sp s /\ r ++ expand ts' = drop (Z.to_nat (offset - cur)) (expand ts).
Proof.
  induction ts as [|t ts IH]; intros pre cur ty cnt fuel Hw Hsrc Hlt Hle Hf.
  { change (zlen (expand [])) with 0 in Hle. lia. }
  destruct fuel as [|fuel]; [simpl in Hf; lia|]. apply Forall_cons in Hw as [Ht Hts].
  pose proof (exp_tok_len t Ht) as Hel. destruct (control_bits t Ht) as [Hty Hct].
  rewrite encode_cons, <- app_assoc in Hsrc.
  assert (Hrd : rd src (zlen pre) = Ok (control t)).
  { rewrite Hsrc, enc_control. simpl. by apply rd_middle. }
  set (n := zlen (exp_tok t)) in *.
  rewrite expand_cons, zlen_app in Hle.
  destruct (Z.le_gt_cases offset (n + cur)) as [Hreach|Hnot].
  - assert (Hb : locate_body src offset (mkLocate (zlen pre) cur ty cnt) =
      Ok (inl (mkLocate (zlen pre + 1 + (match t with Run _ _ => 0 | Lits _ => offset - cur end)) offset
                 (token_type (control t)) (n - (offset - cur))))).
    { unfold locate_body. cbn [l_cur l_sp]. replace (cur <? offset) with true by lia. rewrite Hrd. bind.
      rewrite Hct. replace (offset - (n + cur) <=? 0) with true by lia. rewrite Hty.
      do 3 f_equal. destruct t; cbn [Z.eqb Pos.eqb]; lia. }
    rewrite iter_S, Hb. cbn [mbind res_bind]. set (s := mkLocate _ _ _ _).
    exists s, (drop (Z.to_nat (offset - cur)) (exp_tok t)), ts. split_and!.
    + destruct fuel as [|fuel]; [simpl in Hf; lia|]. rewrite iter_S.
      assert (Hb2 : locate_body src offset s = Ok (inr s)); [|by rewrite Hb2].
      unfold locate_body. cbn [l_cur s]. by rewrite Z.ltb_irrefl.
    + apply (at_token _ pre post t ts (offset - cur)); done || lia.
    + done.
    + done.
    + simpl. lia.
    + cbn [l_sp s]. destruct t; lia.
    + rewrite expand_cons, drop_app_le by (unfold n, zlen in *; lia). done.
  - assert (Hb : locate_body src offset (mkLocate (zlen pre) cur ty cnt) =
      Ok (inl (mkLocate (zlen (pre ++ enc_tok t)) (cur + n) (token_type (control t)) n))).
    { unfold locate_body. cbn [l_cur l_sp]. replace (cur <? offset) with true by lia. rewrite Hrd. bind.
      rewrite Hct. replace (offset - (n + cur) <=? 0) with false by lia. rewrite Hty. rewrite zlen_app.
      do 3 f_equal. unfold n. destruct t; cbn [Z.eqb Pos.eqb enc_tok exp_tok]; zl. }
    rewrite iter_S, Hb. cbn [mbind res_bind].
    destruct (IH (pre ++ enc_tok t) (cur + n) (token_type (control t)) n fuel) as (s & r & ts' & Hi & Hp & Hc & Hw' & Hl & Hs & He).
    + done.
    + by rewrite <- app_assoc.
    + lia.
    + lia.
    + simpl in Hf. lia.
    + exists s, r, ts'. split_and!; try done; [simpl; lia|zl|]. rewrite He, expand_cons.
      rewrite drop_app_ge by (unfold n, zlen in *; lia). f_equal. unfold n, zlen in *. lia.
Qed.

(** ** Copying *)

Section copy.
Context (src post : list Z) (offset len rawsize : Z) (Hpost : post <> []).

(** The byte after a token's contents: the next control byte, or memory after the value. *)
Lemma next_byte pre ts : Forall wf_tok ts ->
  exists b, rd (pre ++ encode ts ++ post) (zlen pre) = Ok b /\
    match ts with [] => True | t :: _ => b = control t end.
Proof.
  intros Hw. destruct ts as [|t ts].
  - destruct post as [|b post']; [done|]. exists b. simpl. split; [by apply rd_middle|done].
  - exists (control t). rewrite encode_cons, enc_control. simpl. split; [by apply rd_middle|done].
Qed.

(** One turn: [j] bytes of the token are copied. *)
Lemma copy_turn s r ts done rest :
  at_pos src post s r ts -> Forall wf_tok ts -> VARDATA < l_sp s -> offset <= l_cur s ->
  l_cur s - offset < len -> l_cur s < rawsize ->
  let j := Z.min (offset + len - l_cur s) (zlen r) in
  j <= zlen rest ->
  exists s', extract_body src offset len rawsize (s, zlen done, done ++ rest) =
      Ok (inl (s', zlen (done ++ take (Z.to_nat j) r), (done ++ take (Z.to_nat j) r) ++ drop (Z.to_nat j) rest)) /\
    l_cur s' = l_cur s + j /\ VARDATA < l_sp s' /\
    (j = zlen r -> match ts with [] => True | t :: ts' => at_pos src post s' (exp_tok t) ts' end).
Proof.
  intros Hp Hw Hsp Hoff Hlt Hraw j Hj. pose proof (zlen_nonneg r) as Hr0.
  assert (Hj0 : 0 <= j <= zlen r) by (unfold j; lia).
  assert (Htl : zlen (take (Z.to_nat j) r) = j) by (rewrite zlen_take; lia).
  assert (Hwr : forall x, x = take (Z.to_nat j) r -> wr (done ++ rest) (zlen done) x
    = Ok ((done ++ take (Z.to_nat j) r) ++ drop (Z.to_nat j) rest)).
  { intros x ->. rewrite wr_append by lia. do 2 f_equal. f_equal. unfold zlen in Htl. lia. }
  unfold extract_body. replace ((l_cur s - offset <? len) && (l_cur s <? rawsize)) with true by lia.
  replace (l_sp s =? VARDATA) with false by lia. bind.
  assert (Hcount : (if l_count s + l_cur s - offset >? len then len + offset - l_cur s else l_count s) = j).
  { assert (Hc : l_count s = zlen r) by (by destruct Hp). rewrite Hc. unfold j.
    destruct (Z.gtb_spec (zlen r + l_cur s - offset) len); lia. }
  rewrite Hcount.
  assert (Hnext : forall pre b, src = pre ++ encode ts ++ post -> rd src (zlen pre) = Ok b ->
    match ts with [] => True | t :: _ => b = control t end ->
    match ts with [] => True | t :: ts' => at_pos src post
      (mkLocate (zlen pre + 1) (l_cur s + j) (token_type b) (token_count b)) (exp_tok t) ts' end).
  { intros pre b Hs Hb Hctl. destruct ts as [|t ts']; [done|]. subst b. apply Forall_cons in Hw as [Ht _].
    destruct (control_bits t Ht) as [Hty Hct]. rewrite <- (drop_0 (exp_tok t)).
    apply (at_token _ pre post t ts' 0); try done; [by rewrite Hs, encode_cons, <- app_assoc| | |].
    - pose proof (exp_tok_len t Ht). lia.
    - cbn [l_count]. rewrite Hct. lia.
    - cbn [l_sp]. destruct t; lia. }
  destruct Hp as [pre c Hs Hpsp Hty Hcnt Hrun|pre Hs Hpsp Hty Hcnt]; rewrite Hty; cbn [Z.eqb Pos.eqb].
  - assert (Hs' : src = (pre ++ [c]) ++ encode ts ++ post) by (by rewrite <- app_assoc).
    destruct (next_byte (pre ++ [c]) ts Hw) as (b & Hb & Hctl). rewrite <- Hs' in Hb.
    assert (Hmem : (if j >? 0 then c ← rd src (l_sp s); wr (done ++ rest) (zlen done) (zrep j c) else Ok (done ++ rest))
      = Ok ((done ++ take (Z.to_nat j) r) ++ drop (Z.to_nat j) rest)).
    { destruct (Z.gtb_spec j 0) as [Hpos|Hz].
      - rewrite Hpsp. rewrite Hs at 1. rewrite rd_middle by done. bind. apply Hwr.
        by rewrite Hrun, zrep_take by lia.
      - assert (j = 0) as -> by lia. simpl. by rewrite app_nil_r, drop_0. }
    rewrite Hmem. bind. rewrite Hpsp. replace (zlen pre + 1) with (zlen (pre ++ [c])) by zl. rewrite Hb. bind.
    eexists. split; [rewrite (zlen_app done), Htl; reflexivity|]. cbn [l_cur l_sp]. split; [done|].
    split; [unfold VARDATA in *; zl|]. intros _. by apply Hnext.
  - rewrite Hpsp.
    assert (Hrdn : rdn src (zlen pre) j = Ok (take (Z.to_nat j) r)).
    { rewrite Hs, <- (take_drop (Z.to_nat j) r) at 1. rewrite <- !app_assoc. apply rdn_middle; [done|lia]. }
    rewrite Hrdn. bind. rewrite Hwr by done. bind.
    set (pre' := pre ++ take (Z.to_nat j) r).
    assert (Hpre' : zlen pre + j = zlen pre') by (unfold pre'; rewrite zlen_app, Htl; done). rewrite Hpre'.
    assert (Hs' : src = pre' ++ drop (Z.to_nat j) r ++ encode ts ++ post).
    { unfold pre'. rewrite <- app_assoc, (app_assoc (take _ _)), take_drop. done. }
    assert (Hb : exists b, rd src (zlen pre') = Ok b /\
      (j = zlen r -> match ts with [] => True | t :: _ => b = control t end)).
    { destruct (drop (Z.to_nat j) r) as [|b k] eqn:Hd.
      - destruct (next_byte pre' ts Hw) as (b & Hb & Hctl). exists b. rewrite Hs'. by split.
      - exists b. rewrite Hs'. simpl. split; [by apply rd_middle|]. intros Hjr.
        apply (f_equal length) in Hd. rewrite length_drop in Hd. unfold zlen in *. simpl in Hd. lia. }
    destruct Hb as (b & Hb & Hctl). rewrite Hb. bind.
    eexists. split; [rewrite (zlen_app done), Htl; reflexivity|]. cbn [l_cur l_sp]. split; [done|].
    split; [unfold VARDATA in *; zl|]. intros Hjr. apply Hnext; [|done|by apply Hctl].
    rewrite Hs'. rewrite drop_ge by (unfold zlen in *; lia). done.
Qed.

Lemma copy_stop s dp mem fuel :
  len <= l_cur s - offset \/ rawsize <= l_cur s ->
  iter (S fuel) (extract_body src offset len rawsize) (s, dp, mem) = Ok (s, dp, mem).
Proof.
  intros Hend. rewrite iter_S.
  assert (Hb : extract_body src offset len rawsize (s, dp, mem) = Ok (inr (s, dp, mem))); [|by rewrite Hb].
  unfold extract_body. by replace ((l_cur s - offset <? len) && (l_cur s <? rawsize)) with false by lia.
Qed.

Lemma extract_loop ts : forall r s done rest fuel k,
  at_pos src post s r ts -> Forall wf_tok ts -> VARDATA < l_sp s -> offset <= l_cur s <= offset + len ->
  l_cur s + zlen (r ++ expand ts) = rawsize ->
  k = Z.min (offset + len - l_cur s) (zlen (r ++ expand ts)) ->
  k <= zlen rest -> (S (length ts) < fuel)%nat ->
  exists s' rest', iter fuel (extract_body src offset len rawsize) (s, zlen done, done ++ rest) =
      Ok (s', zlen done + k, done ++ take (Z.to_nat k) (r ++ expand ts) ++ rest') /\
    l_cur s' = l_cur s + k /\ zlen rest' = zlen rest - k.
Proof.
  induction ts as [|t ts IH]; intros r s done rest fuel k Hp Hw Hsp Hoff Hraw Hkeq Hk Hf;
    (destruct fuel as [|fuel]; [lia|]); pose proof (zlen_nonneg r) as Hr0;
    rewrite zlen_app in Hraw, Hkeq; zlen_pos;
    (destruct (decide (k = 0)) as [Hk0|Hk0]; [rewrite copy_stop by lia; exists s, rest; rewrite Hk0;
       rewrite !Z.add_0_r, Z.sub_0_r; by rewrite take_0|]);
    (destruct (copy_turn s r _ done rest Hp Hw Hsp ltac:(lia) ltac:(lia) ltac:(lia)) as (s1 & Hb & Hc1 & Hsp1 & Hn1);
       [lia|]); rewrite iter_S, Hb; cbn [mbind res_bind];
    set (j := Z.min (offset + len - l_cur s) (zlen r)) in *;
    (destruct fuel as [|fuel]; [simpl in Hf; lia|]).
  - change (expand []) with (@nil Z) in *. rewrite app_nil_r in *. change (zlen []) with 0 in *. assert (Hjk : j = k) by lia.
    rewrite copy_stop by lia. exists s1, (drop (Z.to_nat j) rest). rewrite Hjk in *. rewrite <- app_assoc.
    split_and!; [|lia|rewrite zlen_drop; lia]. do 3 f_equal. rewrite zlen_app, zlen_take. lia.
  - destruct (Z.le_gt_cases (offset + len - l_cur s) (zlen r)) as [Hle|Hgt].
    + assert (Hjk : j = k) by lia. rewrite copy_stop by lia. exists s1, (drop (Z.to_nat j) rest).
      rewrite Hjk in *. rewrite <- app_assoc, take_app_le by (unfold zlen in *; lia).
      split_and!; [|lia|rewrite zlen_drop; lia]. do 3 f_equal. rewrite zlen_app, zlen_take. lia.
    + assert (Hj : j = zlen r) by lia. specialize (Hn1 Hj). cbn [l_cur] in *.
      apply Forall_cons in Hw as [Ht Hts]. rewrite expand_cons in *.
      destruct (IH (exp_tok t) s1 (done ++ take (Z.to_nat j) r) (drop (Z.to_nat j) rest) (S fuel) (k - j))
        as (s2 & rest2 & Hi & Hc2 & Hr2); [done|done|done|lia|lia|lia|rewrite zlen_drop; lia|simpl in Hf; lia|].
      exists s2, rest2. rewrite Hi. split_and!; [|lia|rewrite Hr2, zlen_drop; lia].
      assert (Hdp : zlen (done ++ take (Z.to_nat j) r) + (k - j) = zlen done + k)
        by (rewrite zlen_app, zlen_take; lia).
      assert (Hmem : (done ++ take (Z.to_nat j) r) ++ take (Z.to_nat (k - j)) (exp_tok t ++ expand ts) ++ rest2
        = done ++ take (Z.to_nat k) (r ++ exp_tok t ++ expand ts) ++ rest2); [|by rewrite Hdp, Hmem].
      rewrite (take_app_ge r) by (unfold zlen in *; lia). rewrite (take_ge r) by (unfold zlen in *; lia).
      replace (Z.to_nat (k - j)) with (Z.to_nat k - length r)%nat by (unfold zlen in *; lia).
      by rewrite <- !app_assoc.
Qed.
End copy.

(** ** hocotext_hoco_extract *)

Lemma encode_length ts : Forall wf_tok ts -> (length ts <= length (encode ts))%nat.
Proof.
  induction ts as [|t ts IH]; intros Hw; [done|]. apply Forall_cons in Hw as [Ht Hts]. specialize (IH Hts).
  rewrite encode_cons, length_app. pose proof (enc_tok_len t Ht). unfold zlen in *. simpl. lia.
Qed.

(** The memory of the result: a header whose first byte is even, as SET_VARSIZE leaves
    it, or as chance has it in memory that was not initialised. *)
Definition result_memory (mem : list Z) (len : Z) : Prop :=
  zlen mem = len + VARHDRSZ + 10 /\ VARDATA_ANY mem = Ok VARDATA.

Lemma result_split mem len :
  result_memory mem len -> 0 <= len -> exists h rest, mem = h ++ rest /\ zlen h = 4 /\ zlen rest = len + 10.
Proof.
  intros [Hl _] Hlen. unfold VARHDRSZ in Hl. exists (take 4 mem), (drop 4 mem). rewrite take_drop.
  split; [done|]. rewrite zlen_take, zlen_drop. lia.
Qed.

Lemma set_result h slice rest len :
  zlen h = 4 -> zlen slice = len -> 0 <= len -> len + 4 < 2 ^ 30 ->
  SET_VARSIZE (h ++ slice ++ rest) (len + VARHDRSZ) = mk_4b_u slice ++ rest.
Proof.
  intros Hh Hs Hlen Hlt. unfold SET_VARSIZE, SET_VARSIZE_4B, mk_4b_u, wrap32, VARHDRSZ. rewrite Z.mod_small by lia.
  rewrite Z.shiftl_mul_pow2, Hs, <- app_assoc by lia. replace ((len + 4) * 2 ^ 2) with (4 * (len + 4)) by lia.
  f_equal. replace 4%nat with (length h) by (unfold zlen in Hh; lia). by rewrite drop_app_length.
Qed.

Section extract.
Context (mem t : list Z) (id : Z) (ts : list rle_tok) (offset len collid : Z).
Context (Hw : Forall wf_tok ts) (Hok : ok_4b_c (zlen (expand ts)) id (encode ts)) (Ht : t <> []).
Context (Hoff : 1 <= offset <= zlen (expand ts)) (Hlen : 0 <= len) (Halloc : len + VARHDRSZ + 10 <= MaxAllocSize).
Context (Hcol : OidIsValid collid = true) (Hmem : result_memory mem len).
Local Abbreviation source := (mk_4b_c (zlen (expand ts)) id (encode ts) ++ t).

Lemma hoco_extract_ok :
  exists rest, hocotext_hoco_extract mem source offset len collid =
    Ok (Returned (if offset + len <? zlen (expand ts)
                  then Some (mk_4b_u (zslice (expand ts) offset len) ++ rest) else None)).
Proof.
  pose proof Hok as (Hraw & _ & _). unfold MaxAllocSize, VARHDRSZ in Halloc.
  unfold hocotext_hoco_extract, palloc_result. replace (len + VARHDRSZ + 10 >? INT_MAX) with false
    by (unfold INT_MAX, VARHDRSZ; lia).
  rewrite palloc_ok by (unfold MaxAllocSize, VARHDRSZ; lia). bind. rewrite get_extsize_c by done. bind.
  rewrite int32_small by lia. rewrite Hcol. cbn [negb]. replace (len <? 0) with false by lia.
  destruct Hmem as [_ Hdata]. rewrite Hdata. bind.
  destruct (result_split mem len Hmem Hlen) as (h & rest & -> & Hh & Hrest).
  set (pre := le32 (4 * (zlen (encode ts) + 8) + 2) ++ le32 (zlen (expand ts) + id * 2 ^ 30)).
  assert (Hsrc : source = pre ++ encode ts ++ t) by (unfold pre, mk_4b_c; by rewrite <- !app_assoc).
  assert (Hfuel : (S (length ts) < S (length source))%nat).
  { rewrite Hsrc, !length_app. pose proof (encode_length ts Hw). unfold pre. simpl. lia. }
  destruct (locate_ok source t offset ts pre 0 1 0 (S (length source))) as (s & r & ts' & Hi & Hp & Hc & Hw' & Hl & Hs & He);
    [done|done|lia|lia|lia|]. rewrite Z.sub_0_r in He.
  change (zlen pre) with VARHDRSZ_COMPRESSED in Hi. rewrite Hi. bind.
  assert (Hsp : VARDATA < l_sp s) by (change (zlen pre) with 8 in Hs; unfold VARDATA; lia).
  set (k := Z.min (offset + len - l_cur s) (zlen (r ++ expand ts'))).
  assert (Hrem : zlen (r ++ expand ts') = zlen (expand ts) - offset) by (rewrite He, zlen_drop; lia).
  destruct (extract_loop source t offset len (zlen (expand ts)) Ht ts' r s h rest (S (length source)) k)
    as (s' & rest' & Hi2 & Hc2 & Hr2); [done|done|done|lia|lia|done|lia|lia|].
  rewrite Hh in Hi2. change 4 with VARDATA in Hi2 at 1. rewrite Hi2. bind.
  set (slice := take (Z.to_nat k) (r ++ expand ts')) in *.
  assert (Hsl : zlen slice = k) by (unfold slice; rewrite zlen_take; lia).
  assert (Hdp : zlen (h ++ slice) = 4 + k) by (rewrite zlen_app; lia).
  rewrite app_assoc, <- Hdp, wr_append by (change (zlen [0]) with 1; lia). bind. rewrite Hdp, Hc2, Hc.
  exists (0 :: drop 1 rest').
  destruct (Z.ltb_spec (offset + len) (zlen (expand ts))) as [Hlt|Hge].
  - assert (Hk : k = len) by lia.
    assert (Hslice : slice = zslice (expand ts) offset len) by (unfold slice, zslice; rewrite He, Hk; done).
    rewrite Hk in *. change VARDATA with 4.
    replace (4 + len =? 4 + len) with true by lia. replace (offset + len =? zlen (expand ts)) with false by lia.
    cbn [negb orb]. do 3 f_equal. rewrite <- !app_assoc. rewrite set_result by lia.
    by rewrite Hslice.
  - destruct (Z.eqb_spec (4 + k) (VARDATA + len)) as [Hkl|]; [|done].
    replace (offset + k =? zlen (expand ts)) with true; [done|]. unfold VARDATA in Hkl. lia.
Qed.
End extract.

(** ** hocotext_common_extract *)

Lemma vardata_any_header h a b : zlen h = 4 -> VARDATA_ANY (h ++ a) = VARDATA_ANY (h ++ b).
Proof. intros Hh. unfold VARDATA_ANY, VARATT_IS_1B. by rewrite !rd_app_l by lia. Qed.

Lemma common_extract_ok mem data t offset len collid :
  ok_4b_u data -> INT_MIN <= offset <= INT_MAX -> 0 <= len -> len + VARHDRSZ + 10 <= MaxAllocSize ->
  OidIsValid collid = true -> result_memory mem len ->
  exists rest, hocotext_common_extract mem (mk_4b_u data ++ t) offset len collid =
    Ok (if (0 <=? offset) && (offset <=? zlen data)
        then Some (mk_4b_u (zslice data offset (Z.min len (zlen data - offset))) ++ rest) else None).
Proof.
  intros Hd Hoff Hlen Halloc Hcol Hmem. unfold ok_4b_u in Hd. unfold MaxAllocSize, VARHDRSZ in Halloc.
  pose proof (zlen_nonneg data) as Hd0. unfold INT_MIN, INT_MAX in Hoff.
  unfold hocotext_common_extract, palloc_result. replace (len + VARHDRSZ + 10 >? INT_MAX) with false
    by (unfold INT_MAX, VARHDRSZ; lia).
  rewrite palloc_ok by (unfold MaxAllocSize, VARHDRSZ; lia). bind.
  assert (Hva : VARDATA_ANY (mk_4b_u data ++ t) = Ok VARDATA) by (unfold VARDATA_ANY; by tags).
  rewrite Hva. bind. tags. rewrite Hcol. cbn [negb].
  unfold VARSIZE_ANY_EXHDR. tags. tags. tags.
  replace (wrap32 (zlen data + 4 - VARHDRSZ)) with (zlen data)
    by (unfold wrap32, VARHDRSZ; rewrite Z.mod_small; lia).
  destruct (Z.leb_spec 0 offset) as [Hpos|Hneg]; cbn [andb].
  2: { exists []. unfold size_t. replace (offset mod 2 ^ 64 >? zlen data) with true; [done|].
       rewrite <- (Z.mod_add offset 1) by lia. rewrite Z.mod_small by lia. lia. }
  unfold size_t. rewrite Z.mod_small by lia.
  destruct (Z.leb_spec offset (zlen data)) as [Hle|Hgt];
    [replace (offset >? zlen data) with false by lia|replace (offset >? zlen data) with true by lia; by exists []].
  destruct (result_split mem len Hmem Hlen) as (h & rest & -> & Hh & Hrest).
  destruct Hmem as [_ Hdata]. rewrite Hdata. bind.
  set (n := Z.min len (zlen data - offset)).
  replace (if zlen data + 4 - (VARDATA + offset) <? len then zlen data + 4 - (VARDATA + offset) else len) with n
    by (unfold n, VARDATA; destruct (Z.ltb_spec (zlen data + 4 - (4 + offset)) len); lia).
  assert (Hrd : rdn (mk_4b_u data ++ t) (VARDATA + offset) n = Ok (zslice data offset n)).
  { rewrite rdn_Ok by (unfold n, VARDATA; zl). f_equal. unfold mk_4b_u, zslice, VARDATA.
    rewrite <- app_assoc. replace (Z.to_nat (4 + offset)) with (4 + Z.to_nat offset)%nat by lia.
    rewrite <- drop_drop. change (drop 4 (le32 ?z ++ ?k)) with k.
    rewrite drop_app_le, take_app_le; [done|rewrite length_drop|]; unfold n, zlen in *; lia. }
  rewrite Hrd. bind. assert (Hz : zlen (zslice data offset n) = n) by (apply zlen_zslice; unfold n; lia).
  replace VARDATA with (zlen h) by done. rewrite wr_append by lia. bind.
  rewrite <- app_assoc, (vardata_any_header h _ rest), Hdata by done. bind.
  replace (VARDATA + n) with (zlen (h ++ zslice data offset n)) by (rewrite zlen_app; unfold VARDATA; lia).
  rewrite app_assoc, wr_append by (change (zlen [0]) with 1; rewrite zlen_drop; unfold zlen in Hz at 1; unfold n in *; lia).
  bind. rewrite <- !app_assoc, set_result by (unfold n in *; lia). by eexists.
Qed.

(** * Properties *)

(** C9: hocotext_extract on an RLE value walks the tokens to the right place: for an
    offset from 1 to the size of the contents and any length, with at least one byte of
    memory after the value and where the memory that palloc returns for the result has an
    even first byte ([result_memory]), it returns exactly the bytes
    offset, ..., offset + len - 1 of the contents if these end before the last byte, and
    NULL otherwise, also where the substring ends with the value. *)
Theorem hocotext_extract_compressed E mem t ts data offset len collid :
  Forall wf_tok ts -> expand ts = data -> ok_4b_c (zlen data) TOAST_RLE_COMPRESSION_ID (encode ts) -> t <> [] ->
  1 <= offset <= zlen data -> 0 <= len -> len + VARHDRSZ + 10 <= MaxAllocSize ->
  OidIsValid collid = true -> result_memory mem len ->
  exists rest,
    hocotext_extract E collid mem (mk_4b_c (zlen data) TOAST_RLE_COMPRESSION_ID (encode ts) ++ t) offset len =
    Ok (Returned (if offset + len <? zlen data then Some (mk_4b_u (zslice data offset len) ++ rest) else None)).
Proof.
  intros Hw <- Hok Ht Hoff Hlen Halloc Hcol Hmem. unfold hocotext_extract, hocotext_datum_packed,
    hocotext_fetch_toasted_attr, hocotext_fetch_toasted_attr_n. tags. tags. by apply hoco_extract_ok.
Qed.

(** On a plain value with a four-byte header hocotext_extract and text_extract return
    the substring as far as the value has it, and NULL for an offset outside of it, a
    negative one included. *)
Theorem hocotext_extract_plain E mem data t offset len collid :
  ok_4b_u data -> INT_MIN <= offset <= INT_MAX -> 0 <= len -> len + VARHDRSZ + 10 <= MaxAllocSize ->
  OidIsValid collid = true -> result_memory mem len ->
  exists rest,
    let r := if (0 <=? offset) && (offset <=? zlen data)
             then Some (mk_4b_u (zslice data offset (Z.min len (zlen data - offset))) ++ rest) else None in
    hocotext_extract E collid mem (mk_4b_u data ++ t) offset len = Ok (Returned r) /\
    text_extract E collid mem (mk_4b_u data ++ t) offset len = Ok r.
Proof.
  intros Hd Hoff Hlen Halloc Hcol Hmem.
  destruct (common_extract_ok mem data t offset len collid) as [rest Hr]; try done. exists rest.
  unfold hocotext_extract, text_extract, hocotext_datum_packed, pg_detoast_datum_packed. tags. tags. tags.
  by rewrite Hr.
Qed.

Lemma hocotext_extract_compressed_witness :
  exists rest, hocotext_extract sample_env 100 (zrep 18 0) hoco_compressed 39 4
  = Ok (Returned (if 39 + 4 <? zlen rle_sample then Some (mk_4b_u (zslice rle_sample 39 4) ++ rest) else None)).
Proof.
  exact (hocotext_extract_compressed sample_env (zrep 18 0) [0] [Run 40 97; Lits [98; 99; 99; 100]] rle_sample 39 4 100
    ltac:(repeat constructor; vm_compute; done) eq_refl ltac:(vm_compute; intuition discriminate) ltac:(done)
    ltac:(vm_compute; intuition discriminate) ltac:(lia) ltac:(vm_compute; discriminate) eq_refl
    ltac:(split; vm_compute; reflexivity)).
Defined.

Lemma hocotext_extract_plain_witness :
  exists rest,
    let r := if (0 <=? 41) && (41 <=? zlen rle_sample)
             then Some (mk_4b_u (zslice rle_sample 41 (Z.min 9 (zlen rle_sample - 41))) ++ rest) else None in
    hocotext_extract sample_env 100 (zrep 23 0) (mk_4b_u rle_sample ++ []) 41 9 = Ok (Returned r) /\
    text_extract sample_env 100 (zrep 23 0) (mk_4b_u rle_sample ++ []) 41 9 = Ok r.
Proof.
  exact (hocotext_extract_plain sample_env (zrep 23 0) rle_sample [] 41 9 100 ltac:(vm_compute; reflexivity)
    ltac:(vm_compute; intuition discriminate) ltac:(lia) ltac:(vm_compute; discriminate) eq_refl
    ltac:(split; vm_compute; reflexivity)).
Defined.

(** ** What extraction does not handle *)

(** The result's memory decides where the bytes go: VARDATA_ANY looks at a header that
    palloc did not initialise.  With an odd byte there, the substring of a compressed and
    of a plain value is written one byte after the start and then overwritten by the
    header, and the datum returned does not hold it. *)
Theorem hocotext_extract_uninitialised :
  zslice rle_sample 39 3 = [97; 98; 99] /\
  hocotext_extract sample_env 100 (1 :: zrep 16 0) hoco_compressed 39 3
    = Ok (Returned (Some (mk_4b_u [0; 0; 0] ++ zrep 10 0))) /\
  hocotext_extract sample_env 100 (1 :: zrep 16 0) hoco_plain 39 3
    = Ok (Returned (Some (mk_4b_u [0; 0; 0] ++ zrep 10 0))).
Proof. split_and!; vm_compute; reflexivity. Qed.

(** Offset 0 of a compressed value is not handled: the test for the first token
    compares with another address, the first control byte is skipped and its data byte is
    taken for a control byte. *)
Theorem hocotext_extract_offset_zero :
  zslice rle_sample 0 3 = [97; 97; 97] /\
  hocotext_extract sample_env 100 (zrep 17 0) hoco_compressed 0 3
    = Ok (Returned (Some (mk_4b_u [4; 98; 99] ++ zrep 10 0))).
Proof. split_and!; vm_compute; reflexivity. Qed.

(** The extraction loop reads one control byte too many: on a value that ends with a run
    and lies at the end of its memory, a substring that ends inside of the run makes it
    read past the value. *)
Theorem hocotext_extract_overread :
  detoast_attr sample_env (mk_4b_c 40 TOAST_RLE_COMPRESSION_ID [165; 97]) = Ok (mk_4b_u (zrep 40 97)) /\
  hocotext_hoco_extract (zrep 19 0) (mk_4b_c 40 TOAST_RLE_COMPRESSION_ID [165; 97]) 1 5 100 = Ub.
Proof. split_and!; vm_compute; reflexivity. Qed.

(** text_extract and hocotext_extract take the end of a plain value from a four-byte
    header: for a value with a one-byte header the end is wrong, and a request that goes
    up to the end reads past the value. *)
Theorem text_extract_short_overread :
  text_extract sample_env 100 (zrep 64 0) (mk_1b [97; 98; 99; 100; 101]) 1 50 = Ub /\
  hocotext_extract sample_env 100 (zrep 64 0) (mk_1b [97; 98; 99; 100; 101]) 1 50 = Ub.
Proof. split_and!; vm_compute; reflexivity. Qed.
