(* ===== verification/Wchar.v ===== *)
(** Multibyte characters: the encoding table of src/common/wchar.c (character length and
    validation of every encoding) and the length functions of
    src/backend/utils/mb/mbutils.c.

    A [const unsigned char *] is the list of the bytes from the pointer on.  The display
    widths and the conversions to wide characters are not modelled. *)

From S2P Require Import Prelude Varatt.

(** ** Byte classes: c.h and mb/pg_wchar.h *)

Definition IS_HIGHBIT_SET (ch : Z) : bool := negb (Z.land ch 0x80 =? 0).
Definition SS2 : Z := 0x8e.
Definition SS3 : Z := 0x8f.
Definition ISSJISHEAD (c : Z) : bool :=
  ((0x81 <=? c) && (c <=? 0x9f)) || ((0xe0 <=? c) && (c <=? 0xfc)).
Definition ISSJISTAIL (c : Z) : bool :=
  ((0x40 <=? c) && (c <=? 0x7e)) || ((0x80 <=? c) && (c <=? 0xfc)).
Definition IS_LC1 (c : Z) : bool := (0x81 <=? c) && (c <=? 0x8d).
Definition IS_LC2 (c : Z) : bool := (0x90 <=? c) && (c <=? 0x99).
Definition IS_LCPRV1 (c : Z) : bool := (c =? 0x9a) || (c =? 0x9b).
Definition IS_LCPRV2 (c : Z) : bool := (c =? 0x9c) || (c =? 0x9d).
Definition IS_EUC_RANGE_VALID (c : Z) : bool := (0xa1 <=? c) && (c <=? 0xfe).

(** ** Length of the character at a pointer *)

Definition pg_ascii_mblen (s : list Z) : res Z := Ok 1.
Definition pg_latin1_mblen (s : list Z) : res Z := Ok 1.

Definition pg_euc_mblen (s : list Z) : res Z :=
  c ← rd s 0;
  Ok (if c =? SS2 then 2 else if c =? SS3 then 3 else if IS_HIGHBIT_SET c then 2 else 1).
Definition pg_eucjp_mblen (s : list Z) : res Z := pg_euc_mblen s.
Definition pg_euckr_mblen (s : list Z) : res Z := pg_euc_mblen s.
Definition pg_johab_mblen (s : list Z) : res Z := pg_euc_mblen s.

Definition pg_euccn_mblen (s : list Z) : res Z :=
  c ← rd s 0; Ok (if IS_HIGHBIT_SET c then 2 else 1).

Definition pg_euctw_mblen (s : list Z) : res Z :=
  c ← rd s 0;
  Ok (if c =? SS2 then 4 else if c =? SS3 then 3 else if IS_HIGHBIT_SET c then 2 else 1).

Definition pg_utf_mblen (s : list Z) : res Z :=
  c ← rd s 0;
  Ok (if Z.land c 0x80 =? 0 then 1
      else if Z.land c 0xe0 =? 0xc0 then 2
      else if Z.land c 0xf0 =? 0xe0 then 3
      else if Z.land c 0xf8 =? 0xf0 then 4
      else 1).

Definition pg_mule_mblen (s : list Z) : res Z :=
  c ← rd s 0;
  Ok (if IS_LC1 c then 2 else if IS_LCPRV1 c then 3 else if IS_LC2 c then 3
      else if IS_LCPRV2 c then 4 else 1).

Definition pg_sjis_mblen (s : list Z) : res Z :=
  c ← rd s 0;
  Ok (if (0xa1 <=? c) && (c <=? 0xdf) then 1 else if IS_HIGHBIT_SET c then 2 else 1).

Definition pg_big5_mblen (s : list Z) : res Z := c ← rd s 0; Ok (if IS_HIGHBIT_SET c then 2 else 1).
Definition pg_gbk_mblen (s : list Z) : res Z := c ← rd s 0; Ok (if IS_HIGHBIT_SET c then 2 else 1).
Definition pg_uhc_mblen (s : list Z) : res Z := c ← rd s 0; Ok (if IS_HIGHBIT_SET c then 2 else 1).

Definition pg_gb18030_mblen (s : list Z) : res Z :=
  c ← rd s 0;
  if negb (IS_HIGHBIT_SET c) then Ok 1 else
  d ← rd s 1;
  Ok (if (0x30 <=? d) && (d <=? 0x39) then 4 else 2).

(** ** Validation of the character at a pointer *)

Definition pg_ascii_verifychar (s : list Z) (len : Z) : res Z := Ok 1.
Definition pg_latin1_verifychar (s : list Z) (len : Z) : res Z := Ok 1.

Definition pg_eucjp_verifychar (s : list Z) (len : Z) : res Z :=
  c1 ← rd s 0;
  if c1 =? SS2 then
    if 2 >? len then Ok (-1) else
    c2 ← rd s 1;
    if (c2 <? 0xa1) || (c2 >? 0xdf) then Ok (-1) else Ok 2
  else if c1 =? SS3 then
    if 3 >? len then Ok (-1) else
    c2 ← rd s 1;
    if negb (IS_EUC_RANGE_VALID c2) then Ok (-1) else
    c2 ← rd s 2;
    if negb (IS_EUC_RANGE_VALID c2) then Ok (-1) else Ok 3
  else if IS_HIGHBIT_SET c1 then
    if 2 >? len then Ok (-1) else
    if negb (IS_EUC_RANGE_VALID c1) then Ok (-1) else
    c2 ← rd s 1;
    if negb (IS_EUC_RANGE_VALID c2) then Ok (-1) else Ok 2
  else Ok 1.

Definition pg_euckr_verifychar (s : list Z) (len : Z) : res Z :=
  c1 ← rd s 0;
  if IS_HIGHBIT_SET c1 then
    if 2 >? len then Ok (-1) else
    if negb (IS_EUC_RANGE_VALID c1) then Ok (-1) else
    c2 ← rd s 1;
    if negb (IS_EUC_RANGE_VALID c2) then Ok (-1) else Ok 2
  else Ok 1.
Definition pg_euccn_verifychar := pg_euckr_verifychar.

Definition pg_euctw_verifychar (s : list Z) (len : Z) : res Z :=
  c1 ← rd s 0;
  if c1 =? SS2 then
    if 4 >? len then Ok (-1) else
    c2 ← rd s 1;
    if (c2 <? 0xa1) || (c2 >? 0xa7) then Ok (-1) else
    c2 ← rd s 2;
    if negb (IS_EUC_RANGE_VALID c2) then Ok (-1) else
    c2 ← rd s 3;
    if negb (IS_EUC_RANGE_VALID c2) then Ok (-1) else Ok 4
  else if c1 =? SS3 then Ok (-1)
  else if IS_HIGHBIT_SET c1 then
    if 2 >? len then Ok (-1) else
    c2 ← rd s 1;
    if negb (IS_EUC_RANGE_VALID c2) then Ok (-1) else Ok 2
  else Ok 1.

(** while (--l > 0): the bytes after the first satisfy the test; [n] counts them. *)
Fixpoint rest_valid (ok : Z -> bool) (s : list Z) (i : Z) (n : nat) : res bool :=
  match n with
  | O => Ok true
  | S n => c ← rd s i; if negb (ok c) then Ok false else rest_valid ok s (i + 1) n
  end.

(** The shape four functions share: a length test and the loop over the rest. *)
Definition verify_rest (ok : Z -> bool) (s : list Z) (mbl len : Z) : res Z :=
  if len <? mbl then Ok (-1) else
  v ← rest_valid ok s 1 (Z.to_nat (mbl - 1));
  Ok (if (v : bool) then mbl else -1).

Definition pg_johab_verifychar (s : list Z) (len : Z) : res Z :=
  mbl ← pg_johab_mblen s;
  if len <? mbl then Ok (-1) else
  c ← rd s 0;
  if negb (IS_HIGHBIT_SET c) then Ok mbl else
  v ← rest_valid IS_EUC_RANGE_VALID s 1 (Z.to_nat (mbl - 1));
  Ok (if (v : bool) then mbl else -1).

Definition pg_mule_verifychar (s : list Z) (len : Z) : res Z :=
  mbl ← pg_mule_mblen s; verify_rest IS_HIGHBIT_SET s mbl len.

Definition pg_sjis_verifychar (s : list Z) (len : Z) : res Z :=
  mbl ← pg_sjis_mblen s;
  if len <? mbl then Ok (-1) else
  if mbl =? 1 then Ok mbl else
  c1 ← rd s 0; c2 ← rd s 1;
  if negb (ISSJISHEAD c1) || negb (ISSJISTAIL c2) then Ok (-1) else Ok mbl.

Definition not_nul (c : Z) : bool := negb (c =? 0).
Definition pg_big5_verifychar (s : list Z) (len : Z) : res Z :=
  mbl ← pg_big5_mblen s; verify_rest not_nul s mbl len.
Definition pg_gbk_verifychar (s : list Z) (len : Z) : res Z :=
  mbl ← pg_gbk_mblen s; verify_rest not_nul s mbl len.
Definition pg_uhc_verifychar (s : list Z) (len : Z) : res Z :=
  mbl ← pg_uhc_mblen s; verify_rest not_nul s mbl len.

Definition in_range (a b c : Z) : bool := (a <=? c) && (c <=? b).

Definition pg_gb18030_verifychar (s : list Z) (len : Z) : res Z :=
  c ← rd s 0;
  if negb (IS_HIGHBIT_SET c) then Ok 1 else
  four ← (if len >=? 4 then d ← rd s 1; Ok (in_range 0x30 0x39 d) else Ok false);
  if (four : bool) then
    e ← rd s 2; f ← rd s 3;
    Ok (if in_range 0x81 0xfe c && in_range 0x81 0xfe e && in_range 0x30 0x39 f then 4 else -1)
  else if (len >=? 2) && in_range 0x81 0xfe c then
    d ← rd s 1;
    Ok (if in_range 0x40 0x7e d || in_range 0x80 0xfe d then 2 else -1)
  else Ok (-1).

(** The switch falls through from the last byte to the first. *)
Definition pg_utf8_islegal (source : list Z) (length : Z) : res bool :=
  if (length <? 1) || (length >? 4) then Ok false else
  ok4 ← (if length >=? 4 then a ← rd source 3; Ok (negb ((a <? 0x80) || (a >? 0xBF))) else Ok true);
  if negb ok4 then Ok false else
  ok3 ← (if length >=? 3 then a ← rd source 2; Ok (negb ((a <? 0x80) || (a >? 0xBF))) else Ok true);
  if negb ok3 then Ok false else
  ok2 ← (if length >=? 2 then
           a ← rd source 1; c ← rd source 0;
           Ok (if c =? 0xE0 then negb ((a <? 0xA0) || (a >? 0xBF))
               else if c =? 0xED then negb ((a <? 0x80) || (a >? 0x9F))
               else if c =? 0xF0 then negb ((a <? 0x90) || (a >? 0xBF))
               else if c =? 0xF4 then negb ((a <? 0x80) || (a >? 0x8F))
               else negb ((a <? 0x80) || (a >? 0xBF)))
         else Ok true);
  if negb ok2 then Ok false else
  a ← rd source 0;
  if (a >=? 0x80) && (a <? 0xC2) then Ok false else
  if a >? 0xF4 then Ok false else Ok true.

Definition pg_utf8_verifychar (s : list Z) (len : Z) : res Z :=
  c ← rd s 0;
  if Z.land c 0x80 =? 0 then Ok (if c =? 0 then -1 else 1) else
  let l := if Z.land c 0xe0 =? 0xc0 then 2
           else if Z.land c 0xf0 =? 0xe0 then 3
           else if Z.land c 0xf8 =? 0xf0 then 4
           else 1 in
  if l >? len then Ok (-1) else
  legal ← pg_utf8_islegal s l;
  Ok (if (legal : bool) then l else -1).

(** ** Validation of a string *)

(** memchr(s, 0, len), then the offset of the NUL or len *)
Definition nul_body (s : list Z) (len i : Z) : res (Z + Z) :=
  if i <? len then c ← rd s i; if c =? 0 then Ok (inr i) else Ok (inl (i + 1)) else Ok (inr len).
Definition pg_ascii_verifystr (s : list Z) (len : Z) : res Z :=
  iter (S (Z.to_nat len)) (nul_body s len) 0.
Definition pg_latin1_verifystr := pg_ascii_verifystr.

(** The loop of the multibyte encodings; the state is s - start and len. *)
Definition verify_body (verifychar : list Z -> Z -> res Z) (s : list Z) (x : Z * Z) : res (Z * Z + Z) :=
  let '(i, len) := x in
  if len >? 0 then
    c ← rd s i;
    if negb (IS_HIGHBIT_SET c) then
      if c =? 0 then Ok (inr i) else Ok (inl (i + 1, len - 1))
    else
      l ← verifychar (drop (Z.to_nat i) s) len;
      if l =? -1 then Ok (inr i) else Ok (inl (i + l, len - l))
  else Ok (inr i).
Definition verify_loop (verifychar : list Z -> Z -> res Z) (s : list Z) (i len : Z) : res Z :=
  iter (S (Z.to_nat len)) (verify_body verifychar s) (i, len).

Definition pg_eucjp_verifystr (s : list Z) (len : Z) : res Z := verify_loop pg_eucjp_verifychar s 0 len.
Definition pg_euckr_verifystr (s : list Z) (len : Z) : res Z := verify_loop pg_euckr_verifychar s 0 len.
Definition pg_euccn_verifystr := pg_euckr_verifystr.
Definition pg_euctw_verifystr (s : list Z) (len : Z) : res Z := verify_loop pg_euctw_verifychar s 0 len.
Definition pg_johab_verifystr (s : list Z) (len : Z) : res Z := verify_loop pg_johab_verifychar s 0 len.
Definition pg_mule_verifystr (s : list Z) (len : Z) : res Z := verify_loop pg_mule_verifychar s 0 len.
Definition pg_sjis_verifystr (s : list Z) (len : Z) : res Z := verify_loop pg_sjis_verifychar s 0 len.
Definition pg_big5_verifystr (s : list Z) (len : Z) : res Z := verify_loop pg_big5_verifychar s 0 len.
Definition pg_gbk_verifystr (s : list Z) (len : Z) : res Z := verify_loop pg_gbk_verifychar s 0 len.
Definition pg_uhc_verifystr (s : list Z) (len : Z) : res Z := verify_loop pg_uhc_verifychar s 0 len.
Definition pg_gb18030_verifystr (s : list Z) (len : Z) : res Z := verify_loop pg_gb18030_verifychar s 0 len.

(** *** The UTF-8 fast path: a shift-based automaton *)

Definition ERR : Z := 0.
Definition BGN : Z := 11.
Definition CS1 : Z := 16.
Definition CS2 : Z := 1.
Definition CS3 : Z := 5.
Definition P3A : Z := 6.
Definition P3B : Z := 20.
Definition P4A : Z := 25.
Definition P4B : Z := 30.
Definition END : Z := BGN.

Definition ASC : Z := Z.shiftl END BGN.
Definition L2A : Z := Z.shiftl CS1 BGN.
Definition L3A : Z := Z.shiftl P3A BGN.
Definition L3B : Z := Z.shiftl CS2 BGN.
Definition L3C : Z := Z.shiftl P3B BGN.
Definition L4A : Z := Z.shiftl P4A BGN.
Definition L4B : Z := Z.shiftl CS3 BGN.
Definition L4C : Z := Z.shiftl P4B BGN.
Definition or_all (l : list Z) : Z := foldr Z.lor 0 l.
Definition CR1 : Z :=
  or_all [Z.shiftl END CS1; Z.shiftl CS1 CS2; Z.shiftl CS2 CS3; Z.shiftl CS1 P3B; Z.shiftl CS2 P4B].
Definition CR2 : Z :=
  or_all [Z.shiftl END CS1; Z.shiftl CS1 CS2; Z.shiftl CS2 CS3; Z.shiftl CS1 P3B; Z.shiftl CS2 P4A].
Definition CR3 : Z :=
  or_all [Z.shiftl END CS1; Z.shiftl CS1 CS2; Z.shiftl CS2 CS3; Z.shiftl CS1 P3A; Z.shiftl CS2 P4A].
Definition ILL : Z := ERR.

Definition Utf8Transition : list Z :=
  [ILL] ++ replicate 127 ASC ++
  replicate 16 CR1 ++ replicate 16 CR2 ++ replicate 32 CR3 ++
  [ILL; ILL] ++ replicate 30 L2A ++
  [L3A] ++ replicate 12 L3B ++ [L3C; L3B; L3B] ++
  [L4A; L4B; L4B; L4B; L4C] ++ replicate 11 ILL.

(** [state] is masked where it is used and once more at the end. *)
Fixpoint utf8_advance_loop (s : list Z) (i : Z) (n : nat) (state : Z) : res Z :=
  match n with
  | O => Ok state
  | S n =>
      c ← rd s i;
      t ← rd Utf8Transition c;
      utf8_advance_loop s (i + 1) n (Z.shiftr t (Z.land state 31))
  end.
Definition utf8_advance (s : list Z) (state len : Z) : res Z :=
  state ← utf8_advance_loop s 0 (Z.to_nat len) state;
  Ok (Z.land state 31).

(** port/simd.h: a vector of 16 bytes (SSE2, Neon), one lane each *)
Definition sizeof_Vector8 : Z := 16.
Definition vector8_broadcast (c : Z) : list Z := zrep sizeof_Vector8 c.
Definition vector8_load (s : list Z) (i : Z) : res (list Z) := rdn s i sizeof_Vector8.
Definition vector8_or (v1 v2 : list Z) : list Z := zip_with Z.lor v1 v2.
Definition vector8_eq (v1 v2 : list Z) : list Z := zip_with (fun a b => if a =? b then 0xff else 0) v1 v2.
Definition vector8_is_highbit_set (v : list Z) : bool := existsb IS_HIGHBIT_SET v.

Definition ascii_body (s : list Z) (len : Z) (x : Z * list Z) : res (Z * list Z + list Z) :=
  let '(i, highbit_cum) := x in
  if i <? len then
    chunk ← vector8_load s i;
    let highbit_cum := vector8_or highbit_cum (vector8_eq chunk (vector8_broadcast 0)) in
    let highbit_cum := vector8_or highbit_cum chunk in
    Ok (inl (i + sizeof_Vector8, highbit_cum))
  else Ok (inr highbit_cum).
Definition is_valid_ascii (s : list Z) (len : Z) : res bool :=
  highbit_cum ← iter (S (Z.to_nat len)) (ascii_body s len) (0, vector8_broadcast 0);
  Ok (negb (vector8_is_highbit_set highbit_cum)).

Definition STRIDE_LENGTH : Z := 2 * sizeof_Vector8.

(** while (len >= STRIDE_LENGTH); the state is s - start, len and state *)
Definition stride_body (s : list Z) (x : Z * Z * Z) : res (Z * Z * Z + Z * Z * Z) :=
  let '(i, len, state) := x in
  if len >=? STRIDE_LENGTH then
    skip ← (if negb (state =? END) then Ok false else is_valid_ascii (drop (Z.to_nat i) s) STRIDE_LENGTH);
    state ← (if (skip : bool) then Ok state else utf8_advance (drop (Z.to_nat i) s) state STRIDE_LENGTH);
    Ok (inl (i + STRIDE_LENGTH, len - STRIDE_LENGTH, state))
  else Ok (inr (i, len, state)).

(** do s--, len++ while (pg_utf_mblen(s) <= 1) *)
Definition backtrack_body (s : list Z) (x : Z * Z) : res (Z * Z + Z * Z) :=
  let '(i, len) := x in
  if i - 1 <? 0 then Ub else
  l ← pg_utf_mblen (drop (Z.to_nat (i - 1)) s);
  if l <=? 1 then Ok (inl (i - 1, len + 1)) else Ok (inr (i - 1, len + 1)).

Definition utf8_fast_path (s : list Z) (orig_len : Z) : res (Z * Z) :=
  if orig_len >=? STRIDE_LENGTH then
    x ← iter (S (Z.to_nat orig_len)) (stride_body s) (0, orig_len, BGN);
    let '(i, len, state) := x in
    if state =? ERR then Ok (0, orig_len)
    else if negb (state =? END) then iter (S (Z.to_nat orig_len)) (backtrack_body s) (i, len)
    else Ok (i, len)
  else Ok (0, orig_len).

Definition pg_utf8_verifystr (s : list Z) (len : Z) : res Z :=
  x ← utf8_fast_path s len;
  let '(i, len) := x in
  verify_loop pg_utf8_verifychar s i len.

(** ** The encodings *)

Inductive pg_enc : Set :=
| PG_SQL_ASCII
| PG_EUC_JP
| PG_EUC_CN
| PG_EUC_KR
| PG_EUC_TW
| PG_EUC_JIS_2004
| PG_UTF8
| PG_MULE_INTERNAL
| PG_LATIN1
| PG_LATIN2
| PG_LATIN3
| PG_LATIN4
| PG_LATIN5
| PG_LATIN6
| PG_LATIN7
| PG_LATIN8
| PG_LATIN9
| PG_LATIN10
| PG_WIN1256
| PG_WIN1258
| PG_WIN866
| PG_WIN874
| PG_KOI8R
| PG_WIN1251
| PG_WIN1252
| PG_ISO_8859_5
| PG_ISO_8859_6
| PG_ISO_8859_7
| PG_ISO_8859_8
| PG_WIN1250
| PG_WIN1253
| PG_WIN1254
| PG_WIN1255
| PG_WIN1257
| PG_KOI8U
| PG_SJIS
| PG_BIG5
| PG_GBK
| PG_UHC
| PG_GB18030
| PG_JOHAB
| PG_SHIFT_JIS_2004.

#[global] Instance pg_enc_eq_dec : EqDecision pg_enc.
Proof. solve_decision. Defined.

(** PG_VALID_BE_ENCODING: up to PG_KOI8U *)
Definition PG_VALID_BE_ENCODING (e : pg_enc) : bool :=
  match e with
  | PG_SJIS | PG_BIG5 | PG_GBK | PG_UHC | PG_GB18030 | PG_JOHAB | PG_SHIFT_JIS_2004 => false
  | _ => true
  end.

Record pg_wchar_tbl := {
  mblen : list Z -> res Z;
  mbverifychar : list Z -> Z -> res Z;
  mbverifystr : list Z -> Z -> res Z;
  maxmblen : Z
}.

Definition pg_wchar_table (encoding : pg_enc) : pg_wchar_tbl :=
  match encoding with
  | PG_SQL_ASCII =>
      Build_pg_wchar_tbl pg_ascii_mblen pg_ascii_verifychar pg_ascii_verifystr 1
  | PG_EUC_JP | PG_EUC_JIS_2004 =>
      Build_pg_wchar_tbl pg_eucjp_mblen pg_eucjp_verifychar pg_eucjp_verifystr 3
  | PG_EUC_CN =>
      Build_pg_wchar_tbl pg_euccn_mblen pg_euccn_verifychar pg_euccn_verifystr 2
  | PG_EUC_KR =>
      Build_pg_wchar_tbl pg_euckr_mblen pg_euckr_verifychar pg_euckr_verifystr 3
  | PG_EUC_TW =>
      Build_pg_wchar_tbl pg_euctw_mblen pg_euctw_verifychar pg_euctw_verifystr 4
  | PG_UTF8 =>
      Build_pg_wchar_tbl pg_utf_mblen pg_utf8_verifychar pg_utf8_verifystr 4
  | PG_MULE_INTERNAL =>
      Build_pg_wchar_tbl pg_mule_mblen pg_mule_verifychar pg_mule_verifystr 4
  | PG_SJIS | PG_SHIFT_JIS_2004 =>
      Build_pg_wchar_tbl pg_sjis_mblen pg_sjis_verifychar pg_sjis_verifystr 2
  | PG_BIG5 =>
      Build_pg_wchar_tbl pg_big5_mblen pg_big5_verifychar pg_big5_verifystr 2
  | PG_GBK =>
      Build_pg_wchar_tbl pg_gbk_mblen pg_gbk_verifychar pg_gbk_verifystr 2
  | PG_UHC =>
      Build_pg_wchar_tbl pg_uhc_mblen pg_uhc_verifychar pg_uhc_verifystr 2
  | PG_GB18030 =>
      Build_pg_wchar_tbl pg_gb18030_mblen pg_gb18030_verifychar pg_gb18030_verifystr 4
  | PG_JOHAB =>
      Build_pg_wchar_tbl pg_johab_mblen pg_johab_verifychar pg_johab_verifystr 3
  | _ => Build_pg_wchar_tbl pg_latin1_mblen pg_latin1_verifychar pg_latin1_verifystr 1
  end.

Definition pg_encoding_mblen (encoding : pg_enc) (mbstr : list Z) : res Z :=
  mblen (pg_wchar_table encoding) mbstr.
Definition pg_encoding_verifymbchar (encoding : pg_enc) (mbstr : list Z) (len : Z) : res Z :=
  mbverifychar (pg_wchar_table encoding) mbstr len.
Definition pg_encoding_verifymbstr (encoding : pg_enc) (mbstr : list Z) (len : Z) : res Z :=
  mbverifystr (pg_wchar_table encoding) mbstr len.
Definition pg_encoding_max_length (encoding : pg_enc) : Z := maxmblen (pg_wchar_table encoding).

(** ** Lengths in the database encoding: mbutils.c *)

Section mbutils.
Context (DatabaseEncoding : pg_enc).

Definition pg_database_encoding_max_length : Z := pg_encoding_max_length DatabaseEncoding.
Definition pg_mblen (mbstr : list Z) : res Z := pg_encoding_mblen DatabaseEncoding mbstr.

(** while (limit > 0 && *mbstr); the state is the pointer, limit and len *)
Definition mbstrlen_body (mbstr : list Z) (x : Z * Z * Z) : res (Z * Z * Z + Z) :=
  let '(p, limit, len) := x in
  if limit >? 0 then
    c ← rd mbstr p;
    if c =? 0 then Ok (inr len) else
    l ← pg_mblen (drop (Z.to_nat p) mbstr);
    Ok (inl (p + l, limit - l, len + 1))
  else Ok (inr len).
Definition pg_mbstrlen_with_len (mbstr : list Z) (limit : Z) : res Z :=
  if pg_database_encoding_max_length =? 1 then Ok limit else
  iter (S (Z.to_nat limit)) (mbstrlen_body mbstr) (0, limit, 0).

Definition cliplen_body (str : list Z) (len l : Z) : res (Z + Z) :=
  if l <? len then c ← rd str l; if c =? 0 then Ok (inr l) else Ok (inl (l + 1)) else Ok (inr l).
Definition cliplen (str : list Z) (len limit : Z) : res Z :=
  let len := Z.min len limit in
  iter (S (Z.to_nat len)) (cliplen_body str len) 0.

(** while (len > 0 && *mbstr); the state is the pointer, len and clen *)
Definition mbcliplen_body (limit : Z) (mbstr : list Z) (x : Z * Z * Z) : res (Z * Z * Z + Z) :=
  let '(p, len, clen) := x in
  if len >? 0 then
    c ← rd mbstr p;
    if c =? 0 then Ok (inr clen) else
    l ← pg_mblen (drop (Z.to_nat p) mbstr);
    if clen + l >? limit then Ok (inr clen) else
    let clen := clen + l in
    if clen =? limit then Ok (inr clen) else Ok (inl (p + l, len - l, clen))
  else Ok (inr clen).
Definition pg_mbcliplen (mbstr : list Z) (len limit : Z) : res Z :=
  if pg_database_encoding_max_length =? 1 then cliplen mbstr len limit else
  iter (S (Z.to_nat len)) (mbcliplen_body limit mbstr) (0, len, 0).

(** The same with the limit in characters; the state has nch too. *)
Definition mbcharcliplen_body (limit : Z) (mbstr : list Z) (x : Z * Z * Z * Z) : res (Z * Z * Z * Z + Z) :=
  let '(p, len, clen, nch) := x in
  if len >? 0 then
    c ← rd mbstr p;
    if c =? 0 then Ok (inr clen) else
    l ← pg_mblen (drop (Z.to_nat p) mbstr);
    let nch := nch + 1 in
    if nch >? limit then Ok (inr clen) else Ok (inl (p + l, len - l, clen + l, nch))
  else Ok (inr clen).
Definition pg_mbcharcliplen (mbstr : list Z) (len limit : Z) : res Z :=
  if pg_database_encoding_max_length =? 1 then cliplen mbstr len limit else
  iter (S (Z.to_nat len)) (mbcharcliplen_body limit mbstr) (0, len, 0, 0).
End mbutils.
