(* ===== verification/Mbchar.v ===== *)
(** Characters of an encoding.  [mbchar e c] says that the bytes [c] are one valid
    character of [e]; a valid string is a sequence of such characters.  The theorems say
    that the validation functions find exactly these sequences, that the length functions
    agree with them, and that lengths and clips count characters. *)

From S2P Require Import Prelude Varatt Wchar.

Definition mbchar (e : pg_enc) (c : list Z) : Prop :=
  bytes c /\ head c <> Some 0 /\ c <> [] /\ pg_encoding_verifymbchar e c (zlen c) = Ok (zlen c).

(** What a row of the table promises: the validation of a character looks at the
    character only, and the length function agrees with it. *)
Record row_ok (t : pg_wchar_tbl) : Prop := {
  row_verify a s : bytes (a :: s) -> a <> 0 ->
    exists l, mbverifychar t (a :: s) (zlen (a :: s)) = Ok l /\
      (l = -1 \/ 1 <= l <= zlen (a :: s) /\ l <= maxmblen t /\
        forall k n, l <= n -> mbverifychar t (take (Z.to_nat l) (a :: s) ++ k) n = Ok l /\
          mblen t (take (Z.to_nat l) (a :: s) ++ k) = Ok l)
}.

Section rd_cons.
Context (a b c d : Z) (l : list Z).
Lemma rd_0 : rd (a :: l) 0 = Ok a. Proof. done. Qed.
Lemma rd_1 : rd (a :: b :: l) 1 = Ok b. Proof. done. Qed.
Lemma rd_2 : rd (a :: b :: c :: l) 2 = Ok c. Proof. done. Qed.
Lemma rd_3 : rd (a :: b :: c :: d :: l) 3 = Ok d. Proof. done. Qed.
End rd_cons.
Section rest.
Context (ok : Z -> bool) (s : list Z).
Lemma rest_valid_1 : rest_valid ok s 1 (Z.to_nat (1 - 1)) = Ok true.
Proof. done. Qed.
Lemma rest_valid_2 :
  rest_valid ok s 1 (Z.to_nat (2 - 1)) = c ← rd s 1; if negb (ok c) then Ok false else Ok true.
Proof. done. Qed.
Lemma rest_valid_3 :
  rest_valid ok s 1 (Z.to_nat (3 - 1)) =
  c ← rd s 1; if negb (ok c) then Ok false else c ← rd s 2; if negb (ok c) then Ok false else Ok true.
Proof. done. Qed.
Lemma rest_valid_4 :
  rest_valid ok s 1 (Z.to_nat (4 - 1)) =
  c ← rd s 1; if negb (ok c) then Ok false else c ← rd s 2; if negb (ok c) then Ok false else
  c ← rd s 3; if negb (ok c) then Ok false else Ok true.
Proof. done. Qed.
End rest.
Create Rewrite HintDb rdcons.
#[export] Hint Rewrite rest_valid_1 rest_valid_2 rest_valid_3 rest_valid_4 : rdcons.
#[export] Hint Rewrite rd_0 rd_1 rd_2 rd_3 : rdcons.

Lemma highbit a : is_byte a -> IS_HIGHBIT_SET a = (128 <=? a).
Proof.
  intros Ha. apply eqb_prop.
  by apply (zrange_forall 256 (fun a => eqb (IS_HIGHBIT_SET a) (128 <=? a))).
Qed.

(** Case analysis of a validation function: all tests on the first four bytes and the
    length, then the same tests on the character alone. *)
Ltac known :=
  repeat match goal with
  | H : ?x = true |- context [?x] => rewrite H
  | H : ?x = false |- context [?x] => rewrite H
  end.
Ltac split_tests E :=
  repeat (autorewrite with rdcons in E; cbn [mbind res_bind negb orb andb] in E;
          match type of E with
          | context [if ?x then _ else _] =>
              lazymatch x with
              | context [if _ then _ else _] => fail
              | _ => let H := fresh "T" in destruct x eqn:H
              end
          end).
Ltac len_tests n :=
  repeat match goal with
  | |- context [?x >? n] => replace (x >? n) with false by (symmetry; rewrite Z.gtb_ltb; apply Z.ltb_ge; lia)
  | |- context [n <? ?x] => replace (n <? x) with false by (symmetry; apply Z.ltb_ge; lia)
  end.
Ltac row_leaf n := repeat (autorewrite with rdcons; bind; known; len_tests n; cbn [negb orb andb]); try reflexivity;
  unfold IS_EUC_RANGE_VALID, SS2, SS3, in_range in *; repeat (bind; case_match); first [reflexivity | exfalso; lia].
Create HintDb mblen.
#[export] Hint Unfold pg_ascii_mblen pg_latin1_mblen pg_euc_mblen pg_eucjp_mblen pg_euckr_mblen pg_johab_mblen
  pg_euccn_mblen pg_euctw_mblen pg_utf_mblen pg_mule_mblen pg_sjis_mblen pg_big5_mblen pg_gbk_mblen
  pg_uhc_mblen pg_gb18030_mblen verify_rest : mblen.
Ltac row v :=
  constructor; intros a s Hb Ha; cbn [mbverifychar mblen maxmblen];
  pose proof (highbit a (Forall_inv Hb)) as Hh;
  remember (v (a :: s) (zlen (a :: s))) as r eqn:E; unfold v in E; autounfold with mblen in E; cbv zeta in E;
  destruct s as [|b [|c [|d s]]]; autorewrite with zlen in E; split_tests E; subst;
  try (exfalso; zl; fail);
  (eexists; split; [reflexivity|]);
  first [by left
        |right; split; [zl|split; [lia|]]; intros k n Hn;
         change (Z.to_nat 1) with 1%nat; change (Z.to_nat 2) with 2%nat; change (Z.to_nat 3) with 3%nat;
         change (Z.to_nat 4) with 4%nat; cbn [take app];
         split; [unfold v|]; autounfold with mblen; cbv zeta; row_leaf n].

Lemma ascii_row : row_ok (Build_pg_wchar_tbl pg_ascii_mblen pg_ascii_verifychar pg_ascii_verifystr 1).
Proof. row pg_ascii_verifychar. Qed.
Lemma latin1_row : row_ok (Build_pg_wchar_tbl pg_latin1_mblen pg_latin1_verifychar pg_latin1_verifystr 1).
Proof. row pg_latin1_verifychar. Qed.
Lemma eucjp_row : row_ok (Build_pg_wchar_tbl pg_eucjp_mblen pg_eucjp_verifychar pg_eucjp_verifystr 3).
Proof. row pg_eucjp_verifychar. Qed.
Lemma euccn_row : row_ok (Build_pg_wchar_tbl pg_euccn_mblen pg_euccn_verifychar pg_euccn_verifystr 2).
Proof. unfold pg_euccn_verifychar. row pg_euckr_verifychar. Qed.
Lemma euckr_row : row_ok (Build_pg_wchar_tbl pg_euckr_mblen pg_euckr_verifychar pg_euckr_verifystr 3).
Proof. row pg_euckr_verifychar. Qed.
Lemma euctw_row : row_ok (Build_pg_wchar_tbl pg_euctw_mblen pg_euctw_verifychar pg_euctw_verifystr 4).
Proof. row pg_euctw_verifychar. Qed.
Lemma mule_row : row_ok (Build_pg_wchar_tbl pg_mule_mblen pg_mule_verifychar pg_mule_verifystr 4).
Proof. row pg_mule_verifychar. Qed.
Lemma sjis_row : row_ok (Build_pg_wchar_tbl pg_sjis_mblen pg_sjis_verifychar pg_sjis_verifystr 2).
Proof. row pg_sjis_verifychar. Qed.
Lemma big5_row : row_ok (Build_pg_wchar_tbl pg_big5_mblen pg_big5_verifychar pg_big5_verifystr 2).
Proof. row pg_big5_verifychar. Qed.
Lemma gbk_row : row_ok (Build_pg_wchar_tbl pg_gbk_mblen pg_gbk_verifychar pg_gbk_verifystr 2).
Proof. row pg_gbk_verifychar. Qed.
Lemma uhc_row : row_ok (Build_pg_wchar_tbl pg_uhc_mblen pg_uhc_verifychar pg_uhc_verifystr 2).
Proof. row pg_uhc_verifychar. Qed.
Lemma gb18030_row : row_ok (Build_pg_wchar_tbl pg_gb18030_mblen pg_gb18030_verifychar pg_gb18030_verifystr 4).
Proof. row pg_gb18030_verifychar. Qed.
Lemma johab_row : row_ok (Build_pg_wchar_tbl pg_johab_mblen pg_johab_verifychar pg_johab_verifystr 3).
Proof. row pg_johab_verifychar. Qed.

(** The bytes of a UTF-8 character. *)
Definition utf8_tail (c : Z) : bool := in_range 0x80 0xBF c.
Definition utf8_lead (a : Z) : bool := negb (in_range 0x80 0xC1 a) && (a <=? 0xF4).
Definition utf8_second (a b : Z) : bool :=
  if a =? 0xE0 then in_range 0xA0 0xBF b
  else if a =? 0xED then in_range 0x80 0x9F b
  else if a =? 0xF0 then in_range 0x90 0xBF b
  else if a =? 0xF4 then in_range 0x80 0x8F b
  else in_range 0x80 0xBF b.

Lemma range_test x y z : negb ((z <? x) || (z >? y)) = in_range x y z.
Proof. unfold in_range. lia. Qed.

Lemma lead_test a : (if (a >=? 0x80) && (a <? 0xC2) then Ok false else if a >? 0xF4 then Ok false else Ok true)
  = Ok (utf8_lead a).
Proof. unfold utf8_lead, in_range. repeat case_match; f_equal; lia. Qed.

Ltac legal :=
  cbv [pg_utf8_islegal]; autorewrite with rdcons;
  cbn [mbind res_bind Z.ltb Z.gtb Z.geb Z.compare Pos.compare Pos.compare_cont negb orb];
  rewrite !range_test;
  match goal with |- context [utf8_second ?a ?b && utf8_lead ?a] => fold (utf8_second a b); rewrite lead_test;
    generalize (utf8_second a b) (utf8_lead a) end;
  unfold utf8_tail; repeat match goal with |- context [in_range 128 191 ?x] => generalize (in_range 128 191 x) end;
  intros; repeat match goal with x : bool |- _ => destruct x end; done.

Lemma islegal_1 a s : pg_utf8_islegal (a :: s) 1 = Ok (utf8_lead a).
Proof. exact (lead_test a). Qed.
Lemma islegal_2 a b s : pg_utf8_islegal (a :: b :: s) 2 = Ok (utf8_second a b && utf8_lead a).
Proof. legal. Qed.
Lemma islegal_3 a b c s :
  pg_utf8_islegal (a :: b :: c :: s) 3 = Ok (utf8_tail c && (utf8_second a b && utf8_lead a)).
Proof. legal. Qed.
Lemma islegal_4 a b c d s :
  pg_utf8_islegal (a :: b :: c :: d :: s) 4 = Ok (utf8_tail d && (utf8_tail c && (utf8_second a b && utf8_lead a))).
Proof. legal. Qed.
#[export] Hint Rewrite islegal_1 islegal_2 islegal_3 islegal_4 : rdcons.

Lemma utf8_row : row_ok (Build_pg_wchar_tbl pg_utf_mblen pg_utf8_verifychar pg_utf8_verifystr 4).
Proof. row pg_utf8_verifychar. Qed.

Lemma table_ok e : row_ok (pg_wchar_table e).
Proof.
  destruct e; [apply ascii_row|apply eucjp_row|apply euccn_row|apply euckr_row|apply euctw_row|apply eucjp_row
              |apply utf8_row|apply mule_row|..];
  first [apply latin1_row|apply sjis_row|apply big5_row|apply gbk_row|apply uhc_row|apply gb18030_row|apply johab_row].
Qed.

(** ** Characters *)

Section chars.
Context (e : pg_enc).

Lemma mbchar_facts c k n :
  mbchar e c ->
  1 <= zlen c <= pg_encoding_max_length e /\ pg_encoding_mblen e (c ++ k) = Ok (zlen c) /\
  (zlen c <= n -> pg_encoding_verifymbchar e (c ++ k) n = Ok (zlen c)).
Proof.
  intros (Hb & H0 & Hne & Hv). destruct c as [|a s]; [done|].
  destruct (row_verify _ (table_ok e) a s Hb) as (l & Hl & Hcase); [simpl in H0; congruence|].
  unfold pg_encoding_verifymbchar in Hv. rewrite Hv in Hl. injection Hl as <-.
  destruct Hcase as [H1|(Hr & Hm & Hk)]; [zl|].
  rewrite take_ge in Hk by (unfold zlen; lia). split; [unfold pg_encoding_max_length; lia|]. split; [by apply (Hk k (zlen (a :: s)))|].
  intros Hn. by apply Hk.
Qed.

Lemma mbchar_size c : mbchar e c -> 1 <= zlen c <= pg_encoding_max_length e.
Proof. intros Hc. by apply (mbchar_facts c [] 0 Hc). Qed.
Lemma mbchar_mblen c k : mbchar e c -> pg_encoding_mblen e (c ++ k) = Ok (zlen c).
Proof. intros Hc. by apply (mbchar_facts c k 0 Hc). Qed.
Lemma mbchar_verify c k n :
  mbchar e c -> zlen c <= n -> pg_encoding_verifymbchar e (c ++ k) n = Ok (zlen c).
Proof. intros Hc. by apply (mbchar_facts c k n Hc). Qed.

(** The encoding is prefix-free. *)
Lemma mbchar_inj c1 k1 c2 k2 : mbchar e c1 -> mbchar e c2 -> c1 ++ k1 = c2 ++ k2 -> c1 = c2 /\ k1 = k2.
Proof.
  intros H1 H2 Heq. pose proof (mbchar_mblen c1 k1 H1) as E1. pose proof (mbchar_mblen c2 k2 H2) as E2.
  rewrite Heq, E2 in E1. injection E1 as E1. apply app_inj_1; [unfold zlen in E1; lia|done].
Qed.

(** No character starts here. *)
Definition nochar (s : list Z) : Prop := forall c k, mbchar e c -> s <> c ++ k.

Lemma nochar_nil : nochar [].
Proof. intros c k (_ & _ & Hne & _) Heq. by destruct c. Qed.
Lemma nochar_0 s : nochar (0 :: s).
Proof. intros c k (_ & H0 & Hne & _) Heq. destruct c; [done|]. simpl in *. congruence. Qed.

Lemma verify_cases a s :
  bytes (a :: s) -> a <> 0 ->
  (pg_encoding_verifymbchar e (a :: s) (zlen (a :: s)) = Ok (-1) /\ nochar (a :: s)) \/
  (exists c k, a :: s = c ++ k /\ mbchar e c /\
     pg_encoding_verifymbchar e (a :: s) (zlen (a :: s)) = Ok (zlen c)).
Proof.
  intros Hb Ha. destruct (row_verify _ (table_ok e) a s Hb Ha) as (l & Hl & [->|(Hr & Hm & Hk)]).
  - left. split; [done|]. intros c k Hc Heq.
    pose proof (mbchar_size c Hc). pose proof (mbchar_verify c k (zlen (a :: s)) Hc) as Hv.
    unfold pg_encoding_verifymbchar in Hv. rewrite <- Heq, Hl in Hv.
    enough (Ok (-1) = Ok (zlen c)) as [=] by lia. apply Hv. rewrite Heq. zl.
  - right. exists (take (Z.to_nat l) (a :: s)), (drop (Z.to_nat l) (a :: s)).
    assert (Hz : zlen (take (Z.to_nat l) (a :: s)) = l) by (rewrite zlen_take; lia).
    split; [by rewrite take_drop|]. rewrite Hz. split; [|done].
    assert (Hh : head (take (Z.to_nat l) (a :: s)) = Some a) by (destruct (Z.to_nat l) eqn:En; [lia|done]).
    split; [by apply Forall_take|]. split; [congruence|]. split; [by intros Hn; rewrite Hn in Hh|].
    rewrite Hz. rewrite <- (app_nil_r (take _ _)). by apply (Hk [] l).
Qed.

Lemma ascii_mbchar c : 0 < c < 128 -> mbchar e [c].
Proof.
  intros Hc. split; [constructor; [unfold is_byte; lia|done]|]. split; [simpl; intros [=]; lia|]. split; [done|].
  set (t := fun c => match pg_encoding_verifymbchar e [c] 1 with Ok l => l =? 1 | _ => false end).
  assert (Ht : (c =? 0) || t c = true).
  { apply (zrange_forall 128 (fun c => (c =? 0) || t c)); [|lia]. destruct e; vm_compute; reflexivity. }
  destruct (Z.eqb_spec c 0); [lia|]. cbn [orb] in Ht. unfold t in Ht. change (zlen [c]) with 1.
  destruct (pg_encoding_verifymbchar e [c] 1); try done. f_equal. lia.
Qed.

(** ** Strings *)

Definition text_of (cs : list (list Z)) (s : list Z) : Prop := s = concat cs /\ Forall (mbchar e) cs.

Lemma text_bytes cs s : text_of cs s -> bytes s.
Proof.
  intros [-> H]. induction H as [|c cs Hc _ IH]; [constructor|]. simpl. apply Forall_app_2; [apply Hc|done].
Qed.
End chars.

Section verify.
Context (e : pg_enc).

(** The first [n] bytes of [s] are characters, and none follows. *)
Definition valid_upto (s : list Z) (n : Z) : Prop :=
  exists cs rest, s = concat cs ++ rest /\ Forall (mbchar e) cs /\ n = zlen (concat cs) /\ nochar e rest.

Lemma valid_upto_cons c s n : mbchar e c -> valid_upto s n -> valid_upto (c ++ s) (zlen c + n).
Proof.
  intros Hc (cs & rest & -> & Hcs & -> & Hr). exists (c :: cs), rest. simpl. rewrite <- app_assoc, zlen_app.
  repeat split; auto.
Qed.

(** One round of the loop at the start of [s]. *)
Lemma verify_step pre s len :
  bytes s -> len = zlen s ->
  returns (verify_body (mbverifychar (pg_wchar_table e)) (pre ++ s) (zlen pre, len))
    (fun x => match x with
     | inl (i, len') => exists c k, s = c ++ k /\ mbchar e c /\ i = zlen pre + zlen c /\ len' = zlen k
     | inr i => i = zlen pre /\ nochar e s
     end).
Proof.
  intros Hb ->. unfold verify_body. destruct s as [|a s]; [by split; [|apply nochar_nil]|].
  replace (zlen (a :: s) >? 0) with true by (symmetry; rewrite Z.gtb_ltb; apply Z.ltb_lt; zl).
  rewrite rd_middle by done. bind. rewrite highbit by (by apply Forall_inv in Hb).
  pose proof (Forall_inv Hb) as Ha. unfold is_byte in Ha.
  assert (Hone : a <> 0 -> a < 128 -> exists c k, a :: s = c ++ k /\ mbchar e c /\
    zlen pre + 1 = zlen pre + zlen c /\ zlen (a :: s) - 1 = zlen k).
  { intros. exists [a], s. repeat split; [apply (ascii_mbchar e a); lia..|zl]. }
  destruct (Z.leb_spec 128 a); cbn [negb].
  - rewrite drop_zlen_app.
    destruct (verify_cases e a s Hb) as [[Hv Hn]|(c & k & Heq & Hc & Hv)]; [lia|..];
      unfold pg_encoding_verifymbchar in Hv; rewrite Hv; bind; [by split|].
    pose proof (mbchar_size e c Hc). destruct (Z.eqb_spec (zlen c) (-1)); [lia|].
    exists c, k. rewrite Heq. repeat split; try apply Hc. zl.
  - destruct (Z.eqb_spec a 0) as [->|]; [split; [done|apply nochar_0]|]. by apply Hone.
Qed.

Lemma verify_loop_ok pre s :
  bytes s ->
  returns (verify_loop (mbverifychar (pg_wchar_table e)) (pre ++ s) (zlen pre) (zlen s))
    (fun n => valid_upto s (n - zlen pre)).
Proof.
  intros Hb. unfold verify_loop.
  apply (iter_returns (fun '(i, len) => exists cs k, s = concat cs ++ k /\ Forall (mbchar e) cs /\
           i = zlen pre + zlen (concat cs) /\ len = zlen k) (fun '(_, len) => Z.to_nat len)); [|by exists [], s; repeat split; zl|lia].
  intros [i len] (cs & k & -> & Hcs & -> & ->). apply Forall_app in Hb as [_ Hk].
  rewrite app_assoc, <- zlen_app. eapply returns_mono; [by apply verify_step|].
  intros [[i len]|i].
  - intros (c & k' & -> & Hc & -> & ->). pose proof (mbchar_size e c Hc). split; [|zl].
    exists (cs ++ [c]), k'. rewrite concat_app. simpl. rewrite app_nil_r, <- app_assoc.
    repeat split; [by apply Forall_app_2; [|constructor]|zl].
  - intros [-> Hn]. exists cs, k. rewrite zlen_app. repeat split; auto. lia.
Qed.

(** Single-byte encodings: everything up to the first NUL. *)
Lemma nul_loop_ok s :
  bytes s -> (forall a, is_byte a -> a <> 0 -> mbchar e [a]) ->
  returns (pg_ascii_verifystr s (zlen s)) (valid_upto s).
Proof.
  intros Hb Hone. unfold pg_ascii_verifystr.
  apply (iter_returns (fun i => exists cs k, s = concat cs ++ k /\ Forall (mbchar e) cs /\ i = zlen (concat cs))
           (fun i => Z.to_nat (zlen s - i))); [|by exists [], s|lia].
  intros i (cs & k & -> & Hcs & ->). unfold nul_body. apply Forall_app in Hb as [_ Hk]. destruct k as [|a k].
  - rewrite app_nil_r, Z.ltb_irrefl. exists cs, []. rewrite app_nil_r. repeat split; auto. apply nochar_nil.
  - replace (_ <? _) with true by (symmetry; apply Z.ltb_lt; zl). rewrite rd_middle by done. bind.
    destruct (Z.eqb_spec a 0) as [->|].
    + exists cs, (0 :: k). repeat split; auto. apply nochar_0.
    + split; [|zl]. exists (cs ++ [[a]]), k. rewrite concat_app. simpl. rewrite <- app_assoc.
      repeat split; [|zl]. apply Forall_app_2; [done|constructor; [|constructor]]. apply Hone; [|done].
      by apply Forall_inv in Hk.
Qed.
End verify.

(** ** Lengths in characters *)

Section lengths.
Context (e : pg_enc).

Lemma text_cons c cs s : text_of e (c :: cs) s -> exists s', s = c ++ s' /\ mbchar e c /\ text_of e cs s'.
Proof. intros [-> H]. inversion H; subst. exists (concat cs). done. Qed.

Lemma text_app cs1 cs2 s1 s2 : text_of e cs1 s1 -> text_of e cs2 s2 -> text_of e (cs1 ++ cs2) (s1 ++ s2).
Proof. intros [-> H1] [-> H2]. split; [by rewrite concat_app|by apply Forall_app_2]. Qed.

Lemma text_unique cs1 cs2 s : text_of e cs1 s -> text_of e cs2 s -> cs1 = cs2.
Proof.
  revert cs2 s. induction cs1 as [|c1 cs1 IH]; intros [|c2 cs2] s H1 H2; [done|..].
  - destruct H1 as [-> _]. apply text_cons in H2 as (s' & Heq & Hc & _). destruct Hc as (_ & _ & Hne & _).
    destruct c2; done.
  - destruct H2 as [-> _]. apply text_cons in H1 as (s' & Heq & Hc & _). destruct Hc as (_ & _ & Hne & _).
    destruct c1; done.
  - apply text_cons in H1 as (s1 & -> & Hc1 & H1). apply text_cons in H2 as (s2 & Heq & Hc2 & H2).
    destruct (mbchar_inj e c1 s1 c2 s2 Hc1 Hc2 Heq) as [-> ->]. f_equal. by eapply IH.
Qed.

Lemma concat_size cs :
  Forall (mbchar e) cs -> zlen cs <= zlen (concat cs) <= zlen cs * pg_encoding_max_length e.
Proof.
  induction 1 as [|c cs Hc _ IH]; [by vm_compute|]. simpl. pose proof (mbchar_size e c Hc). zl.
Qed.

Lemma rd_char c k i pre : mbchar e c -> i = zlen pre -> exists a, rd (pre ++ c ++ k) i = Ok a /\ a <> 0.
Proof.
  intros (_ & H0 & Hne & _) ->. destruct c as [|a c]; [done|]. exists a. rewrite <- app_comm_cons, rd_middle by done.
  split; [done|]. simpl in H0. congruence.
Qed.

(** pg_mblen at a character. *)
Lemma mblen_at pre c k : mbchar e c -> pg_mblen e (drop (Z.to_nat (zlen pre)) (pre ++ c ++ k)) = Ok (zlen c).
Proof. intros Hc. rewrite drop_zlen_app. by apply mbchar_mblen. Qed.

Lemma mbstrlen_at pre a s l limit len :
  a <> 0 -> pg_mblen e (a :: s) = Ok l -> 0 < limit ->
  mbstrlen_body e (pre ++ a :: s) (zlen pre, limit, len) = Ok (inl (zlen pre + l, limit - l, len + 1)).
Proof.
  intros Ha Hm Hl. unfold mbstrlen_body. replace (limit >? 0) with true by lia. rewrite rd_middle by done. bind.
  destruct (Z.eqb_spec a 0); [done|]. by rewrite drop_zlen_app, Hm.
Qed.

Lemma mbstrlen_end s p limit len : limit <= 0 -> mbstrlen_body e s (p, limit, len) = Ok (inr len).
Proof. intros. unfold mbstrlen_body. by replace (limit >? 0) with false by lia. Qed.

Lemma mbchar_head c : mbchar e c -> exists a t, c = a :: t /\ a <> 0.
Proof. intros (_ & H0 & Hne & _). destruct c as [|a c]; [done|]. exists a, c. simpl in H0. by split; [|congruence]. Qed.

Lemma mbstrlen_step pre c k limit len :
  mbchar e c -> 0 < limit ->
  mbstrlen_body e (pre ++ c ++ k) (zlen pre, limit, len) = Ok (inl (zlen pre + zlen c, limit - zlen c, len + 1)).
Proof.
  intros Hc Hl. destruct (mbchar_head c Hc) as (a & t & -> & Ha). pose proof (mbchar_mblen e _ k Hc) as Hm.
  rewrite <- app_comm_cons in *. by apply mbstrlen_at.
Qed.

(** The loop runs over all characters that begin before the limit. *)
Lemma mbstrlen_run cs pre k limit len n :
  Forall (mbchar e) cs -> zlen (concat cs) <= limit ->
  iter (length cs + n) (mbstrlen_body e (pre ++ concat cs ++ k)) (zlen pre, limit, len)
  = iter n (mbstrlen_body e (pre ++ concat cs ++ k))
      (zlen pre + zlen (concat cs), limit - zlen (concat cs), len + zlen cs).
Proof.
  intros Hcs. revert pre limit len. induction Hcs as [|c cs Hc _ IH]; intros pre limit len Hl.
  - simpl. do 2 f_equal; [f_equal|]; zl.
  - simpl in *. pose proof (mbchar_size e c Hc) as Hs. rewrite zlen_app in Hl.
    pose proof (zlen_nonneg (concat cs)). rewrite iter_S, <- app_assoc, mbstrlen_step by (done || lia). bind.
    rewrite <- zlen_app. rewrite app_assoc. rewrite IH by lia. do 2 f_equal; [f_equal|]; zl.
Qed.

Lemma single_byte cs :
  pg_encoding_max_length e = 1 -> Forall (mbchar e) cs -> zlen (concat cs) = zlen cs.
Proof. intros H1 Hcs. pose proof (concat_size cs Hcs). lia. Qed.

Lemma mbstrlen_ok cs s k : text_of e cs s -> pg_mbstrlen_with_len e (s ++ k) (zlen s) = Ok (zlen cs).
Proof.
  intros [-> Hcs]. unfold pg_mbstrlen_with_len, pg_database_encoding_max_length.
  destruct (Z.eqb_spec (pg_encoding_max_length e) 1) as [H1|_]; [by rewrite single_byte|].
  pose proof (concat_size cs Hcs) as Hsz.
  replace (S (Z.to_nat (zlen (concat cs)))) with (length cs + S (Z.to_nat (zlen (concat cs) - zlen cs)))%nat by (unfold zlen in *; lia).
  change (concat cs ++ k) with ([] ++ concat cs ++ k). rewrite mbstrlen_run by (done || lia).
  rewrite Z.sub_diag. done.
Qed.
End lengths.

(** ** A string that is cut inside a character *)

Section cut.
Context (e : pg_enc) (Hserver : PG_VALID_BE_ENCODING e = true).

(** The length function of a server encoding looks at the first byte only. *)
Lemma mblen_first a s t : pg_encoding_mblen e (a :: s) = pg_encoding_mblen e (a :: t).
Proof using Hserver. by destruct e. Qed.

(** [p] is the beginning of a character. *)
Definition partial (p : list Z) : Prop := exists r, p <> [] /\ r <> [] /\ mbchar e (p ++ r).

Lemma partial_facts p k :
  partial p -> exists l, zlen p < l <= pg_encoding_max_length e /\ pg_encoding_mblen e (p ++ k) = Ok l /\
    head p <> Some 0 /\ 0 < zlen p.
Proof using Hserver.
  intros (r & Hp & Hr & Hc). exists (zlen (p ++ r)). pose proof (mbchar_size e _ Hc).
  pose proof (mbchar_mblen e (p ++ r) [] Hc) as Hm. destruct Hc as (_ & H0 & _).
  destruct p as [|a p]; [done|]. destruct r as [|b r]; [done|]. rewrite zlen_app in *.
  split; [zl|]. split; [by rewrite <- Hm; apply mblen_first|]. split; [done|zl].
Qed.

Lemma mbstrlen_cut cs p k :
  Forall (mbchar e) cs -> partial p ->
  pg_mbstrlen_with_len e (concat cs ++ p ++ k) (zlen (concat cs ++ p)) = Ok (zlen cs + 1).
Proof using Hserver.
  intros Hcs Hp. destruct (partial_facts p k Hp) as (l & Hl & Hm & H0 & Hp0).
  unfold pg_mbstrlen_with_len, pg_database_encoding_max_length.
  destruct (Z.eqb_spec (pg_encoding_max_length e) 1); [lia|]. pose proof (concat_size e cs Hcs) as Hsz.
  replace (S (Z.to_nat (zlen (concat cs ++ p)))) with
    (length cs + S (S (Z.to_nat (zlen (concat cs ++ p) - zlen cs - 1))))%nat by (rewrite zlen_app; unfold zlen in *; lia).
  change (concat cs ++ p ++ k) with ([] ++ concat cs ++ p ++ k). rewrite mbstrlen_run by (done || zl).
  rewrite iter_S, zlen_nil, !Z.add_0_l, !zlen_app. change ([] ++ ?x) with x. destruct p as [|a p]; [done|].
  rewrite <- app_comm_cons in *. rewrite (mbstrlen_at e _ a _ l) by (done || lia || by intros ->). bind.
  by rewrite iter_S, mbstrlen_end by lia.
Qed.

(** A prefix of a string is whole characters and the beginning of another one. *)
Lemma text_cut cs s n :
  text_of e cs s ->
  exists cs1 p cs2, cs = cs1 ++ cs2 /\ take n s = concat cs1 ++ p /\
    (p = [] /\ (length s <= n \/ length (concat cs1) = n)%nat \/ partial p /\ length (concat cs1 ++ p) = n).
Proof using Type.
  revert s n. induction cs as [|c cs IH]; intros s n Hs.
  - destruct Hs as [-> _]. exists [], [], []. simpl. rewrite take_nil. split; [done|]. split; [done|]. left. split; [done|]. simpl. lia.
  - apply text_cons in Hs as (s' & -> & Hc & Hs). destruct (decide (length c <= n)%nat) as [Hle|Hgt].
    + destruct (IH s' (n - length c)%nat Hs) as (cs1 & p & cs2 & -> & Ht & Hp).
      exists (c :: cs1), p, cs2. rewrite take_app_ge, Ht by lia. simpl. split; [done|]. split; [by rewrite app_assoc|].
      rewrite !length_app in *. destruct Hp as [[-> Hp]|[Hp Hn]]; [left|right]; split; try done; lia.
    + exists [], (take n c), (c :: cs). rewrite take_app_le by lia. split; [done|]. split; [done|].
      destruct n as [|n]; [left; simpl; auto with lia|]. right. split; [|simpl; rewrite length_take; lia].
      exists (drop (S n) c). rewrite take_drop. split; [destruct c; [simpl in Hgt; lia|done]|]. split; [|done].
      intros Hd. apply (f_equal length) in Hd. rewrite length_drop in Hd. simpl in Hd. lia.
Qed.
End cut.

(** ** Clipping *)

(** The longest sequence of whole characters that fits in [limit] bytes. *)
Fixpoint clip (cs : list (list Z)) (limit : Z) : list (list Z) :=
  match cs with
  | [] => []
  | c :: cs => if zlen c <=? limit then c :: clip cs (limit - zlen c) else []
  end.

Section clipping.
Context (e : pg_enc).

Lemma cliplen_ok cs s k limit :
  pg_encoding_max_length e = 1 -> text_of e cs s ->
  cliplen (s ++ k) (zlen s) limit = Ok (Z.max 0 (Z.min (zlen s) limit)).
Proof.
  intros H1 [-> Hcs]. unfold cliplen.
  assert (Hm : Z.min (zlen (concat cs)) limit <= zlen (concat cs)) by lia.
  set (m := Z.min _ _) in *. clearbody m.
  assert (Hnz : forall i b, 0 <= i < zlen (concat cs) -> rd (concat cs) i = Ok b -> b <> 0).
  { clear Hm. induction Hcs as [|c cs Hc _ IH]; intros i b Hi Hr; [change (zlen (concat [])) with 0 in Hi; lia|]. simpl in *.
    pose proof (mbchar_size e c Hc). destruct (mbchar_head e c Hc) as (a & t & -> & Ha).
    rewrite zlen_cons in *. pose proof (zlen_nonneg t). assert (t = []) as -> by (apply zlen_0_nil; lia).
    destruct (Z.eq_dec i 0) as [->|]; [by injection Hr as <-|].
    rewrite rd_app_r in Hr by zl. eapply (IH (i - zlen [a])); [zl|done]. }
  enough (Hret : returns (iter (S (Z.to_nat m)) (cliplen_body (concat cs ++ k) m) 0) (eq (Z.max 0 m))).
  { destruct (iter _ _ _); try done. by rewrite <- Hret. }
  apply (iter_returns (fun l => 0 <= l <= Z.max 0 m) (fun l => Z.to_nat (m - l))); [|lia..].
  intros l Hlm. unfold cliplen_body. destruct (Z.ltb_spec l m); [|simpl; lia].
  destruct (rd_in_range (concat cs) l) as [b Hb]; [lia|]. rewrite rd_app_l, Hb by lia. bind.
  pose proof (Hnz l b ltac:(lia) Hb). destruct (Z.eqb_spec b 0); [done|]. simpl. lia.
Qed.

Lemma clip_single cs limit :
  pg_encoding_max_length e = 1 -> Forall (mbchar e) cs -> 0 <= limit ->
  zlen (concat (clip cs limit)) = Z.min (zlen (concat cs)) limit.
Proof.
  intros H1 Hcs. revert limit. induction Hcs as [|c cs Hc Hcs IH]; intros limit Hl; simpl; [by zl|].
  pose proof (mbchar_size e c Hc). destruct (Z.leb_spec (zlen c) limit); simpl; [rewrite zlen_app, IH|]; zl.
Qed.

Lemma clip_0 cs : Forall (mbchar e) cs -> clip cs 0 = [].
Proof.
  intros [|c cs' Hc _]; [done|]. simpl. pose proof (mbchar_size e c Hc).
  by replace (zlen c <=? 0) with false by (symmetry; apply Z.leb_gt; lia).
Qed.

Lemma mbcliplen_run cs pre k n :
  Forall (mbchar e) cs -> (length cs < n)%nat ->
  forall limit clen, clen <= limit ->
  iter n (mbcliplen_body e limit (pre ++ concat cs ++ k)) (zlen pre, zlen (concat cs), clen)
  = Ok (clen + zlen (concat (clip cs (limit - clen)))).
Proof.
  intros Hcs. revert pre n. induction Hcs as [|c cs Hc Hcs IH]; intros pre n Hn limit clen Hl.
  - destruct n; [lia|]. rewrite iter_S. simpl. by rewrite Z.add_0_r.
  - destruct n; [simpl in Hn; lia|]. rewrite iter_S. simpl. pose proof (mbchar_size e c Hc).
    destruct (mbchar_head e c Hc) as (a & t & -> & Ha). pose proof (mbchar_mblen e _ (concat cs ++ k) Hc) as Hm.
    rewrite zlen_app. pose proof (zlen_nonneg (concat cs)).
    replace (_ >? 0) with true by (symmetry; rewrite Z.gtb_ltb; apply Z.ltb_lt; lia).
    rewrite <- app_assoc, <- app_comm_cons in *. rewrite rd_middle by done. bind.
    destruct (Z.eqb_spec a 0); [done|]. rewrite drop_zlen_app. unfold pg_mblen. rewrite Hm. bind.
    destruct (Z.gtb_spec (clen + zlen (a :: t)) limit).
    + bind. replace (_ <=? _) with false by (symmetry; apply Z.leb_gt; lia). simpl. by rewrite Z.add_0_r.
    + replace (_ <=? _) with true by (symmetry; apply Z.leb_le; lia).
      destruct (Z.eqb_spec (clen + zlen (a :: t)) limit) as [He|].
      * bind. replace (limit - clen - zlen (a :: t)) with 0 by lia. rewrite clip_0 by done. simpl. f_equal.
        rewrite app_nil_r. lia.
      * bind. rewrite <- zlen_app, app_comm_cons, app_assoc.
        replace (zlen (a :: t) + zlen (concat cs) - zlen (a :: t)) with (zlen (concat cs)) by lia.
        rewrite IH by (simpl in Hn; lia). simpl. f_equal.
        replace (limit - (clen + zlen (a :: t))) with (limit - clen - zlen (a :: t)) by lia. zl.
Qed.

Lemma mbcliplen_ok cs s k limit :
  text_of e cs s -> 0 <= limit -> pg_mbcliplen e (s ++ k) (zlen s) limit = Ok (zlen (concat (clip cs limit))).
Proof.
  intros Hs Hl. unfold pg_mbcliplen, pg_database_encoding_max_length.
  destruct (Z.eqb_spec (pg_encoding_max_length e) 1) as [H1|_].
  - rewrite (cliplen_ok cs) by done. destruct Hs as [-> Hcs]. rewrite clip_single by done. f_equal. zl.
  - destruct Hs as [-> Hcs]. pose proof (concat_size e cs Hcs) as Hsz. change (concat cs ++ k) with ([] ++ concat cs ++ k).
    rewrite (mbcliplen_run cs []) by (done || unfold zlen in *; lia). by rewrite Z.sub_0_r.
Qed.

Lemma mbcharcliplen_run cs pre k n :
  Forall (mbchar e) cs -> (length cs < n)%nat ->
  forall limit clen nch,
  iter n (mbcharcliplen_body e limit (pre ++ concat cs ++ k)) (zlen pre, zlen (concat cs), clen, nch)
  = Ok (clen + zlen (concat (take (Z.to_nat (limit - nch)) cs))).
Proof.
  intros Hcs. revert pre n. induction Hcs as [|c cs Hc Hcs IH]; intros pre n Hn limit clen nch.
  - destruct n; [lia|]. rewrite iter_S. simpl. rewrite take_nil. by rewrite Z.add_0_r.
  - destruct n; [simpl in Hn; lia|]. rewrite iter_S. simpl. pose proof (mbchar_size e c Hc).
    destruct (mbchar_head e c Hc) as (a & t & -> & Ha). pose proof (mbchar_mblen e _ (concat cs ++ k) Hc) as Hm.
    rewrite zlen_app. pose proof (zlen_nonneg (concat cs)).
    replace (_ >? 0) with true by (symmetry; rewrite Z.gtb_ltb; apply Z.ltb_lt; lia).
    rewrite <- app_assoc, <- app_comm_cons in *. rewrite rd_middle by done. bind.
    destruct (Z.eqb_spec a 0); [done|]. rewrite drop_zlen_app. unfold pg_mblen. rewrite Hm. bind.
    destruct (Z.gtb_spec (nch + 1) limit).
    + bind. replace (Z.to_nat (limit - nch)) with 0%nat by lia. simpl. by rewrite Z.add_0_r.
    + bind. rewrite <- zlen_app, app_comm_cons, app_assoc.
      replace (zlen (a :: t) + zlen (concat cs) - zlen (a :: t)) with (zlen (concat cs)) by lia.
      rewrite IH by (simpl in Hn; lia).
      replace (Z.to_nat (limit - nch)) with (S (Z.to_nat (limit - (nch + 1)))) by lia. simpl. f_equal. zl.
Qed.

Lemma mbcharcliplen_ok cs s k limit :
  text_of e cs s ->
  pg_mbcharcliplen e (s ++ k) (zlen s) limit = Ok (zlen (concat (take (Z.to_nat limit) cs))).
Proof.
  intros Hs. unfold pg_mbcharcliplen, pg_database_encoding_max_length.
  destruct (Z.eqb_spec (pg_encoding_max_length e) 1) as [H1|_].
  - rewrite (cliplen_ok cs) by done. destruct Hs as [-> Hcs]. f_equal.
    rewrite !(single_byte e) by (done || by apply Forall_take). zl.
  - destruct Hs as [-> Hcs]. pose proof (concat_size e cs Hcs) as Hsz. change (concat cs ++ k) with ([] ++ concat cs ++ k).
    rewrite (mbcharcliplen_run cs []) by (done || unfold zlen in *; lia). by rewrite Z.sub_0_r.
Qed.
End clipping.

(** [mbchar] and [text_of] are decidable by evaluation. *)
Definition mbcharb (e : pg_enc) (c : list Z) : bool :=
  bytesb c &&
  match c with [] => false | a :: _ => negb (a =? 0) end &&
  match pg_encoding_verifymbchar e c (zlen c) with Ok l => l =? zlen c | _ => false end.

Lemma mbcharb_spec e c : mbcharb e c = true -> mbchar e c.
Proof.
  unfold mbcharb. intros [[Hb Hh]%andb_prop Hv]%andb_prop. destruct c as [|a c]; [done|].
  split; [by apply bytesb_spec|]. split; [simpl; intros [= ->]; done|]. split; [done|].
  destruct (pg_encoding_verifymbchar _ _ _); try done. f_equal. lia.
Qed.

Lemma text_of_eval e cs s : bool_decide (s = concat cs) && forallb (mbcharb e) cs = true -> text_of e cs s.
Proof.
  intros [Hs%bool_decide_eq_true Hc]%andb_prop. split; [done|]. rewrite forallb_forall in Hc.
  apply Forall_forall. intros c Hin. by apply mbcharb_spec, Hc, list_elem_of_In.
Qed.
