(* ===== verification/Utf8.v ===== *)
(** The UTF-8 fast path of pg_utf8_verifystr: the shift-based automaton accepts the same
    strings as the validation character by character, and the whole function returns the
    same offset. *)

From S2P Require Import Prelude Varatt Wchar Mbchar.

(** ** The automaton *)

Definition utf8_step (state c : Z) : Z :=
  Z.land (Z.shiftr (nth (Z.to_nat c) Utf8Transition 0) (Z.land state 31)) 31.

(** The transitions, as the table in the comment of wchar.c has them. *)
Definition lead_state (a : Z) : Z :=
  if in_range 0xC2 0xDF a then CS1
  else if a =? 0xE0 then P3A else if a =? 0xED then P3B else if in_range 0xE1 0xEF a then CS2
  else if a =? 0xF0 then P4A else if in_range 0xF1 0xF3 a then CS3 else if a =? 0xF4 then P4B
  else ERR.
Definition utf8_next (state c : Z) : Z :=
  let on (lo hi to : Z) := if in_range lo hi c then to else ERR in
  if state =? END then (if in_range 1 0x7F c then END else lead_state c)
  else if state =? CS1 then on 0x80 0xBF END
  else if state =? CS2 then on 0x80 0xBF CS1
  else if state =? CS3 then on 0x80 0xBF CS2
  else if state =? P3A then on 0xA0 0xBF CS1
  else if state =? P3B then on 0x80 0x9F CS1
  else if state =? P4A then on 0x90 0xBF CS2
  else if state =? P4B then on 0x80 0x8F CS2
  else ERR.

Definition utf8_states : list Z := [ERR; END; CS1; CS2; CS3; P3A; P3B; P4A; P4B].

Lemma step_next st c : In st utf8_states -> is_byte c -> utf8_step st c = utf8_next st c.
Proof.
  intros Hst Hc. apply Z.eqb_eq.
  assert (H : forallb (fun st => forallb (fun c => utf8_step st c =? utf8_next st c) (zrange 256)) utf8_states = true)
    by (vm_compute; reflexivity).
  rewrite forallb_forall in H.
  by apply (zrange_forall 256 (fun c => utf8_step st c =? utf8_next st c) (H st Hst)).
Qed.

Lemma rd_transition c : is_byte c -> rd Utf8Transition c = Ok (nth (Z.to_nat c) Utf8Transition 0).
Proof.
  intros Hc. unfold is_byte in Hc. apply rd_Some; [lia|].
  destruct (nth_lookup_or_length Utf8Transition (Z.to_nat c) 0) as [H|H]; [done|].
  change (length Utf8Transition) with 256%nat in H. lia.
Qed.

Lemma advance_loop_ok s i n st :
  bytes s -> 0 <= i -> (Z.to_nat i + n <= length s)%nat ->
  exists st', utf8_advance_loop s i n st = Ok st' /\
    Z.land st' 31 = foldl utf8_step (Z.land st 31) (take n (drop (Z.to_nat i) s)).
Proof.
  intros Hb. revert i st. induction n as [|n IH]; intros i st Hi Hn; simpl; [by exists st|].
  destruct (lookup_lt_is_Some_2 s (Z.to_nat i)) as [c Hc]; [lia|].
  rewrite (rd_Some s i c) by done. bind. rewrite rd_transition by exact (Forall_lookup_1 _ _ _ _ Hb Hc). bind.
  destruct (IH (i + 1) (Z.shiftr (nth (Z.to_nat c) Utf8Transition 0) (Z.land st 31))) as (st' & -> & Hst'); [lia..|].
  exists st'. split; [done|]. rewrite Hst'. rewrite (drop_S s c (Z.to_nat i)) by done. simpl.
  replace (Z.to_nat (i + 1)) with (S (Z.to_nat i)) by lia. f_equal. unfold utf8_step.
  by rewrite <- (Z.land_assoc st 31 31).
Qed.

Lemma advance_ok s st n :
  bytes s -> 0 <= n <= zlen s ->
  utf8_advance s st n = Ok (foldl utf8_step (Z.land st 31) (take (Z.to_nat n) s)).
Proof.
  intros Hb Hn. unfold utf8_advance.
  destruct (advance_loop_ok s 0 (Z.to_nat n) st Hb) as (st' & -> & Hst); [lia|unfold zlen in Hn; lia|].
  bind. by rewrite Hst.
Qed.

(** ** What a state knows about the bytes read *)

(** The bytes [p] of a character that is not complete yet. *)
Definition pending (st : Z) (p : list Z) : Prop :=
  match p with
  | [] => st = END
  | [a] => 0xC2 <= a <= 0xF4 /\ st = lead_state a
  | [a; b] => 0xE0 <= a <= 0xF4 /\ utf8_second a b = true /\ st = (if a <? 0xF0 then CS1 else CS2)
  | [a; b; c] => 0xF0 <= a <= 0xF4 /\ utf8_second a b = true /\ utf8_tail c = true /\ st = CS1
  | _ => False
  end.

(** The bytes of a whole character. *)
Definition complete (p : list Z) : Prop :=
  match p with
  | [a] => 0 < a < 0x80
  | [a; b] => 0xC2 <= a <= 0xDF /\ utf8_second a b = true
  | [a; b; c] => 0xE0 <= a <= 0xEF /\ utf8_second a b = true /\ utf8_tail c = true
  | [a; b; c; d] => 0xF0 <= a <= 0xF4 /\ utf8_second a b = true /\ utf8_tail c = true /\ utf8_tail d = true
  | _ => False
  end.

Lemma lead_bits a :
  is_byte a ->
  (Z.land a 0x80 =? 0) = (a <? 0x80) /\ (Z.land a 0xe0 =? 0xc0) = in_range 0xC0 0xDF a /\
  (Z.land a 0xf0 =? 0xe0) = in_range 0xE0 0xEF a /\ (Z.land a 0xf8 =? 0xf0) = in_range 0xF0 0xF7 a.
Proof.
  intros Ha.
  assert (H : eqb (Z.land a 0x80 =? 0) (a <? 0x80) && eqb (Z.land a 0xe0 =? 0xc0) (in_range 0xC0 0xDF a) &&
    eqb (Z.land a 0xf0 =? 0xe0) (in_range 0xE0 0xEF a) && eqb (Z.land a 0xf8 =? 0xf0) (in_range 0xF0 0xF7 a) = true).
  { by apply (zrange_forall 256 (fun a => eqb (Z.land a 0x80 =? 0) (a <? 0x80) &&
      eqb (Z.land a 0xe0 =? 0xc0) (in_range 0xC0 0xDF a) && eqb (Z.land a 0xf0 =? 0xe0) (in_range 0xE0 0xEF a) &&
      eqb (Z.land a 0xf8 =? 0xf0) (in_range 0xF0 0xF7 a))). }
  apply andb_prop in H as [H H4]. apply andb_prop in H as [H H3]. apply andb_prop in H as [H1 H2].
  by repeat split; apply eqb_prop.
Qed.

Lemma utf8_mblen a s :
  is_byte a -> pg_utf_mblen (a :: s) =
  Ok (if a <? 0x80 then 1 else if in_range 0xC0 0xDF a then 2 else if in_range 0xE0 0xEF a then 3
      else if in_range 0xF0 0xF7 a then 4 else 1).
Proof. intros Ha. unfold pg_utf_mblen. rewrite rd_0. bind. by destruct (lead_bits a Ha) as (-> & -> & -> & ->). Qed.

Ltac ands :=
  repeat match goal with H : _ && _ = true |- _ => apply andb_prop in H as [? ?] end;
  repeat split; (done || (unfold utf8_lead, in_range in *; lia)).

Lemma complete_iff p : bytes p -> mbchar PG_UTF8 p <-> complete p.
Proof.
  intros Hb. split.
  - intros Hc. pose proof (mbchar_size _ _ Hc) as Hsz. destruct (mbchar_head _ _ Hc) as (a & t & -> & Ha).
    destruct Hc as (_ & _ & _ & Hv). pose proof (Forall_inv Hb) as Hab. change (pg_encoding_max_length PG_UTF8) with 4 in Hsz.
    unfold is_byte in Hab. destruct (lead_bits a Hab) as (H1 & H2 & H3 & H4).
    change (pg_utf8_verifychar (a :: t) (zlen (a :: t)) = Ok (zlen (a :: t))) in Hv.
    unfold pg_utf8_verifychar in Hv. rewrite rd_0 in Hv. cbn [mbind res_bind] in Hv. rewrite H1, H2, H3, H4 in Hv. clear H1 H2 H3 H4.
    destruct t as [|b [|c [|d [|x t]]]]; [..|zl]; autorewrite with zlen in Hv; cbv zeta in Hv; split_tests Hv;
      try discriminate Hv; try injection Hv as Hv; try lia; simpl; ands.
  - intros Hc. destruct p as [|a p]; [done|]. pose proof (Forall_inv Hb) as Hab. unfold is_byte in Hab.
    assert (Ha : 0 < a) by (destruct p as [|b [|c [|d [|x p]]]]; simpl in Hc; lia).
    split; [done|]. split; [simpl; intros [=]; lia|]. split; [done|].
    change (pg_utf8_verifychar (a :: p) (zlen (a :: p)) = Ok (zlen (a :: p))).
    destruct (lead_bits a Hab) as (H1 & H2 & H3 & H4).
    remember (pg_utf8_verifychar (a :: p) (zlen (a :: p))) as r eqn:Hr.
    unfold pg_utf8_verifychar in Hr. rewrite rd_0 in Hr. cbn [mbind res_bind] in Hr. rewrite H1, H2, H3, H4 in Hr. clear H1 H2 H3 H4.
    destruct p as [|b [|c [|d [|x t]]]]; [..|done]; autorewrite with zlen in Hr; cbv zeta in Hr; simpl in Hc; split_tests Hr;
      rewrite Hr; try done; exfalso; destruct_and?; simplify_eq; unfold utf8_lead, in_range in *;
      repeat match goal with H : utf8_second _ _ = true |- _ => rewrite H in *; clear H | H : utf8_tail _ = true |- _ => rewrite H in *; clear H end; lia.
Qed.

Lemma pending_states st p : pending st p -> In st utf8_states.
Proof.
  destruct p as [|a [|b [|c [|d p]]]]; simpl; [intros ->; tauto|..|done].
  - intros [_ ->]. unfold lead_state. repeat case_match; tauto.
  - intros (_ & _ & ->). case_match; tauto.
  - intros (_ & _ & _ & ->). tauto.
Qed.

(** The second byte decides what is left to read. *)
Lemma lead_next a c :
  0xC2 <= a <= 0xF4 -> is_byte c ->
  utf8_next (lead_state a) c =
  if utf8_second a c then (if a <? 0xE0 then END else if a <? 0xF0 then CS1 else CS2) else ERR.
Proof.
  intros Ha Hc. unfold is_byte in Hc. apply Z.eqb_eq.
  set (t := fun a c => utf8_next (lead_state a) c =?
    (if utf8_second a c then (if a <? 0xE0 then END else if a <? 0xF0 then CS1 else CS2) else ERR)).
  assert (H : forallb (fun a => negb (in_range 0xC2 0xF4 a) || forallb (t a) (zrange 256)) (zrange 256) = true)
    by (vm_compute; reflexivity).
  pose proof (zrange_forall 256 _ H a ltac:(lia)) as Ht. cbv beta in Ht.
  replace (in_range 0xC2 0xF4 a) with true in Ht by (unfold in_range; lia).
  exact (zrange_forall 256 (t a) Ht c Hc).
Qed.

(** One byte more. *)
Lemma pending_step st p c :
  pending st p -> is_byte c ->
  utf8_step st c = ERR \/ pending (utf8_step st c) (p ++ [c]) \/
  (utf8_step st c = END /\ complete (p ++ [c])).
Proof.
  intros Hp Hc. rewrite step_next by (done || by eapply pending_states). unfold is_byte in Hc.
  destruct p as [|a [|b [|b2 [|d p]]]]; simpl in Hp |- *; [..|done].
  - subst st. unfold utf8_next. simpl. destruct (in_range 1 127 c) eqn:E; [right; right; unfold in_range in E; lia|].
    destruct (Z.eq_dec (lead_state c) ERR); [by left|]. right; left. split; [|done].
    unfold lead_state, in_range in *. repeat case_match; try done; lia.
  - destruct Hp as [Ha ->]. rewrite lead_next by done. destruct (utf8_second a c) eqn:Es; [|by left]. right.
    destruct (Z.ltb_spec a 0xE0); [right; split; [done|]; split; [lia|done]|]. left. split; [lia|].
    split; [done|]. by destruct (Z.ltb_spec a 0xF0).
  - destruct Hp as (Ha & Hs & ->). unfold utf8_next.
    destruct (Z.ltb_spec a 0xF0); simpl; fold (utf8_tail c); (destruct (utf8_tail c) eqn:E; [right|by left]).
    + right. split; [done|]. split; [lia|done].
    + left. split; [lia|done].
  - destruct Hp as (Ha & Hs & Ht & ->). unfold utf8_next. simpl. fold (utf8_tail c).
    destruct (utf8_tail c) eqn:E; [right; right; tauto|by left].
Qed.

Lemma err_step c : is_byte c -> utf8_step ERR c = ERR.
Proof. intros Hc. by rewrite step_next by (done || by left). Qed.

(** The bytes read so far are characters and the beginning of one more. *)
Lemma dfa_inv w :
  bytes w ->
  foldl utf8_step BGN w = ERR \/
  exists cs p, w = concat cs ++ p /\ Forall (mbchar PG_UTF8) cs /\ pending (foldl utf8_step BGN w) p.
Proof.
  induction w as [|c w IH] using rev_ind; intros Hb; [right; by exists [], []|].
  apply Forall_app in Hb as [Hw Hc%Forall_inv]. rewrite foldl_app. simpl.
  destruct (IH Hw) as [-> | (cs & p & -> & Hcs & Hp)]; [left; by apply err_step|].
  destruct (pending_step _ p c Hp Hc) as [He|[Hn|[He Hcomp]]]; [by left|right..].
  - exists cs, (p ++ [c]). by rewrite app_assoc.
  - exists (cs ++ [p ++ [c]]), []. rewrite concat_app, app_nil_r. simpl. rewrite app_nil_r, app_assoc.
    split; [done|]. split; [|by rewrite He]. apply Forall_app_2; [done|]. constructor; [|done].
    apply complete_iff; [|done]. apply Forall_app in Hw as [_ Hpb]. apply Forall_app_2; [done|]. by constructor.
Qed.

Lemma ascii_fold w : Forall (fun c => 0 < c < 128) w -> foldl utf8_step END w = END.
Proof.
  induction 1 as [|c w Hc _ IH]; [done|]. simpl. rewrite step_next; [|right; by left|unfold is_byte; lia].
  unfold utf8_next. simpl. by replace (in_range 1 127 c) with true by (unfold in_range; lia).
Qed.

(** ** The test of a chunk *)

Lemma highbit_lor a b : IS_HIGHBIT_SET (Z.lor a b) = IS_HIGHBIT_SET a || IS_HIGHBIT_SET b.
Proof.
  unfold IS_HIGHBIT_SET. rewrite Z.land_lor_distr_l. apply eq_true_iff_eq.
  rewrite orb_true_iff, !negb_true_iff, !Z.eqb_neq, Z.lor_eq_0_iff. destruct (Z.eq_dec (Z.land a 128) 0); tauto.
Qed.

Lemma vector8_or_low u v :
  length u = length v -> vector8_is_highbit_set (vector8_or u v) = false ->
  vector8_is_highbit_set u = false /\ vector8_is_highbit_set v = false.
Proof.
  revert v. induction u as [|a u IH]; intros [|b v] Hlen H; try done. simpl in *.
  rewrite highbit_lor in H. apply orb_false_iff in H as [H Hr]. apply orb_false_iff in H as [-> ->].
  apply IH; [lia|done].
Qed.

Lemma chunk_low chunk :
  bytes chunk -> vector8_is_highbit_set chunk = false ->
  vector8_is_highbit_set (vector8_eq chunk (replicate (length chunk) 0)) = false ->
  Forall (fun c => 0 < c < 128) chunk.
Proof.
  induction 1 as [|c chunk Hc _ IH]; [constructor|]. simpl. intros [Hh Hr]%orb_false_iff [Hz Hr']%orb_false_iff.
  constructor; [|by apply IH]. rewrite highbit in Hh by done. unfold is_byte in Hc.
  destruct (Z.eqb_spec c 0); [done|lia].
Qed.

Lemma valid_ascii_ok s len :
  bytes s -> 0 <= len <= zlen s -> len mod sizeof_Vector8 = 0 ->
  returns (is_valid_ascii s len) (fun b => b = true -> Forall (fun c => 0 < c < 128) (take (Z.to_nat len) s)).
Proof.
  intros Hb Hlen Hmod. unfold is_valid_ascii.
  eapply (returns_bind _ _ (fun v => vector8_is_highbit_set v = false ->
    Forall (fun c => 0 < c < 128) (take (Z.to_nat len) s))).
  2:{ intros v Hv. simpl. intros Hn. apply Hv. by destruct (vector8_is_highbit_set v). }
  apply (iter_returns (fun '(i, v) => 0 <= i <= len /\ i mod sizeof_Vector8 = 0 /\ length v = 16%nat /\
    (vector8_is_highbit_set v = false -> Forall (fun c => 0 < c < 128) (take (Z.to_nat i) s)))
    (fun '(i, _) => Z.to_nat (len - i))); [|unfold sizeof_Vector8; repeat split; [lia..|done]|lia].
  intros [i v] (Hi & Him & Hv & HF). unfold ascii_body. unfold sizeof_Vector8 in *.
  destruct (Z.ltb_spec i len).
  - unfold vector8_load, sizeof_Vector8. rewrite rdn_Ok by lia. simpl.
    assert (Hl : length (zslice s i 16) = 16%nat) by (pose proof (zlen_zslice s i 16); unfold zlen in *; lia).
    assert (Hleq : length (vector8_eq (zslice s i 16) (vector8_broadcast 0)) = 16%nat).
    { unfold vector8_eq. rewrite length_zip_with, Hl. done. }
    split; [|lia]. split; [lia|]. split; [lia|].
    split; [unfold vector8_or; rewrite !length_zip_with; lia|].
    intros [[H1 H2]%vector8_or_low H3]%vector8_or_low; [| |unfold vector8_or; rewrite length_zip_with]; [|lia..].
    replace (Z.to_nat (i + 16)) with (Z.to_nat i + 16)%nat by lia. rewrite <- take_take_drop.
    apply Forall_app_2; [by apply HF|]. change (take 16 (drop (Z.to_nat i) s)) with (zslice s i 16).
    apply chunk_low; [by apply bytes_zslice|done|]. rewrite Hl. exact H2.
  - simpl. replace len with i by lia. done.
Qed.

(** ** The fast path *)

Lemma fold_range w : bytes w -> 0 <= foldl utf8_step BGN w < 32.
Proof.
  intros _. destruct w as [|c w _] using rev_ind; [by vm_compute|]. rewrite foldl_app. simpl.
  unfold utf8_step at 1 3. rewrite (land_ones_mod _ 5 31) by done. lia.
Qed.

Lemma stride_ok s :
  bytes s ->
  returns (iter (S (Z.to_nat (zlen s))) (stride_body s) (0, zlen s, BGN))
    (fun '(i, len, st) => 0 <= i <= zlen s /\ len = zlen s - i /\ st = foldl utf8_step BGN (take (Z.to_nat i) s)).
Proof.
  intros Hb.
  apply (iter_returns (fun '(i, len, st) => 0 <= i <= zlen s /\ len = zlen s - i /\
    st = foldl utf8_step BGN (take (Z.to_nat i) s)) (fun '(i, len, st) => Z.to_nat len));
    [|pose proof (zlen_nonneg s); repeat split; lia|lia].
  intros [[i len] st] (Hi & -> & Hst). unfold stride_body. destruct (Z.geb_spec (zlen s - i) STRIDE_LENGTH) as [Hge|]; [|by simpl].
  change STRIDE_LENGTH with 32 in *. set (s' := drop (Z.to_nat i) s).
  assert (Hs' : bytes s') by (by apply Forall_drop). assert (Hl : 0 <= 32 <= zlen s') by (unfold s'; zl).
  assert (Hnext : foldl utf8_step BGN (take (Z.to_nat (i + 32)) s) = foldl utf8_step st (take 32 s')).
  { replace (Z.to_nat (i + 32)) with (Z.to_nat i + 32)%nat by lia. rewrite <- take_take_drop, foldl_app. by rewrite Hst. }
  assert (Hadv : utf8_advance s' st 32 = Ok (foldl utf8_step st (take 32 s'))).
  { rewrite advance_ok by done. pose proof (fold_range (take (Z.to_nat i) s)) as Hr. rewrite <- Hst in Hr.
    rewrite (land_ones_mod st 5 31), Z.mod_small by (done || apply Hr; by apply Forall_take). done. }
  eapply (returns_bind _ _ (fun skip => skip = true -> foldl utf8_step st (take 32 s') = st)).
  - destruct (Z.eqb_spec st END) as [->|]; [|done]. eapply returns_mono; [by apply valid_ascii_ok|].
    intros b Hasc Ht. by apply ascii_fold, Hasc.
  - intros skip Hskip. eapply (returns_bind _ _ (eq (foldl utf8_step st (take 32 s')))).
    + destruct skip; [by rewrite Hskip|by rewrite Hadv].
    + intros st' <-. simpl. rewrite Hnext. repeat split; lia || done.
Qed.

(** Bytes inside a character do not look like the start of a long one. *)
Lemma tail_mblen c s : utf8_tail c = true -> pg_utf_mblen (c :: s) = Ok 1.
Proof.
  unfold utf8_tail, in_range. intros Hc. rewrite utf8_mblen by (unfold is_byte; lia). unfold in_range.
  repeat case_match; try done; lia.
Qed.

Lemma lead_mblen a s : 0xC2 <= a <= 0xF4 -> exists l, pg_utf_mblen (a :: s) = Ok l /\ 1 < l.
Proof.
  intros Ha. rewrite utf8_mblen by (unfold is_byte; lia). eexists. split; [done|]. unfold in_range.
  repeat case_match; lia.
Qed.

Lemma second_tail a b : utf8_second a b = true -> utf8_tail b = true.
Proof. unfold utf8_second, utf8_tail, in_range. repeat case_match; lia. Qed.

Lemma pending_shape st p :
  pending st p -> st <> END -> exists a t, p = a :: t /\ 0xC2 <= a <= 0xF4 /\ Forall (fun c => utf8_tail c = true) t.
Proof.
  destruct p as [|a [|b [|c [|d p]]]]; simpl; [done|..|done].
  - intros [Ha _] _. exists a, []. auto.
  - intros (Ha & Hs & _) _. exists a, [b]. split; [done|]. split; [lia|]. by repeat constructor; eapply second_tail.
  - intros (Ha & Hs & Hc & _) _. exists a, [b; c]. split; [done|]. split; [lia|].
    repeat constructor; [by eapply second_tail|done].
Qed.

Lemma backtrack_at pre c k i len l :
  pg_utf_mblen (c :: k) = Ok l -> i = zlen pre + 1 ->
  backtrack_body (pre ++ c :: k) (i, len) = Ok (if l <=? 1 then inl (zlen pre, len + 1) else inr (zlen pre, len + 1)).
Proof.
  intros Hl ->. unfold backtrack_body. replace (zlen pre + 1 - 1) with (zlen pre) by lia. pose proof (zlen_nonneg pre).
  destruct (Z.ltb_spec (zlen pre) 0); [lia|]. rewrite drop_zlen_app, Hl. bind. by destruct (l <=? 1).
Qed.

Lemma backtrack_ok pre a t k len n :
  0xC2 <= a <= 0xF4 -> Forall (fun c => utf8_tail c = true) t -> (length t < n)%nat ->
  iter n (backtrack_body (pre ++ a :: t ++ k)) (zlen pre + 1 + zlen t, len)
  = Ok (zlen pre, len + zlen t + 1).
Proof.
  intros Ha Ht. revert k len n. induction t as [|c t IH] using rev_ind; intros k len n Hn.
  - destruct n; [simpl in Hn; lia|]. rewrite iter_S. change (zlen []) with 0. rewrite !Z.add_0_r. change ([] ++ k) with k.
    destruct (lead_mblen a k Ha) as (l & Hl & Hgt). rewrite (backtrack_at pre a k _ len l) by done. bind.
    by destruct (Z.leb_spec l 1); [lia|].
  - apply Forall_app in Ht as [Ht Hc%Forall_inv]. rewrite length_app in Hn. simpl in Hn. destruct n; [lia|].
    rewrite iter_S. replace (pre ++ a :: (t ++ [c]) ++ k) with ((pre ++ a :: t) ++ c :: k) by (by simpl; rewrite <- !app_assoc).
    rewrite (backtrack_at (pre ++ a :: t) c k _ len 1) by (by apply tail_mblen || zl). bind.
    cbn [Z.leb Z.compare Pos.compare Pos.compare_cont].
    replace ((pre ++ a :: t) ++ c :: k) with (pre ++ a :: t ++ c :: k) by (by rewrite <- app_assoc).
    rewrite zlen_app, zlen_cons. replace (zlen pre + (1 + zlen t)) with (zlen pre + 1 + zlen t) by lia.
    rewrite IH by (done || lia). do 2 f_equal. zl.
Qed.

(** Where the fast path leaves off, everything before is valid. *)
Lemma fast_path_ok s :
  bytes s ->
  returns (utf8_fast_path s (zlen s)) (fun '(i, len) => exists cs rest,
    s = concat cs ++ rest /\ Forall (mbchar PG_UTF8) cs /\ i = zlen (concat cs) /\ len = zlen rest).
Proof.
  intros Hb. unfold utf8_fast_path. destruct (zlen s >=? STRIDE_LENGTH); [|by exists [], s].
  eapply returns_bind; [by apply stride_ok|]. intros [[i len] st] (Hi & -> & Hst).
  destruct (Z.eqb_spec st ERR); [by exists [], s|].
  destruct (dfa_inv (take (Z.to_nat i) s)) as [He|(cs & p & Hw & Hcs & Hp)]; [by apply Forall_take|congruence|].
  rewrite <- Hst in Hp. pose proof (take_drop (Z.to_nat i) s) as Hs. rewrite Hw in Hs.
  assert (Hz : i = zlen (concat cs ++ p)) by (rewrite <- Hw; zl).
  destruct (Z.eqb_spec st END) as [He|Hne]; cbn [negb].
  - assert (p = []) as ->.
    { rewrite He in Hp. destruct p as [|a [|b [|c [|d p]]]]; simpl in Hp; [done|exfalso..|done].
      - destruct Hp as [_ Hl]. unfold lead_state in Hl. by repeat case_match.
      - destruct Hp as (_ & _ & Hl). by case_match.
      - by destruct Hp as (_ & _ & _ & Hl). }
    rewrite app_nil_r in *. exists cs, (drop (Z.to_nat i) s). repeat split; [done|done|lia|zl].
  - destruct (pending_shape st p Hp Hne) as (a & t & -> & Ha & Ht).
    rewrite <- app_assoc, <- app_comm_cons in Hs. rewrite zlen_app, zlen_cons in Hz.
    pose proof (backtrack_ok (concat cs) a t (drop (Z.to_nat i) s) (zlen s - i) (S (Z.to_nat (zlen s))) Ha Ht) as Hbt.
    rewrite Hs in Hbt. replace (zlen (concat cs) + 1 + zlen t) with i in Hbt by lia.
    rewrite Hbt by (pose proof (zlen_nonneg (concat cs)); unfold zlen in *; lia).
    exists cs, (a :: t ++ drop (Z.to_nat i) s). repeat split; [done|done|]. zl.
Qed.

Lemma valid_upto_app e cs s n :
  Forall (mbchar e) cs -> valid_upto e s n -> valid_upto e (concat cs ++ s) (zlen (concat cs) + n).
Proof.
  induction 1 as [|c cs Hc _ IH]; intros Hs; simpl; [by rewrite zlen_nil|].
  rewrite <- app_assoc, zlen_app, <- Z.add_assoc. apply valid_upto_cons; auto.
Qed.

Lemma valid_upto_unique e s n m : valid_upto e s n -> valid_upto e s m -> n = m.
Proof.
  intros (cs & r & -> & Hcs & -> & Hr) (cs' & r' & Heq & Hcs' & -> & Hr'). f_equal.
  revert cs' Hcs' Heq. induction Hcs as [|c cs Hc _ IH]; intros cs' Hcs' Heq.
  - destruct Hcs' as [|c' cs' Hc' _]; [done|]. simpl in Heq. rewrite <- app_assoc in Heq. by destruct (Hr c' _ Hc' Heq).
  - destruct Hcs' as [|c' cs' Hc' Hcs']; simpl in Heq |- *; rewrite <- ?app_assoc in Heq.
    + by destruct (Hr' c (concat cs ++ r) Hc).
    + destruct (mbchar_inj e _ _ _ _ Hc Hc' Heq) as [-> Heq']. f_equal. by apply IH.
Qed.

Lemma utf8_verifystr_ok s : bytes s -> returns (pg_utf8_verifystr s (zlen s)) (valid_upto PG_UTF8 s).
Proof.
  intros Hb. unfold pg_utf8_verifystr. eapply returns_bind; [by apply fast_path_ok|].
  intros [i len] (cs & rest & -> & Hcs & -> & ->). apply Forall_app in Hb as [_ Hr].
  eapply returns_mono; [exact (verify_loop_ok PG_UTF8 (concat cs) rest Hr)|]. intros n Hn.
  replace n with (zlen (concat cs) + (n - zlen (concat cs))) by lia. by apply valid_upto_app.
Qed.

Lemma slow_path_ok e s :
  bytes s -> returns (verify_loop (mbverifychar (pg_wchar_table e)) s 0 (zlen s)) (valid_upto e s).
Proof.
  intros Hb. eapply returns_mono; [exact (verify_loop_ok e [] s Hb)|]. intros n Hn.
  by rewrite zlen_nil, Z.sub_0_r in Hn.
Qed.

Lemma single_byte_char e a :
  mbverifychar (pg_wchar_table e) [a] 1 = Ok 1 -> is_byte a -> a <> 0 -> mbchar e [a].
Proof.
  intros Hv Ha H0. split; [by constructor|]. split; [by intros [=]|]. split; [done|exact Hv].
Qed.

(** ** Properties *)

(** pg_encoding_verifymbstr, in every encoding, returns the length of the longest
    prefix that is a sequence of valid characters: the offset of the first invalid one,
    or the whole length. *)
Theorem pg_verifymbstr_correct e s :
  bytes s -> exists n, pg_encoding_verifymbstr e s (zlen s) = Ok n /\ valid_upto e s n.
Proof.
  intros Hb. apply returns_eq. unfold pg_encoding_verifymbstr.
  destruct e; match goal with |- returns _ (valid_upto ?e s) =>
    first [exact (slow_path_ok e s Hb) | exact (utf8_verifystr_ok s Hb)
          | exact (nul_loop_ok e s Hb (fun a => single_byte_char e a eq_refl))] end.
Qed.

(** C20: The UTF-8 validator, with its chunk test, its shift-based automaton and its
    backtracking, returns what the validation character by character returns. *)
Theorem pg_utf8_verifystr_fast s :
  bytes s -> pg_utf8_verifystr s (zlen s) = verify_loop pg_utf8_verifychar s 0 (zlen s).
Proof.
  intros Hb. destruct (returns_eq _ _ (utf8_verifystr_ok s Hb)) as (n & -> & Hn).
  destruct (returns_eq _ _ (slow_path_ok PG_UTF8 s Hb)) as (m & Hm & Hmv).
  change (verify_loop pg_utf8_verifychar s 0 (zlen s) = Ok m) in Hm. rewrite Hm.
  by rewrite (valid_upto_unique _ _ _ _ Hn Hmv).
Qed.

(** 62 letters, a character across the end of the second chunk, another one, and the
    beginning of a third. *)
Definition sample_utf8 : list Z := zrep 62 65 ++ [0xE2; 0x82; 0xAC; 0xC3; 0xA9; 0xE2; 0x82].

Lemma pg_verifymbstr_correct_witness :
  exists n, pg_encoding_verifymbstr PG_UTF8 sample_utf8 (zlen sample_utf8) = Ok n /\ valid_upto PG_UTF8 sample_utf8 n.
Proof. apply (pg_verifymbstr_correct PG_UTF8 sample_utf8). solve_bytes. Defined.

Lemma pg_utf8_verifystr_fast_witness :
  pg_utf8_verifystr sample_utf8 (zlen sample_utf8) = verify_loop pg_utf8_verifychar sample_utf8 0 (zlen sample_utf8) /\
  pg_utf8_verifystr sample_utf8 (zlen sample_utf8) = Ok 67.
Proof.
  split; [|vm_compute; reflexivity]. apply (pg_utf8_verifystr_fast sample_utf8). solve_bytes.
Defined.
