(* ===== verification/StringInfo.v ===== *)
(** src/common/stringinfo.c: string buffers that grow.  The functions that format
    (appendStringInfo, appendStringInfoVA) are not modelled.

    [si_data] is the allocated block, of [maxlen] bytes; what palloc and repalloc leave
    in new memory is not looked at before it is written. *)

From S2P Require Import Prelude.

Record StringInfoData := {
  si_data : list Z;
  si_len : Z;
  si_maxlen : Z;
  si_cursor : Z
}.

Definition resetStringInfo (str : StringInfoData) : res StringInfoData :=
  data ← wr (si_data str) 0 [0];
  Ok {| si_data := data; si_len := 0; si_maxlen := si_maxlen str; si_cursor := 0 |}.

Definition initStringInfo : res StringInfoData :=
  let size := 1024 in
  _ ← palloc size;
  resetStringInfo {| si_data := zrep size 0; si_len := 0; si_maxlen := size; si_cursor := 0 |}.

Definition double_body (needed newlen : Z) : res (Z + Z) :=
  if needed >? newlen then Ok (inl (int32_of (2 * newlen))) else Ok (inr newlen).

(** [needed] is an int; its comparison with MaxAllocSize - len is one of Size. *)
Definition enlargeStringInfo (str : StringInfoData) (needed : Z) : res StringInfoData :=
  if needed <? 0 then Ereport ERRCODE_INTERNAL_ERROR else
  if needed >=? (MaxAllocSize - si_len str) mod 2 ^ 64 then Ereport ERRCODE_PROGRAM_LIMIT_EXCEEDED else
  let needed := needed + (si_len str + 1) in
  if needed <=? si_maxlen str then Ok str else
  newlen ← iter 32 (double_body needed) (int32_of (2 * si_maxlen str));
  let newlen := if newlen >? MaxAllocSize then MaxAllocSize else newlen in
  _ ← palloc newlen;
  Ok {| si_data := take (Z.to_nat newlen) (si_data str) ++ zrep (newlen - zlen (si_data str)) 0;
        si_len := si_len str; si_maxlen := newlen; si_cursor := si_cursor str |}.

(** The first [datalen] bytes of [data] *)
Definition appendBinaryStringInfoNT (str : StringInfoData) (data : list Z) (datalen : Z) : res StringInfoData :=
  str ← enlargeStringInfo str datalen;
  x ← rdn data 0 datalen;
  d ← wr (si_data str) (si_len str) x;
  Ok {| si_data := d; si_len := si_len str + datalen; si_maxlen := si_maxlen str; si_cursor := si_cursor str |}.

Definition appendBinaryStringInfo (str : StringInfoData) (data : list Z) (datalen : Z) : res StringInfoData :=
  str ← enlargeStringInfo str datalen;
  x ← rdn data 0 datalen;
  d ← wr (si_data str) (si_len str) x;
  let len := si_len str + datalen in
  d ← wr d len [0];
  Ok {| si_data := d; si_len := len; si_maxlen := si_maxlen str; si_cursor := si_cursor str |}.

(** [s] is the string without its NUL. *)
Definition appendStringInfoString (str : StringInfoData) (s : list Z) : res StringInfoData :=
  appendBinaryStringInfo str s (zlen s).

Definition appendStringInfoChar (str : StringInfoData) (ch : Z) : res StringInfoData :=
  str ← (if si_len str + 1 >=? si_maxlen str then enlargeStringInfo str 1 else Ok str);
  d ← wr (si_data str) (si_len str) [ch];
  d ← wr d (si_len str + 1) [0];
  Ok {| si_data := d; si_len := si_len str + 1; si_maxlen := si_maxlen str; si_cursor := si_cursor str |}.

Definition appendStringInfoSpaces (str : StringInfoData) (count : Z) : res StringInfoData :=
  if count >? 0 then
    str ← enlargeStringInfo str count;
    d ← wr (si_data str) (si_len str) (zrep count 32);
    d ← wr d (si_len str + count) [0];
    Ok {| si_data := d; si_len := si_len str + count; si_maxlen := si_maxlen str; si_cursor := si_cursor str |}
  else Ok str.

(** ** The buffer holds a string *)

(** [si_ok str s]: the buffer holds the bytes [s] and a NUL, within what is allocated. *)
Record si_ok (str : StringInfoData) (s : list Z) : Prop := {
  so_data : exists rest, si_data str = s ++ 0 :: rest;
  so_len : si_len str = zlen s;
  so_maxlen : si_maxlen str = zlen (si_data str);
  so_limit : si_maxlen str <= MaxAllocSize
}.

Lemma si_init_ok : exists str, initStringInfo = Ok str /\ si_ok str [].
Proof. eexists. split; [vm_compute; reflexivity|]. split; [by eexists|done|done|done]. Qed.

Lemma reset_ok str s : si_ok str s -> exists str', resetStringInfo str = Ok str' /\ si_ok str' [].
Proof.
  intros [[r Hd] Hl Hm Hx]. unfold resetStringInfo. pose proof (zlen_nonneg r). pose proof (zlen_nonneg s).
  change 0 with (zlen (@nil Z)) at 1. rewrite <- (app_nil_l (si_data str)), wr_append by (rewrite Hd; zl). bind.
  eexists. split; [done|]. split; simpl; [by eexists|done| |done].
  rewrite Hm. rewrite Hd. zl.
Qed.

Lemma double_ok needed m :
  1 <= m -> m < needed <= MaxAllocSize ->
  exists n, iter 32 (double_body needed) (int32_of (2 * m)) = Ok n /\ needed <= n.
Proof.
  intros Hm Hn. apply returns_eq.
  assert (Hi : forall x, 0 <= x <= MaxAllocSize -> int32_of (2 * x) = 2 * x).
  { intros x Hx. unfold int32_of, MaxAllocSize in *. rewrite Z.mod_small by lia. by replace (2 * x <? 2 ^ 31) with true by lia. }
  rewrite Hi by lia.
  apply (iter_returns (fun x => 2 <= x) (fun x => Z.to_nat (31 - Z.log2 x)) (fun n => needed <= n)).
  - intros x Hx. unfold double_body. destruct (Z.gtb_spec needed x) as [Hlt|Hge]; simpl; [|lia].
    rewrite Hi by lia. split; [lia|]. rewrite Z.log2_double by lia.
    assert (Z.log2 x <= 29) by (apply (Z.log2_le_mono _ MaxAllocSize); lia). lia.
  - lia.
  - pose proof (Z.log2_nonneg (2 * m)). lia.
Qed.

(** [si_raw str s]: the same without the NUL, as the functions that do not keep one leave it *)
Record si_raw (str : StringInfoData) (s : list Z) : Prop := {
  sr_data : exists b rest, si_data str = s ++ b :: rest;
  sr_len : si_len str = zlen s;
  sr_maxlen : si_maxlen str = zlen (si_data str);
  sr_limit : si_maxlen str <= MaxAllocSize
}.

Lemma si_ok_raw str s : si_ok str s -> si_raw str s.
Proof. intros [[rest Hd] Hl Hm Hx]. split; try done. by exists 0, rest. Qed.

(** Room is made exactly if the result and its NUL can be allocated; what the buffer has is
    kept. *)
Lemma enlarge_raw str s n :
  si_raw str s -> 0 <= n ->
  if zlen s + n <? MaxAllocSize
  then exists pad, enlargeStringInfo str n =
      Ok {| si_data := si_data str ++ pad; si_len := zlen s; si_maxlen := zlen (si_data str ++ pad); si_cursor := si_cursor str |} /\
    zlen s + n + 1 <= zlen (si_data str ++ pad) <= MaxAllocSize
  else enlargeStringInfo str n = Ereport ERRCODE_PROGRAM_LIMIT_EXCEEDED.
Proof.
  intros [(b & r & Hd) Hl Hm Hx] Hn. unfold enlargeStringInfo. pose proof (zlen_nonneg s). pose proof (zlen_nonneg r).
  assert (Hz : zlen (si_data str) = zlen s + 1 + zlen r) by (rewrite Hd; zl).
  rewrite (proj2 (Z.ltb_ge n 0)), Hl, Z.mod_small by (unfold MaxAllocSize in *; lia).
  rewrite Z.geb_leb. destruct (Z.ltb_spec (zlen s + n) MaxAllocSize); destruct (Z.leb_spec (MaxAllocSize - zlen s) n); try lia; [|done].
  destruct (Z.leb_spec (n + (zlen s + 1)) (si_maxlen str)).
  { exists []. rewrite app_nil_r, <- Hm, <- Hl. split; [by destruct str|lia]. }
  destruct (double_ok (n + (zlen s + 1)) (si_maxlen str)) as (m & -> & Hnm); [lia..|]. bind.
  set (m' := if m >? MaxAllocSize then MaxAllocSize else m).
  assert (Hm' : n + (zlen s + 1) <= m' <= MaxAllocSize) by (unfold m'; destruct (Z.gtb_spec m MaxAllocSize); lia).
  rewrite palloc_ok by lia. bind. exists (zrep (m' - zlen (si_data str)) 0). rewrite take_ge by (unfold zlen in *; lia).
  assert (Hz' : zlen (si_data str ++ zrep (m' - zlen (si_data str)) 0) = m') by zl. rewrite Hz'. split; [done|lia].
Qed.

Lemma enlarge_ok str s n :
  si_ok str s -> 0 <= n ->
  if zlen s + n <? MaxAllocSize
  then exists str', enlargeStringInfo str n = Ok str' /\ si_ok str' s /\ zlen s + n + 1 <= si_maxlen str'
  else enlargeStringInfo str n = Ereport ERRCODE_PROGRAM_LIMIT_EXCEEDED.
Proof.
  intros Hs Hn. pose proof (enlarge_raw str s n (si_ok_raw _ _ Hs) Hn) as He. destruct (zlen s + n <? MaxAllocSize); [|done].
  destruct He as (pad & -> & Hz). eexists. split; [done|]. split; [|simpl; lia]. destruct Hs as [[r Hd] _ _ _].
  split; simpl; [|done|done|lia]. rewrite Hd, <- app_assoc, <- app_comm_cons. by eexists.
Qed.

(** Writing after the string and closing it with a NUL *)
Lemma append_at str s x :
  si_raw str s -> zlen s + zlen x + 1 <= si_maxlen str ->
  exists d rest, wr (si_data str) (si_len str) x = Ok d /\ wr d (si_len str + zlen x) [0] = Ok (s ++ x ++ 0 :: rest) /\
    zlen (s ++ x ++ 0 :: rest) = si_maxlen str.
Proof.
  intros [(b & r & Hd) Hl Hm Hx] Hr. rewrite Hm, Hd in Hr. rewrite Hd, Hl, wr_append by zl.
  eexists. exists (drop (S (length x)) (b :: r)). split; [done|]. rewrite <- zlen_app, wr_append by (zl; unfold zlen in *; lia).
  rewrite drop_drop. simpl (length [0]). replace (length x + 1)%nat with (S (length x)) by lia.
  split; [by rewrite <- !app_assoc|]. rewrite Hm, Hd. zl; unfold zlen in *; simpl in *; lia.
Qed.

Definition append_spec (f : res StringInfoData) (s x : list Z) : Prop :=
  if zlen s + zlen x <? MaxAllocSize then exists str', f = Ok str' /\ si_ok str' (s ++ x)
  else f = Ereport ERRCODE_PROGRAM_LIMIT_EXCEEDED.

Lemma append_binary_raw str s x k : si_raw str s -> append_spec (appendBinaryStringInfo str (x ++ k) (zlen x)) s x.
Proof.
  intros Hs. unfold append_spec, appendBinaryStringInfo. pose proof (enlarge_raw str s (zlen x) Hs (zlen_nonneg x)) as He.
  destruct (zlen s + zlen x <? MaxAllocSize); [|by rewrite He].
  destruct He as (pad & -> & Hm). bind. change (x ++ k) with ([] ++ x ++ k). rewrite rdn_middle by done. bind.
  set (str' := {| si_data := _ |}). assert (Hs' : si_raw str' s).
  { destruct Hs as [(b & r & Hd) _ _ _]. split; simpl; [|done|done|lia]. exists b, (r ++ pad). by rewrite Hd, <- app_assoc. }
  destruct (append_at str' s x Hs') as (d & rest & Hw1 & Hw & Hz); [simpl; lia|].
  rewrite Hw1. bind. rewrite Hw. bind. eexists. split; [done|].
  split; simpl; [exists rest; by rewrite <- app_assoc|zl|done|lia].
Qed.
Lemma append_binary_ok str s x k : si_ok str s -> append_spec (appendBinaryStringInfo str (x ++ k) (zlen x)) s x.
Proof. intros Hs. apply append_binary_raw, si_ok_raw, Hs. Qed.

Lemma append_spec_bind m f s x y :
  append_spec m s x -> (forall str, si_ok str (s ++ x) -> append_spec (f str) (s ++ x) y) ->
  append_spec (m ≫= f) s (x ++ y).
Proof.
  unfold append_spec. intros Hm Hf. rewrite zlen_app. pose proof (zlen_nonneg y).
  destruct (Z.ltb_spec (zlen s + zlen x) MaxAllocSize).
  - destruct Hm as (str & -> & Hs). bind. specialize (Hf str Hs). rewrite zlen_app in Hf.
    replace (zlen s + (zlen x + zlen y)) with (zlen s + zlen x + zlen y) by lia.
    case_match; [|done]. destruct Hf as (str' & -> & Hs'). exists str'. by rewrite app_assoc.
  - rewrite Hm, (proj2 (Z.ltb_ge _ _)) by lia. done.
Qed.

Lemma append_char_ok str s c : si_ok str s -> append_spec (appendStringInfoChar str c) s [c].
Proof.
  intros Hs. unfold append_spec, appendStringInfoChar. pose proof (enlarge_ok str s 1 Hs ltac:(lia)) as He. change (zlen [c]) with 1.
  assert (Hroom : (if si_len str + 1 >=? si_maxlen str then enlargeStringInfo str 1 else Ok str) =
    (if zlen s + 1 <? MaxAllocSize then enlargeStringInfo str 1 else Ereport ERRCODE_PROGRAM_LIMIT_EXCEEDED)).
  { rewrite (so_len _ _ Hs), Z.geb_leb. pose proof (so_limit _ _ Hs). destruct (Z.leb_spec (si_maxlen str) (zlen s + 1)).
    - by destruct (zlen s + 1 <? MaxAllocSize).
    - rewrite (proj2 (Z.ltb_lt _ _)) by lia. unfold enlargeStringInfo. rewrite (so_len _ _ Hs). pose proof (zlen_nonneg s).
      rewrite Z.mod_small by (unfold MaxAllocSize in *; lia). destruct (Z.geb_spec 1 (MaxAllocSize - zlen s)); [lia|].
      by replace (1 + (zlen s + 1) <=? si_maxlen str) with true by lia. }
  rewrite Hroom. clear Hroom. destruct (zlen s + 1 <? MaxAllocSize); [|done].
  destruct He as (str' & -> & Hs' & Hm). bind.
  destruct (append_at str' s [c] (si_ok_raw _ _ Hs') Hm) as (d & rest & -> & Hw & Hz). change (zlen [c]) with 1 in Hw. bind. rewrite Hw. bind.
  eexists. split; [done|]. destruct Hs' as [_ Hl' Hm' Hx']. split; simpl; [exists rest; by rewrite <- app_assoc|rewrite Hl'; zl|done|done].
Qed.

Lemma append_spaces_ok str s n : si_ok str s -> 0 < n -> append_spec (appendStringInfoSpaces str n) s (zrep n 32).
Proof.
  intros Hs Hn. unfold append_spec, appendStringInfoSpaces. pose proof (enlarge_ok str s n Hs ltac:(lia)) as He.
  assert (Hz32 : zlen (zrep n 32) = n) by zl. rewrite Hz32. replace (n >? 0) with true by lia.
  destruct (zlen s + n <? MaxAllocSize); [|by rewrite He]. destruct He as (str' & -> & Hs' & Hm). bind.
  destruct (append_at str' s (zrep n 32) (si_ok_raw _ _ Hs')) as (d & rest & -> & Hw & Hz); [lia|]. rewrite Hz32 in Hw. bind. rewrite Hw. bind.
  eexists. split; [done|]. destruct Hs' as [_ Hl' Hm' Hx'].
  split; simpl; [exists rest; by rewrite <- app_assoc|rewrite Hl', zlen_app; lia|done|done].
Qed.

(** ** Sequences of operations *)

Inductive si_op :=
| AppendBinary (x : list Z)
| AppendChar (c : Z)
| AppendSpaces (n : Z)
| Reset_.

Definition si_step (str : StringInfoData) (o : si_op) : res StringInfoData :=
  match o with
  | AppendBinary x => appendBinaryStringInfo str x (zlen x)
  | AppendChar c => appendStringInfoChar str c
  | AppendSpaces n => appendStringInfoSpaces str n
  | Reset_ => resetStringInfo str
  end.
Fixpoint si_run (str : StringInfoData) (os : list si_op) : res StringInfoData :=
  match os with [] => Ok str | o :: os => str ← si_step str o; si_run str os end.

(** The string an abstract buffer holds: None once it would reach 1 GB. *)
Definition si_add (s x : list Z) : option (list Z) :=
  if (zlen x =? 0) || (zlen s + zlen x <? MaxAllocSize) then Some (s ++ x) else None.
Definition si_value (s : list Z) (o : si_op) : option (list Z) :=
  match o with
  | AppendBinary x => si_add s x
  | AppendChar c => si_add s [c]
  | AppendSpaces n => si_add s (zrep n 32)
  | Reset_ => Some []
  end.

Lemma append_spec_add f s x :
  zlen s < MaxAllocSize -> append_spec f s x ->
  match si_add s x with
  | Some s' => exists str', f = Ok str' /\ si_ok str' s'
  | None => f = Ereport ERRCODE_PROGRAM_LIMIT_EXCEEDED
  end.
Proof.
  unfold append_spec, si_add. intros Hs Hf. destruct (Z.ltb_spec (zlen s + zlen x) MaxAllocSize); [by rewrite orb_true_r|].
  destruct (Z.eqb_spec (zlen x) 0); [lia|done].
Qed.

Lemma si_ok_limit str s : si_ok str s -> zlen s < MaxAllocSize.
Proof. intros [[r Hd] _ Hm Hx]. rewrite Hd in Hm. zl. Qed.

Lemma si_step_ok str s o :
  si_ok str s ->
  match si_value s o with
  | Some s' => exists str', si_step str o = Ok str' /\ si_ok str' s'
  | None => si_step str o = Ereport ERRCODE_PROGRAM_LIMIT_EXCEEDED
  end.
Proof.
  intros Hs. pose proof (si_ok_limit _ _ Hs) as Hlim. destruct o as [x|c|n|]; simpl.
  - apply append_spec_add; [done|]. rewrite <- (app_nil_r x) at 1. by apply append_binary_ok.
  - by apply append_spec_add, append_char_ok.
  - destruct (Z.lt_ge_cases 0 n); [by apply append_spec_add, append_spaces_ok|].
    unfold appendStringInfoSpaces, zrep. replace (Z.to_nat n) with 0%nat by lia. simpl. rewrite app_nil_r.
    replace (n >? 0) with false by lia. by exists str.
  - by apply (reset_ok str s).
Qed.

(** C35: Every sequence of operations on a string buffer gives the string that the same
    operations give on an unbounded string, with its NUL inside the block that is allocated,
    as long as no string on the way reaches MaxAllocSize; and the first operation that would
    reach it fails with program_limit_exceeded.  The doubling loop ends without overflow. *)
Theorem stringinfo_refines os :
  match foldl (fun s o => s ≫= fun s => si_value s o) (Some []) os with
  | Some s => exists str, (str ← initStringInfo; si_run str os) = Ok str /\ si_ok str s
  | None => (str ← initStringInfo; si_run str os) = Ereport ERRCODE_PROGRAM_LIMIT_EXCEEDED
  end.
Proof.
  destruct si_init_ok as (str & -> & Hs). bind. revert str Hs. generalize (@nil Z) as s.
  induction os as [|o os IH]; intros s str Hs; simpl; [by exists str|].
  pose proof (si_step_ok str s o Hs) as Ho. destruct (si_value s o) as [s'|].
  - destruct Ho as (str' & -> & Hs'). bind. by apply IH.
  - rewrite Ho. bind. by replace (foldl _ None os) with (@None (list Z)) by (clear; by induction os).
Qed.
