(* ===== verification/PqFormat.v ===== *)
(** Messages in the wire format: the part of src/backend/libpq/pqformat.c and pqformat.h that
    the binary input and output functions use.  A message is a string buffer; it is written
    at its end and read at its cursor.  Integers are in network byte order. *)

From S2P Require Import Prelude Varatt StringInfo.

(** The bytes of pg_hton16(i) and pg_hton32(i) in memory, most significant first *)
Definition be16 (i : Z) : list Z := [Z.shiftr i 8 mod 256; i mod 256].
Definition be32 (i : Z) : list Z := [Z.shiftr i 24 mod 256; Z.shiftr i 16 mod 256; Z.shiftr i 8 mod 256; i mod 256].

(** ** Writing *)

(** pq_writeint8, pq_writeint16 and pq_writeint32 copy the bytes where there is room, and
    leave no NUL after them. *)
Definition pq_write (buf : StringInfoData) (ni : list Z) : res StringInfoData :=
  d ← wr (si_data buf) (si_len buf) ni;
  Ok {| si_data := d; si_len := si_len buf + zlen ni; si_maxlen := si_maxlen buf; si_cursor := si_cursor buf |}.
Definition pq_sendint8 (buf : StringInfoData) (i : Z) : res StringInfoData :=
  buf ← enlargeStringInfo buf 1; pq_write buf [i mod 256].
Definition pq_sendint16 (buf : StringInfoData) (i : Z) : res StringInfoData :=
  buf ← enlargeStringInfo buf 2; pq_write buf (be16 i).
Definition pq_sendint32 (buf : StringInfoData) (i : Z) : res StringInfoData :=
  buf ← enlargeStringInfo buf 4; pq_write buf (be32 i).
Definition pq_sendint (buf : StringInfoData) (i b : Z) : res StringInfoData :=
  if b =? 1 then pq_sendint8 buf i
  else if b =? 2 then pq_sendint16 buf i
  else if b =? 4 then pq_sendint32 buf i
  else Ereport ERRCODE_INTERNAL_ERROR.
Definition pq_sendbytes (buf : StringInfoData) (data : list Z) (datalen : Z) : res StringInfoData :=
  appendBinaryStringInfo buf data datalen.

Definition appendStringInfoCharMacro (str : StringInfoData) (ch : Z) : res StringInfoData :=
  if si_len str + 1 >=? si_maxlen str then appendStringInfoChar str ch else
  d ← wr (si_data str) (si_len str) [ch];
  d ← wr d (si_len str + 1) [0];
  Ok {| si_data := d; si_len := si_len str + 1; si_maxlen := si_maxlen str; si_cursor := si_cursor str |}.
Definition pq_begintypsend : res StringInfoData :=
  buf ← initStringInfo;
  buf ← appendStringInfoCharMacro buf 0;
  buf ← appendStringInfoCharMacro buf 0;
  buf ← appendStringInfoCharMacro buf 0;
  appendStringInfoCharMacro buf 0.
(** The buffer itself is the result. *)
Definition pq_endtypsend (buf : StringInfoData) : list Z := SET_VARSIZE (si_data buf) (si_len buf).

(** ** Reading *)

Definition with_cursor (msg : StringInfoData) (cursor : Z) : StringInfoData :=
  {| si_data := si_data msg; si_len := si_len msg; si_maxlen := si_maxlen msg; si_cursor := cursor |}.

Definition pq_getmsgbyte (msg : StringInfoData) : res (Z * StringInfoData) :=
  if si_cursor msg >=? si_len msg then Ereport ERRCODE_PROTOCOL_VIOLATION else
  b ← rd (si_data msg) (si_cursor msg);
  Ok (b, with_cursor msg (si_cursor msg + 1)).
(** The pointer into the message is the bytes from there on. *)
Definition pq_getmsgbytes (msg : StringInfoData) (datalen : Z) : res (list Z * StringInfoData) :=
  if (datalen <? 0) || (datalen >? si_len msg - si_cursor msg) then Ereport ERRCODE_PROTOCOL_VIOLATION else
  Ok (drop (Z.to_nat (si_cursor msg)) (si_data msg), with_cursor msg (si_cursor msg + datalen)).
Definition pq_copymsgbytes (msg : StringInfoData) (datalen : Z) : res (list Z * StringInfoData) :=
  if (datalen <? 0) || (datalen >? si_len msg - si_cursor msg) then Ereport ERRCODE_PROTOCOL_VIOLATION else
  buf ← rdn (si_data msg) (si_cursor msg) datalen;
  Ok (buf, with_cursor msg (si_cursor msg + datalen)).
(** The bytes read, most significant first *)
Definition ntoh (l : list Z) : Z := foldl (fun n b => 256 * n + b) 0 l.
Definition pq_getmsgint (msg : StringInfoData) (b : Z) : res (Z * StringInfoData) :=
  if (b =? 1) || (b =? 2) || (b =? 4) then
    x ← pq_copymsgbytes msg b;
    Ok (ntoh x.1, x.2)
  else Ereport ERRCODE_INTERNAL_ERROR.
Definition pq_getmsgend (msg : StringInfoData) : res unit :=
  if negb (si_cursor msg =? si_len msg) then Ereport ERRCODE_PROTOCOL_VIOLATION else Ok tt.

(** ** Lemmas *)

Lemma ntoh_be32 i : ntoh (be32 i) = i mod 2 ^ 32.
Proof.
  unfold ntoh, be32. simpl foldl. rewrite !Z.shiftr_div_pow2 by lia. change (2 ^ 8) with 256. change (2 ^ 16) with 65536. change (2 ^ 24) with 16777216. change (2 ^ 32) with 4294967296.
  Z.div_mod_to_equations. lia.
Qed.
Lemma ntoh_be16 i : ntoh (be16 i) = i mod 2 ^ 16.
Proof. unfold ntoh, be16. simpl foldl. rewrite Z.shiftr_div_pow2 by lia. change (2 ^ 8) with 256. change (2 ^ 16) with 65536. Z.div_mod_to_equations. lia. Qed.

(** Writing bytes without a NUL *)
Lemma pq_write_ok buf s x :
  si_raw buf s -> zlen s + zlen x < MaxAllocSize ->
  exists buf', (buf ← enlargeStringInfo buf (zlen x); pq_write buf x) = Ok buf' /\ si_raw buf' (s ++ x) /\ si_cursor buf' = si_cursor buf.
Proof.
  intros Hs Hx. pose proof (enlarge_raw buf s (zlen x) Hs (zlen_nonneg x)) as He. rewrite (proj2 (Z.ltb_lt _ _) Hx) in He.
  destruct He as (pad & -> & Hm). bind. unfold pq_write. cbn [si_data si_len si_maxlen si_cursor]. destruct Hs as [(b & r & Hd) _ _ _].
  rewrite Hd in *. rewrite <- app_assoc in *. rewrite wr_append by (rewrite zlen_app in Hm; lia). bind. eexists. split; [done|]. split; [|done].
  set (rest := drop (length x) ((b :: r) ++ pad)). assert (Hr : zlen rest = zlen ((b :: r) ++ pad) - zlen x) by (rewrite zlen_app in Hm; unfold rest, zlen in *; rewrite length_drop; lia).
  split; cbn [si_data si_len si_maxlen].
  - destruct rest as [|b' r']; [|by exists b', r']. rewrite zlen_app in Hm. change (zlen []) with 0 in Hr. lia.
  - by rewrite zlen_app.
  - rewrite (zlen_app (s ++ x)), Hr, !zlen_app. lia.
  - lia.
Qed.

Lemma char_macro str ch : appendStringInfoCharMacro str ch = appendStringInfoChar str ch.
Proof. unfold appendStringInfoCharMacro, appendStringInfoChar. destruct (_ >=? _); done. Qed.

(** Enlarging and appending leave the cursor alone. *)
Lemma enlarge_cursor str n str' : enlargeStringInfo str n = Ok str' -> si_cursor str' = si_cursor str.
Proof.
  unfold enlargeStringInfo. destruct (n <? 0); [done|]. destruct (_ >=? _); [done|]. destruct (_ <=? _); [by intros [= <-]|].
  intros H. apply res_bind_Ok in H as (m & _ & H). apply res_bind_Ok in H as (u & _ & H). by injection H as <-.
Qed.
Lemma append_cursor str data n str' : appendBinaryStringInfo str data n = Ok str' -> si_cursor str' = si_cursor str.
Proof.
  unfold appendBinaryStringInfo. intros H. apply res_bind_Ok in H as (s1 & H1 & H). apply res_bind_Ok in H as (x & _ & H).
  apply res_bind_Ok in H as (d & _ & H). apply res_bind_Ok in H as (d' & _ & H). injection H as <-. by apply enlarge_cursor in H1.
Qed.

(** Four bytes for the length word, then what is written *)
Lemma begintypsend_ok : exists buf, pq_begintypsend = Ok buf /\ si_raw buf (zrep 4 0).
Proof.
  destruct si_init_ok as (b0 & Hb & H0). unfold pq_begintypsend. rewrite Hb. bind. rewrite !char_macro.
  destruct (append_char_ok b0 [] 0 H0) as (b1 & -> & H1). bind. rewrite char_macro. destruct (append_char_ok b1 _ 0 H1) as (b2 & -> & H2). bind. rewrite char_macro.
  destruct (append_char_ok b2 _ 0 H2) as (b3 & -> & H3). bind. rewrite char_macro. destruct (append_char_ok b3 _ 0 H3) as (b4 & -> & H4). exists b4. split; [done|]. by apply si_ok_raw.
Qed.
Lemma endtypsend_ok buf x : si_raw buf (zrep 4 0 ++ x) -> zlen x + 4 < 2 ^ 30 -> exists t, pq_endtypsend buf = mk_4b_u x ++ t.
Proof.
  intros [(b & r & Hd) Hl _ _] Hx. exists (b :: r). unfold pq_endtypsend. rewrite Hl, Hd, zlen_app. change (zlen (zrep 4 0)) with 4.
  unfold SET_VARSIZE, SET_VARSIZE_4B, mk_4b_u, wrap32. rewrite Z.mod_small by (pose proof (zlen_nonneg x); lia). rewrite Z.shiftl_mul_pow2 by lia.
  rewrite <- !app_assoc. f_equal. f_equal. change (2 ^ 2) with 4. lia.
Qed.

(** Reading at the cursor of a buffer that holds what is written *)
Lemma copymsgbytes_ok msg a x c : si_raw msg (a ++ x ++ c) -> si_cursor msg = zlen a ->
  pq_copymsgbytes msg (zlen x) = Ok (x, with_cursor msg (zlen a + zlen x)).
Proof.
  intros [(b & r & Hd) Hl _ _] Hc. unfold pq_copymsgbytes. rewrite Hc, Hl, !zlen_app. pose proof (zlen_nonneg x). pose proof (zlen_nonneg c).
  replace ((zlen x <? 0) || (zlen x >? zlen a + (zlen x + zlen c) - zlen a)) with false by lia. rewrite Hd, <- !app_assoc, rdn_middle by done. done.
Qed.
