(* ===== verification/Text.v ===== *)
(** The text type: src/backend/utils/adt/varlena.c, the functions that measure, cut, join
    and compare text values.

    Arguments are datums in any form the toaster uses.  [locale] is what pg_locale.c and
    the system's locale say of a collation; pg_strncoll is the only function of it that
    looks at strings.  memcmp is modelled by the sign of its result. *)

From S2P Require Import Prelude Rle Varatt Pglz PglzHist PglzItems PglzCodec ToastCompression Oids ToastStore Detoast Wchar.

Record locale := {
  collate_is_c : bool;
  deterministic : bool;
  strncoll : list Z -> list Z -> Z
}.

(** What the text functions look at: the values, the database encoding, the collations. *)
Record tenv := {
  t_env : env;
  t_enc : pg_enc;
  t_locale : Z -> locale
}.

Definition pg_add_s32_overflow (a b : Z) : option Z :=
  if (INT_MIN <=? a + b) && (a + b <=? INT_MAX) then Some (a + b) else None.
Definition pg_mul_s32_overflow (a b : Z) : option Z :=
  if (INT_MIN <=? a * b) && (a * b <=? INT_MAX) then Some (a * b) else None.

(** memcmp of the first n bytes *)
Fixpoint memcmp (s1 s2 : list Z) (n : nat) : res Z :=
  match n with
  | O => Ok 0
  | S n =>
      a ← rd s1 0; b ← rd s2 0;
      if a =? b then memcmp (drop 1 s1) (drop 1 s2) n else Ok (if a <? b then -1 else 1)
  end.

Definition cstring_to_text_with_len (s : list Z) (len : Z) : res (list Z) :=
  _ ← palloc (len + VARHDRSZ);
  data ← rdn s 0 len;
  Ok (SET_VARSIZE (zrep VARHDRSZ 0 ++ data) (len + VARHDRSZ)).
(** cstring_to_text: [s] is the string without its NUL. *)
Definition cstring_to_text (s : list Z) : res (list Z) := cstring_to_text_with_len s (zlen s).

Section text.
Context (T : tenv).

Definition eml : Z := pg_database_encoding_max_length (t_enc T).
Definition DatumGetTextPP (datum : list Z) : res (list Z) := pg_detoast_datum_packed (t_env T) datum.
Definition DatumGetTextPSlice (datum : list Z) (m n : Z) : res (list Z) :=
  pg_detoast_datum_slice (t_env T) datum m n.

(** The data pointer of a packed datum and its length. *)
Definition text_data (t : list Z) : res (list Z * Z) :=
  p ← VARDATA_ANY t; len ← VARSIZE_ANY_EXHDR t; Ok (drop (Z.to_nat p) t, len).

Definition text_to_cstring (t : list Z) : res (list Z) :=
  tunpacked ← DatumGetTextPP t;
  x ← text_data tunpacked;
  let '(p, len) := x in
  _ ← palloc (len + 1);
  data ← rdn p 0 len;
  Ok (data ++ [0]).

Definition text_to_cstring_buffer (src dst : list Z) (dst_len : Z) : res (list Z) :=
  srcunpacked ← DatumGetTextPP src;
  x ← text_data srcunpacked;
  let '(p, src_len) := x in
  if dst_len >? 0 then
    let dst_len := dst_len - 1 in
    dst_len ← (if dst_len >=? src_len then Ok src_len else pg_mbcliplen (t_enc T) p src_len dst_len);
    data ← rdn p 0 dst_len;
    dst ← wr dst 0 data;
    wr dst dst_len [0]
  else Ok dst.

Definition text_length (str : list Z) : res Z :=
  if eml =? 1 then sz ← toast_raw_datum_size (t_env T) str; Ok (sz - VARHDRSZ) else
  t ← DatumGetTextPP str;
  x ← text_data t;
  let '(p, len) := x in
  pg_mbstrlen_with_len (t_enc T) p len.
Definition textlen := text_length.
Definition textoctetlen (str : list Z) : res Z :=
  sz ← toast_raw_datum_size (t_env T) str; Ok (sz - VARHDRSZ).

Definition text_catenate (t1 t2 : list Z) : res (list Z) :=
  x1 ← text_data t1; x2 ← text_data t2;
  let '(p1, len1) := x1 in
  let '(p2, len2) := x2 in
  let len1 := if len1 <? 0 then 0 else len1 in
  let len2 := if len2 <? 0 then 0 else len2 in
  let len := len1 + len2 + VARHDRSZ in
  _ ← palloc len;
  d1 ← (if len1 >? 0 then rdn p1 0 len1 else Ok []);
  d2 ← (if len2 >? 0 then rdn p2 0 len2 else Ok []);
  Ok (SET_VARSIZE (zrep VARHDRSZ 0 ++ d1 ++ d2) len).
Definition textcat (t1 t2 : list Z) : res (list Z) :=
  t1 ← DatumGetTextPP t1; t2 ← DatumGetTextPP t2; text_catenate t1 t2.

(** n times p += pg_mblen(p); the result is the distance. *)
Fixpoint advance_chars (s : list Z) (p : Z) (n : nat) : res Z :=
  match n with
  | O => Ok p
  | S n => l ← pg_mblen (t_enc T) (drop (Z.to_nat p) s); advance_chars s (p + l) n
  end.

Definition charlen_to_bytelen (p : list Z) (n : Z) : res Z :=
  if eml =? 1 then Ok n else advance_chars p 0 (Z.to_nat n).

(** The end of the multibyte branch: the characters S1 .. E1 - 1 of the slice. *)
Definition cut_chars (slice : list Z) (S1 L1 : Z) : res (list Z) :=
  x ← text_data slice;
  let '(p, len) := x in
  if len =? 0 then cstring_to_text [] else
  slice_strlen ← pg_mbstrlen_with_len (t_enc T) p len;
  if S1 >? slice_strlen then cstring_to_text [] else
  let E1 := if L1 >? -1 then Z.min (S1 + L1) (0 + 1 + slice_strlen) else 0 + 1 + slice_strlen in
  s ← advance_chars p 0 (Z.to_nat (S1 - 1));
  e ← advance_chars p s (Z.to_nat (E1 - S1));
  _ ← palloc (VARHDRSZ + (e - s));
  data ← rdn p s (e - s);
  Ok (SET_VARSIZE (zrep VARHDRSZ 0 ++ data) (VARHDRSZ + (e - s))).

Definition text_substring (str : list Z) (start length : Z) (length_not_specified : bool) : res (list Z) :=
  let S := start in
  let S1 := Z.max S 1 in
  if eml =? 1 then
    if length_not_specified then DatumGetTextPSlice str (S1 - 1) (-1)
    else if length <? 0 then Ereport ERRCODE_SUBSTRING_ERROR
    else match pg_add_s32_overflow S length with
         | None => DatumGetTextPSlice str (S1 - 1) (-1)
         | Some E => if E <? 1 then cstring_to_text [] else DatumGetTextPSlice str (S1 - 1) (E - S1)
         end
  else if eml >? 1 then
    let go slice_size L1 :=
      c ← VARATT_IS_COMPRESSED str;
      toasted ← (if (c : bool) then Ok true else VARATT_IS_EXTERNAL str);
      slice ← (if (toasted : bool) then DatumGetTextPSlice str 0 slice_size else Ok str);
      cut_chars slice S1 L1 in
    if length_not_specified then go (-1) (-1)
    else if length <? 0 then Ereport ERRCODE_SUBSTRING_ERROR
    else match pg_add_s32_overflow S length with
         | None => go (-1) (-1)
         | Some E =>
             if E <? 1 then cstring_to_text [] else
             go (match pg_mul_s32_overflow E eml with Some n => n | None => -1 end) (E - S1)
         end
  else Ereport ERRCODE_INTERNAL_ERROR.

Definition text_substr (str : list Z) (start length : Z) : res (list Z) := text_substring str start length false.
Definition text_substr_no_len (str : list Z) (start : Z) : res (list Z) := text_substring str start (-1) true.

Definition text_overlay (t1 t2 : list Z) (sp sl : Z) : res (list Z) :=
  if sp <=? 0 then Ereport ERRCODE_SUBSTRING_ERROR else
  match pg_add_s32_overflow sp sl with
  | None => Ereport ERRCODE_NUMERIC_VALUE_OUT_OF_RANGE
  | Some sp_pl_sl =>
      s1 ← text_substring t1 1 (sp - 1) false;
      s2 ← text_substring t1 sp_pl_sl (-1) true;
      result ← text_catenate s1 t2;
      text_catenate result s2
  end.
Definition textoverlay (t1 t2 : list Z) (sp sl : Z) : res (list Z) :=
  t1 ← DatumGetTextPP t1; t2 ← DatumGetTextPP t2; text_overlay t1 t2 sp sl.
Definition textoverlay_no_len (t1 t2 : list Z) (sp : Z) : res (list Z) :=
  t1 ← DatumGetTextPP t1; t2 ← DatumGetTextPP t2; sl ← text_length t2; text_overlay t1 t2 sp sl.

Definition text_left (str : list Z) (n : Z) : res (list Z) :=
  if n <? 0 then
    str ← DatumGetTextPP str;
    x ← text_data str;
    let '(p, len) := x in
    strlen ← pg_mbstrlen_with_len (t_enc T) p len;
    rlen ← pg_mbcharcliplen (t_enc T) p len (strlen + n);
    cstring_to_text_with_len p rlen
  else text_substring str 1 n false.

(** -n wraps around for the least int. *)
Definition text_right (str : list Z) (n : Z) : res (list Z) :=
  str ← DatumGetTextPP str;
  x ← text_data str;
  let '(p, len) := x in
  n ← (if n <? 0 then Ok (int32_of (- n))
       else strlen ← pg_mbstrlen_with_len (t_enc T) p len; Ok (strlen - n));
  off ← pg_mbcharcliplen (t_enc T) p len n;
  cstring_to_text_with_len (drop (Z.to_nat off) p) (len - off).

(** The multibyte loop of text_reverse: characters are copied to the front of what is
    there; [dst] is the offset in the result's data. *)
Definition reverse_body (p : list Z) (endp : Z) (x : Z * Z * list Z) : res (Z * Z * list Z + list Z) :=
  let '(i, dst, result) := x in
  if i <? endp then
    sz ← pg_mblen (t_enc T) (drop (Z.to_nat i) p);
    data ← rdn p i sz;
    result ← wr result (dst - sz) data;
    Ok (inl (i + sz, dst - sz, result))
  else Ok (inr result).
Definition reverse_byte_body (p : list Z) (endp : Z) (x : Z * Z * list Z) : res (Z * Z * list Z + list Z) :=
  let '(i, dst, result) := x in
  if i <? endp then
    c ← rd p i;
    result ← wr result (dst - 1) [c];
    Ok (inl (i + 1, dst - 1, result))
  else Ok (inr result).
Definition text_reverse (str : list Z) : res (list Z) :=
  str ← DatumGetTextPP str;
  x ← text_data str;
  let '(p, len) := x in
  _ ← palloc (len + VARHDRSZ);
  let result := zrep len 0 in
  result ← iter (S (Z.to_nat len)) (if eml >? 1 then reverse_body p len else reverse_byte_body p len)
             (0, len, result);
  Ok (SET_VARSIZE (zrep VARHDRSZ 0 ++ result) (len + VARHDRSZ)).

(** ** Comparison *)

Definition check_collation_set (collid : Z) : res unit :=
  if OidIsValid collid then Ok tt else Ereport ERRCODE_INDETERMINATE_COLLATION.

Definition cmp_len (result len1 len2 : Z) : Z :=
  if (result =? 0) && negb (len1 =? len2) then (if len1 <? len2 then -1 else 1) else result.

Definition varstr_cmp (arg1 : list Z) (len1 : Z) (arg2 : list Z) (len2 : Z) (collid : Z) : res Z :=
  _ ← check_collation_set collid;
  let loc := t_locale T collid in
  if collate_is_c loc then
    result ← memcmp arg1 arg2 (Z.to_nat (Z.min len1 len2));
    Ok (cmp_len result len1 len2)
  else
    same ← (if len1 =? len2 then r ← memcmp arg1 arg2 (Z.to_nat len1); Ok (r =? 0) else Ok false);
    if (same : bool) then Ok 0 else
    s1 ← rdn arg1 0 len1; s2 ← rdn arg2 0 len2;
    let result := strncoll loc s1 s2 in
    if (result =? 0) && deterministic loc then
      result ← memcmp arg1 arg2 (Z.to_nat (Z.min len1 len2));
      Ok (cmp_len result len1 len2)
    else Ok result.

Definition text_cmp (arg1 arg2 : list Z) (collid : Z) : res Z :=
  x1 ← text_data arg1; x2 ← text_data arg2;
  varstr_cmp x1.1 x1.2 x2.1 x2.2 collid.

(** texteq and textne have the same two branches. *)
Definition text_same (arg1 arg2 : list Z) (collid : Z) : res bool :=
  _ ← check_collation_set collid;
  let loc := t_locale T collid in
  if collate_is_c loc || deterministic loc then
    len1 ← toast_raw_datum_size (t_env T) arg1;
    len2 ← toast_raw_datum_size (t_env T) arg2;
    if negb (len1 =? len2) then Ok false else
    targ1 ← DatumGetTextPP arg1; targ2 ← DatumGetTextPP arg2;
    x1 ← text_data targ1; x2 ← text_data targ2;
    r ← memcmp x1.1 x2.1 (Z.to_nat (len1 - VARHDRSZ));
    Ok (r =? 0)
  else
    arg1 ← DatumGetTextPP arg1; arg2 ← DatumGetTextPP arg2;
    r ← text_cmp arg1 arg2 collid;
    Ok (r =? 0).
Definition texteq (arg1 arg2 : list Z) (collid : Z) : res bool := text_same arg1 arg2 collid.
Definition textne (arg1 arg2 : list Z) (collid : Z) : res bool := r ← text_same arg1 arg2 collid; Ok (negb r).

Definition bttextcmp (arg1 arg2 : list Z) (collid : Z) : res Z :=
  arg1 ← DatumGetTextPP arg1; arg2 ← DatumGetTextPP arg2; text_cmp arg1 arg2 collid.
Definition text_lt (arg1 arg2 : list Z) (collid : Z) : res bool := r ← bttextcmp arg1 arg2 collid; Ok (r <? 0).
Definition text_le (arg1 arg2 : list Z) (collid : Z) : res bool := r ← bttextcmp arg1 arg2 collid; Ok (r <=? 0).
Definition text_gt (arg1 arg2 : list Z) (collid : Z) : res bool := r ← bttextcmp arg1 arg2 collid; Ok (r >? 0).
Definition text_ge (arg1 arg2 : list Z) (collid : Z) : res bool := r ← bttextcmp arg1 arg2 collid; Ok (r >=? 0).
Definition text_larger (arg1 arg2 : list Z) (collid : Z) : res (list Z) :=
  arg1 ← DatumGetTextPP arg1; arg2 ← DatumGetTextPP arg2;
  r ← text_cmp arg1 arg2 collid; Ok (if r >? 0 then arg1 else arg2).
Definition text_smaller (arg1 arg2 : list Z) (collid : Z) : res (list Z) :=
  arg1 ← DatumGetTextPP arg1; arg2 ← DatumGetTextPP arg2;
  r ← text_cmp arg1 arg2 collid; Ok (if r <? 0 then arg1 else arg2).

(** pg_locale_deterministic(0) is true: the C collation. *)
Definition search_locale_ok (collid : Z) : bool :=
  let loc := t_locale T collid in collate_is_c loc || deterministic loc.

Definition text_starts_with (arg1 arg2 : list Z) (collid : Z) : res bool :=
  _ ← check_collation_set collid;
  if negb (search_locale_ok collid) then Ereport ERRCODE_FEATURE_NOT_SUPPORTED else
  len1 ← toast_raw_datum_size (t_env T) arg1;
  len2 ← toast_raw_datum_size (t_env T) arg2;
  if len2 >? len1 then Ok false else
  targ1 ← text_substring arg1 1 len2 false;
  targ2 ← DatumGetTextPP arg2;
  x1 ← text_data targ1; x2 ← text_data targ2;
  r ← memcmp x1.1 x2.1 (Z.to_nat x2.2);
  Ok (r =? 0).

(** The operators for LIKE: bytes, whatever the collation. *)
Definition internal_text_pattern_compare (arg1 arg2 : list Z) : res Z :=
  x1 ← text_data arg1; x2 ← text_data arg2;
  let '(p1, len1) := x1 in
  let '(p2, len2) := x2 in
  result ← memcmp p1 p2 (Z.to_nat (Z.min len1 len2));
  Ok (if negb (result =? 0) then result
      else if len1 <? len2 then -1 else if len1 >? len2 then 1 else 0).
Definition bttext_pattern_cmp (arg1 arg2 : list Z) : res Z :=
  arg1 ← DatumGetTextPP arg1; arg2 ← DatumGetTextPP arg2; internal_text_pattern_compare arg1 arg2.
Definition text_pattern_lt (arg1 arg2 : list Z) : res bool := r ← bttext_pattern_cmp arg1 arg2; Ok (r <? 0).
Definition text_pattern_le (arg1 arg2 : list Z) : res bool := r ← bttext_pattern_cmp arg1 arg2; Ok (r <=? 0).
Definition text_pattern_gt (arg1 arg2 : list Z) : res bool := r ← bttext_pattern_cmp arg1 arg2; Ok (r >? 0).
Definition text_pattern_ge (arg1 arg2 : list Z) : res bool := r ← bttext_pattern_cmp arg1 arg2; Ok (r >=? 0).
End text.
