(* ===== verification/TextOps.v ===== *)
(** Text values as sequences of characters: the theorems about the functions of Text.v that
    measure, cut and join values.  A value is given by what it stands for ([holds]) and by
    its characters ([text_of]); results are plain datums. *)

From S2P Require Import Prelude Rle Varatt Pglz PglzHist PglzItems PglzCodec ToastCompression Oids ToastStore Detoast.
From S2P Require Import Wchar Mbchar Text.

(** [n] bytes and a header can be allocated. *)
Abbreviation fits n := (n + 4 < 2 ^ 30).

Lemma text_data_ok p data : inline_value p data -> exists t, text_data p = Ok (data ++ t, zlen data).
Proof.
  intros [d t Hd|d t Hd]; exists t; unfold text_data, VARDATA_ANY, VARSIZE_ANY_EXHDR; tags; tags; f_equal; f_equal.
  - unfold ok_4b_u, wrap32, VARHDRSZ in *. pose proof (zlen_nonneg d). rewrite Z.mod_small; lia.
  - unfold VARHDRSZ_SHORT. lia.
Qed.

Lemma make_text d : fits (zlen d) -> SET_VARSIZE (zrep VARHDRSZ 0 ++ d) (zlen d + VARHDRSZ) = mk_4b_u d.
Proof. apply set_varsize_slice. Qed.

Lemma cstring_to_text_ok s len :
  0 <= len <= zlen s -> fits len -> cstring_to_text_with_len s len = Ok (mk_4b_u (take (Z.to_nat len) s)).
Proof.
  intros Hl Hf. unfold cstring_to_text_with_len. rewrite palloc_ok by (unfold VARHDRSZ, MaxAllocSize; lia). bind.
  rewrite rdn_Ok by lia. bind. unfold zslice. rewrite drop_0. f_equal.
  rewrite <- make_text by zl. do 2 f_equal. zl.
Qed.

Lemma empty_text : cstring_to_text [] = Ok (mk_4b_u []).
Proof. done. Qed.

Section ops.
Context (T : tenv).

Lemma packed_ok_text v data :
  holds (t_env T) v data -> exists p t, DatumGetTextPP T v = Ok p /\ inline_value p data /\ text_data p = Ok (data ++ t, zlen data).
Proof.
  intros Hv. destruct (packed_datum_ok _ _ _ Hv) as (p & Hp & Hi). destruct (text_data_ok p data Hi) as [t Ht].
  by exists p, t.
Qed.

(** ** Lengths and joins *)

Lemma text_length_ok v data cs :
  holds (t_env T) v data -> text_of (t_enc T) cs data -> text_length T v = Ok (zlen cs).
Proof.
  intros Hv Hcs. unfold text_length. destruct (Z.eqb_spec (eml T) 1) as [H1|_].
  - rewrite (raw_size_ok _ _ _ Hv). bind. f_equal. unfold VARHDRSZ. destruct Hcs as [-> Hcs].
    rewrite (single_byte _ cs H1 Hcs). lia.
  - destruct (packed_ok_text v data Hv) as (p & t & -> & _ & Ht). bind. rewrite Ht. bind. by apply mbstrlen_ok.
Qed.

Lemma catenate_ok t1 t2 d1 d2 :
  inline_value t1 d1 -> inline_value t2 d2 ->
  text_catenate t1 t2 =
  if zlen d1 + zlen d2 + VARHDRSZ <=? MaxAllocSize then Ok (mk_4b_u (d1 ++ d2)) else Ereport ERRCODE_INTERNAL_ERROR.
Proof.
  intros H1 H2. destruct (text_data_ok _ _ H1) as [k1 E1]. destruct (text_data_ok _ _ H2) as [k2 E2].
  unfold text_catenate. rewrite E1, E2. bind. pose proof (zlen_nonneg d1). pose proof (zlen_nonneg d2).
  destruct (Z.ltb_spec (zlen d1) 0); [lia|]. destruct (Z.ltb_spec (zlen d2) 0); [lia|]. unfold palloc, VARHDRSZ.
  destruct (Z.leb_spec 0 (zlen d1 + zlen d2 + 4)); [|lia]. cbn [andb].
  destruct (Z.leb_spec (zlen d1 + zlen d2 + 4) MaxAllocSize) as [Hm|]; [|done]. bind.
  assert (Hd : forall d k, (if zlen d >? 0 then rdn (d ++ k) 0 (zlen d) else Ok []) = Ok d).
  { intros d k. destruct (Z.gtb_spec (zlen d) 0); [exact (rdn_middle [] d k 0 (zlen d) eq_refl eq_refl)|].
    by rewrite (zlen_0_nil d) by (pose proof (zlen_nonneg d); lia). }
  rewrite !Hd. bind. f_equal. rewrite <- make_text by (rewrite zlen_app; unfold MaxAllocSize in Hm; lia).
  by rewrite zlen_app.
Qed.

(** ** Walking over characters *)

Lemma advance_chars_ok cs pre k n :
  Forall (mbchar (t_enc T)) cs -> (n <= length cs)%nat ->
  advance_chars T (pre ++ concat cs ++ k) (zlen pre) n = Ok (zlen pre + zlen (concat (take n cs))).
Proof.
  intros Hcs. revert pre n. induction Hcs as [|c cs Hc _ IH]; intros pre n Hn.
  - destruct n; [|simpl in Hn; lia]. simpl. by rewrite Z.add_0_r.
  - destruct n as [|n]; simpl; [by rewrite Z.add_0_r|]. rewrite <- app_assoc, drop_zlen_app.
    unfold pg_mblen. rewrite mbchar_mblen by done. bind. rewrite <- zlen_app, app_assoc, IH by (simpl in Hn; lia).
    f_equal. zl.
Qed.
(** ** Substrings *)

(** SQL's SUBSTRING: the characters at the positions start .. start + length - 1, counted
    from 1, or all from start on. *)
Definition sql_substring (cs : list (list Z)) (start : Z) (len : option Z) : list (list Z) :=
  let s1 := Z.max start 1 in
  let rest := drop (Z.to_nat (s1 - 1)) cs in
  match len with None => rest | Some l => take (Z.to_nat (start + l - s1)) rest end.

Local Abbreviation enc := (t_enc T).

(** The end of the multibyte branch, on a slice that has the characters it needs. *)
Lemma cut_chars_ok v cs p S1 L1 :
  PG_VALID_BE_ENCODING enc = true ->
  inline_value v (concat cs ++ p) -> Forall (mbchar enc) cs -> 1 <= S1 -> -1 <= L1 ->
  p = [] \/ partial enc p /\ 0 <= L1 /\ S1 + L1 - 1 <= zlen cs ->
  cut_chars T v S1 L1 =
  Ok (mk_4b_u (concat (let rest := drop (Z.to_nat (S1 - 1)) cs in if L1 >? -1 then take (Z.to_nat L1) rest else rest))).
Proof.
  intros Hsrv Hv Hcs HS HL Hp. destruct (text_data_ok _ _ Hv) as [t Ht]. unfold cut_chars. rewrite Ht. bind.
  pose proof (inline_ok _ _ Hv) as Hok. unfold ok_4b_u in Hok. rewrite zlen_app in Hok.
  pose proof (concat_size enc cs Hcs) as Hsz. pose proof (zlen_nonneg p). pose proof (zlen_nonneg cs).
  destruct (Z.eqb_spec (zlen (concat cs ++ p)) 0) as [Hz|Hne].
  { rewrite zlen_app in Hz. rewrite (zlen_0_nil cs) by lia. rewrite drop_nil, take_nil. by destruct (L1 >? -1). }
  assert (Hlen : exists n, pg_mbstrlen_with_len enc ((concat cs ++ p) ++ t) (zlen (concat cs ++ p)) = Ok n /\
    (n = zlen cs \/ n = zlen cs + 1 /\ 0 <= L1 /\ S1 + L1 - 1 <= zlen cs)).
  { destruct Hp as [->|[Hp HSL]].
    - rewrite app_nil_r. exists (zlen cs). split; [|by left]. by apply mbstrlen_ok.
    - exists (zlen cs + 1). split; [|by right]. rewrite <- app_assoc. by apply mbstrlen_cut. }
  destruct Hlen as (n & -> & Hn). bind.
  destruct (Z.gtb_spec S1 n) as [Hgt|Hle].
  { rewrite empty_text, drop_ge by (unfold zlen in *; lia). rewrite take_nil. by destruct (L1 >? -1). }
  set (E1 := if L1 >? -1 then Z.min (S1 + L1) (0 + 1 + n) else 0 + 1 + n).
  assert (HE : S1 <= E1 <= zlen cs + 1) by (unfold E1; destruct (Z.gtb_spec L1 (-1)); lia).
  rewrite <- app_assoc. set (k := p ++ t).
  pose proof (advance_chars_ok cs [] k (Z.to_nat (S1 - 1)) Hcs) as Ha. rewrite zlen_nil, app_nil_l, Z.add_0_l in Ha.
  rewrite Ha by (unfold zlen in *; lia). bind. set (cs1 := take (Z.to_nat (S1 - 1)) cs).
  set (cs2 := drop (Z.to_nat (S1 - 1)) cs).
  assert (Hsplit : cs = cs1 ++ cs2) by (symmetry; apply take_drop).
  assert (Hl2 : (Z.to_nat (E1 - S1) <= length cs2)%nat) by (unfold cs2; rewrite length_drop; unfold zlen in *; lia).
  assert (Hmem : concat cs ++ k = concat cs1 ++ concat cs2 ++ k) by (rewrite Hsplit at 1; by rewrite concat_app, <- app_assoc).
  rewrite Hmem.
  assert (Hcs2 : Forall (mbchar enc) cs2) by (by apply Forall_drop).
  rewrite (advance_chars_ok cs2 (concat cs1) k) by done. bind.
  set (r := take (Z.to_nat (E1 - S1)) cs2).
  assert (H2 : concat cs2 = concat r ++ concat (drop (Z.to_nat (E1 - S1)) cs2)).
  { rewrite <- concat_app. f_equal. symmetry. apply take_drop. }
  assert (Hr : zlen (concat r) <= zlen (concat cs)) by (rewrite Hsplit, concat_app, H2; zl).
  replace (zlen (concat cs1) + zlen (concat r) - zlen (concat cs1)) with (zlen (concat r)) by lia.
  rewrite palloc_ok by (unfold VARHDRSZ, MaxAllocSize; zl). bind.
  rewrite H2, <- (app_assoc (concat r)).
  rewrite rdn_middle by done. bind. rewrite Z.add_comm, make_text by lia. do 3 f_equal.
  unfold r, E1. destruct (Z.gtb_spec L1 (-1)).
  - destruct (Z.le_gt_cases (S1 + L1) (0 + 1 + n)); [f_equal; lia|]. rewrite !take_ge; [done|..];
      unfold cs2; rewrite length_drop; unfold zlen in *; lia.
  - apply take_ge. unfold cs2. rewrite length_drop. unfold zlen in *. lia.
Qed.

Lemma toasted_test v data :
  holds (t_env T) v data ->
  exists b, (c ← VARATT_IS_COMPRESSED v; if (c : bool) then Ok true else VARATT_IS_EXTERNAL v) = Ok b /\
    (b = false -> inline_value v data).
Proof.
  intros [v' d [v0 d0 Hi|? ? ? t|tp ? ? t|? ? ? t]|]; try (exists true; tags; done).
  exists false. destruct (inline_parts v0 d0 Hi) as (h & t & _ & _ & _ & -> & ->). by split.
Qed.

Lemma max_length_range e : 1 <= pg_encoding_max_length e <= 4.
Proof. unfold pg_encoding_max_length. destruct e; simpl; lia. Qed.

(** The slice that is fetched has the first E characters, or all. *)
Lemma slice_chars cs data E n :
  PG_VALID_BE_ENCODING enc = true -> text_of enc cs data -> n = -1 \/ n = E * pg_encoding_max_length enc ->
  exists cs1 p cs2, slice_of data 0 n = concat cs1 ++ p /\ cs = cs1 ++ cs2 /\
    (p = [] /\ cs2 = [] \/ (p = [] \/ partial enc p) /\ n <> -1 /\ E <= zlen cs1).
Proof.
  intros Hsrv Hcs Hn. pose proof (text_cut enc cs data (Z.to_nat n) Hcs) as (cs1 & p & cs2 & -> & Ht & Hp).
  pose proof (max_length_range enc) as Hmax.
  pose proof (zlen_nonneg data) as Hd. unfold slice_of. destruct (Z.geb_spec 0 (zlen data)) as [H0|H0].
  { exists (cs1 ++ cs2), [], []. rewrite !app_nil_r. split; [|by split; [|left]].
    destruct Hcs as [<- _]. symmetry. apply zlen_0_nil. lia. }
  destruct (Z.ltb_spec n 0) as [Hneg|Hpos]; cbn [orb];
    [|destruct (Z.gtb_spec (0 + n) (zlen data)) as [Hbig|Hsm]].
  1,2: exists (cs1 ++ cs2), [], []; rewrite !app_nil_r; split; [|by split; [|left]];
    rewrite zslice_full_take by lia; by destruct Hcs.
  exists cs1, p, cs2. split; [unfold zslice; by rewrite drop_0|]. split; [done|]. right.
  destruct Hcs as [Hdata Hcs]. apply Forall_app in Hcs as [Hcs1 _]. pose proof (concat_size enc cs1 Hcs1) as Hsz.
  assert (Hlen : zlen (concat cs1) + zlen p = n).
  { rewrite <- zlen_app, <- Ht, zlen_take. lia. }
  destruct Hp as [[-> _]|[Hp _]].
  - split; [by left|]. split; [lia|]. change (zlen []) with 0 in Hlen. nia.
  - split; [by right|]. split; [lia|]. destruct (partial_facts enc Hsrv p [] Hp) as (l & Hl & _). nia.
Qed.

Definition INT32 (z : Z) : Prop := INT_MIN <= z <= INT_MAX.

Lemma text_of_singles cs data n :
  pg_encoding_max_length enc = 1 -> text_of enc cs data ->
  concat (drop n cs) = drop n data /\ concat (take n cs) = take n data.
Proof.
  intros H1 [-> Hcs]. revert n. induction Hcs as [|c cs Hc Hcs IH]; intros n; [by destruct n|].
  pose proof (mbchar_size _ _ Hc). assert (exists a, c = [a]) as [a ->].
  { destruct c as [|a [|b c]]; [zl|by exists a|zl]. }
  destruct n as [|n]; [done|]. simpl. destruct (IH n) as [-> ->]. done.
Qed.

Lemma slice_of_drop_take (data : list Z) off len :
  0 <= off -> zlen data < 2 ^ 30 ->
  slice_of data off len = if len <? 0 then drop (Z.to_nat off) data else take (Z.to_nat len) (drop (Z.to_nat off) data).
Proof.
  intros Hoff Hd. unfold slice_of. destruct (Z.geb_spec off (zlen data)).
  - rewrite drop_ge by (unfold zlen in *; lia). rewrite take_nil. by destruct (len <? 0).
  - destruct (Z.ltb_spec len 0); cbn [orb]; [|destruct (Z.gtb_spec (off + len) (zlen data))]; unfold zslice;
      [..|done]; rewrite ?take_ge; try done; rewrite ?length_drop; unfold zlen in *; lia.
Qed.

(** The end of the slice of bytes that text_substring reads of a toasted value. *)
Definition substring_end (start len : Z) : Z :=
  if pg_encoding_max_length enc =? 1 then start + len - 1 else (start + len) * pg_encoding_max_length enc.

Section substring.
Context (v data : list Z) (cs : list (list Z)).
Context (Hsrv : PG_VALID_BE_ENCODING enc = true) (Hv : holds (t_env T) v data) (Hcs : text_of enc cs data).

(** The multibyte branch: a slice of n bytes, then the characters of it. *)
Lemma substring_go S1 L1 n :
  slice_fits (t_env T) v data n -> 1 <= S1 -> -1 <= L1 -> n = -1 \/ n = (S1 + L1) * pg_encoding_max_length enc /\ 0 <= L1 ->
  (c ← VARATT_IS_COMPRESSED v;
   toasted ← (if (c : bool) then Ok true else VARATT_IS_EXTERNAL v);
   slice ← (if (toasted : bool) then DatumGetTextPSlice T v 0 n else Ok v);
   cut_chars T slice S1 L1) =
  Ok (mk_4b_u (concat (let rest := drop (Z.to_nat (S1 - 1)) cs in if L1 >? -1 then take (Z.to_nat L1) rest else rest))).
Proof.
  intros Hfit HS HL Hn. destruct (toasted_test v data Hv) as (b & Hb & Hi).
  destruct (VARATT_IS_COMPRESSED v) as [c| | |]; cbn [mbind res_bind] in Hb |- *; try discriminate Hb.
  rewrite Hb. bind. pose proof (holds_ok _ _ _ Hv) as Hok. unfold ok_4b_u in Hok. destruct b.
  - unfold DatumGetTextPSlice, pg_detoast_datum_slice. rewrite (slice_ok _ _ _ 0 n Hv) by (done || lia). bind.
    destruct (slice_chars cs data (S1 + L1) n) as (cs1 & p & cs2 & Hsl & Heq & Hcase); [done|done|intuition|].
    assert (Hin : inline_value (mk_4b_u (slice_of data 0 n)) (concat cs1 ++ p)).
    { rewrite <- Hsl, <- (app_nil_r (mk_4b_u _)). constructor. unfold ok_4b_u.
      rewrite slice_of_drop_take by lia. destruct (n <? 0); zl. }
    destruct Hcs as [_ Hall]. rewrite Heq in Hall. apply Forall_app in Hall as [Hcs1 _].
    rewrite (cut_chars_ok _ cs1 p) by (done || (destruct Hcase as [[-> _]|([->|Hp] & Hn1 & HE)]; [by left..|right; split; [done|lia]])).
    do 3 f_equal. destruct Hcase as [[_ ->]|(_ & Hn1 & HE)]; [by rewrite Heq, app_nil_r|].
    destruct (Z.gtb_spec L1 (-1)); [|lia]. rewrite Heq, drop_app_le by (unfold zlen in *; lia).
    by rewrite take_app_le by (rewrite length_drop; unfold zlen in *; lia).
  - assert (Hin : inline_value v (concat cs ++ [])) by (rewrite app_nil_r; destruct Hcs as [<- _]; by apply Hi).
    bind. by rewrite (cut_chars_ok _ cs []) by (done || by left || apply Hcs).
Qed.

Lemma substring_ok start len (unspec : bool) :
  INT32 start -> INT32 len -> (unspec = false -> slice_fits (t_env T) v data (substring_end start len)) ->
  text_substring T v start len unspec =
  if negb unspec && (len <? 0) then Ereport ERRCODE_SUBSTRING_ERROR
  else Ok (mk_4b_u (concat (sql_substring cs start (if unspec then None else Some len)))).
Proof.
  intros Hs Hl Hfit. pose proof (holds_ok _ _ _ Hv) as Hok. unfold ok_4b_u in Hok. unfold INT32, INT_MIN, INT_MAX in *.
  assert (Hwhole : slice_fits (t_env T) v data (-1)) by (intros _ ?; lia).
  pose proof (max_length_range enc) as Hmax. assert (Hzc : zlen cs <= zlen data).
  { destruct Hcs as [-> Hall]. apply (concat_size enc cs Hall). }
  assert (Hover : forall l, pg_add_s32_overflow start l = None -> 0 <= l ->
    sql_substring cs start (Some l) = sql_substring cs start None).
  { unfold pg_add_s32_overflow, INT_MIN, INT_MAX, sql_substring. intros l Ho Hl0.
    destruct (_ && _) eqn:E; [done|]. apply take_ge. rewrite length_drop. unfold zlen in *. lia. }
  unfold text_substring, eml, pg_database_encoding_max_length, substring_end in *.
  destruct (Z.eqb_spec (pg_encoding_max_length enc) 1) as [H1|H1].
  - assert (Hdt : forall l, (0 <= l -> slice_fits (t_env T) v data (Z.max start 1 - 1 + l)) -> DatumGetTextPSlice T v (Z.max start 1 - 1) l =
      Ok (mk_4b_u (concat (let r := drop (Z.to_nat (Z.max start 1 - 1)) cs in if l <? 0 then r else take (Z.to_nat l) r)))).
    { intros l Hf. unfold DatumGetTextPSlice, pg_detoast_datum_slice. rewrite (slice_ok _ _ _ _ _ Hv) by (done || lia).
      rewrite slice_of_drop_take by lia. do 2 f_equal.
      destruct (text_of_singles cs data (Z.to_nat (Z.max start 1 - 1)) H1 Hcs) as [Hd _].
      destruct (l <? 0); [by rewrite Hd|]. symmetry. rewrite <- Hd.
      apply text_of_singles; [done|]. split; [done|]. apply Forall_drop, Hcs. }
    destruct unspec; [by rewrite Hdt by lia|]. specialize (Hfit eq_refl). cbn [negb andb]. destruct (Z.ltb_spec len 0); [done|].
    destruct (pg_add_s32_overflow start len) as [e|] eqn:Ho; [|rewrite Hdt, Hover by (done || lia); done].
    unfold pg_add_s32_overflow in Ho. destruct (_ && _); [|done]. injection Ho as <-.
    unfold sql_substring. destruct (Z.ltb_spec (start + len) 1).
    + rewrite empty_text. do 2 f_equal. by replace (Z.to_nat (start + len - Z.max start 1)) with 0%nat by lia.
    + rewrite Hdt by (by replace (Z.max start 1 - 1 + (start + len - Z.max start 1)) with (start + len - 1) by lia).
      destruct (Z.ltb_spec (start + len - Z.max start 1) 0); [lia|done].
  - destruct (Z.gtb_spec (pg_encoding_max_length enc) 1); [|lia]. cbv zeta.
    destruct unspec; [by rewrite substring_go by (done || lia || by left)|]. specialize (Hfit eq_refl). cbn [negb andb]. destruct (Z.ltb_spec len 0); [done|].
    destruct (pg_add_s32_overflow start len) as [e|] eqn:Ho;
      [|rewrite substring_go, Hover by (done || lia || by left); done].
    unfold pg_add_s32_overflow in Ho. destruct (_ && _); [|done]. injection Ho as <-.
    unfold sql_substring. destruct (Z.ltb_spec (start + len) 1).
    + rewrite empty_text. do 2 f_equal. by replace (Z.to_nat (start + len - Z.max start 1)) with 0%nat by lia.
    + rewrite substring_go; [|by unfold pg_mul_s32_overflow; destruct (_ && _)|lia|lia|].
      * destruct (Z.gtb_spec (start + len - Z.max start 1) (-1)); [done|lia].
      * unfold pg_mul_s32_overflow. destruct (_ && _); [right|by left]. split; [f_equal; lia|lia].
Qed.
End substring.

(** ** OVERLAY, left, right, reverse *)

Lemma mk_inline d : fits (zlen d) -> inline_value (mk_4b_u d) d.
Proof. intros Hd. rewrite <- (app_nil_r (mk_4b_u d)). by constructor. Qed.

Lemma inline_holds v d : inline_value v d -> holds (t_env T) v d.
Proof. intros Hv. by constructor; constructor. Qed.

Lemma sub_size (cs : list (list Z)) n : zlen (concat (take n cs)) <= zlen (concat cs) /\ zlen (concat (drop n cs)) <= zlen (concat cs).
Proof. rewrite <- (take_drop n cs) at 2 4. rewrite concat_app. zl. Qed.

Lemma overlay_ok t1 t2 d1 d2 cs1 cs2 sp sl :
  PG_VALID_BE_ENCODING enc = true -> INT32 sp -> INT32 sl ->
  inline_value t1 d1 -> inline_value t2 d2 -> text_of enc cs1 d1 -> text_of enc cs2 d2 ->
  let r := concat (take (Z.to_nat (sp - 1)) cs1 ++ cs2 ++ drop (Z.to_nat (sp + sl - 1)) cs1) in
  text_overlay T t1 t2 sp sl =
  if sp <=? 0 then Ereport ERRCODE_SUBSTRING_ERROR
  else if sp + sl >? INT_MAX then Ereport ERRCODE_NUMERIC_VALUE_OUT_OF_RANGE
  else if zlen r + VARHDRSZ <=? MaxAllocSize then Ok (mk_4b_u r) else Ereport ERRCODE_INTERNAL_ERROR.
Proof.
  intros Hsrv Hsp Hsl H1 H2 Hc1 Hc2 r. unfold text_overlay. destruct (Z.leb_spec sp 0); [done|].
  unfold INT32, INT_MIN, INT_MAX in *. unfold pg_add_s32_overflow, INT_MIN, INT_MAX.
  destruct (Z.gtb_spec (sp + sl) 2147483647).
  { by replace (_ && _) with false by lia. }
  replace (_ && _) with true by lia.
  pose proof (inline_ok _ _ H1) as Hok1. unfold ok_4b_u in Hok1.
  rewrite !(substring_ok t1 d1 cs1) by first [done | by apply inline_holds | by intros; apply inline_fits | unfold INT32, INT_MIN, INT_MAX; lia].
  destruct (Z.ltb_spec (sp - 1) 0); [lia|]. cbn [negb andb]. bind. unfold sql_substring.
  replace (Z.to_nat (Z.max 1 1 - 1)) with 0%nat by lia. rewrite drop_0.
  replace (1 + (sp - 1) - Z.max 1 1) with (sp - 1) by lia.
  replace (Z.to_nat (Z.max (sp + sl) 1 - 1)) with (Z.to_nat (sp + sl - 1)) by lia.
  set (a := take _ cs1). set (b := drop _ cs1).
  assert (Ha : zlen (concat a) <= zlen d1) by (destruct Hc1 as [-> _]; apply sub_size).
  assert (Hb : zlen (concat b) <= zlen d1) by (destruct Hc1 as [-> _]; apply sub_size).
  destruct Hc2 as [Hd2 _]. assert (Hr : zlen r = zlen (concat a) + zlen d2 + zlen (concat b)).
  { unfold r. fold a b. rewrite !concat_app, <- Hd2. zl. }
  rewrite (catenate_ok _ t2 (concat a) d2) by first [done | apply mk_inline; lia].
  unfold VARHDRSZ in *. pose proof (zlen_nonneg (concat b)).
  destruct (Z.leb_spec (zlen r + 4) MaxAllocSize) as [Hfit|Hbig].
  - replace (_ <=? _) with true by (symmetry; apply Z.leb_le; lia). bind. unfold MaxAllocSize in Hfit.
    rewrite (catenate_ok _ _ (concat a ++ d2) (concat b)) by (apply mk_inline; zl).
    rewrite zlen_app. unfold VARHDRSZ, MaxAllocSize. replace (_ <=? _) with true by (symmetry; apply Z.leb_le; lia).
    do 2 f_equal. unfold r. fold a b. by rewrite !concat_app, <- Hd2, <- app_assoc.
  - destruct (Z.leb_spec (zlen (concat a) + zlen d2 + 4) MaxAllocSize) as [Hfit2|]; [|done]. bind.
    unfold MaxAllocSize in Hfit2. rewrite (catenate_ok _ _ (concat a ++ d2) (concat b)) by (apply mk_inline; zl).
    rewrite zlen_app. unfold VARHDRSZ. by replace (_ <=? _) with false by (symmetry; apply Z.leb_gt; lia).
Qed.

Lemma clip_text cs data t n :
  text_of enc cs data -> fits (zlen data) ->
  (rlen ← pg_mbcharcliplen enc (data ++ t) (zlen data) n; cstring_to_text_with_len (data ++ t) rlen)
  = Ok (mk_4b_u (concat (take (Z.to_nat n) cs))) /\
  (off ← pg_mbcharcliplen enc (data ++ t) (zlen data) n;
   cstring_to_text_with_len (drop (Z.to_nat off) (data ++ t)) (zlen data - off))
  = Ok (mk_4b_u (concat (drop (Z.to_nat n) cs))).
Proof.
  intros Hcs Hf. rewrite (mbcharcliplen_ok enc cs data) by done. bind.
  destruct Hcs as [-> _]. set (a := concat (take _ cs)). set (b := concat (drop _ cs)).
  assert (Heq : concat cs = a ++ b) by (unfold a, b; by rewrite <- concat_app, take_drop).
  rewrite Heq, zlen_app in *. pose proof (zlen_nonneg a). pose proof (zlen_nonneg b). rewrite <- !app_assoc.
  split.
  - rewrite cstring_to_text_ok by zl. by rewrite take_zlen_app.
  - rewrite drop_zlen_app. replace (zlen a + zlen b - zlen a) with (zlen b) by lia.
    rewrite cstring_to_text_ok by zl. by rewrite take_zlen_app.
Qed.
Lemma left_ok v data cs n :
  PG_VALID_BE_ENCODING enc = true -> holds (t_env T) v data -> text_of enc cs data -> INT32 n ->
  (0 <= n -> slice_fits (t_env T) v data (substring_end 1 n)) ->
  text_left T v n = Ok (mk_4b_u (concat (take (Z.to_nat (if n <? 0 then zlen cs + n else n)) cs))).
Proof.
  intros Hsrv Hv Hcs Hn Hfit. pose proof (holds_ok _ _ _ Hv) as Hf. unfold ok_4b_u in Hf. unfold text_left.
  destruct (Z.ltb_spec n 0).
  - destruct (packed_ok_text v data Hv) as (p & t & -> & _ & Ht). bind. rewrite Ht. bind.
    rewrite (mbstrlen_ok enc cs data) by done. bind. by apply clip_text.
  - rewrite (substring_ok v data cs Hsrv Hv Hcs) by (done || (by intros; apply Hfit) || (unfold INT32, INT_MIN, INT_MAX; lia)).
    destruct (Z.ltb_spec n 0); [lia|]. cbn [negb andb]. unfold sql_substring.
    replace (Z.to_nat (Z.max 1 1 - 1)) with 0%nat by lia. rewrite drop_0. do 4 f_equal. lia.
Qed.

(** For the least int, -n is n again: nothing is cut off. *)
Lemma right_ok v data cs n :
  holds (t_env T) v data -> text_of enc cs data -> INT32 n ->
  text_right T v n =
  Ok (mk_4b_u (concat (drop (Z.to_nat (if n <? 0 then (if n =? INT_MIN then n else - n) else zlen cs - n)) cs))).
Proof.
  intros Hv Hcs Hn. pose proof (holds_ok _ _ _ Hv) as Hf. unfold ok_4b_u in Hf. unfold text_right.
  destruct (packed_ok_text v data Hv) as (p & t & -> & _ & Ht). bind. rewrite Ht. bind.
  unfold INT32, INT_MIN, INT_MAX in *. destruct (Z.ltb_spec n 0).
  - bind. replace (int32_of (- n)) with (if n =? -2147483648 then n else - n); [by apply clip_text|].
    unfold int32_of. destruct (Z.eqb_spec n (-2147483648)) as [->|]; [done|].
    rewrite Z.mod_small by lia. destruct (Z.ltb_spec (- n) (2 ^ 31)); lia.
  - rewrite (mbstrlen_ok enc cs data) by done. bind. by apply clip_text.
Qed.

(** *** reverse *)

Lemma wr_middle (a b c d : list Z) : zlen b = zlen d -> wr (a ++ b ++ c) (zlen a) d = Ok (a ++ d ++ c).
Proof.
  intros Hz. rewrite wr_append by zl. rewrite <- app_assoc. do 3 f_equal.
  replace (length d) with (length b) by (unfold zlen in Hz; lia). apply drop_app_length.
Qed.

Definition rev_step_body (p : list Z) (len : Z) := if eml T >? 1 then reverse_body T p len else reverse_byte_body p len.

Lemma rev_step pre c k r len :
  mbchar enc c -> zlen pre < len -> zlen c <= len - zlen pre ->
  rev_step_body (pre ++ c ++ k) len (zlen pre, len - zlen pre, zrep (len - zlen pre) 0 ++ r) =
  Ok (inl (zlen (pre ++ c), len - zlen (pre ++ c), zrep (len - zlen (pre ++ c)) 0 ++ c ++ r)).
Proof.
  intros Hc Hlt Hle. pose proof (mbchar_size _ _ Hc) as Hs. rewrite !zlen_app.
  assert (Hw : wr (zrep (len - zlen pre) 0 ++ r) (len - zlen pre - zlen c) c =
    Ok (zrep (len - (zlen pre + zlen c)) 0 ++ c ++ r)).
  { replace (len - zlen pre) with ((len - (zlen pre + zlen c)) + zlen c) at 1 by lia.
    rewrite <- zrep_app, <- app_assoc by lia.
    replace (len - zlen pre - zlen c) with (zlen (zrep (len - (zlen pre + zlen c)) 0)) by zl.
    apply wr_middle. zl. }
  unfold rev_step_body. destruct (Z.gtb_spec (eml T) 1) as [Hm|Hm].
  - unfold reverse_body. destruct (Z.ltb_spec (zlen pre) len); [|lia]. unfold pg_mblen.
    rewrite drop_zlen_app, mbchar_mblen by done. bind. rewrite rdn_middle by done. bind. rewrite Hw. bind. do 4 f_equal. lia.
  - destruct (mbchar_head _ _ Hc) as (a & t & -> & _). unfold eml, pg_database_encoding_max_length in Hm.
    assert (t = []) as -> by (apply zlen_0_nil; zl). change (zlen [a]) with 1 in *. unfold reverse_byte_body.
    destruct (Z.ltb_spec (zlen pre) len); [|lia]. change ([a] ++ k) with (a :: k). rewrite rd_middle by done. bind.
    rewrite Hw. bind. do 4 f_equal. lia.
Qed.

Lemma rev_end p len d r : rev_step_body p len (len, d, r) = Ok (inr r).
Proof. unfold rev_step_body, reverse_body, reverse_byte_body. destruct (eml T >? 1); by rewrite Z.ltb_irrefl. Qed.

Lemma rev_run cs : forall pre k r n len,
  Forall (mbchar enc) cs -> len = zlen pre + zlen (concat cs) -> (length cs < n)%nat ->
  iter n (rev_step_body (pre ++ concat cs ++ k) len) (zlen pre, len - zlen pre, zrep (len - zlen pre) 0 ++ r)
  = Ok (concat (rev cs) ++ r).
Proof.
  induction cs as [|c cs IH]; intros pre k r n len Hcs -> Hn.
  - destruct n; [lia|]. change (zlen (concat [])) with 0. rewrite iter_S, Z.add_0_r, Z.sub_diag. by rewrite rev_end.
  - inversion Hcs as [|? ? Hc Hcs']; subst. simpl in *. destruct n; [lia|]. pose proof (mbchar_size _ _ Hc).
    pose proof (zlen_nonneg (concat cs)). rewrite iter_S, <- app_assoc, zlen_app, rev_step by (done || lia). bind.
    rewrite app_assoc, IH by (done || zl). by rewrite concat_app, <- app_assoc; simpl; rewrite app_nil_r.
Qed.

Lemma reverse_ok v data cs :
  holds (t_env T) v data -> text_of enc cs data -> text_reverse T v = Ok (mk_4b_u (concat (rev cs))).
Proof.
  intros Hv [-> Hcs]. pose proof (holds_ok _ _ _ Hv) as Hf. unfold ok_4b_u in Hf. unfold text_reverse.
  destruct (packed_ok_text v _ Hv) as (p & t & -> & _ & Ht). bind. rewrite Ht. bind.
  pose proof (zlen_nonneg (concat cs)). rewrite palloc_ok by (unfold VARHDRSZ, MaxAllocSize; lia). bind.
  pose proof (rev_run cs [] t [] (S (Z.to_nat (zlen (concat cs)))) (zlen (concat cs)) Hcs eq_refl) as Hr.
  rewrite zlen_nil, Z.sub_0_r, !app_nil_r in Hr. unfold rev_step_body in Hr. change ([] ++ ?x) with x in Hr.
  rewrite Hr by (pose proof (concat_size _ _ Hcs); unfold zlen in *; lia). bind. f_equal.
  assert (Hlen : zlen (concat (rev cs)) = zlen (concat cs)).
  { clear. induction cs as [|c cs IH]; [done|]. simpl. rewrite concat_app. simpl. zl. }
  rewrite <- Hlen. apply make_text. lia.
Qed.

(** *** C strings *)

Lemma to_cstring_buffer_ok v data cs dst n :
  holds (t_env T) v data -> text_of enc cs data -> zlen dst = n -> 0 < n ->
  exists rest, text_to_cstring_buffer T v dst n = Ok (concat (clip cs (n - 1)) ++ [0] ++ rest) /\
    zlen (concat (clip cs (n - 1)) ++ [0] ++ rest) = n.
Proof.
  intros Hv Hcs <- Hn. unfold text_to_cstring_buffer.
  destruct (packed_ok_text v data Hv) as (p & t & -> & _ & Ht). bind. rewrite Ht. bind.
  destruct (Z.gtb_spec (zlen dst) 0); [|lia].
  assert (Hclip : (if zlen dst - 1 >=? zlen data then Ok (zlen data) else pg_mbcliplen enc (data ++ t) (zlen data) (zlen dst - 1))
    = Ok (zlen (concat (clip cs (zlen dst - 1)))) /\ exists k, data = concat (clip cs (zlen dst - 1)) ++ k /\
    zlen (concat (clip cs (zlen dst - 1))) <= zlen dst - 1).
  { assert (Hpre : forall cs m, 0 <= m -> exists k, concat cs = concat (clip cs m) ++ k /\ zlen (concat (clip cs m)) <= m).
    { clear. induction cs as [|c cs IH]; intros m Hm; [by exists []; split|]. simpl.
      destruct (Z.leb_spec (zlen c) m) as [Hle|]; [|by exists (c ++ concat cs); split; [|simpl; change (zlen []) with 0; lia]].
      destruct (IH (m - zlen c)) as (k & Hk & Hz); [lia|]. exists k. simpl. rewrite Hk at 1. rewrite <- app_assoc. split; [done|zl]. }
    destruct (Hpre cs (zlen dst - 1)) as (k & Hk & Hz); [lia|].
    split; [|exists k; split; [by destruct Hcs as [-> _]|done]].
    destruct (Z.geb_spec (zlen dst - 1) (zlen data)) as [Hge|]; [|by apply mbcliplen_ok; [|lia]].
    destruct Hcs as [-> Hcs]. f_equal. f_equal. clear -Hge. revert Hge. generalize (zlen dst - 1).
    induction cs as [|c cs IH]; intros m Hm; [done|]. simpl in *. rewrite zlen_app in Hm. pose proof (zlen_nonneg (concat cs)).
    destruct (Z.leb_spec (zlen c) m); [|lia]. simpl. by rewrite <- IH by lia. }
  destruct Hclip as (-> & k & -> & Hz). bind. set (d := concat (clip cs _)) in *. rewrite <- app_assoc.
  pose proof (zlen_nonneg d). change (d ++ k ++ t) with ([] ++ d ++ k ++ t). rewrite rdn_middle by done. bind.
  rewrite <- (take_drop (Z.to_nat (zlen d)) dst). set (a := take _ dst). set (b := drop _ dst).
  assert (Ha : zlen a = zlen d) by (unfold a; zl). assert (Hb : zlen b = zlen dst - zlen d) by (unfold b; zl).
  pose proof (wr_middle [] a b d Ha) as Hw. rewrite zlen_nil, !app_nil_l in Hw. rewrite Hw. bind.
  destruct b as [|x b]; [change (zlen []) with 0 in Hb; lia|]. change (x :: b) with ([x] ++ b).
  rewrite wr_middle by done. exists b. split; [done|]. zl.
Qed.
End ops.

(** ** Properties *)

(** C13: text_substring returns, for a value in any form and any encoding of a server, the
    characters at the positions start .. start + length - 1 as far as the value has them,
    or all from start on; a negative length is an error.  start and start + length may be
    out of range on either side.  For a toasted value in a multibyte encoding only as many
    bytes are fetched as these characters can take; where these are decompressed from an
    RLE value, their chunk has the room that this needs ([slice_fits]). *)
Theorem text_substring_correct T v data cs start len (length_not_specified : bool) :
  PG_VALID_BE_ENCODING (t_enc T) = true -> holds (t_env T) v data -> text_of (t_enc T) cs data ->
  INT32 start -> INT32 len ->
  (length_not_specified = false -> slice_fits (t_env T) v data (substring_end T start len)) ->
  text_substring T v start len length_not_specified =
  if negb length_not_specified && (len <? 0) then Ereport ERRCODE_SUBSTRING_ERROR
  else Ok (mk_4b_u (concat (sql_substring cs start (if length_not_specified then None else Some len)))).
Proof. intros. by apply (substring_ok T v data). Qed.

(** textcat joins the characters of its arguments and textlen counts characters: the
    length of the result is the sum of the lengths.  A result that is too large to be
    allocated is an error. *)
Theorem textcat_correct T v1 v2 d1 d2 cs1 cs2 :
  holds (t_env T) v1 d1 -> holds (t_env T) v2 d2 ->
  text_of (t_enc T) cs1 d1 -> text_of (t_enc T) cs2 d2 ->
  textlen T v1 = Ok (zlen cs1) /\ textlen T v2 = Ok (zlen cs2) /\ textoctetlen T v1 = Ok (zlen d1) /\
  if zlen d1 + zlen d2 + VARHDRSZ <=? MaxAllocSize
  then exists r, textcat T v1 v2 = Ok r /\ holds (t_env T) r (d1 ++ d2) /\ textlen T r = Ok (zlen cs1 + zlen cs2)
  else textcat T v1 v2 = Ereport ERRCODE_INTERNAL_ERROR.
Proof.
  intros H1 H2 Hc1 Hc2. split; [by apply (text_length_ok T v1 d1)|]. split; [by apply (text_length_ok T v2 d2)|].
  split. { unfold textoctetlen. rewrite (raw_size_ok _ _ _ H1). bind. f_equal. unfold VARHDRSZ. lia. }
  destruct (packed_ok_text T v1 d1 H1) as (p1 & t1 & E1 & Hi1 & _). destruct (packed_ok_text T v2 d2 H2) as (p2 & t2 & E2 & Hi2 & _).
  unfold textcat. rewrite E1, E2. bind. rewrite (catenate_ok p1 p2 d1 d2) by done.
  destruct (Z.leb_spec (zlen d1 + zlen d2 + VARHDRSZ) MaxAllocSize) as [Hm|]; [|done]. eexists. split; [done|].
  assert (Hh : holds (t_env T) (mk_4b_u (d1 ++ d2)) (d1 ++ d2)).
  { apply inline_holds, mk_inline. rewrite zlen_app. unfold VARHDRSZ, MaxAllocSize in Hm. lia. }
  split; [done|]. rewrite <- zlen_app. apply (text_length_ok T _ _ (cs1 ++ cs2) Hh). by apply text_app.
Qed.

(** textoverlay replaces the sl characters from position sp of the first value by the
    second one; sp below 1, an end past the int range and a result that cannot be
    allocated are its three errors. *)
Theorem textoverlay_correct T v1 v2 d1 d2 cs1 cs2 sp sl :
  PG_VALID_BE_ENCODING (t_enc T) = true -> INT32 sp -> INT32 sl ->
  holds (t_env T) v1 d1 -> holds (t_env T) v2 d2 ->
  text_of (t_enc T) cs1 d1 -> text_of (t_enc T) cs2 d2 ->
  let r := concat (take (Z.to_nat (sp - 1)) cs1 ++ cs2 ++ drop (Z.to_nat (sp + sl - 1)) cs1) in
  textoverlay T v1 v2 sp sl =
  if sp <=? 0 then Ereport ERRCODE_SUBSTRING_ERROR
  else if sp + sl >? INT_MAX then Ereport ERRCODE_NUMERIC_VALUE_OUT_OF_RANGE
  else if zlen r + VARHDRSZ <=? MaxAllocSize then Ok (mk_4b_u r) else Ereport ERRCODE_INTERNAL_ERROR.
Proof.
  intros Hsrv Hsp Hsl H1 H2 Hc1 Hc2 r.
  destruct (packed_ok_text T v1 d1 H1) as (p1 & t1 & E1 & Hi1 & _). destruct (packed_ok_text T v2 d2 H2) as (p2 & t2 & E2 & Hi2 & _).
  unfold textoverlay. rewrite E1, E2. bind. by apply overlay_ok with (d1 := d1) (d2 := d2).
Qed.

(** C36: text_left, text_right and text_reverse take the first or last n characters, all but
    the last or first -n of them, and the characters in reverse order.  text_right for the
    least int is the exception: -n wraps around and the whole value is returned, where
    nothing should be left.  The slice that text_left takes of an RLE value fits its chunk
    ([slice_fits]). *)
Theorem text_left_right_reverse T v data cs n :
  PG_VALID_BE_ENCODING (t_enc T) = true -> holds (t_env T) v data -> text_of (t_enc T) cs data -> INT32 n ->
  ((0 <= n -> slice_fits (t_env T) v data (substring_end T 1 n)) ->
   text_left T v n = Ok (mk_4b_u (concat (take (Z.to_nat (if n <? 0 then zlen cs + n else n)) cs)))) /\
  (n <> INT_MIN ->
   text_right T v n = Ok (mk_4b_u (concat (drop (Z.to_nat (if n <? 0 then - n else zlen cs - n)) cs)))) /\
  text_right T v INT_MIN = Ok (mk_4b_u data) /\
  text_reverse T v = Ok (mk_4b_u (concat (rev cs))).
Proof.
  intros Hsrv Hv Hcs Hn. split; [by apply (left_ok T v data)|]. split; [|split].
  - intros Hne. rewrite (right_ok T v data cs n Hv Hcs Hn). by destruct (Z.eqb_spec n INT_MIN).
  - rewrite (right_ok T v data cs INT_MIN Hv Hcs) by (unfold INT32, INT_MIN, INT_MAX; lia). simpl.
    by destruct Hcs as [-> _].
  - by apply (reverse_ok T v data).
Qed.

(** A UTF-8 database and a value of ten bytes: three characters of one, two and three
    bytes, and four more. *)
Definition sample_locale : locale := {| collate_is_c := true; deterministic := true; strncoll := fun _ _ => 0 |}.
Definition sample_tenv : tenv := {| t_env := sample_env; t_enc := PG_UTF8; t_locale := fun _ => sample_locale |}.
Definition sample_chars : list (list Z) := [[110]; [0xC3; 0xA9]; [0xE2; 0x82; 0xAC]; [97]; [98]; [99]; [97]].
Definition sample_text : list Z := mk_1b (concat sample_chars) ++ [1; 2].

Lemma sample_text_inline : inline_value sample_text (concat sample_chars).
Proof. apply inline_1b. by vm_compute. Qed.
Lemma sample_text_holds : holds sample_env sample_text (concat sample_chars).
Proof. do 2 constructor. apply sample_text_inline. Qed.
Lemma sample_text_of : text_of PG_UTF8 sample_chars (concat sample_chars).
Proof. apply text_of_eval. vm_compute. reflexivity. Qed.

Lemma sample_value_text : text_of PG_UTF8 (map (fun c => [c]) sample_value) sample_value.
Proof. apply text_of_eval. vm_compute. reflexivity. Qed.

Lemma text_substring_correct_witness :
  text_substring sample_tenv (mk_pointer VARTAG_INDIRECT 140000000000000 ++ [9]) 2500 1000 false =
    Ok (mk_4b_u (concat (sql_substring (map (fun c => [c]) sample_value) 2500 (Some 1000)))) /\
  concat (sql_substring (map (fun c => [c]) sample_value) 2500 (Some 1000)) = [65; 66; 67].
Proof.
  split; [|vm_compute; reflexivity].
  refine (text_substring_correct sample_tenv _ sample_value (map (fun c => [c]) sample_value) 2500 1000 false
    eq_refl sample_indirect sample_value_text _ _ _); [vm_compute; split; discriminate..|].
  intros _. apply past_fits. vm_compute. discriminate.
Defined.

Lemma textcat_correct_witness :
  textlen sample_tenv sample_text = Ok 7 /\
  exists r, textcat sample_tenv sample_text sample_text = Ok r /\ textlen sample_tenv r = Ok 14.
Proof.
  destruct (textcat_correct sample_tenv _ _ _ _ _ _ sample_text_holds sample_text_holds sample_text_of sample_text_of)
    as (H1 & _ & _ & r & Hr & _ & Hl).
  split; [exact H1|]. exists r. split; [exact Hr|exact Hl].
Defined.

Lemma textoverlay_correct_witness :
  textoverlay sample_tenv sample_text sample_text 2 2 =
  Ok (mk_4b_u (concat ([[110]] ++ sample_chars ++ [[97]; [98]; [99]; [97]]))).
Proof.
  refine (textoverlay_correct sample_tenv _ _ _ _ _ _ 2 2 eq_refl _ _ sample_text_holds sample_text_holds
    sample_text_of sample_text_of); vm_compute; split; discriminate.
Defined.

Lemma text_left_right_reverse_witness :
  text_left sample_tenv sample_text (-5) = Ok (mk_4b_u [110; 0xC3; 0xA9]).
Proof.
  refine (proj1 (text_left_right_reverse sample_tenv _ _ _ (-5) eq_refl sample_text_holds sample_text_of _) _).
  - vm_compute; split; discriminate.
  - intros Hn. lia.
Defined.
