(* ===== verification/TextCmp.v ===== *)
(** The comparison of text values (Text.v) against the contents, and against the operators
    of hocotext, which compare the same contents in their compressed form. *)

From S2P Require Import Prelude Rle Varatt Pglz PglzHist PglzItems PglzCodec ToastCompression Oids ToastStore Detoast.
From S2P Require Import Hocotext HocotextCmp Wchar Mbchar Text TextOps.

(** The order of memcmp, a proper prefix first. *)
Fixpoint memcmp_order (l r : list Z) : Z :=
  match l, r with
  | [], [] => 0
  | [], _ => -1
  | _, [] => 1
  | a :: l, b :: r => if a =? b then memcmp_order l r else if a <? b then -1 else 1
  end.

Lemma memcmp_cons a b l r n :
  memcmp (a :: l) (b :: r) (S n) = if a =? b then memcmp l r n else Ok (if a <? b then -1 else 1).
Proof. done. Qed.

(** memcmp of the common length, and then the lengths. *)
Lemma memcmp_order_ok l r t u :
  exists c, memcmp (l ++ t) (r ++ u) (Z.to_nat (Z.min (zlen l) (zlen r))) = Ok c /\
    cmp_len c (zlen l) (zlen r) = memcmp_order l r.
Proof.
  revert r. induction l as [|a l IH]; intros [|b r].
  - by exists 0.
  - exists 0. split; [done|]. unfold cmp_len. rewrite zlen_cons. change (zlen []) with 0. pose proof (zlen_nonneg r).
    destruct (Z.eqb_spec 0 (1 + zlen r)); [lia|]. destruct (Z.ltb_spec 0 (1 + zlen r)); [done|lia].
  - exists 0. rewrite zlen_cons. change (zlen []) with 0. pose proof (zlen_nonneg l). rewrite Z.min_r by lia. split; [done|].
    unfold cmp_len. destruct (Z.eqb_spec (1 + zlen l) 0); [lia|]. destruct (Z.ltb_spec (1 + zlen l) 0); [lia|done].
  - destruct (IH r) as (c & Hc & Ho). rewrite !zlen_cons. pose proof (zlen_nonneg l). pose proof (zlen_nonneg r).
    replace (Z.to_nat (Z.min (1 + zlen l) (1 + zlen r))) with (S (Z.to_nat (Z.min (zlen l) (zlen r)))) by lia.
    rewrite <- !app_comm_cons, memcmp_cons. simpl. destruct (Z.eqb_spec a b) as [->|Hne].
    + exists c. split; [done|]. rewrite <- Ho. unfold cmp_len.
      destruct (Z.eqb_spec (1 + zlen l) (1 + zlen r)), (Z.eqb_spec (zlen l) (zlen r)),
        (Z.ltb_spec (1 + zlen l) (1 + zlen r)), (Z.ltb_spec (zlen l) (zlen r)); done || lia.
    + eexists. split; [done|]. unfold cmp_len. by destruct (a <? b).
Qed.

Lemma memcmp_order_eq l r : memcmp_order l r = 0 <-> l = r.
Proof.
  revert r. induction l as [|a l IH]; intros [|b r]; simpl; try done.
  destruct (Z.eqb_spec a b) as [->|Hne]; [rewrite IH; split; [by intros ->|by intros [= ->]]|].
  split; [by destruct (a <? b)|]. by intros [= -> _].
Qed.

Lemma memcmp_order_flip l r : memcmp_order r l = - memcmp_order l r.
Proof.
  revert r. induction l as [|a l IH]; intros [|b r]; simpl; try done. rewrite (Z.eqb_sym b a).
  destruct (Z.eqb_spec a b); [done|]. destruct (Z.ltb_spec a b), (Z.ltb_spec b a); done || lia.
Qed.

Lemma memcmp_order_trans l m r : memcmp_order l m < 0 -> memcmp_order m r < 0 -> memcmp_order l r < 0.
Proof.
  revert m r. induction l as [|a l IH]; intros [|b m] [|c r]; simpl; try lia.
  destruct (Z.eqb_spec a b) as [->|], (Z.eqb_spec b c) as [->|]; [apply IH|..]; try done.
  - destruct (Z.eqb_spec a c); done.
  - destruct (Z.ltb_spec a b), (Z.ltb_spec b c); try lia. destruct (Z.eqb_spec a c); [lia|].
    destruct (Z.ltb_spec a c); lia.
Qed.

(** memcmp of two values of the same length *)
Lemma memcmp_eq l r t u :
  zlen l = zlen r ->
  exists c, memcmp (l ++ t) (r ++ u) (Z.to_nat (zlen l)) = Ok c /\ (c =? 0) = bool_decide (l = r).
Proof.
  intros Hz. destruct (memcmp_order_ok l r t u) as (c & Hc & Ho). rewrite <- Hz, Z.min_id in Hc. exists c. split; [done|].
  rewrite <- Hz in Ho. unfold cmp_len in Ho. rewrite Z.eqb_refl, andb_false_r in Ho. subst c.
  apply eq_true_iff_eq. rewrite Z.eqb_eq, bool_decide_eq_true. apply memcmp_order_eq.
Qed.

Section cmp.
Context (T : tenv) (collid : Z) (Hcol : OidIsValid collid = true).

Section two.
Context (v1 v2 d1 d2 : list Z) (H1 : holds (t_env T) v1 d1) (H2 : holds (t_env T) v2 d2).

(** The comparison is that of the collation, ties broken by the bytes. *)
Definition collation_order : Z :=
  let loc := t_locale T collid in
  if collate_is_c loc then memcmp_order d1 d2
  else if bool_decide (d1 = d2) then 0
  else let r := strncoll loc d1 d2 in
       if (r =? 0) && deterministic loc then memcmp_order d1 d2 else r.

Lemma bttextcmp_ok : bttextcmp T v1 v2 collid = Ok collation_order.
Proof using H1 H2 Hcol.
  destruct (packed_ok_text T v1 d1 H1) as (p1 & t1 & E1 & _ & D1). destruct (packed_ok_text T v2 d2 H2) as (p2 & t2 & E2 & _ & D2).
  unfold bttextcmp. rewrite E1, E2. bind. unfold text_cmp. rewrite D1, D2. bind. unfold varstr_cmp, check_collation_set, collation_order.
  rewrite Hcol. bind. cbn [fst snd]. set (loc := t_locale T collid).
  destruct (memcmp_order_ok d1 d2 t1 t2) as (c & -> & Ho). destruct (collate_is_c loc); [bind; by rewrite Ho|].
  assert (Hsame : (if zlen d1 =? zlen d2 then r ← memcmp (d1 ++ t1) (d2 ++ t2) (Z.to_nat (zlen d1)); Ok (r =? 0) else Ok false)
    = Ok (bool_decide (d1 = d2))).
  { destruct (Z.eqb_spec (zlen d1) (zlen d2)) as [Hz|Hz].
    - destruct (memcmp_eq d1 d2 t1 t2 Hz) as (c' & -> & Hc'). bind. by rewrite Hc'.
    - f_equal. symmetry. apply bool_decide_eq_false. congruence. }
  rewrite Hsame. bind. destruct (bool_decide (d1 = d2)); [done|].
  change (d1 ++ t1) with ([] ++ d1 ++ t1). change (d2 ++ t2) with ([] ++ d2 ++ t2).
  rewrite !rdn_middle by done. bind. destruct (_ && _); [bind; by rewrite Ho|done].
Qed.

Lemma texteq_ok : search_locale_ok T collid = true -> texteq T v1 v2 collid = Ok (bool_decide (d1 = d2)).
Proof using H1 H2 Hcol.
  intros Hdet. unfold texteq, text_same, check_collation_set. rewrite Hcol. bind. unfold search_locale_ok in Hdet. rewrite Hdet.
  rewrite (raw_size_ok _ _ _ H1), (raw_size_ok _ _ _ H2). bind.
  destruct (Z.eqb_spec (zlen d1 + 4) (zlen d2 + 4)) as [Hz|Hz]; cbn [negb].
  - destruct (packed_ok_text T v1 d1 H1) as (p1 & t1 & E1 & _ & D1). destruct (packed_ok_text T v2 d2 H2) as (p2 & t2 & E2 & _ & D2).
    rewrite E1, E2. bind. rewrite D1, D2. bind. cbn [fst snd].
    replace (zlen d1 + 4 - VARHDRSZ) with (zlen d1) by (unfold VARHDRSZ; lia).
    destruct (memcmp_eq d1 d2 t1 t2) as (c & -> & Hc); [lia|]. bind. by rewrite Hc.
  - f_equal. symmetry. apply bool_decide_eq_false. intros ->. done.
Qed.
End two.
End cmp.


Lemma starts_with_ok T collid v1 v2 d1 d2 cs1 :
  OidIsValid collid = true -> search_locale_ok T collid = true -> PG_VALID_BE_ENCODING (t_enc T) = true ->
  holds (t_env T) v1 d1 -> holds (t_env T) v2 d2 -> text_of (t_enc T) cs1 d1 ->
  slice_fits (t_env T) v1 d1 (substring_end T 1 (zlen d2 + 4)) ->
  text_starts_with T v1 v2 collid = Ok (bool_decide (d2 `prefix_of` d1)).
Proof.
  intros Hcol Hloc Hsrv H1 H2 Hc1 Hfit. unfold text_starts_with, check_collation_set. rewrite Hcol. bind. rewrite Hloc. cbn [negb].
  rewrite (raw_size_ok _ _ _ H1), (raw_size_ok _ _ _ H2). bind.
  pose proof (holds_ok _ _ _ H1) as Hf1. pose proof (holds_ok _ _ _ H2) as Hf2. unfold ok_4b_u in *. pose proof (zlen_nonneg d2).
  destruct (Z.gtb_spec (zlen d2 + 4) (zlen d1 + 4)) as [Hgt|Hle].
  { f_equal. symmetry. apply bool_decide_eq_false. intros Hp%prefix_length. unfold zlen in *. lia. }
  rewrite (substring_ok T v1 d1 cs1 Hsrv H1 Hc1) by (done || unfold INT32, INT_MIN, INT_MAX; lia).
  destruct (Z.ltb_spec (zlen d2 + 4) 0); [lia|]. cbn [negb andb]. bind. unfold sql_substring.
  replace (Z.to_nat (Z.max 1 1 - 1)) with 0%nat by lia. rewrite drop_0.
  set (a := concat (take _ cs1)). set (b := concat (drop (Z.to_nat (1 + (zlen d2 + 4) - Z.max 1 1)) cs1)).
  assert (Hd1 : d1 = a ++ b) by (destruct Hc1 as [-> _]; unfold a, b; by rewrite <- concat_app, take_drop).
  assert (Ha : zlen d2 <= zlen a).
  { destruct Hc1 as [Heq Hall]. pose proof (concat_size _ _ (Forall_take _ (Z.to_nat (1 + (zlen d2 + 4) - Z.max 1 1)) _ Hall)) as [Hs _].
    fold a in Hs. rewrite zlen_take in Hs. destruct (Z.le_gt_cases (zlen d2 + 4) (zlen cs1)); [lia|].
    assert (Hb : b = []) by (unfold b; by rewrite drop_ge by (unfold zlen in *; lia)).
    rewrite Hb, app_nil_r in Hd1. rewrite <- Hd1. lia. }
  assert (Hfa : zlen a + 4 < 2 ^ 30) by (rewrite Hd1, zlen_app in Hf1; pose proof (zlen_nonneg b); lia).
  destruct (packed_ok_text T v2 d2 H2) as (p2 & t2 & E2 & _ & D2). rewrite E2. bind.
  destruct (text_data_ok _ _ (mk_inline a Hfa)) as [t1 D1]. rewrite D1, D2. bind. cbn [fst snd].
  set (n := Z.to_nat (zlen d2)). rewrite <- (take_drop n a), <- app_assoc.
  assert (Hz : zlen (take n a) = zlen d2) by (unfold n; zl).
  destruct (memcmp_eq (take n a) d2 (drop n a ++ t1) t2 Hz) as (c & Hc & He). rewrite Hz in Hc. unfold n at 3. rewrite Hc. bind.
  rewrite He. f_equal. apply bool_decide_ext. rewrite Hd1. split.
  - intros Hpre. exists (drop n a ++ b). rewrite app_assoc, <- Hpre. by rewrite take_drop.
  - intros [k Hk]. apply (f_equal (take n)) in Hk. rewrite take_app_le in Hk by (unfold n, zlen in *; lia).
    unfold n in Hk at 2. by rewrite take_zlen_app in Hk.
Qed.

(** ** Properties *)

(** texteq and textne decide equality of the contents in every deterministic collation,
    for values in any form, although values of different raw size are never read; and
    bttextcmp gives zero for exactly the equal values, so that an index and the operator
    agree. *)
Theorem texteq_correct T collid v1 v2 d1 d2 :
  OidIsValid collid = true -> search_locale_ok T collid = true ->
  holds (t_env T) v1 d1 -> holds (t_env T) v2 d2 ->
  texteq T v1 v2 collid = Ok (bool_decide (d1 = d2)) /\
  textne T v1 v2 collid = Ok (negb (bool_decide (d1 = d2))) /\
  exists r, bttextcmp T v1 v2 collid = Ok r /\ (r = 0 <-> d1 = d2).
Proof.
  intros Hcol Hdet H1 H2. pose proof (texteq_ok T collid Hcol v1 v2 d1 d2 H1 H2 Hdet) as Heq. split; [done|].
  split; [unfold textne; unfold texteq in Heq; by rewrite Heq|].
  eexists. split; [by apply (bttextcmp_ok T collid Hcol v1 v2 d1 d2)|]. unfold collation_order, search_locale_ok in *.
  destruct (collate_is_c _); [apply memcmp_order_eq|]. cbn [orb] in Hdet. rewrite Hdet.
  case_bool_decide; [done|]. split; [|done]. destruct (Z.eqb_spec (strncoll (t_locale T collid) d1 d2) 0); [|done].
  cbn [andb]. apply memcmp_order_eq.
Qed.

(** In the C collation the comparison of texts is a total order on the contents: the
    bytes are compared as unsigned, a proper prefix is smaller, and the operators are the
    signs of it. *)
Theorem text_order_correct T collid v1 v2 d1 d2 :
  OidIsValid collid = true -> collate_is_c (t_locale T collid) = true ->
  holds (t_env T) v1 d1 -> holds (t_env T) v2 d2 ->
  let c := memcmp_order d1 d2 in
  bttextcmp T v1 v2 collid = Ok c /\ bttextcmp T v2 v1 collid = Ok (- c) /\
  text_lt T v1 v2 collid = Ok (c <? 0) /\ text_le T v1 v2 collid = Ok (c <=? 0) /\
  text_gt T v1 v2 collid = Ok (c >? 0) /\ text_ge T v1 v2 collid = Ok (c >=? 0) /\
  (c = 0 <-> d1 = d2) /\
  (forall v3 d3, holds (t_env T) v3 d3 -> c < 0 -> text_lt T v2 v3 collid = Ok true -> text_lt T v1 v3 collid = Ok true).
Proof.
  intros Hcol Hc H1 H2 c.
  assert (Hcmp : forall v w d e, holds (t_env T) v d -> holds (t_env T) w e -> bttextcmp T v w collid = Ok (memcmp_order d e)).
  { intros v w d e Hv Hw. rewrite (bttextcmp_ok T collid Hcol v w d e Hv Hw). unfold collation_order. by rewrite Hc. }
  unfold text_lt, text_le, text_gt, text_ge. rewrite (Hcmp v1 v2 d1 d2), (Hcmp v2 v1 d2 d1) by done. bind.
  split; [done|]. split; [by rewrite memcmp_order_flip|]. do 4 (split; [done|]). split; [apply memcmp_order_eq|].
  intros v3 d3 H3 Hlt. rewrite (Hcmp v2 v3 d2 d3), (Hcmp v1 v3 d1 d3) by done. bind. intros [= Hlt2]. f_equal.
  apply Z.ltb_lt. apply (memcmp_order_trans d1 d2 d3); [done|lia].
Qed.

(** text_starts_with tells whether the contents of the second value are a prefix of the
    first, although it fetches only the beginning of the first. *)
Theorem text_starts_with_correct T collid v1 v2 d1 d2 cs1 :
  OidIsValid collid = true -> search_locale_ok T collid = true -> PG_VALID_BE_ENCODING (t_enc T) = true ->
  holds (t_env T) v1 d1 -> holds (t_env T) v2 d2 -> text_of (t_enc T) cs1 d1 ->
  slice_fits (t_env T) v1 d1 (substring_end T 1 (zlen d2 + 4)) ->
  text_starts_with T v1 v2 collid = Ok (bool_decide (d2 `prefix_of` d1)).
Proof. apply starts_with_ok. Qed.

Lemma ascii_bytes l : bytes l -> Forall (fun c => c < 128) l -> Forall (fun c => 0 <= c < 128) l.
Proof. rewrite !Forall_forall. intros Hb Ha x Hx. specialize (Hb x Hx). specialize (Ha x Hx). unfold is_byte in Hb. lia. Qed.

Lemma cmp_bytes_ascii l r :
  Forall (fun c => 0 <= c < 128) l -> Forall (fun c => 0 <= c < 128) r -> cmp_bytes l r = memcmp_order l r.
Proof.
  intros Hl. revert r. induction Hl as [|a l Ha _ IH]; intros r [|b r' Hb Hr]; simpl; try done.
  destruct (Z.eqb_spec a b); [by apply IH|]. unfold cmp_char, schar.
  destruct (Z.ltb_spec a 128), (Z.ltb_spec b 128); try lia.
  destruct (Z.gtb_spec a b), (Z.eqb_spec a b), (Z.ltb_spec a b); done || lia.
Qed.

(** C10: hocotext agrees with text, on the forms of values that its comparison handles
    ([comparable_values]: a compressed value is RLE and is not next to a one-byte header).
    Its equality operator, on values that may be RLE-compressed and are not decompressed,
    decides what texteq decides after detoasting under a deterministic collation; its
    order is that of text in the C collation for values of ASCII characters, and not for
    others: hocotext compares signed chars. *)
Theorem hocotext_text_agree T collid l r dl dr :
  OidIsValid collid = true -> holds (t_env T) l dl -> holds (t_env T) r dr -> bytes dl -> bytes dr ->
  comparable_values (t_env T) l r = true ->
  (search_locale_ok T collid = true -> hocotext_eq (t_env T) collid l r = texteq T l r collid) /\
  (collate_is_c (t_locale T collid) = true ->
   Forall (fun c => c < 128) dl -> Forall (fun c => c < 128) dr ->
   hocotext_cmp (t_env T) collid l r = bttextcmp T l r collid) /\
  (exists a b, hocotext_cmp (t_env T) collid a b = Ok (-1) /\
     (collate_is_c (t_locale T collid) = true -> bttextcmp T a b collid = Ok 1)).
Proof.
  intros Hcol Hl Hr Hbl Hbr Hc. destruct (compare_ok (t_env T) l r dl dr collid) as (pl & pr & Hcmp & _); try done.
  unfold hocotext_eq, hocotext_cmp. rewrite Hcmp. bind. cbn [fst snd]. split; [|split].
  - intros Hdet. rewrite (texteq_ok T collid Hcol l r dl dr Hl Hr Hdet). f_equal. apply eq_true_iff_eq.
    rewrite Z.eqb_eq, bool_decide_eq_true. by apply cmp_bytes_eq.
  - intros Hcc Hal Har. rewrite (bttextcmp_ok T collid Hcol l r dl dr Hl Hr). unfold collation_order. rewrite Hcc. f_equal.
    apply cmp_bytes_ascii; by apply ascii_bytes.
  - exists (mk_4b_u [200]), (mk_4b_u [65]).
    assert (Ha : forall x, holds (t_env T) (mk_4b_u [x]) [x]) by (intros x; apply inline_holds, mk_inline; vm_compute; done).
    destruct (compare_ok (t_env T) (mk_4b_u [200]) (mk_4b_u [65]) [200] [65] collid) as (p1 & p2 & Hc2 & _);
      [apply Ha..|solve_bytes|solve_bytes|vm_compute; reflexivity|done|].
    rewrite Hc2. split; [done|]. intros Hcc. rewrite (bttextcmp_ok T collid Hcol _ _ [200] [65]) by apply Ha.
    unfold collation_order. by rewrite Hcc.
Qed.

(** ** Witnesses *)

Definition sample_prefix : list Z := mk_4b_u [110; 0xC3] ++ [7].

Lemma sample_prefix_holds : holds sample_env sample_prefix [110; 0xC3].
Proof. by apply holds_direct, direct_inline, inline_4b. Qed.

Lemma texteq_correct_witness :
  texteq sample_tenv sample_text sample_prefix 100 = Ok false /\
  texteq sample_tenv sample_text sample_text 100 = Ok true.
Proof.
  destruct (texteq_correct sample_tenv 100 _ _ _ _ eq_refl eq_refl sample_text_holds sample_prefix_holds) as (-> & _).
  destruct (texteq_correct sample_tenv 100 _ _ _ _ eq_refl eq_refl sample_text_holds sample_text_holds) as (-> & _).
  split; vm_compute; reflexivity.
Defined.

Lemma text_order_correct_witness :
  bttextcmp sample_tenv sample_prefix sample_text 100 = Ok (-1) /\ bttextcmp sample_tenv sample_text sample_prefix 100 = Ok 1.
Proof.
  destruct (text_order_correct sample_tenv 100 _ _ _ _ eq_refl eq_refl sample_prefix_holds sample_text_holds) as (-> & -> & _).
  split; vm_compute; reflexivity.
Defined.

Lemma text_starts_with_correct_witness : text_starts_with sample_tenv sample_text sample_prefix 100 = Ok true.
Proof.
  rewrite (text_starts_with_correct sample_tenv 100 _ _ _ _ _ eq_refl eq_refl eq_refl sample_text_holds sample_prefix_holds sample_text_of).
  - vm_compute. reflexivity.
  - apply past_fits. vm_compute. discriminate.
Defined.

Lemma hocotext_text_agree_witness :
  hocotext_eq sample_env 100 hoco_compressed hoco_plain = texteq sample_tenv hoco_compressed hoco_plain 100 /\
  hocotext_cmp sample_env 100 hoco_compressed hoco_next = bttextcmp sample_tenv hoco_compressed hoco_next 100.
Proof.
  destruct (hocotext_text_agree sample_tenv 100 _ _ _ _ eq_refl hoco_compressed_holds hoco_plain_holds
    ltac:(solve_bytes) ltac:(solve_bytes) ltac:(vm_compute; reflexivity)) as (Heq & _).
  destruct (hocotext_text_agree sample_tenv 100 _ _ _ _ eq_refl hoco_compressed_holds hoco_next_holds
    ltac:(solve_bytes) ltac:(solve_bytes) ltac:(vm_compute; reflexivity)) as (_ & Hcmp & _).
  split; [by apply Heq|]. apply Hcmp; [done|..]; repeat constructor; lia.
Defined.
