(* ===== verification/TextSearch.v ===== *)
(** Search in text values: the text_position_* machinery of
    src/backend/utils/adt/varlena.c (Boyer-Moore-Horspool on the bytes, with a check of the
    character boundaries where the encoding needs one) and the functions built on it:
    position, replace, split_part and split_text, the common code of string_to_array and
    string_to_table.

    Pointers into the haystack are offsets from its first byte. *)

From S2P Require Import Prelude Varatt Rle Pglz PglzHist PglzItems PglzCodec ToastCompression Oids ToastStore Detoast Wchar StringInfo Text.

Record TextPositionState := {
  is_multibyte_char_in_char : bool;
  str1 : list Z;
  str2 : list Z;
  len1 : Z;
  len2 : Z;
  skiptablemask : Z;
  skiptable : list Z;         (* the entries that are initialized *)
  last_match : option Z;
  refpoint : Z;
  refpos : Z
}.

Definition set_last_match (st : TextPositionState) (m : option Z) : TextPositionState :=
  {| is_multibyte_char_in_char := is_multibyte_char_in_char st; str1 := str1 st; str2 := str2 st; len1 := len1 st;
     len2 := len2 st; skiptablemask := skiptablemask st; skiptable := skiptable st; last_match := m;
     refpoint := refpoint st; refpos := refpos st |}.
Definition set_ref (st : TextPositionState) (p n : Z) : TextPositionState :=
  {| is_multibyte_char_in_char := is_multibyte_char_in_char st; str1 := str1 st; str2 := str2 st; len1 := len1 st;
     len2 := len2 st; skiptablemask := skiptablemask st; skiptable := skiptable st; last_match := last_match st;
     refpoint := p; refpos := n |}.

Definition choose_mask (searchlength : Z) : Z :=
  if searchlength <? 16 then 3
  else if searchlength <? 64 then 7
  else if searchlength <? 128 then 15
  else if searchlength <? 512 then 31
  else if searchlength <? 2048 then 63
  else if searchlength <? 4096 then 127
  else 255.

(** for (i = 0; i < last; i++): n more of them from i *)
Fixpoint fill_skip (str2 : list Z) (mask last i : Z) (n : nat) (tbl : list Z) : res (list Z) :=
  match n with
  | O => Ok tbl
  | S n => c ← rd str2 i; fill_skip str2 mask last (i + 1) n (<[Z.to_nat (Z.land c mask) := last - i]> tbl)
  end.

Section search.
Context (T : tenv).

Definition text_position_setup (t1 t2 : list Z) (collid : Z) : res TextPositionState :=
  x1 ← text_data t1; x2 ← text_data t2;
  let '(s1, len1) := x1 in
  let '(s2, len2) := x2 in
  _ ← check_collation_set collid;
  if negb (search_locale_ok T collid) then Ereport ERRCODE_FEATURE_NOT_SUPPORTED else
  let mb := if eml T =? 1 then false else match t_enc T with PG_UTF8 => false | _ => true end in
  let st mask tbl :=
    {| is_multibyte_char_in_char := mb; str1 := s1; str2 := s2; len1 := len1; len2 := len2;
       skiptablemask := mask; skiptable := tbl; last_match := None; refpoint := 0; refpos := 0 |} in
  if (len1 >=? len2) && (len2 >? 1) then
    let mask := choose_mask (len1 - len2) in
    let last := len2 - 1 in
    tbl ← fill_skip s2 mask last 0 (Z.to_nat last) (replicate (Z.to_nat (mask + 1)) len2);
    Ok (st mask tbl)
  else Ok (st 0 []).

Definition byte_body (st : TextPositionState) (nchar hptr : Z) : res (Z + option Z) :=
  if hptr <? len1 st then
    c ← rd (str1 st) hptr;
    if c =? nchar then Ok (inr (Some hptr)) else Ok (inl (hptr + 1))
  else Ok (inr None).

(** Match the needle scanning backward; the state is nptr and p. *)
Definition back_body (st : TextPositionState) (x : Z * Z) : res (Z * Z + option Z) :=
  let '(nptr, p) := x in
  a ← rd (str2 st) nptr; b ← rd (str1 st) p;
  if a =? b then if nptr =? 0 then Ok (inr (Some p)) else Ok (inl (nptr - 1, p - 1))
  else Ok (inr None).
Definition bmh_body (st : TextPositionState) (hptr : Z) : res (Z + option Z) :=
  if hptr <? len1 st then
    m ← iter (S (Z.to_nat (len2 st))) (back_body st) (len2 st - 1, hptr);
    match m with
    | Some p => Ok (inr (Some p))
    | None =>
        c ← rd (str1 st) hptr;
        k ← rd (skiptable st) (Z.land c (skiptablemask st));
        Ok (inl (hptr + k))
    end
  else Ok (inr None).

Definition text_position_next_internal (start_ptr : Z) (st : TextPositionState) : res (option Z) :=
  let fuel := S (Z.to_nat (len1 st)) in
  if len2 st =? 1 then nchar ← rd (str2 st) 0; iter fuel (byte_body st nchar) start_ptr
  else iter fuel (bmh_body st) (start_ptr + len2 st - 1).

(** Walk one character at a time, until we reach the match; false if it was stepped over. *)
Definition walk_body (st : TextPositionState) (matchptr : Z) (x : Z * Z) : res (Z * Z + Z * Z * bool) :=
  let '(p, n) := x in
  if p <? matchptr then
    l ← pg_mblen (t_enc T) (drop (Z.to_nat p) (str1 st));
    if p + l >? matchptr then Ok (inr (p + l, n + 1, false)) else Ok (inl (p + l, n + 1))
  else Ok (inr (p, n, true)).

(** One round of retry; the state is start_ptr, refpoint and refpos. *)
Definition retry_body (st : TextPositionState) (x : Z * Z * Z) : res (Z * Z * Z + option Z * Z * Z) :=
  let '(start_ptr, p, n) := x in
  m ← text_position_next_internal start_ptr st;
  match m with
  | None => Ok (inr (None, p, n))
  | Some matchptr =>
      if is_multibyte_char_in_char st then
        w ← iter (S (Z.to_nat (len1 st))) (walk_body st matchptr) (p, n);
        let '(p, n, aligned) := w in
        if (aligned : bool) then Ok (inr (Some matchptr, p, n)) else Ok (inl (p, p, n))
      else Ok (inr (Some matchptr, p, n))
  end.

Definition text_position_next (st : TextPositionState) : res (bool * TextPositionState) :=
  if len2 st <=? 0 then Ok (false, st) else
  let start_ptr := match last_match st with Some m => m + len2 st | None => 0 end in
  r ← iter (S (Z.to_nat (len1 st))) (retry_body st) (start_ptr, refpoint st, refpos st);
  let '(m, p, n) := r in
  match m with
  | None => Ok (false, set_ref st p n)
  | Some matchptr => Ok (true, set_last_match (set_ref st p n) (Some matchptr))
  end.

(** A null pointer is not usable. *)
Definition text_position_get_match_ptr (st : TextPositionState) : res Z :=
  match last_match st with Some m => Ok m | None => Ub end.

Definition text_position_get_match_pos (st : TextPositionState) : res (Z * TextPositionState) :=
  m ← text_position_get_match_ptr st;
  k ← pg_mbstrlen_with_len (t_enc T) (drop (Z.to_nat (refpoint st)) (str1 st)) (m - refpoint st);
  Ok (refpos st + k + 1, set_ref st m (refpos st + k)).

Definition text_position_reset (st : TextPositionState) : TextPositionState :=
  set_last_match (set_ref st 0 0) None.

Definition text_position (t1 t2 : list Z) (collid : Z) : res Z :=
  l2 ← VARSIZE_ANY_EXHDR t2;
  if l2 <? 1 then Ok 1 else
  l1 ← VARSIZE_ANY_EXHDR t1;
  if l1 <? l2 then Ok 0 else
  st ← text_position_setup t1 t2 collid;
  r ← text_position_next st;
  if negb r.1 then Ok 0 else x ← text_position_get_match_pos r.2; Ok x.1.
Definition textpos (str search_str : list Z) (collid : Z) : res Z :=
  str ← DatumGetTextPP T str; search_str ← DatumGetTextPP T search_str; text_position str search_str collid.

(** ** replace *)

Definition appendStringInfoText (str : StringInfoData) (t : list Z) : res StringInfoData :=
  x ← text_data t; appendBinaryStringInfo str x.1 x.2.

(** The do loop of replace_text: the buffer, start_ptr, curr_ptr and the search. *)
Definition replace_body (to_sub_text : list Z) (from_sub_text_len : Z)
  (x : StringInfoData * Z * Z * TextPositionState) :
  res (StringInfoData * Z * Z * TextPositionState + StringInfoData * Z) :=
  let '(str, start_ptr, curr_ptr, st) := x in
  str ← appendBinaryStringInfo str (drop (Z.to_nat start_ptr) (str1 st)) (curr_ptr - start_ptr);
  str ← appendStringInfoText str to_sub_text;
  let start_ptr := curr_ptr + from_sub_text_len in
  r ← text_position_next st;
  let '(found, st) := r in
  if (found : bool) then
    curr_ptr ← text_position_get_match_ptr st;
    Ok (inl (str, start_ptr, curr_ptr, st))
  else Ok (inr (str, start_ptr)).

Definition replace_text (src_text from_sub_text to_sub_text : list Z) (collid : Z) : res (list Z) :=
  src_text ← DatumGetTextPP T src_text;
  from_sub_text ← DatumGetTextPP T from_sub_text;
  to_sub_text ← DatumGetTextPP T to_sub_text;
  src_text_len ← VARSIZE_ANY_EXHDR src_text;
  from_sub_text_len ← VARSIZE_ANY_EXHDR from_sub_text;
  if (src_text_len <? 1) || (from_sub_text_len <? 1) then Ok src_text else
  st ← text_position_setup src_text from_sub_text collid;
  r ← text_position_next st;
  let '(found, st) := r in
  if negb found then Ok src_text else
  curr_ptr ← text_position_get_match_ptr st;
  str ← initStringInfo;
  y ← iter (S (Z.to_nat src_text_len)) (replace_body to_sub_text from_sub_text_len) (str, 0, curr_ptr, st);
  let '(str, start_ptr) := y in
  p ← VARDATA_ANY src_text;
  sz ← VARSIZE_ANY src_text;
  str ← appendBinaryStringInfo str (drop (Z.to_nat start_ptr) (str1 st)) (sz - (p + start_ptr));
  cstring_to_text_with_len (si_data str) (si_len str).

(** ** split_part *)

Definition count_body (x : Z * TextPositionState) : res (Z * TextPositionState + Z * TextPositionState) :=
  let '(numfields, st) := x in
  r ← text_position_next st;
  let '(found, st) := r in
  if (found : bool) then Ok (inl (numfields + 1, st)) else Ok (inr (numfields, st)).

(** while (found && --fldnum > 0); the state is found, fldnum, start_ptr, end_ptr and the
    search. *)
Definition field_body (fldsep_len : Z) (x : bool * Z * Z * Z * TextPositionState) :
  res (bool * Z * Z * Z * TextPositionState + Z * Z * Z) :=
  let '(found, fldnum, start_ptr, end_ptr, st) := x in
  if negb found then Ok (inr (fldnum, start_ptr, end_ptr)) else
  let fldnum := fldnum - 1 in
  if negb (fldnum >? 0) then Ok (inr (fldnum, start_ptr, end_ptr)) else
  let start_ptr := end_ptr + fldsep_len in
  r ← text_position_next st;
  let '(found, st) := r in
  end_ptr ← (if (found : bool) then text_position_get_match_ptr st else Ok end_ptr);
  Ok (inl (found, fldnum, start_ptr, end_ptr, st)).

(** From "identify bounds of first field" on *)
Definition take_field (st : TextPositionState) (inputstring_len fldsep_len fldnum : Z) : res (list Z) :=
  end_ptr ← text_position_get_match_ptr st;
  y ← iter (S (S (Z.to_nat inputstring_len))) (field_body fldsep_len) (true, fldnum, 0, end_ptr, st);
  let '(fldnum, start_ptr, end_ptr) := y in
  if fldnum >? 0 then
    if fldnum =? 1 then
      cstring_to_text_with_len (drop (Z.to_nat start_ptr) (str1 st)) (inputstring_len - start_ptr)
    else cstring_to_text []
  else cstring_to_text_with_len (drop (Z.to_nat start_ptr) (str1 st)) (end_ptr - start_ptr).

Definition split_part (inputstring fldsep : list Z) (fldnum collid : Z) : res (list Z) :=
  inputstring ← DatumGetTextPP T inputstring;
  fldsep ← DatumGetTextPP T fldsep;
  if fldnum =? 0 then Ereport ERRCODE_INVALID_PARAMETER_VALUE else
  inputstring_len ← VARSIZE_ANY_EXHDR inputstring;
  fldsep_len ← VARSIZE_ANY_EXHDR fldsep;
  let whole := if (fldnum =? 1) || (fldnum =? -1) then Ok inputstring else cstring_to_text [] in
  if inputstring_len <? 1 then cstring_to_text [] else
  if fldsep_len <? 1 then whole else
  st ← text_position_setup inputstring fldsep collid;
  r ← text_position_next st;
  let '(found, st) := r in
  if negb found then whole else
  if fldnum <? 0 then
    y ← iter (S (Z.to_nat inputstring_len)) count_body (2, st);
    let '(numfields, st) := y in
    if fldnum =? -1 then
      m ← text_position_get_match_ptr st;
      let start_ptr := m + fldsep_len in
      cstring_to_text_with_len (drop (Z.to_nat start_ptr) (str1 st)) (inputstring_len - start_ptr)
    else
      let fldnum := fldnum + (numfields + 1) in
      if fldnum <=? 0 then cstring_to_text [] else
      r ← text_position_next (text_position_reset st);
      take_field r.2 inputstring_len fldsep_len fldnum
  else take_field st inputstring_len fldsep_len fldnum.

(** ** split_text *)

(** The elements that are put into the array or the table, in order; None is NULL. *)
Definition split_text_accum_result (tstate : list (option (list Z))) (field_value : list Z)
  (null_string : option (list Z)) (collid : Z) : res (list (option (list Z))) :=
  is_null ← match null_string with Some ns => texteq T field_value ns collid | None => Ok false end;
  Ok (tstate ++ [if (is_null : bool) then None else Some field_value]).

Definition split_body (inputstring : list Z) (fldsep_len : Z) (null_string : option (list Z)) (collid : Z)
  (x : list (option (list Z)) * Z * TextPositionState) :
  res (list (option (list Z)) * Z * TextPositionState + list (option (list Z))) :=
  let '(tstate, start_ptr, st) := x in
  r ← text_position_next st;
  let '(found, st) := r in
  if (found : bool) then
    end_ptr ← text_position_get_match_ptr st;
    result_text ← cstring_to_text_with_len (drop (Z.to_nat start_ptr) (str1 st)) (end_ptr - start_ptr);
    tstate ← split_text_accum_result tstate result_text null_string collid;
    Ok (inl (tstate, end_ptr + fldsep_len, st))
  else
    p ← VARDATA_ANY inputstring;
    sz ← VARSIZE_ANY inputstring;
    result_text ← cstring_to_text_with_len (drop (Z.to_nat start_ptr) (str1 st)) (sz - (p + start_ptr));
    tstate ← split_text_accum_result tstate result_text null_string collid;
    Ok (inr tstate).

Definition split_chars_body (null_string : option (list Z)) (collid : Z)
  (x : list (option (list Z)) * list Z * Z) : res (list (option (list Z)) * list Z * Z + list (option (list Z))) :=
  let '(tstate, start_ptr, inputstring_len) := x in
  if inputstring_len >? 0 then
    chunk_len ← pg_mblen (t_enc T) start_ptr;
    result_text ← cstring_to_text_with_len start_ptr chunk_len;
    tstate ← split_text_accum_result tstate result_text null_string collid;
    Ok (inl (tstate, drop (Z.to_nat chunk_len) start_ptr, inputstring_len - chunk_len))
  else Ok (inr tstate).

(** The result None is SQL's NULL; an argument None is NULL, or omitted for null_string. *)
Definition split_text (inputstring fldsep null_string : option (list Z)) (collid : Z) :
  res (option (list (option (list Z)))) :=
  match inputstring with
  | None => Ok None
  | Some inputstring =>
      inputstring ← DatumGetTextPP T inputstring;
      fldsep ← match fldsep with Some f => f ← DatumGetTextPP T f; Ok (Some f) | None => Ok None end;
      null_string ← match null_string with Some n => n ← DatumGetTextPP T n; Ok (Some n) | None => Ok None end;
      inputstring_len ← VARSIZE_ANY_EXHDR inputstring;
      match fldsep with
      | Some fldsep =>
          fldsep_len ← VARSIZE_ANY_EXHDR fldsep;
          if inputstring_len <? 1 then Ok (Some []) else
          if fldsep_len <? 1 then
            t ← split_text_accum_result [] inputstring null_string collid; Ok (Some t)
          else
            st ← text_position_setup inputstring fldsep collid;
            t ← iter (S (Z.to_nat inputstring_len)) (split_body inputstring fldsep_len null_string collid) ([], 0, st);
            Ok (Some t)
      | None =>
          x ← text_data inputstring;
          t ← iter (S (Z.to_nat inputstring_len)) (split_chars_body null_string collid) ([], x.1, inputstring_len);
          Ok (Some t)
      end
  end.
End search.
