(* ===== verification/TextSearchBmh.v ===== *)
(** The search of TextSearch.v finds the first occurrence: on the bytes, where the skip
    table never skips an occurrence, and on the characters, where occurrences that begin
    inside a character are passed over. *)

From S2P Require Import Prelude Varatt Rle Pglz PglzHist PglzItems PglzCodec ToastCompression Oids ToastStore Detoast.
From S2P Require Import Wchar Mbchar Utf8 StringInfo Text TextOps TextSearch.

(** ** The skip table *)

(** The entry of every byte is a step forward, and no step passes over a place of the
    needle, its last byte apart, that has the byte. *)
Definition skip_ok (mask : Z) (tbl needle : list Z) : Prop :=
  forall c, is_byte c -> exists k, rd tbl (Z.land c mask) = Ok k /\ 1 <= k <= zlen needle /\
    forall j, 0 <= j < zlen needle - 1 -> rd needle j = Ok c -> k <= zlen needle - 1 - j.

Lemma choose_mask_cases n :
  choose_mask n = 3 \/ choose_mask n = 7 \/ choose_mask n = 15 \/ choose_mask n = 31 \/
  choose_mask n = 63 \/ choose_mask n = 127 \/ choose_mask n = 255.
Proof. unfold choose_mask. repeat case_match; auto 7. Qed.

Lemma mask_range n c : is_byte c -> 0 <= Z.land c (choose_mask n) <= choose_mask n.
Proof.
  intros Hc.
  assert (H : forall k, 0 <= k -> 0 <= Z.land c (Z.ones k) <= Z.ones k).
  { intros k Hk. rewrite Z.land_ones by lia. rewrite Z.ones_equiv. pose proof (Z.mod_pos_bound c (2 ^ k)). lia. }
  destruct (choose_mask_cases n) as [->|[->|[->|[->|[->|[->| ->]]]]]];
    [apply (H 2)|apply (H 3)|apply (H 4)|apply (H 5)|apply (H 6)|apply (H 7)|apply (H 8)]; lia.
Qed.

Section fill.
Context (needle tail : list Z) (n : Z) (Hb : bytes needle) (H2 : 2 <= zlen needle).
Let mask := choose_mask n.
Let last := zlen needle - 1.

(** The table after the first i places of the needle *)
Definition filled (i : Z) (tbl : list Z) : Prop :=
  zlen tbl = mask + 1 /\
  forall c, is_byte c -> exists k, tbl !! Z.to_nat (Z.land c mask) = Some k /\ last - i + 1 <= k <= last + 1 /\
    forall j, 0 <= j < i -> rd needle j = Ok c -> k <= last - j.

Lemma fill_skip_ok m i tbl :
  filled i tbl -> 0 <= i -> i + Z.of_nat m = last ->
  exists tbl', fill_skip (needle ++ tail) mask last i m tbl = Ok tbl' /\ filled last tbl'.
Proof using Hb H2.
  revert i tbl. induction m as [|m IH]; intros i tbl Hf Hi Hm; simpl.
  - exists tbl. replace last with i by lia. done.
  - destruct (rd_in_range needle i) as [c Hc]; [unfold last in Hm; lia|].
    rewrite rd_app_l by (unfold last in Hm; lia). rewrite Hc. bind. apply IH; [|lia|lia].
    destruct Hf as [Hz Hf]. split; [by rewrite zlen_insert|]. intros d Hd.
    pose proof (rd_byte _ _ _ Hb Hc) as Hcb. pose proof (mask_range n c Hcb) as Hcr. pose proof (mask_range n d Hd) as Hdr.
    fold mask in Hcr, Hdr. destruct (decide (Z.land c mask = Z.land d mask)) as [Heq|Hne].
    + exists (last - i). rewrite Heq, list_lookup_insert_eq by (unfold zlen in Hz; lia). split; [done|]. split; [lia|]. lia.
    + destruct (Hf d Hd) as (k & Hk & Hlo & Hhi). exists k. rewrite list_lookup_insert_ne by lia. split; [done|].
      split; [lia|]. intros j Hj Hr. destruct (decide (j = i)) as [->|]; [|apply Hhi; [lia|done]]. congruence.
Qed.

Lemma fill_table :
  exists tbl, fill_skip (needle ++ tail) mask last 0 (Z.to_nat last) (replicate (Z.to_nat (mask + 1)) (zlen needle)) = Ok tbl /\
    skip_ok mask tbl needle.
Proof using Hb H2.
  destruct (fill_skip_ok (Z.to_nat last) 0 (replicate (Z.to_nat (mask + 1)) (zlen needle))) as (tbl & He & Hz & Hf).
  - assert (0 <= mask) by (unfold mask; destruct (choose_mask_cases n); lia). split; [zl|]. intros c Hc.
    pose proof (mask_range n c Hc) as Hr. fold mask in Hr. exists (zlen needle). rewrite lookup_replicate_2 by lia.
    split; [done|]. split; [unfold last; lia|]. lia.
  - lia.
  - unfold last; lia.
  - exists tbl. split; [done|]. intros c Hc. destruct (Hf c Hc) as (k & Hk & Hlo & Hhi). pose proof (mask_range n c Hc) as Hr.
    exists k. split; [apply rd_Some; [unfold mask in *; lia|done]|]. split; [unfold last in *; lia|]. exact Hhi.
Qed.
End fill.

(** ** Occurrences *)

Definition occ (h n : list Z) (i : Z) : Prop := exists a b, h = a ++ n ++ b /\ zlen a = i.

Lemma occ_range h n i : occ h n i -> 0 <= i <= zlen h - zlen n.
Proof. intros (a & b & -> & <-). zl. Qed.

Lemma occ_rd h n i j : occ h n i -> 0 <= j < zlen n -> rd h (i + j) = rd n j.
Proof.
  intros (a & b & -> & <-) Hj. rewrite rd_app_r by lia. rewrite rd_app_l by lia. f_equal. lia.
Qed.

Lemma rd_occ h n i :
  0 <= i <= zlen h - zlen n -> (forall j, 0 <= j < zlen n -> rd h (i + j) = rd n j) -> occ h n i.
Proof.
  intros Hi Hr. exists (take (Z.to_nat i) h), (drop (Z.to_nat (i + zlen n)) h). split; [|zl].
  rewrite <- (take_drop (Z.to_nat i) h) at 1. f_equal.
  rewrite <- (take_drop (Z.to_nat (zlen n)) (drop (Z.to_nat i) h)), drop_drop. pose proof (zlen_nonneg n).
  replace (Z.to_nat i + Z.to_nat (zlen n))%nat with (Z.to_nat (i + zlen n)) by lia. f_equal.
  apply list_eq_same_length with (n := length n); [done|rewrite length_take, length_drop; unfold zlen in *; lia|].
  intros j x y Hj. rewrite lookup_take_lt, lookup_drop by (unfold zlen; lia). intros Hx Hy.
  specialize (Hr (Z.of_nat j) ltac:(unfold zlen; lia)).
  assert (E1 : rd h (i + Z.of_nat j) = Ok x).
  { apply rd_Some; [lia|]. by replace (Z.to_nat (i + Z.of_nat j)) with (Z.to_nat i + j)%nat by lia. }
  assert (E2 : rd n (Z.of_nat j) = Ok y) by (apply rd_Some; [lia|by rewrite Nat2Z.id]). congruence.
Qed.

(** ** The byte search *)

Record search_wf (st : TextPositionState) (h n : list Z) : Prop := {
  sw_str1 : exists t, str1 st = h ++ t;
  sw_str2 : exists t, str2 st = n ++ t;
  sw_len1 : len1 st = zlen h;
  sw_len2 : len2 st = zlen n;
  sw_bytes : bytes h;
  sw_skip : 2 <= zlen n <= zlen h -> skip_ok (skiptablemask st) (skiptable st) n
}.

(** What a search from [start] has to give: the least occurrence. *)
Definition first_occ (h n : list Z) (start : Z) (r : option Z) : Prop :=
  match r with
  | Some i => start <= i /\ occ h n i /\ forall j, start <= j < i -> ~ occ h n j
  | None => forall j, start <= j -> ~ occ h n j
  end.

Section bmh.
Context (st : TextPositionState) (h n : list Z) (Hwf : search_wf st h n).

Lemma rd_h i : 0 <= i < zlen h -> rd (str1 st) i = rd h i.
Proof using Hwf. intros Hi. destruct (sw_str1 _ _ _ Hwf) as [t ->]. by apply rd_app_l. Qed.
Lemma rd_n i : 0 <= i < zlen n -> rd (str2 st) i = rd n i.
Proof using Hwf. intros Hi. destruct (sw_str2 _ _ _ Hwf) as [t ->]. by apply rd_app_l. Qed.

Lemma back_ok i :
  0 < zlen n -> 0 <= i <= zlen h - zlen n ->
  returns (iter (S (Z.to_nat (len2 st))) (back_body st) (len2 st - 1, i + zlen n - 1))
    (fun r => match r with Some p => p = i /\ occ h n i | None => ~ occ h n i end).
Proof using Hwf.
  intros Hn Hi. rewrite (sw_len2 _ _ _ Hwf).
  apply (iter_returns (fun x => 0 <= x.1 < zlen n /\ x.2 = i + x.1 /\ forall j, x.1 < j < zlen n -> rd h (i + j) = rd n j)
           (fun x => Z.to_nat x.1)); simpl; [|split_and!; lia|lia].
  intros [nptr p] (Hp & Hpi & Hr). simpl in *. subst p. unfold back_body.
  destruct (rd_in_range n nptr) as [a Ha]; [lia|]. destruct (rd_in_range h (i + nptr)) as [b Hb]; [lia|].
  rewrite rd_n, rd_h, Ha, Hb by lia. bind. destruct (Z.eqb_spec a b) as [->|Hne].
  - assert (Hr' : forall j, nptr <= j < zlen n -> rd h (i + j) = rd n j).
    { intros j Hj. destruct (decide (j = nptr)) as [->|]; [congruence|apply Hr; lia]. }
    destruct (Z.eqb_spec nptr 0) as [->|]; simpl; [split; [lia|by apply rd_occ]|].
    split_and!; [lia..| |lia]. intros j Hj. apply Hr'. lia.
  - simpl. intros Ho. apply (occ_rd _ _ _ nptr) in Ho; [congruence|lia].
Qed.

Lemma bmh_ok start :
  0 <= start -> 2 <= zlen n ->
  returns (iter (S (Z.to_nat (len1 st))) (bmh_body st) (start + len2 st - 1)) (first_occ h n start).
Proof using Hwf.
  intros Hs Hn. rewrite (sw_len1 _ _ _ Hwf), (sw_len2 _ _ _ Hwf).
  apply (iter_returns (fun p => start <= p - (zlen n - 1) /\ forall j, start <= j < p - (zlen n - 1) -> ~ occ h n j)
           (fun p => Z.to_nat (zlen h - p))); [|split; lia|lia].
  intros p [Hp Hno]. unfold bmh_body. rewrite (sw_len1 _ _ _ Hwf). destruct (Z.ltb_spec p (zlen h)) as [Hlt|Hge]; simpl.
  2: { intros j Hj Ho. pose proof (occ_range _ _ _ Ho). apply (Hno j); [lia|done]. }
  remember (p - (zlen n - 1)) as i eqn:Hi. pose proof (back_ok i) as Hb. replace (i + zlen n - 1) with p in Hb by lia.
  apply returns_eq in Hb as (r & -> & Hr); [|lia..]. bind. destruct r as [q|]; [destruct Hr as [-> Ho]; by split|].
  destruct (rd_in_range h p) as [c Hc]; [lia|]. rewrite rd_h, Hc by lia. bind.
  destruct (sw_skip _ _ _ Hwf ltac:(lia) c) as (k & Hk & Hk1 & Hskip); [by apply (rd_byte _ _ _ (sw_bytes _ _ _ Hwf) Hc)|].
  rewrite Hk. bind. split; [|lia]. split; [lia|]. intros j Hj Ho.
  destruct (Z.lt_trichotomy j i) as [Hji|[->|Hji]]; [apply (Hno j); [lia|done]|done|].
  pose proof (occ_rd _ _ _ (p - j) Ho ltac:(lia)) as Hrd. replace (j + (p - j)) with p in Hrd by lia. rewrite Hc in Hrd.
  specialize (Hskip (p - j) ltac:(lia) (eq_sym Hrd)). lia.
Qed.

Lemma next_internal_ok start :
  0 <= start -> 0 < zlen n -> returns (text_position_next_internal start st) (first_occ h n start).
Proof using Hwf.
  intros Hs Hn. unfold text_position_next_internal. destruct (Z.eqb_spec (len2 st) 1) as [H1|H1].
  2: { apply bmh_ok; [done|]. rewrite (sw_len2 _ _ _ Hwf) in H1. lia. }
  rewrite (sw_len2 _ _ _ Hwf) in H1. destruct (rd_in_range n 0) as [x Hx]; [lia|]. rewrite rd_n, Hx, (sw_len1 _ _ _ Hwf) by lia. bind.
  assert (Ho1 : forall j, 0 <= j < zlen h -> occ h n j <-> rd h j = Ok x).
  { intros j Hj. split; intros Ho; [apply (occ_rd _ _ _ 0) in Ho; [|lia]; by rewrite Z.add_0_r, Hx in Ho|].
    apply rd_occ; [lia|]. intros k Hk. replace k with 0 by lia. by rewrite Z.add_0_r, Hx. }
  apply (iter_returns (fun p => start <= p /\ forall j, start <= j < p -> ~ occ h n j) (fun p => Z.to_nat (zlen h - p)));
    [|split; lia|lia].
  intros p [Hp Hno]. unfold byte_body. rewrite (sw_len1 _ _ _ Hwf). destruct (Z.ltb_spec p (zlen h)) as [Hlt|Hge]; simpl.
  2: { intros j Hj Ho. pose proof (occ_range _ _ _ Ho). apply (Hno j); [lia|done]. }
  destruct (rd_in_range h p) as [c Hc]; [lia|]. rewrite rd_h, Hc by lia. bind. destruct (Z.eqb_spec c x) as [->|Hne]; simpl.
  - split; [done|]. split; [apply Ho1; [lia|done]|done].
  - split; [|lia]. split; [lia|]. intros j Hj Ho. destruct (decide (j = p)) as [->|]; [|apply (Hno j); [lia|done]].
    apply Ho1 in Ho; [congruence|lia].
Qed.
End bmh.

(** ** Occurrences of characters *)

Fixpoint find_chars (ns cs : list (list Z)) : option nat :=
  if bool_decide (ns `prefix_of` cs) then Some 0%nat
  else match cs with [] => None | _ :: cs => S <$> find_chars ns cs end.

Lemma find_chars_spec ns cs :
  match find_chars ns cs with
  | Some k => (k <= length cs)%nat /\ ns `prefix_of` drop k cs /\ forall j, (j < k)%nat -> ~ ns `prefix_of` drop j cs
  | None => forall j, ~ ns `prefix_of` drop j cs
  end.
Proof.
  induction cs as [|c cs IH]; simpl; case_bool_decide as Hp; simpl; [split_and!; [lia|done|lia]| |split_and!; [lia|done|lia]|].
  - intros j. by rewrite drop_nil.
  - destruct (find_chars ns cs) as [k|]; simpl.
    + destruct IH as (Hk & Hpk & Hno). split; [lia|]. split; [done|]. intros [|j] Hj; [done|]. apply Hno. lia.
    + intros [|j]; [done|]. apply IH.
Qed.

(** The first place from [k0] on *)
Definition first_char (cs ns : list (list Z)) (k0 : nat) (r : option nat) : Prop :=
  match r with
  | Some k => (k0 <= k <= length cs)%nat /\ ns `prefix_of` drop k cs /\
      forall j, (k0 <= j < k)%nat -> ~ ns `prefix_of` drop j cs
  | None => forall j, (k0 <= j <= length cs)%nat -> ~ ns `prefix_of` drop j cs
  end.

Lemma first_char_find cs ns k0 r :
  (k0 <= length cs)%nat -> first_char cs ns k0 r -> r = (fun k => k0 + k)%nat <$> find_chars ns (drop k0 cs).
Proof.
  intros Hk0 Hf. pose proof (find_chars_spec ns (drop k0 cs)) as Hs. destruct (find_chars ns (drop k0 cs)) as [k|]; simpl.
  - destruct Hs as (Hk & Hp & Hno). rewrite length_drop in Hk. rewrite drop_drop in Hp. destruct r as [k'|]; simpl in Hf.
    + destruct Hf as (Hr & Hp' & Hno'). f_equal. destruct (Nat.lt_trichotomy k' (k0 + k)) as [Hlt|[?|Hlt]]; [|done|].
      * exfalso. apply (Hno (k' - k0)%nat); [lia|]. rewrite drop_drop. by replace (k0 + (k' - k0))%nat with k' by lia.
      * exfalso. apply (Hno' (k0 + k)%nat); [lia|done].
    + exfalso. apply (Hf (k0 + k)%nat); [lia|done].
  - destruct r as [k'|]; [|done]. exfalso. destruct Hf as (Hr & Hp' & _). apply (Hs (k' - k0)%nat).
    rewrite drop_drop. by replace (k0 + (k' - k0))%nat with k' by lia.
Qed.

(** The byte offset of a character *)
Definition bpos (cs : list (list Z)) (k : nat) : Z := zlen (concat (take k cs)).

Section boundaries.
Context (e : pg_enc) (cs ns : list (list Z)) (h n : list Z).
Context (Hh : text_of e cs h) (Hn : text_of e ns n) (Hne : ns <> []).

Lemma bpos_add k j : bpos cs (k + j) = bpos cs k + zlen (concat (take j (drop k cs))).
Proof using Type. unfold bpos. by rewrite <- zlen_app, <- concat_app, take_take_drop. Qed.

Lemma bpos_le j k : (j <= k)%nat -> bpos cs j <= bpos cs k.
Proof using Type. intros Hj. replace k with (j + (k - j))%nat by lia. rewrite bpos_add. zl. Qed.

Lemma bpos_lt j k : (j < k <= length cs)%nat -> bpos cs j < bpos cs k.
Proof using Hh.
  intros Hj. replace k with (j + (k - j))%nat by lia. rewrite bpos_add. destruct Hh as [_ Hall].
  pose proof (concat_size e (take (k - j) (drop j cs)) (Forall_take _ _ _ (Forall_drop _ _ _ Hall))) as [Hs _].
  rewrite zlen_take, zlen_drop in Hs. unfold zlen in *. lia.
Qed.

Lemma bpos_full : bpos cs (length cs) = zlen h.
Proof using Hh. unfold bpos. rewrite take_ge by done. by destruct Hh as [-> _]. Qed.

Lemma bpos_drop k t : drop (Z.to_nat (bpos cs k)) (h ++ t) = concat (drop k cs) ++ t.
Proof using Hh.
  destruct Hh as [-> _]. unfold bpos. rewrite <- (take_drop k cs) at 2. rewrite concat_app, <- app_assoc. apply drop_zlen_app.
Qed.

(** Two texts of which one begins with the bytes of the other *)
Lemma prefix_chars xs ys b :
  Forall (mbchar e) xs -> Forall (mbchar e) ys -> concat ys = concat xs ++ b -> xs `prefix_of` ys.
Proof using Type.
  intros Hx. revert ys. induction Hx as [|x xs Hx _ IH]; intros ys Hy Heq; [by exists ys|].
  destruct Hy as [|y ys Hy Hys]; simpl in Heq.
  { pose proof (mbchar_size e x Hx). apply (f_equal zlen) in Heq. zl. }
  rewrite <- app_assoc in Heq. destruct (mbchar_inj e y (concat ys) x (concat xs ++ b) Hy Hx Heq) as [-> Heq'].
  destruct (IH ys Hys Heq') as [zs ->]. by exists zs.
Qed.

Lemma occ_char k : (k <= length cs)%nat -> occ h n (bpos cs k) <-> ns `prefix_of` drop k cs.
Proof using Hh Hn.
  intros Hk. destruct Hh as [Eh Hcs]. destruct Hn as [En Hns]. split.
  - intros (a & b & Ho & Ha). apply (prefix_chars ns (drop k cs) b Hns (Forall_drop _ _ _ Hcs)).
    rewrite <- En. assert (Hd : concat (take k cs) ++ concat (drop k cs) = a ++ n ++ b).
    { by rewrite <- concat_app, take_drop, <- Eh. }
    apply app_inj_1 in Hd as [_ Hd]; [done|]. unfold bpos, zlen in Ha. lia.
  - intros [zs Hz]. exists (concat (take k cs)), (concat zs). split; [|done].
    by rewrite Eh, En, <- !concat_app, <- Hz, take_drop.
Qed.

Lemma needle_pos : 0 < zlen n.
Proof using Hn Hne.
  destruct Hn as [-> Hns]. pose proof (concat_size e ns Hns). destruct ns as [|x xs]; [done|]. zl.
Qed.

(** The end of an occurrence is a boundary *)
Lemma bpos_end k : ns `prefix_of` drop k cs -> bpos cs (k + length ns) = bpos cs k + zlen n.
Proof using Hn.
  intros [zs Hz]. rewrite bpos_add, Hz, take_app_length. by destruct Hn as [-> _].
Qed.

Lemma needle_fits k : ns `prefix_of` drop k cs -> (k + length ns <= length cs)%nat.
Proof using Hne.
  intros Hp%prefix_length. rewrite length_drop in Hp. assert (length ns <> 0)%nat by (intros ?%nil_length_inv; done). lia.
Qed.
End boundaries.

(** ** Which occurrences are on boundaries *)

Lemma utf8_second_range a b : utf8_second a b = true -> 0x80 <= b <= 0xBF.
Proof. unfold utf8_second, in_range. repeat case_match; lia. Qed.
Lemma utf8_tail_range b : utf8_tail b = true -> 0x80 <= b <= 0xBF.
Proof. unfold utf8_tail, in_range. lia. Qed.

Lemma utf8_first a t : mbchar PG_UTF8 (a :: t) -> ~ 0x80 <= a <= 0xBF.
Proof.
  intros Hc. assert (Hb : bytes (a :: t)) by apply Hc. apply complete_iff in Hc; [|done].
  destruct t as [|b [|c [|d [|x t]]]]; simpl in Hc; lia.
Qed.
Lemma utf8_later p x t : p <> [] -> mbchar PG_UTF8 (p ++ x :: t) -> 0x80 <= x <= 0xBF.
Proof.
  intros Hp Hc. assert (Hb : bytes (p ++ x :: t)) by apply Hc. apply complete_iff in Hc; [|done].
  destruct p as [|a [|b [|c [|d p]]]]; [done|..]; simpl in Hc.
  - destruct t as [|c [|d [|y t]]]; simpl in Hc; try done; destruct_and?; by eapply utf8_second_range.
  - destruct t as [|d [|y t]]; simpl in Hc; try done; destruct_and?; by apply utf8_tail_range.
  - destruct t as [|y t]; simpl in Hc; try done; destruct_and?; by apply utf8_tail_range.
  - by destruct p.
Qed.

Lemma singles_bpos e cs k :
  pg_encoding_max_length e = 1 -> Forall (mbchar e) cs -> (k <= length cs)%nat -> bpos cs k = Z.of_nat k.
Proof.
  intros H1 Hcs Hk. unfold bpos. rewrite (single_byte e _ H1) by (by apply Forall_take). rewrite zlen_take. unfold zlen. lia.
Qed.

Lemma occ_aligned e cs ns h n i :
  pg_encoding_max_length e = 1 \/ e = PG_UTF8 -> text_of e cs h -> text_of e ns n -> ns <> [] ->
  occ h n i -> exists k, (k <= length cs)%nat /\ i = bpos cs k.
Proof.
  intros [H1| ->] Hh Hn Hne Ho.
  { pose proof (occ_range _ _ _ Ho). exists (Z.to_nat i). destruct Hh as [-> Hcs]. pose proof (single_byte e cs H1 Hcs).
    pose proof (zlen_nonneg n). rewrite (singles_bpos e) by (done || unfold zlen in *; lia). unfold zlen in *. lia. }
  pose proof (needle_pos _ _ _ Hn Hne) as Hpos. destruct Ho as (a & b & Eh & <-).
  destruct (text_cut PG_UTF8 cs h (length a) Hh) as (cs1 & p & cs2 & -> & Ht & Hp).
  rewrite Eh, take_app_length in Ht. destruct Hp as [[-> Hp]|[Hp Hlen]].
  { exists (length cs1). rewrite length_app. split; [lia|]. unfold bpos. rewrite take_app_length. subst a. by rewrite app_nil_r. }
  exfalso. destruct (partial_facts PG_UTF8 eq_refl p (n ++ b) Hp) as (l & Hl & Hm & _).
  destruct Hh as [Ec Hcs]. rewrite Ec in Eh. rewrite concat_app, Ht, <- app_assoc in Eh. apply app_inv_head in Eh.
  apply Forall_app in Hcs as [_ Hcs2]. destruct Hcs2 as [|c cs2 Hc _]; simpl in Eh.
  { apply (f_equal zlen) in Eh. destruct Hp as (r & Hpn & _). destruct p; [done|]. zl. }
  pose proof (mbchar_mblen PG_UTF8 c (concat cs2) Hc) as Hm'. rewrite Eh, Hm in Hm'. injection Hm' as ->.
  assert (Hcp : exists x t u, c = p ++ x :: t /\ n ++ b = x :: u).
  { apply (f_equal (take (length c))) in Eh. rewrite take_app_length, take_app_ge in Eh by (unfold zlen in *; lia).
    destruct (n ++ b) as [|x u] eqn:Enb; [apply (f_equal zlen) in Enb; zl|].
    destruct (length c - length p)%nat as [|m] eqn:Em; [unfold zlen in *; lia|]. by exists x, (take m u), u. }
  destruct Hcp as (x & t & u & -> & Eu). destruct Hn as [-> Hns]. destruct Hns as [|y ns Hy _]; [done|].
  destruct (mbchar_head _ _ Hy) as (z & w & -> & _). simpl in Eu. injection Eu as -> _.
  apply (utf8_first _ _ Hy). apply (utf8_later p x t); [|done]. by destruct Hp as (? & ? & _).
Qed.

(** ** The search over characters *)

Section chars.
Context (T : tenv) (cs ns : list (list Z)) (h n : list Z).
Let e := t_enc T.
Context (Hh : text_of e cs h) (Hn : text_of e ns n) (Hne : ns <> []).

(** The parts of the state a search does not change *)
Record search_for (st : TextPositionState) : Prop := {
  sf_wf : search_wf st h n;
  sf_flag : is_multibyte_char_in_char st = false -> pg_encoding_max_length e = 1 \/ e = PG_UTF8
}.

(** The next search begins at character k; the reference point is character r. *)
Record search_at (st : TextPositionState) (k r : nat) : Prop := {
  sa_start : match last_match st with Some m => m + len2 st | None => 0 end = bpos cs k;
  sa_ref : refpoint st = bpos cs r;
  sa_pos : refpos st = Z.of_nat r;
  sa_le : (r <= k <= length cs)%nat
}.

Lemma walk_chars_ok st i r :
  search_for st -> (r <= length cs)%nat -> bpos cs r <= i <= zlen h ->
  returns (iter (S (Z.to_nat (len1 st))) (walk_body T st i) (bpos cs r, Z.of_nat r))
    (fun x => exists r', (r <= r' <= length cs)%nat /\ x.1 = (bpos cs r', Z.of_nat r') /\
       if x.2 then bpos cs r' = i else (0 < r')%nat /\ bpos cs (r' - 1) < i < bpos cs r').
Proof using Hh.
  intros Hst Hr Hi.
  apply (iter_returns (fun x => exists r', (r <= r' <= length cs)%nat /\ x = (bpos cs r', Z.of_nat r') /\ bpos cs r' <= i)
           (fun x => (length cs - Z.to_nat x.2)%nat)).
  - intros [p m] (r' & Hr' & [= -> ->] & Hle). unfold walk_body. destruct (Z.ltb_spec (bpos cs r') i) as [Hlt|Hge]; simpl.
    2: { exists r'. split; [lia|]. split; [done|]. lia. }
    destruct (sw_str1 _ _ _ (sf_wf _ Hst)) as [t Ht]. rewrite Ht, (bpos_drop _ _ _ Hh).
    destruct (drop r' cs) as [|c rest] eqn:Ec.
    { apply (f_equal length) in Ec. rewrite length_drop in Ec. simpl in Ec. rewrite <- (bpos_full _ _ _ Hh) in Hi.
      replace r' with (length cs) in Hlt by lia. lia. }
    assert (Hrl : (r' < length cs)%nat) by (apply (f_equal length) in Ec; rewrite length_drop in Ec; simpl in Ec; lia).
    assert (Hc : mbchar e c) by (destruct Hh as [_ Hcs]; apply (Forall_drop _ r') in Hcs; rewrite Ec in Hcs; by apply Forall_inv in Hcs).
    simpl. rewrite <- app_assoc. unfold pg_mblen. fold e. rewrite (mbchar_mblen e c _ Hc). bind.
    assert (Hnext : bpos cs (S r') = bpos cs r' + zlen c).
    { replace (S r') with (r' + 1)%nat by lia. rewrite bpos_add, Ec. simpl. by rewrite app_nil_r. }
    rewrite <- Hnext. replace (Z.of_nat r' + 1) with (Z.of_nat (S r')) by lia.
    destruct (Z.gtb_spec (bpos cs (S r')) i); simpl.
    + exists (S r'). split; [lia|]. split; [done|]. replace (S r' - 1)%nat with r' by lia. lia.
    + split; [|lia]. exists (S r'). split; [lia|]. split; [done|lia].
  - exists r. split; [lia|]. split; [done|lia].
  - simpl. rewrite (sw_len1 _ _ _ (sf_wf _ Hst)). destruct Hh as [-> Hcs]. pose proof (concat_size e cs Hcs). unfold zlen in *. lia.
Qed.

Lemma first_occ_char k i :
  (k <= length cs)%nat -> first_occ h n (bpos cs k) i ->
  match i with
  | Some i => forall k', (k <= k')%nat -> (k' <= length cs)%nat -> i = bpos cs k' -> first_char cs ns k (Some k')
  | None => first_char cs ns k None
  end.
Proof using Hh Hn Hne.
  intros Hk Hf. destruct i as [i|]; simpl.
  - intros k' Hkk Hk' ->. destruct Hf as (Hge & Ho & Hno). split; [lia|]. split; [by apply (occ_char e cs ns h n Hh Hn)|].
    intros j Hj Hp. apply (occ_char e cs ns h n Hh Hn) in Hp; [|lia]. apply (Hno (bpos cs j)); [|done].
    pose proof (bpos_le cs k j). pose proof (bpos_lt e cs h Hh j k'). lia.
  - intros j Hj Hp. apply (occ_char e cs ns h n Hh Hn) in Hp; [|lia]. apply (Hf (bpos cs j)); [|done]. apply bpos_le. lia.
Qed.

Lemma bpos_inj_le j k : (j <= length cs)%nat -> (k <= length cs)%nat -> bpos cs j <= bpos cs k -> (j <= k)%nat.
Proof using Hh. intros Hj Hk Hle. destruct (le_lt_dec j k); [done|]. pose proof (bpos_lt e cs h Hh k j). lia. Qed.

(** Search again from a place before which there is nothing *)
Lemma first_char_later k0 k r :
  (k0 <= k <= length cs)%nat -> (forall j, (k0 <= j < k)%nat -> ~ ns `prefix_of` drop j cs) ->
  first_char cs ns k r -> first_char cs ns k0 r.
Proof using Type.
  intros Hk Hno. destruct r as [k'|]; simpl.
  - intros (Hr & Hp & Hno'). split; [lia|]. split; [done|]. intros j Hj. destruct (decide (j < k)%nat); [apply Hno; lia|apply Hno'; lia].
  - intros Hf j Hj. destruct (decide (j < k)%nat); [apply Hno; lia|apply Hf; lia].
Qed.

Lemma retry_ok st k0 r0 :
  search_for st -> (r0 <= k0 <= length cs)%nat ->
  returns (iter (S (Z.to_nat (len1 st))) (retry_body T st) (bpos cs k0, bpos cs r0, Z.of_nat r0))
    (fun x => exists k r, first_char cs ns k0 k /\ (r <= length cs)%nat /\ x = (bpos cs <$> k, bpos cs r, Z.of_nat r) /\
       match k with Some k => (r <= k)%nat | None => True end).
Proof using Hh Hn Hne.
  intros Hst Hr0. pose proof (needle_pos e ns n Hn Hne) as Hpos.
  apply (iter_returns (fun x => exists k r, (r <= k)%nat /\ (k0 <= k <= length cs)%nat /\ x = (bpos cs k, bpos cs r, Z.of_nat r) /\
            forall j, (k0 <= j < k)%nat -> ~ ns `prefix_of` drop j cs)
          (fun x => Z.to_nat (zlen h - x.1.1))).
  2: { exists k0, r0. split_and!; [lia..|done|lia]. }
  2: { simpl. rewrite (sw_len1 _ _ _ (sf_wf _ Hst)). pose proof (zlen_nonneg (concat (take k0 cs))). unfold bpos. lia. }
  intros x (k & r & Hrk & Hk & -> & Hno). unfold retry_body.
  destruct (returns_eq _ _ (next_internal_ok st h n (sf_wf _ Hst) (bpos cs k) (zlen_nonneg _) Hpos)) as (m & -> & Hm). bind.
  pose proof (first_occ_char k m ltac:(lia) Hm) as Hfirst. destruct m as [i|]; simpl.
  2: { exists None, r. split; [by apply (first_char_later k0 k)|]. split; [lia|done]. }
  destruct Hm as (Hge & Ho & Hmin). pose proof (occ_range _ _ _ Ho) as Hri.
  assert (Hdone : forall k' r', i = bpos cs k' -> (k' <= length cs)%nat -> (r' <= k')%nat ->
    exists k1 r1, first_char cs ns k0 k1 /\ (r1 <= length cs)%nat /\ (Some i, bpos cs r', Z.of_nat r') = (bpos cs <$> k1, bpos cs r1, Z.of_nat r1) /\
       match k1 with Some k => (r1 <= k)%nat | None => True end).
  { intros k' r' -> Hk' Hr'. exists (Some k'), r'. assert (k <= k')%nat by (apply bpos_inj_le; [lia..|done]).
    split; [apply (first_char_later k0 k); [lia|done|by apply Hfirst]|]. split; [lia|done]. }
  destruct (is_multibyte_char_in_char st) eqn:Hmb.
  2: { destruct (occ_aligned e cs ns h n i) as (k' & Hk' & Hi); [by apply (sf_flag _ Hst)|done..|]. simpl. apply (Hdone k'); [done..|].
       apply bpos_inj_le; [lia..|]. pose proof (bpos_le cs r k Hrk). lia. }
  pose proof (bpos_le cs r k Hrk). destruct (returns_eq _ _ (walk_chars_ok st i r Hst ltac:(lia) ltac:(lia))) as ([[p m] ok] & -> & r' & Hr' & Hx & Hok).
  simpl in Hx, Hok. injection Hx as -> ->. bind. destruct ok; [by apply (Hdone r'); [|lia|]|].
  destruct Hok as [Hr0' Hbetween]. split.
  - exists r', r'. assert (k < r')%nat. { destruct (le_lt_dec r' k) as [Hle|]; [|done]. pose proof (bpos_le cs r' k Hle). lia. }
    split; [done|]. split; [lia|]. split; [done|]. intros j Hj Hp.
    destruct (decide (j < k)%nat); [by apply (Hno j); [lia|]|].
    apply (occ_char e cs ns h n Hh Hn) in Hp; [|lia]. apply (Hmin (bpos cs j)); [|done].
    pose proof (bpos_le cs k j). pose proof (bpos_le cs j (r' - 1)). lia.
  - simpl. lia.
Qed.

Lemma search_for_set st p m : search_for st -> search_for (set_ref st p m).
Proof using Type. intros [[? ? ? ? ? ?] ?]. by split; [split|]. Qed.
Lemma search_for_match st m : search_for st -> search_for (set_last_match st m).
Proof using Type. intros [[? ? ? ? ? ?] ?]. by split; [split|]. Qed.

(** text_position_next finds the next place where the needle's characters are. *)
Lemma next_ok st k0 r0 :
  search_for st -> search_at st k0 r0 ->
  match find_chars ns (drop k0 cs) with
  | Some k => exists st' r, text_position_next T st = Ok (true, st') /\ search_for st' /\
      last_match st' = Some (bpos cs (k0 + k)) /\ (r <= k0 + k)%nat /\ search_at st' (k0 + k + length ns) r /\
      str1 st' = str1 st /\ (k0 + k + length ns <= length cs)%nat
  | None => exists st', text_position_next T st = Ok (false, st') /\ search_for st' /\
      last_match st' = last_match st /\ str1 st' = str1 st
  end.
Proof using Hh Hn Hne.
  intros Hst [Hs Hr Hp Hle]. pose proof (needle_pos e ns n Hn Hne) as Hpos. unfold text_position_next.
  rewrite (proj2 (Z.leb_gt _ _)) by (by rewrite (sw_len2 _ _ _ (sf_wf _ Hst))). rewrite Hs, Hr, Hp.
  destruct (returns_eq _ _ (retry_ok st k0 r0 Hst Hle)) as (x & -> & k & r & Hk & Hrl & -> & Hrk). bind.
  pose proof (first_char_find cs ns k0 k ltac:(lia) Hk) as Hfind.
  destruct (find_chars ns (drop k0 cs)) as [k'|]; simpl in Hfind; subst k; simpl.
  - destruct Hk as (Hkr & Hpre & _). eexists _, r. split; [done|]. split; [by apply search_for_match, search_for_set|].
    split; [done|]. split; [done|]. pose proof (needle_fits cs ns Hne _ Hpre) as Hfit. split; [|done].
    split; simpl; [|done|done|lia]. by rewrite (bpos_end e cs ns n Hn _ Hpre), (sw_len2 _ _ _ (sf_wf _ Hst)).
  - eexists. split; [done|]. split; [by apply search_for_set|]. done.
Qed.

Lemma setup_ok t1 t2 collid :
  OidIsValid collid = true -> search_locale_ok T collid = true ->
  inline_value t1 h -> inline_value t2 n ->
  exists st, text_position_setup T t1 t2 collid = Ok st /\ search_for st /\ search_at st 0 0 /\
    last_match st = None.
Proof using Hh Hn.
  intros Hcol Hloc H1 H2. unfold text_position_setup. destruct (text_data_ok _ _ H1) as [u1 ->]. destruct (text_data_ok _ _ H2) as [u2 ->].
  bind. unfold check_collation_set. rewrite Hcol. bind. rewrite Hloc. cbn [negb].
  set (mb := if eml T =? 1 then _ else _).
  assert (Hmb : mb = false -> pg_encoding_max_length e = 1 \/ e = PG_UTF8).
  { unfold mb, eml, pg_database_encoding_max_length. fold e. destruct (Z.eqb_spec (pg_encoding_max_length e) 1); [by left|].
    intros He. right. destruct e; try discriminate He. done. }
  pose proof (text_bytes _ _ _ Hh) as Hhb. pose proof (text_bytes _ _ _ Hn) as Hnb.
  assert (Hat : forall mask tbl, search_at (Build_TextPositionState mb (h ++ u1) (n ++ u2) (zlen h) (zlen n) mask tbl None 0 0) 0 0).
  { intros mask tbl. split; simpl; try done. lia. }
  destruct ((zlen h >=? zlen n) && (zlen n >? 1)) eqn:Hlen.
  - destruct (fill_table n u2 (zlen h - zlen n) Hnb ltac:(lia)) as (tbl & -> & Hskip). bind. eexists. split; [done|].
    split; [|by split]. split; [|done]. split; simpl; try done; [by exists u1|by exists u2].
  - eexists. split; [done|]. split; [|by split]. split; [|done]. split; simpl; try done; [by exists u1|by exists u2|lia].
Qed.
End chars.
