(* ===== verification/TextSearchOps.v ===== *)
(** position, replace, split_part and string_to_array (TextSearch.v) against their meaning
    on sequences of characters: the first place of a sequence in another, and the fields
    that a separator cuts a sequence into. *)

From S2P Require Import Prelude Varatt Rle Pglz PglzHist PglzItems PglzCodec ToastCompression Oids ToastStore Detoast.
From S2P Require Import Wchar Mbchar Utf8 StringInfo Text TextOps TextCmp TextSearch TextSearchBmh.

(** ** Fields *)

Fixpoint split_fuel (f : nat) (ns cs : list (list Z)) : list (list (list Z)) :=
  match f with
  | O => [cs]
  | S f => match find_chars ns cs with
           | None => [cs]
           | Some k => take k cs :: split_fuel f ns (drop (k + length ns) cs)
           end
  end.
(** An empty separator separates nothing. *)
Definition fields (ns cs : list (list Z)) : list (list (list Z)) :=
  if bool_decide (ns = []) then [cs] else split_fuel (length cs) ns cs.

Definition join {A} (sep : list A) (l : list (list A)) : list A :=
  match l with [] => [] | x :: l => x ++ concat (map (app sep) l) end.

Lemma split_fuel_more ns cs f g :
  ns <> [] -> (length cs <= f)%nat -> (length cs <= g)%nat -> split_fuel f ns cs = split_fuel g ns cs.
Proof.
  intros Hne. revert g cs. induction f as [|f IH]; intros g cs Hf Hg.
  - destruct cs; [|simpl in Hf; lia]. destruct g; [done|]. simpl. rewrite bool_decide_eq_false_2; [done|].
    intros [t Ht]. destruct ns; done.
  - destruct g as [|g].
    { destruct cs; [|simpl in Hg; lia]. simpl. rewrite bool_decide_eq_false_2; [done|]. intros [t Ht]. by destruct ns. }
    simpl. destruct (find_chars ns cs) as [k|]; [|done]. f_equal.
    assert (length ns <> 0)%nat by (by intros ?%nil_length_inv). apply IH; rewrite length_drop; lia.
Qed.

Lemma fields_eq ns cs :
  ns <> [] ->
  fields ns cs = match find_chars ns cs with
                 | None => [cs]
                 | Some k => take k cs :: fields ns (drop (k + length ns) cs)
                 end.
Proof.
  intros Hne. unfold fields. rewrite !bool_decide_eq_false_2 by done.
  rewrite (split_fuel_more ns cs (length cs) (S (length cs))) by (done || lia). simpl.
  destruct (find_chars ns cs) as [k|]; [|done]. f_equal.
  apply split_fuel_more; [done|rewrite length_drop; lia|lia].
Qed.

Lemma fields_pos ns cs : (1 <= length (fields ns cs))%nat.
Proof. unfold fields. case_bool_decide; [simpl; lia|]. destruct (length cs); simpl; [lia|]. case_match; simpl; lia. Qed.

Lemma fields_cons ns cs : exists f fs, fields ns cs = f :: fs.
Proof. pose proof (fields_pos ns cs). destruct (fields ns cs) as [|f fs]; [simpl in *; lia|]. by exists f, fs. Qed.

(** The fields with the separators between them are the whole. *)
Lemma join_fields ns cs : join ns (fields ns cs) = cs.
Proof.
  destruct (decide (ns = [])) as [->|Hne]; [simpl; by rewrite app_nil_r|].
  remember (length cs) as m eqn:Hm. assert (Hlt : (length cs <= m)%nat) by lia. clear Hm. revert cs Hlt.
  induction m as [|m IH]; intros cs Hm; rewrite fields_eq by done; pose proof (find_chars_spec ns cs) as Hs;
    (destruct (find_chars ns cs) as [k|]; [|simpl; by rewrite app_nil_r]); destruct Hs as (Hk & [t Ht] & _);
    assert (length ns <> 0)%nat by (by intros ?%nil_length_inv).
  - destruct cs; [|simpl in Hm; lia]. rewrite drop_nil in Ht. by destruct ns.
  - rewrite <- drop_drop, Ht, drop_app_length. assert (Htm : (length t <= m)%nat).
    { apply (f_equal length) in Ht. rewrite length_drop, length_app in Ht. lia. }
    specialize (IH t Htm). destruct (fields_cons ns t) as (f & fs & Ef). rewrite Ef in *. simpl in *.
    rewrite <- (take_drop k cs) at 2. rewrite Ht. f_equal. rewrite <- IH, <- app_assoc. done.
Qed.

(** No field has the separator in it. *)
Lemma fields_free ns cs f : ns <> [] -> f ∈ fields ns cs -> find_chars ns f = None.
Proof.
  intros Hne. remember (length cs) as m eqn:Hm. assert (Hlt : (length cs <= m)%nat) by lia. clear Hm. revert cs Hlt.
  assert (length ns <> 0)%nat by (by intros ?%nil_length_inv).
  assert (Hsub : forall g j, ns `prefix_of` drop j g -> (j + length ns <= length g)%nat).
  { intros g j Hp%prefix_length. rewrite length_drop in Hp. lia. }
  induction m as [|m IH]; intros cs Hm; rewrite fields_eq by done; pose proof (find_chars_spec ns cs) as Hs;
    destruct (find_chars ns cs) as [k|] eqn:Ef; try (by intros ->%list_elem_of_singleton); destruct Hs as (Hk & Hp & Hno).
  - pose proof (Hsub _ _ Hp). lia.
  - rewrite elem_of_cons. intros [->|Hin].
    + pose proof (find_chars_spec ns (take k cs)) as Hs. destruct (find_chars ns (take k cs)) as [j|]; [|done].
      destruct Hs as (Hj & [t Ht] & _). exfalso. apply (Hno j).
      { assert (Hpj : ns `prefix_of` drop j (take k cs)) by (by exists t). apply Hsub in Hpj. rewrite length_take in Hpj. lia. }
      exists (t ++ drop k cs). rewrite app_assoc, <- Ht, <- (take_drop k cs) at 1. rewrite drop_app_le; [done|].
      rewrite length_take in *. lia.
    + apply (IH (drop (k + length ns) cs)); [|done]. rewrite length_drop. lia.
Qed.

(** ** Position *)

Lemma res_assoc {A B C} (m : res A) (f : A -> res B) (g : B -> res C) : (m ≫= f) ≫= g = m ≫= fun x => f x ≫= g.
Proof. by destruct m. Qed.

Lemma find_chars_nil cs : find_chars [] cs = Some 0%nat.
Proof. by destruct cs. Qed.

Lemma exhdr_ok v d : inline_value v d -> VARSIZE_ANY_EXHDR v = Ok (zlen d).
Proof.
  intros Hv. destruct (text_data_ok v d Hv) as [t Ht]. unfold text_data in Ht.
  destruct (VARDATA_ANY v); try done. simpl in Ht. destruct (VARSIZE_ANY_EXHDR v); try done. by injection Ht as _ ->.
Qed.

Section ops.
Context (T : tenv) (collid : Z) (cs ns : list (list Z)) (h n : list Z).
Let e := t_enc T.
Context (Hcol : OidIsValid collid = true) (Hloc : search_locale_ok T collid = true).
Context (Hh : text_of e cs h) (Hn : text_of e ns n).

Lemma empty_needle : zlen n < 1 <-> ns = [].
Proof using Hn.
  split; [|intros ->; by destruct Hn as [-> _]]. intros Hz. destruct (decide (ns = [])) as [|Hne]; [done|].
  pose proof (needle_pos e ns n Hn Hne). lia.
Qed.
Lemma empty_hay : zlen h < 1 <-> cs = [].
Proof using Hh.
  split; [|intros ->; by destruct Hh as [-> _]]. intros Hz. destruct (decide (cs = [])) as [|Hne]; [done|].
  pose proof (needle_pos e cs h Hh Hne). lia.
Qed.

Lemma match_pos_ok st k r :
  search_for T h n st -> last_match st = Some (bpos cs k) -> refpoint st = bpos cs r -> refpos st = Z.of_nat r ->
  (r <= k <= length cs)%nat -> exists st', text_position_get_match_pos T st = Ok (Z.of_nat k + 1, st').
Proof using Hh.
  intros Hst Hm Hr Hp Hle. unfold text_position_get_match_pos, text_position_get_match_ptr. rewrite Hm, Hr, Hp. bind.
  destruct (sw_str1 _ _ _ (sf_wf _ _ _ _ Hst)) as [t ->]. rewrite (bpos_drop e cs h Hh).
  set (mid := take (k - r) (drop r cs)).
  assert (Hmid : bpos cs k - bpos cs r = zlen (concat mid)).
  { replace k with (r + (k - r))%nat at 1 by lia. rewrite bpos_add. unfold mid. lia. }
  assert (Hall : Forall (mbchar e) mid) by (apply Forall_take, Forall_drop; by destruct Hh).
  rewrite Hmid, <- (take_drop (k - r) (drop r cs)), concat_app, <- app_assoc. fold mid.
  fold e. rewrite (mbstrlen_ok e mid) by done. bind. eexists. f_equal. f_equal. unfold mid. rewrite zlen_take, zlen_drop. unfold zlen. lia.
Qed.

Lemma text_position_ok t1 t2 :
  inline_value t1 h -> inline_value t2 n ->
  text_position T t1 t2 collid = Ok (match find_chars ns cs with Some k => Z.of_nat k + 1 | None => 0 end).
Proof using Hcol Hloc Hh Hn.
  intros H1 H2. unfold text_position. rewrite (exhdr_ok _ _ H1), (exhdr_ok _ _ H2). bind.
  destruct (Z.ltb_spec (zlen n) 1) as [Hz|Hz].
  { apply empty_needle in Hz. by rewrite Hz, find_chars_nil. }
  assert (Hne : ns <> []) by (intros Hx%empty_needle; lia).
  destruct (Z.ltb_spec (zlen h) (zlen n)).
  { pose proof (find_chars_spec ns cs) as Hs. destruct (find_chars ns cs) as [k|]; [|done]. destruct Hs as (Hk & Hp & _).
    apply (occ_char e cs ns h n Hh Hn) in Hp; [|done]. apply occ_range in Hp. lia. }
  destruct (setup_ok T cs ns h n Hh Hn t1 t2 collid Hcol Hloc H1 H2) as (st & -> & Hst & Hat & _). bind.
  pose proof (next_ok T cs ns h n Hh Hn Hne st 0 0 Hst Hat) as Hnext. rewrite drop_0 in Hnext.
  destruct (find_chars ns cs) as [k|].
  - destruct Hnext as (st' & r & -> & Hst' & Hm & Hr & [_ Hr1 Hr2 _] & _ & Hfit). bind. simpl.
    destruct (match_pos_ok st' k r) as [st'' ->]; try done. lia.
  - destruct Hnext as (st' & -> & _). done.
Qed.

(** ** Replace *)

Context (Hne : ns <> []).

(** The bytes from character a to character b *)
Lemma between a b t :
  (a <= b <= length cs)%nat -> drop (Z.to_nat (bpos cs a)) (h ++ t) = concat (take (b - a) (drop a cs)) ++ concat (drop b cs) ++ t /\
    bpos cs b - bpos cs a = zlen (concat (take (b - a) (drop a cs))).
Proof using Hh.
  intros Hab. rewrite (bpos_drop e cs h Hh). split.
  - rewrite app_assoc, <- concat_app. do 2 f_equal. replace b with (a + (b - a))%nat at 2 by lia. by rewrite <- drop_drop, take_drop.
  - replace b with (a + (b - a))%nat at 1 by lia. rewrite bpos_add. lia.
Qed.

Lemma rest_after a t : (a <= length cs)%nat ->
  drop (Z.to_nat (bpos cs a)) (h ++ t) = concat (drop a cs) ++ t /\ zlen h - bpos cs a = zlen (concat (drop a cs)).
Proof using Hh.
  intros Ha. split; [apply (bpos_drop e cs h Hh)|]. rewrite <- (bpos_full e cs h Hh).
  destruct (between a (length cs) []) as [_ ->]; [lia|]. by rewrite take_ge by (rewrite length_drop; lia).
Qed.

Lemma data_end v d : inline_value v d -> exists p sz, VARDATA_ANY v = Ok p /\ VARSIZE_ANY v = Ok sz /\ sz = p + zlen d.
Proof using Type.
  intros [d' t Hd|d' t Hd]; unfold VARDATA_ANY, VARSIZE_ANY; tags; tags; eexists _, _; (split; [done|]; split; [done|]);
    unfold VARDATA, VARDATA_SHORT, VARHDRSZ, VARHDRSZ_SHORT; lia.
Qed.

Section replace.
Context (to_text to_data : list Z) (Hto : inline_value to_text to_data).

(** The bytes that are appended from the place [a] on: the fields with the new string
    between them *)
Definition replaced (fs : list (list (list Z))) : list Z := join to_data (map (@concat Z) fs).

Lemma replace_loop m a j st str s f :
  search_for T h n st -> find_chars ns (drop a cs) = Some j -> (exists r, search_at cs st (a + j + length ns) r) ->
  (a <= length cs)%nat ->
  si_ok str s -> (length cs - a < m)%nat ->
  (forall str' k s', si_ok str' s' -> (k <= length cs)%nat -> find_chars ns (drop k cs) = None -> append_spec (f (str', bpos cs k)) s' (concat (drop k cs))) ->
  append_spec (iter m (replace_body T to_text (zlen n)) (str, bpos cs a, bpos cs (a + j), st) ≫= f) s (replaced (fields ns (drop a cs))).
Proof using Hcol Hloc Hh Hn Hne Hto.
  revert a j st str s. induction m as [|m IH]; intros a j st str s Hst Hj [r Hat] Ha Hs Hm Hf; [lia|].
  rewrite iter_S, res_assoc. unfold replace_body. rewrite !res_assoc. destruct (sw_str1 _ _ _ (sf_wf _ _ _ _ Hst)) as [t Ht].
  rewrite Ht, fields_eq, Hj by done. pose proof (sa_le _ _ _ _ Hat) as Hle.
  destruct (between a (a + j) t) as [-> ->]; [lia|]. replace (a + j - a)%nat with j by lia.
  rewrite drop_drop. replace (a + (j + length ns))%nat with (a + j + length ns)%nat by lia.
  set (a' := (a + j + length ns)%nat) in *. destruct (fields_cons ns (drop a' cs)) as (f1 & fs & Ef).
  unfold replaced. cbn [map join]. rewrite Ef. cbn [map concat]. rewrite <- app_assoc.
  apply append_spec_bind; [by apply append_binary_ok|]. intros str1 Hs1. rewrite !res_assoc.
  apply append_spec_bind.
  { unfold appendStringInfoText. destruct (text_data_ok _ _ Hto) as [u ->]. bind. by apply append_binary_ok. }
  intros str2 Hs2. change (concat f1 ++ concat (map (app to_data) (map (@concat Z) fs))) with (replaced (f1 :: fs)). rewrite <- Ef.
  assert (Hpre : ns `prefix_of` drop (a + j) cs).
  { pose proof (find_chars_spec ns (drop a cs)) as Hsp. rewrite Hj, drop_drop in Hsp. apply Hsp. }
  rewrite <- (bpos_end e cs ns n Hn _ Hpre). fold a'.
  assert (length ns <> 0)%nat by (by intros ?%nil_length_inv).
  pose proof (next_ok T cs ns h n Hh Hn Hne st a' r Hst Hat) as Hnext. destruct (find_chars ns (drop a' cs)) as [k|] eqn:Ek.
  - destruct Hnext as (st' & r' & -> & Hst' & Hlast & _ & Hat' & _ & Hfit). bind.
    unfold text_position_get_match_ptr. rewrite Hlast. bind. apply IH; try done; [by exists r'|lia|lia].
  - destruct Hnext as (st' & -> & _). bind. rewrite fields_eq, Ek by done. unfold replaced. cbn [map join concat]. rewrite app_nil_r.
    apply Hf; [done|lia|done].
Qed.
Lemma replace_found src from :
  inline_value src h -> inline_value from n ->
  forall st j r, search_for T h n st -> find_chars ns cs = Some j -> search_at cs st (j + length ns) r ->
  append_spec (str ← initStringInfo;
    y ← iter (S (Z.to_nat (zlen h))) (replace_body T to_text (zlen n)) (str, 0, bpos cs j, st);
    let '(str, start_ptr) := y in
    p ← VARDATA_ANY src;
    sz ← VARSIZE_ANY src;
    appendBinaryStringInfo str (drop (Z.to_nat start_ptr) (str1 st)) (sz - (p + start_ptr))) [] (replaced (fields ns cs)).
Proof using Hcol Hloc Hh Hn Hne Hto.
  intros H1 H2 st j r Hst Hj Hat. destruct si_init_ok as (str & -> & Hs). bind. rewrite <- (drop_0 cs) at 2.
  change 0 with (bpos cs 0). replace j with (0 + j)%nat at 1 by lia. apply replace_loop; try done; [by exists r|lia| |].
  - destruct Hh as [-> Hcs]. pose proof (concat_size e cs Hcs). unfold zlen in *. lia.
  - intros str' k s' Hs' Hk _. destruct (sw_str1 _ _ _ (sf_wf _ _ _ _ Hst)) as [t ->].
    destruct (data_end _ _ H1) as (p & sz & -> & -> & ->). bind. destruct (rest_after k t Hk) as [-> Hz].
    replace (p + zlen h - (p + bpos cs k)) with (zlen (concat (drop k cs))) by lia. by apply append_binary_ok.
Qed.
End replace.

(** ** Split *)

(** The part of take_field after its loop *)
Definition finish_field (st : TextPositionState) (y : Z * Z * Z) : res (list Z) :=
  let '(fldnum, start_ptr, end_ptr) := y in
  if fldnum >? 0 then
    if fldnum =? 1 then
      cstring_to_text_with_len (drop (Z.to_nat start_ptr) (str1 st)) (zlen h - start_ptr)
    else cstring_to_text []
  else cstring_to_text_with_len (drop (Z.to_nat start_ptr) (str1 st)) (end_ptr - start_ptr).

Lemma sub_chars_size a k : zlen (concat (take k (drop a cs))) <= zlen h /\ zlen (concat (drop a cs)) <= zlen h.
Proof using Hh.
  destruct Hh as [-> _]. pose proof (sub_size cs a) as [_ H1]. pose proof (sub_size (drop a cs) k) as [H2 _]. lia.
Qed.

Context (Hfits : fits (zlen h)).

Lemma cut_text st a b :
  search_for T h n st -> (a <= b <= length cs)%nat ->
  cstring_to_text_with_len (drop (Z.to_nat (bpos cs a)) (str1 st)) (bpos cs b - bpos cs a) =
  Ok (mk_4b_u (concat (take (b - a) (drop a cs)))).
Proof using Hh Hfits.
  intros Hst Hab. destruct (sw_str1 _ _ _ (sf_wf _ _ _ _ Hst)) as [t ->]. destruct (between a b t Hab) as [-> ->].
  pose proof (sub_chars_size a (b - a)) as [Hz _].
  rewrite cstring_to_text_ok by (zl; lia). by rewrite take_zlen_app.
Qed.

Lemma last_text st a :
  search_for T h n st -> (a <= length cs)%nat ->
  cstring_to_text_with_len (drop (Z.to_nat (bpos cs a)) (str1 st)) (zlen h - bpos cs a) = Ok (mk_4b_u (concat (drop a cs))).
Proof using Hh Hfits.
  intros Hst Ha. rewrite <- (bpos_full e cs h Hh), (cut_text st a (length cs) Hst) by lia.
  by rewrite take_ge by (rewrite length_drop; lia).
Qed.

Lemma next_end a j : find_chars ns (drop a cs) = Some j -> bpos cs (a + j) + zlen n = bpos cs (a + j + length ns).
Proof using Hn.
  intros Hj. pose proof (find_chars_spec ns (drop a cs)) as Hs. rewrite Hj, drop_drop in Hs.
  symmetry. apply (bpos_end e cs ns n Hn). apply Hs.
Qed.

Lemma field_loop m a j st0 st num :
  search_for T h n st0 -> search_for T h n st -> find_chars ns (drop a cs) = Some j ->
  (exists r, search_at cs st (a + j + length ns) r) -> (a <= length cs)%nat -> 0 < num -> (length cs - a + 1 < m)%nat ->
  iter m (field_body T (zlen n)) (true, num, bpos cs a, bpos cs (a + j), st) ≫= finish_field st0 =
  Ok (mk_4b_u (concat (nth (Z.to_nat (num - 1)) (fields ns (drop a cs)) []))).
Proof using Hh Hn Hne Hfits.
  intros Hst0. revert a j st num. induction m as [|m IH]; intros a j st num Hst Hj [r Hat] Ha Hnum Hm; [lia|].
  rewrite iter_S, fields_eq, Hj, drop_drop by done. unfold field_body. cbn [negb]. pose proof (sa_le _ _ _ _ Hat) as Hle.
  destruct (Z.gtb_spec (num - 1) 0) as [Hn1|Hn1]; cbn [negb]; bind.
  2: { replace num with 1 by lia. cbn [nth Z.to_nat Z.sub Z.add Z.opp Z.pos_sub]. unfold finish_field. simpl.
       rewrite (cut_text st0) by (done || lia). by replace (a + j - a)%nat with j by lia. }
  rewrite (next_end a j Hj). replace (a + (j + length ns))%nat with (a + j + length ns)%nat by lia.
  set (a' := (a + j + length ns)%nat) in *. assert (length ns <> 0)%nat by (by intros ?%nil_length_inv).
  replace (Z.to_nat (num - 1)) with (S (Z.to_nat (num - 1 - 1))) by lia. cbn [nth].
  pose proof (next_ok T cs ns h n Hh Hn Hne st a' r Hst Hat) as Hnext. destruct (find_chars ns (drop a' cs)) as [k|] eqn:Ek.
  - destruct Hnext as (st' & r' & -> & Hst' & Hlast & _ & Hat' & _ & Hfit). bind.
    unfold text_position_get_match_ptr. rewrite Hlast. bind. apply IH; try done; [by exists r'|lia|lia].
  - destruct Hnext as (st' & -> & _). bind. destruct m as [|m]; [lia|]. rewrite iter_S. cbn [field_body negb]. bind.
    rewrite fields_eq, Ek by done. unfold finish_field. rewrite (proj2 (Z.gtb_lt _ _)) by lia.
    destruct (Z.eqb_spec (num - 1) 1) as [->|Hn2]; [simpl; apply (last_text st0); [done|lia]|].
    rewrite empty_text. replace (Z.to_nat (num - 1 - 1)) with (S (Z.to_nat (num - 3))) by lia. simpl. by destruct (Z.to_nat _).
Qed.

Lemma take_field_ok st j num :
  search_for T h n st -> find_chars ns cs = Some j -> last_match st = Some (bpos cs j) ->
  (exists r, search_at cs st (j + length ns) r) -> 0 < num ->
  take_field T st (zlen h) (zlen n) num = Ok (mk_4b_u (concat (nth (Z.to_nat (num - 1)) (fields ns cs) []))).
Proof using Hh Hn Hne Hfits.
  intros Hst Hj Hlast Hat Hnum. unfold take_field, text_position_get_match_ptr. rewrite Hlast. bind.
  apply (field_loop (S (S (Z.to_nat (zlen h)))) 0 j st st num); try done; [lia|]. destruct Hh as [-> Hcs]. pose proof (concat_size e cs Hcs). unfold zlen in *. lia.
Qed.

Lemma count_step num st :
  count_body T (num, st) =
  r ← text_position_next T st; if (r.1 : bool) then Ok (inl (num + 1, r.2)) else Ok (inr (num, r.2)).
Proof using Type. unfold count_body. by destruct (text_position_next T st) as [[[] ?]| | |]. Qed.

Lemma count_loop m a st num :
  search_for T h n st -> (exists r, search_at cs st a r) -> (length cs - a < m)%nat -> last_match st <> None ->
  exists st' b, iter m (count_body T) (num, st) = Ok (num + zlen (fields ns (drop a cs)) - 1, st') /\
    search_for T h n st' /\ last_match st' = Some (bpos cs b - zlen n) /\ (b <= length cs)%nat /\
    last (fields ns (drop a cs)) = Some (drop b cs).
Proof using Hh Hn Hne.
  revert a st num. induction m as [|m IH]; intros a st num Hst [r Hat] Hm Hlm; [lia|].
  rewrite iter_S, fields_eq, count_step by done. pose proof (sa_le _ _ _ _ Hat) as Hle.
  assert (length ns <> 0)%nat by (by intros ?%nil_length_inv).
  pose proof (next_ok T cs ns h n Hh Hn Hne st a r Hst Hat) as Hnext. destruct (find_chars ns (drop a cs)) as [k|] eqn:Ek.
  - destruct Hnext as (st' & r' & -> & Hst' & Hlast & _ & Hat' & _ & Hfit). bind. cbn [fst snd]. bind. rewrite drop_drop.
    replace (a + (k + length ns))%nat with (a + k + length ns)%nat by lia.
    destruct (IH (a + k + length ns)%nat st' (num + 1)) as (st'' & b & -> & Hst'' & Hl & Hb & Hlf);
      [done|by exists r'|lia|by rewrite Hlast|]. exists st'', b. split; [f_equal; f_equal; zl|]. split; [done|]. split; [done|].
    split; [done|]. destruct (fields_cons ns (drop (a + k + length ns) cs)) as (f & fs & Ef). rewrite Ef in *. done.
  - destruct Hnext as (st' & -> & Hst' & Hl & _). bind. cbn [fst snd]. bind. exists st', a. split; [f_equal; f_equal; zl|]. split; [done|].
    split; [|split; [lia|done]]. rewrite Hl. pose proof (sa_start _ _ _ _ Hat) as Hsa. rewrite (sw_len2 _ _ _ (sf_wf _ _ _ _ Hst)) in Hsa.
    destruct (last_match st) as [x|]; [|done]. f_equal. lia.
Qed.

Lemma reset_at st : search_for T h n st -> search_for T h n (text_position_reset st) /\ search_at cs (text_position_reset st) 0 0.
Proof using Type. intros Hst. split; [by apply search_for_match, search_for_set|]. split; simpl; try done. lia. Qed.

(** The field with number [num], from the end if it is negative; nothing if there is none *)
Definition nth_field (num : Z) (fs : list (list (list Z))) : list (list Z) :=
  let i := if num <? 0 then zlen fs + num else num - 1 in
  if i <? 0 then [] else nth (Z.to_nat i) fs [].

Lemma split_found st j num :
  search_for T h n st -> find_chars ns cs = Some j -> last_match st = Some (bpos cs j) ->
  (exists r, search_at cs st (j + length ns) r) -> num <> 0 ->
  (if num <? 0 then
    y ← iter (S (Z.to_nat (zlen h))) (count_body T) (2, st);
    let '(numfields, st) := y in
    if num =? -1 then
      m ← text_position_get_match_ptr st;
      let start_ptr := m + zlen n in
      cstring_to_text_with_len (drop (Z.to_nat start_ptr) (str1 st)) (zlen h - start_ptr)
    else
      let fldnum := num + (numfields + 1) in
      if fldnum <=? 0 then cstring_to_text [] else
      r ← text_position_next T (text_position_reset st);
      take_field T r.2 (zlen h) (zlen n) fldnum
   else take_field T st (zlen h) (zlen n) num) = Ok (mk_4b_u (concat (nth_field num (fields ns cs)))).
Proof using Hh Hn Hne Hfits.
  intros Hst Hj Hlast Hat Hnum. unfold nth_field. destruct (Z.ltb_spec num 0) as [Hneg|Hpos].
  2: { rewrite (take_field_ok st j) by (done || lia). by rewrite (proj2 (Z.ltb_ge _ _)) by lia. }
  assert (Hlen : (length cs <= Z.to_nat (zlen h))%nat).
  { destruct Hh as [-> Hcs]. pose proof (concat_size e cs Hcs). unfold zlen in *. lia. }
  destruct (count_loop (S (Z.to_nat (zlen h))) (j + length ns) st 2) as (st' & b & -> & Hst' & Hl & Hb & Hlf);
    [done|done|lia|by rewrite Hlast|]. bind.
  assert (Hcount : 2 + zlen (fields ns (drop (j + length ns) cs)) - 1 = zlen (fields ns cs)).
  { rewrite (fields_eq ns cs), Hj, zlen_cons by done. lia. }
  rewrite Hcount. pose proof (fields_pos ns cs) as Hfp. destruct (Z.eqb_spec num (-1)) as [->|Hn1].
  - unfold text_position_get_match_ptr. rewrite Hl. bind. replace (bpos cs b - zlen n + zlen n) with (bpos cs b) by lia.
    rewrite (last_text st' b) by done. rewrite (proj2 (Z.ltb_ge _ _)) by (unfold zlen; lia). do 3 f_equal.
    assert (Hlf' : last (fields ns cs) = Some (drop b cs)).
    { rewrite (fields_eq ns cs), Hj by done. destruct (fields_cons ns (drop (j + length ns) cs)) as (f & fs & Ef).
      rewrite Ef in *. done. }
    rewrite last_lookup in Hlf'. replace (Z.to_nat (zlen (fields ns cs) + -1)) with (pred (length (fields ns cs))) by (unfold zlen; lia).
    symmetry. by apply nth_lookup_Some.
  - destruct (Z.leb_spec (num + (zlen (fields ns cs) + 1)) 0); [by rewrite (proj2 (Z.ltb_lt _ _)) by lia|].
    destruct (reset_at st' Hst') as [Hst0 Hat0].
    pose proof (next_ok T cs ns h n Hh Hn Hne _ 0 0 Hst0 Hat0) as Hnext. rewrite drop_0, Hj in Hnext.
    destruct Hnext as (st2 & r2 & -> & Hst2 & Hl2 & _ & Hat2 & _). bind. cbn [snd].
    rewrite (take_field_ok st2 j) by (done || lia || by exists r2). rewrite (proj2 (Z.ltb_ge _ _)) by lia. do 4 f_equal. lia.
Qed.

(** ** string_to_array *)

Section accum.
Context (null : option (list Z)) (dn : option (list Z)).
Context (Hnull : match null, dn with Some v, Some d => inline_value v d | None, None => True | _, _ => False end).

(** An element of the result for a field: NULL if the field is the null string. *)
Definition element_ok (o : option (list Z)) (f : list (list Z)) : Prop :=
  if bool_decide (dn = Some (concat f)) then o = None else exists v, o = Some v /\ inline_value v (concat f).

Lemma accum_ok ts v f :
  inline_value v (concat f) ->
  exists o, split_text_accum_result T ts v null collid = Ok (ts ++ [o]) /\ element_ok o f.
Proof using Hcol Hloc Hnull.
  intros Hv. unfold split_text_accum_result, element_ok. destruct null as [w|], dn as [d|]; try done.
  - rewrite (texteq_ok T collid Hcol v w (concat f) d (inline_holds T _ _ Hv) (inline_holds T _ _ Hnull) Hloc). bind.
    eexists. split; [done|]. case_bool_decide as H1; case_bool_decide as H2; [done|congruence..|]. by exists v.
  - bind. eexists. split; [done|]. rewrite bool_decide_eq_false_2 by done. by exists v.
Qed.

Lemma split_loop input m a st ts fs :
  inline_value input h -> search_for T h n st -> (exists r, search_at cs st a r) -> (length cs - a < m)%nat ->
  Forall2 element_ok ts fs ->
  returns (iter m (split_body T input (zlen n) null collid) (ts, bpos cs a, st))
    (fun ts' => Forall2 element_ok ts' (fs ++ fields ns (drop a cs))).
Proof using Hcol Hloc Hh Hn Hne Hfits Hnull.
  intros Hin. revert a st ts fs. induction m as [|m IH]; intros a st ts fs Hst [r Hat] Hm Hts; [lia|].
  rewrite iter_S, fields_eq by done. unfold split_body at 2. pose proof (sa_le _ _ _ _ Hat) as Hle.
  assert (length ns <> 0)%nat by (by intros ?%nil_length_inv).
  assert (Hsz : forall b k, inline_value (mk_4b_u (concat (take k (drop b cs)))) (concat (take k (drop b cs)))).
  { intros b k. apply mk_inline. pose proof (sub_chars_size b k) as [? _]. lia. }
  pose proof (next_ok T cs ns h n Hh Hn Hne st a r Hst Hat) as Hnext. destruct (find_chars ns (drop a cs)) as [k|] eqn:Ek.
  - destruct Hnext as (st' & r' & -> & Hst' & Hlast & _ & Hat' & _ & Hfit). bind.
    unfold text_position_get_match_ptr. rewrite Hlast. bind. rewrite (cut_text st' a (a + k) Hst') by lia. bind.
    replace (a + k - a)%nat with k by lia. destruct (accum_ok ts _ _ (Hsz a k)) as (o & -> & Ho). bind.
    rewrite (next_end a k Ek), drop_drop. replace (a + (k + length ns))%nat with (a + k + length ns)%nat by lia.
    rewrite (cons_middle (take k (drop a cs))), app_assoc. apply IH; [done|by exists r'|lia|]. apply Forall2_app; [done|]. by constructor.
  - destruct Hnext as (st' & -> & Hst' & _). bind. destruct (data_end _ _ Hin) as (p & sz & -> & -> & ->). bind.
    replace (p + zlen h - (p + bpos cs a)) with (zlen h - bpos cs a) by lia. rewrite (last_text st' a Hst') by lia. bind.
    destruct (accum_ok ts (mk_4b_u (concat (drop a cs))) (drop a cs)) as (o & -> & Ho).
    { apply mk_inline. pose proof (sub_chars_size a 0) as [_ ?]. lia. }
    bind. apply Forall2_app; [done|]. by constructor.
Qed.

Lemma chars_loop m rest t ts fs :
  Forall (mbchar e) rest -> (length rest < m)%nat -> Forall2 element_ok ts fs ->
  returns (iter m (split_chars_body T null collid) (ts, concat rest ++ t, zlen (concat rest)))
    (fun ts' => Forall2 element_ok ts' (fs ++ map (fun c => [c]) rest)).
Proof using Hcol Hloc Hnull.
  clear Hfits. intros Hall. revert m ts fs. induction Hall as [|c rest Hc _ IH]; intros m ts fs Hm Hts; (destruct m as [|m]; [simpl in Hm; lia|]).
  - simpl. by rewrite app_nil_r.
  - pose proof (mbchar_size e c Hc) as Hsz. pose proof (max_length_range e) as Hmax.
    rewrite iter_S. unfold split_chars_body at 2. cbn [concat map]. rewrite <- app_assoc, zlen_app. pose proof (zlen_nonneg (concat rest)).
    rewrite (proj2 (Z.gtb_lt _ _)) by lia. unfold pg_mblen. fold e. rewrite (mbchar_mblen e c _ Hc). bind.
    rewrite cstring_to_text_ok, take_zlen_app by zl. bind.
    destruct (accum_ok ts (mk_4b_u c) [c]) as (o & -> & Ho); [simpl; rewrite app_nil_r; apply mk_inline; lia|]. bind.
    rewrite drop_zlen_app. replace (zlen c + zlen (concat rest) - zlen c) with (zlen (concat rest)) by lia.
    rewrite (cons_middle [c]), app_assoc. apply IH; [simpl in Hm; lia|]. apply Forall2_app; [done|]. by constructor.
Qed.
End accum.
End ops.

Lemma text_of_buffer str s :
  si_ok str s ->
  cstring_to_text_with_len (si_data str) (si_len str) =
  if zlen s + VARHDRSZ <=? MaxAllocSize then Ok (mk_4b_u s) else Ereport ERRCODE_INTERNAL_ERROR.
Proof.
  intros [[r Hd] Hl _ _]. rewrite Hd, Hl. destruct (Z.leb_spec (zlen s + VARHDRSZ) MaxAllocSize).
  - rewrite cstring_to_text_ok by (unfold VARHDRSZ, MaxAllocSize in *; zl). by rewrite take_zlen_app.
  - unfold cstring_to_text_with_len, palloc. rewrite (proj2 (Z.leb_gt _ MaxAllocSize)), andb_false_r by lia. done.
Qed.

(** What replace returns for a result [r] *)
Definition text_result (x : res (list Z)) (r : list Z) : Prop :=
  if zlen r + VARHDRSZ <=? MaxAllocSize then exists v, x = Ok v /\ inline_value v r
  else x = Ereport (if zlen r <? MaxAllocSize then ERRCODE_INTERNAL_ERROR else ERRCODE_PROGRAM_LIMIT_EXCEEDED).

Lemma append_text_result m r :
  append_spec m [] r -> text_result (m ≫= fun str => cstring_to_text_with_len (si_data str) (si_len str)) r.
Proof.
  unfold append_spec, text_result. rewrite zlen_nil, Z.add_0_l. intros Hm. destruct (Z.ltb_spec (zlen r) MaxAllocSize).
  - destruct Hm as (str & -> & Hs). bind. rewrite (text_of_buffer _ _ Hs), app_nil_l. destruct (Z.leb_spec (zlen r + VARHDRSZ) MaxAllocSize); [|done].
    eexists. split; [done|]. apply mk_inline. unfold VARHDRSZ, MaxAllocSize in *. lia.
  - rewrite Hm, (proj2 (Z.leb_gt _ _)) by (unfold VARHDRSZ; lia). done.
Qed.

(** ** Properties *)

(** C12: position finds the first place, counted in characters from 1, where the characters
    of the needle are, and gives 0 if there is none: in every server encoding, although
    the search skips along the bytes and, in UTF-8, never looks at character boundaries. *)
Theorem textpos_correct T collid v1 v2 h n cs ns :
  OidIsValid collid = true -> search_locale_ok T collid = true ->
  holds (t_env T) v1 h -> holds (t_env T) v2 n -> text_of (t_enc T) cs h -> text_of (t_enc T) ns n ->
  exists r, textpos T v1 v2 collid = Ok r /\
    (r = 0 /\ (forall k, ~ ns `prefix_of` drop k cs) \/
     1 <= r <= zlen cs + 1 /\ ns `prefix_of` drop (Z.to_nat (r - 1)) cs /\
     forall k, (k < Z.to_nat (r - 1))%nat -> ~ ns `prefix_of` drop k cs).
Proof.
  intros Hcol Hloc H1 H2 Hh Hn. unfold textpos.
  destruct (packed_ok_text T v1 h H1) as (p1 & t1 & -> & Hp1 & _). destruct (packed_ok_text T v2 n H2) as (p2 & t2 & -> & Hp2 & _). bind.
  eexists. split; [by apply (text_position_ok T collid cs ns h n)|]. pose proof (find_chars_spec ns cs) as Hs.
  destruct (find_chars ns cs) as [k|]; [right|by left]. destruct Hs as (Hk & Hp & Hno).
  replace (Z.to_nat (Z.of_nat k + 1 - 1)) with k by lia. split; [unfold zlen; lia|done].
Qed.

(** C11: replace puts the new string for the separators between the fields that the old
    string cuts the value into, the fields being those of the characters; an empty old
    string changes nothing; a result of 1 GB or more is an error. *)
Theorem replace_text_correct T collid v1 v2 v3 h n d cs ns :
  OidIsValid collid = true -> search_locale_ok T collid = true ->
  holds (t_env T) v1 h -> holds (t_env T) v2 n -> holds (t_env T) v3 d ->
  text_of (t_enc T) cs h -> text_of (t_enc T) ns n ->
  join ns (fields ns cs) = cs /\
  text_result (replace_text T v1 v2 v3 collid) (join d (map (@concat Z) (fields ns cs))).
Proof.
  intros Hcol Hloc H1 H2 H3 Hh Hn. split; [apply join_fields|]. set (r := join d _). unfold replace_text.
  destruct (packed_ok_text T v1 h H1) as (p1 & t1 & -> & Hp1 & _). destruct (packed_ok_text T v2 n H2) as (p2 & t2 & -> & Hp2 & _).
  destruct (packed_ok_text T v3 d H3) as (p3 & t3 & -> & Hp3 & _). bind. rewrite (exhdr_ok _ _ Hp1), (exhdr_ok _ _ Hp2). bind.
  pose proof (holds_ok _ _ _ H1) as Hfits. unfold ok_4b_u in Hfits.
  assert (Hsame : r = h -> text_result (Ok p1) r).
  { intros ->. unfold text_result. rewrite (proj2 (Z.leb_le _ _)) by (unfold VARHDRSZ, MaxAllocSize; lia). by exists p1. }
  assert (Hone : fields ns cs = [cs] -> r = h) by (intros Hf; unfold r; rewrite Hf; simpl; rewrite app_nil_r; by destruct Hh as [-> _]).
  destruct (Z.ltb_spec (zlen n) 1) as [Hz|Hz].
  { rewrite orb_true_r. apply (empty_needle T ns n Hn) in Hz. subst ns. by apply Hsame, Hone. }
  assert (Hne : ns <> []) by (intros Hx%(empty_needle T ns n Hn); lia).
  destruct (Z.ltb_spec (zlen h) 1) as [Hzh|Hzh]; cbn [orb].
  { apply (empty_hay T cs h Hh) in Hzh. subst cs. apply Hsame, Hone. rewrite fields_eq by done.
    pose proof (find_chars_spec ns []) as Hs. destruct (find_chars ns []); [|done].
    destruct Hs as (_ & [t Ht] & _). rewrite drop_nil in Ht. by destruct ns. }
  destruct (setup_ok T cs ns h n Hh Hn p1 p2 collid Hcol Hloc Hp1 Hp2) as (st & -> & Hst & Hat & _). bind.
  pose proof (next_ok T cs ns h n Hh Hn Hne st 0 0 Hst Hat) as Hnext. rewrite drop_0 in Hnext.
  destruct (find_chars ns cs) as [k|] eqn:Ek.
  2: { destruct Hnext as (st' & -> & _). bind. cbn [negb]. apply Hsame, Hone. by rewrite fields_eq, Ek. }
  destruct Hnext as (st' & q & -> & Hst' & Hlast & _ & Hat' & _). bind. cbn [negb].
  unfold text_position_get_match_ptr at 1. rewrite Hlast. bind. simpl in Hat'.
  pose proof (replace_found T collid cs ns h n Hcol Hloc Hh Hn Hne p3 d Hp3 p1 p2 Hp1 Hp2 st' k q Hst' Ek Hat') as Hrep.
  apply append_text_result in Hrep. rewrite !res_assoc in Hrep.
  destruct initStringInfo as [str| | |]; try exact Hrep. cbn [mbind res_bind] in *. rewrite !res_assoc in Hrep.
  destruct (iter _ _ _) as [[str' start]| | |]; try exact Hrep. cbn [mbind res_bind] in *.
  destruct (VARDATA_ANY p1); try exact Hrep. cbn [mbind res_bind] in *. by destruct (VARSIZE_ANY p1).
Qed.

Lemma empty_fields ns : fields ns [] = [[]].
Proof.
  destruct (decide (ns = [])) as [->|Hne]; [done|]. rewrite fields_eq by done. pose proof (find_chars_spec ns []) as Hs.
  destruct (find_chars ns []); [|done]. destruct Hs as (_ & [t Ht] & _). rewrite drop_nil in Ht. by destruct ns.
Qed.

Lemma join_size (ns : list (list Z)) l f : f ∈ l -> zlen (concat f) <= zlen (concat (join ns l)).
Proof.
  assert (Hmap : forall l, f ∈ l -> zlen (concat f) <= zlen (concat (concat (map (app ns) l)))).
  { induction l0 as [|g l0 IH]; [by intros ?%not_elem_of_nil|]. rewrite elem_of_cons. simpl. rewrite !concat_app, !zlen_app.
    intros [->|Hin]; [|specialize (IH Hin)]; zl. }
  destruct l as [|g l]; [by intros ?%not_elem_of_nil|]. rewrite elem_of_cons. simpl. rewrite concat_app, zlen_app.
  intros [->|Hin]; [|specialize (Hmap l Hin)]; zl.
Qed.

Lemma nth_field_size num ns cs : zlen (concat (nth_field num (fields ns cs))) <= zlen (concat cs).
Proof.
  rewrite <- (join_fields ns cs) at 2. unfold nth_field. case_match; [zl|]. set (i := Z.to_nat _).
  destruct (decide (i < length (fields ns cs))%nat) as [Hi|Hi]; [|rewrite nth_overflow by lia; zl].
  apply join_size, list_elem_of_In, nth_In, Hi.
Qed.

Lemma nth_field_one num f : num <> 0 -> nth_field num [f] = if (num =? 1) || (num =? -1) then f else [].
Proof.
  intros Hn. unfold nth_field. change (zlen [f]) with 1. destruct (Z.eqb_spec num 1) as [->|]; [done|].
  destruct (Z.eqb_spec num (-1)) as [->|]; [done|]. cbn [orb]. destruct (Z.ltb_spec num 0).
  - by rewrite (proj2 (Z.ltb_lt _ _)) by lia.
  - rewrite (proj2 (Z.ltb_ge _ _)) by lia. destruct (Z.to_nat (num - 1)) as [|k] eqn:Ek; [lia|]. simpl. by destruct k.
Qed.

(** split_part gives the field with the number asked for, counted from the end if the
    number is negative, of the fields that the separator cuts the characters into, none of
    which contains the separator; the empty string if there is no such field; and an error
    for the number 0. *)
Theorem split_part_correct T collid v1 v2 h n cs ns num :
  OidIsValid collid = true -> search_locale_ok T collid = true ->
  holds (t_env T) v1 h -> holds (t_env T) v2 n -> text_of (t_enc T) cs h -> text_of (t_enc T) ns n ->
  join ns (fields ns cs) = cs /\ (ns <> [] -> Forall (fun f => forall k, ~ ns `prefix_of` drop k f) (fields ns cs)) /\
  if num =? 0 then split_part T v1 v2 num collid = Ereport ERRCODE_INVALID_PARAMETER_VALUE
  else exists v, split_part T v1 v2 num collid = Ok v /\ inline_value v (concat (nth_field num (fields ns cs))).
Proof.
  intros Hcol Hloc H1 H2 Hh Hn. split; [apply join_fields|]. split.
  { intros Hne. apply Forall_forall. intros f Hf%fields_free; [|done]. pose proof (find_chars_spec ns f) as Hs. by rewrite Hf in Hs. }
  unfold split_part.
  destruct (packed_ok_text T v1 h H1) as (p1 & t1 & -> & Hp1 & _). destruct (packed_ok_text T v2 n H2) as (p2 & t2 & -> & Hp2 & _). bind.
  destruct (Z.eqb_spec num 0) as [->|Hnum]; [done|]. rewrite (exhdr_ok _ _ Hp1), (exhdr_ok _ _ Hp2). bind.
  pose proof (holds_ok _ _ _ H1) as Hfits. unfold ok_4b_u in Hfits.
  assert (Hnil : inline_value (mk_4b_u []) []) by (by apply mk_inline). rewrite !empty_text.
  assert (Hone : fields ns cs = [cs] -> exists v, (if (num =? 1) || (num =? -1) then Ok p1 else Ok (mk_4b_u [])) = Ok v /\
    inline_value v (concat (nth_field num (fields ns cs)))).
  { intros ->. rewrite nth_field_one by done. destruct ((num =? 1) || (num =? -1)); [exists p1|by exists (mk_4b_u [])].
    split; [done|]. by destruct Hh as [<- _]. }
  destruct (Z.ltb_spec (zlen h) 1) as [Hzh|Hzh].
  { apply (empty_hay T cs h Hh) in Hzh. subst cs. rewrite empty_fields, nth_field_one by done. exists (mk_4b_u []).
    split; [done|]. by destruct (_ || _). }
  destruct (Z.ltb_spec (zlen n) 1) as [Hz|Hz].
  { apply (empty_needle T ns n Hn) in Hz. subst ns. by apply Hone. }
  assert (Hne : ns <> []) by (intros Hx%(empty_needle T ns n Hn); lia).
  destruct (setup_ok T cs ns h n Hh Hn p1 p2 collid Hcol Hloc Hp1 Hp2) as (st & -> & Hst & Hat & _). bind.
  pose proof (next_ok T cs ns h n Hh Hn Hne st 0 0 Hst Hat) as Hnext. rewrite drop_0 in Hnext.
  destruct (find_chars ns cs) as [k|] eqn:Ek.
  - destruct Hnext as (st' & q & -> & Hst' & Hlast & _ & Hat' & _). bind. cbn [negb].
    eexists. split; [apply (split_found T cs ns h n Hh Hn Hne Hfits st' k num Hst' Ek Hlast); [by exists q|done]|].
    apply mk_inline. assert (Hsub : zlen (concat (nth_field num (fields ns cs))) <= zlen h); [|lia].
    destruct Hh as [-> _]. apply nth_field_size.
  - destruct Hnext as (st' & -> & _). bind. cbn [negb]. apply Hone. by rewrite fields_eq, Ek.
Qed.

(** string_to_array and string_to_table give the fields in order, NULL for those equal
    to the null string; each character is a field of its own if the separator is NULL; the
    result is NULL for a NULL input and empty for an empty one. *)
Theorem split_text_correct T collid v1 h cs (sep nul : option (list Z)) (dsep : option (list Z * list (list Z))) dn :
  OidIsValid collid = true -> search_locale_ok T collid = true ->
  holds (t_env T) v1 h -> text_of (t_enc T) cs h ->
  match sep, dsep with
  | Some v, Some (n, ns) => holds (t_env T) v n /\ text_of (t_enc T) ns n
  | None, None => True
  | _, _ => False
  end ->
  match nul, dn with Some v, Some d => holds (t_env T) v d | None, None => True | _, _ => False end ->
  split_text T None sep nul collid = Ok None /\
  exists els, split_text T (Some v1) sep nul collid = Ok (Some els) /\
    Forall2 (element_ok dn) els
      (match cs, dsep with
       | [], _ => []
       | _, Some (_, ns) => fields ns cs
       | _, None => map (fun c => [c]) cs
       end).
Proof.
  intros Hcol Hloc H1 Hh Hsep Hnul. split; [done|]. unfold split_text.
  destruct (packed_ok_text T v1 h H1) as (p1 & t1 & -> & Hp1 & Hd1). bind.
  pose proof (holds_ok _ _ _ H1) as Hfits. unfold ok_4b_u in Hfits.
  assert (Hnull : exists w, match nul with Some n => n ← DatumGetTextPP T n; Ok (Some n) | None => Ok None end = Ok w /\
    match w, dn with Some v, Some d => inline_value v d | None, None => True | _, _ => False end).
  { destruct nul as [v|], dn as [d|]; try done; [|by exists None].
    destruct (packed_ok_text T v d Hnul) as (p & t & -> & Hp & _). by exists (Some p). }
  destruct Hnull as (w & Hw & Hwd). assert (Hlen : (length cs < S (Z.to_nat (zlen h)))%nat).
  { destruct Hh as [-> Hcs]. pose proof (concat_size _ cs Hcs). unfold zlen in *. lia. }
  destruct sep as [v2|], dsep as [[n ns]|]; try done.
  - destruct Hsep as [H2 Hn]. destruct (packed_ok_text T v2 n H2) as (p2 & t2 & -> & Hp2 & _). bind. rewrite Hw. bind.
    rewrite (exhdr_ok _ _ Hp1). bind. rewrite (exhdr_ok _ _ Hp2). bind.
    destruct (Z.ltb_spec (zlen h) 1) as [Hzh|Hzh].
    { apply (empty_hay T cs h Hh) in Hzh. subst cs. by exists []. }
    assert (Hcs : cs <> []) by (intros Hx%(empty_hay T cs h Hh); lia).
    replace (match cs with [] => [] | _ :: _ => fields ns cs end) with (fields ns cs) by (by destruct cs).
    destruct (Z.ltb_spec (zlen n) 1) as [Hz|Hz].
    { apply (empty_needle T ns n Hn) in Hz. subst ns.
      destruct (accum_ok T collid Hcol Hloc w dn Hwd [] p1 cs) as (o & -> & Ho); [by destruct Hh as [<- _]|]. bind.
      exists [o]. split; [done|]. by constructor. }
    assert (Hne : ns <> []) by (intros Hx%(empty_needle T ns n Hn); lia).
    destruct (setup_ok T cs ns h n Hh Hn p1 p2 collid Hcol Hloc Hp1 Hp2) as (st & -> & Hst & Hat & _). bind.
    destruct (returns_eq _ _ (split_loop T collid cs ns h n Hcol Hloc Hh Hn Hne Hfits w dn Hwd p1
      (S (Z.to_nat (zlen h))) 0 st [] [] Hp1 Hst (ex_intro _ _ Hat) ltac:(lia) ltac:(constructor))) as (els & Hels & Hok).
    change (bpos cs 0) with 0 in Hels. rewrite Hels. bind. exists els. by split.
  - bind. rewrite Hw. bind. rewrite (exhdr_ok _ _ Hp1). bind. rewrite Hd1. bind. cbn [fst]. destruct Hh as [-> Hcs].
    destruct (returns_eq _ _ (chars_loop T collid Hcol Hloc w dn Hwd (S (Z.to_nat (zlen (concat cs)))) cs t1 [] [] Hcs Hlen
      ltac:(constructor))) as (els & -> & Hok). bind. exists els. split; [done|]. by destruct cs.
Qed.

(** ** Witnesses *)

(** EUC_JP: the bytes of the needle are also there across the first two characters. *)
Definition eucjp_tenv : tenv := {| t_env := sample_env; t_enc := PG_EUC_JP; t_locale := fun _ => sample_locale |}.
Definition eucjp_chars : list (list Z) := [[0xA4; 0xA2]; [0xA4; 0xA4]; [0xA2; 0xA4]; [97]].
Definition eucjp_needle : list (list Z) := [[0xA2; 0xA4]].

Lemma sample_inline cs : zlen (concat cs) + 4 < 2 ^ 30 -> holds sample_env (mk_4b_u (concat cs) ++ [0]) (concat cs).
Proof. intros Hz. by apply holds_direct, direct_inline, inline_4b. Qed.

Lemma textpos_correct_witness :
  exists r, textpos eucjp_tenv (mk_4b_u (concat eucjp_chars) ++ [0]) (mk_4b_u (concat eucjp_needle) ++ [0]) 100 = Ok r /\ r = 3.
Proof.
  destruct (textpos_correct eucjp_tenv 100 (mk_4b_u (concat eucjp_chars) ++ [0]) (mk_4b_u (concat eucjp_needle) ++ [0])
    (concat eucjp_chars) (concat eucjp_needle)
    eucjp_chars eucjp_needle eq_refl eq_refl) as (r & Hr & _);
    [by apply sample_inline|by apply sample_inline|by apply text_of_eval|by apply text_of_eval|].
  exists r. split; [done|]. vm_compute in Hr. by injection Hr as <-.
Defined.

Definition sample_a : list (list Z) := [[97]].

Lemma replace_text_correct_witness :
  exists v, replace_text sample_tenv sample_text (mk_4b_u (concat sample_a) ++ [0]) (mk_4b_u [0xC3; 0xA9] ++ [0]) 100 = Ok v /\
    inline_value v [110; 0xC3; 0xA9; 0xE2; 0x82; 0xAC; 0xC3; 0xA9; 98; 99; 0xC3; 0xA9].
Proof.
  destruct (replace_text_correct sample_tenv 100 sample_text (mk_4b_u (concat sample_a) ++ [0]) (mk_4b_u [0xC3; 0xA9] ++ [0])
    (concat sample_chars) (concat sample_a) [0xC3; 0xA9] sample_chars sample_a eq_refl eq_refl sample_text_holds) as [_ Hr];
    [by apply sample_inline|apply (sample_inline [[0xC3; 0xA9]]); done|apply sample_text_of|by apply text_of_eval|].
  exact Hr.
Defined.

Lemma split_part_correct_witness :
  exists v, split_part sample_tenv sample_text (mk_4b_u (concat sample_a) ++ [0]) (-2) 100 = Ok v /\ inline_value v [98; 99].
Proof.
  destruct (split_part_correct sample_tenv 100 sample_text (mk_4b_u (concat sample_a) ++ [0]) (concat sample_chars) (concat sample_a)
    sample_chars sample_a (-2)
    eq_refl eq_refl sample_text_holds) as (_ & _ & Hr); [by apply sample_inline|apply sample_text_of|by apply text_of_eval|].
  exact Hr.
Defined.

Lemma split_text_correct_witness :
  exists els, split_text sample_tenv (Some sample_text) (Some (mk_4b_u (concat sample_a) ++ [0])) (Some (mk_4b_u [98; 99] ++ [0])) 100 =
    Ok (Some els) /\ Forall2 (element_ok (Some [98; 99])) els (fields sample_a sample_chars).
Proof.
  destruct (split_text_correct sample_tenv 100 sample_text _ sample_chars (Some (mk_4b_u (concat sample_a) ++ [0]))
    (Some (mk_4b_u [98; 99] ++ [0])) (Some (concat sample_a, sample_a)) (Some [98; 99]) eq_refl eq_refl
    sample_text_holds sample_text_of) as [_ H].
  - split; [by apply sample_inline|by apply text_of_eval].
  - by apply (sample_inline [[98]; [99]]).
  - exact H.
Defined.
