(* ===== verification/Page.v ===== *)
(** Pages: src/backend/storage/page/bufpage.c with src/include/storage/bufpage.h and
    itemid.h, the slotted pages in which heap and index tuples are stored.

    A page is its header fields, its line pointer array and its bytes.  [pd_linp] holds the
    line pointers up to pd_lower; they and the header occupy the first bytes of the page, so
    that a read or write of tuple data below the end of the array is [Ub]: it would see or
    destroy line pointers.  lp_off and lp_len are 15 bits wide.  WARNING messages are not
    modelled; a page that ereport(PANIC) complains of gives [Ereport].  The scratch page of
    compactify_tuples is uninitialised stack memory, the argument [mem]. *)

From S2P Require Import Prelude Varatt Rle Pglz PglzHist PglzItems PglzCodec ToastCompression Oids ToastStore.

Definition InvalidOffsetNumber : Z := 0.
Definition FirstOffsetNumber : Z := 1.
Definition MaxOffsetNumber : Z := BLCKSZ / sizeof_ItemIdData.
Definition OffsetNumberIsValid (n : Z) : bool := negb (n =? InvalidOffsetNumber) && (n <=? MaxOffsetNumber).
Definition MaxHeapTuplesPerPage : Z :=
  (BLCKSZ - SizeOfPageHeaderData) / (MAXALIGN SizeofHeapTupleHeader + sizeof_ItemIdData).
Definition sizeof_IndexTupleData : Z := 8.
Definition MaxIndexTuplesPerPage : Z :=
  (BLCKSZ - SizeOfPageHeaderData) / (MAXALIGN (sizeof_IndexTupleData + 1) + sizeof_ItemIdData).

(** ** Line pointers *)

Record ItemIdData := mkItemId { lp_off : Z; lp_flags : Z; lp_len : Z }.

Definition LP_UNUSED : Z := 0.
Definition LP_NORMAL : Z := 1.
Definition LP_REDIRECT : Z := 2.
Definition LP_DEAD : Z := 3.

Definition ItemIdIsUsed (lp : ItemIdData) : bool := negb (lp_flags lp =? LP_UNUSED).
Definition ItemIdHasStorage (lp : ItemIdData) : bool := negb (lp_len lp =? 0).
Definition ItemIdUnused : ItemIdData := mkItemId 0 LP_UNUSED 0.
Definition ItemIdNormal (off len : Z) : ItemIdData := mkItemId (off mod 2 ^ 15) LP_NORMAL (len mod 2 ^ 15).
Definition set_lp_off (lp : ItemIdData) (off : Z) : ItemIdData := mkItemId (off mod 2 ^ 15) (lp_flags lp) (lp_len lp).

(** ** Pages *)

Record PageData := {
  pd_flags : Z;
  pd_lower : Z;
  pd_upper : Z;
  pd_special : Z;
  pd_pagesize_version : Z;
  pd_prune_xid : Z;
  pd_linp : list ItemIdData;
  pd_bytes : list Z
}.

Definition set_flags (p : PageData) (f : Z) : PageData :=
  {| pd_flags := f; pd_lower := pd_lower p; pd_upper := pd_upper p; pd_special := pd_special p;
     pd_pagesize_version := pd_pagesize_version p; pd_prune_xid := pd_prune_xid p; pd_linp := pd_linp p; pd_bytes := pd_bytes p |}.
Definition set_upper (p : PageData) (u : Z) : PageData :=
  {| pd_flags := pd_flags p; pd_lower := pd_lower p; pd_upper := u; pd_special := pd_special p;
     pd_pagesize_version := pd_pagesize_version p; pd_prune_xid := pd_prune_xid p; pd_linp := pd_linp p; pd_bytes := pd_bytes p |}.
(** pd_lower, with the line pointers below it *)
Definition set_lower (p : PageData) (l : Z) (linp : list ItemIdData) : PageData :=
  {| pd_flags := pd_flags p; pd_lower := l; pd_upper := pd_upper p; pd_special := pd_special p;
     pd_pagesize_version := pd_pagesize_version p; pd_prune_xid := pd_prune_xid p; pd_linp := linp; pd_bytes := pd_bytes p |}.
Definition set_linp (p : PageData) (linp : list ItemIdData) : PageData := set_lower p (pd_lower p) linp.
Definition set_bytes (p : PageData) (b : list Z) : PageData :=
  {| pd_flags := pd_flags p; pd_lower := pd_lower p; pd_upper := pd_upper p; pd_special := pd_special p;
     pd_pagesize_version := pd_pagesize_version p; pd_prune_xid := pd_prune_xid p; pd_linp := pd_linp p; pd_bytes := b |}.

Definition PD_HAS_FREE_LINES : Z := 1.
Definition PG_PAGE_LAYOUT_VERSION : Z := 4.
Definition PAI_OVERWRITE : Z := 1.
Definition PAI_IS_HEAP : Z := 2.

Definition linp_end (p : PageData) : Z := SizeOfPageHeaderData + sizeof_ItemIdData * zlen (pd_linp p).
Definition page_read (p : PageData) (off n : Z) : res (list Z) :=
  if off <? linp_end p then Ub else rdn (pd_bytes p) off n.
Definition page_write (p : PageData) (off : Z) (data : list Z) : res PageData :=
  if off <? linp_end p then Ub else b ← wr (pd_bytes p) off data; Ok (set_bytes p b).
(** memmove inside the page *)
Definition page_move (p : PageData) (dst src n : Z) : res PageData :=
  data ← page_read p src n; page_write p dst data.

Definition PageIsEmpty (p : PageData) : bool := pd_lower p <=? SizeOfPageHeaderData.
Definition PageGetMaxOffsetNumber (p : PageData) : Z :=
  if pd_lower p <=? SizeOfPageHeaderData then 0 else (pd_lower p - SizeOfPageHeaderData) / sizeof_ItemIdData.
Definition PageGetItemId (p : PageData) (offsetNumber : Z) : res ItemIdData :=
  if 1 <=? offsetNumber then
    match pd_linp p !! Z.to_nat (offsetNumber - 1) with Some lp => Ok lp | None => Ub end
  else Ub.
(** Storing through PageGetItemId; [n] may be one past the last. *)
Definition PageSetItemId (p : PageData) (offsetNumber : Z) (lp : ItemIdData) : res PageData :=
  if (1 <=? offsetNumber) && (offsetNumber <=? zlen (pd_linp p) + 1) then
    let i := Z.to_nat (offsetNumber - 1) in
    Ok (set_linp p (take i (pd_linp p) ++ lp :: drop (S i) (pd_linp p)))
  else Ub.
Definition PageGetItem (p : PageData) (lp : ItemIdData) : res (list Z) := page_read p (lp_off lp) (lp_len lp).

Definition PageHasFreeLinePointers (p : PageData) : bool := negb (Z.land (pd_flags p) PD_HAS_FREE_LINES =? 0).
Definition PageSetHasFreeLinePointers (p : PageData) : PageData := set_flags p (Z.lor (pd_flags p) PD_HAS_FREE_LINES).
Definition PageClearHasFreeLinePointers (p : PageData) : PageData :=
  set_flags p (Z.land (pd_flags p) (Z.lnot PD_HAS_FREE_LINES)).
Definition PageGetPageSize (p : PageData) : Z := Z.land (pd_pagesize_version p) 0xFF00.
Definition PageGetSpecialSize (p : PageData) : Z := PageGetPageSize p - pd_special p.

Definition PageInit (pageSize specialSize : Z) : PageData :=
  let specialSize := MAXALIGN specialSize in
  {| pd_flags := 0; pd_lower := SizeOfPageHeaderData; pd_upper := pageSize - specialSize;
     pd_special := pageSize - specialSize; pd_pagesize_version := Z.lor pageSize PG_PAGE_LAYOUT_VERSION;
     pd_prune_xid := 0; pd_linp := []; pd_bytes := zrep pageSize 0 |}.

Definition PageGetTempPageCopy (p : PageData) : res PageData := _ ← palloc (PageGetPageSize p); Ok p.
Definition PageGetTempPageCopySpecial (p : PageData) : res PageData :=
  let pageSize := PageGetPageSize p in
  _ ← palloc pageSize;
  let temp := PageInit pageSize (PageGetSpecialSize p) in
  data ← page_read p (pd_special p) (PageGetSpecialSize p);
  page_write temp (pd_special temp) data.

(** ** PageAddItemExtended *)

(** The first slot from n that is unused and without storage, or the limit *)
Fixpoint find_free (linp : list ItemIdData) (n : Z) : Z :=
  match linp with
  | [] => n
  | lp :: linp => if negb (ItemIdIsUsed lp) && negb (ItemIdHasStorage lp) then n else find_free linp (n + 1)
  end.

(** The slot for the item, whether later line pointers have to move, and the page with its
    hint bit; None if the slot is taken. *)
Definition choose_slot (p : PageData) (offsetNumber flags limit : Z) : res (option (Z * bool * PageData)) :=
  if OffsetNumberIsValid offsetNumber then
    if negb (Z.land flags PAI_OVERWRITE =? 0) then
      if offsetNumber <? limit then
        itemId ← PageGetItemId p offsetNumber;
        if ItemIdIsUsed itemId || ItemIdHasStorage itemId then Ok None else Ok (Some (offsetNumber, false, p))
      else Ok (Some (offsetNumber, false, p))
    else Ok (Some (offsetNumber, offsetNumber <? limit, p))
  else if PageHasFreeLinePointers p then
    let n := find_free (take (Z.to_nat (limit - 1)) (pd_linp p)) FirstOffsetNumber in
    Ok (Some (n, false, if n >=? limit then PageClearHasFreeLinePointers p else p))
  else Ok (Some (limit, false, p)).

Definition page_pointers_bad (p : PageData) : bool :=
  (pd_lower p <? SizeOfPageHeaderData) || (pd_lower p >? pd_upper p) || (pd_upper p >? pd_special p) || (pd_special p >? BLCKSZ).

Definition PageAddItemExtended (p : PageData) (item : list Z) (size offsetNumber flags : Z) : res (Z * PageData) :=
  if page_pointers_bad p then Ereport ERRCODE_DATA_CORRUPTED else
  let limit := (1 + PageGetMaxOffsetNumber p) mod 2 ^ 16 in
  c ← choose_slot p offsetNumber flags limit;
  match c with
  | None => Ok (InvalidOffsetNumber, p)
  | Some (offsetNumber, needshuffle, p) =>
      if offsetNumber >? limit then Ok (InvalidOffsetNumber, p) else
      if negb (Z.land flags PAI_IS_HEAP =? 0) && (offsetNumber >? MaxHeapTuplesPerPage) then Ok (InvalidOffsetNumber, p) else
      let lower := if (offsetNumber =? limit) || needshuffle then pd_lower p + sizeof_ItemIdData else pd_lower p in
      let upper := int32_of (pd_upper p - int32_of (MAXALIGN size)) in
      if lower >? upper then Ok (InvalidOffsetNumber, p) else
      p ← (if (needshuffle : bool) then
             itemId ← PageGetItemId p offsetNumber;
             let i := Z.to_nat (offsetNumber - 1) in
             Ok (set_linp p (take i (pd_linp p) ++ itemId :: drop i (pd_linp p)))
           else Ok p);
      p ← PageSetItemId p offsetNumber (ItemIdNormal upper size);
      data ← rdn item 0 size;
      p ← page_write p upper data;
      Ok (offsetNumber, set_upper (set_lower p (lower mod 2 ^ 16) (pd_linp p)) (upper mod 2 ^ 16))
  end.

(** ** Compaction *)

Record itemIdCompactData := mkCompact { offsetindex : Z; itemoff : Z; alignedlen : Z }.

(** do ... while (i < nitems): pass over the items that are in place; the result is upper,
    itemidptr and the items that are left to move. *)
Fixpoint skip_placed (upper : Z) (cur : itemIdCompactData) (rest : list itemIdCompactData) :
  Z * itemIdCompactData * list itemIdCompactData :=
  if negb (upper =? itemoff cur + alignedlen cur) then (upper, cur, cur :: rest) else
  let upper := upper - alignedlen cur in
  match rest with
  | [] => (upper, cur, [])
  | next :: rest => skip_placed upper next rest
  end.

(** The loop that moves tuples up to the end, adjacent ones in one copy *)
Fixpoint move_tuples (copy : PageData -> Z -> Z -> Z -> res PageData) (items : list itemIdCompactData)
  (upper copy_tail copy_head : Z) (p : PageData) : res PageData :=
  match items with
  | [] => p ← copy p upper copy_head (copy_tail - copy_head); Ok (set_upper p (upper mod 2 ^ 16))
  | it :: items =>
      let item_end := itemoff it + alignedlen it in
      lp ← PageGetItemId p (offsetindex it + 1);
      x ← (if negb (copy_head =? item_end) then
             p ← copy p upper copy_head (copy_tail - copy_head); Ok (p, item_end)
           else Ok (p, copy_tail));
      let '(p, copy_tail) := x in
      let upper := upper - alignedlen it in
      p ← PageSetItemId p (offsetindex it + 1) (set_lp_off lp upper);
      move_tuples copy items upper copy_tail (itemoff it) p
  end.

(** memcpy of one tuple after another into the scratch page *)
Fixpoint fill_scratch (p : PageData) (items : list itemIdCompactData) (scratch : list Z) : res (list Z) :=
  match items with
  | [] => Ok scratch
  | it :: items =>
      data ← page_read p (itemoff it) (alignedlen it);
      scratch ← wr scratch (itemoff it) data;
      fill_scratch p items scratch
  end.

Definition from_scratch (scratch : list Z) (p : PageData) (dst src n : Z) : res PageData :=
  data ← rdn scratch src n; page_write p dst data.

Definition compactify_tuples (mem : list Z) (itemidbase : list itemIdCompactData) (p : PageData) (presorted : bool) : res PageData :=
  match itemidbase with
  | [] => Ub
  | it0 :: rest =>
      if presorted then
        let '(upper, cur, items) := skip_placed (pd_special p) it0 rest in
        let e := itemoff cur + alignedlen cur in
        move_tuples page_move items upper e e p
      else
        x ← (if zlen itemidbase <? PageGetMaxOffsetNumber p / 4 then
               scratch ← fill_scratch p itemidbase mem;
               Ok (pd_special p, it0, itemidbase, scratch)
             else
               let '(upper, cur, items) := skip_placed (pd_special p) it0 rest in
               data ← page_read p (pd_upper p) (upper - pd_upper p);
               scratch ← wr mem (pd_upper p) data;
               Ok (upper, cur, items, scratch));
        let '(upper, cur, items, scratch) := x in
        let e := itemoff cur + alignedlen cur in
        move_tuples (from_scratch scratch) items upper e e p
  end.

(** What the scan of the line pointers finds; [c_base] is itemidbase, in reverse. *)
Record collected := {
  c_base : list itemIdCompactData;
  c_linp : list ItemIdData;
  c_last_offset : Z;
  c_presorted : bool;
  c_totallen : Z;
  c_nunused : Z;
  c_finalused : Z
}.

(** for (i = FirstOffsetNumber; i <= nline; i++): [linp] from line pointer i on; entries
    beyond the end of the local array are [Ub]. *)
Fixpoint collect_items (pd_upper pd_special : Z) (linp : list ItemIdData) (i : Z) (c : collected) : res collected :=
  match linp with
  | [] => Ok c
  | lp :: linp =>
      if ItemIdIsUsed lp then
        x ← (if ItemIdHasStorage lp then
               if zlen (c_base c) >=? MaxHeapTuplesPerPage then Ub else
               let off := lp_off lp in
               if (off <? pd_upper) || (off >=? pd_special) then Ereport ERRCODE_DATA_CORRUPTED else
               let al := MAXALIGN (lp_len lp) in
               Ok (mkCompact (i - 1) off al :: c_base c,
                   if c_last_offset c >? off then off else c_last_offset c,
                   if c_last_offset c >? off then c_presorted c else false,
                   c_totallen c + al)
             else Ok (c_base c, c_last_offset c, c_presorted c, c_totallen c));
        let '(base, last_offset, presorted, totallen) := x in
        collect_items pd_upper pd_special linp (i + 1)
          {| c_base := base; c_linp := c_linp c ++ [lp]; c_last_offset := last_offset; c_presorted := presorted;
             c_totallen := totallen; c_nunused := c_nunused c; c_finalused := i |}
      else
        collect_items pd_upper pd_special linp (i + 1)
          {| c_base := c_base c; c_linp := c_linp c ++ [ItemIdUnused]; c_last_offset := c_last_offset c;
             c_presorted := c_presorted c; c_totallen := c_totallen c; c_nunused := c_nunused c + 1;
             c_finalused := c_finalused c |}
  end.

(** The stricter test of the functions that rearrange a page *)
Definition page_corrupt (p : PageData) : bool := page_pointers_bad p || negb (pd_special p =? MAXALIGN (pd_special p)).

Definition PageRepairFragmentation (mem : list Z) (p : PageData) : res PageData :=
  if page_corrupt p then Ereport ERRCODE_DATA_CORRUPTED else
  let nline := PageGetMaxOffsetNumber p in
  c ← collect_items (pd_upper p) (pd_special p) (pd_linp p) FirstOffsetNumber
        {| c_base := []; c_linp := []; c_last_offset := pd_special p; c_presorted := true; c_totallen := 0;
           c_nunused := 0; c_finalused := InvalidOffsetNumber |};
  let lower := pd_lower p in
  let p := set_linp p (c_linp c) in
  p ← match rev (c_base c) with
      | [] => Ok (set_upper p (pd_special p))
      | itemidbase =>
          if c_totallen c >? pd_special p - lower then Ereport ERRCODE_DATA_CORRUPTED
          else compactify_tuples mem itemidbase p (c_presorted c)
      end;
  let nunusedend := nline - c_finalused c in
  let p := if negb (c_finalused c =? nline)
           then set_lower p (pd_lower p - sizeof_ItemIdData * nunusedend) (take (Z.to_nat (c_finalused c)) (pd_linp p)) else p in
  let nunused := if negb (c_finalused c =? nline) then c_nunused c - nunusedend else c_nunused c in
  Ok (if nunused >? 0 then PageSetHasFreeLinePointers p else PageClearHasFreeLinePointers p).

(** The scan of PageTruncateLinePointerArray from the last line pointer, number i, to the
    first; the result is nunusedend and sethint. *)
Fixpoint truncate_scan (rlinp : list ItemIdData) (i nunusedend : Z) (countdone : bool) : Z * bool :=
  match rlinp with
  | [] => (nunusedend, false)
  | lp :: rlinp =>
      if negb countdone && (i >? FirstOffsetNumber) then
        if negb (ItemIdIsUsed lp) then truncate_scan rlinp (i - 1) (nunusedend + 1) countdone
        else truncate_scan rlinp (i - 1) nunusedend true
      else if negb (ItemIdIsUsed lp) then (nunusedend, true)
      else truncate_scan rlinp (i - 1) nunusedend countdone
  end.
Definition PageTruncateLinePointerArray (p : PageData) : PageData :=
  let '(nunusedend, sethint) := truncate_scan (rev (pd_linp p)) (PageGetMaxOffsetNumber p) 0 false in
  let p := if nunusedend >? 0
           then set_lower p (pd_lower p - sizeof_ItemIdData * nunusedend) (take (Z.to_nat (zlen (pd_linp p) - nunusedend)) (pd_linp p))
           else p in
  if sethint then PageSetHasFreeLinePointers p else PageClearHasFreeLinePointers p.

(** ** Free space *)

Definition PageGetFreeSpace (p : PageData) : Z :=
  let space := pd_upper p - pd_lower p in
  if space <? sizeof_ItemIdData then 0 else space - sizeof_ItemIdData.
Definition PageGetFreeSpaceForMultipleTuples (p : PageData) (ntups : Z) : Z :=
  let space := pd_upper p - pd_lower p in
  if space <? ntups * sizeof_ItemIdData then 0 else space - ntups * sizeof_ItemIdData.
Definition PageGetExactFreeSpace (p : PageData) : Z :=
  let space := pd_upper p - pd_lower p in if space <? 0 then 0 else space.
Definition PageGetHeapFreeSpace (p : PageData) : Z :=
  let space := PageGetFreeSpace p in
  if space >? 0 then
    let nline := PageGetMaxOffsetNumber p in
    if nline >=? MaxHeapTuplesPerPage then
      if PageHasFreeLinePointers p then
        if existsb (fun lp => negb (ItemIdIsUsed lp)) (pd_linp p) then space else 0
      else 0
    else space
  else space.

(** ** Index pages *)

(** The line pointer of an existing item, with its checks *)
Definition index_item (p : PageData) (offnum : Z) : res ItemIdData :=
  if page_corrupt p then Ereport ERRCODE_DATA_CORRUPTED else
  let nline := PageGetMaxOffsetNumber p in
  if (offnum <=? 0) || (offnum >? nline) then Ereport ERRCODE_INTERNAL_ERROR else
  tup ← PageGetItemId p offnum;
  if (lp_off tup <? pd_upper p) || (lp_off tup + lp_len tup >? pd_special p) || negb (lp_off tup =? MAXALIGN (lp_off tup))
  then Ereport ERRCODE_DATA_CORRUPTED else Ok tup.

(** The data between pd_upper and the tuple's moves by [size]; nothing to do at pd_upper. *)
Definition shift_data (p : PageData) (offset size : Z) : res PageData :=
  if offset >? pd_upper p then page_move p (pd_upper p + size) (pd_upper p) (offset - pd_upper p) else Ok p.

Definition PageIndexTupleDelete (p : PageData) (offnum : Z) : res PageData :=
  tup ← index_item p offnum;
  let offidx := Z.to_nat (offnum - 1) in
  let offset := lp_off tup in
  let size := MAXALIGN (lp_len tup) in
  let p := set_linp p (take offidx (pd_linp p) ++ drop (S offidx) (pd_linp p)) in
  p ← shift_data p offset size;
  let p := set_upper p ((pd_upper p + size) mod 2 ^ 16) in
  let p := set_lower p (pd_lower p - sizeof_ItemIdData) (pd_linp p) in
  Ok (if PageIsEmpty p then p
      else set_linp p (map (fun ii => if lp_off ii <=? offset then set_lp_off ii (lp_off ii + size) else ii) (pd_linp p))).

Definition PageIndexTupleDeleteNoCompact (p : PageData) (offnum : Z) : res PageData :=
  tup ← index_item p offnum;
  let nline := PageGetMaxOffsetNumber p in
  let offset := lp_off tup in
  let size := MAXALIGN (lp_len tup) in
  p ← (if offnum <? nline then PageSetItemId p offnum ItemIdUnused
       else Ok (set_lower p (pd_lower p - sizeof_ItemIdData) (take (Z.to_nat (nline - 1)) (pd_linp p))));
  p ← shift_data p offset size;
  let p := set_upper p ((pd_upper p + size) mod 2 ^ 16) in
  Ok (if PageIsEmpty p then p
      else set_linp p (map (fun ii => if ItemIdHasStorage ii && (lp_off ii <=? offset)
                                      then set_lp_off ii (lp_off ii + size) else ii) (pd_linp p))).

Definition PageIndexTupleOverwrite (p : PageData) (offnum : Z) (newtup : list Z) (newsize : Z) : res (bool * PageData) :=
  tupid ← index_item p offnum;
  let offset := lp_off tupid in
  let oldsize := MAXALIGN (lp_len tupid) in
  let alignednewsize := MAXALIGN newsize in
  if alignednewsize >? oldsize + (pd_upper p - pd_lower p) then Ok (false, p) else
  let size_diff := oldsize - alignednewsize in
  p ← (if negb (size_diff =? 0) then
         p ← page_move p (pd_upper p + size_diff) (pd_upper p) (offset - pd_upper p);
         let p := set_upper p ((pd_upper p + size_diff) mod 2 ^ 16) in
         Ok (set_linp p (map (fun ii => if ItemIdHasStorage ii && (lp_off ii <=? offset)
                                        then set_lp_off ii (lp_off ii + size_diff) else ii) (pd_linp p)))
       else Ok p);
  tupid ← PageGetItemId p offnum;
  p ← PageSetItemId p offnum (mkItemId ((offset + size_diff) mod 2 ^ 15) (lp_flags tupid) (newsize mod 2 ^ 15));
  data ← rdn newtup 0 newsize;
  p ← page_write p ((offset + size_diff) mod 2 ^ 15) data;
  Ok (true, p).

(** The scan of PageIndexMultiDelete: [keep] is newitemids and [base] itemidbase, both in
    reverse; the items that are left of itemnos are returned with them. *)
Fixpoint keep_items (p : PageData) (linp : list ItemIdData) (offnum : Z) (itemnos : list Z)
  (keep : list ItemIdData) (base : list itemIdCompactData) (last_offset : Z) (presorted : bool) (totallen : Z) :
  res (list Z * list ItemIdData * list itemIdCompactData * bool * Z) :=
  match linp with
  | [] => Ok (itemnos, keep, base, presorted, totallen)
  | lp :: linp =>
      let size := lp_len lp in
      let offset := lp_off lp in
      if (offset <? pd_upper p) || (offset + size >? pd_special p) || negb (offset =? MAXALIGN offset)
      then Ereport ERRCODE_DATA_CORRUPTED else
      if match itemnos with n :: _ => offnum =? n | [] => false end
      then keep_items p linp (offnum + 1) (tail itemnos) keep base last_offset presorted totallen
      else if zlen keep >=? MaxIndexTuplesPerPage then Ub
      else keep_items p linp (offnum + 1) itemnos (lp :: keep) (mkCompact (zlen keep) offset (MAXALIGN size) :: base)
             (if last_offset >? offset then offset else last_offset)
             (if last_offset >? offset then presorted else false) (totallen + MAXALIGN size)
  end.

(** PageIndexTupleDelete of the items, from the last *)
Fixpoint delete_each (p : PageData) (ritemnos : list Z) : res PageData :=
  match ritemnos with [] => Ok p | n :: ns => p ← PageIndexTupleDelete p n; delete_each p ns end.

Definition PageIndexMultiDelete (mem : list Z) (p : PageData) (itemnos : list Z) : res PageData :=
  if zlen itemnos <=? 2 then delete_each p (rev itemnos) else
  if page_corrupt p then Ereport ERRCODE_DATA_CORRUPTED else
  x ← keep_items p (pd_linp p) FirstOffsetNumber itemnos [] [] (pd_special p) true 0;
  let '(more, keep, base, presorted, totallen) := x in
  match more with
  | _ :: _ => Ereport ERRCODE_INTERNAL_ERROR
  | [] =>
      if totallen >? pd_special p - pd_lower p then Ereport ERRCODE_DATA_CORRUPTED else
      let p := set_lower p (SizeOfPageHeaderData + zlen keep * sizeof_ItemIdData) (rev keep) in
      match rev base with
      | [] => Ok (set_upper p (pd_special p))
      | itemidbase => compactify_tuples mem itemidbase p presorted
      end
  end.
