(* ===== verification/PageOk.v ===== *)
(** Pages as lists of slots.  [page_wf] is the invariant of a page: the boundaries are in
    order, and the tuples lie between them, aligned and apart from one another.  Moving
    tuples together keeps what every slot holds. *)

From S2P Require Import Prelude Varatt Rle Pglz PglzHist PglzItems PglzCodec ToastCompression Oids ToastStore Page.

Lemma maxalign_spec n : MAXALIGN n = (n + 7) / 8 * 8.
Proof.
  unfold MAXALIGN, TYPEALIGN, MAXIMUM_ALIGNOF. change (8 - 1) with (Z.ones 3). rewrite <- Z.ldiff_land, Z.ldiff_ones_r by lia.
  rewrite Z.shiftl_mul_pow2, Z.shiftr_div_pow2 by lia. done.
Qed.

Lemma maxalign_bounds n : n <= MAXALIGN n < n + 8 /\ MAXALIGN n mod 8 = 0.
Proof. rewrite maxalign_spec. pose proof (Z.mod_mul ((n + 7) / 8) 8). lia. Qed.

Lemma maxalign_fix n : n mod 8 = 0 -> MAXALIGN n = n.
Proof. rewrite maxalign_spec. lia. Qed.

(** ** Bytes after a write *)

Definition wrote (b : list Z) (off : Z) (data : list Z) : list Z :=
  take (Z.to_nat off) b ++ data ++ drop (Z.to_nat (off + zlen data)) b.

Lemma wr_wrote b off data : 0 <= off -> off + zlen data <= zlen b -> wr b off data = Ok (wrote b off data).
Proof. intros H1 H2. unfold wr, wrote. by replace ((0 <=? off) && _) with true by lia. Qed.

Lemma zlen_wrote b off data : 0 <= off -> off + zlen data <= zlen b -> zlen (wrote b off data) = zlen b.
Proof. intros H1 H2. unfold wrote. zl. Qed.

Lemma rd_wrote b off data x :
  0 <= off -> off + zlen data <= zlen b ->
  rd (wrote b off data) x = if (off <=? x) && (x <? off + zlen data) then rd data (x - off) else rd b x.
Proof.
  intros H1 H2. unfold wrote. assert (Hz : zlen (take (Z.to_nat off) b) = off) by zl. pose proof (zlen_nonneg data).
  destruct (Z.leb_spec off x); cbn [andb].
  - rewrite rd_app_r by lia. rewrite Hz. destruct (Z.ltb_spec x (off + zlen data)); [by rewrite rd_app_l by lia|].
    rewrite rd_app_r, rd_drop by lia. f_equal. lia.
  - destruct (Z.lt_ge_cases x 0); [unfold rd; by rewrite (proj2 (Z.leb_gt _ _)) by lia|].
    rewrite rd_app_l by lia. unfold rd. rewrite lookup_take_lt by lia. done.
Qed.

(** Slices are equal if the bytes are. *)
Lemma zslice_rd b c i j n :
  0 <= i -> i + n <= zlen b -> 0 <= j -> j + n <= zlen c ->
  (forall k, 0 <= k < n -> rd b (i + k) = rd c (j + k)) -> zslice b i n = zslice c j n.
Proof.
  intros Hi Hb Hj Hc Hr. destruct (Z.le_gt_cases 0 n) as [Hn|Hn]; [|unfold zslice; by replace (Z.to_nat n) with 0%nat by lia].
  apply list_eq_same_length with (n := Z.to_nat n); [|rewrite <- (Nat2Z.id (length _)); fold (zlen (zslice b i n)); by rewrite zlen_zslice|].
  { rewrite <- (Nat2Z.id (length _)). fold (zlen (zslice c j n)). by rewrite zlen_zslice. }
  intros k x y Hk. unfold zslice. rewrite !lookup_take_lt, !lookup_drop by lia. intros Hx Hy.
  specialize (Hr (Z.of_nat k) ltac:(lia)). assert (E1 : rd b (i + Z.of_nat k) = Ok x).
  { apply rd_Some; [lia|]. by replace (Z.to_nat (i + Z.of_nat k)) with (Z.to_nat i + k)%nat by lia. }
  assert (E2 : rd c (j + Z.of_nat k) = Ok y).
  { apply rd_Some; [lia|]. by replace (Z.to_nat (j + Z.of_nat k)) with (Z.to_nat j + k)%nat by lia. }
  congruence.
Qed.

Lemma rd_zslice b i n k : 0 <= i -> 0 <= k < n -> rd (zslice b i n) k = rd b (i + k).
Proof.
  intros Hi Hk. unfold rd, zslice. rewrite !(proj2 (Z.leb_le 0 _)) by lia.
  rewrite lookup_take_lt, lookup_drop by lia. by replace (Z.to_nat i + Z.to_nat k)%nat with (Z.to_nat (i + k)) by lia.
Qed.

(** ** Moving tuples *)

Definition item_sum (its : list itemIdCompactData) : Z := foldr (fun it s => alignedlen it + s) 0 its.
Definition compact_end (it : itemIdCompactData) : Z := itemoff it + alignedlen it.

(** The offsets the tuples are moved to, downward from [upper] *)
Fixpoint placed (upper : Z) (its : list itemIdCompactData) : list (itemIdCompactData * Z) :=
  match its with
  | [] => []
  | it :: its => (it, upper - alignedlen it) :: placed (upper - alignedlen it) its
  end.

(** Each tuple ends where the one before begins, or lower. *)
Fixpoint descending (top : Z) (its : list itemIdCompactData) : Prop :=
  match its with [] => True | it :: its => compact_end it <= top /\ descending (itemoff it) its end.

Definition same_header (p q : PageData) : Prop :=
  pd_flags q = pd_flags p /\ pd_lower q = pd_lower p /\ pd_special q = pd_special p /\
  pd_pagesize_version q = pd_pagesize_version p /\ pd_prune_xid q = pd_prune_xid p /\ zlen (pd_linp q) = zlen (pd_linp p) /\
  zlen (pd_bytes q) = zlen (pd_bytes p).

(** The line pointers of the placed tuples have the new offsets, the others are as before. *)
Definition relocated (pl : list (itemIdCompactData * Z)) (l l' : list ItemIdData) : Prop :=
  (forall it new lp, (it, new) ∈ pl -> l !! Z.to_nat (offsetindex it) = Some lp ->
     l' !! Z.to_nat (offsetindex it) = Some (set_lp_off lp new)) /\
  (forall i, (forall it new, (it, new) ∈ pl -> i <> Z.to_nat (offsetindex it)) -> l' !! i = l !! i).

Section move.
Context (orig : list Z) (src : PageData -> list Z) (copy : PageData -> Z -> Z -> Z -> res PageData).
Context (Hsrc : (forall p q, src p = src q) \/ (forall p, src p = pd_bytes p)).
Context (Hcopy : forall p dst s n, linp_end p <= s -> linp_end p <= dst -> 0 <= n -> s + n <= BLCKSZ -> dst + n <= BLCKSZ ->
  zlen (src p) = BLCKSZ -> zlen (pd_bytes p) = BLCKSZ ->
  copy p dst s n = Ok (set_bytes p (wrote (pd_bytes p) dst (zslice (src p) s n)))).

(** The source has the original bytes from lo to hi. *)
Definition intact (p : PageData) (lo hi : Z) : Prop := forall x, lo <= x < hi -> rd (src p) x = rd orig x.

(** The copies do not overwrite what is still to be copied. *)
Definition move_safe (head upper : Z) (its : list itemIdCompactData) : Prop :=
  (forall p q, src p = src q) \/ its = [] \/ head <= upper /\ descending head its.

Record move_pre (its : list itemIdCompactData) (upper tail head : Z) (p : PageData) : Prop := {
  mp_src : zlen (src p) = BLCKSZ;
  mp_bytes : zlen (pd_bytes p) = BLCKSZ;
  mp_orig : zlen orig = BLCKSZ;
  mp_range : linp_end p <= head <= tail /\ tail <= BLCKSZ /\ upper + (tail - head) <= BLCKSZ /\ linp_end p <= upper - item_sum its;
  mp_pending : intact p head tail;
  mp_items : Forall (fun it => linp_end p <= itemoff it /\ 0 < alignedlen it /\ compact_end it <= BLCKSZ /\
    intact p (itemoff it) (compact_end it) /\ 0 <= offsetindex it < zlen (pd_linp p)) its;
  mp_nodup : NoDup (map offsetindex its);
  mp_safe : move_safe head upper its
}.

Record move_post (its : list itemIdCompactData) (upper tail head : Z) (p q : PageData) : Prop := {
  mq_header : same_header p q;
  mq_upper : pd_upper q = upper - item_sum its;
  mq_linp : relocated (placed upper its) (pd_linp p) (pd_linp q);
  mq_above : forall x, upper + (tail - head) <= x -> rd (pd_bytes q) x = rd (pd_bytes p) x;
  mq_pending : forall k, 0 <= k < tail - head -> rd (pd_bytes q) (upper + k) = rd orig (head + k);
  mq_items : forall it new, (it, new) ∈ placed upper its ->
    forall k, 0 <= k < alignedlen it -> rd (pd_bytes q) (new + k) = rd orig (itemoff it + k)
}.

Lemma copy_facts its upper tail head p :
  move_pre its upper tail head p ->
  exists p1, copy p upper head (tail - head) = Ok p1 /\ same_header p p1 /\ pd_linp p1 = pd_linp p /\
    (forall x, rd (pd_bytes p1) x = if (upper <=? x) && (x <? upper + (tail - head)) then rd orig (head + (x - upper)) else rd (pd_bytes p) x) /\
    zlen (src p1) = BLCKSZ /\
    forall lo hi, (forall p q, src p = src q) \/ hi <= upper -> intact p lo hi -> intact p1 lo hi.
Proof using Hsrc Hcopy.
  intros [Hs Hb Ho Hr Hp Hi _ _]. pose proof (zlen_nonneg (pd_linp p)) as Hl.
  assert (Hsum : 0 <= item_sum its).
  { clear - Hi. induction Hi as [|it its Hit _ IH]; simpl; lia. }
  assert (Hl0 : 0 <= linp_end p) by (unfold linp_end, SizeOfPageHeaderData, sizeof_ItemIdData; lia).
  rewrite (Hcopy p upper head (tail - head)) by lia. eexists. split; [done|].
  set (data := zslice (src p) head (tail - head)). assert (Hd : zlen data = tail - head) by (apply zlen_zslice; lia).
  assert (Hrd : forall x, rd (wrote (pd_bytes p) upper data) x =
    if (upper <=? x) && (x <? upper + (tail - head)) then rd orig (head + (x - upper)) else rd (pd_bytes p) x).
  { intros x. rewrite rd_wrote by lia. rewrite Hd. destruct (_ && _) eqn:E; [|done].
    unfold data. rewrite rd_zslice by lia. apply Hp. lia. }
  split; [unfold same_header; simpl; split_and!; try done; rewrite zlen_wrote; lia|]. split; [done|]. split; [exact Hrd|]. split.
  - destruct Hsrc as [Hc|Hc]; [rewrite (Hc _ p); lia|]. rewrite Hc. simpl. rewrite zlen_wrote; lia.
  - intros lo hi Hor Hin x Hx. destruct Hor as [Hc|Hlt]; [rewrite (Hc _ p); by apply Hin|].
    destruct Hsrc as [Hc|Hc]; [rewrite (Hc _ p); by apply Hin|]. specialize (Hin x Hx). rewrite Hc in Hin |- *. simpl. rewrite Hrd.
    by replace (upper <=? x) with false by lia.
Qed.

Lemma get_item_ok p i lp : 0 <= i -> pd_linp p !! Z.to_nat i = Some lp -> PageGetItemId p (i + 1) = Ok lp.
Proof using Type. intros Hi Hl. unfold PageGetItemId. replace (1 <=? i + 1) with true by lia. by replace (i + 1 - 1) with i by lia; rewrite Hl. Qed.

Lemma set_item_ok p i lp : 0 <= i < zlen (pd_linp p) ->
  PageSetItemId p (i + 1) lp = Ok (set_linp p (<[Z.to_nat i := lp]> (pd_linp p))).
Proof using Type.
  intros Hi. unfold PageSetItemId. replace ((1 <=? i + 1) && _) with true by lia. replace (i + 1 - 1) with i by lia.
  by rewrite insert_take_drop by (unfold zlen in Hi; lia).
Qed.

Lemma relocated_cons it new pl l lp l' :
  l !! Z.to_nat (offsetindex it) = Some lp -> 0 <= offsetindex it ->
  (forall it' new', (it', new') ∈ pl -> 0 <= offsetindex it' /\ offsetindex it' <> offsetindex it) ->
  relocated pl (<[Z.to_nat (offsetindex it) := set_lp_off lp new]> l) l' -> relocated ((it, new) :: pl) l l'.
Proof using Type.
  intros Hlp H0 Hne [H1 H2]. pose proof (lookup_lt_Some _ _ _ Hlp) as Hlt. split.
  - intros it' new' lp' [[= -> ->]|Hin]%elem_of_cons Hl.
    + rewrite Hlp in Hl. injection Hl as <-. rewrite H2; [by apply list_lookup_insert_eq|].
      intros it2 new2 Hin. destruct (Hne _ _ Hin). lia.
    + destruct (Hne _ _ Hin). apply H1; [done|]. rewrite list_lookup_insert_ne; [done|lia].
  - intros i Hi. rewrite H2.
    + rewrite list_lookup_insert_ne; [done|]. intros <-. by apply (Hi it new); [left|].
    + intros it' new' Hin. apply (Hi it' new'). by right.
Qed.

Lemma placed_elem upper its it new : (it, new) ∈ placed upper its -> it ∈ its.
Proof using Type.
  revert upper. induction its as [|i its IH]; intros upper; simpl; [by intros ?%not_elem_of_nil|].
  intros [[= -> _]|Hin]%elem_of_cons; [by left|]. right. by apply (IH _ Hin).
Qed.

Lemma item_sum_pos its upper tail head p : move_pre its upper tail head p -> 0 <= item_sum its.
Proof using Type. intros [_ _ _ _ _ Hi _ _]. induction Hi as [|it its Hit _ IH]; simpl; lia. Qed.

Lemma same_header_trans p q r : same_header p q -> same_header q r -> same_header p r.
Proof using Type. unfold same_header. intros; destruct_and!; split_and!; congruence. Qed.

(** The state of the loop after an item: [p1] is the page with what was pending copied, or
    not yet. *)
Lemma step_pre it its upper tail head p p1 lp tail1 :
  move_pre (it :: its) upper tail head p -> same_header p p1 -> pd_linp p1 = pd_linp p -> zlen (src p1) = BLCKSZ ->
  pd_linp p !! Z.to_nat (offsetindex it) = Some lp ->
  tail1 = compact_end it \/ head = compact_end it /\ tail1 = tail /\ p1 = p ->
  (forall lo hi, (forall p q, src p = src q) \/ hi <= upper \/ p1 = p -> intact p lo hi -> intact p1 lo hi) ->
  move_pre its (upper - alignedlen it) tail1 (itemoff it)
    (set_linp p1 (<[Z.to_nat (offsetindex it) := set_lp_off lp (upper - alignedlen it)]> (pd_linp p1))).
Proof using Hsrc.
  intros Hpre Hh Hl Hs Hlp Htail Hin. pose proof (item_sum_pos _ _ _ _ _ Hpre) as Hsum.
  destruct Hpre as [_ Hb Ho Hr Hp Hi Hnd Hsafe].
  inversion Hi as [|? ? (Hlo & Hal & Hhi & Hint & Hidx) Hits]; subst. simpl in Hsum, Hr, Hsafe.
  assert (Hle : forall b, linp_end (set_linp p1 b) = SizeOfPageHeaderData + sizeof_ItemIdData * zlen b) by done.
  assert (Hend : linp_end (set_linp p1 (<[Z.to_nat (offsetindex it) := set_lp_off lp (upper - alignedlen it)]> (pd_linp p1))) = linp_end p).
  { rewrite Hle, zlen_insert, Hl. done. }
  assert (Hsrc' : forall b, src (set_linp p1 b) = src p1) by (intros b; destruct Hsrc as [Hc|Hc]; [apply Hc|by rewrite !Hc]).
  assert (Hint' : forall b lo hi, intact p1 lo hi -> intact (set_linp p1 b) lo hi) by (unfold intact; intros b lo hi; by rewrite Hsrc').
  assert (Hsafe' : (forall p q, src p = src q) \/ compact_end it <= head /\ head <= upper /\ descending (itemoff it) its).
  { destruct Hsafe as [?|[?|(? & ? & ?)]]; [by left|done|right; done]. }
  unfold compact_end in *. split; rewrite ?Hend, ?Hsrc'; try done.
  - unfold same_header in Hh. simpl. destruct_and!. congruence.
  - destruct Htail as [-> |(-> & -> & _)]; lia.
  - apply Hint'. destruct Htail as [-> |(Hhd & -> & ->)].
    + apply Hin; [|done]. destruct Hsafe' as [?|(? & ? & ?)]; [by left|right; left; lia].
    + intros x Hx. destruct (Z.lt_ge_cases x head); [apply (Hin (itemoff it) (itemoff it + alignedlen it)); [by right; right|done|lia]|].
      apply (Hin head tail); [by right; right|done|lia].
  - simpl. rewrite zlen_insert, Hl. apply Forall_forall. intros it' Hit'. rewrite Forall_forall in Hits. specialize (Hits it' Hit').
    destruct Hits as (? & ? & ? & Hint1 & ?). unfold compact_end. split_and!; try lia. apply Hint'. apply Hin; [|done].
    destruct Hsafe' as [?|(? & ? & Hdesc)]; [by left|]. right; left.
    assert (Hdesc' : forall top l, descending top l -> Forall (fun i => 0 < alignedlen i) l -> it' ∈ l -> compact_end it' <= top).
    { clear. intros top l. revert top. induction l as [|a l IH]; intros top Hd Ha; [by intros ?%not_elem_of_nil|].
      destruct Hd as [Hd1 Hd2]. inversion Ha as [|? ? Ha1 Ha2]; subst. intros [->|Hin]%elem_of_cons; [done|].
      specialize (IH _ Hd2 Ha2 Hin). unfold compact_end in *. lia. }
    assert (Hpos : Forall (fun i => 0 < alignedlen i) its).
    { inversion Hi as [|? ? _ Hits2]; subst. eapply Forall_impl; [exact Hits2|]. simpl. intros ? (? & ? & _). done. }
    specialize (Hdesc' _ _ Hdesc Hpos Hit'). unfold compact_end in Hdesc'. lia.
  - simpl in Hnd. by apply NoDup_cons in Hnd as [_ Hnd].
  - destruct Hsafe' as [?|(? & ? & Hdesc)]; [by left|right; right]. split; [lia|done].
Qed.

(** What the rest of the loop gives is what the loop gives. *)
Lemma step_post it its upper tail head p p1 lp tail1 q :
  move_pre (it :: its) upper tail head p -> same_header p p1 -> pd_linp p1 = pd_linp p ->
  pd_linp p !! Z.to_nat (offsetindex it) = Some lp ->
  tail1 = compact_end it /\
    (forall x, rd (pd_bytes p1) x = if (upper <=? x) && (x <? upper + (tail - head)) then rd orig (head + (x - upper)) else rd (pd_bytes p) x) \/
  head = compact_end it /\ tail1 = tail /\ p1 = p ->
  move_post its (upper - alignedlen it) tail1 (itemoff it)
    (set_linp p1 (<[Z.to_nat (offsetindex it) := set_lp_off lp (upper - alignedlen it)]> (pd_linp p1))) q ->
  move_post (it :: its) upper tail head p q.
Proof using Type.
  intros Hpre Hh Hl Hlp Htail [Qh Qu Ql Qa Qp Qi]. pose proof (mp_range _ _ _ _ _ Hpre) as Hr.
  pose proof (mp_items _ _ _ _ _ Hpre) as Hi. pose proof (mp_nodup _ _ _ _ _ Hpre) as Hnd.
  inversion Hi as [|? ? (Hlo & Hal & Hhi & Hint & Hidx) Hits]; subst. unfold compact_end in *. simpl in Qa, Qp, Hr.
  assert (Hhead : forall k, 0 <= k < alignedlen it -> rd (pd_bytes q) (upper - alignedlen it + k) = rd orig (itemoff it + k)).
  { intros k Hk. apply Qp. destruct Htail as [[-> _]|(-> & -> & _)]; lia. }
  assert (Hpend : forall k, 0 <= k < tail - head -> rd (pd_bytes q) (upper + k) = rd orig (head + k)).
  { intros k Hk. destruct Htail as [[-> Hrd]|(-> & -> & ->)].
    - rewrite Qa, Hrd by lia. replace ((upper <=? upper + k) && _) with true by lia. f_equal. lia.
    - replace (upper + k) with (upper - alignedlen it + (alignedlen it + k)) by lia. rewrite Qp by lia. f_equal. lia. }
  split.
  - apply (same_header_trans p (set_linp p1 (<[Z.to_nat (offsetindex it) := set_lp_off lp (upper - alignedlen it)]> (pd_linp p1)))); [|done].
    unfold same_header in *. simpl. rewrite zlen_insert. by destruct_and!.
  - rewrite Qu. simpl. lia.
  - simpl. apply (relocated_cons _ _ _ _ lp); [done|lia| |by rewrite <- Hl].
    intros it' new' Hin%placed_elem. rewrite Forall_forall in Hits. destruct (Hits _ Hin) as (_ & _ & _ & _ & ?). split; [lia|].
    intros Heq. simpl in Hnd. apply NoDup_cons in Hnd as [Hnot _]. apply Hnot. rewrite <- Heq. by apply list_elem_of_fmap_2.
  - intros x Hx. destruct Htail as [[-> Hrd]|(-> & -> & ->)].
    + rewrite Qa, Hrd by lia. by replace (x <? upper + (tail - head)) with false by lia; rewrite andb_false_r.
    + apply Qa. lia.
  - exact Hpend.
  - simpl. intros it' new' [[= -> ->]|Hin]%elem_of_cons; [exact Hhead|]. by apply Qi.
Qed.

Lemma move_ok its : forall upper tail head p,
  move_pre its upper tail head p -> returns (move_tuples copy its upper tail head p) (move_post its upper tail head p).
Proof using Hsrc Hcopy.
  induction its as [|it its IH]; intros upper tail head p Hpre; pose proof (item_sum_pos _ _ _ _ _ Hpre) as Hsum; simpl.
  - destruct (copy_facts [] upper tail head p Hpre) as (p1 & -> & Hh & Hl & Hrd & _ & _). simpl.
    pose proof (mp_range _ _ _ _ _ Hpre) as Hr. simpl in Hr. pose proof (zlen_nonneg (pd_linp p)).
    assert (0 <= upper < 2 ^ 16) by (unfold linp_end, SizeOfPageHeaderData, sizeof_ItemIdData, BLCKSZ in *; lia).
    split; simpl.
    + exact Hh.
    + rewrite Z.mod_small; lia.
    + split; [by intros ??? ?%not_elem_of_nil|]. intros i _. by rewrite Hl.
    + intros x Hx. rewrite Hrd. by replace (x <? upper + (tail - head)) with false by lia; rewrite andb_false_r.
    + intros k Hk. rewrite Hrd. replace ((upper <=? upper + k) && _) with true by lia. f_equal. lia.
    + by intros ?? ?%not_elem_of_nil.
  - pose proof (mp_items _ _ _ _ _ Hpre) as Hi. inversion Hi as [|? ? (Hlo & Hal & Hhi & Hint & Hidx) Hits]; subst.
    destruct (lookup_lt_is_Some_2 (pd_linp p) (Z.to_nat (offsetindex it))) as [lp Hlp]; [unfold zlen in Hidx; lia|].
    rewrite (get_item_ok p _ lp) by (done || lia). bind. fold (compact_end it).
    destruct (Z.eqb_spec head (compact_end it)) as [He|Hne]; cbn [negb].
    + bind. rewrite set_item_ok by done. bind. eapply returns_mono.
      * apply IH. apply (step_pre it its upper tail head p p lp tail); try done; [apply Hpre|by right].
      * intros q Hq. apply (step_post it its upper tail head p p lp tail); try done. by right.
    + destruct (copy_facts _ _ _ _ _ Hpre) as (p1 & -> & Hh & Hl & Hrd & Hs & Hin). bind.
      rewrite set_item_ok by (by rewrite Hl). bind. eapply returns_mono.
      * apply IH. apply (step_pre it its upper tail head p p1 lp (compact_end it)); try done; [by left|].
        intros lo hi [?|[?| ->]]; [apply Hin; by left|apply Hin; by right|done].
      * intros q Hq. apply (step_post it its upper tail head p p1 lp (compact_end it)); try done. by left.
Qed.
End move.

Definition apart (a b : itemIdCompactData) : Prop := compact_end a <= itemoff b \/ compact_end b <= itemoff a.
Fixpoint all_apart (its : list itemIdCompactData) : Prop :=
  match its with [] => True | it :: its => Forall (apart it) its /\ all_apart its end.

Lemma placed_app upper xs ys : placed upper (xs ++ ys) = placed upper xs ++ placed (upper - item_sum xs) ys.
Proof.
  revert upper. induction xs as [|x xs IH]; intros upper; simpl; [by rewrite Z.sub_0_r|]. f_equal. rewrite IH. do 2 f_equal. lia.
Qed.

Lemma item_sum_app xs ys : item_sum (xs ++ ys) = item_sum xs + item_sum ys.
Proof. induction xs as [|x xs IH]; simpl; lia. Qed.

(** The items that are skipped are where they would be placed; the others lie below. *)
Lemma skip_placed_ok rest : forall upper cur,
  all_apart (cur :: rest) -> Forall (fun it => 0 < alignedlen it /\ compact_end it <= upper) (cur :: rest) ->
  exists done c items, skip_placed upper cur rest = (upper - item_sum done, c, items) /\ cur :: rest = done ++ items /\
    Forall (fun x => x.2 = itemoff x.1) (placed upper done) /\
    Forall (fun it => compact_end it <= upper - item_sum done) items /\
    (items = [] /\ itemoff c = upper - item_sum done /\ c ∈ done \/ exists items', items = c :: items').
Proof.
  induction rest as [|next rest IH]; intros upper cur Hap Hle; simpl; fold (compact_end cur).
  - destruct (Z.eqb_spec upper (compact_end cur)) as [He|Hne]; cbn [negb].
    + exists [cur], cur, []. simpl. unfold compact_end in *. split_and!; try done; [f_equal; f_equal; lia|by constructor; [simpl; lia|]|].
      left. split_and!; [done|lia|by left].
    + exists [], cur, [cur]. simpl. rewrite Z.sub_0_r. split_and!; try done; [|right; by exists []].
      eapply Forall_impl; [exact Hle|]. by intros ? [].
  - destruct (Z.eqb_spec upper (compact_end cur)) as [He|Hne]; cbn [negb].
    2: { exists [], cur, (cur :: next :: rest). simpl. rewrite Z.sub_0_r. split_and!; try done; [|right; by eexists].
         eapply Forall_impl; [exact Hle|]. by intros ? []. }
    destruct Hap as [Hap Hap']. apply Forall_cons in Hle as [Hc Hle].
    destruct (IH (upper - alignedlen cur) next Hap') as (done & c & items & E & Happ & Hpl & Hlow & Hc').
    { rewrite Forall_forall in Hap, Hle |- *. intros it Hit. destruct (Hle it Hit) as [? ?]. split; [done|].
      specialize (Hap it Hit). unfold apart, compact_end in *. lia. }
    replace (skip_placed (upper - alignedlen cur) next rest) with (upper - alignedlen cur - item_sum done, c, items).
    exists (cur :: done), c, items. simpl. replace (upper - (alignedlen cur + item_sum done)) with (upper - alignedlen cur - item_sum done) by lia.
    split_and!; try done; [by f_equal|constructor; [simpl; unfold compact_end in He; lia|done]|].
    destruct Hc' as [(? & ? & ?)|?]; [left; split_and!; try done; by right|by right].
Qed.

Lemma page_move_ok p dst s n :
  linp_end p <= s -> linp_end p <= dst -> 0 <= n -> s + n <= BLCKSZ -> dst + n <= BLCKSZ ->
  zlen (pd_bytes p) = BLCKSZ -> page_move p dst s n = Ok (set_bytes p (wrote (pd_bytes p) dst (zslice (pd_bytes p) s n))).
Proof.
  intros Hs Hd Hn Hsn Hdn Hb. unfold page_move, page_read, page_write. pose proof (zlen_nonneg (pd_linp p)).
  assert (0 <= linp_end p) by (unfold linp_end, SizeOfPageHeaderData, sizeof_ItemIdData; lia).
  replace (s <? linp_end p) with false by lia. rewrite rdn_Ok by lia. bind. replace (dst <? linp_end p) with false by lia.
  by rewrite wr_wrote by (rewrite ?zlen_zslice; lia).
Qed.

Lemma from_scratch_ok scratch p dst s n :
  linp_end p <= s -> linp_end p <= dst -> 0 <= n -> s + n <= BLCKSZ -> dst + n <= BLCKSZ ->
  zlen scratch = BLCKSZ -> zlen (pd_bytes p) = BLCKSZ ->
  from_scratch scratch p dst s n = Ok (set_bytes p (wrote (pd_bytes p) dst (zslice scratch s n))).
Proof.
  intros Hs Hd Hn Hsn Hdn Hz Hb. unfold from_scratch, page_write. pose proof (zlen_nonneg (pd_linp p)).
  assert (0 <= linp_end p) by (unfold linp_end, SizeOfPageHeaderData, sizeof_ItemIdData; lia).
  rewrite rdn_Ok by lia. bind. replace (dst <? linp_end p) with false by lia.
  by rewrite wr_wrote by (rewrite ?zlen_zslice; lia).
Qed.

Lemma fill_scratch_ok p its : forall scratch,
  zlen (pd_bytes p) = BLCKSZ -> zlen scratch = BLCKSZ ->
  Forall (fun it => linp_end p <= itemoff it /\ 0 < alignedlen it /\ compact_end it <= BLCKSZ) its ->
  exists s', fill_scratch p its scratch = Ok s' /\ zlen s' = BLCKSZ /\
    (forall x, rd s' x = rd (pd_bytes p) x \/ rd s' x = rd scratch x /\ Forall (fun it => ~ itemoff it <= x < compact_end it) its).
Proof.
  intros scratch Hb. revert scratch. induction its as [|it its IH]; intros scratch Hs Hi; simpl.
  { exists scratch. split_and!; [done..|]. intros x. right. by split. }
  apply Forall_cons in Hi as [(Hlo & Hal & Hhi) Hi]. unfold page_read. unfold compact_end in Hhi.
  assert (0 <= linp_end p) by (unfold linp_end, SizeOfPageHeaderData, sizeof_ItemIdData; pose proof (zlen_nonneg (pd_linp p)); lia).
  replace (itemoff it <? linp_end p) with false by lia. rewrite rdn_Ok by lia. bind.
  assert (Hd : zlen (zslice (pd_bytes p) (itemoff it) (alignedlen it)) = alignedlen it) by (apply zlen_zslice; lia).
  rewrite wr_wrote by lia. bind. destruct (IH (wrote scratch (itemoff it) (zslice (pd_bytes p) (itemoff it) (alignedlen it)))) as (s' & -> & Hz & Hx);
    [rewrite zlen_wrote; lia|done|]. exists s'. split_and!; [done..|]. intros x. destruct (Hx x) as [?|[Hrd Hout]]; [by left|].
  rewrite Hrd, rd_wrote by lia. rewrite Hd. destruct ((itemoff it <=? x) && (x <? itemoff it + alignedlen it)) eqn:E.
  - left. rewrite rd_zslice by lia. f_equal. lia.
  - right. split; [done|]. constructor; [unfold compact_end; lia|done].
Qed.

(** ** compactify_tuples *)

Record compact_pre (its : list itemIdCompactData) (p : PageData) : Prop := {
  cp_bytes : zlen (pd_bytes p) = BLCKSZ;
  cp_bounds : linp_end p <= pd_upper p /\ pd_upper p <= pd_special p <= BLCKSZ;
  cp_items : Forall (fun it => pd_upper p <= itemoff it /\ 0 < alignedlen it /\ compact_end it <= pd_special p /\
    0 <= offsetindex it < zlen (pd_linp p) /\
    exists lp, pd_linp p !! Z.to_nat (offsetindex it) = Some lp /\ lp_off lp = itemoff it) its;
  cp_nodup : NoDup (map offsetindex its);
  cp_apart : all_apart its;
  cp_room : linp_end p <= pd_special p - item_sum its
}.

Record compact_post (its : list itemIdCompactData) (p q : PageData) : Prop := {
  cq_header : same_header p q;
  cq_upper : pd_upper q = pd_special p - item_sum its;
  cq_linp : relocated (placed (pd_special p) its) (pd_linp p) (pd_linp q);
  cq_items : forall it new, (it, new) ∈ placed (pd_special p) its ->
    forall k, 0 <= k < alignedlen it -> rd (pd_bytes q) (new + k) = rd (pd_bytes p) (itemoff it + k);
  cq_special : forall x, pd_special p <= x -> rd (pd_bytes q) x = rd (pd_bytes p) x
}.

(** The tuples that are skipped and those that are moved, together *)
Lemma compact_split done items c p upper e q :
  compact_pre (done ++ items) p -> upper = pd_special p - item_sum done ->
  Forall (fun x => x.2 = itemoff x.1) (placed (pd_special p) done) ->
  e = compact_end c ->
  move_post (pd_bytes p) items upper e e p q -> compact_post (done ++ items) p q.
Proof.
  intros Hpre -> Hdone -> [Qh Qu [Ql1 Ql2] Qa _ Qi]. rewrite Z.sub_diag, Z.add_0_r in Qa.
  assert (Hsum : 0 <= item_sum done).
  { pose proof (cp_items _ _ Hpre) as Hi. apply Forall_app in Hi as [Hi _]. clear - Hi. induction Hi; simpl; lia. }
  assert (Hplaced : forall it new, (it, new) ∈ placed (pd_special p) done -> new = itemoff it /\ pd_special p - item_sum done <= new).
  { intros it new Hin. rewrite Forall_forall in Hdone. split; [by apply (Hdone _ Hin)|].
    pose proof (cp_items _ _ Hpre) as Hi. apply Forall_app in Hi as [Hi _]. clear - Hi Hin. revert Hin. generalize (pd_special p) as u.
    intros u. assert (Hpos : Forall (fun it => 0 < alignedlen it) done) by (eapply Forall_impl; [exact Hi|]; intros ? (? & ? & _); done).
    clear Hi. revert u. induction done as [|d done IH]; intros u; simpl; [by intros ?%not_elem_of_nil|].
    apply Forall_cons in Hpos as [Hd Hpos]. assert (0 <= item_sum done) by (clear - Hpos; induction Hpos; simpl; lia).
    intros [[= -> ->]|Hin]%elem_of_cons; [lia|]. specialize (IH Hpos _ Hin). lia. }
  split; rewrite ?placed_app.
  - done.
  - rewrite Qu, item_sum_app. lia.
  - pose proof (cp_nodup _ _ Hpre) as Hnd. rewrite map_app in Hnd. apply NoDup_app in Hnd as (_ & Hdisj & _).
    pose proof (cp_items _ _ Hpre) as Hi. rewrite Forall_forall in Hi. split.
    + intros it new lp [Hin|Hin]%elem_of_app Hlp; [|by apply Ql1].
      destruct (Hplaced _ _ Hin) as [-> _]. assert (Hdin : it ∈ done) by (by eapply placed_elem). rewrite Ql2.
      * destruct (Hi it) as (? & ? & ? & ? & lp' & Hlp' & Hoff); [apply elem_of_app; by left|]. rewrite Hlp in Hlp'. injection Hlp' as <-.
        rewrite Hlp. f_equal. pose proof (cp_bounds _ _ Hpre). unfold compact_end, BLCKSZ in *.
        assert (0 <= linp_end p) by (unfold linp_end, SizeOfPageHeaderData, sizeof_ItemIdData; pose proof (zlen_nonneg (pd_linp p)); lia).
        unfold set_lp_off. rewrite Z.mod_small by lia. rewrite <- Hoff. by destruct lp.
      * intros it' new' Hin'%placed_elem Heq. apply (Hdisj (offsetindex it)); [by apply list_elem_of_fmap_2|].
        destruct (Hi it) as (_ & _ & _ & ? & _); [apply elem_of_app; by left|]. destruct (Hi it') as (_ & _ & _ & ? & _); [apply elem_of_app; by right|].
        replace (offsetindex it) with (offsetindex it') by lia. by apply list_elem_of_fmap_2.
    + intros i Hi'. apply Ql2. intros it new Hin. apply (Hi' it new). apply elem_of_app. by right.
  - intros it new [Hin|Hin]%elem_of_app k Hk; [|by apply Qi]. destruct (Hplaced _ _ Hin) as [-> Hge]. apply Qa. lia.
  - intros x Hx. apply Qa. lia.
Qed.

Section compact.
Context (its : list itemIdCompactData) (p : PageData) (Hpre : compact_pre its p).

Lemma linp_end_nonneg q : 0 <= linp_end q.
Proof using Type. unfold linp_end, SizeOfPageHeaderData, sizeof_ItemIdData. pose proof (zlen_nonneg (pd_linp q)). lia. Qed.

(** Moving what skip_placed leaves, from a source that has the bytes below [upper] *)
Lemma move_rest src copy done items c upper :
  (forall p q, src p = src q) \/ (forall p, src p = pd_bytes p) ->
  (forall p dst s n, linp_end p <= s -> linp_end p <= dst -> 0 <= n -> s + n <= BLCKSZ -> dst + n <= BLCKSZ ->
    zlen (src p) = BLCKSZ -> zlen (pd_bytes p) = BLCKSZ ->
    copy p dst s n = Ok (set_bytes p (wrote (pd_bytes p) dst (zslice (src p) s n)))) ->
  its = done ++ items -> upper = pd_special p - item_sum done -> c ∈ its ->
  Forall (fun x => x.2 = itemoff x.1) (placed (pd_special p) done) ->
  zlen (src p) = BLCKSZ -> Forall (fun it => intact (pd_bytes p) src p (itemoff it) (compact_end it)) items ->
  (forall p q, src p = src q) \/ items = [] \/ compact_end c <= upper /\ descending (compact_end c) items ->
  returns (move_tuples copy items upper (compact_end c) (compact_end c) p) (compact_post its p).
Proof using Hpre.
  intros Hsrc Hcopy Hits Hu Hc Hdone Hz Hint Hsafe. pose proof (linp_end_nonneg p) as Hl0. eapply returns_mono.
  - apply (move_ok (pd_bytes p) src copy Hsrc Hcopy). destruct Hpre as [Hb Hbd Hi Hnd _ Hroom].
    assert (Hci := Hi). rewrite Forall_forall in Hci. destruct (Hci c Hc) as (Hc1 & Hc2 & Hc3 & _). unfold compact_end in Hc3.
    subst its. apply Forall_app in Hi as [Hid Hi]. rewrite map_app in Hnd. apply NoDup_app in Hnd as (_ & _ & Hnd).
    rewrite item_sum_app in Hroom. assert (Hs0 : 0 <= item_sum done) by (clear - Hid; induction Hid; simpl; lia).
    split; try done.
    + unfold compact_end. lia.
    + intros x Hx. lia.
    + rewrite Forall_forall in Hi, Hint |- *. intros it Hit. specialize (Hint it Hit). destruct (Hi it Hit) as (? & ? & ? & ? & _).
      split_and!; try done; unfold compact_end in *; lia.
  - intros q Hq. rewrite Hits in *. by apply (compact_split done items c p upper (compact_end c)).
Qed.

End compact.

Lemma descending_app xs c ys top : descending top (xs ++ c :: ys) -> descending (itemoff c) ys.
Proof. revert top. induction xs as [|x xs IH]; intros top; simpl; intros [_ H]; [done|]. by apply (IH (itemoff x)). Qed.

Lemma placed_last its upper : its <> [] -> exists it, it ∈ its /\ (it, upper - item_sum its) ∈ placed upper its.
Proof.
  revert upper. induction its as [|i its IH]; [done|]. intros upper _. simpl. destruct (decide (its = [])) as [->|Hne].
  - exists i. split; [by left|]. simpl. rewrite Z.add_0_r. by left.
  - destruct (IH (upper - alignedlen i) Hne) as (it & Hin & Hpl). exists it. split; [by right|]. right.
    by replace (upper - (alignedlen i + item_sum its)) with (upper - alignedlen i - item_sum its) by lia.
Qed.

Lemma compactify_ok its p mem presorted :
  compact_pre its p -> its <> [] -> zlen mem = BLCKSZ -> (presorted = true -> descending (pd_special p) its) ->
  returns (compactify_tuples mem its p presorted) (compact_post its p).
Proof.
  intros Hpre Hne Hmem Hsort. assert (Hpre' := Hpre). destruct Hpre' as [Hb Hbd Hi Hnd Hap Hroom]. pose proof (linp_end_nonneg p) as Hl0.
  unfold compactify_tuples. destruct its as [|it0 rest]; [done|]. remember (it0 :: rest) as its eqn:Eits.
  assert (Hlow : Forall (fun it => 0 < alignedlen it /\ compact_end it <= pd_special p) its).
  { eapply Forall_impl; [exact Hi|]. simpl. intros ? (? & ? & ? & _). done. }
  destruct (skip_placed_ok rest (pd_special p) it0) as (done & c & items & Hskip & Happ & Hdone & Hbelow & Hc);
    [by rewrite <- Eits|by rewrite <- Eits|]. rewrite <- Eits in Happ.
  assert (Hcin : c ∈ its).
  { rewrite Happ, elem_of_app. destruct Hc as [(_ & _ & ?)|[items' ->]]; [by left|right; by left]. }
  assert (Hsum : 0 <= item_sum done).
  { rewrite Happ in Hlow. apply Forall_app in Hlow as [Hlow _]. clear - Hlow. induction Hlow as [|? ? [? _]]; simpl; lia. }
  destruct presorted.
  - rewrite Hskip. fold (compact_end c). apply (move_rest its p Hpre pd_bytes page_move done items c); try done; [by right| | |].
    + intros. by apply page_move_ok.
    + apply Forall_forall. intros it _ x Hx. done.
    + right. destruct Hc as [(-> & _)|[items' ->]]; [by left|right]. apply Forall_cons in Hbelow as [Hb1 _]. split; [done|].
      specialize (Hsort eq_refl). rewrite Happ in Hsort. split; [done|]. by apply descending_app in Hsort.
  - destruct (zlen its <? PageGetMaxOffsetNumber p / 4).
    + destruct (fill_scratch_ok p its mem Hb Hmem) as (s' & -> & Hz & Hx).
      { eapply Forall_impl; [exact Hi|]. simpl. intros ? (? & ? & ? & _). lia. }
      bind. fold (compact_end it0). apply (move_rest its p Hpre (fun _ => s') (from_scratch s') [] its it0); try done.
      * by left.
      * intros. by apply from_scratch_ok.
      * simpl. lia.
      * rewrite Eits. by left.
      * apply Forall_forall. intros it Hit x Hr. destruct (Hx x) as [?|[_ Hout]]; [done|].
        rewrite Forall_forall in Hout. by destruct (Hout it Hit).
      * by left.
    + rewrite Hskip. unfold page_read. replace (pd_upper p <? linp_end p) with false by lia.
      assert (Hup : pd_upper p <= pd_special p - item_sum done <= BLCKSZ).
      { split; [|lia]. destruct (decide (done = [])) as [->|Hdn]; [simpl; lia|].
        destruct (placed_last done (pd_special p) Hdn) as (it & Hit & Hpl). rewrite Forall_forall in Hdone. assert (Hi2 := Hi). rewrite Forall_forall in Hi2.
        specialize (Hdone _ Hpl). simpl in Hdone. destruct (Hi2 it) as (? & _); [rewrite Happ, elem_of_app; by left|]. lia. }
      rewrite rdn_Ok by lia. bind. set (data := zslice _ _ _).
      assert (Hd : zlen data = pd_special p - item_sum done - pd_upper p) by (apply zlen_zslice; lia).
      rewrite wr_wrote by lia. bind. fold (compact_end c).
      apply (move_rest its p Hpre (fun _ => wrote mem (pd_upper p) data) (from_scratch (wrote mem (pd_upper p) data)) done items c); try done.
      * by left.
      * intros. by apply from_scratch_ok.
      * rewrite zlen_wrote; lia.
      * apply Forall_forall. intros it Hit x Hr. rewrite rd_wrote by lia. rewrite Hd.
        rewrite Forall_forall in Hbelow, Hi. specialize (Hbelow it Hit). destruct (Hi it) as (? & _); [rewrite Happ, elem_of_app; by right|].
        replace ((pd_upper p <=? x) && _) with true by lia. unfold data. rewrite rd_zslice by lia. f_equal. lia.
      * by left.
Qed.
