(* ===== verification/PageOps.v ===== *)
(** The operations on pages (Page.v) as operations on lists of slots.

    [slots p] is what the line pointers of a page stand for: tuples with their bytes, or
    line pointers without storage.  Every operation keeps [page_wf]; adding an item, taking
    items away and moving tuples together do to the list of slots what their names say,
    and the free space that a page reports can be used. *)

From S2P Require Import Prelude Varatt Rle Pglz PglzHist PglzItems PglzCodec ToastCompression Oids ToastStore Page PageOk.

Inductive slot := Stored (flags : Z) (data : list Z) | Bare (flags off : Z).

Definition slot_of (b : list Z) (lp : ItemIdData) : slot :=
  if ItemIdHasStorage lp then Stored (lp_flags lp) (zslice b (lp_off lp) (lp_len lp)) else Bare (lp_flags lp) (lp_off lp).
Definition slots (p : PageData) : list slot := map (slot_of (pd_bytes p)) (pd_linp p).
Definition Unused : slot := Bare LP_UNUSED 0.

Definition lp_end (lp : ItemIdData) : Z := lp_off lp + MAXALIGN (lp_len lp).

Record lp_wf (upper special : Z) (lp : ItemIdData) : Prop := {
  lw_len : 0 <= lp_len lp;
  lw_unused : lp_flags lp = LP_UNUSED -> lp = ItemIdUnused;
  lw_storage : lp_len lp <> 0 -> upper <= lp_off lp /\ lp_end lp <= special /\ lp_off lp mod 8 = 0
}.

Definition lp_apart (a b : ItemIdData) : Prop :=
  lp_len a <> 0 -> lp_len b <> 0 -> lp_end a <= lp_off b \/ lp_end b <= lp_off a.

Record page_wf (p : PageData) : Prop := {
  pw_lower : pd_lower p = linp_end p;
  pw_bounds : pd_lower p <= pd_upper p /\ pd_upper p <= pd_special p <= BLCKSZ;
  pw_aligned : pd_upper p mod 8 = 0 /\ pd_special p mod 8 = 0;
  pw_bytes : zlen (pd_bytes p) = BLCKSZ;
  pw_items : forall i lp, pd_linp p !! i = Some lp -> lp_wf (pd_upper p) (pd_special p) lp;
  pw_apart : forall i j a b, i <> j -> pd_linp p !! i = Some a -> pd_linp p !! j = Some b -> lp_apart a b
}.

Lemma maxalign_pos n : 0 < n -> 0 < MAXALIGN n.
Proof. pose proof (maxalign_bounds n). lia. Qed.

Lemma max_offset_ok p : page_wf p -> PageGetMaxOffsetNumber p = zlen (pd_linp p).
Proof.
  intros Hwf. unfold PageGetMaxOffsetNumber. rewrite (pw_lower _ Hwf). unfold linp_end, sizeof_ItemIdData, SizeOfPageHeaderData.
  pose proof (zlen_nonneg (pd_linp p)). destruct (Z.leb_spec (24 + 4 * zlen (pd_linp p)) 24); [lia|].
  replace (24 + 4 * zlen (pd_linp p) - 24) with (zlen (pd_linp p) * 4) by lia. by rewrite Z.div_mul.
Qed.

Lemma pointers_ok p : page_wf p -> page_pointers_bad p = false /\ page_corrupt p = false.
Proof.
  intros Hwf. pose proof (pw_bounds _ Hwf). pose proof (pw_lower _ Hwf). pose proof (pw_aligned _ Hwf). pose proof (zlen_nonneg (pd_linp p)).
  assert (Hb : page_pointers_bad p = false).
  { unfold page_pointers_bad, linp_end, SizeOfPageHeaderData, sizeof_ItemIdData in *. lia. }
  split; [done|]. unfold page_corrupt. rewrite Hb, maxalign_fix, Z.eqb_refl by lia. done.
Qed.

(** A well-formed page has at most 2042 line pointers. *)
Lemma linp_small p : page_wf p -> 0 <= zlen (pd_linp p) <= 2042 /\ 24 <= pd_lower p <= 8192.
Proof.
  intros Hwf. pose proof (pw_bounds _ Hwf). pose proof (pw_lower _ Hwf). pose proof (zlen_nonneg (pd_linp p)).
  unfold linp_end, SizeOfPageHeaderData, sizeof_ItemIdData, BLCKSZ in *. lia.
Qed.

(** The slot of a line pointer that was moved together with its bytes *)
Lemma slot_moved b c lp new :
  0 <= lp_len lp -> 0 <= lp_off lp -> lp_off lp + lp_len lp <= zlen b -> 0 <= new < 2 ^ 15 -> new + lp_len lp <= zlen c ->
  lp_len lp <> 0 -> (forall k, 0 <= k < lp_len lp -> rd c (new + k) = rd b (lp_off lp + k)) ->
  slot_of c (set_lp_off lp new) = slot_of b lp.
Proof.
  intros Hl Ho Hb Hn Hc Hne Hr. unfold slot_of, ItemIdHasStorage, set_lp_off. simpl. destruct (Z.eqb_spec (lp_len lp) 0); [done|]. cbn [negb].
  f_equal. rewrite Z.mod_small by lia. apply zslice_rd; try lia. done.
Qed.

(** A slot whose bytes did not change *)
Lemma slot_same b c lp :
  (lp_len lp <> 0 -> 0 <= lp_off lp /\ lp_off lp + lp_len lp <= zlen b /\ lp_off lp + lp_len lp <= zlen c /\
     forall k, 0 <= k < lp_len lp -> rd c (lp_off lp + k) = rd b (lp_off lp + k)) ->
  slot_of c lp = slot_of b lp.
Proof.
  intros Hr. unfold slot_of, ItemIdHasStorage. destruct (Z.eqb_spec (lp_len lp) 0) as [|Hne]; [done|]. cbn [negb].
  destruct (Hr Hne) as (? & ? & ? & ?). f_equal. apply zslice_rd; try lia. done.
Qed.

(** ** Adding items *)

Lemma init_wf special :
  0 <= special <= 8160 -> page_wf (PageInit BLCKSZ special) /\ slots (PageInit BLCKSZ special) = [].
Proof.
  intros Hs. pose proof (maxalign_bounds special). split; [|done].
  split; simpl; unfold linp_end, SizeOfPageHeaderData, sizeof_ItemIdData, BLCKSZ; simpl; try done; try lia.
Qed.

(** The end of PageAddItemExtended, once the slot is chosen *)
Definition add_at (p : PageData) (item : list Z) (size n : Z) (shift : bool) (lower upper : Z) : res (Z * PageData) :=
  p ← (if shift then
         itemId ← PageGetItemId p n;
         let i := Z.to_nat (n - 1) in
         Ok (set_linp p (take i (pd_linp p) ++ itemId :: drop i (pd_linp p)))
       else Ok p);
  p ← PageSetItemId p n (ItemIdNormal upper size);
  data ← rdn item 0 size;
  p ← page_write p upper data;
  Ok (n, set_upper (set_lower p (lower mod 2 ^ 16) (pd_linp p)) (upper mod 2 ^ 16)).

Section add.
Context (p : PageData) (item k : list Z) (n : Z) (shift : bool).
Context (Hwf : page_wf p) (Hn : 1 <= n <= zlen (pd_linp p) + 1) (Hshift : shift = true -> n <= zlen (pd_linp p)).
Context (Hfree : shift = false -> n <= zlen (pd_linp p) -> pd_linp p !! Z.to_nat (n - 1) = Some ItemIdUnused).
Let size := zlen item.
Let upper := pd_upper p - MAXALIGN size.
Let lower := if (n =? zlen (pd_linp p) + 1) || shift then pd_lower p + sizeof_ItemIdData else pd_lower p.
Context (Hsize : 0 < size) (Hroom : lower <= upper).

Definition new_linp : list ItemIdData :=
  take (Z.to_nat (n - 1)) (pd_linp p) ++ ItemIdNormal upper size ::
  drop (Z.to_nat (if shift then n - 1 else n)) (pd_linp p).

Lemma add_linp q :
  pd_linp q = pd_linp p ->
  (q1 ← (if shift then itemId ← PageGetItemId q n; let i := Z.to_nat (n - 1) in
           Ok (set_linp q (take i (pd_linp q) ++ itemId :: drop i (pd_linp q))) else Ok q);
   PageSetItemId q1 n (ItemIdNormal upper size)) = Ok (set_linp q new_linp).
Proof using Hwf Hn Hshift Hfree Hsize Hroom.
  intros Hq. unfold new_linp. set (i := Z.to_nat (n - 1)). destruct shift eqn:Es.
  - destruct (lookup_lt_is_Some_2 (pd_linp p) i) as [lp Hlp]; [unfold i, zlen in *; specialize (Hshift eq_refl); lia|].
    unfold PageGetItemId. replace (1 <=? n) with true by lia. fold i. rewrite Hq, Hlp. bind. unfold PageSetItemId. cbn [pd_linp set_linp set_lower].
    assert (Hi : zlen (take i (pd_linp p)) = n - 1) by (rewrite zlen_take; unfold i; specialize (Hshift eq_refl); lia).
    replace ((1 <=? n) && _) with true by zl. fold i. do 2 f_equal. unfold set_linp, set_lower. simpl. f_equal.
    rewrite take_app_le by (unfold zlen in Hi; lia). rewrite take_ge by (unfold zlen in Hi; lia). f_equal.
    f_equal. rewrite drop_app_ge by (unfold zlen in Hi; lia). replace (S i - length (take i (pd_linp p)))%nat with 1%nat by (unfold zlen in Hi; lia). done.
  - bind. unfold PageSetItemId. rewrite Hq. replace ((1 <=? n) && _) with true by lia. fold i.
    by replace (Z.to_nat n) with (S i) by (unfold i; lia).
Qed.

Lemma new_linp_len : SizeOfPageHeaderData + sizeof_ItemIdData * zlen new_linp = lower.
Proof using Hwf Hn Hshift Hfree Hsize Hroom.
  unfold new_linp, lower. rewrite (pw_lower _ Hwf). unfold linp_end, SizeOfPageHeaderData, sizeof_ItemIdData.
  rewrite zlen_app, zlen_take, zlen_cons, zlen_drop. destruct (Z.eqb_spec n (zlen (pd_linp p) + 1)), shift; simpl; try specialize (Hshift eq_refl); lia.
Qed.

Definition added : PageData :=
  set_upper (set_lower (set_bytes (set_linp p new_linp) (wrote (pd_bytes p) upper item)) lower new_linp) upper.

Lemma add_at_ok : add_at p (item ++ k) size n shift lower upper = Ok (n, added).
Proof using Hwf Hn Hshift Hfree Hsize Hroom.
  unfold add_at. pose proof (add_linp p eq_refl) as Hl. pose proof new_linp_len as Hlen. pose proof (linp_small _ Hwf).
  pose proof (pw_bounds _ Hwf). pose proof (pw_bytes _ Hwf) as Hb. pose proof (maxalign_bounds size) as [Hal _].
  destruct (if shift then _ else _) as [q1| | |]; try discriminate Hl. cbn [mbind res_bind] in Hl |- *. rewrite Hl. bind.
  change (item ++ k) with ([] ++ item ++ k). rewrite rdn_middle by done. bind. unfold page_write, linp_end.
  cbn [pd_linp set_linp set_lower pd_bytes]. rewrite Hlen. replace (upper <? lower) with false by lia.
  assert (Hlow : 24 <= lower) by (unfold lower; destruct (_ || _); unfold sizeof_ItemIdData; lia).
  rewrite wr_wrote by (unfold upper, BLCKSZ, size in *; lia). bind. unfold added, BLCKSZ in *.
  by rewrite !(Z.mod_small _ (2 ^ 16)) by (unfold upper in *; lia).
Qed.

Lemma add_facts : 0 < upper /\ upper + MAXALIGN size = pd_upper p /\ size <= MAXALIGN size /\ pd_upper p <= 8192 /\ 24 <= lower /\ upper mod 8 = 0.
Proof using Hwf Hn Hshift Hfree Hsize Hroom.
  pose proof (linp_small _ Hwf). pose proof (pw_bounds _ Hwf). pose proof (pw_aligned _ Hwf). pose proof (maxalign_bounds size).
  assert (24 <= lower) by (unfold lower; destruct (_ || _); unfold sizeof_ItemIdData; lia). unfold upper, BLCKSZ in *. lia.
Qed.

Lemma new_normal : ItemIdNormal upper size = mkItemId upper LP_NORMAL size.
Proof using Hwf Hn Hshift Hfree Hsize Hroom. pose proof add_facts. unfold ItemIdNormal. by rewrite !Z.mod_small by lia. Qed.

Lemma new_lookup i lp :
  new_linp !! i = Some lp ->
  i = Z.to_nat (n - 1) /\ lp = mkItemId upper LP_NORMAL size \/
  i <> Z.to_nat (n - 1) /\ pd_linp p !! (if decide (i < Z.to_nat n)%nat then i else if shift then pred i else i) = Some lp.
Proof using Hwf Hn Hshift Hfree Hsize Hroom.
  unfold new_linp. rewrite new_normal. assert (Hi : length (take (Z.to_nat (n - 1)) (pd_linp p)) = Z.to_nat (n - 1)).
  { rewrite length_take. unfold zlen in Hn. lia. }
  destruct (Nat.lt_trichotomy i (Z.to_nat (n - 1))) as [Hlt|[->|Hgt]].
  - rewrite lookup_app_l, lookup_take_lt by lia. intros Hl. right. split; [lia|]. by rewrite decide_True by lia.
  - rewrite lookup_app_r by lia. rewrite Hi, Nat.sub_diag. simpl. intros [= <-]. by left.
  - rewrite lookup_app_r by lia. rewrite Hi. destruct (i - Z.to_nat (n - 1))%nat as [|j] eqn:Ej; [lia|]. simpl. rewrite lookup_drop.
    intros Hl. right. split; [lia|]. rewrite decide_False by lia. destruct shift.
    + by replace (pred i) with (Z.to_nat (n - 1) + j)%nat by lia.
    + by replace i with (Z.to_nat n + j)%nat by lia.
Qed.

Lemma added_wf : page_wf added.
Proof using Hwf Hn Hshift Hfree Hsize Hroom.
  pose proof add_facts as (Hu & Hup & Hsz & Hmax & Hlow & Hmod). pose proof (pw_bounds _ Hwf). pose proof (pw_bytes _ Hwf).
  assert (Hold : forall i lp, pd_linp p !! i = Some lp -> lp_wf (pd_upper p) (pd_special p) lp) by apply (pw_items _ Hwf).
  split; unfold added; cbn [pd_lower pd_upper pd_special pd_linp pd_bytes set_upper set_lower set_bytes set_linp].
  - unfold linp_end. simpl. by rewrite new_linp_len.
  - unfold size in *. lia.
  - split; [done|]. apply (pw_aligned _ Hwf).
  - rewrite zlen_wrote; unfold size, BLCKSZ in *; lia.
  - intros i lp [[_ ->]|[_ Hl]]%new_lookup.
    + split; simpl; [lia|done|]. intros _. unfold lp_end. simpl. lia.
    + destruct (Hold _ _ Hl) as [? ? Hs]. split; try done. intros Hne. specialize (Hs Hne). lia.
  - intros i j a b Hij Ha%new_lookup Hb%new_lookup.
    assert (Hnew : forall i lp, pd_linp p !! i = Some lp -> lp_len lp <> 0 -> lp_end (mkItemId upper LP_NORMAL size) <= lp_off lp).
    { intros i' lp Hl Hne. destruct (Hold _ _ Hl) as [_ _ Hs]. specialize (Hs Hne). unfold lp_end. simpl. lia. }
    destruct Ha as [[-> ->]|[Hi Ha]], Hb as [[-> ->]|[Hj Hb]]; [done|..].
    + intros _ Hne. left. by apply (Hnew _ _ Hb).
    + intros Hne _. right. by apply (Hnew _ _ Ha).
    + refine (pw_apart _ Hwf _ _ _ _ _ Ha Hb). destruct (decide (i < Z.to_nat n)%nat), (decide (j < Z.to_nat n)%nat), shift; lia.
Qed.

Lemma added_slots :
  slots added = take (Z.to_nat (n - 1)) (slots p) ++ Stored LP_NORMAL item :: drop (Z.to_nat (if shift then n - 1 else n)) (slots p).
Proof using Hwf Hn Hshift Hfree Hsize Hroom.
  pose proof add_facts as (Hu & Hup & Hsz & Hmax & Hlow & Hmod). pose proof (pw_bounds _ Hwf). pose proof (pw_bytes _ Hwf) as Hb. unfold BLCKSZ in *.
  assert (Hold : forall l, (forall lp, lp ∈ l -> lp ∈ pd_linp p) ->
    map (slot_of (wrote (pd_bytes p) upper item)) l = map (slot_of (pd_bytes p)) l).
  { intros l Hin. apply list_fmap_ext. intros i lp Hl. apply slot_same. intros Hne.
    destruct (list_elem_of_lookup_1 _ _ (Hin lp (list_elem_of_lookup_2 _ _ _ Hl))) as [j Hj].
    destruct (pw_items _ Hwf _ _ Hj) as [Hlen _ Hs]. specialize (Hs Hne). unfold lp_end in Hs. pose proof (maxalign_bounds (lp_len lp)).
    rewrite zlen_wrote by (unfold size in *; lia). split_and!; try lia. intros x Hx. rewrite rd_wrote by (unfold size in *; lia).
    replace ((upper <=? _) && _) with false; [done|]. unfold size in *. lia. }
  unfold slots, added. cbn [pd_linp pd_bytes set_upper set_lower set_bytes set_linp]. unfold new_linp. rewrite map_app. cbn [map].
  rewrite firstn_map, skipn_map. rewrite !Hold.
  - do 2 f_equal. rewrite new_normal. unfold slot_of, ItemIdHasStorage. simpl. destruct (Z.eqb_spec size 0); [lia|]. cbn [negb]. f_equal.
    unfold zslice, wrote. rewrite drop_app_ge by (rewrite length_take; lia). rewrite length_take.
    replace (Z.to_nat upper - Nat.min (Z.to_nat upper) (length (pd_bytes p)))%nat with 0%nat by (unfold zlen in Hb; lia). rewrite drop_0. unfold size, zlen.
    rewrite Nat2Z.id. apply take_app_length.
  - intros lp Hin. rewrite <- (take_drop (Z.to_nat (if shift then n - 1 else n)) (pd_linp p)). apply elem_of_app. by right.
  - intros lp Hin. rewrite <- (take_drop (Z.to_nat (n - 1)) (pd_linp p)). apply elem_of_app. by left.
Qed.
End add.

Lemma find_free_ok l : forall i,
  Forall (fun lp => lp_flags lp = LP_UNUSED -> lp = ItemIdUnused) l ->
  exists j, (j <= length l)%nat /\ find_free l i = i + Z.of_nat j /\ ((j < length l)%nat -> l !! j = Some ItemIdUnused) /\
    forall j', (j' < j)%nat -> forall lp, l !! j' = Some lp -> lp_flags lp <> LP_UNUSED.
Proof.
  induction l as [|lp l IH]; intros i Hu; simpl.
  { exists 0%nat. split_and!; try lia; done. }
  apply Forall_cons in Hu as [Hu Hus]. unfold ItemIdIsUsed, ItemIdHasStorage. rewrite !negb_involutive.
  destruct ((lp_flags lp =? LP_UNUSED) && (lp_len lp =? 0)) eqn:E.
  - exists 0%nat. split_and!; try lia. intros _. simpl. f_equal. apply Hu. lia.
  - destruct (IH (i + 1) Hus) as (j & Hj & -> & Hfree & Hno). exists (S j). simpl. split_and!; [lia|lia|intros ?; apply Hfree; lia|].
    intros [|j'] Hj' lp' Hl; simpl in Hl; [|by apply (Hno j'); [lia|]]. injection Hl as <-. intros Hf.
    specialize (Hu Hf). rewrite Hu in E. done.
Qed.

Lemma set_flags_wf p f : page_wf p -> page_wf (set_flags p f) /\ slots (set_flags p f) = slots p.
Proof. intros [? ? ? ? ? ?]. split; [by split|done]. Qed.

(** What choose_slot gives on a well-formed page *)
Lemma choose_ok p off flags :
  page_wf p -> 0 <= off ->
  let limit := zlen (pd_linp p) + 1 in
  let shift := OffsetNumberIsValid off && (Z.land flags PAI_OVERWRITE =? 0) && (off <? limit) in
  choose_slot p off flags limit = Ok None /\ OffsetNumberIsValid off = true /\ Z.land flags PAI_OVERWRITE <> 0 \/
  exists n f, choose_slot p off flags limit = Ok (Some (n, shift, set_flags p f)) /\ 1 <= n /\
    (OffsetNumberIsValid off = true -> n = off) /\ (OffsetNumberIsValid off = false -> n <= limit) /\
    (shift = false -> n < limit -> pd_linp p !! Z.to_nat (n - 1) = Some ItemIdUnused) /\
    (OffsetNumberIsValid off = false -> PageHasFreeLinePointers p = true ->
       forall j lp, pd_linp p !! j = Some lp -> lp_flags lp = LP_UNUSED -> n <= Z.of_nat j + 1).
Proof.
  intros Hwf Hoff limit shift. assert (Hself : set_flags p (pd_flags p) = p) by (by destruct p). unfold choose_slot.
  destruct (OffsetNumberIsValid off) eqn:Hv.
  - assert (1 <= off) by (unfold OffsetNumberIsValid, InvalidOffsetNumber in Hv; lia). destruct (Z.eqb_spec (Z.land flags PAI_OVERWRITE) 0) as [H0|H0]; cbn [negb].
    + right. exists off, (pd_flags p). rewrite Hself. unfold shift. rewrite ?Hv, ?H0. cbn [andb Z.eqb].
      split_and!; try done. destruct (Z.ltb_spec off limit); [done|lia].
    + assert (Hs : shift = false) by (unfold shift; destruct (Z.eqb_spec (Z.land flags PAI_OVERWRITE) 0); [done|by rewrite andb_false_r]).
      rewrite Hs. destruct (Z.ltb_spec off limit).
      2: { right. exists off, (pd_flags p). rewrite Hself. split_and!; try done. lia. }
      destruct (lookup_lt_is_Some_2 (pd_linp p) (Z.to_nat (off - 1))) as [lp Hlp]; [unfold limit, zlen in *; lia|].
      unfold PageGetItemId. replace (1 <=? off) with true by lia. rewrite Hlp. bind.
      destruct (ItemIdIsUsed lp || ItemIdHasStorage lp) eqn:Hu; [by left|]. right. exists off, (pd_flags p). rewrite Hself.
      split_and!; try done. intros _ _. rewrite Hlp. f_equal. apply (pw_items _ Hwf _ _ Hlp). unfold ItemIdIsUsed in Hu. lia.
  - right. assert (Hs : shift = false) by (unfold shift; by rewrite ?Hv). rewrite Hs. destruct (PageHasFreeLinePointers p).
    + rewrite take_ge by (unfold limit, zlen; lia).
      destruct (find_free_ok (pd_linp p) FirstOffsetNumber) as (j & Hj & -> & Hfree & Hno).
      { apply Forall_forall. intros lp [i Hi]%list_elem_of_lookup_1. apply (pw_items _ Hwf _ _ Hi). }
      set (n := FirstOffsetNumber + Z.of_nat j). unfold FirstOffsetNumber in n.
      exists n, (pd_flags (if n >=? limit then PageClearHasFreeLinePointers p else p)).
      split; [by destruct (n >=? limit); rewrite ?Hself|]. split; [lia|]. split; [done|]. split; [unfold limit, zlen; lia|]. split.
      * intros _ Hlt. replace (Z.to_nat (n - 1)) with j by lia. apply Hfree. unfold limit, zlen in *. lia.
      * intros _ _ i lp Hl Hf. destruct (le_lt_dec j i); [lia|]. by destruct (Hno i l lp Hl).
    + exists limit, (pd_flags p). rewrite Hself. unfold limit. pose proof (zlen_nonneg (pd_linp p)). split_and!; try done; lia.
Qed.

(** The whole function, once a slot is chosen *)
Lemma add_extended p item k off flags n shift f :
  page_wf p -> 0 < zlen item < 2 ^ 31 - 8 ->
  choose_slot p off flags (zlen (pd_linp p) + 1) = Ok (Some (n, shift, set_flags p f)) ->
  1 <= n -> (shift = true -> n <= zlen (pd_linp p)) ->
  (shift = false -> n <= zlen (pd_linp p) -> pd_linp p !! Z.to_nat (n - 1) = Some ItemIdUnused) ->
  let lower := if (n =? zlen (pd_linp p) + 1) || shift then pd_lower p + sizeof_ItemIdData else pd_lower p in
  PageAddItemExtended p (item ++ k) (zlen item) off flags =
  if (n >? zlen (pd_linp p) + 1) || (negb (Z.land flags PAI_IS_HEAP =? 0) && (n >? MaxHeapTuplesPerPage)) ||
     (lower >? pd_upper p - MAXALIGN (zlen item))
  then Ok (InvalidOffsetNumber, set_flags p f) else Ok (n, added (set_flags p f) item n shift).
Proof.
  intros Hwf Hsize Hch Hn Hsh Hfree lower. pose proof (linp_small _ Hwf) as [Hsm Hlo]. pose proof (maxalign_bounds (zlen item)) as [Hal _].
  unfold PageAddItemExtended. destruct (pointers_ok _ Hwf) as [-> _]. rewrite (max_offset_ok _ Hwf).
  replace ((1 + zlen (pd_linp p)) mod 2 ^ 16) with (zlen (pd_linp p) + 1) by (rewrite Z.mod_small; lia). rewrite Hch. bind.
  destruct (Z.gtb_spec n (zlen (pd_linp p) + 1)); [done|]. cbn [orb]. destruct (_ && (n >? MaxHeapTuplesPerPage)); [done|]. cbn [orb].
  change (pd_lower (set_flags p f)) with (pd_lower p). change (pd_upper (set_flags p f)) with (pd_upper p). fold lower.
  pose proof (pw_bounds _ Hwf) as Hbd. unfold BLCKSZ in Hbd.
  assert (Hi : int32_of (pd_upper p - int32_of (MAXALIGN (zlen item))) = pd_upper p - MAXALIGN (zlen item)).
  { assert (Hi1 : int32_of (MAXALIGN (zlen item)) = MAXALIGN (zlen item)).
    { unfold int32_of. rewrite Z.mod_small by lia. by rewrite (proj2 (Z.ltb_lt _ _)) by lia. }
    rewrite Hi1. unfold int32_of. destruct (Z.le_gt_cases 0 (pd_upper p - MAXALIGN (zlen item))).
    - rewrite Z.mod_small by lia. by rewrite (proj2 (Z.ltb_lt _ _)) by lia.
    - rewrite <- (Z.mod_add _ 1), Z.mod_small by lia. rewrite (proj2 (Z.ltb_ge _ _)) by lia. lia. }
  rewrite Hi. destruct (Z.gtb_spec lower (pd_upper p - MAXALIGN (zlen item))) as [|Hroom]; [done|].
  destruct (set_flags_wf p f Hwf) as [Hwf' _].
  apply (add_at_ok (set_flags p f) item k n shift Hwf'); simpl; try done; lia.
Qed.

(** What PageAddItemExtended gives: a refusal, or the item in a slot *)
Definition item_added (p : PageData) (item : list Z) (off flags n : Z) (p' : PageData) : Prop :=
  n = InvalidOffsetNumber /\ slots p' = slots p \/
  1 <= n <= zlen (slots p) + 1 /\ (OffsetNumberIsValid off = true -> n = off) /\
  let shift := OffsetNumberIsValid off && (Z.land flags PAI_OVERWRITE =? 0) && (n <? zlen (slots p) + 1) in
  (shift = false -> n <= zlen (slots p) -> slots p !! Z.to_nat (n - 1) = Some Unused) /\
  slots p' = take (Z.to_nat (n - 1)) (slots p) ++ Stored LP_NORMAL item ::
             drop (Z.to_nat (if shift then n - 1 else n)) (slots p).

Lemma add_item_ok p item k off flags :
  page_wf p -> 0 < zlen item < 2 ^ 31 - 8 -> 0 <= off ->
  exists n p', PageAddItemExtended p (item ++ k) (zlen item) off flags = Ok (n, p') /\ page_wf p' /\ item_added p item off flags n p'.
Proof.
  intros Hwf Hsize Hoff. unfold item_added. assert (Hlen : zlen (slots p) = zlen (pd_linp p)) by (unfold slots, zlen; by rewrite length_map). rewrite Hlen.
  destruct (choose_ok p off flags Hwf Hoff) as [(Hch & _)|(n & f & Hch & Hn & Hv & Hnv & Hfree & _)].
  { exists InvalidOffsetNumber, p. split; [|by split; [|left]]. unfold PageAddItemExtended. destruct (pointers_ok _ Hwf) as [-> _].
    rewrite (max_offset_ok _ Hwf). pose proof (linp_small _ Hwf) as [? _]. rewrite Z.mod_small, Z.add_comm, Hch by lia. done. }
  set (shift := OffsetNumberIsValid off && _ && _) in *. destruct (set_flags_wf p f Hwf) as [Hwf' Hsl].
  assert (Hshift : shift = true -> n <= zlen (pd_linp p)).
  { intros Hs. unfold shift in Hs. apply andb_prop in Hs as [[Hs _]%andb_prop Hlt]. rewrite (Hv Hs). lia. }
  assert (Hfree' : shift = false -> n <= zlen (pd_linp p) -> pd_linp p !! Z.to_nat (n - 1) = Some ItemIdUnused).
  { intros Hs Hle. apply Hfree; [done|lia]. }
  rewrite (add_extended p item k off flags n shift f Hwf Hsize Hch Hn Hshift Hfree').
  destruct (_ || (_ >? pd_upper p - _)) eqn:Htest.
  { exists InvalidOffsetNumber, (set_flags p f). split; [done|]. split; [done|]. by left. }
  exists n, (added (set_flags p f) item n shift). split; [done|].
  apply orb_false_elim in Htest as [[Ht1 _]%orb_false_elim Ht2].
  assert (Hr : 1 <= n <= zlen (pd_linp (set_flags p f)) + 1) by (simpl; lia).
  assert (Hroom : (if (n =? zlen (pd_linp p) + 1) || shift then pd_lower p + sizeof_ItemIdData else pd_lower p) <= pd_upper p - MAXALIGN (zlen item)) by lia.
  split; [by apply (added_wf (set_flags p f) item n shift Hwf' Hr Hshift Hfree' ltac:(lia) Hroom)|]. right. split; [lia|]. split; [done|].
  assert (Hsame : OffsetNumberIsValid off && (Z.land flags PAI_OVERWRITE =? 0) && (n <? zlen (pd_linp p) + 1) = shift).
  { unfold shift. destruct (OffsetNumberIsValid off) eqn:E; [by rewrite (Hv eq_refl)|done]. }
  rewrite Hsame. split.
  - intros Hs Hle. unfold slots. rewrite list_lookup_fmap, (Hfree' Hs Hle). done.
  - rewrite <- Hsl. apply (added_slots (set_flags p f) item n shift Hwf' Hr Hshift Hfree' ltac:(lia) Hroom).
Qed.

(** C24: Adding an item to a page.  PageAddItemExtended on a well-formed page returns, gives a
    well-formed page, and either refuses, with every slot as it was, or puts the item's
    bytes into the slot it returns: the one that was asked for, where one was, with the
    later slots moved up by one unless overwriting was asked for, and otherwise one that was
    unused or is new.  Every other slot keeps what it holds. *)
Theorem page_add_item_correct p item k off flags :
  page_wf p -> 0 < zlen item < 2 ^ 31 - 8 -> 0 <= off ->
  exists n p', PageAddItemExtended p (item ++ k) (zlen item) off flags = Ok (n, p') /\ page_wf p' /\ item_added p item off flags n p'.
Proof. apply add_item_ok. Qed.

Lemma space_room p (item : list Z) :
  MAXALIGN (zlen item) <= PageGetFreeSpace p -> 0 < zlen item -> pd_lower p + sizeof_ItemIdData <= pd_upper p - MAXALIGN (zlen item).
Proof.
  intros Hfit Hp. pose proof (maxalign_pos (zlen item) Hp). unfold PageGetFreeSpace, sizeof_ItemIdData in *.
  destruct (Z.ltb_spec (pd_upper p - pd_lower p) 4); lia.
Qed.

Lemma heap_space_ok p item k :
  page_wf p -> 0 < zlen item < 2 ^ 31 - 8 -> zlen (pd_linp p) <= MaxHeapTuplesPerPage -> MAXALIGN (zlen item) <= PageGetHeapFreeSpace p ->
  exists n p', PageAddItemExtended p (item ++ k) (zlen item) InvalidOffsetNumber PAI_IS_HEAP = Ok (n, p') /\ 1 <= n <= MaxHeapTuplesPerPage.
Proof.
  intros Hwf Hsize Hmax Hfit. pose proof (linp_small _ Hwf) as [Hsm _]. pose proof (maxalign_pos (zlen item) ltac:(lia)) as Hal.
  destruct (choose_ok p InvalidOffsetNumber PAI_IS_HEAP Hwf ltac:(done)) as [(_ & Hc & _)|(n & f & Hch & Hn & _ & Hle & Hfree & Hfirst)]; [done|].
  assert (n <= MaxHeapTuplesPerPage /\ MAXALIGN (zlen item) <= PageGetFreeSpace p) as [HM Hfs].
  { specialize (Hle eq_refl). specialize (Hfirst eq_refl). unfold PageGetHeapFreeSpace in Hfit. rewrite (max_offset_ok _ Hwf) in Hfit.
    destruct (Z.gtb_spec (PageGetFreeSpace p) 0); [|lia]. destruct (Z.geb_spec (zlen (pd_linp p)) MaxHeapTuplesPerPage); [|lia].
    destruct (PageHasFreeLinePointers p); [|lia]. destruct (existsb _ (pd_linp p)) eqn:Hex; [|lia]. split; [|done].
    apply existsb_exists in Hex as (lp & [j Hj]%list_elem_of_In%list_elem_of_lookup_1 & Hu).
    specialize (Hfirst eq_refl j lp Hj). unfold ItemIdIsUsed in Hu. apply lookup_lt_Some in Hj. unfold zlen in *. lia. }
  rewrite (add_extended p item k _ _ n _ f Hwf Hsize Hch Hn) by (first [done | intros; apply Hfree; (done || lia)]).
  pose proof (space_room p item Hfs ltac:(lia)). specialize (Hle eq_refl).
  destruct (Z.gtb_spec n (zlen (pd_linp p) + 1)); [lia|]. destruct (Z.gtb_spec n MaxHeapTuplesPerPage); [lia|].
  rewrite andb_false_r. cbn [orb]. destruct (_ >? pd_upper p - _) eqn:Hr; [|by eauto].
  exfalso. unfold sizeof_ItemIdData in *. repeat case_match; lia.
Qed.

(** The free space that a page reports can be used.  An item that fits what
    PageGetHeapFreeSpace says of a heap page is added, in a slot a heap page may have; an item
    that fits what PageGetFreeSpace says is added at any position up to the end. *)
Theorem page_free_space_usable p item k off :
  page_wf p -> 0 < zlen item < 2 ^ 31 - 8 ->
  (zlen (slots p) <= MaxHeapTuplesPerPage -> MAXALIGN (zlen item) <= PageGetHeapFreeSpace p ->
     exists n p', PageAddItemExtended p (item ++ k) (zlen item) InvalidOffsetNumber PAI_IS_HEAP = Ok (n, p') /\
       1 <= n <= MaxHeapTuplesPerPage) /\
  (1 <= off <= zlen (slots p) + 1 -> MAXALIGN (zlen item) <= PageGetFreeSpace p ->
     exists p', PageAddItemExtended p (item ++ k) (zlen item) off 0 = Ok (off, p')).
Proof.
  intros Hwf Hsize. assert (Hlen : zlen (slots p) = zlen (pd_linp p)) by (unfold slots, zlen; by rewrite length_map). rewrite Hlen.
  pose proof (linp_small _ Hwf) as [Hsm _]. split; [intros Hmax Hfit; by apply heap_space_ok|].
  intros Hoff Hfit. assert (Hv : OffsetNumberIsValid off = true).
  { unfold OffsetNumberIsValid, InvalidOffsetNumber. replace MaxOffsetNumber with 2048 by reflexivity. lia. }
  destruct (choose_ok p off 0 Hwf ltac:(lia)) as [(_ & _ & Hc)|(n & f & Hch & Hn & Heq & _ & Hfree & _)]; [done|].
  rewrite (Heq Hv) in *. rewrite (add_extended p item k _ _ off _ f Hwf Hsize Hch Hn).
  - destruct (Z.gtb_spec off (zlen (pd_linp p) + 1)); [lia|]. cbn [orb andb Z.land Z.eqb negb].
    destruct (_ >? pd_upper p - _) eqn:Hr; [|by eauto]. exfalso. pose proof (space_room p item Hfit ltac:(lia)). unfold sizeof_ItemIdData in *. repeat case_match; lia.
  - intros [_ Hs]%andb_prop. lia.
  - intros Hs Hle. apply Hfree; [done|lia].
Qed.

(** *** Witnesses *)

Definition add_last (p : PageData) (item : list Z) : PageData :=
  match PageAddItemExtended p item (zlen item) InvalidOffsetNumber 0 with Ok (_, q) => q | _ => p end.
Lemma add_last_wf p item : page_wf p -> 0 < zlen item < 2 ^ 31 - 8 -> page_wf (add_last p item).
Proof.
  intros Hwf Hs. destruct (add_item_ok p item [] InvalidOffsetNumber 0 Hwf Hs ltac:(done)) as (n & q & Heq & Hq & _).
  rewrite app_nil_r in Heq. unfold add_last. by rewrite Heq.
Qed.

Definition sample_page : PageData :=
  add_last (add_last (add_last (PageInit BLCKSZ 16) [65; 65; 65; 65; 65]) [66; 66; 66]) [67; 67; 67; 67; 67; 67; 67; 67; 67].
Lemma sample_page_wf : page_wf sample_page.
Proof. repeat apply add_last_wf; try (split; vm_compute; reflexivity). apply init_wf. lia. Qed.

Lemma page_add_item_correct_witness :
  exists p', PageAddItemExtended sample_page ([68; 69] ++ [0]) 2 2 0 = Ok (2, p') /\ page_wf p' /\ item_added sample_page [68; 69] 2 0 2 p'.
Proof.
  destruct (page_add_item_correct sample_page [68; 69] [0] 2 0 sample_page_wf ltac:(split; vm_compute; reflexivity) ltac:(lia)) as (n & p' & Heq & Hwf & Hadd).
  assert (E : (x ← PageAddItemExtended sample_page ([68; 69] ++ [0]) 2 2 0; Ok (fst x)) = Ok 2) by (vm_compute; reflexivity).
  change (zlen [68; 69]) with 2 in Heq. rewrite Heq in E. cbn [mbind res_bind fst] in E. injection E as ->. exists p'. split; [exact Heq|]. split; [exact Hwf|exact Hadd].
Defined.

Lemma page_free_space_usable_witness :
  exists n p', PageAddItemExtended sample_page (zrep 8000 7 ++ []) 8000 InvalidOffsetNumber PAI_IS_HEAP = Ok (n, p') /\ 1 <= n <= MaxHeapTuplesPerPage.
Proof.
  destruct (page_free_space_usable sample_page (zrep 8000 7) [] 1 sample_page_wf ltac:(split; vm_compute; reflexivity)) as [H _].
  exact (H ltac:(vm_compute; discriminate) ltac:(vm_compute; discriminate)).
Defined.
