(* ===== verification/PageCompact.v ===== *)
(** Compaction of well-formed pages (bufpage.c): PageRepairFragmentation.

    [compacts] is the itemidbase array that the callers of compactify_tuples fill.  On a
    well-formed page its tuples lie apart, so that they fit between the line pointers and the
    special space; compactify_tuples keeps every slot and leaves no gap. *)

From S2P Require Import Prelude Varatt Rle Pglz PglzHist PglzItems PglzCodec ToastCompression Oids ToastStore Page PageOk PageOps.

Definition compact_of (i : Z) (lp : ItemIdData) : itemIdCompactData := mkCompact i (lp_off lp) (MAXALIGN (lp_len lp)).
Fixpoint compacts (linp : list ItemIdData) (i : Z) : list itemIdCompactData :=
  match linp with
  | [] => []
  | lp :: linp => if ItemIdHasStorage lp then compact_of i lp :: compacts linp (i + 1) else compacts linp (i + 1)
  end.

(** The bytes the tuples take, with their alignment *)
Definition slot_size (s : slot) : Z := match s with Stored _ data => MAXALIGN (zlen data) | Bare _ _ => 0 end.
Definition stored_size (ss : list slot) : Z := foldr (fun s n => slot_size s + n) 0 ss.

Lemma elem_compacts it linp i :
  it ∈ compacts linp i <->
  exists j lp, linp !! j = Some lp /\ lp_len lp <> 0 /\ it = compact_of (i + Z.of_nat j) lp.
Proof.
  revert i. induction linp as [|lp linp IH]; intros i; simpl.
  { split; [by intros ?%not_elem_of_nil|]. intros (j & lp & Hj & _). by rewrite lookup_nil in Hj. }
  assert (Hrest : it ∈ compacts linp (i + 1) <-> exists j lp', (lp :: linp) !! S j = Some lp' /\ lp_len lp' <> 0 /\ it = compact_of (i + Z.of_nat (S j)) lp').
  { rewrite IH. split; intros (j & lp' & Hj & Hl & ->); exists j, lp'; (split; [done|]; split; [done|]; f_equal; lia). }
  unfold ItemIdHasStorage. destruct (Z.eqb_spec (lp_len lp) 0) as [H0|H0]; cbn [negb].
  - rewrite Hrest. split; [intros (j & lp' & H); by exists (S j), lp'|].
    intros ([|j] & lp' & Hj & Hl & ->); [by injection Hj as <-|by exists j, lp'].
  - rewrite elem_of_cons, Hrest. split.
    + intros [->|(j & lp' & H)]; [exists 0%nat, lp; split; [done|]; split; [done|]; f_equal; lia|by exists (S j), lp'].
    + intros ([|j] & lp' & Hj & Hl & ->); [left; injection Hj as <-; f_equal; lia|right; by exists j, lp'].
Qed.

Lemma compacts_nodup linp i : NoDup (map offsetindex (compacts linp i)).
Proof.
  revert i. induction linp as [|lp linp IH]; intros i; simpl; [constructor|].
  destruct (ItemIdHasStorage lp); [|apply IH]. simpl. constructor; [|apply IH].
  intros (it & Heq & (j & lp' & _ & _ & ->)%elem_compacts)%list_elem_of_fmap. simpl in Heq. lia.
Qed.

Lemma compacts_apart linp i :
  (forall j k a b, j <> k -> linp !! j = Some a -> linp !! k = Some b -> lp_apart a b) -> all_apart (compacts linp i).
Proof.
  revert i. induction linp as [|lp linp IH]; intros i Hap; simpl; [done|].
  assert (Htl : all_apart (compacts linp (i + 1))).
  { apply IH. intros j k a b Hjk Ha Hb. apply (Hap (S j) (S k)); [lia|done|done]. }
  destruct (ItemIdHasStorage lp) eqn:Hs; [|done]. split; [|done]. apply Forall_forall.
  intros it (j & lp' & Hj & Hl & ->)%elem_compacts. unfold ItemIdHasStorage in Hs.
  apply (Hap 0%nat (S j) lp lp' ltac:(lia) eq_refl Hj); [lia|done].
Qed.

Lemma compacts_length linp i : zlen (compacts linp i) <= zlen linp.
Proof.
  revert i. induction linp as [|lp linp IH]; intros i; simpl; [done|]. specialize (IH (i + 1)).
  destruct (ItemIdHasStorage lp); rewrite ?zlen_cons; lia.
Qed.

(** ** Tuples that lie apart fit *)

Lemma apart_fit its lo hi :
  all_apart its -> Forall (fun it => lo <= itemoff it /\ 0 <= alignedlen it /\ compact_end it <= hi) its -> lo <= hi ->
  item_sum its <= hi - lo.
Proof.
  intros Hap Hin Hlh. set (cells := concat (map (fun it => seqZ (itemoff it) (alignedlen it)) its)).
  assert (Hmem : forall x, x ∈ cells <-> exists it, it ∈ its /\ itemoff it <= x < compact_end it).
  { intros x. unfold cells. rewrite list_elem_of_In, in_concat. split.
    - intros (l & (it & <- & Hit)%in_map_iff & Hx). exists it. split; [by apply list_elem_of_In|]. by apply list_elem_of_In, elem_of_seqZ in Hx.
    - intros (it & Hit & Hx). exists (seqZ (itemoff it) (alignedlen it)). split; [apply in_map_iff; exists it; split; [done|by apply list_elem_of_In]|].
      apply list_elem_of_In, elem_of_seqZ. done. }
  assert (Hlen : Z.of_nat (length cells) = item_sum its).
  { unfold cells. clear - Hin. induction Hin as [|it its Hit _ IH]; simpl; [done|]. rewrite length_app, length_seqZ. lia. }
  assert (Hnd : NoDup cells).
  { clear Hlen. unfold cells in *. clear Hmem Hin. induction its as [|it its IH]; simpl; [constructor|]. destruct Hap as [Hit Hap].
    apply NoDup_app. split; [apply NoDup_seqZ|]. split; [|by apply IH]. intros x Hx%elem_of_seqZ Hin.
    apply list_elem_of_In, in_concat in Hin as (l & (it' & <- & Hit')%in_map_iff & Hx'%list_elem_of_In%elem_of_seqZ).
    rewrite Forall_forall in Hit. destruct (Hit it' ltac:(by apply list_elem_of_In)); unfold compact_end in *; lia. }
  assert (Hsub : cells ⊆+ seqZ lo (hi - lo)).
  { apply NoDup_submseteq; [done|]. intros x (it & Hit & Hx)%Hmem. rewrite Forall_forall in Hin. specialize (Hin it Hit). apply elem_of_seqZ. lia. }
  apply submseteq_length in Hsub. rewrite length_seqZ in Hsub. lia.
Qed.

Lemma placed_range its upper it new :
  Forall (fun it => 0 <= alignedlen it) its -> (it, new) ∈ placed upper its -> upper - item_sum its <= new /\ new + alignedlen it <= upper.
Proof.
  intros Hp. revert upper. induction Hp as [|i its Hi Hp IH]; intros upper; simpl; [by intros ?%not_elem_of_nil|].
  assert (0 <= item_sum its) by (clear - Hp; induction Hp; simpl; lia).
  intros [[= -> ->]|Hin]%elem_of_cons; [lia|]. specialize (IH _ Hin). lia.
Qed.

Lemma placed_apart its upper it new it' new' :
  Forall (fun it => 0 <= alignedlen it) its -> (it, new) ∈ placed upper its -> (it', new') ∈ placed upper its -> it <> it' ->
  new + alignedlen it <= new' \/ new' + alignedlen it' <= new.
Proof.
  intros Hp. revert upper. induction Hp as [|i its Hi Hp IH]; intros upper; simpl; [by intros ?%not_elem_of_nil|].
  intros [[= -> ->]|Ha]%elem_of_cons [[= -> ->]|Hb]%elem_of_cons Hne; [done|..].
  - pose proof (placed_range _ _ _ _ Hp Hb). lia.
  - pose proof (placed_range _ _ _ _ Hp Ha). lia.
  - by apply (IH _ Ha Hb).
Qed.

Lemma placed_aligned its upper it new :
  Forall (fun it => alignedlen it mod 8 = 0) its -> upper mod 8 = 0 -> (it, new) ∈ placed upper its -> new mod 8 = 0.
Proof.
  intros Hp. revert upper. induction Hp as [|i its Hi Hp IH]; intros upper Hu; simpl; [by intros ?%not_elem_of_nil|].
  intros [[= -> ->]|Ha]%elem_of_cons; [lia|]. apply (IH (upper - alignedlen i)); [lia|done].
Qed.

Lemma elem_placed its upper it : it ∈ its -> exists new, (it, new) ∈ placed upper its.
Proof.
  revert upper. induction its as [|i its IH]; intros upper; [by intros ?%not_elem_of_nil|].
  intros [->|Hin]%elem_of_cons; simpl; [eexists; by left|]. destruct (IH (upper - alignedlen i) Hin) as [new Hn]. exists new. by right.
Qed.

(** ** compactify_tuples on a well-formed page *)

Lemma storage_facts p i lp :
  page_wf p -> pd_linp p !! i = Some lp -> lp_len lp <> 0 ->
  0 < lp_len lp <= MAXALIGN (lp_len lp) /\ MAXALIGN (lp_len lp) mod 8 = 0 /\ linp_end p <= pd_upper p <= lp_off lp /\
  lp_off lp + MAXALIGN (lp_len lp) <= pd_special p <= BLCKSZ /\ lp_off lp mod 8 = 0.
Proof.
  intros Hwf Hl Hne. destruct (pw_items _ Hwf _ _ Hl) as [H0 _ Hs]. specialize (Hs Hne). unfold lp_end in Hs.
  pose proof (pw_bounds _ Hwf). pose proof (pw_lower _ Hwf). pose proof (maxalign_bounds (lp_len lp)). lia.
Qed.

Lemma compacts_items p :
  page_wf p -> Forall (fun it => pd_upper p <= itemoff it /\ 0 < alignedlen it /\ compact_end it <= pd_special p /\ alignedlen it mod 8 = 0 /\
    0 <= offsetindex it < zlen (pd_linp p) /\
    exists lp, pd_linp p !! Z.to_nat (offsetindex it) = Some lp /\ lp_off lp = itemoff it) (compacts (pd_linp p) 0).
Proof.
  intros Hwf. apply Forall_forall. intros it (j & lp & Hj & Hl & ->)%elem_compacts. unfold compact_end. cbn [compact_of itemoff alignedlen offsetindex]. rewrite Z.add_0_l.
  pose proof (storage_facts _ _ _ Hwf Hj Hl). pose proof (lookup_lt_Some _ _ _ Hj). rewrite Nat2Z.id.
  split_and!; try (unfold zlen; lia). by exists lp.
Qed.

Lemma tuples_fit p : page_wf p -> item_sum (compacts (pd_linp p) 0) <= pd_special p - pd_upper p.
Proof.
  intros Hwf. pose proof (pw_bounds _ Hwf). apply apart_fit; [apply compacts_apart, (pw_apart _ Hwf)| |lia].
  eapply Forall_impl; [apply (compacts_items p Hwf)|simpl; lia].
Qed.

Lemma compact_pre_wf p : page_wf p -> compact_pre (compacts (pd_linp p) 0) p.
Proof.
  intros Hwf. pose proof (compacts_items p Hwf) as Hi. pose proof (pw_bounds _ Hwf). pose proof (pw_lower _ Hwf). pose proof (tuples_fit p Hwf).
  split; [apply (pw_bytes _ Hwf)|lia| |apply compacts_nodup|apply compacts_apart, (pw_apart _ Hwf)|lia].
  eapply Forall_impl; [exact Hi|]. simpl. intros it (? & ? & ? & _ & ? & ?). done.
Qed.

(** Where a line pointer goes *)
Lemma compact_lookup p q i lp' :
  page_wf p -> compact_post (compacts (pd_linp p) 0) p q -> pd_linp q !! i = Some lp' ->
  exists lp, pd_linp p !! i = Some lp /\
    (lp_len lp = 0 /\ lp' = lp \/
     lp_len lp <> 0 /\ exists new, (compact_of (Z.of_nat i) lp, new) ∈ placed (pd_special p) (compacts (pd_linp p) 0) /\
       lp' = mkItemId new (lp_flags lp) (lp_len lp)).
Proof.
  intros Hwf [Hh Hup [Hl1 Hl2] _ _] Hi. destruct Hh as (_ & _ & _ & _ & _ & Hlen & _).
  destruct (lookup_lt_is_Some_2 (pd_linp p) i) as [lp Hlp]; [apply lookup_lt_Some in Hi; unfold zlen in Hlen; lia|].
  exists lp. split; [done|]. destruct (Z.eq_dec (lp_len lp) 0) as [H0|Hne].
  - left. split; [done|]. rewrite Hl2 in Hi; [congruence|].
    intros it new (j & lp2 & Hj & Hl & ->)%placed_elem%elem_compacts. cbn [compact_of offsetindex]. rewrite Z.add_0_l, Nat2Z.id. intros ->. congruence.
  - right. split; [done|].
    assert (Hin : compact_of (Z.of_nat i) lp ∈ compacts (pd_linp p) 0) by (apply elem_compacts; by exists i, lp).
    destruct (elem_placed _ (pd_special p) _ Hin) as [new Hnew]. exists new. split; [done|].
    specialize (Hl1 _ _ lp Hnew). simpl in Hl1. rewrite Nat2Z.id in Hl1. rewrite (Hl1 Hlp) in Hi. injection Hi as <-.
    unfold set_lp_off. rewrite Z.mod_small; [done|]. pose proof (compact_pre_wf p Hwf) as [_ Hb _ _ _ Hroom]. pose proof (linp_end_nonneg p).
    apply placed_range in Hnew; [unfold BLCKSZ in *; simpl in Hnew; pose proof (storage_facts _ _ _ Hwf Hlp Hne); lia|].
    eapply Forall_impl; [apply (compacts_items p Hwf)|]. simpl. lia.
Qed.

Lemma compact_wf p q : page_wf p -> compact_post (compacts (pd_linp p) 0) p q -> page_wf q.
Proof.
  intros Hwf Hpost. pose proof (compact_pre_wf p Hwf) as [_ Hb _ _ _ Hroom]. pose proof (compacts_items p Hwf) as Hi. pose proof (pw_aligned _ Hwf).
  pose proof (fun i lp' => compact_lookup p q i lp' Hwf Hpost) as Hlook. destruct Hpost as [Hh Hup _ _ _].
  assert (Hge : Forall (fun it => 0 <= alignedlen it) (compacts (pd_linp p) 0)) by (eapply Forall_impl; [exact Hi|simpl; lia]).
  assert (Hal : Forall (fun it => alignedlen it mod 8 = 0) (compacts (pd_linp p) 0)) by (eapply Forall_impl; [exact Hi|simpl; lia]).
  assert (Hsum : 0 <= item_sum (compacts (pd_linp p) 0) /\ item_sum (compacts (pd_linp p) 0) mod 8 = 0).
  { clear - Hge Hal. induction Hal; simpl; [done|]. apply Forall_cons in Hge as [? ?]. specialize (IHHal H1). lia. }
  destruct Hh as (_ & Hlo & Hsp & _ & _ & Hlen & Hbytes). pose proof (pw_lower _ Hwf).
  assert (Hle : linp_end q = linp_end p) by (unfold linp_end; by rewrite Hlen).
  split; rewrite ?Hlo, ?Hle, ?Hup, ?Hsp, ?Hbytes; try lia; [apply (pw_bytes _ Hwf)|..].
  - intros i lp' (lp & Hlp & [[Hz ->]|[Hne (new & Hnew & ->)]])%Hlook; [destruct (pw_items _ Hwf _ _ Hlp); by split|].
    pose proof (storage_facts _ _ _ Hwf Hlp Hne). split; simpl; [lia| |].
    + intros Hu. rewrite (lw_unused _ _ _ (pw_items _ Hwf _ _ Hlp) Hu) in Hne. done.
    + intros _. pose proof (placed_range _ _ _ _ Hge Hnew) as Hr. simpl in Hr. unfold lp_end. simpl. split_and!; try lia.
      apply (placed_aligned _ _ _ _ Hal) in Hnew; [done|lia].
  - intros i j a b Hij (la & Hla & Ha)%Hlook (lb & Hlb & Hb')%Hlook Ha0 Hb0.
    destruct Ha as [[? ->]|[Hna (na & Ina & ->)]]; [done|]. destruct Hb' as [[? ->]|[Hnb (nb & Inb & ->)]]; [done|].
    unfold lp_end. simpl. apply (placed_apart _ _ _ _ _ _ Hge Ina Inb). unfold compact_of. intros [=]. lia.
Qed.

Lemma compact_slots p q : page_wf p -> compact_post (compacts (pd_linp p) 0) p q -> slots q = slots p.
Proof.
  intros Hwf Hpost. pose proof (fun i lp' => compact_lookup p q i lp' Hwf Hpost) as Hlook.
  pose proof (compact_pre_wf p Hwf) as [_ Hb _ _ _ Hroom]. pose proof (pw_bytes _ Hwf) as Hbp.
  destruct Hpost as [Hh Hup _ Hbytes _]. destruct Hh as (_ & _ & Hsp & _ & _ & Hlen & Hlb).
  unfold slots. apply list_eq_same_length with (n := length (pd_linp p)); rewrite ?length_map; [done|unfold zlen in Hlen; lia|].
  intros i x y _. rewrite !list_lookup_fmap. intros (lp' & Hx & ->)%fmap_Some_1 (lp & Hy & ->)%fmap_Some_1.
  destruct (Hlook _ _ Hx) as (lp2 & Hlp2 & Hcase). rewrite Hy in Hlp2. injection Hlp2 as <-.
  destruct Hcase as [[H0 ->]|[Hne (new & Hnew & ->)]]; [unfold slot_of, ItemIdHasStorage; by rewrite H0|].
  pose proof (storage_facts _ _ _ Hwf Hy Hne) as Hs. pose proof (linp_end_nonneg p).
  assert (Hr : 0 <= new /\ new + MAXALIGN (lp_len lp) <= pd_special p).
  { pose proof (placed_range (compacts (pd_linp p) 0) (pd_special p) (compact_of (Z.of_nat i) lp) new) as Hr.
    specialize (Hr ltac:(eapply Forall_impl; [apply (compacts_items p Hwf)|simpl; lia]) Hnew). simpl in Hr. lia. }
  unfold slot_of, ItemIdHasStorage. simpl. destruct (Z.eqb_spec (lp_len lp) 0); [done|]. cbn [negb]. f_equal.
  apply zslice_rd; try lia. intros k Hk. apply (Hbytes _ _ Hnew). simpl. lia.
Qed.

Lemma stored_size_compacts p : page_wf p -> stored_size (slots p) = item_sum (compacts (pd_linp p) 0).
Proof.
  intros Hwf. assert (Hall : Forall (fun lp => lp_len lp <> 0 -> zlen (zslice (pd_bytes p) (lp_off lp) (lp_len lp)) = lp_len lp) (pd_linp p)).
  { apply Forall_forall. intros lp [i Hi]%list_elem_of_lookup_1 Hne. pose proof (storage_facts _ _ _ Hwf Hi Hne).
    pose proof (linp_end_nonneg p). rewrite zlen_zslice; [done|..]; rewrite ?(pw_bytes _ Hwf); lia. }
  unfold slots. revert Hall. generalize 0 at 2. induction (pd_linp p) as [|lp l IH]; intros i Hall; simpl; [done|].
  apply Forall_cons in Hall as [Hlp Hall]. rewrite (IH (i + 1) Hall). unfold slot_of, ItemIdHasStorage in *.
  destruct (Z.eqb_spec (lp_len lp) 0); cbn [negb]; simpl; [done|]. by rewrite Hlp.
Qed.

(** What both scans find out of presorted *)
Fixpoint falling (top : Z) (its : list itemIdCompactData) : Prop :=
  match its with [] => True | it :: its => itemoff it < top /\ falling (itemoff it) its end.

Lemma falling_descending its top :
  all_apart its -> Forall (fun it => 0 < alignedlen it) its -> Forall (fun it => compact_end it <= top \/ itemoff it >= top) its ->
  falling top its -> descending top its.
Proof.
  revert top. induction its as [|it its IH]; intros top Hap Hpos Htop; simpl; [done|]. intros [Hlt Hf].
  destruct Hap as [Hit Hap]. apply Forall_cons in Hpos as [Hp Hpos]. apply Forall_cons in Htop as [Ht _]. split; [lia|].
  apply IH; try done. rewrite Forall_forall in Hit, Hpos. apply Forall_forall. intros it' Hin. specialize (Hpos it' Hin).
  destruct (Hit it' Hin); unfold compact_end in *; lia.
Qed.

Lemma compacted_ok mem p presorted :
  page_wf p -> compacts (pd_linp p) 0 <> [] -> zlen mem = BLCKSZ ->
  (presorted = true -> falling (pd_special p) (compacts (pd_linp p) 0)) ->
  returns (compactify_tuples mem (compacts (pd_linp p) 0) p presorted)
    (fun q => page_wf q /\ slots q = slots p /\ pd_upper q = pd_special p - stored_size (slots p) /\ same_header p q /\
       forall x, pd_special p <= x -> rd (pd_bytes q) x = rd (pd_bytes p) x).
Proof.
  intros Hwf Hne Hmem Hsort. eapply returns_mono; [apply compactify_ok; [by apply compact_pre_wf|done|done|]|].
  - intros Hp. pose proof (compacts_items p Hwf) as Hi. apply falling_descending; [apply (compact_pre_wf p Hwf)| | |auto];
      (eapply Forall_impl; [exact Hi|simpl; lia]).
  - intros q Hpost. split_and!; [by eapply compact_wf|by eapply compact_slots| |apply Hpost|apply Hpost].
    rewrite (stored_size_compacts p Hwf). apply Hpost.
Qed.

(** ** The scan of PageRepairFragmentation *)

Definition unused (l : list ItemIdData) : Z := zlen (filter (fun lp => lp_flags lp = LP_UNUSED) l).

Lemma unused_cons lp l : unused (lp :: l) = (if lp_flags lp =? LP_UNUSED then 1 else 0) + unused l.
Proof.
  unfold unused. rewrite filter_cons. destruct (Z.eqb_spec (lp_flags lp) LP_UNUSED); [by rewrite decide_True, zlen_cons|].
  by rewrite decide_False.
Qed.

Record collect_post (linp : list ItemIdData) (i : Z) (c c' : collected) : Prop := {
  co_base : c_base c' = rev (compacts linp (i - 1)) ++ c_base c;
  co_linp : c_linp c' = c_linp c ++ linp;
  co_sorted : c_presorted c' = true -> c_presorted c = true /\ falling (c_last_offset c) (compacts linp (i - 1));
  co_total : c_totallen c' = c_totallen c + item_sum (compacts linp (i - 1));
  co_unused : c_nunused c' = c_nunused c + unused linp;
  co_final : exists front k, linp = front ++ replicate k ItemIdUnused /\
    (front = [] /\ c_finalused c' = c_finalused c \/
     exists init lp, front = init ++ [lp] /\ lp_flags lp <> LP_UNUSED /\ c_finalused c' = i - 1 + zlen front)
}.

Lemma final_cons lp linp i (f f' : Z) :
  (lp_flags lp = LP_UNUSED -> lp = ItemIdUnused) ->
  (exists front k, linp = front ++ replicate k ItemIdUnused /\
    (front = [] /\ f' = (if ItemIdIsUsed lp then i else f) \/
     exists init lp', front = init ++ [lp'] /\ lp_flags lp' <> LP_UNUSED /\ f' = i + 1 - 1 + zlen front)) ->
  exists front k, lp :: linp = front ++ replicate k ItemIdUnused /\
    (front = [] /\ f' = f \/ exists init lp', front = init ++ [lp'] /\ lp_flags lp' <> LP_UNUSED /\ f' = i - 1 + zlen front).
Proof.
  intros Hun (front & k & -> & Hcase). destruct Hcase as [[-> Hf]|(init & lp' & -> & Hu & Hf)].
  - unfold ItemIdIsUsed in Hf. destruct (Z.eqb_spec (lp_flags lp) LP_UNUSED) as [H0|H0]; cbn [negb] in Hf.
    + exists [], (S k). split; [by rewrite (Hun H0)|]. by left.
    + exists [lp], k. split; [done|]. right. exists [], lp. split_and!; try done. rewrite zlen_cons, zlen_nil. lia.
  - exists (lp :: init ++ [lp']), k. split; [done|]. right. exists (lp :: init), lp'. split_and!; try done. rewrite zlen_cons. lia.
Qed.

Lemma collect_ok upper special linp : forall i c,
  Forall (lp_wf upper special) linp -> zlen (c_base c) + zlen linp <= MaxHeapTuplesPerPage ->
  exists c', collect_items upper special linp i c = Ok c' /\ collect_post linp i c c'.
Proof.
  induction linp as [|lp linp IH]; intros i c Hwf Hlen; simpl.
  { exists c. split; [done|]. split; simpl; rewrite ?app_nil_r, ?Z.add_0_r; try done. exists [], 0%nat. split; [done|]. by left. }
  apply Forall_cons in Hwf as [[Hl0 Hun Hst] Hwf]. rewrite zlen_cons in Hlen. pose proof (zlen_nonneg linp).
  unfold ItemIdIsUsed at 1. destruct (Z.eqb_spec (lp_flags lp) LP_UNUSED) as [Hu|Hu]; cbn [negb].
  - edestruct IH as (c' & -> & [P1 P2 P3 P4 P5 P6]); [done|simpl; lia|]. exists c'. split; [done|].
    simpl in P1, P2, P3, P4, P5, P6. replace (i + 1 - 1) with (i - 1 + 1) in P1, P3, P4 by lia.
    pose proof (Hun Hu) as ->. split; simpl; try done.
    + by rewrite P2, <- app_assoc.
    + rewrite P5, unused_cons. simpl. lia.
    + apply final_cons; [done|]. exact P6.
  - assert (Hcnt : unused (lp :: linp) = unused linp) by (rewrite unused_cons; destruct (Z.eqb_spec (lp_flags lp) LP_UNUSED); [done|lia]).
    destruct (ItemIdHasStorage lp) eqn:Hs.
    + assert (Hne : lp_len lp <> 0) by (unfold ItemIdHasStorage in Hs; lia). specialize (Hst Hne). unfold lp_end in Hst.
      pose proof (maxalign_pos (lp_len lp) ltac:(lia)). replace (zlen (c_base c) >=? MaxHeapTuplesPerPage) with false by lia.
      replace ((lp_off lp <? upper) || _) with false by lia. bind.
      edestruct IH as (c' & -> & [P1 P2 P3 P4 P5 P6]); [done|simpl; rewrite zlen_cons; lia|]. exists c'. split; [done|].
      simpl in P1, P2, P3, P4, P5, P6. replace (i + 1 - 1) with (i - 1 + 1) in P1, P3, P4 by lia.
      split; simpl; rewrite ?Hs, ?Hcnt; simpl; try done.
      * by rewrite P1, <- app_assoc.
      * by rewrite P2, <- app_assoc.
      * intros Hp. destruct (P3 Hp) as [Q1 Q2]. destruct (Z.gtb_spec (c_last_offset c) (lp_off lp)); [|done]. split_and!; try done; lia.
      * lia.
      * apply final_cons; [done|]. unfold ItemIdIsUsed. destruct (Z.eqb_spec (lp_flags lp) LP_UNUSED); [done|]. exact P6.
    + bind. edestruct IH as (c' & -> & [P1 P2 P3 P4 P5 P6]); [done|simpl; lia|]. exists c'. split; [done|].
      simpl in P1, P2, P3, P4, P5, P6. replace (i + 1 - 1) with (i - 1 + 1) in P1, P3, P4 by lia.
      split; simpl; rewrite ?Hs, ?Hcnt; try done.
      * by rewrite P2, <- app_assoc.
      * apply final_cons; [done|]. unfold ItemIdIsUsed. destruct (Z.eqb_spec (lp_flags lp) LP_UNUSED); [done|]. exact P6.
Qed.

#[global] Instance slot_eq_dec : EqDecision slot.
Proof. solve_decision. Defined.

Lemma slot_unused b upper special lp : lp_wf upper special lp -> slot_of b lp = Unused <-> lp_flags lp = LP_UNUSED.
Proof.
  intros [_ Hu _]. unfold slot_of, Unused. split; [destruct (ItemIdHasStorage lp); intros [=]; done|].
  intros H0. by rewrite (Hu H0).
Qed.

Lemma unused_slots p l :
  page_wf p -> (forall lp, lp ∈ l -> lp ∈ pd_linp p) ->
  (unused l >? 0) = bool_decide (Unused ∈ map (slot_of (pd_bytes p)) l).
Proof.
  intros Hwf Hin. assert (Hun : forall lp, lp ∈ l -> slot_of (pd_bytes p) lp = Unused <-> lp_flags lp = LP_UNUSED).
  { intros lp [i Hi]%Hin%list_elem_of_lookup_1. by eapply slot_unused, (pw_items _ Hwf). }
  unfold unused. case_bool_decide as Hex.
  - apply list_elem_of_fmap in Hex as (lp & Heq & Hlp). assert (Hf : lp ∈ filter (fun lp => lp_flags lp = LP_UNUSED) l).
    { apply list_elem_of_filter. split; [by apply (Hun lp Hlp)|done]. }
    destruct (filter _ l); [by apply not_elem_of_nil in Hf|]. rewrite zlen_cons. pose proof (zlen_nonneg l0). lia.
  - destruct (filter _ l) as [|lp l'] eqn:Hf; [done|]. destruct Hex. assert (Hlp : lp ∈ filter (fun lp => lp_flags lp = LP_UNUSED) l) by (rewrite Hf; by left).
    apply list_elem_of_filter in Hlp as [Hu Hlp]. apply list_elem_of_fmap. exists lp. split; [by rewrite (proj2 (Hun lp Hlp) Hu)|done].
Qed.

Lemma hint_set p : PageHasFreeLinePointers (PageSetHasFreeLinePointers p) = true /\ PageHasFreeLinePointers (PageClearHasFreeLinePointers p) = false.
Proof.
  unfold PageHasFreeLinePointers, PageSetHasFreeLinePointers, PageClearHasFreeLinePointers, PD_HAS_FREE_LINES. simpl. split.
  - rewrite Z.land_lor_distr_l. destruct (Z.eqb_spec (Z.lor (Z.land (pd_flags p) 1) (Z.land 1 1)) 0) as [H|]; [|done].
    apply Z.lor_eq_0_iff in H as [_ H]. done.
  - rewrite <- Z.land_assoc. by rewrite Z.land_0_r.
Qed.

(** Cutting off line pointers at the end *)
Definition cut_linp (p : PageData) (n : Z) : PageData :=
  set_lower p (pd_lower p - sizeof_ItemIdData * (zlen (pd_linp p) - n)) (take (Z.to_nat n) (pd_linp p)).

Lemma cut_linp_ok p n :
  page_wf p -> 0 <= n <= zlen (pd_linp p) -> page_wf (cut_linp p n) /\ slots (cut_linp p n) = take (Z.to_nat n) (slots p).
Proof.
  intros Hwf Hn. pose proof (pw_bounds _ Hwf). pose proof (pw_lower _ Hwf) as Hl. split; [|unfold slots, cut_linp; simpl; by rewrite firstn_map].
  split; unfold cut_linp; cbn [pd_lower pd_upper pd_special pd_linp pd_bytes set_lower].
  - unfold linp_end in *. cbn [pd_linp set_lower]. rewrite zlen_take. unfold sizeof_ItemIdData in *. lia.
  - unfold sizeof_ItemIdData. lia.
  - apply (pw_aligned _ Hwf).
  - apply (pw_bytes _ Hwf).
  - intros i lp [Hlp _]%lookup_take_Some. by apply (pw_items _ Hwf _ _ Hlp).
  - intros i j a b Hij [Ha _]%lookup_take_Some [Hb _]%lookup_take_Some. by apply (pw_apart _ Hwf i j).
Qed.

Lemma cut_none p : cut_linp p (zlen (pd_linp p)) = p.
Proof.
  unfold cut_linp, set_lower. rewrite Z.sub_diag, Z.mul_0_r, Z.sub_0_r, take_ge by (unfold zlen; lia). by destruct p.
Qed.

(** A page on which no line pointer has storage *)
Lemma empty_wf p : page_wf p -> compacts (pd_linp p) 0 = [] -> page_wf (set_upper p (pd_special p)) /\ slots (set_upper p (pd_special p)) = slots p.
Proof.
  intros Hwf Hno. split; [|done]. pose proof (pw_bounds _ Hwf).
  assert (H0 : forall i lp, pd_linp p !! i = Some lp -> lp_len lp = 0).
  { intros i lp Hl. destruct (Z.eq_dec (lp_len lp) 0) as [|Hne]; [done|].
    assert (Hin : compact_of (0 + Z.of_nat i) lp ∈ compacts (pd_linp p) 0) by (apply elem_compacts; by exists i, lp).
    rewrite Hno in Hin. by apply not_elem_of_nil in Hin. }
  split; simpl.
  - apply (pw_lower _ Hwf).
  - lia.
  - split; apply (pw_aligned _ Hwf).
  - apply (pw_bytes _ Hwf).
  - intros i lp Hl. destruct (pw_items _ Hwf _ _ Hl). split; try done. by rewrite (H0 i lp Hl).
  - apply (pw_apart _ Hwf).
Qed.

(** The tuples are packed against the special space, which stays as it is. *)
Definition packed (p q : PageData) : Prop :=
  pd_special q = pd_special p /\ pd_upper q = pd_special q - stored_size (slots q) /\
  forall x, pd_special p <= x -> rd (pd_bytes q) x = rd (pd_bytes p) x.

Lemma repack_ok mem p presorted :
  page_wf p -> zlen mem = BLCKSZ -> (presorted = true -> falling (pd_special p) (compacts (pd_linp p) 0)) ->
  returns (match compacts (pd_linp p) 0 with
           | [] => Ok (set_upper p (pd_special p))
           | itemidbase => compactify_tuples mem itemidbase p presorted
           end) (fun q => page_wf q /\ slots q = slots p /\ packed p q /\ pd_lower q = pd_lower p).
Proof.
  intros Hwf Hmem Hsort. pose proof (compacted_ok mem p presorted Hwf) as Hc. destruct (compacts (pd_linp p) 0) as [|it its] eqn:Hits.
  - destruct (empty_wf p Hwf Hits) as [Hwf' Hsl]. simpl. split; [done|]. split; [done|]. split; [|done]. split; [done|]. split; [|done].
    rewrite Hsl, (stored_size_compacts p Hwf), Hits. simpl. lia.
  - eapply returns_mono; [by apply Hc|].
    simpl. intros q (Hq & Hsl & Hup & (_ & Hlo & Hsp & _) & Hx). split_and!; try done. split_and!; try done. by rewrite Hsl, Hsp.
Qed.

(** Cutting off the unused line pointers at the end *)
Lemma cut_unused p q front k :
  page_wf p -> page_wf q -> slots q = slots p -> pd_linp p = front ++ replicate k ItemIdUnused ->
  let r := cut_linp q (zlen front) in
  page_wf r /\ slots r = map (slot_of (pd_bytes p)) front /\ slots p = slots r ++ replicate k Unused /\
  (forall init lp, front = init ++ [lp] -> lp_flags lp <> LP_UNUSED -> last (slots r) <> Some Unused) /\
  stored_size (slots r) = stored_size (slots p).
Proof.
  intros Hwf Hwfq Hsl Hfront r.
  assert (Hlq : zlen (pd_linp q) = zlen (pd_linp p)) by (apply (f_equal zlen) in Hsl; unfold slots, zlen in *; by rewrite !length_map in Hsl).
  pose proof (zlen_nonneg front). assert (Hle : zlen front <= zlen (pd_linp p)) by (rewrite Hfront; zl; pose proof (zlen_nonneg (replicate k ItemIdUnused)); lia).
  destruct (cut_linp_ok q (zlen front) Hwfq ltac:(lia)) as [Hwfc Hslc].
  assert (Hslots : slots r = map (slot_of (pd_bytes p)) front).
  { unfold r. rewrite Hslc, Hsl. unfold slots. rewrite Hfront, map_app, take_app_le by (rewrite length_map; unfold zlen; lia).
    apply take_ge. rewrite length_map. unfold zlen. lia. }
  assert (Hex : slots p = slots r ++ replicate k Unused).
  { rewrite Hslots. unfold slots. rewrite Hfront, map_app. f_equal. apply (fmap_replicate (slot_of (pd_bytes p))). }
  split_and!; try done.
  - rewrite Hslots. intros init lp -> Hn. rewrite map_app. cbn [map]. rewrite last_snoc. intros [= Hun].
    destruct Hn. eapply slot_unused; [|exact Hun]. apply (pw_items _ Hwf (length init)). rewrite Hfront, <- app_assoc. by apply list_lookup_middle.
  - rewrite Hex. generalize (slots r). clear. intros l. induction l as [|s l IH]; simpl; [|by rewrite IH]. induction k; done.
Qed.

Lemma unused_front front k : unused (front ++ replicate k ItemIdUnused) = unused front + Z.of_nat k.
Proof.
  assert (Hr : unused (replicate k ItemIdUnused) = Z.of_nat k) by (induction k; [done|]; rewrite replicate_S, unused_cons; simpl (_ =? _); lia).
  unfold unused in *. rewrite filter_app, zlen_app. lia.
Qed.

Definition repaired (p q : PageData) : Prop :=
  page_wf q /\ (exists k, slots p = slots q ++ replicate k Unused) /\ last (slots q) <> Some Unused /\
  packed p q /\ PageHasFreeLinePointers q = bool_decide (Unused ∈ slots q).

Lemma repair_ok mem p :
  page_wf p -> zlen (slots p) <= MaxHeapTuplesPerPage -> zlen mem = BLCKSZ -> returns (PageRepairFragmentation mem p) (repaired p).
Proof.
  intros Hwf Hmax Hmem. assert (Hlen : zlen (slots p) = zlen (pd_linp p)) by (unfold slots, zlen; by rewrite length_map). rewrite Hlen in Hmax.
  unfold PageRepairFragmentation. destruct (pointers_ok _ Hwf) as [_ ->]. rewrite (max_offset_ok _ Hwf).
  edestruct collect_ok as (c & -> & [Hb Hl Hs Ht Hu (front & k & Hfront & Hfin)]).
  { apply Forall_forall. intros lp [i Hi]%list_elem_of_lookup_1. apply (pw_items _ Hwf _ _ Hi). } { exact Hmax. }
  bind. change (FirstOffsetNumber - 1) with 0 in *. simpl in Hb, Hl, Hs, Ht, Hu. rewrite app_nil_r in Hb.
  rewrite Hb, rev_involutive, Hl, Ht. replace (set_linp p (pd_linp p)) with p by (by destruct p).
  replace (0 + item_sum (compacts (pd_linp p) 0) >? pd_special p - pd_lower p) with false
    by (pose proof (tuples_fit p Hwf); pose proof (pw_bounds _ Hwf); lia).
  eapply returns_bind; [apply (repack_ok mem p (c_presorted c) Hwf Hmem); intros Hp; by apply Hs|]. simpl.
  intros q (Hwfq & Hsl & (Hsp & Hup & Hx) & Hlo).
  assert (Hlq : zlen (pd_linp q) = zlen (pd_linp p)) by (rewrite <- Hlen, <- Hsl; unfold slots, zlen; by rewrite length_map).
  assert (Hf : c_finalused c = zlen front) by (destruct Hfin as [[-> ?]|(? & ? & -> & _ & ->)]; [done|lia]).
  assert (Hk : zlen (pd_linp p) = zlen front + Z.of_nat k) by (rewrite Hfront, zlen_app; f_equal; unfold zlen; by rewrite length_replicate).
  assert (Hcut : (if negb (c_finalused c =? zlen (pd_linp p))
    then set_lower q (pd_lower q - sizeof_ItemIdData * (zlen (pd_linp p) - c_finalused c)) (take (Z.to_nat (c_finalused c)) (pd_linp q)) else q)
    = cut_linp q (zlen front)).
  { rewrite Hf. destruct (Z.eqb_spec (zlen front) (zlen (pd_linp p))) as [He|]; cbn [negb]; [rewrite He, <- Hlq; by rewrite cut_none|].
    unfold cut_linp. by rewrite Hlq. }
  assert (Hcount : (if negb (c_finalused c =? zlen (pd_linp p)) then c_nunused c - (zlen (pd_linp p) - c_finalused c) else c_nunused c) = unused front).
  { rewrite Hu, Hf, Hfront, unused_front, <- Hfront. destruct (Z.eqb_spec (zlen front) (zlen (pd_linp p))); cbn [negb]; lia. }
  rewrite Hcut, Hcount, (unused_slots p front Hwf) by (intros lp Hlp; rewrite Hfront; apply elem_of_app; by left).
  destruct (cut_unused p q front k Hwf Hwfq Hsl Hfront) as (Hwfc & Hslots & Hex & Hlast & Hsize).
  assert (Hend : last (slots (cut_linp q (zlen front))) <> Some Unused).
  { destruct Hfin as [[Hnil _]|(init & lp & ? & ? & _)]; [rewrite Hslots, Hnil; done|by eapply Hlast]. }
  rewrite <- Hslots.
  destruct (hint_set (cut_linp q (zlen front))) as [Hset Hclr].
  assert (Hpk : packed p (cut_linp q (zlen front))) by (split; [done|]; split; [|done]; rewrite Hsize, <- Hsl; done).
  unfold repaired. case_bool_decide as Hun; simpl; (split; [by apply set_flags_wf|]; split; [by exists k|]; split; [done|]; split; [done|]).
  - rewrite Hset. symmetry. by apply bool_decide_eq_true.
  - rewrite Hclr. symmetry. by apply bool_decide_eq_false.
Qed.

(** C23: Defragmenting a heap page.  PageRepairFragmentation of a well-formed page returns; the
    page is well formed, has its slots with their bytes and without the unused ones at the
    end, all free space lies between the line pointers and the tuples, the special space is
    as it was, and the hint bit says whether an unused slot is left. *)
Theorem page_repair_correct mem p :
  page_wf p -> zlen (slots p) <= MaxHeapTuplesPerPage -> zlen mem = BLCKSZ -> returns (PageRepairFragmentation mem p) (repaired p).
Proof. apply repair_ok. Qed.

(** ** PageTruncateLinePointerArray *)

Lemma unused_app l m : unused (l ++ m) = unused l + unused m.
Proof. unfold unused. by rewrite filter_app, zlen_app. Qed.

Lemma unused_exists l : existsb (fun lp => negb (ItemIdIsUsed lp)) l = (unused (rev l) >? 0).
Proof.
  induction l as [|lp l IH]; simpl; [done|]. rewrite IH, unused_app, unused_cons. unfold ItemIdIsUsed. change (unused []) with 0.
  assert (0 <= unused (rev l)) by apply zlen_nonneg. destruct (lp_flags lp =? LP_UNUSED); cbn [negb orb]; lia.
Qed.

Lemma truncate_counted rl : forall i m, truncate_scan rl i m true = (m, existsb (fun lp => negb (ItemIdIsUsed lp)) rl).
Proof. induction rl as [|lp rl IH]; intros i m; simpl; [done|]. destruct (negb (ItemIdIsUsed lp)); [done|]. by rewrite IH. Qed.

Lemma truncate_scan_ok rl : forall m,
  Forall (fun lp => lp_flags lp = LP_UNUSED -> lp = ItemIdUnused) rl ->
  exists k rl', rl = replicate k ItemIdUnused ++ rl' /\
    truncate_scan rl (zlen rl) m false = (m + Z.of_nat k, existsb (fun lp => negb (ItemIdIsUsed lp)) rl') /\
    (rl <> [] -> rl' <> []) /\ (zlen rl' <= 1 \/ exists lp tl, rl' = lp :: tl /\ lp_flags lp <> LP_UNUSED).
Proof.
  induction rl as [|lp rl IH]; intros m Hun.
  { exists 0%nat, []. simpl. split; [done|]. split; [f_equal; lia|]. split; [done|]. by left. }
  apply Forall_cons in Hun as [Hlp Hun]. destruct rl as [|lp2 rl].
  - exists 0%nat, [lp]. simpl. split; [done|]. split; [destruct (negb (ItemIdIsUsed lp)); f_equal; lia|]. split; [done|]. left. done.
  - remember (lp2 :: rl) as l eqn:El. cbn [truncate_scan]. rewrite zlen_cons. assert (0 < zlen l) by (rewrite El, zlen_cons; pose proof (zlen_nonneg rl); lia).
    replace (1 + zlen l >? FirstOffsetNumber) with true by (unfold FirstOffsetNumber; lia). cbn [negb andb]. replace (1 + zlen l - 1) with (zlen l) by lia.
    unfold ItemIdIsUsed at 1. destruct (Z.eqb_spec (lp_flags lp) LP_UNUSED) as [H0|H0]; cbn [negb].
    + destruct (IH (m + 1) Hun) as (k & rl' & -> & -> & Hne & Hcase). exists (S k), rl'. split; [by rewrite (Hlp H0)|].
      split; [f_equal; lia|]. split; [|done]. intros _. apply Hne. rewrite El. done.
    + exists 0%nat, (lp :: l). rewrite truncate_counted. split; [done|]. split; [|split; [done|right; by exists lp, l]].
      rewrite Z.add_0_r. f_equal. simpl. unfold ItemIdIsUsed at 2. by destruct (Z.eqb_spec (lp_flags lp) LP_UNUSED).
Qed.

(** VACUUM's truncation of the line pointer array.  PageTruncateLinePointerArray takes away
    unused slots at the end and nothing else, as many as there are, but never the last slot
    of the page, and leaves the hint bit right. *)
Theorem page_truncate_correct p :
  page_wf p ->
  let q := PageTruncateLinePointerArray p in
  page_wf q /\ (exists k, slots p = slots q ++ replicate k Unused) /\
  (zlen (slots q) <= 1 \/ last (slots q) <> Some Unused) /\ (slots p <> [] -> slots q <> []) /\
  PageHasFreeLinePointers q = bool_decide (Unused ∈ slots q).
Proof.
  intros Hwf q. destruct (truncate_scan_ok (rev (pd_linp p)) 0) as (k & rl' & Hrl & Hscan & Hne & Hcase).
  { apply Forall_forall. intros lp Hin%list_elem_of_In%in_rev%list_elem_of_In. apply list_elem_of_lookup_1 in Hin as [i Hi]. apply (pw_items _ Hwf _ _ Hi). }
  assert (Hrev : zlen (rev (pd_linp p)) = zlen (pd_linp p)) by (unfold zlen; by rewrite length_rev). rewrite Hrev in Hscan.
  set (front := rev rl'). assert (Hfront : pd_linp p = front ++ replicate k ItemIdUnused).
  { rewrite <- (rev_involutive (pd_linp p)), Hrl, rev_app_distr. f_equal. clear. induction k; [done|]. simpl. rewrite IHk. symmetry. apply replicate_cons_app. }
  assert (Hk : zlen (pd_linp p) = zlen front + Z.of_nat k) by (rewrite Hfront, zlen_app; f_equal; unfold zlen; by rewrite length_replicate).
  assert (Hq : q = if unused front >? 0 then PageSetHasFreeLinePointers (cut_linp p (zlen front)) else PageClearHasFreeLinePointers (cut_linp p (zlen front))).
  { unfold q, PageTruncateLinePointerArray. rewrite (max_offset_ok _ Hwf), Hscan, unused_exists, Z.add_0_l. fold front.
    assert (Hc : (if Z.of_nat k >? 0 then set_lower p (pd_lower p - sizeof_ItemIdData * Z.of_nat k) (take (Z.to_nat (zlen (pd_linp p) - Z.of_nat k)) (pd_linp p)) else p)
      = cut_linp p (zlen front)); [|by rewrite Hc].
    unfold cut_linp. replace (zlen (pd_linp p) - Z.of_nat k) with (zlen front) by lia. replace (zlen (pd_linp p) - zlen front) with (Z.of_nat k) by lia.
    destruct (Z.gtb_spec (Z.of_nat k) 0); [done|]. replace (Z.of_nat k) with 0 by lia. unfold set_lower. rewrite Z.mul_0_r, Z.sub_0_r, take_ge by (unfold zlen in *; lia). by destruct p. }
  destruct (cut_unused p p front k Hwf Hwf eq_refl Hfront) as (Hwfc & Hslots & Hex & Hlast & _).
  rewrite (unused_slots p front Hwf), <- Hslots in Hq by (intros lp Hlp; rewrite Hfront; apply elem_of_app; by left).
  destruct (hint_set (cut_linp p (zlen front))) as [Hset Hclr].
  assert (Hsq : slots q = slots (cut_linp p (zlen front))) by (rewrite Hq; by case_bool_decide).
  rewrite Hsq. split; [rewrite Hq; case_bool_decide; by apply set_flags_wf|]. split; [by exists k|]. split; [|split].
  - destruct Hcase as [Hle|(lp & tl & -> & Hn)]; [left|right; by apply (Hlast (rev tl) lp)].
    rewrite Hslots. unfold front, zlen in *. by rewrite length_map, length_rev.
  - rewrite Hslots. intros Hp Hnil%map_eq_nil. unfold front in Hnil. apply (f_equal (@rev _)) in Hnil. rewrite rev_involutive in Hnil. apply Hne; [|done].
    intros Hr. apply (f_equal (@rev _)) in Hr. rewrite rev_involutive in Hr. apply Hp. unfold slots. by rewrite Hr.
  - rewrite Hq at 1. case_bool_decide; [rewrite Hset|rewrite Hclr]; done.
Qed.

(** *** Witnesses *)

Lemma unuse_wf p i : page_wf p -> page_wf (set_linp p (<[i := ItemIdUnused]> (pd_linp p))).
Proof.
  intros Hwf. assert (Hl : zlen (<[i := ItemIdUnused]> (pd_linp p)) = zlen (pd_linp p)) by (unfold zlen; by rewrite length_insert).
  assert (Hlook : forall j lp, <[i := ItemIdUnused]> (pd_linp p) !! j = Some lp -> lp = ItemIdUnused \/ pd_linp p !! j = Some lp).
  { intros j lp [(_ & <- & _)|[_ H]]%list_lookup_insert_Some; [by left|by right]. }
  split; cbn [pd_lower pd_upper pd_special pd_linp pd_bytes set_linp set_lower].
  - unfold linp_end. cbn [pd_linp set_linp set_lower]. rewrite Hl. apply (pw_lower _ Hwf).
  - apply (pw_bounds _ Hwf).
  - apply (pw_aligned _ Hwf).
  - apply (pw_bytes _ Hwf).
  - intros j lp [->|H]%Hlook; [by split|by apply (pw_items _ Hwf _ _ H)].
  - intros j k a b Hjk Ha Hb. destruct (Hlook _ _ Ha) as [->|Ha']; [by intros ?|]. destruct (Hlook _ _ Hb) as [->|Hb']; [by intros ? ?|].
    by apply (pw_apart _ Hwf j k).
Qed.

(** Two of three tuples were removed, the first and the last. *)
Definition gappy_page : PageData :=
  let p := set_linp sample_page (<[0%nat := ItemIdUnused]> (pd_linp sample_page)) in set_linp p (<[2%nat := ItemIdUnused]> (pd_linp p)).
Lemma gappy_page_wf : page_wf gappy_page.
Proof. apply unuse_wf, unuse_wf, sample_page_wf. Qed.
Lemma scratch_len : zlen (zrep BLCKSZ 0) = BLCKSZ.
Proof. vm_compute. reflexivity. Qed.

Lemma page_repair_correct_witness :
  exists q, PageRepairFragmentation (zrep BLCKSZ 0) gappy_page = Ok q /\ repaired gappy_page q /\ slots q = [Unused; Stored LP_NORMAL [66; 66; 66]].
Proof.
  pose proof (page_repair_correct (zrep BLCKSZ 0) gappy_page gappy_page_wf ltac:(vm_compute; discriminate) scratch_len) as H.
  apply returns_eq in H as (q & Heq & Hr). exists q. split; [exact Heq|]. split; [exact Hr|].
  assert (E : (q ← PageRepairFragmentation (zrep BLCKSZ 0) gappy_page; Ok (slots q)) = Ok [Unused; Stored LP_NORMAL [66; 66; 66]]) by (vm_compute; reflexivity).
  rewrite Heq in E. cbn [mbind res_bind] in E. injection E as E. exact E.
Defined.

Lemma page_truncate_correct_witness :
  page_wf (PageTruncateLinePointerArray gappy_page) /\ slots (PageTruncateLinePointerArray gappy_page) = [Unused; Stored LP_NORMAL [66; 66; 66]].
Proof.
  split; [exact (proj1 (page_truncate_correct gappy_page gappy_page_wf))|vm_compute; reflexivity].
Defined.
