(* ===== verification/PageIndex.v ===== *)
(** Index pages (bufpage.c): PageIndexTupleDelete, PageIndexTupleDeleteNoCompact,
    PageIndexTupleOverwrite and PageIndexMultiDelete.

    The first three make room or take it away by moving the tuples that lie below one tuple,
    [shift_lp] and [shift_bytes]; what they do to the list of slots is deletion,
    replacement by an unused slot and replacement by the new tuple.  PageIndexMultiDelete
    does to the slots what deleting one after another does. *)

From Stdlib Require Import Sorted.
From S2P Require Import Prelude Varatt Rle Pglz PglzHist PglzItems PglzCodec ToastCompression Oids ToastStore Page PageOk PageOps PageCompact.

(** ** Moving the tuples below a tuple *)

Definition shift_lp (offset d : Z) (lp : ItemIdData) : ItemIdData :=
  if ItemIdHasStorage lp && (lp_off lp <=? offset) then set_lp_off lp (lp_off lp + d) else lp.
Definition shift_bytes (b : list Z) (upper offset d : Z) : list Z := wrote b (upper + d) (zslice b upper (offset - upper)).

Section shift.
Context (p : PageData) (i0 : nat) (tup : ItemIdData) (d : Z).
Context (Hwf : page_wf p) (Htup : pd_linp p !! i0 = Some tup) (Hst : lp_len tup <> 0).
Context (Hd : d <= MAXALIGN (lp_len tup)) (Hd8 : d mod 8 = 0) (Hroom : 0 <= pd_upper p + d).
Let offset := lp_off tup.
Let new := shift_bytes (pd_bytes p) (pd_upper p) offset d.

Lemma shift_range : 0 <= pd_upper p <= offset /\ offset + MAXALIGN (lp_len tup) <= pd_special p <= 8192 /\ 0 < MAXALIGN (lp_len tup) /\ offset mod 8 = 0.
Proof using Hwf Htup Hst Hd Hd8 Hroom.
  pose proof (storage_facts _ _ _ Hwf Htup Hst). pose proof (linp_end_nonneg p). unfold offset, BLCKSZ in *. lia.
Qed.

Lemma shift_len : zlen new = BLCKSZ.
Proof using Hwf Htup Hst Hd Hd8 Hroom.
  pose proof shift_range. pose proof (pw_bytes _ Hwf) as Hb. unfold new, shift_bytes. rewrite zlen_wrote; [done|lia|].
  rewrite zlen_zslice; unfold BLCKSZ in *; lia.
Qed.

Lemma shift_rd x :
  rd new x = if (pd_upper p + d <=? x) && (x <? offset + d) then rd (pd_bytes p) (x - d) else rd (pd_bytes p) x.
Proof using Hwf Htup Hst Hd Hd8 Hroom.
  pose proof shift_range. pose proof (pw_bytes _ Hwf) as Hb. unfold BLCKSZ in Hb. unfold new, shift_bytes.
  assert (Hz : zlen (zslice (pd_bytes p) (pd_upper p) (offset - pd_upper p)) = offset - pd_upper p) by (rewrite zlen_zslice; lia).
  rewrite rd_wrote by lia. rewrite Hz. replace (pd_upper p + d + (offset - pd_upper p)) with (offset + d) by lia.
  destruct (Z.leb_spec (pd_upper p + d) x), (Z.ltb_spec x (offset + d)); cbn [andb]; try done.
  rewrite rd_zslice by lia. f_equal. lia.
Qed.

(** Another tuple lies below the tuple, and moves, or above, and stays. *)
Lemma shift_cases i lp :
  pd_linp p !! i = Some lp -> i <> i0 -> lp_len lp <> 0 ->
  lp_end lp <= offset /\ shift_lp offset d lp = mkItemId (lp_off lp + d) (lp_flags lp) (lp_len lp) \/
  offset + MAXALIGN (lp_len tup) <= lp_off lp /\ shift_lp offset d lp = lp.
Proof using Hwf Htup Hst Hd Hd8 Hroom.
  intros Hl Hi Hne. pose proof shift_range. pose proof (storage_facts _ _ _ Hwf Hl Hne).
  pose proof (pw_apart _ Hwf _ _ _ _ Hi Hl Htup Hne Hst) as Hap. unfold shift_lp, ItemIdHasStorage, lp_end, offset, BLCKSZ in *.
  destruct (Z.eqb_spec (lp_len lp) 0); [done|]. cbn [negb andb]. destruct (Z.leb_spec (lp_off lp) (lp_off tup)).
  - left. split; [lia|]. unfold set_lp_off. rewrite Z.mod_small; [done|]. lia.
  - right. split; [lia|done].
Qed.

Lemma shift_bare lp : lp_len lp = 0 -> shift_lp offset d lp = lp.
Proof using. intros H0. unfold shift_lp, ItemIdHasStorage. by rewrite H0. Qed.

Lemma shift_slot i lp : pd_linp p !! i = Some lp -> i <> i0 -> slot_of new (shift_lp offset d lp) = slot_of (pd_bytes p) lp.
Proof using Hwf Htup Hst Hd Hd8 Hroom.
  intros Hl Hi. destruct (Z.eq_dec (lp_len lp) 0) as [H0|Hne]; [rewrite shift_bare by done; unfold slot_of, ItemIdHasStorage; by rewrite H0|].
  pose proof (storage_facts _ _ _ Hwf Hl Hne). pose proof shift_range. pose proof (pw_bytes _ Hwf) as Hb. pose proof shift_len as Hn.
  destruct (shift_cases i lp Hl Hi Hne) as [[He ->]|[He ->]]; unfold lp_end in He.
  - unfold slot_of, ItemIdHasStorage. simpl. destruct (Z.eqb_spec (lp_len lp) 0); [done|]. cbn [negb]. f_equal.
    apply zslice_rd; try (unfold BLCKSZ in *; lia). intros x Hx. rewrite shift_rd. replace (_ && _) with true by lia. f_equal. lia.
  - apply slot_same. intros _. split_and!; try (unfold BLCKSZ in *; lia). intros x Hx. rewrite shift_rd.
    by replace (_ && _) with false by lia.
Qed.

Lemma shift_wf i lp : pd_linp p !! i = Some lp -> i <> i0 -> lp_wf (pd_upper p + d) (pd_special p) (shift_lp offset d lp).
Proof using Hwf Htup Hst Hd Hd8 Hroom.
  intros Hl Hi. pose proof (pw_items _ Hwf _ _ Hl) as [H0 Hu Hs]. destruct (Z.eq_dec (lp_len lp) 0) as [Hz|Hne].
  { rewrite shift_bare by done. by split. }
  pose proof (storage_facts _ _ _ Hwf Hl Hne). pose proof shift_range. specialize (Hs Hne).
  destruct (shift_cases i lp Hl Hi Hne) as [[He ->]|[He ->]].
  - split; simpl; [lia| |].
    + intros Hf. rewrite (Hu Hf) in Hne. done.
    + intros _. unfold lp_end in *. simpl. lia.
  - split; try done. intros _. lia.
Qed.

Lemma shift_apart i j a b :
  i <> j -> i <> i0 -> j <> i0 -> pd_linp p !! i = Some a -> pd_linp p !! j = Some b ->
  lp_apart (shift_lp offset d a) (shift_lp offset d b).
Proof using Hwf Htup Hst Hd Hd8 Hroom.
  intros Hij Hi Hj Ha Hb. assert (Hlen : forall lp, lp_len (shift_lp offset d lp) = lp_len lp).
  { intros lp. unfold shift_lp. by destruct (_ && _). }
  intros Hna Hnb. rewrite Hlen in Hna, Hnb. pose proof (pw_apart _ Hwf _ _ _ _ Hij Ha Hb Hna Hnb) as Hap. pose proof shift_range.
  destruct (shift_cases i a Ha Hi Hna) as [[Hea ->]|[Hea ->]], (shift_cases j b Hb Hj Hnb) as [[Heb ->]|[Heb ->]];
    unfold lp_end in *; simpl; lia.
Qed.

(** A page whose line pointers are those of [p] but the tuple's, moved, and perhaps one more
    that takes the tuple's place *)
Lemma shifted_wf q (f : nat -> nat) (fresh : ItemIdData) (at_ : nat) :
  pd_lower q = linp_end q -> linp_end q <= pd_upper q -> pd_upper q = pd_upper p + d -> pd_special q = pd_special p ->
  zlen (pd_bytes q) = BLCKSZ -> (forall i j, f i = f j -> i = j) ->
  fresh = ItemIdUnused \/ lp_flags fresh <> LP_UNUSED /\ lp_off fresh = offset + d /\ 0 < lp_len fresh /\ MAXALIGN (lp_len fresh) = MAXALIGN (lp_len tup) - d ->
  (forall i lp', pd_linp q !! i = Some lp' -> i = at_ /\ lp' = fresh \/
     exists lp, pd_linp p !! f i = Some lp /\ f i <> i0 /\ lp' = shift_lp offset d lp) ->
  page_wf q.
Proof using Hwf Htup Hst Hd Hd8 Hroom.
  intros Hlo Hle Hup Hsp Hb Hinj Hfresh Hq. pose proof shift_range. pose proof (pw_bounds _ Hwf). pose proof (pw_aligned _ Hwf).
  assert (Hlen : forall lp, lp_len (shift_lp offset d lp) = lp_len lp) by (intros lp; unfold shift_lp; by destruct (_ && _)).
  assert (Hnew : forall i lp, pd_linp p !! i = Some lp -> i <> i0 -> lp_apart fresh (shift_lp offset d lp)).
  { intros i lp Hl Hi Hf Hn. destruct Hfresh as [->|(_ & Ho & _ & Hm)]; [done|]. rewrite Hlen in Hn.
    destruct (shift_cases i lp Hl Hi Hn) as [[He ->]|[He ->]]; unfold lp_end in *; simpl; lia. }
  split; try done.
  - lia.
  - lia.
  - intros i lp' [[_ ->]|(lp & Hl & Hi & ->)]%Hq; [|rewrite Hup, Hsp; by eapply shift_wf].
    destruct Hfresh as [->|(Hf & Ho & Hp & Hm)]; [by split|]. split; [lia|done|]. intros _. unfold lp_end. lia.
  - intros i j a b Hij [[-> ->]|(la & Hla & Hi & ->)]%Hq [[-> ->]|(lb & Hlb & Hj & ->)]%Hq.
    + done.
    + by eapply Hnew.
    + intros Ha Hf. destruct (Hnew _ _ Hla Hi Hf Ha); [by right|by left].
    + apply (shift_apart (f i) (f j)); try done. intros He. by apply Hij, Hinj.
Qed.
End shift.

Lemma index_item_ok p n tup :
  page_wf p -> 1 <= n -> pd_linp p !! Z.to_nat (n - 1) = Some tup -> lp_len tup <> 0 -> index_item p n = Ok tup.
Proof.
  intros Hwf Hn Htup Hst. unfold index_item. destruct (pointers_ok _ Hwf) as [_ ->]. rewrite (max_offset_ok _ Hwf).
  pose proof (lookup_lt_Some _ _ _ Htup) as Hlt. pose proof (storage_facts _ _ _ Hwf Htup Hst).
  replace ((n <=? 0) || _) with false by (unfold zlen; lia). unfold PageGetItemId. replace (1 <=? n) with true by lia. rewrite Htup. bind.
  rewrite maxalign_fix, Z.eqb_refl by lia. replace ((lp_off tup <? pd_upper p) || _ || _) with false by lia. done.
Qed.

Lemma move_shift q offset d :
  zlen (pd_bytes q) = BLCKSZ -> linp_end q <= pd_upper q -> linp_end q <= pd_upper q + d -> pd_upper q <= offset <= BLCKSZ -> offset + d <= BLCKSZ ->
  page_move q (pd_upper q + d) (pd_upper q) (offset - pd_upper q) = Ok (set_bytes q (shift_bytes (pd_bytes q) (pd_upper q) offset d)).
Proof. intros Hb H1 H2 H3 H4. rewrite page_move_ok by lia. done. Qed.

Lemma shift_data_ok q offset d :
  zlen (pd_bytes q) = BLCKSZ -> linp_end q <= pd_upper q -> 0 <= d -> pd_upper q <= offset -> offset + d <= BLCKSZ ->
  shift_data q offset d = Ok (set_bytes q (shift_bytes (pd_bytes q) (pd_upper q) offset d)).
Proof.
  intros Hb H1 H2 H3 H4. unfold shift_data. destruct (Z.gtb_spec offset (pd_upper q)) as [|He]; [apply move_shift; lia|].
  unfold shift_bytes, wrote, zslice. replace (offset - pd_upper q) with 0 by lia. simpl. rewrite Z.add_0_r, take_drop. by destruct q.
Qed.

(** ** Deleting a tuple *)

(** An index page: every line pointer has a tuple *)
Definition index_page (p : PageData) : Prop := page_wf p /\ Forall (fun lp => lp_len lp <> 0) (pd_linp p).

Lemma skip_index (i0 i : nat) (l : list ItemIdData) :
  delete i0 l !! i = l !! (if decide (i < i0)%nat then i else S i).
Proof. case_decide; [by apply list_lookup_delete_lt|apply list_lookup_delete_ge; lia]. Qed.

Lemma slots_length p : zlen (slots p) = zlen (pd_linp p).
Proof. unfold slots, zlen. by rewrite length_map. Qed.

Lemma slot_at p i s : slots p !! i = Some s -> exists lp, pd_linp p !! i = Some lp /\ s = slot_of (pd_bytes p) lp.
Proof. unfold slots. rewrite list_lookup_fmap. by intros (lp & Hl & ->)%fmap_Some_1; exists lp. Qed.

(** The slot of a tuple, with the size of the tuple *)
Lemma stored_at p i fl data :
  page_wf p -> slots p !! i = Some (Stored fl data) ->
  exists lp, pd_linp p !! i = Some lp /\ lp_len lp = zlen data /\ lp_len lp <> 0 /\ lp_flags lp = fl.
Proof.
  intros Hwf (lp & Hl & Hs)%slot_at. exists lp. unfold slot_of, ItemIdHasStorage in Hs. destruct (Z.eqb_spec (lp_len lp) 0) as [|Hne]; [done|].
  cbn [negb] in Hs. injection Hs as -> ->. pose proof (storage_facts _ _ _ Hwf Hl Hne). pose proof (linp_end_nonneg p).
  split_and!; try done. rewrite zlen_zslice; [done|..]; rewrite ?(pw_bytes _ Hwf); lia.
Qed.

(** What PageIndexTupleDelete leaves *)
Definition deleted (p : PageData) (i : nat) (tup : ItemIdData) : PageData :=
  let size := MAXALIGN (lp_len tup) in
  set_upper (set_lower (set_bytes p (shift_bytes (pd_bytes p) (pd_upper p) (lp_off tup) size)) (pd_lower p - sizeof_ItemIdData)
    (map (shift_lp (lp_off tup) size) (delete i (pd_linp p)))) (pd_upper p + size).

Lemma index_delete_ok p n tup :
  index_page p -> 1 <= n -> pd_linp p !! Z.to_nat (n - 1) = Some tup ->
  PageIndexTupleDelete p n = Ok (deleted p (Z.to_nat (n - 1)) tup).
Proof.
  intros [Hwf Hall] Hn Htup. assert (Hst : lp_len tup <> 0) by (eapply (Forall_lookup_1 _ _ _ _ Hall Htup)).
  unfold PageIndexTupleDelete. rewrite (index_item_ok p n tup Hwf Hn Htup Hst). bind. set (i := Z.to_nat (n - 1)) in *.
  rewrite <- delete_take_drop. pose proof (storage_facts _ _ _ Hwf Htup Hst) as Hs. pose proof (lookup_lt_Some _ _ _ Htup) as Hlt.
  assert (Hlen : zlen (delete i (pd_linp p)) = zlen (pd_linp p) - 1) by (unfold zlen; rewrite length_delete; [lia|by eexists]).
  rewrite shift_data_ok; cbn [pd_bytes pd_upper set_linp set_lower];
    [|apply (pw_bytes _ Hwf)|unfold linp_end, sizeof_ItemIdData in *; cbn [pd_linp set_linp set_lower]; lia|lia|lia|lia].
  bind. cbn [pd_upper pd_linp set_bytes set_linp set_lower set_upper pd_lower]. unfold BLCKSZ in *. pose proof (linp_end_nonneg p).
  rewrite Z.mod_small by lia. unfold deleted. f_equal.
  set (r := set_lower _ _ _). assert (Hmap : map (fun ii => if lp_off ii <=? lp_off tup then set_lp_off ii (lp_off ii + MAXALIGN (lp_len tup)) else ii) (delete i (pd_linp p))
    = map (shift_lp (lp_off tup) (MAXALIGN (lp_len tup))) (delete i (pd_linp p))).
  { apply list_fmap_ext. intros j lp Hj. unfold shift_lp, ItemIdHasStorage. rewrite skip_index in Hj.
    pose proof (Forall_lookup_1 _ _ _ _ Hall Hj) as Hne. simpl in Hne. by destruct (Z.eqb_spec (lp_len lp) 0). }
  destruct (PageIsEmpty r) eqn:He; [|unfold r; cbn [pd_linp set_lower]; rewrite Hmap; done].
  assert (Hnil : delete i (pd_linp p) = []).
  { unfold PageIsEmpty, r in He. cbn [pd_lower set_lower] in He. rewrite (pw_lower _ Hwf) in He. unfold linp_end, sizeof_ItemIdData in He.
    destruct (delete i (pd_linp p)) as [|? l]; [done|]. rewrite zlen_cons in Hlen. pose proof (zlen_nonneg l). lia. }
  unfold r. rewrite Hnil. done.
Qed.

Lemma map_delete {A B} (g : A -> B) i l : map g (delete i l) = delete i (map g l).
Proof. revert i. induction l as [|x l IH]; intros [|i]; simpl; [done..|]. f_equal. apply IH. Qed.

Lemma deleted_slots p i tup :
  index_page p -> pd_linp p !! i = Some tup -> index_page (deleted p i tup) /\ slots (deleted p i tup) = delete i (slots p).
Proof.
  intros [Hwf Hall] Htup. assert (Hst : lp_len tup <> 0) by (eapply (Forall_lookup_1 _ _ _ _ Hall Htup)).
  pose proof (storage_facts _ _ _ Hwf Htup Hst) as Hs. pose proof (lookup_lt_Some _ _ _ Htup) as Hlt. pose proof (linp_end_nonneg p).
  assert (Hlen : zlen (map (shift_lp (lp_off tup) (MAXALIGN (lp_len tup))) (delete i (pd_linp p))) = zlen (pd_linp p) - 1).
  { unfold zlen. rewrite length_map, length_delete; [lia|by eexists]. }
  assert (Hl : pd_lower (deleted p i tup) = linp_end (deleted p i tup)).
  { unfold deleted, linp_end. cbn [pd_lower pd_linp set_upper set_lower]. rewrite (pw_lower _ Hwf), Hlen. unfold linp_end, sizeof_ItemIdData. lia. }
  split; [split|].
  - apply (shifted_wf p i tup (MAXALIGN (lp_len tup)) Hwf Htup Hst ltac:(lia) ltac:(lia) ltac:(lia) _
      (fun j => if decide (j < i)%nat then j else S j) ItemIdUnused 0%nat); try done.
    + rewrite <- Hl. unfold deleted. cbn [pd_lower pd_upper set_upper set_lower]. pose proof (pw_bounds _ Hwf). unfold sizeof_ItemIdData. lia.
    + unfold deleted. cbn [pd_bytes set_upper set_lower set_bytes]. eapply shift_len; try done; lia.
    + intros a b. repeat case_decide; lia.
    + by left.
    + intros j lp'. unfold deleted. cbn [pd_linp set_upper set_lower]. rewrite list_lookup_fmap. intros (lp & Hj & ->)%fmap_Some_1. right.
      rewrite skip_index in Hj. exists lp. split; [done|]. split; [|done]. case_decide; lia.
  - unfold deleted. cbn [pd_linp set_upper set_lower]. apply Forall_forall. intros lp' (lp & -> & Hin)%list_elem_of_fmap.
    apply list_elem_of_lookup_1 in Hin as [j Hj]. rewrite skip_index in Hj. pose proof (Forall_lookup_1 _ _ _ _ Hall Hj). unfold shift_lp. by destruct (_ && _).
  - unfold slots, deleted. cbn [pd_linp pd_bytes set_upper set_lower set_bytes]. rewrite map_map, <- map_delete.
    apply list_fmap_ext. intros j lp Hj. rewrite skip_index in Hj.
    eapply (shift_slot p i tup (MAXALIGN (lp_len tup)) Hwf Htup Hst ltac:(lia) ltac:(lia) ltac:(lia)); [exact Hj|]. case_decide; lia.
Qed.

Lemma stored_size_delete ss i s : ss !! i = Some s -> stored_size (delete i ss) = stored_size ss - slot_size s.
Proof.
  revert i. induction ss as [|x ss IH]; intros [|i]; simpl; [done..| |].
  - intros [= ->]. lia.
  - intros Hs. rewrite (IH _ Hs). lia.
Qed.

Lemma packed_trans p q r : packed p q -> packed q r -> packed p r.
Proof. intros (H1 & _ & H3) (H4 & H5 & H6). split_and!; [congruence|done|]. intros x Hx. rewrite H6 by lia. by apply H3. Qed.

Lemma packed_self p q : packed p q -> packed q q.
Proof. intros (H1 & H2 & H3). by split_and!. Qed.

Lemma deleted_packed p i tup : index_page p -> pd_linp p !! i = Some tup -> packed p p -> packed p (deleted p i tup).
Proof.
  intros Hip Htup (_ & Hup & _). destruct (deleted_slots p i tup Hip Htup) as [_ Hsl]. destruct Hip as [Hwf Hall].
  assert (Hst : lp_len tup <> 0) by (eapply (Forall_lookup_1 _ _ _ _ Hall Htup)). pose proof (storage_facts _ _ _ Hwf Htup Hst). pose proof (linp_end_nonneg p).
  split; [done|]. rewrite Hsl. split.
  - rewrite (stored_size_delete _ _ (slot_of (pd_bytes p) tup)) by (unfold slots; by rewrite list_lookup_fmap, Htup).
    unfold slot_of, ItemIdHasStorage. destruct (Z.eqb_spec (lp_len tup) 0); [done|]. simpl.
    rewrite zlen_zslice by (rewrite ?(pw_bytes _ Hwf); lia). lia.
  - intros x Hx. unfold deleted. cbn [pd_bytes set_upper set_lower set_bytes].
    rewrite (shift_rd p i tup (MAXALIGN (lp_len tup)) Hwf Htup Hst ltac:(lia) ltac:(lia) ltac:(lia)). by replace (_ && _) with false by lia.
Qed.

(** ** Deleting tuples *)

(** The slots that are left when those numbered [ns] are taken out, the last one first *)
Definition without {A} (ns : list Z) (l : list A) : list A := foldr (fun n l => delete (Z.to_nat (n - 1)) l) l ns.

(** Item numbers in item number order, as the callers have to give them *)
Definition item_numbers (top : Z) (ns : list Z) : Prop := StronglySorted Z.lt ns /\ Forall (fun n => 1 <= n <= top) ns.

Lemma item_numbers_room top n ns : item_numbers top (n :: ns) -> zlen ns <= top - n.
Proof.
  revert n. induction ns as [|m ns IH]; intros n [Hs Hr]; [rewrite zlen_nil; apply Forall_cons in Hr as [? _]; lia|].
  apply StronglySorted_inv in Hs as [Hs Hlt]. apply Forall_cons in Hr as [_ Hr]. apply Forall_cons in Hlt as [Hlt _].
  specialize (IH m (conj Hs Hr)). rewrite zlen_cons. lia.
Qed.

Lemma item_numbers_tail top n ns : item_numbers top (n :: ns) -> item_numbers top ns.
Proof. intros [Hs Hr]. apply StronglySorted_inv in Hs as [Hs _]. by apply Forall_cons in Hr as [_ Hr]. Qed.

Lemma without_length {A} top ns (l : list A) : item_numbers top ns -> top = zlen l -> zlen (without ns l) = zlen l - zlen ns.
Proof.
  intros Hn Ht. induction ns as [|n ns IH]; simpl; [zl|]. pose proof (item_numbers_room _ _ _ Hn). specialize (IH (item_numbers_tail _ _ _ Hn)).
  destruct Hn as [_ Hr]. apply Forall_cons in Hr as [Hr _]. fold (without ns l). unfold zlen in *. rewrite length_delete; simpl; [lia|].
  apply lookup_lt_is_Some. lia.
Qed.

Lemma delete_each_app p l m : delete_each p (l ++ m) = (q ← delete_each p l; delete_each q m).
Proof. revert p. induction l as [|n l IH]; intros p; simpl; [done|]. destruct (PageIndexTupleDelete p n); simpl; [apply IH|done..]. Qed.

Lemma delete_each_ok p ns :
  index_page p -> item_numbers (zlen (slots p)) ns ->
  exists q, delete_each p (rev ns) = Ok q /\ index_page q /\ slots q = without ns (slots p) /\ (packed p p -> packed p q).
Proof.
  intros Hip. induction ns as [|n ns IH]; intros Hn; simpl; [by exists p|].
  destruct (IH (item_numbers_tail _ _ _ Hn)) as (q & Hq & Hiq & Hsl & Hpk). rewrite delete_each_app, Hq. bind.
  pose proof (without_length _ ns (slots p) (item_numbers_tail _ _ _ Hn) eq_refl) as Hlen. pose proof (item_numbers_room _ _ _ Hn).
  destruct Hn as [_ Hr]. apply Forall_cons in Hr as [Hr _].
  destruct (lookup_lt_is_Some_2 (pd_linp q) (Z.to_nat (n - 1))) as [tup Htup].
  { rewrite <- Hsl in Hlen. rewrite slots_length in Hlen. unfold zlen in *. lia. }
  simpl. rewrite (index_delete_ok q n tup Hiq ltac:(lia) Htup). bind. destruct (deleted_slots q _ tup Hiq Htup) as [Hid Hsd].
  eexists. split; [done|]. split; [done|]. split; [by rewrite Hsd, Hsl|].
  intros Hp. eapply packed_trans; [by apply Hpk|]. apply deleted_packed; try done. by eapply packed_self, Hpk.
Qed.

(** The scan of PageIndexMultiDelete *)
Fixpoint kept (linp : list ItemIdData) (offnum : Z) (itemnos : list Z) : list ItemIdData :=
  match linp with
  | [] => []
  | lp :: linp =>
      if match itemnos with n :: _ => offnum =? n | [] => false end then kept linp (offnum + 1) (tail itemnos)
      else lp :: kept linp (offnum + 1) itemnos
  end.

Lemma delete_past {A} (x : A) (l : list A) off ns :
  Forall (fun n => off < n) ns ->
  foldr (fun n l => delete (Z.to_nat (n - off)) l) (x :: l) ns = x :: foldr (fun n l => delete (Z.to_nat (n - (off + 1))) l) l ns.
Proof.
  induction 1 as [|n ns Hn _ IH]; simpl; [done|]. rewrite IH. by replace (Z.to_nat (n - off)) with (S (Z.to_nat (n - (off + 1)))) by lia.
Qed.

Lemma kept_without linp : forall off ns,
  StronglySorted Z.lt ns -> Forall (fun n => off <= n) ns -> kept linp off ns = foldr (fun n l => delete (Z.to_nat (n - off)) l) linp ns.
Proof.
  induction linp as [|lp linp IH]; intros off ns Hs Hle; simpl.
  { induction ns as [|n ns IHn]; simpl; [done|]. apply StronglySorted_inv in Hs as [Hs _]. apply Forall_cons in Hle as [_ Hle].
    by rewrite <- (IHn Hs Hle). }
  destruct ns as [|n ns]; [simpl; f_equal; by apply IH|]. assert (Hs' := Hs). apply StronglySorted_inv in Hs as [Hs Hlt]. assert (Hle' := Hle).
  apply Forall_cons in Hle as [Hn Hle]. destruct (Z.eqb_spec off n) as [->|Hne].
  - cbn [tail foldr]. rewrite delete_past by done. rewrite Z.sub_diag. simpl. apply IH; [done|]. eapply Forall_impl; [exact Hlt|]. simpl. lia.
  - rewrite delete_past by (constructor; [lia|eapply Forall_impl; [exact Hlt|]; simpl; lia]). f_equal. apply IH; [done|].
    constructor; [lia|]. eapply Forall_impl; [exact Hlt|]. simpl. lia.
Qed.

Lemma keep_items_ok p linp : forall off ns keep base last sorted total,
  page_wf p -> Forall (fun lp => lp_len lp <> 0 /\ lp_wf (pd_upper p) (pd_special p) lp) linp ->
  StronglySorted Z.lt ns -> Forall (fun n => off <= n < off + zlen linp) ns -> zlen keep + zlen linp <= MaxIndexTuplesPerPage ->
  let l := kept linp off ns in
  exists sorted', keep_items p linp off ns keep base last sorted total =
      Ok ([], rev l ++ keep, rev (compacts l (zlen keep)) ++ base, sorted', total + item_sum (compacts l (zlen keep))) /\
    (sorted' = true -> sorted = true /\ falling last (compacts l (zlen keep))).
Proof.
  induction linp as [|lp linp IH]; intros off ns keep base last sorted total Hwf Hall Hs Hr Hmax l.
  { exists sorted. simpl. destruct ns as [|n ns]; [by rewrite Z.add_0_r|]. apply Forall_cons in Hr as [Hr _]. rewrite zlen_nil in Hr. lia. }
  apply Forall_cons in Hall as [[Hne [H0 _ Hst]] Hall]. specialize (Hst Hne). unfold lp_end in Hst. pose proof (maxalign_bounds (lp_len lp)) as [Hal _].
  rewrite zlen_cons in Hr, Hmax. pose proof (zlen_nonneg linp). subst l. cbn [keep_items kept]. rewrite maxalign_fix, Z.eqb_refl by lia.
  replace ((lp_off lp <? pd_upper p) || _ || _) with false by lia.
  assert (Hnext : forall ns', StronglySorted Z.lt ns' -> Forall (fun n => off < n) ns' -> Forall (fun n => off <= n < off + (1 + zlen linp)) ns' ->
    Forall (fun n => off + 1 <= n < off + 1 + zlen linp) ns').
  { intros ns' _ Ha Hb. rewrite Forall_forall in Ha. rewrite Forall_forall in Hb. apply Forall_forall. intros n Hn. specialize (Ha n Hn). specialize (Hb n Hn). lia. }
  destruct (match ns with n :: _ => off =? n | [] => false end) eqn:Htest.
  - destruct ns as [|n ns]; [done|]. apply Z.eqb_eq in Htest as <-. apply StronglySorted_inv in Hs as [Hs Hlt]. apply Forall_cons in Hr as [_ Hr].
    cbn [tail]. apply IH; try done; [by apply Hnext|lia].
  - replace (zlen keep >=? MaxIndexTuplesPerPage) with false by lia.
    assert (Hgt : Forall (fun n => off < n) ns).
    { destruct ns as [|n ns]; [done|]. apply StronglySorted_inv in Hs as [Hs Hlt]. apply Forall_cons in Hr as [Hn _].
      constructor; [lia|]. eapply Forall_impl; [exact Hlt|]. simpl. lia. }
    edestruct (IH (off + 1) ns (lp :: keep)) as (sorted' & -> & Hsort); try done; [by apply Hnext|rewrite zlen_cons; lia|].
    exists sorted'. rewrite zlen_cons in *. simpl. unfold ItemIdHasStorage. destruct (Z.eqb_spec (lp_len lp) 0); [done|]. simpl.
    replace (zlen keep + 1) with (1 + zlen keep) by lia. rewrite <- !app_assoc. split; [do 2 f_equal; lia|].
    intros Ht. destruct (Hsort Ht) as [Q1 Q2]. destruct (Z.gtb_spec last (lp_off lp)); [|done]. split_and!; try done; lia.
Qed.

(** The page with some of its line pointers *)
Lemma without_page p ns :
  index_page p -> item_numbers (zlen (slots p)) ns ->
  let q := set_lower p (SizeOfPageHeaderData + zlen (without ns (pd_linp p)) * sizeof_ItemIdData) (without ns (pd_linp p)) in
  index_page q /\ slots q = without ns (slots p).
Proof.
  intros [Hwf Hall] Hn q. rewrite slots_length in Hn. pose proof (without_length _ ns (pd_linp p) Hn eq_refl) as Hlen. pose proof (zlen_nonneg ns) as Hz0.
  assert (Hsub : (forall i lp, without ns (pd_linp p) !! i = Some lp -> lp_wf (pd_upper p) (pd_special p) lp /\ lp_len lp <> 0) /\
    forall i j a b, i <> j -> without ns (pd_linp p) !! i = Some a -> without ns (pd_linp p) !! j = Some b -> lp_apart a b).
  { clear q Hn Hlen Hz0. induction ns as [|n ns [IH1 IH2]]; simpl.
    - split; [|apply (pw_apart _ Hwf)]. intros i lp Hl. split; [by apply (pw_items _ Hwf _ _ Hl)|by apply (Forall_lookup_1 _ _ _ _ Hall Hl)].
    - fold (without ns (pd_linp p)). split; [intros i lp; rewrite skip_index; apply IH1|].
      intros i j a b Hij. rewrite !skip_index. apply IH2. repeat case_decide; lia. }
  destruct Hsub as [H1 H2]. pose proof (pw_bounds _ Hwf). pose proof (pw_lower _ Hwf). split; [split; [split|]|]; unfold q; cbn [pd_lower pd_upper pd_special pd_linp pd_bytes set_lower].
  - unfold linp_end. cbn [pd_linp set_lower]. lia.
  - unfold linp_end, sizeof_ItemIdData in *. lia.
  - apply (pw_aligned _ Hwf).
  - apply (pw_bytes _ Hwf).
  - intros i lp Hl. by apply (H1 i lp).
  - done.
  - apply Forall_forall. intros lp [i Hi]%list_elem_of_lookup_1. by apply (H1 i lp).
  - unfold slots. cbn [pd_linp pd_bytes set_lower]. clear. induction ns as [|n ns IH]; [done|]. simpl. rewrite map_delete. f_equal. apply IH.
Qed.

Lemma storage_slots p q : slots q = slots p -> Forall (fun lp => lp_len lp <> 0) (pd_linp p) -> Forall (fun lp => lp_len lp <> 0) (pd_linp q).
Proof.
  intros Hsl Hall. apply Forall_forall. intros lp [i Hi]%list_elem_of_lookup_1 H0.
  assert (Hs : slots q !! i = Some (Bare (lp_flags lp) (lp_off lp))).
  { unfold slots, slot_of, ItemIdHasStorage. rewrite list_lookup_fmap, Hi. simpl. by rewrite H0. }
  rewrite Hsl in Hs. apply slot_at in Hs as (lp' & Hl' & Hs). pose proof (Forall_lookup_1 _ _ _ _ Hall Hl') as Hne. simpl in Hne.
  unfold slot_of, ItemIdHasStorage in Hs. by destruct (Z.eqb_spec (lp_len lp') 0).
Qed.

(** Deleting many tuples.  PageIndexMultiDelete of item numbers in ascending order, one by
    one or by compaction, returns, and leaves the slots that deleting the items one by one
    from the last to the first would leave; a page without gaps stays one. *)
Theorem page_index_multi_delete_correct mem p ns :
  index_page p -> zlen (slots p) <= MaxIndexTuplesPerPage -> zlen mem = BLCKSZ -> item_numbers (zlen (slots p)) ns ->
  returns (PageIndexMultiDelete mem p ns) (fun q =>
    index_page q /\ slots q = without ns (slots p) /\ (2 < zlen ns \/ packed p p -> packed p q)).
Proof.
  intros Hip Hmax Hmem Hn. unfold PageIndexMultiDelete. destruct (Z.leb_spec (zlen ns) 2) as [Hle|Hgt].
  { destruct (delete_each_ok p ns Hip Hn) as (q & -> & Hiq & Hsl & Hpk). split_and!; try done. intros [?|Hp]; [lia|by apply Hpk]. }
  pose proof (without_page p ns Hip Hn) as [Hiq Hsl]. destruct Hip as [Hwf Hall]. destruct (pointers_ok _ Hwf) as [_ ->].
  pose proof Hn as [Hs Hr]. rewrite slots_length in Hmax, Hr.
  destruct (keep_items_ok p (pd_linp p) FirstOffsetNumber ns [] [] (pd_special p) true 0 Hwf) as (sorted & Hkeep & Hsort); try done.
  { rewrite Forall_forall in Hall. apply Forall_forall. intros lp Hin. split; [by apply Hall|].
    apply list_elem_of_lookup_1 in Hin as [i Hi]. apply (pw_items _ Hwf _ _ Hi). }
  { eapply Forall_impl; [exact Hr|]. unfold FirstOffsetNumber. simpl. lia. }
  assert (Hkept : kept (pd_linp p) FirstOffsetNumber ns = without ns (pd_linp p)).
  { apply kept_without; [done|]. eapply Forall_impl; [exact Hr|]. unfold FirstOffsetNumber. simpl. lia. }
  rewrite Hkept in Hkeep, Hsort. rewrite Hkeep. bind. change (zlen (@nil ItemIdData)) with 0 in *. rewrite !app_nil_r, !rev_involutive.
  assert (Hz : zlen (rev (without ns (pd_linp p))) = zlen (without ns (pd_linp p))) by (unfold zlen; by rewrite length_rev). rewrite Hz.
  set (q := set_lower p _ _) in *. destruct Hiq as [Hwq Haq]. pose proof (tuples_fit q Hwq) as Hfit. change (pd_linp q) with (without ns (pd_linp p)) in Hfit.
  pose proof (pw_bounds _ Hwf). replace (0 + item_sum _ >? _) with false by (change (pd_special q) with (pd_special p) in Hfit; change (pd_upper q) with (pd_upper p) in Hfit; lia).
  change (without ns (pd_linp p)) with (pd_linp q). change (pd_special p) with (pd_special q).
  eapply returns_mono; [apply (repack_ok mem q sorted Hwq Hmem); intros Ht; by apply Hsort|]. simpl.
  intros r (Hwr & Hslr & Hpk & _). split; [|split; [by rewrite Hslr|by intros _]].
  split; [done|]. by apply (storage_slots q r).
Qed.

(** ** Deleting without moving the line pointers *)

Definition zapped (l : list ItemIdData) (n : Z) : list ItemIdData :=
  if n <? zlen l then <[Z.to_nat (n - 1) := ItemIdUnused]> l else take (Z.to_nat (n - 1)) l.

Lemma zapped_lookup l n i lp :
  1 <= n <= zlen l -> zapped l n !! i = Some lp -> i = Z.to_nat (n - 1) /\ lp = ItemIdUnused \/ l !! i = Some lp /\ i <> Z.to_nat (n - 1).
Proof.
  intros Hn. unfold zapped. destruct (Z.ltb_spec n (zlen l)).
  - intros [(<- & <- & _)|[Hne Hl]]%list_lookup_insert_Some; [by left|right; by split].
  - intros [Hl Hlt]%lookup_take_Some. right. split; [done|lia].
Qed.

Lemma zapped_length l n : 1 <= n <= zlen l -> zlen (zapped l n) = if n <? zlen l then zlen l else zlen l - 1.
Proof.
  intros Hn. unfold zapped. destruct (Z.ltb_spec n (zlen l)); [unfold zlen; by rewrite length_insert|]. rewrite zlen_take. lia.
Qed.

Definition zapped_page (p : PageData) (n : Z) (tup : ItemIdData) : PageData :=
  let size := MAXALIGN (lp_len tup) in
  let linp := map (shift_lp (lp_off tup) size) (zapped (pd_linp p) n) in
  set_upper (set_lower (set_bytes p (shift_bytes (pd_bytes p) (pd_upper p) (lp_off tup) size))
    (SizeOfPageHeaderData + sizeof_ItemIdData * zlen linp) linp) (pd_upper p + size).

Lemma zap_ok p n tup :
  page_wf p -> 1 <= n -> pd_linp p !! Z.to_nat (n - 1) = Some tup -> lp_len tup <> 0 ->
  PageIndexTupleDeleteNoCompact p n = Ok (zapped_page p n tup).
Proof.
  intros Hwf Hn Htup Hst. pose proof (storage_facts _ _ _ Hwf Htup Hst) as Hs. pose proof (lookup_lt_Some _ _ _ Htup) as Hlt.
  assert (Hrange : 1 <= n <= zlen (pd_linp p)) by (unfold zlen; lia). pose proof (zapped_length (pd_linp p) n Hrange) as Hzl. pose proof (linp_end_nonneg p).
  assert (Hzm : zlen (map (shift_lp (lp_off tup) (MAXALIGN (lp_len tup))) (zapped (pd_linp p) n)) = zlen (zapped (pd_linp p) n)) by (unfold zlen; by rewrite length_map).
  unfold PageIndexTupleDeleteNoCompact. rewrite (index_item_ok p n tup Hwf Hn Htup Hst). bind. rewrite (max_offset_ok _ Hwf).
  set (r := set_lower p (SizeOfPageHeaderData + sizeof_ItemIdData * zlen (zapped (pd_linp p) n)) (zapped (pd_linp p) n)).
  assert (Hr : (if n <? zlen (pd_linp p) then PageSetItemId p n ItemIdUnused
    else Ok (set_lower p (pd_lower p - sizeof_ItemIdData) (take (Z.to_nat (zlen (pd_linp p) - 1)) (pd_linp p)))) = Ok r).
  { unfold r, zapped in *. rewrite Hzl. destruct (Z.ltb_spec n (zlen (pd_linp p))).
    - replace n with (n - 1 + 1) at 1 by lia. rewrite set_item_ok by lia. unfold set_linp. rewrite (pw_lower _ Hwf). done.
    - replace n with (zlen (pd_linp p)) by lia. rewrite (pw_lower _ Hwf). unfold linp_end, sizeof_ItemIdData. do 2 f_equal. lia. }
  rewrite Hr. bind. rewrite shift_data_ok; cbn [r pd_bytes pd_upper set_lower];
    [|apply (pw_bytes _ Hwf)|unfold linp_end, sizeof_ItemIdData in *; cbn [r pd_linp set_lower]; rewrite Hzl; destruct (n <? zlen (pd_linp p)); lia|lia|lia|lia].
  bind. cbn [r pd_upper pd_linp set_bytes set_lower set_upper pd_lower]. unfold BLCKSZ in *. rewrite Z.mod_small by lia. unfold zapped_page. rewrite Hzm. f_equal.
  destruct (PageIsEmpty _) eqn:He; [|done]. unfold PageIsEmpty in He. cbn [r pd_lower set_bytes set_lower set_upper] in He.
  assert (Hnil : zapped (pd_linp p) n = []).
  { destruct (zapped (pd_linp p) n) as [|? l]; [done|]. rewrite zlen_cons in He. unfold sizeof_ItemIdData in He. pose proof (zlen_nonneg l). lia. }
  unfold r. rewrite Hnil. done.
Qed.

(** Deleting a tuple in place.  PageIndexTupleDeleteNoCompact leaves every other slot where
    it is, with its bytes, and the page well formed; the slot becomes unused, or goes if
    it is the last. *)
Theorem page_index_delete_no_compact_correct p n fl data :
  page_wf p -> 1 <= n -> slots p !! Z.to_nat (n - 1) = Some (Stored fl data) ->
  exists q, PageIndexTupleDeleteNoCompact p n = Ok q /\ page_wf q /\
    slots q = if n <? zlen (slots p) then <[Z.to_nat (n - 1) := Unused]> (slots p) else take (Z.to_nat (n - 1)) (slots p).
Proof.
  intros Hwf Hn (tup & Htup & _ & Hst & _)%stored_at; [|done]. exists (zapped_page p n tup). split; [by apply zap_ok|].
  pose proof (storage_facts _ _ _ Hwf Htup Hst) as Hs. pose proof (lookup_lt_Some _ _ _ Htup) as Hlt. pose proof (linp_end_nonneg p).
  assert (Hrange : 1 <= n <= zlen (pd_linp p)) by (unfold zlen; lia). pose proof (zapped_length (pd_linp p) n Hrange) as Hzl.
  assert (Hzm : zlen (map (shift_lp (lp_off tup) (MAXALIGN (lp_len tup))) (zapped (pd_linp p) n)) = zlen (zapped (pd_linp p) n)) by (unfold zlen; by rewrite length_map).
  split.
  - apply (shifted_wf p (Z.to_nat (n - 1)) tup (MAXALIGN (lp_len tup)) Hwf Htup Hst ltac:(lia) ltac:(lia) ltac:(lia) _
      (fun j => j) ItemIdUnused (Z.to_nat (n - 1))); try done.
    + unfold linp_end, zapped_page, sizeof_ItemIdData in *. cbn [pd_linp pd_upper set_upper set_lower]. rewrite Hzm, Hzl.
      destruct (n <? zlen (pd_linp p)); lia.
    + unfold zapped_page. cbn [pd_bytes set_upper set_lower set_bytes]. eapply shift_len; try done; lia.
    + by left.
    + intros j lp'. unfold zapped_page. cbn [pd_linp set_upper set_lower]. rewrite list_lookup_fmap.
      intros (lp & [[-> ->]|[Hj Hne]]%zapped_lookup & ->)%fmap_Some_1; [by left|right; by exists lp|done].
  - rewrite slots_length. assert (Hmap : map (fun lp => slot_of (shift_bytes (pd_bytes p) (pd_upper p) (lp_off tup) (MAXALIGN (lp_len tup)))
      (shift_lp (lp_off tup) (MAXALIGN (lp_len tup)) lp)) (zapped (pd_linp p) n) = map (slot_of (pd_bytes p)) (zapped (pd_linp p) n)).
    { apply list_fmap_ext. intros j lp [[-> ->]|[Hj Hne]]%zapped_lookup; [done| |done].
      apply (shift_slot p (Z.to_nat (n - 1)) tup (MAXALIGN (lp_len tup)) Hwf Htup Hst ltac:(lia) ltac:(lia) ltac:(lia) j lp Hj Hne). }
    unfold slots at 1, zapped_page. cbn [pd_linp pd_bytes set_upper set_lower set_bytes]. rewrite map_map, Hmap. unfold zapped.
    destruct (n <? zlen (pd_linp p)); [apply (list_fmap_insert (slot_of (pd_bytes p)))|symmetry; apply firstn_map].
Qed.

(** ** Replacing a tuple *)

Lemma shift_bytes_0 b u o : 0 <= u <= o -> o <= zlen b -> shift_bytes b u o 0 = b.
Proof.
  intros Hu Ho. unfold shift_bytes, wrote. rewrite zlen_zslice by lia. unfold zslice. rewrite Z.add_0_r.
  replace (Z.to_nat (u + (o - u))) with (Z.to_nat u + Z.to_nat (o - u))%nat by lia. by rewrite <- drop_drop, !take_drop.
Qed.

Lemma shift_lp_0 p o : page_wf p -> map (shift_lp o 0) (pd_linp p) = pd_linp p.
Proof.
  intros Hwf. rewrite <- (map_id (pd_linp p)) at 2. apply list_fmap_ext. intros i lp Hl. unfold shift_lp, ItemIdHasStorage.
  destruct (Z.eqb_spec (lp_len lp) 0) as [|Hne]; [done|]. destruct (_ && _); [|done].
  pose proof (storage_facts _ _ _ Hwf Hl Hne). pose proof (linp_end_nonneg p). unfold set_lp_off, BLCKSZ in *. rewrite Z.add_0_r, Z.mod_small by lia. by destruct lp.
Qed.

Section overwrite.
Context (p : PageData) (n : Z) (tup : ItemIdData) (new k : list Z).
Context (Hwf : page_wf p) (Hn : 1 <= n) (Htup : pd_linp p !! Z.to_nat (n - 1) = Some tup) (Hst : lp_len tup <> 0).
Let size := MAXALIGN (lp_len tup).
Let d := size - MAXALIGN (zlen new).
Context (Hnew : 0 < zlen new) (Hroom : pd_lower p <= pd_upper p + d).
Let offset := lp_off tup.
Let moved := shift_bytes (pd_bytes p) (pd_upper p) offset d.
Let fresh := mkItemId (offset + d) (lp_flags tup) (zlen new).

Definition overwritten : PageData :=
  set_upper (set_bytes (set_linp p (<[Z.to_nat (n - 1) := fresh]> (map (shift_lp offset d) (pd_linp p)))) (wrote moved (offset + d) new)) (pd_upper p + d).

Lemma overwrite_range :
  0 <= linp_end p <= pd_upper p /\ pd_lower p = linp_end p /\ pd_upper p <= offset /\ offset + size <= pd_special p <= 8192 /\ 0 < size /\ size mod 8 = 0 /\
  d < size /\ d mod 8 = 0 /\ d + zlen new <= size /\ offset + d + MAXALIGN (zlen new) = offset + size /\ 0 <= zlen new <= MAXALIGN (zlen new).
Proof using Hwf Hn Htup Hst Hnew Hroom.
  pose proof (storage_facts _ _ _ Hwf Htup Hst) as Hs. pose proof (linp_end_nonneg p). pose proof (pw_lower _ Hwf). pose proof (maxalign_bounds (zlen new)).
  unfold d, size, offset, BLCKSZ in *. lia.
Qed.

Lemma moved_len : zlen moved = BLCKSZ.
Proof using Hwf Hn Htup Hst Hnew Hroom.
  pose proof overwrite_range as Hr. pose proof (shift_len p _ tup d Hwf Htup Hst ltac:(unfold size in *; lia) ltac:(lia) ltac:(lia)) as H. exact H.
Qed.

Lemma overwrite_ok : PageIndexTupleOverwrite p n (new ++ k) (zlen new) = Ok (true, overwritten).
Proof using Hwf Hn Htup Hst Hnew Hroom.
  pose proof overwrite_range as Hr. pose proof moved_len as Hml. pose proof (pw_bytes _ Hwf) as Hb. unfold PageIndexTupleOverwrite. rewrite (index_item_ok p n tup Hwf Hn Htup Hst). bind.
  fold size offset. fold d. replace (MAXALIGN (zlen new) >? size + (pd_upper p - pd_lower p)) with false by (unfold d in *; lia).
  set (r := set_upper (set_bytes (set_linp p (map (shift_lp offset d) (pd_linp p))) moved) (pd_upper p + d)).
  assert (Hmove : (if negb (d =? 0) then
     p0 ← page_move p (pd_upper p + d) (pd_upper p) (offset - pd_upper p);
     let p0 := set_upper p0 ((pd_upper p0 + d) mod 2 ^ 16) in
     Ok (set_linp p0 (map (fun ii => if ItemIdHasStorage ii && (lp_off ii <=? offset) then set_lp_off ii (lp_off ii + d) else ii) (pd_linp p0)))
     else Ok p) = Ok r).
  { destruct (Z.eqb_spec d 0) as [H0|H0]; cbn [negb].
    - unfold r, moved. rewrite H0, shift_bytes_0, shift_lp_0, Z.add_0_r by (unfold BLCKSZ in *; lia || done). by destruct p.
    - rewrite move_shift by (unfold BLCKSZ in *; lia). bind. cbn [pd_upper pd_linp set_bytes set_upper]. rewrite Z.mod_small by lia. done. }
  cbv zeta in Hmove. rewrite Hmove. bind. assert (Hlt : (Z.to_nat (n - 1) < length (pd_linp p))%nat) by (by eapply lookup_lt_Some).
  replace n with (n - 1 + 1) by lia. rewrite (get_item_ok r (n - 1) (shift_lp offset d tup)) by (first [lia | unfold r; cbn [pd_linp set_upper set_bytes set_linp set_lower]; by rewrite list_lookup_fmap, Htup]).
  bind. rewrite set_item_ok by (unfold r, zlen; cbn [pd_linp set_upper set_bytes set_linp set_lower]; rewrite length_map; lia). bind.
  rewrite !(Z.mod_small _ (2 ^ 15)) by lia. change (new ++ k) with ([] ++ new ++ k). rewrite rdn_middle by done. bind.
  unfold page_write. cbn [pd_bytes set_linp set_lower r set_upper set_bytes].
  assert (Hfl : lp_flags (shift_lp offset d tup) = lp_flags tup) by (unfold shift_lp; by destruct (_ && _)).
  assert (Hle : forall x, linp_end (set_linp r (<[Z.to_nat (n - 1) := x]> (pd_linp r))) = linp_end p).
  { intros x. unfold linp_end, zlen. cbn [pd_linp set_linp set_lower r set_upper set_bytes]. by rewrite length_insert, length_map. }
  rewrite Hle, Hfl. replace (offset + d <? linp_end p) with false by lia. rewrite wr_wrote by (unfold BLCKSZ in *; lia). bind.
  unfold overwritten, fresh. by replace (n - 1 + 1 - 1) with (n - 1) by lia.
Qed.

Lemma overwritten_lookup i lp' :
  pd_linp overwritten !! i = Some lp' ->
  i = Z.to_nat (n - 1) /\ lp' = fresh \/ exists lp, pd_linp p !! i = Some lp /\ i <> Z.to_nat (n - 1) /\ lp' = shift_lp offset d lp.
Proof using.
  unfold overwritten. cbn [pd_linp set_upper set_bytes set_linp set_lower]. intros [(<- & <- & _)|[Hne Hl]]%list_lookup_insert_Some; [by left|right].
  rewrite list_lookup_fmap in Hl. apply fmap_Some_1 in Hl as (lp & Hl & ->). by exists lp.
Qed.

Lemma overwritten_wf : lp_flags tup <> LP_UNUSED -> page_wf overwritten.
Proof using Hwf Hn Htup Hst Hnew Hroom.
  intros Hfl. pose proof overwrite_range as Hr. pose proof moved_len as Hml.
  assert (Hle : linp_end overwritten = linp_end p).
  { unfold linp_end, zlen, overwritten. cbn [pd_linp set_linp set_lower set_upper set_bytes]. by rewrite length_insert, length_map. }
  apply (shifted_wf p (Z.to_nat (n - 1)) tup d Hwf Htup Hst ltac:(unfold size in *; lia) ltac:(lia) ltac:(lia) _ (fun j => j) fresh (Z.to_nat (n - 1))); try done.
  - rewrite Hle. simpl. lia.
  - rewrite Hle. simpl. lia.
  - unfold overwritten. cbn [pd_bytes set_upper set_bytes]. rewrite zlen_wrote; unfold BLCKSZ in *; lia.
  - right. unfold fresh. simpl. unfold d, size. split_and!; try done. lia.
  - apply overwritten_lookup.
Qed.

Lemma overwritten_slots : slots overwritten = <[Z.to_nat (n - 1) := Stored (lp_flags tup) new]> (slots p).
Proof using Hwf Hn Htup Hst Hnew Hroom.
  pose proof overwrite_range as Hr. pose proof moved_len as Hml. pose proof (lookup_lt_Some _ _ _ Htup) as Hlt. pose proof (pw_bytes _ Hwf) as Hb.
  assert (Hbytes : pd_bytes overwritten = wrote moved (offset + d) new) by done.
  unfold slots. apply list_eq_same_length with (n := length (pd_linp p)); rewrite ?length_insert, ?length_map;
    [done|unfold overwritten; cbn [pd_linp set_upper set_bytes set_linp set_lower]; by rewrite length_insert, length_map|].
  intros i x y _. rewrite list_lookup_fmap, Hbytes. intros (lp' & Hx & ->)%fmap_Some_1. apply overwritten_lookup in Hx as [[-> ->]|(lp & Hl & Hne & ->)].
  - rewrite list_lookup_insert_eq by (by rewrite length_map). intros [= <-]. unfold slot_of, ItemIdHasStorage, fresh. simpl.
    destruct (Z.eqb_spec (zlen new) 0); [lia|]. cbn [negb]. f_equal. transitivity (zslice new 0 (zlen new)); [|unfold zslice, zlen; by rewrite drop_0, Nat2Z.id, firstn_all].
    apply zslice_rd; rewrite ?zlen_wrote by (unfold BLCKSZ in *; lia); try (unfold BLCKSZ in *; lia). intros j Hj. rewrite rd_wrote by (unfold BLCKSZ in *; lia).
    replace (_ && _) with true by lia. f_equal. lia.
  - rewrite list_lookup_insert_ne by done. rewrite list_lookup_fmap, Hl. intros [= <-].
    rewrite <- (shift_slot p (Z.to_nat (n - 1)) tup d Hwf Htup Hst ltac:(unfold size in *; lia) ltac:(lia) ltac:(lia) i lp Hl Hne). fold offset. fold moved.
    apply slot_same. intros H0. assert (Hn0 : lp_len lp <> 0) by (unfold shift_lp in H0; by destruct (_ && _) in H0).
    pose proof (storage_facts _ _ _ Hwf Hl Hn0) as Hs. rewrite zlen_wrote, Hml by (unfold BLCKSZ in *; lia).
    pose proof (shift_cases p (Z.to_nat (n - 1)) tup d Hwf Htup Hst ltac:(unfold size in *; lia) ltac:(lia) ltac:(lia) i lp Hl Hne Hn0) as Hc. fold offset in Hc.
    destruct Hc as [[He ->]|[He ->]]; unfold lp_end in He; simpl; (split_and!; [lia|unfold BLCKSZ in *; lia|unfold BLCKSZ in *; lia|]); intros j Hj;
      rewrite rd_wrote by (unfold BLCKSZ in *; lia); replace (_ && _) with false by (unfold size in *; lia); done.
Qed.
End overwrite.

(** Replacing a tuple on an index page.  PageIndexTupleOverwrite says whether the new tuple
    fits the free space and the old tuple's; if so the slot has the new tuple, with its
    flags as before, every other slot keeps its bytes, and the page is well formed; if not,
    the page is as it was. *)
Theorem page_index_overwrite_correct p n fl data new k :
  page_wf p -> 1 <= n -> slots p !! Z.to_nat (n - 1) = Some (Stored fl data) -> fl <> LP_UNUSED -> 0 < zlen new ->
  if MAXALIGN (zlen new) <=? MAXALIGN (zlen data) + PageGetExactFreeSpace p
  then exists q, PageIndexTupleOverwrite p n (new ++ k) (zlen new) = Ok (true, q) /\ page_wf q /\
         slots q = <[Z.to_nat (n - 1) := Stored fl new]> (slots p)
  else PageIndexTupleOverwrite p n (new ++ k) (zlen new) = Ok (false, p).
Proof.
  intros Hwf Hn (tup & Htup & Hlen & Hst & Hfl)%stored_at Hu Hnew; [|done]. unfold PageGetExactFreeSpace. pose proof (pw_bounds _ Hwf).
  rewrite <- Hlen. destruct (Z.ltb_spec (pd_upper p - pd_lower p) 0); [lia|]. destruct (Z.leb_spec (MAXALIGN (zlen new)) (MAXALIGN (lp_len tup) + (pd_upper p - pd_lower p))).
  - exists (overwritten p n tup new). split; [apply overwrite_ok; try done; lia|].
    split; [apply overwritten_wf; try done; try lia; congruence|]. rewrite <- Hfl. apply overwritten_slots; try done; lia.
  - unfold PageIndexTupleOverwrite. rewrite (index_item_ok p n tup Hwf Hn Htup Hst). bind. by replace (_ >? _) with true by lia.
Qed.

(** *** Witnesses *)

Definition four_page : PageData := add_last sample_page [70; 71].
Lemma four_index_page : index_page four_page.
Proof.
  split; [apply add_last_wf; [exact sample_page_wf|split; vm_compute; reflexivity]|].
  assert (E : forallb (fun lp => negb (lp_len lp =? 0)) (pd_linp four_page) = true) by (vm_compute; reflexivity).
  rewrite forallb_forall in E. apply Forall_forall. intros lp Hin%list_elem_of_In. specialize (E lp Hin). lia.
Qed.

Lemma four_numbers : item_numbers (zlen (slots four_page)) [1; 2; 4].
Proof.
  assert (E : zlen (slots four_page) = 4) by (vm_compute; reflexivity). rewrite E. split; [repeat constructor|].
  repeat (apply Forall_cons; split; [lia|]). apply Forall_nil. exact I.
Qed.

Lemma page_index_multi_delete_correct_witness :
  exists q, PageIndexMultiDelete (zrep BLCKSZ 0) four_page [1; 2; 4] = Ok q /\ index_page q /\
    slots q = [Stored LP_NORMAL [67; 67; 67; 67; 67; 67; 67; 67; 67]] /\ packed four_page q.
Proof.
  pose proof (page_index_multi_delete_correct (zrep BLCKSZ 0) four_page [1; 2; 4] four_index_page ltac:(vm_compute; discriminate) scratch_len four_numbers) as H.
  apply returns_eq in H as (q & Heq & Hi & Hs & Hp). exists q. split; [exact Heq|]. split; [exact Hi|]. split; [rewrite Hs; vm_compute; reflexivity|].
  apply Hp. left. vm_compute. reflexivity.
Defined.

Lemma page_index_delete_no_compact_correct_witness :
  exists q, PageIndexTupleDeleteNoCompact sample_page 2 = Ok q /\ page_wf q /\
    slots q = <[1%nat := Unused]> (slots sample_page).
Proof.
  pose proof (page_index_delete_no_compact_correct sample_page 2 LP_NORMAL [66; 66; 66] sample_page_wf ltac:(lia) ltac:(vm_compute; reflexivity)) as H.
  assert (E : (2 <? zlen (slots sample_page)) = true) by (vm_compute; reflexivity). rewrite E in H. exact H.
Defined.

Lemma page_index_overwrite_correct_witness :
  exists q, PageIndexTupleOverwrite sample_page 2 (zrep 20 9 ++ [1]) 20 = Ok (true, q) /\ page_wf q /\
    slots q = <[1%nat := Stored LP_NORMAL (zrep 20 9)]> (slots sample_page).
Proof.
  pose proof (page_index_overwrite_correct sample_page 2 LP_NORMAL [66; 66; 66] (zrep 20 9) [1] sample_page_wf ltac:(lia)
    ltac:(vm_compute; reflexivity) ltac:(vm_compute; discriminate) ltac:(vm_compute; reflexivity)) as H.
  assert (E : (MAXALIGN (zlen (zrep 20 9)) <=? MAXALIGN (zlen [66; 66; 66]) + PageGetExactFreeSpace sample_page) = true) by (vm_compute; reflexivity).
  rewrite E in H. exact H.
Defined.
