(* ===== verification/HeapInsert.v ===== *)
(** Rows on pages: heap_prepare_insert, heap_insert and heap_fetch of
    src/backend/access/heap/heapam.c and RelationPutHeapTuple of hio.c, as far as they
    handle the tuple and its page.

    A tuple on a page is the bytes of its header, its bitmap and its data.  The page that
    RelationGetBufferForTuple finds is an argument of heap_insert here; HeapSpace models the
    search for it.  Locks, write-ahead
    logging, the visibility map and the test of visibility in heap_fetch are not modelled. *)

From S2P Require Import Prelude Rle Varatt Pglz PglzHist PglzItems PglzCodec ToastCompression Oids ToastStore.
From S2P Require Import Page PageOk PageOps PageCompact PageIndex.
From S2P Require Import Detoast ToastSave HeapTuple HeapTupleForm HeapTupleDeform HeapToast HeapToastValues HeapToastRounds HeapToastUpdate.

Definition HEAP_COMBOCID : Z := 0x0020.
Definition HEAP_XMIN_FROZEN : Z := 0x0300.
Definition HEAP_XMAX_INVALID : Z := 0x0800.
Definition HEAP_INSERT_FROZEN : Z := 0x0004.
Definition HEAP_INSERT_SPECULATIVE : Z := 0x0010.
Definition RELKIND_RELATION : Z := 114.
Definition RELKIND_MATVIEW : Z := 109.
Definition PD_ALL_VISIBLE : Z := 4.

(** ** The bytes of a tuple *)

(** ItemPointerData: bi_hi, bi_lo, ip_posid *)
Definition tid_bytes (tid : Z * Z) : list Z := le 2 (Z.shiftr (fst tid) 16) ++ le 2 (fst tid) ++ le 2 (snd tid).
Definition read_tid (b : list Z) : Z * Z :=
  (Z.lor (Z.shiftl (le_val (zslice b 0 2)) 16) (le_val (zslice b 2 2)), le_val (zslice b 4 2)).

(** struct HeapTupleHeaderData with what follows it *)
Definition header_bytes (td : HeapTupleHeader) : list Z :=
  t_choice td ++ tid_bytes (t_ctid td) ++ le 2 (t_infomask2 td) ++ le 2 (t_infomask td) ++ [t_hoff td] ++ t_bits td ++ t_body td.

(** The bytes as a header; a t_hoff that points into the fixed fields or past the end is
    [Ub]. *)
Definition read_header (b : list Z) : res HeapTupleHeader :=
  hoff ← rd b 22;
  if (hoff <? SizeofHeapTupleHeader) || (hoff >? zlen b) then Ub else
  Ok (mkHeader (zslice b 0 12) (read_tid (zslice b 12 6)) (le_val (zslice b 18 2)) (le_val (zslice b 20 2)) hoff
        (zslice b SizeofHeapTupleHeader (hoff - SizeofHeapTupleHeader)) (zslice b hoff (zlen b - hoff))).

Definition set_header (td : HeapTupleHeader) (choice : list Z) (ctid : Z * Z) (infomask2 infomask : Z) : HeapTupleHeader :=
  mkHeader choice ctid infomask2 infomask (t_hoff td) (t_bits td) (t_body td).

(** ** heapam.c, hio.c *)

(** The first part of heap_prepare_insert.  t_choice is t_xmin, t_xmax and t_cid. *)
Definition stamp_tuple (tup : HeapTuple) (xid cid options relid : Z) : HeapTuple :=
  let td := t_data tup in
  let infomask := Z.land (t_infomask td) (Z.lnot HEAP_XACT_MASK) in
  let infomask2 := Z.land (t_infomask2 td) (Z.lnot HEAP2_XACT_MASK) in
  let infomask := Z.lor infomask HEAP_XMAX_INVALID in
  let infomask := if negb (Z.land options HEAP_INSERT_FROZEN =? 0) then Z.lor infomask HEAP_XMIN_FROZEN else infomask in
  let infomask := Z.land infomask (Z.lnot HEAP_COMBOCID) in
  mkTuple (t_len tup) (t_self tup) relid
    (set_header td (le32 (wrap32 xid) ++ le32 0 ++ le32 (wrap32 cid)) (t_ctid td) infomask2 infomask).

Definition heap_prepare_insert (E : env) (rel : heaprel) (relkind relid : Z) (isParallelWorker : bool) (tup : HeapTuple)
    (xid cid options : Z) : res (HeapTuple * store * tupledesc) :=
  if isParallelWorker then Ereport ERRCODE_INVALID_TRANSACTION_STATE else
  let tup := stamp_tuple tup xid cid options relid in
  if negb (relkind =? RELKIND_RELATION) && negb (relkind =? RELKIND_MATVIEW) then Ok (tup, e_store E, rd_att rel)
  else if HeapTupleHasExternal tup || (t_len tup >? TOAST_TUPLE_THRESHOLD) then heap_toast_insert_or_update E rel tup None
  else Ok (tup, e_store E, rd_att rel).

Definition RelationPutHeapTuple (p : PageData) (blkno : Z) (tuple : HeapTuple) (token : bool) : res (PageData * HeapTuple) :=
  x ← PageAddItemExtended p (header_bytes (t_data tuple)) (t_len tuple) InvalidOffsetNumber PAI_IS_HEAP;
  let '(offnum, p) := x in
  if offnum =? InvalidOffsetNumber then Ereport ERRCODE_INTERNAL_ERROR else
  let self := (blkno, offnum) in
  p ← (if negb token then
         itemId ← PageGetItemId p offnum;
         page_write p (lp_off itemId + 12) (tid_bytes self)
       else Ok p);
  Ok (p, mkTuple (t_len tuple) self (t_tableOid tuple) (t_data tuple)).

Definition PageClearAllVisible (p : PageData) : PageData := set_flags p (Z.land (pd_flags p) (Z.lnot PD_ALL_VISIBLE)).
Definition PageIsAllVisible (p : PageData) : bool := negb (Z.land (pd_flags p) PD_ALL_VISIBLE =? 0).

(** The page and tup->t_self, with the store of toast tables *)
Definition heap_insert (E : env) (rel : heaprel) (relkind relid : Z) (p : PageData) (blkno : Z) (tup : HeapTuple)
    (xid cid options : Z) : res (PageData * (Z * Z) * store) :=
  x ← heap_prepare_insert E rel relkind relid false tup xid cid options;
  let '(heaptup, st, _) := x in
  y ← RelationPutHeapTuple p blkno heaptup (negb (Z.land options HEAP_INSERT_SPECULATIVE =? 0));
  let '(p, heaptup) := y in
  Ok (if PageIsAllVisible p then PageClearAllVisible p else p, t_self heaptup, st).

Definition ItemIdIsNormal (lp : ItemIdData) : bool := lp_flags lp =? LP_NORMAL.

(** heap_fetch up to the test of visibility *)
Definition heap_fetch (p : PageData) (relid : Z) (tid : Z * Z) : res (option HeapTuple) :=
  let offnum := snd tid in
  if (offnum <? FirstOffsetNumber) || (offnum >? PageGetMaxOffsetNumber p) then Ok None else
  lp ← PageGetItemId p offnum;
  if negb (ItemIdIsNormal lp) then Ok None else
  data ← PageGetItem p lp;
  td ← read_header data;
  Ok (Some (mkTuple (lp_len lp) tid relid td)).

(** ** The bytes of a tuple read back *)

Lemma zslice_middle l m k i n : i = zlen l -> n = zlen m -> zslice (l ++ m ++ k) i n = m.
Proof.
  intros Hi Hn. pose proof (rdn_middle l m k i n Hi Hn) as H. by apply rdn_Ok_inv in H as (_ & _ & _ & <-).
Qed.

Lemma zlen_le n z : zlen (le n z) = Z.of_nat n.
Proof. revert z. induction n as [|n IH]; intros z; simpl; [done|]. rewrite zlen_cons, IH. lia. Qed.

Lemma zlen_tid tid : zlen (tid_bytes tid) = 6.
Proof. done. Qed.

Lemma read_tid_bytes tid : read_tid (tid_bytes tid) = (fst tid mod 2 ^ 32, snd tid mod 2 ^ 16).
Proof.
  unfold read_tid, tid_bytes. change (zslice _ 0 2) with (le 2 (Z.shiftr (fst tid) 16)). change (zslice _ 2 2) with (le 2 (fst tid)).
  change (zslice _ 4 2) with (le 2 (snd tid)). rewrite !le_val_le. change (8 * Z.of_nat 2) with 16. f_equal.
  apply Z.bits_inj'. intros i Hi. rewrite Z.lor_spec, Z.shiftl_spec by lia. destruct (Z.lt_ge_cases i 16).
  - rewrite (Z.testbit_neg_r _ (i - 16)) by lia. simpl. rewrite !Z.mod_pow2_bits_low by lia. done.
  - rewrite (Z.mod_pow2_bits_high _ 16 i) by lia. rewrite orb_false_r. destruct (Z.lt_ge_cases i 32).
    + rewrite !Z.mod_pow2_bits_low by lia. rewrite Z.shiftr_spec by lia. f_equal. lia.
    + rewrite !Z.mod_pow2_bits_high by lia. done.
Qed.

(** What a header has to be like to be bytes in memory *)
Definition header_fits (td : HeapTupleHeader) : Prop :=
  zlen (t_choice td) = 12 /\ t_hoff td = SizeofHeapTupleHeader + zlen (t_bits td) /\ t_hoff td < 256.

Definition header_word (td : HeapTupleHeader) : HeapTupleHeader :=
  set_header td (t_choice td) (fst (t_ctid td) mod 2 ^ 32, snd (t_ctid td) mod 2 ^ 16) (t_infomask2 td mod 2 ^ 16) (t_infomask td mod 2 ^ 16).

Lemma header_len td : header_fits td -> zlen (header_bytes td) = t_hoff td + zlen (t_body td).
Proof.
  intros (Hc & Hh & _). unfold header_bytes, SizeofHeapTupleHeader in *. rewrite !zlen_app, Hc, zlen_tid, !zlen_le, zlen_cons, zlen_nil. lia.
Qed.

Lemma header_read td : header_fits td -> read_header (header_bytes td) = Ok (header_word td).
Proof.
  intros Hf. pose proof (header_len td Hf) as Hlen. destruct Hf as (Hc & Hh & Hlt). unfold SizeofHeapTupleHeader in *. unfold read_header.
  set (fields := t_choice td ++ tid_bytes (t_ctid td) ++ le 2 (t_infomask2 td) ++ le 2 (t_infomask td)).
  assert (Hfl : zlen fields = 22) by (unfold fields; rewrite !zlen_app, Hc, zlen_tid, !zlen_le; done).
  assert (Hb : header_bytes td = fields ++ t_hoff td :: t_bits td ++ t_body td) by (unfold header_bytes, fields; by rewrite <- !app_assoc).
  assert (Hrd : rd (header_bytes td) 22 = Ok (t_hoff td)) by (rewrite Hb; by apply rd_middle).
  rewrite Hrd. bind. pose proof (zlen_nonneg (t_bits td)). pose proof (zlen_nonneg (t_body td)).
  replace ((t_hoff td <? SizeofHeapTupleHeader) || _) with false by (unfold SizeofHeapTupleHeader; lia).
  assert (Hs : forall l m k i n, header_bytes td = l ++ m ++ k -> i = zlen l -> n = zlen m -> zslice (header_bytes td) i n = m).
  { intros l m k i n -> Hi Hn. by apply zslice_middle. }
  unfold header_word, set_header. f_equal.
  rewrite (Hs [] (t_choice td) (tid_bytes (t_ctid td) ++ le 2 (t_infomask2 td) ++ le 2 (t_infomask td) ++ [t_hoff td] ++ t_bits td ++ t_body td) 0 12 eq_refl eq_refl (eq_sym Hc)).
  rewrite (Hs (t_choice td) (tid_bytes (t_ctid td)) (le 2 (t_infomask2 td) ++ le 2 (t_infomask td) ++ [t_hoff td] ++ t_bits td ++ t_body td) 12 6 eq_refl (eq_sym Hc) eq_refl).
  rewrite (Hs (t_choice td ++ tid_bytes (t_ctid td)) (le 2 (t_infomask2 td)) (le 2 (t_infomask td) ++ [t_hoff td] ++ t_bits td ++ t_body td) 18 2);
    [|unfold header_bytes; by rewrite <- !app_assoc|by rewrite zlen_app, Hc|done].
  rewrite (Hs (t_choice td ++ tid_bytes (t_ctid td) ++ le 2 (t_infomask2 td)) (le 2 (t_infomask td)) ([t_hoff td] ++ t_bits td ++ t_body td) 20 2);
    [|unfold header_bytes; by rewrite <- !app_assoc|by rewrite !zlen_app, Hc|done].
  rewrite (Hs (fields ++ [t_hoff td]) (t_bits td) (t_body td) SizeofHeapTupleHeader (t_hoff td - SizeofHeapTupleHeader));
    [|rewrite Hb; by rewrite <- app_assoc|rewrite zlen_app, Hfl; done|unfold SizeofHeapTupleHeader; lia].
  rewrite (Hs (fields ++ t_hoff td :: t_bits td) (t_body td) [] (t_hoff td) (zlen (header_bytes td) - t_hoff td));
    [|rewrite Hb, app_nil_r; by rewrite <- app_assoc|rewrite zlen_app, Hfl, zlen_cons; lia|lia].
  rewrite read_tid_bytes, !le_val_le. done.
Qed.

(** Only some bits of the header matter to the row. *)
Lemma tuple_holds_header E desc tup tup' cs :
  tuple_holds E desc tup cs -> t_len tup' = t_len tup -> t_hoff (t_data tup') = t_hoff (t_data tup) ->
  t_bits (t_data tup') = t_bits (t_data tup) -> t_body (t_data tup') = t_body (t_data tup) ->
  Z.land (t_infomask (t_data tup')) 7 = Z.land (t_infomask (t_data tup)) 7 ->
  HeapTupleHeaderGetNatts (t_data tup') = HeapTupleHeaderGetNatts (t_data tup) -> tuple_holds E desc tup' cs.
Proof.
  intros (values & xs & Hp & [F1 F2 F3 F4 F5 F6] & Hv) Hl Hh Hb Hy Hm Hn. exists values, xs. split; [done|]. split; [|done].
  split; rewrite ?Hl, ?Hh, ?Hb, ?Hy, ?Hm, ?Hn; done.
Qed.

Lemma land_mod_low a n k : 0 <= n -> Z.land (Z.ones n) k = k -> Z.land (a mod 2 ^ n) k = Z.land a k.
Proof. intros Hn Hk. rewrite <- Z.land_ones by done. by rewrite <- Z.land_assoc, Hk. Qed.

Lemma header_word_holds E desc tup cs len self oid :
  tuple_holds E desc tup cs -> len = t_len tup -> tuple_holds E desc (mkTuple len self oid (header_word (t_data tup))) cs.
Proof.
  intros Ht ->. eapply tuple_holds_header; [exact Ht|done..| |]; simpl.
  - by apply land_mod_low.
  - unfold HeapTupleHeaderGetNatts. simpl. by apply land_mod_low.
Qed.

(** ** Stamping and toasting *)

Lemma stamp_infomask tup xid cid options relid :
  Z.land (t_infomask (t_data (stamp_tuple tup xid cid options relid))) 7 = Z.land (t_infomask (t_data tup)) 7.
Proof.
  simpl. set (im := Z.lor _ HEAP_XMAX_INVALID). assert (Him : Z.land im 7 = Z.land (t_infomask (t_data tup)) 7).
  { unfold im. rewrite Z.land_lor_distr_l, <- !Z.land_assoc. change (Z.land HEAP_XMAX_INVALID 7) with 0. by rewrite Z.lor_0_r. }
  rewrite <- Z.land_assoc. change (Z.land (Z.lnot HEAP_COMBOCID) 7) with 7. destruct (negb _); [|done].
  rewrite Z.land_lor_distr_l, Him. change (Z.land HEAP_XMIN_FROZEN 7) with 0. by rewrite Z.lor_0_r.
Qed.

Lemma stamp_natts tup xid cid options relid :
  HeapTupleHeaderGetNatts (t_data (stamp_tuple tup xid cid options relid)) = HeapTupleHeaderGetNatts (t_data tup).
Proof. unfold HeapTupleHeaderGetNatts. simpl. by rewrite <- Z.land_assoc. Qed.

Lemma stamp_nulls tup xid cid options relid :
  HeapTupleHasNulls (stamp_tuple tup xid cid options relid) = HeapTupleHasNulls tup.
Proof.
  unfold HeapTupleHasNulls. f_equal. f_equal.
  change HEAP_HASNULL with (Z.land 7 HEAP_HASNULL). by rewrite !Z.land_assoc, stamp_infomask.
Qed.

Lemma stamp_deform tup xid cid options relid desc :
  heap_deform_tuple (stamp_tuple tup xid cid options relid) desc = heap_deform_tuple tup desc.
Proof. unfold heap_deform_tuple. by rewrite stamp_nulls, stamp_natts. Qed.

Lemma stamp_holds E desc tup cs xid cid options relid :
  tuple_holds E desc tup cs -> tuple_holds E desc (stamp_tuple tup xid cid options relid) cs.
Proof. intros Ht. eapply tuple_holds_header; [exact Ht|done..|apply stamp_infomask|apply stamp_natts]. Qed.

Lemma stamp_updatable E rel tup cs xid cid options relid :
  updatable E rel tup None cs -> updatable E rel (stamp_tuple tup xid cid options relid) None cs.
Proof.
  intros [U1 U2 U3 U4 U5 U6 U7 U8 U9 U10]. split; try done; [by apply stamp_holds|]. unfold row. by rewrite stamp_deform.
Qed.

(** The toaster keeps the transaction fields. *)
Lemma toast_choice E rel tup old tup' st desc :
  heap_toast_insert_or_update E rel tup old = Ok (tup', st, desc) -> t_choice (t_data tup') = t_choice (t_data tup).
Proof.
  unfold heap_toast_insert_or_update. intros ([vs d] & _ & H)%res_bind_Ok. apply res_bind_Ok in H as ([olds d'] & _ & H).
  apply res_bind_Ok in H as (ttc & _ & H). apply res_bind_Ok in H as ([ttc' st'] & _ & H). apply res_bind_Ok in H as (res & Hres & H).
  apply res_bind_Ok in H as (st2 & _ & [= <- _ _]). destruct (flag _ TOAST_NEEDS_CHANGE); [|by injection Hres as <-].
  unfold rebuild_tuple in Hres. apply res_bind_Ok in Hres as (n & _ & H). apply res_bind_Ok in H as (? & _ & H).
  apply res_bind_Ok in H as (s & _ & [= <-]). done.
Qed.

(** What heap_prepare_insert hands on *)
Lemma prepare_ok E rel relkind relid tup cs xid cid options :
  updatable E rel tup None cs ->
  returns (heap_prepare_insert E rel relkind relid false tup xid cid options) (fun '(tup', st, _) =>
    tuple_holds (with_store E st) (rd_att rel) tup' cs /\ header_fits (t_data tup') /\ t_len tup' = zlen (header_bytes (t_data tup')) /\ store_ok st /\
    (forall tp ext, stored (e_store E) tp ext -> stored st tp ext)).
Proof.
  intros Hup. unfold heap_prepare_insert. set (tup1 := stamp_tuple tup xid cid options relid).
  assert (Hchoice : zlen (t_choice (t_data tup1)) = 12) by done.
  assert (Hlayout : forall E' t, tuple_holds E' (rd_att rel) t cs -> zlen (t_choice (t_data t)) = 12 ->
    header_fits (t_data t) /\ t_len t = zlen (header_bytes (t_data t))).
  { intros E' t (values & xs & _ & [F1 F2 (F3 & _ & F4) _ _ _] & _) Hc. assert (Hf : header_fits (t_data t)) by (split_and!; [done|exact F3|done]).
    split; [done|]. by rewrite (header_len _ Hf). }
  pose proof (stamp_updatable _ _ _ _ xid cid options relid Hup) as Hup1. fold tup1 in Hup1.
  assert (Hkeep : returns (Ok (tup1, e_store E, rd_att rel)) (fun '(tup', st, _) =>
    tuple_holds (with_store E st) (rd_att rel) tup' cs /\ header_fits (t_data tup') /\ t_len tup' = zlen (header_bytes (t_data tup')) /\ store_ok st /\
    (forall tp ext, stored (e_store E) tp ext -> stored st tp ext))).
  { cbn [returns]. replace (with_store E (e_store E)) with E by (by destruct E). pose proof (up_new _ _ _ _ _ Hup1) as Ht.
    destruct (Hlayout E tup1 Ht Hchoice). split_and!; try done. apply (up_store _ _ _ _ _ Hup1). }
  destruct (_ && _); [exact Hkeep|]. destruct (_ || _); [|exact Hkeep].
  pose proof (update_ok E rel tup1 None cs Hup1) as Hok. pose proof (toast_choice E rel tup1 None) as Hch.
  destruct (heap_toast_insert_or_update E rel tup1 None) as [[[tup2 st] d]| | |]; try done. simpl in Hok |- *.
  destruct Hok as (H1 & H2 & _ & _ & H6 & _). destruct (Hlayout _ tup2 H1) as [H7 H8]; [by rewrite (Hch _ _ _ eq_refl)|].
  split_and!; try done. intros tp ext Hs. apply H6; [done|]. intros tp' Hin. by apply not_elem_of_nil in Hin.
Qed.

(** ** Tuples on a page *)

(** Overwriting a part of a tuple *)
Lemma write_in_item p i fl data o new :
  page_wf p -> slots p !! i = Some (Stored fl data) -> 0 <= o -> o + zlen new <= zlen data ->
  exists lp p', pd_linp p !! i = Some lp /\ page_write p (lp_off lp + o) new = Ok p' /\ page_wf p' /\
    slots p' = <[i := Stored fl (wrote data o new)]> (slots p).
Proof.
  intros Hwf Hsl Ho Hn. pose proof Hsl as (lp & Hl & Hlen & Hst & Hfl)%stored_at; [|done]. pose proof (storage_facts _ _ _ Hwf Hl Hst) as Hs.
  pose proof (linp_end_nonneg p) as H0. pose proof (pw_bytes _ Hwf) as Hb. pose proof (zlen_nonneg new) as Hn0. unfold BLCKSZ in *.
  exists lp, (set_bytes p (wrote (pd_bytes p) (lp_off lp + o) new)). split; [done|]. unfold page_write.
  replace (lp_off lp + o <? linp_end p) with false by lia. rewrite wr_wrote by lia. split; [done|].
  assert (Hw : zlen (wrote (pd_bytes p) (lp_off lp + o) new) = 8192) by (rewrite zlen_wrote; lia).
  split; [destruct Hwf; by split|]. unfold slots. cbn [pd_linp pd_bytes set_bytes].
  apply list_eq_same_length with (n := length (pd_linp p)); rewrite ?length_insert, ?length_map; [done|done|].
  intros j x y _. rewrite list_lookup_fmap. intros (lp' & Hx & ->)%fmap_Some_1. destruct (decide (j = i)) as [->|Hne].
  - rewrite list_lookup_insert_eq by (rewrite length_map; by eapply lookup_lt_Some). intros [= <-]. rewrite Hl in Hx. injection Hx as <-.
    apply slot_at in Hsl as (lp2 & Hl2 & Heq). rewrite Hl in Hl2. injection Hl2 as <-. unfold slot_of, ItemIdHasStorage in *.
    destruct (Z.eqb_spec (lp_len lp) 0); [done|]. cbn [negb] in *. injection Heq as _ Hdata. rewrite Hfl. f_equal.
    assert (Hwd : zlen (wrote data o new) = lp_len lp) by (rewrite zlen_wrote; lia).
    transitivity (zslice (wrote data o new) 0 (lp_len lp)); [|unfold zslice; rewrite drop_0; apply take_ge; unfold zlen in Hwd; lia].
    apply zslice_rd; try lia. intros k Hk. rewrite !rd_wrote by lia. rewrite Z.add_0_l.
    replace ((lp_off lp + o <=? lp_off lp + k) && _) with ((o <=? k) && (k <? o + zlen new)) by lia.
    destruct (_ && _); [f_equal; lia|]. rewrite Hdata, rd_zslice by lia. done.
  - rewrite list_lookup_insert_ne, list_lookup_fmap, Hx by done. intros [= <-]. apply slot_same. intros Hne0.
    pose proof (storage_facts _ _ _ Hwf Hx Hne0). split_and!; try lia. intros k Hk. rewrite rd_wrote by lia.
    pose proof (pw_apart _ Hwf _ _ _ _ Hne Hx Hl Hne0 Hst) as Hap. unfold lp_end in Hap. by replace (_ && _) with false by lia.
Qed.

Lemma set_ctid_bytes td tid :
  zlen (t_choice td) = 12 -> wrote (header_bytes td) 12 (tid_bytes tid) = header_bytes (set_header td (t_choice td) tid (t_infomask2 td) (t_infomask td)).
Proof.
  intros Hc. unfold wrote, header_bytes. simpl t_choice. rewrite zlen_tid. change (Z.to_nat (12 + 6)) with 18%nat.
  assert (Hl : length (t_choice td) = 12%nat) by (unfold zlen in Hc; lia). rewrite take_app_le, take_ge by lia. f_equal. f_equal.
  rewrite drop_app_ge, Hl by lia. done.
Qed.

(** The tuple as RelationPutHeapTuple leaves it on the page *)
Definition put_header (td : HeapTupleHeader) (self : Z * Z) (token : bool) : HeapTupleHeader :=
  if token then td else set_header td (t_choice td) self (t_infomask2 td) (t_infomask td).

Lemma put_ok p blk tup token :
  page_wf p -> zlen (slots p) <= MaxHeapTuplesPerPage -> header_fits (t_data tup) -> t_len tup = zlen (header_bytes (t_data tup)) ->
  t_len tup < 2 ^ 31 - 8 -> MAXALIGN (t_len tup) <= PageGetHeapFreeSpace p ->
  exists n p', RelationPutHeapTuple p blk tup token = Ok (p', mkTuple (t_len tup) (blk, n) (t_tableOid tup) (t_data tup)) /\
    1 <= n <= MaxHeapTuplesPerPage /\ page_wf p' /\ zlen (slots p') <= MaxHeapTuplesPerPage /\
    slots p' !! Z.to_nat (n - 1) = Some (Stored LP_NORMAL (header_bytes (put_header (t_data tup) (blk, n) token))) /\
    (forall i s, slots p !! i = Some s -> s <> Unused -> slots p' !! i = Some s).
Proof.
  intros Hwf Hmax Hfits Hlen Hsmall Hroom. pose proof (header_len _ Hfits) as Hhl. pose proof Hfits as (Hc & Hh & _). unfold SizeofHeapTupleHeader in Hh.
  pose proof (zlen_nonneg (t_bits (t_data tup))). pose proof (zlen_nonneg (t_body (t_data tup))). unfold RelationPutHeapTuple. rewrite Hlen in *.
  set (item := header_bytes (t_data tup)) in *. assert (Hsize : 0 < zlen item < 2 ^ 31 - 8) by lia.
  destruct (heap_space_ok p item [] Hwf Hsize) as (n & p1 & Hadd & Hn); [by rewrite slots_length in Hmax|done|].
  destruct (add_item_ok p item [] InvalidOffsetNumber PAI_IS_HEAP Hwf Hsize ltac:(done)) as (n' & p1' & Hadd' & Hwf1 & Hres).
  rewrite Hadd in Hadd'. injection Hadd' as <- <-. rewrite app_nil_r in Hadd. rewrite Hadd. bind.
  destruct Hres as [[-> _]|(Hr & _ & Hfree & Hsl)]; [unfold InvalidOffsetNumber in Hn; lia|]. change (OffsetNumberIsValid InvalidOffsetNumber) with false in *.
  cbn [andb] in Hfree, Hsl. replace (n =? InvalidOffsetNumber) with false by (unfold InvalidOffsetNumber; lia).
  assert (Htake : length (take (Z.to_nat (n - 1)) (slots p)) = Z.to_nat (n - 1)) by (rewrite length_take; unfold zlen in *; lia).
  assert (Hat : slots p1 !! Z.to_nat (n - 1) = Some (Stored LP_NORMAL item)) by (rewrite Hsl; by apply list_lookup_middle).
  assert (Hold : forall i s, slots p !! i = Some s -> s <> Unused -> i <> Z.to_nat (n - 1) /\ slots p1 !! i = Some s).
  { intros i s Hi Hs. assert (Hin : i <> Z.to_nat (n - 1)).
    { intros ->. apply Hs. rewrite (Hfree eq_refl) in Hi; [by injection Hi as <-|]. apply lookup_lt_Some in Hi. unfold zlen. lia. }
    split; [done|]. rewrite Hsl. destruct (Nat.lt_ge_cases i (Z.to_nat (n - 1))).
    - rewrite lookup_app_l, lookup_take_lt by lia. done.
    - rewrite lookup_app_r by lia. rewrite Htake. replace (i - Z.to_nat (n - 1))%nat with (S (i - Z.to_nat n)) by lia. simpl. rewrite lookup_drop.
      rewrite <- Hi. f_equal. lia. }
  assert (Hcount : zlen (slots p1) <= MaxHeapTuplesPerPage) by (rewrite Hsl; unfold zlen in *; rewrite length_app, Htake; simpl; rewrite length_drop; lia).
  destruct token; cbn [negb].
  - exists n, p1. split; [by rewrite <- Hlen|]. split_and!; try done; try lia. intros i s Hi Hs. by apply Hold.
  - destruct (write_in_item p1 (Z.to_nat (n - 1)) LP_NORMAL item 12 (tid_bytes (blk, n)) Hwf1 Hat) as (lp & p2 & Hlp & Hw & Hwf2 & Hsl2); [done|rewrite zlen_tid; lia|].
    unfold PageGetItemId. replace (1 <=? n) with true by lia. rewrite Hlp. bind. rewrite Hw. bind. exists n, p2. split; [by rewrite <- Hlen|].
    assert (Hl2 : zlen (slots p2) = zlen (slots p1)) by (rewrite Hsl2; unfold zlen; by rewrite length_insert).
    split_and!; try done; try lia.
    + rewrite Hsl2, list_lookup_insert_eq by (by eapply lookup_lt_Some). unfold item. by rewrite set_ctid_bytes.
    + intros i s Hi Hs. destruct (Hold i s Hi Hs) as [Hne H1]. by rewrite Hsl2, list_lookup_insert_ne.
Qed.

Lemma fetch_slot_ok p relid blk n td :
  page_wf p -> 1 <= n -> slots p !! Z.to_nat (n - 1) = Some (Stored LP_NORMAL (header_bytes td)) -> header_fits td ->
  heap_fetch p relid (blk, n) = Ok (Some (mkTuple (zlen (header_bytes td)) (blk, n) relid (header_word td))).
Proof.
  intros Hwf Hn Hsl Hfits. pose proof Hsl as (lp & Hl & Hlen & Hst & Hfl)%stored_at; [|done]. pose proof (lookup_lt_Some _ _ _ Hl).
  unfold heap_fetch. cbn [snd]. rewrite (max_offset_ok _ Hwf). unfold FirstOffsetNumber. replace ((n <? 1) || _) with false by (unfold zlen; lia).
  unfold PageGetItemId. replace (1 <=? n) with true by lia. rewrite Hl. bind. unfold ItemIdIsNormal. rewrite Hfl. cbn [LP_NORMAL Z.eqb negb].
  pose proof (storage_facts _ _ _ Hwf Hl Hst). pose proof (linp_end_nonneg p). unfold PageGetItem, page_read. replace (lp_off lp <? linp_end p) with false by lia.
  rewrite rdn_Ok by (rewrite ?(pw_bytes _ Hwf); lia). bind. apply slot_at in Hsl as (lp2 & Hl2 & Heq). rewrite Hl in Hl2. injection Hl2 as <-.
  unfold slot_of, ItemIdHasStorage in Heq. destruct (Z.eqb_spec (lp_len lp) 0); [done|]. injection Heq as _ Hd. rewrite <- Hd, header_read by done. bind.
  by rewrite Hlen.
Qed.

Lemma repaired_slot p q i s : repaired p q -> slots p !! i = Some s -> s <> Unused -> slots q !! i = Some s.
Proof.
  intros (_ & [k Hk] & _) Hi Hs. rewrite Hk in Hi. apply lookup_app_Some in Hi as [Hi|[_ Hi]]; [done|].
  apply lookup_replicate in Hi as [-> _]. done.
Qed.

Lemma heap_space_bound p : page_wf p -> PageGetHeapFreeSpace p <= BLCKSZ.
Proof.
  intros Hwf. pose proof (pw_bounds _ Hwf). pose proof (linp_small p Hwf). unfold PageGetHeapFreeSpace, PageGetFreeSpace, sizeof_ItemIdData, BLCKSZ in *.
  repeat case_match; lia.
Qed.

Lemma put_header_fits td self token : header_fits td -> header_fits (put_header td self token).
Proof. by destruct token. Qed.

Lemma put_header_holds E desc tup cs self token :
  tuple_holds E desc tup cs -> tuple_holds E desc (mkTuple (t_len tup) (t_self tup) (t_tableOid tup) (put_header (t_data tup) self token)) cs.
Proof. intros Ht. eapply tuple_holds_header; [exact Ht|..]; by destruct token. Qed.

(** C4: A row is stored and read back.  heap_insert stamps the tuple, toasts it if need be and
    puts it on a page that has room; heap_fetch of the place it returns gives a tuple that
    holds the same row, read with the toast tables as heap_insert left them, at once and
    after the page was defragmented.  The tuples that were on the page are where they
    were, with their bytes, and no out-of-line value has been lost.  The row is one that
    the toaster can take ([updatable]): in particular each column's compression method can
    be applied to its value and there are unused value ids. *)
Theorem heap_insert_fetch_correct E rel relkind relid p blk tup cs xid cid options mem :
  updatable E rel tup None cs -> page_wf p -> zlen (slots p) <= MaxHeapTuplesPerPage -> zlen mem = BLCKSZ -> 0 <= blk < 2 ^ 32 ->
  (forall tup' st d, heap_prepare_insert E rel relkind relid false tup xid cid options = Ok (tup', st, d) ->
     MAXALIGN (t_len tup') <= PageGetHeapFreeSpace p) ->
  returns (x ← heap_insert E rel relkind relid p blk tup xid cid options;
           let '(p', tid, st) := x in
           t ← heap_fetch p' relid tid;
           q ← PageRepairFragmentation mem p';
           t' ← heap_fetch q relid tid;
           Ok (p', q, t, t', tid, st)) (fun '(p', q, t, t', tid, st) =>
    (exists tup', t = Some tup' /\ t' = Some tup' /\ tuple_holds (with_store E st) (rd_att rel) tup' cs /\ t_self tup' = tid /\
       (Z.land options HEAP_INSERT_SPECULATIVE = 0 -> t_ctid (t_data tup') = tid)) /\
    fst tid = blk /\ page_wf p' /\ page_wf q /\
    (forall i s, slots p !! i = Some s -> s <> Unused -> slots p' !! i = Some s /\ slots q !! i = Some s) /\
    store_ok st /\ (forall tp ext, stored (e_store E) tp ext -> stored st tp ext)).
Proof.
  intros Hup Hwf Hmax Hmem Hblk Hroom. unfold heap_insert. pose proof (prepare_ok E rel relkind relid tup cs xid cid options Hup) as Hprep.
  destruct (heap_prepare_insert E rel relkind relid false tup xid cid options) as [[[tup' st] d]| | |]; try done.
  specialize (Hroom tup' st d eq_refl). destruct Hprep as (Ht & Hfits & Hlen & Hst & Hkeep). bind.
  set (token := negb (Z.land options HEAP_INSERT_SPECULATIVE =? 0)).
  destruct (put_ok p blk tup' token Hwf Hmax Hfits Hlen) as (n & p1 & -> & Hn & Hwf1 & Hmax1 & Hat & Hold); [|done|].
  { pose proof (heap_space_bound p Hwf). pose proof (maxalign_bounds (t_len tup')). unfold BLCKSZ in *. lia. }
  bind. cbn [t_self]. set (p2 := if PageIsAllVisible p1 then PageClearAllVisible p1 else p1).
  assert (page_wf p2 /\ slots p2 = slots p1) as [Hwf2 Hsl2] by (unfold p2; destruct (PageIsAllVisible p1); [by apply set_flags_wf|done]).
  set (td := put_header (t_data tup') (blk, n) token) in *. pose proof (put_header_fits (t_data tup') (blk, n) token Hfits) as Hfd. fold td in Hfd.
  rewrite <- Hsl2 in Hat. rewrite (fetch_slot_ok p2 relid blk n td Hwf2 ltac:(lia) Hat Hfd). bind.
  eapply returns_bind; [apply (repair_ok mem p2 Hwf2); [by rewrite Hsl2|done]|]. intros q Hq. pose proof Hq as (Hwfq & _).
  assert (Hatq : slots q !! Z.to_nat (n - 1) = Some (Stored LP_NORMAL (header_bytes td))) by (by apply (repaired_slot p2 q)).
  rewrite (fetch_slot_ok q relid blk n td Hwfq ltac:(lia) Hatq Hfd). cbn [mbind res_bind returns]. split; [|split_and!; try done].
  - eexists. split; [done|]. split; [done|]. split; [|split; [done|]].
    + pose proof (put_header_holds _ _ _ _ (blk, n) token Ht) as Hh. apply (header_word_holds _ _ _ _ (zlen (header_bytes td)) (blk, n) relid Hh).
      rewrite Hlen, !header_len by done. unfold td. by destruct token.
    + intros H0. unfold td, token. rewrite H0. simpl. change MaxHeapTuplesPerPage with 291 in Hn. by rewrite !Z.mod_small by lia.
  - intros i s Hi Hs. rewrite Hsl2. split; [by apply Hold|]. apply (repaired_slot p2 q); [done| |done]. rewrite Hsl2. by apply Hold.
Qed.

(** *** Witness *)

Lemma big_updatable : updatable sample_env sample_rel big_tuple None big_contents.
Proof. destruct sample_updatable as [U1 U2 U3 U4 U5 U6 U7 _ _ _]. split; try done. Qed.

(** A tuple of 3037 bytes is toasted and inserted into a page with three tuples. *)
Lemma heap_insert_fetch_correct_witness :
  exists p' q tup' tid st, fst tid = 12 /\
    (x ← heap_insert sample_env sample_rel RELKIND_RELATION 16384 sample_page 12 big_tuple 740 0 0;
     let '(p', tid, st) := x in
     t ← heap_fetch p' 16384 tid;
     q ← PageRepairFragmentation (zrep BLCKSZ 0) p';
     t' ← heap_fetch q 16384 tid;
     Ok (p', q, t, t', tid, st)) = Ok (p', q, Some tup', Some tup', tid, st) /\
    tuple_holds (with_store sample_env st) sample_desc tup' big_contents /\ t_len tup' < 150.
Proof.
  assert (Hp : (x ← heap_prepare_insert sample_env sample_rel RELKIND_RELATION 16384 false big_tuple 740 0 0; Ok (MAXALIGN (t_len (fst (fst x))) <=? PageGetHeapFreeSpace sample_page))
    = Ok true) by (vm_compute; reflexivity).
  assert (Hroom : forall t s d, heap_prepare_insert sample_env sample_rel RELKIND_RELATION 16384 false big_tuple 740 0 0 = Ok (t, s, d) ->
    MAXALIGN (t_len t) <= PageGetHeapFreeSpace sample_page).
  { intros t s d Heq. rewrite Heq in Hp. cbn [mbind res_bind fst] in Hp. injection Hp as Hp. apply Z.leb_le. exact Hp. }
  assert (Hfew : zlen (slots sample_page) <= MaxHeapTuplesPerPage) by (vm_compute; discriminate).
  pose proof (heap_insert_fetch_correct sample_env sample_rel RELKIND_RELATION 16384 sample_page 12 big_tuple big_contents 740 0 0 (zrep BLCKSZ 0)
    big_updatable sample_page_wf Hfew scratch_len ltac:(clear; lia) Hroom) as H.
  apply returns_eq in H as ([[[[[p' q] t] t'] tid] st] & Heq & (tup' & -> & -> & Ht & _) & Hb & _).
  exists p', q, tup', tid, st. split; [exact Hb|]. split; [exact Heq|]. split; [exact Ht|].
  assert (E : (x ← (x ← heap_insert sample_env sample_rel RELKIND_RELATION 16384 sample_page 12 big_tuple 740 0 0;
     let '(p', tid, st) := x in
     t ← heap_fetch p' 16384 tid;
     q ← PageRepairFragmentation (zrep BLCKSZ 0) p';
     t' ← heap_fetch q 16384 tid;
     Ok (p', q, t, t', tid, st)); Ok (match snd (fst (fst x)) with Some t => t_len t <? 150 | None => false end)) = Ok true) by (vm_compute; reflexivity).
  rewrite Heq in E. cbn [mbind res_bind fst snd] in E. injection E as E. apply Z.ltb_lt. exact E.
Defined.
