(* ===== verification/Encode.v ===== *)
(** Binary strings as text: src/backend/utils/adt/encode.c.

    Hexadecimal, base64 and escape format, each with the estimate of the result's length
    that the buffer is allocated by.  A source is the list of its bytes.  The output is
    what has been written to the buffer so far; writing beyond its size is [Ub]. *)

From S2P Require Import Prelude Rle Varatt Pglz PglzHist PglzItems PglzCodec ToastCompression Oids ToastStore Detoast Wchar Text.

(** *p++ = ..., into a buffer of [cap] bytes *)
Definition put_bytes (cap : Z) (out data : list Z) : res (list Z) :=
  if zlen out + zlen data <=? cap then Ok (out ++ data) else Ub.

Definition is_blank (c : Z) : bool := (c =? 32) || (c =? 10) || (c =? 9) || (c =? 13).

(** ** Hexadecimal *)

Definition hextbl : list Z := [48; 49; 50; 51; 52; 53; 54; 55; 56; 57; 97; 98; 99; 100; 101; 102].
Definition hexlookup : list Z :=
  [-1; -1; -1; -1; -1; -1; -1; -1; -1; -1; -1; -1; -1; -1; -1; -1;
   -1; -1; -1; -1; -1; -1; -1; -1; -1; -1; -1; -1; -1; -1; -1; -1;
   -1; -1; -1; -1; -1; -1; -1; -1; -1; -1; -1; -1; -1; -1; -1; -1;
   0; 1; 2; 3; 4; 5; 6; 7; 8; 9; -1; -1; -1; -1; -1; -1;
   -1; 10; 11; 12; 13; 14; 15; -1; -1; -1; -1; -1; -1; -1; -1; -1;
   -1; -1; -1; -1; -1; -1; -1; -1; -1; -1; -1; -1; -1; -1; -1; -1;
   -1; 10; 11; 12; 13; 14; 15; -1; -1; -1; -1; -1; -1; -1; -1; -1;
   -1; -1; -1; -1; -1; -1; -1; -1; -1; -1; -1; -1; -1; -1; -1; -1].

Fixpoint hex_encode (cap : Z) (src out : list Z) : res (list Z) :=
  match src with
  | [] => Ok out
  | c :: src =>
      h ← rd hextbl (Z.land (Z.shiftr c 4) 0xF);
      l ← rd hextbl (Z.land c 0xF);
      out ← put_bytes cap out [h; l];
      hex_encode cap src out
  end.

(** None where get_hex returns false *)
Definition get_hex (c : Z) : res (option Z) :=
  res ← (if c <? 127 then rd hexlookup c else Ok (-1));
  Ok (if res >=? 0 then Some res else None).

Fixpoint hex_decode_safe (cap : Z) (s out : list Z) : res (list Z) :=
  match s with
  | [] => Ok out
  | c :: s =>
      if is_blank c then hex_decode_safe cap s out else
      v1 ← get_hex c;
      match v1 with
      | None => Ereport ERRCODE_INVALID_PARAMETER_VALUE
      | Some v1 =>
          match s with
          | [] => Ereport ERRCODE_INVALID_PARAMETER_VALUE
          | c :: s =>
              v2 ← get_hex c;
              match v2 with
              | None => Ereport ERRCODE_INVALID_PARAMETER_VALUE
              | Some v2 => out ← put_bytes cap out [Z.lor (Z.shiftl v1 4) v2]; hex_decode_safe cap s out
              end
          end
      end
  end.
Definition hex_decode := hex_decode_safe.
Definition hex_enc_len (src : list Z) : res Z := Ok (Z.shiftl (zlen src) 1).
Definition hex_dec_len (src : list Z) : res Z := Ok (Z.shiftr (zlen src) 1).

(** ** Base64 *)

Definition base64_ : list Z :=
  [65; 66; 67; 68; 69; 70; 71; 72; 73; 74; 75; 76; 77; 78; 79; 80;
   81; 82; 83; 84; 85; 86; 87; 88; 89; 90; 97; 98; 99; 100; 101; 102;
   103; 104; 105; 106; 107; 108; 109; 110; 111; 112; 113; 114; 115; 116; 117; 118;
   119; 120; 121; 122; 48; 49; 50; 51; 52; 53; 54; 55; 56; 57; 43; 47].
Definition b64lookup : list Z :=
  [-1; -1; -1; -1; -1; -1; -1; -1; -1; -1; -1; -1; -1; -1; -1; -1;
   -1; -1; -1; -1; -1; -1; -1; -1; -1; -1; -1; -1; -1; -1; -1; -1;
   -1; -1; -1; -1; -1; -1; -1; -1; -1; -1; -1; 62; -1; -1; -1; 63;
   52; 53; 54; 55; 56; 57; 58; 59; 60; 61; -1; -1; -1; -1; -1; -1;
   -1; 0; 1; 2; 3; 4; 5; 6; 7; 8; 9; 10; 11; 12; 13; 14;
   15; 16; 17; 18; 19; 20; 21; 22; 23; 24; 25; -1; -1; -1; -1; -1;
   -1; 26; 27; 28; 29; 30; 31; 32; 33; 34; 35; 36; 37; 38; 39; 40;
   41; 42; 43; 44; 45; 46; 47; 48; 49; 50; 51; -1; -1; -1; -1; -1].

(** One of the four symbols of a group *)
Definition symbol (buf shift : Z) : res Z := rd base64_ (Z.land (Z.shiftr buf shift) 0x3f).

(** The loop and the end; [lend] is where the next linefeed is due. *)
Fixpoint base64_encode_loop (cap : Z) (s out : list Z) (lend pos buf : Z) : res (list Z) :=
  match s with
  | [] =>
      if negb (pos =? 2) then
        c1 ← symbol buf 18; c2 ← symbol buf 12;
        c3 ← (if pos =? 0 then symbol buf 6 else Ok 61);
        put_bytes cap out [c1; c2; c3; 61]
      else Ok out
  | c :: s =>
      let buf := Z.lor buf (Z.shiftl c (Z.shiftl pos 3)) in
      let pos := pos - 1 in
      x ← (if pos <? 0 then
             c1 ← symbol buf 18; c2 ← symbol buf 12; c3 ← symbol buf 6; c4 ← symbol buf 0;
             out ← put_bytes cap out [c1; c2; c3; c4];
             Ok (out, 2, 0)
           else Ok (out, pos, buf));
      let '(out, pos, buf) := x in
      y ← (if zlen out >=? lend then out ← put_bytes cap out [10]; Ok (out, zlen out + 76) else Ok (out, lend));
      let '(out, lend) := y in
      base64_encode_loop cap s out lend pos buf
  end.
Definition pg_base64_encode (cap : Z) (src out : list Z) : res (list Z) :=
  base64_encode_loop cap src out (zlen out + 76) 2 0.

(** [last] is the local variable end. *)
Fixpoint base64_decode_loop (cap : Z) (s out : list Z) (buf pos last : Z) : res (list Z) :=
  match s with
  | [] => if negb (pos =? 0) then Ereport ERRCODE_INVALID_PARAMETER_VALUE else Ok out
  | c :: s =>
      if is_blank c then base64_decode_loop cap s out buf pos last else
      x ← (if c =? 61 then
             if last =? 0 then
               if pos =? 2 then Ok (0, 1) else if pos =? 3 then Ok (0, 2) else Ereport ERRCODE_INVALID_PARAMETER_VALUE
             else Ok (0, last)
           else
             b ← (if (0 <? c) && (c <? 127) then rd b64lookup c else Ok (-1));
             if b <? 0 then Ereport ERRCODE_INVALID_PARAMETER_VALUE else Ok (b, last));
      let '(b, last) := x in
      let buf := wrap32 (Z.shiftl buf 6 + b) in
      let pos := pos + 1 in
      if pos =? 4 then
        out ← put_bytes cap out [Z.land (Z.shiftr buf 16) 255];
        out ← (if (last =? 0) || (last >? 1) then put_bytes cap out [Z.land (Z.shiftr buf 8) 255] else Ok out);
        out ← (if (last =? 0) || (last >? 2) then put_bytes cap out [Z.land buf 255] else Ok out);
        base64_decode_loop cap s out 0 0 last
      else base64_decode_loop cap s out buf pos last
  end.
Definition pg_base64_decode (cap : Z) (src out : list Z) : res (list Z) := base64_decode_loop cap src out 0 0 0.
Definition pg_base64_enc_len (src : list Z) : res Z := Ok ((zlen src + 2) / 3 * 4 + zlen src / (76 * 3 / 4)).
Definition pg_base64_dec_len (src : list Z) : res Z := Ok (Z.shiftr (zlen src * 3) 2).

(** ** Escape format *)

Definition VAL (c : Z) : Z := c - 48.
Definition DIG (v : Z) : Z := v + 48.

Fixpoint esc_encode (cap : Z) (src out : list Z) : res (list Z) :=
  match src with
  | [] => Ok out
  | c :: src =>
      out ← (if (c =? 0) || IS_HIGHBIT_SET c then
               put_bytes cap out [92; DIG (Z.shiftr c 6); DIG (Z.land (Z.shiftr c 3) 7); DIG (Z.land c 7)]
             else if c =? 92 then put_bytes cap out [92; 92]
             else put_bytes cap out [c]);
      esc_encode cap src out
  end.

Definition octal (c hi : Z) : bool := (48 <=? c) && (c <=? hi).

(** src[0] is a backslash: what follows it, as the byte it stands for and the rest *)
Definition escaped (src : list Z) : res (Z * list Z) :=
  match src with
  | a :: b :: c :: rest =>
      if octal a 51 && octal b 55 && octal c 55
      then Ok (Z.shiftl (Z.shiftl (VAL a) 3 + VAL b) 3 + VAL c, rest)
      else if a =? 92 then Ok (92, b :: c :: rest) else Ereport ERRCODE_INVALID_TEXT_REPRESENTATION
  | a :: rest => if a =? 92 then Ok (92, rest) else Ereport ERRCODE_INVALID_TEXT_REPRESENTATION
  | [] => Ereport ERRCODE_INVALID_TEXT_REPRESENTATION
  end.

(** while (src < end); at most as many rounds as there are bytes *)
Fixpoint esc_decode_loop (fuel : nat) (cap : Z) (src out : list Z) : res (list Z) :=
  match fuel with
  | O => Fuel
  | S fuel =>
      match src with
      | [] => Ok out
      | c :: src =>
          x ← (if negb (c =? 92) then Ok (c, src) else escaped src);
          out ← put_bytes cap out [fst x];
          esc_decode_loop fuel cap (snd x) out
      end
  end.
Definition esc_decode (cap : Z) (src out : list Z) : res (list Z) := esc_decode_loop (S (length src)) cap src out.

Fixpoint esc_enc_len_loop (src : list Z) (len : Z) : Z :=
  match src with
  | [] => len
  | c :: src => esc_enc_len_loop src (len + (if (c =? 0) || IS_HIGHBIT_SET c then 4 else if c =? 92 then 2 else 1))
  end.
Definition esc_enc_len (src : list Z) : res Z := Ok (esc_enc_len_loop src 0).
Fixpoint esc_dec_len_loop (fuel : nat) (src : list Z) (len : Z) : res Z :=
  match fuel with
  | O => Fuel
  | S fuel =>
      match src with
      | [] => Ok len
      | c :: src => x ← (if negb (c =? 92) then Ok (c, src) else escaped src); esc_dec_len_loop fuel (snd x) (len + 1)
      end
  end.
Definition esc_dec_len (src : list Z) : res Z := esc_dec_len_loop (S (length src)) src 0.

(** ** SQL functions *)

Record pg_encoding := {
  encode_len : list Z -> res Z;
  decode_len : list Z -> res Z;
  encode : Z -> list Z -> list Z -> res (list Z);
  decode : Z -> list Z -> list Z -> res (list Z)
}.
Definition hex_encoding : pg_encoding := Build_pg_encoding hex_enc_len hex_dec_len hex_encode hex_decode.
Definition base64_encoding : pg_encoding := Build_pg_encoding pg_base64_enc_len pg_base64_dec_len pg_base64_encode pg_base64_decode.
Definition escape_encoding : pg_encoding := Build_pg_encoding esc_enc_len esc_dec_len esc_encode esc_decode.
Definition enclist : list (list Z * pg_encoding) :=
  [([104; 101; 120], hex_encoding); ([98; 97; 115; 101; 54; 52], base64_encoding); ([101; 115; 99; 97; 112; 101], escape_encoding)].

(** pg_strcasecmp; [tolower] is what isupper and tolower make of a byte with the high bit.
    Both strings end with NUL. *)
Definition fold_case (tolower : Z -> Z) (c : Z) : Z :=
  if (65 <=? c) && (c <=? 90) then c + 32 else if IS_HIGHBIT_SET c then tolower c else c.
Fixpoint pg_strcasecmp (tolower : Z -> Z) (s1 s2 : list Z) : res Z :=
  match s1, s2 with
  | ch1 :: s1, ch2 :: s2 =>
      let f1 := if ch1 =? ch2 then ch1 else fold_case tolower ch1 in
      let f2 := if ch1 =? ch2 then ch2 else fold_case tolower ch2 in
      if negb (f1 =? f2) then Ok (f1 - f2) else if f1 =? 0 then Ok 0 else pg_strcasecmp tolower s1 s2
  | _, _ => Ub
  end.
Fixpoint find_encoding (tolower : Z -> Z) (list_ : list (list Z * pg_encoding)) (name : list Z) : res (option pg_encoding) :=
  match list_ with
  | [] => Ok None
  | (n, enc) :: rest =>
      r ← pg_strcasecmp tolower (n ++ [0]) name;
      if r =? 0 then Ok (Some enc) else find_encoding tolower rest name
  end.
Definition pg_find_encoding (tolower : Z -> Z) (name : list Z) : res (option pg_encoding) := find_encoding tolower enclist name.

Section binary.
Context (T : tenv) (tolower : Z -> Z).

(** Both directions, with the estimate and the conversion of the encoding *)
Definition convert (len_of : list Z -> res Z) (conv : Z -> list Z -> list Z -> res (list Z)) (data : list Z) : res (list Z) :=
  x ← text_data data;
  let '(dataptr, datalen) := x in
  src ← rdn dataptr 0 datalen;
  resultlen ← len_of src;
  if resultlen >? MaxAllocSize - VARHDRSZ then Ereport ERRCODE_PROGRAM_LIMIT_EXCEEDED else
  _ ← palloc (VARHDRSZ + resultlen);
  result ← conv resultlen src [];
  if zlen result >? resultlen then Ereport ERRCODE_INTERNAL_ERROR else
  Ok (SET_VARSIZE (zrep VARHDRSZ 0 ++ result) (VARHDRSZ + zlen result)).

Definition binary_encode (data name : list Z) : res (list Z) :=
  data ← DatumGetTextPP T data;
  namebuf ← text_to_cstring T name;
  enc ← pg_find_encoding tolower namebuf;
  match enc with
  | None => Ereport ERRCODE_INVALID_PARAMETER_VALUE
  | Some enc => convert (encode_len enc) (encode enc) data
  end.
Definition binary_decode (data name : list Z) : res (list Z) :=
  data ← DatumGetTextPP T data;
  namebuf ← text_to_cstring T name;
  enc ← pg_find_encoding tolower namebuf;
  match enc with
  | None => Ereport ERRCODE_INVALID_PARAMETER_VALUE
  | Some enc => convert (decode_len enc) (decode enc) data
  end.
End binary.
