(* ===== verification/EncodeOk.v ===== *)
(** What the encodings of encode.c promise: decoding gives back what was encoded, the
    estimates of the lengths are enough, and decoding anything at all stays inside its
    buffer.  [EncodingOk] states it for one encoding; hex, base64 and escape are its
    instances, and the theorems about binary_encode and binary_decode use nothing else. *)

From S2P Require Import Prelude Rle Varatt Pglz PglzHist PglzItems PglzCodec ToastCompression Oids ToastStore Detoast.
From S2P Require Import Wchar Mbchar Text TextOps Encode.

(** A result or an error that is reported, but no access outside the buffers *)
Definition finishes {A} (m : res A) : Prop := match m with Ok _ | Ereport _ => True | _ => False end.

Class EncodingOk (enc : pg_encoding) : Prop := {
  enc_round : forall data, bytes data -> exists n out m,
    encode_len enc data = Ok n /\ encode enc n data [] = Ok out /\ zlen out <= n <= 4 * zlen data /\ bytes out /\
    decode_len enc out = Ok m /\ zlen data <= m <= zlen out /\ decode enc m out [] = Ok data;
  enc_safe : forall src, bytes src -> finishes (m ← decode_len enc src; decode enc m src []) /\
    forall m out, decode_len enc src = Ok m -> decode enc m src [] = Ok out -> 0 <= m <= zlen src /\ zlen out <= m
}.

Lemma put_room cap out data : zlen out + zlen data <= cap -> put_bytes cap out data = Ok (out ++ data).
Proof. intros H. unfold put_bytes. by rewrite (proj2 (Z.leb_le _ _)). Qed.

(** ** Hexadecimal *)

Lemma hex_pair c :
  is_byte c -> exists h l v1 v2, rd hextbl (Z.land (Z.shiftr c 4) 0xF) = Ok h /\ rd hextbl (Z.land c 0xF) = Ok l /\
    is_blank h = false /\ get_hex h = Ok (Some v1) /\ get_hex l = Ok (Some v2) /\ Z.lor (Z.shiftl v1 4) v2 = c /\ is_byte h /\ is_byte l.
Proof.
  intros Hc. assert (Hall := zrange_forall 256 (fun c =>
    match rd hextbl (Z.land (Z.shiftr c 4) 0xF), rd hextbl (Z.land c 0xF) with
    | Ok h, Ok l => negb (is_blank h) && bytesb [h; l] &&
        match get_hex h, get_hex l with Ok (Some v1), Ok (Some v2) => Z.lor (Z.shiftl v1 4) v2 =? c | _, _ => false end
    | _, _ => false end) ltac:(vm_compute; reflexivity) c Hc). cbv beta in Hall.
  destruct (rd hextbl (Z.land (Z.shiftr c 4) 0xF)) as [h| | |]; try done. destruct (rd hextbl (Z.land c 0xF)) as [l| | |]; try done.
  apply andb_prop in Hall as [[Hb Hy]%andb_prop Hg]. destruct (get_hex h) as [[v1|]| | |] eqn:G1; try done. destruct (get_hex l) as [[v2|]| | |] eqn:G2; try done.
  apply (bytesb_spec [h; l]) in Hy. apply Forall_cons in Hy as [Hh Hy]. apply Forall_cons in Hy as [Hl _].
  exists h, l, v1, v2. split_and!; try done; [by destruct (is_blank h)|by apply Z.eqb_eq].
Qed.

Lemma hex_round src :
  bytes src -> forall cap out, zlen out + 2 * zlen src <= cap ->
  exists hs, hex_encode cap src out = Ok (out ++ hs) /\ zlen hs = 2 * zlen src /\ bytes hs /\
    forall cap' out', zlen out' + zlen src <= cap' -> hex_decode_safe cap' hs out' = Ok (out' ++ src).
Proof.
  induction 1 as [|c src Hc _ IH]; intros cap out Hcap.
  { exists []. simpl. rewrite app_nil_r. split_and!; try done. intros cap' out' _. by rewrite app_nil_r. }
  rewrite zlen_cons in Hcap. destruct (hex_pair c Hc) as (h & l & v1 & v2 & Eh & El & Hb & G1 & G2 & Hv & Hh & Hl).
  pose proof (zlen_nonneg src). assert (H2 : zlen (out ++ [h; l]) = zlen out + 2) by (rewrite zlen_app; done).
  destruct (IH cap (out ++ [h; l]) ltac:(lia)) as (hs & Heq & Hz & Hy & Hd). exists (h :: l :: hs).
  cbn [hex_encode]. rewrite Eh, El. bind. rewrite put_room by (change (zlen [h; l]) with 2; lia). bind. rewrite Heq, <- app_assoc.
  split; [done|]. split; [rewrite !zlen_cons, Hz; lia|]. split; [by repeat apply Forall_cons_2|]. intros cap' out' Hcap'. rewrite zlen_cons in Hcap'.
  cbn [hex_decode_safe]. rewrite Hb, G1. bind. rewrite G2. bind. rewrite put_room by (change (zlen [_]) with 1; lia). bind.
  rewrite Hd by (rewrite zlen_app; change (zlen [_]) with 1; lia). by rewrite <- app_assoc, Hv.
Qed.

Lemma get_hex_total c : is_byte c -> exists v, get_hex c = Ok v.
Proof.
  intros Hc. assert (Hall := zrange_forall 256 (fun c => match get_hex c with Ok _ => true | _ => false end) ltac:(vm_compute; reflexivity) c Hc).
  simpl in Hall. destruct (get_hex c); try done. eauto.
Qed.

Lemma hex_safe n : forall s cap out, (length s <= n)%nat -> bytes s -> 2 * zlen out + zlen s <= 2 * cap + 1 ->
  match hex_decode_safe cap s out with Ok r => zlen r <= cap | Ereport _ => True | _ => False end.
Proof.
  induction n as [|n IH]; intros s cap out Hn Hs Hcap.
  { destruct s; [|simpl in Hn; lia]. simpl. rewrite zlen_nil in Hcap. lia. }
  destruct s as [|c s]; [simpl; rewrite zlen_nil in Hcap; lia|]. apply Forall_cons in Hs as [Hc Hs]. rewrite zlen_cons in Hcap. cbn [length] in Hn.
  cbn [hex_decode_safe]. destruct (is_blank c); [apply IH; [lia|done|lia]|]. destruct (get_hex_total c Hc) as [[v1|] ->]; [|done]. bind.
  destruct s as [|c2 s]; [done|]. apply Forall_cons in Hs as [Hc2 Hs]. rewrite zlen_cons in Hcap. cbn [length] in Hn. pose proof (zlen_nonneg s).
  destruct (get_hex_total c2 Hc2) as [[v2|] ->]; [|done]. bind. rewrite put_room by (change (zlen [_]) with 1; lia). bind.
  apply IH; [lia|done|]. rewrite zlen_app. change (zlen [_]) with 1. lia.
Qed.

#[export] Instance hex_ok : EncodingOk hex_encoding.
Proof.
  split.
  - intros data Hd. pose proof (zlen_nonneg data). unfold hex_encoding, hex_enc_len, hex_dec_len. simpl.
    destruct (hex_round data Hd (Z.shiftl (zlen data) 1) []) as (hs & Henc & Hz & Hy & Hdec); [rewrite Z.shiftl_mul_pow2 by lia; change (zlen []) with 0; lia|].
    exists (Z.shiftl (zlen data) 1), hs, (Z.shiftr (zlen hs) 1). rewrite Henc. rewrite Z.shiftl_mul_pow2, Z.shiftr_div_pow2 by lia. change (2 ^ 1) with 2.
    split_and!; try done; try lia. unfold hex_decode. apply Hdec. change (zlen []) with 0. lia.
  - intros src Hs. pose proof (hex_safe (length src) src (Z.shiftr (zlen src) 1) [] ltac:(lia) Hs) as H. pose proof (zlen_nonneg src).
    rewrite Z.shiftr_div_pow2 in H by lia. specialize (H ltac:(change (zlen []) with 0; lia)). unfold hex_encoding, hex_dec_len, hex_decode. cbn [decode_len decode].
    rewrite Z.shiftr_div_pow2 by lia. bind. split.
    + by destruct (hex_decode_safe _ src []).
    + intros m out [= <-] Heq. rewrite Heq in H. lia.
Qed.

(** ** Base64 *)

(** [c] is the symbol for [i]. *)
Definition sym (i c : Z) : Prop :=
  rd base64_ i = Ok c /\ is_blank c = false /\ (c =? 61) = false /\ (0 <? c) && (c <? 127) = true /\ rd b64lookup c = Ok i /\ is_byte c.

Lemma sym_ok i : 0 <= i < 64 -> exists c, sym i c.
Proof.
  intros Hi. assert (Hall := zrange_forall 64 (fun i => match rd base64_ i with
    | Ok c => negb (is_blank c) && negb (c =? 61) && ((0 <? c) && (c <? 127)) && match rd b64lookup c with Ok j => j =? i | _ => false end
    | _ => false end) ltac:(vm_compute; reflexivity) i Hi). cbv beta in Hall. unfold sym.
  destruct (rd base64_ i) as [c| | |]; try done. exists c. destruct (rd b64lookup c) as [j| | |]; rewrite ?andb_false_r in Hall; try done.
  unfold is_byte. destruct (is_blank c), (c =? 61), (Z.eqb_spec j i); try (rewrite ?andb_false_r in Hall; done). subst j. split_and!; try done; lia.
Qed.

(** The symbols of a group of 24 bits *)
Definition group_index (B sh : Z) : Z := Z.land (Z.shiftr B sh) 63.
Lemma group_index_eq B sh : 0 <= sh -> group_index B sh = B / 2 ^ sh mod 64.
Proof. intros Hs. unfold group_index. change 63 with (Z.ones 6). by rewrite Z.land_ones, Z.shiftr_div_pow2. Qed.
Lemma symbol_ok B sh : 0 <= sh -> exists c, symbol B sh = Ok c /\ sym (group_index B sh) c.
Proof.
  intros Hs. destruct (sym_ok (group_index B sh)) as (c & Hc); [rewrite group_index_eq by done; lia|]. exists c. split; [apply Hc|done].
Qed.

Lemma decode_sym cap i c s out buf pos last :
  sym i c -> 0 <= i < 64 -> 0 <= buf < 2 ^ 26 -> pos <> 3 ->
  base64_decode_loop cap (c :: s) out buf pos last = base64_decode_loop cap s out (buf * 64 + i) (pos + 1) last.
Proof.
  intros (_ & Hb & He & Hr & Hl & _) Hi Hbuf Hpos. cbn [base64_decode_loop]. rewrite Hb, He, Hr, Hl. bind. destruct (Z.ltb_spec i 0); [lia|]. bind.
  destruct (Z.eqb_spec (pos + 1) 4); [lia|]. f_equal. rewrite Z.shiftl_mul_pow2 by lia. unfold wrap32. rewrite Z.mod_small; lia.
Qed.

Lemma shr_byte buf sh : 0 <= sh -> Z.land (Z.shiftr buf sh) 255 = buf / 2 ^ sh mod 256.
Proof. intros Hs. change 255 with (Z.ones 8). by rewrite Z.land_ones, Z.shiftr_div_pow2. Qed.
Lemma land_byte buf : Z.land buf 255 = buf mod 256.
Proof. change 255 with (Z.ones 8). by rewrite Z.land_ones. Qed.

(** Four symbols give three bytes. *)
Lemma decode_group cap B c1 c2 c3 c4 s out :
  0 <= B < 2 ^ 24 -> sym (group_index B 18) c1 -> sym (group_index B 12) c2 -> sym (group_index B 6) c3 -> sym (group_index B 0) c4 ->
  zlen out + 3 <= cap ->
  base64_decode_loop cap (c1 :: c2 :: c3 :: c4 :: s) out 0 0 0 =
  base64_decode_loop cap s (out ++ [B / 65536; B / 256 mod 256; B mod 256]) 0 0 0.
Proof.
  intros HB S1 S2 S3 S4 Hcap. rewrite !group_index_eq in * by lia. change (2 ^ 0) with 1 in *.
  rewrite (decode_sym _ (B / 2 ^ 18 mod 64)) by (done || lia). rewrite (decode_sym _ (B / 2 ^ 12 mod 64)) by (done || lia).
  rewrite (decode_sym _ (B / 2 ^ 6 mod 64)) by (done || lia).
  destruct S4 as (_ & Hb & He & Hr & Hl & _). cbn [base64_decode_loop]. rewrite Hb, He, Hr, Hl. bind. destruct (Z.ltb_spec (B / 1 mod 64) 0); [lia|]. bind.
  change (0 + 1 + 1 + 1 + 1 =? 4) with true. cbn iota. rewrite Z.shiftl_mul_pow2 by lia.
  replace (wrap32 _) with B by (unfold wrap32; rewrite Z.mod_small; lia). rewrite !shr_byte, land_byte by lia.
  rewrite put_room by (change (zlen [_]) with 1; lia). bind. change ((0 =? 0) || _) with true. cbn iota.
  rewrite put_room by (rewrite zlen_app; change (zlen [_]) with 1; lia). bind.
  change ((0 =? 0) || _) with true. cbn iota. rewrite put_room by (rewrite !zlen_app; change (zlen [_]) with 1; lia). bind.
  rewrite <- !app_assoc. simpl. by replace (B / 2 ^ 16 mod 256) with (B / 65536) by (change (2 ^ 16) with 65536; lia).
Qed.

(** The padding *)
Lemma decode_pad cap s out buf :
  0 <= buf < 2 ^ 26 -> base64_decode_loop cap (61 :: s) out buf 2 0 = base64_decode_loop cap s out (buf * 64) 3 1.
Proof.
  intros Hb. cbn [base64_decode_loop]. change (is_blank 61) with false. cbn iota. change (61 =? 61) with true. change (0 =? 0) with true. change (2 =? 2) with true.
  cbn iota. bind. change (2 + 1 =? 4) with false. cbn iota. f_equal. rewrite Z.shiftl_mul_pow2, Z.add_0_r by lia. unfold wrap32. rewrite Z.mod_small; lia.
Qed.

Lemma decode_last cap out buf last :
  0 <= buf < 2 ^ 18 -> last = 0 \/ last = 1 -> zlen out + 2 <= cap + last ->
  base64_decode_loop cap [61] out buf 3 last =
  Ok (out ++ (if last =? 0 then [buf / 2 ^ 10 mod 256; buf / 2 ^ 2 mod 256] else [buf / 2 ^ 10 mod 256])).
Proof.
  intros Hb Hl Hcap. cbn [base64_decode_loop]. change (is_blank 61) with false. cbn iota. change (61 =? 61) with true. change (3 =? 2) with false.
  change (3 =? 3) with true. change (3 + 1 =? 4) with true. change (0 =? 0) with true. cbn [negb]. cbn iota.
  assert (Hw : wrap32 (Z.shiftl buf 6 + 0) = buf * 64) by (rewrite Z.shiftl_mul_pow2 by lia; unfold wrap32; rewrite Z.mod_small; lia).
  destruct Hl as [->| ->].
  - change (0 =? 0) with true. cbn iota. bind. rewrite Hw, !shr_byte by lia. rewrite put_room by (change (zlen [_]) with 1; lia). bind.
    change ((2 =? 0) || (2 >? 1)) with true. cbn iota. rewrite put_room by (rewrite zlen_app; change (zlen [_]) with 1; lia). bind.
    change ((2 =? 0) || (2 >? 2)) with false. cbn iota. bind. rewrite <- app_assoc. simpl. do 3 f_equal; [lia|]. f_equal. lia.
  - change (1 =? 0) with false. cbn iota. bind. rewrite Hw, !shr_byte by lia. rewrite put_room by (change (zlen [_]) with 1; lia). bind.
    change ((1 =? 0) || (1 >? 1)) with false. change ((1 =? 0) || (1 >? 2)) with false. cbn [orb]. cbn iota. bind. do 3 f_equal. lia.
Qed.

Lemma decode_tail1 cap a c1 c2 out :
  is_byte a -> sym (group_index (a * 65536) 18) c1 -> sym (group_index (a * 65536) 12) c2 -> zlen out + 1 <= cap ->
  base64_decode_loop cap [c1; c2; 61; 61] out 0 0 0 = Ok (out ++ [a]).
Proof.
  intros Ha S1 S2 Hcap. unfold is_byte in Ha. rewrite !group_index_eq in * by lia.
  rewrite (decode_sym _ (a * 65536 / 2 ^ 18 mod 64)) by (done || lia). rewrite (decode_sym _ (a * 65536 / 2 ^ 12 mod 64)) by (done || lia).
  change (0 + 1 + 1) with 2. rewrite decode_pad, decode_last by lia. change (1 =? 0) with false. cbn iota. do 3 f_equal. lia.
Qed.

Lemma decode_tail2 cap a b c1 c2 c3 out :
  is_byte a -> is_byte b -> let B := a * 65536 + b * 256 in
  sym (group_index B 18) c1 -> sym (group_index B 12) c2 -> sym (group_index B 6) c3 -> zlen out + 2 <= cap ->
  base64_decode_loop cap [c1; c2; c3; 61] out 0 0 0 = Ok (out ++ [a; b]).
Proof.
  intros Ha Hb B S1 S2 S3 Hcap. unfold is_byte in Ha, Hb. assert (HB : 0 <= B < 2 ^ 24 /\ B / 65536 = a /\ B / 256 mod 256 = b /\ B mod 256 = 0) by (unfold B; lia).
  rewrite !group_index_eq in * by lia.
  rewrite (decode_sym _ (B / 2 ^ 18 mod 64)) by (done || lia). rewrite (decode_sym _ (B / 2 ^ 12 mod 64)) by (done || lia).
  rewrite (decode_sym _ (B / 2 ^ 6 mod 64)) by (done || lia). change (0 + 1 + 1 + 1) with 3. rewrite decode_last by lia.
  change (0 =? 0) with true. cbn iota. do 3 f_equal; [lia|]. f_equal. lia.
Qed.

Lemma decode_blank cap c s out buf pos last :
  is_blank c = true -> base64_decode_loop cap (c :: s) out buf pos last = base64_decode_loop cap s out buf pos last.
Proof. intros H. cbn [base64_decode_loop]. by rewrite H. Qed.

(** The buffer after one, two and three bytes of a group *)
Lemma group_bits a b c :
  is_byte a -> is_byte b -> is_byte c ->
  Z.lor 0 (Z.shiftl a (Z.shiftl 2 3)) = a * 65536 /\
  Z.lor (a * 65536) (Z.shiftl b (Z.shiftl 1 3)) = a * 65536 + b * 256 /\
  Z.lor (a * 65536 + b * 256) (Z.shiftl c (Z.shiftl 0 3)) = a * 65536 + b * 256 + c.
Proof.
  unfold is_byte. intros Ha Hb Hc. change (Z.shiftl 2 3) with 16. change (Z.shiftl 1 3) with 8. change (Z.shiftl 0 3) with 0.
  rewrite Z.lor_0_l, !Z.shiftl_mul_pow2 by lia. split; [done|]. split.
  - exact (lor_disjoint a (b * 2 ^ 8) 16 ltac:(lia) ltac:(lia)).
  - replace (a * 65536 + b * 256) with ((a * 256 + b) * 2 ^ 8) by lia. change (2 ^ 0) with 1. rewrite Z.mul_1_r. apply lor_disjoint; lia.
Qed.

(** One byte, in the middle of a group *)
Lemma encode_byte cap a s out lend pos buf :
  1 <= pos <= 2 -> zlen out < lend ->
  base64_encode_loop cap (a :: s) out lend pos buf =
  base64_encode_loop cap s out lend (pos - 1) (Z.lor buf (Z.shiftl a (Z.shiftl pos 3))).
Proof.
  intros Hp Hl. cbn [base64_encode_loop]. destruct (Z.ltb_spec (pos - 1) 0); [lia|]. bind. destruct (Z.geb_spec (zlen out) lend); [lia|]. done.
Qed.

(** The last byte of a group: four symbols, and a linefeed where one is due *)
Lemma encode_group cap c s out lend buf :
  zlen out + 5 <= cap \/ zlen out + 4 <= cap /\ zlen out + 4 < lend ->
  exists c1 c2 c3 c4, let B := Z.lor buf (Z.shiftl c (Z.shiftl 0 3)) in
    sym (group_index B 18) c1 /\ sym (group_index B 12) c2 /\ sym (group_index B 6) c3 /\ sym (group_index B 0) c4 /\
    base64_encode_loop cap (c :: s) out lend 0 buf =
    if zlen out + 4 >=? lend then base64_encode_loop cap s (out ++ [c1; c2; c3; c4; 10]) (zlen out + 5 + 76) 2 0
    else base64_encode_loop cap s (out ++ [c1; c2; c3; c4]) lend 2 0.
Proof.
  intros Hcap. set (B := Z.lor buf (Z.shiftl c (Z.shiftl 0 3))).
  destruct (symbol_ok B 18 ltac:(lia)) as (c1 & E1 & S1). destruct (symbol_ok B 12 ltac:(lia)) as (c2 & E2 & S2).
  destruct (symbol_ok B 6 ltac:(lia)) as (c3 & E3 & S3). destruct (symbol_ok B 0 ltac:(lia)) as (c4 & E4 & S4).
  exists c1, c2, c3, c4. split_and!; try done. cbn [base64_encode_loop]. fold B. change (0 - 1 <? 0) with true. cbn iota.
  rewrite E1, E2, E3, E4. bind. rewrite put_room by (change (zlen [_; _; _; _]) with 4; lia). bind. rewrite zlen_app. change (zlen [_; _; _; _]) with 4.
  destruct (Z.geb_spec (zlen out + 4) lend); [|done].
  rewrite put_room by (rewrite zlen_app; change (zlen [_; _; _; _]) with 4; change (zlen [_]) with 1; lia). bind.
  rewrite <- app_assoc. simpl. f_equal. rewrite zlen_app. change (zlen [_; _; _; _; _]) with 5. lia.
Qed.

Lemma decode_three cap a b c c1 c2 c3 c4 nl rest src out :
  is_byte a -> is_byte b -> is_byte c -> let B := a * 65536 + b * 256 + c in
  sym (group_index B 18) c1 -> sym (group_index B 12) c2 -> sym (group_index B 6) c3 -> sym (group_index B 0) c4 -> nl = [] \/ nl = [10] ->
  (forall cap' out', zlen out' + zlen src <= cap' -> base64_decode_loop cap' rest out' 0 0 0 = Ok (out' ++ src)) ->
  zlen out + (3 + zlen src) <= cap ->
  base64_decode_loop cap ([c1; c2; c3; c4] ++ nl ++ rest) out 0 0 0 = Ok (out ++ a :: b :: c :: src).
Proof.
  intros Ha Hb Hc B S1 S2 S3 S4 Hnl Hrest Hcap. unfold is_byte in Ha, Hb, Hc. pose proof (zlen_nonneg src).
  assert (0 <= B < 2 ^ 24 /\ B / 65536 = a /\ B / 256 mod 256 = b /\ B mod 256 = c) as (HB & HB1 & HB2 & HB3) by (unfold B; lia).
  cbn [app]. rewrite (decode_group cap B) by (done || lia). rewrite HB1, HB2, HB3.
  assert (Hz : zlen (out ++ [a; b; c]) = zlen out + 3) by (rewrite zlen_app; done).
  destruct Hnl as [->| ->]; cbn [app]; [|rewrite decode_blank by done]; rewrite Hrest by lia; by rewrite <- app_assoc.
Qed.

(** The whole, from the beginning of a group: [k] groups have been written, with a linefeed
    after every nineteen. *)
Lemma base64_round n : forall src k cap out lend,
  (length src <= n)%nat -> bytes src -> 0 <= k -> zlen out = 4 * k + k / 19 -> lend = 76 * (k / 19 + 1) + k / 19 ->
  4 * (k + (zlen src + 2) / 3) + (3 * k + zlen src) / 57 <= cap ->
  exists es, base64_encode_loop cap src out lend 2 0 = Ok (out ++ es) /\ bytes es /\
    4 * ((zlen src + 2) / 3) <= zlen es /\ zlen out + zlen es <= 4 * (k + (zlen src + 2) / 3) + (3 * k + zlen src) / 57 /\
    forall cap' out', zlen out' + zlen src <= cap' -> base64_decode_loop cap' es out' 0 0 0 = Ok (out' ++ src).
Proof.
  induction n as [|n IH]; intros src k cap out lend Hn Hs Hk Hout Hlend Hcap.
  { destruct src; [|simpl in Hn; lia]. exists []. simpl. rewrite !app_nil_r. change (zlen []) with 0 in *. split_and!; try done; try lia. intros. by rewrite app_nil_r. }
  destruct src as [|a [|b [|c src]]].
  - exists []. simpl. rewrite !app_nil_r. change (zlen []) with 0 in *. split_and!; try done; try lia. intros. by rewrite app_nil_r.
  - apply Forall_cons in Hs as [Ha _]. destruct (group_bits a 0 0 Ha ltac:(done) ltac:(done)) as (G1 & _). change (zlen [a]) with 1 in *.
    rewrite encode_byte, G1 by lia. destruct (symbol_ok (a * 65536) 18 ltac:(lia)) as (c1 & E1 & S1). destruct (symbol_ok (a * 65536) 12 ltac:(lia)) as (c2 & E2 & S2).
    exists [c1; c2; 61; 61]. change (2 - 1) with 1. cbn [base64_encode_loop]. change (negb (1 =? 2)) with true. cbn iota. rewrite E1, E2. bind. change (1 =? 0) with false. cbn iota. bind.
    rewrite put_room by (change (zlen [_; _; _; _]) with 4; lia). change (zlen [c1; c2; 61; 61]) with 4. split; [done|].
    split; [repeat apply Forall_cons_2; try done; [apply S1|apply S2]|]. split_and!; try lia. intros cap' out' Hc'. by apply decode_tail1.
  - apply Forall_cons in Hs as [Ha Hs]. apply Forall_cons in Hs as [Hb _]. destruct (group_bits a b 0 Ha Hb ltac:(done)) as (G1 & G2 & _). change (zlen [a; b]) with 2 in *.
    rewrite encode_byte, G1 by lia. change (2 - 1) with 1. rewrite encode_byte, G2 by lia. set (B := a * 65536 + b * 256) in *.
    destruct (symbol_ok B 18 ltac:(lia)) as (c1 & E1 & S1). destruct (symbol_ok B 12 ltac:(lia)) as (c2 & E2 & S2). destruct (symbol_ok B 6 ltac:(lia)) as (c3 & E3 & S3).
    exists [c1; c2; c3; 61]. change (1 - 1) with 0. cbn [base64_encode_loop]. change (negb (0 =? 2)) with true. change (0 =? 0) with true. cbn iota. rewrite E1, E2, E3. bind.
    rewrite put_room by (change (zlen [_; _; _; _]) with 4; lia). change (zlen [c1; c2; c3; 61]) with 4. split; [done|].
    split; [repeat apply Forall_cons_2; try done; [apply S1|apply S2|apply S3]|]. split_and!; try lia. intros cap' out' Hc'. by apply decode_tail2.
  - apply Forall_cons in Hs as [Ha Hs]. apply Forall_cons in Hs as [Hb Hs]. apply Forall_cons in Hs as [Hc Hs]. destruct (group_bits a b c Ha Hb Hc) as (G1 & G2 & G3).
    rewrite !zlen_cons in *. pose proof (zlen_nonneg src). set (m := zlen src) in *. rewrite encode_byte, G1 by lia. change (2 - 1) with 1. rewrite encode_byte, G2 by lia. change (1 - 1) with 0.
    destruct (encode_group cap c src out lend (a * 65536 + b * 256)) as (c1 & c2 & c3 & c4 & S1 & S2 & S3 & S4 & ->); [lia|].
    rewrite G3 in *. set (B := a * 65536 + b * 256 + c) in *.
    assert (Hsy : bytes [c1; c2; c3; c4]) by (repeat apply Forall_cons_2; try done; [apply S1|apply S2|apply S3|apply S4]).
    cbn [length] in Hn. destruct (Z.geb_spec (zlen out + 4) lend) as [Hge|Hlt].
    + destruct (IH src (k + 1) cap (out ++ [c1; c2; c3; c4; 10]) (zlen out + 5 + 76)) as (es & Heq & Hy & Hl1 & Hl2 & Hd);
        [lia|done|lia|rewrite zlen_app; change (zlen [_; _; _; _; _]) with 5; lia|lia|fold m; lia|]. fold m in Hl1, Hl2, Hd.
      exists ([c1; c2; c3; c4] ++ [10] ++ es). rewrite Heq, <- app_assoc. split; [done|]. split; [by repeat apply Forall_app_2; [| |]; try done; repeat constructor|].
      rewrite zlen_app in Hl2. change (zlen [_; _; _; _; _]) with 5 in Hl2. rewrite !zlen_app. change (zlen [_; _; _; _]) with 4. change (zlen [_]) with 1. split_and!; try lia. intros cap' out' Hc'.
      apply (decode_three cap' a b c c1 c2 c3 c4 [10] es src); try done; [by right|fold m; lia].
    + destruct (IH src (k + 1) cap (out ++ [c1; c2; c3; c4]) lend) as (es & Heq & Hy & Hl1 & Hl2 & Hd);
        [lia|done|lia|rewrite zlen_app; change (zlen [_; _; _; _]) with 4; lia|lia|fold m; lia|]. fold m in Hl1, Hl2, Hd.
      exists ([c1; c2; c3; c4] ++ [] ++ es). rewrite Heq, <- app_assoc. split; [done|]. split; [by apply Forall_app_2|].
      rewrite zlen_app in Hl2. change (zlen [_; _; _; _]) with 4 in Hl2. rewrite !zlen_app. change (zlen [_; _; _; _]) with 4. change (zlen []) with 0. split_and!; try lia. intros cap' out' Hc'.
      apply (decode_three cap' a b c c1 c2 c3 c4 [] es src); try done; [by left|fold m; lia].
Qed.

Lemma b64lookup_total c : is_byte c -> exists b, (if (0 <? c) && (c <? 127) then rd b64lookup c else Ok (-1)) = Ok b.
Proof.
  intros Hc. assert (Hall := zrange_forall 256 (fun c => match (if (0 <? c) && (c <? 127) then rd b64lookup c else Ok (-1)) with Ok _ => true | _ => false end)
    ltac:(vm_compute; reflexivity) c Hc). cbv beta in Hall.
  match type of Hall with match ?m with _ => _ end = _ => destruct m end; try done. eauto.
Qed.

Lemma base64_safe s : bytes s -> forall cap out buf pos last,
  0 <= pos < 4 -> 4 * zlen out + 3 * (pos + zlen s) <= 4 * cap + 3 ->
  match base64_decode_loop cap s out buf pos last with Ok r => zlen r <= cap | Ereport _ => True | _ => False end.
Proof.
  induction 1 as [|c s Hc _ IH]; intros cap out buf pos last Hpos Hcap; cbn [base64_decode_loop].
  { destruct (Z.eqb_spec pos 0); [|done]. cbn [negb]. rewrite zlen_nil in Hcap. lia. }
  rewrite zlen_cons in Hcap. pose proof (zlen_nonneg s). destruct (is_blank c); [apply IH; lia|].
  assert (Hx : exists x, (if c =? 61 then if last =? 0 then if pos =? 2 then Ok (0, 1) else if pos =? 3 then Ok (0, 2) else Ereport ERRCODE_INVALID_PARAMETER_VALUE
    else Ok (0, last) else b ← (if (0 <? c) && (c <? 127) then rd b64lookup c else Ok (-1)); if b <? 0 then Ereport ERRCODE_INVALID_PARAMETER_VALUE else Ok (b, last)) = x /\
    match x with Ok _ | Ereport _ => True | _ => False end).
  { eexists. split; [done|]. destruct (b64lookup_total c Hc) as [b ->]. bind. repeat case_match; done. }
  destruct Hx as (x & -> & Hx). destruct x as [[b last']| | |]; try done. bind.
  destruct (Z.eqb_spec (pos + 1) 4); [|apply IH; lia].
  rewrite put_room by (change (zlen [_]) with 1; lia). bind.
  assert (Hput : forall (t : bool) o d, zlen o + 1 <= cap -> exists o', (if t then put_bytes cap o [d] else Ok o) = Ok o' /\ zlen o' <= zlen o + 1).
  { intros t o d Ho. destruct t; [rewrite put_room by (change (zlen [_]) with 1; lia); eexists; split; [done|rewrite zlen_app; change (zlen [_]) with 1; lia]|].
    eexists. split; [done|lia]. }
  assert (Hz : zlen (out ++ [Z.land (Z.shiftr (wrap32 (Z.shiftl buf 6 + b)) 16) 255]) = zlen out + 1) by (rewrite zlen_app; done).
  destruct (Hput ((last' =? 0) || (last' >? 1)) (out ++ [Z.land (Z.shiftr (wrap32 (Z.shiftl buf 6 + b)) 16) 255]) (Z.land (Z.shiftr (wrap32 (Z.shiftl buf 6 + b)) 8) 255))
    as (o1 & -> & H1); [lia|]. bind.
  destruct (Hput ((last' =? 0) || (last' >? 2)) o1 (Z.land (wrap32 (Z.shiftl buf 6 + b)) 255)) as (o2 & -> & H2); [lia|]. bind. apply IH; lia.
Qed.

#[export] Instance base64_ok : EncodingOk base64_encoding.
Proof.
  split.
  - intros data Hd. pose proof (zlen_nonneg data). unfold base64_encoding, pg_base64_enc_len, pg_base64_dec_len. cbn [encode_len decode_len encode decode].
    change (76 * 3 / 4) with 57. set (n := (zlen data + 2) / 3 * 4 + zlen data / 57).
    destruct (base64_round (length data) data 0 n [] 76 ltac:(lia) Hd ltac:(lia) eq_refl eq_refl) as (es & Henc & Hy & Hl1 & Hl2 & Hdec); [unfold n; lia|].
    change (zlen []) with 0 in *. exists n, es, (Z.shiftr (zlen es * 3) 2). unfold pg_base64_encode, pg_base64_decode. change (zlen [] + 76) with 76. rewrite Henc.
    rewrite Z.shiftr_div_pow2 by lia. change (2 ^ 2) with 4. split_and!; try done; try (unfold n; lia). apply Hdec. change (zlen []) with 0. lia.
  - intros src Hs. pose proof (zlen_nonneg src). unfold base64_encoding, pg_base64_dec_len, pg_base64_decode. cbn [decode_len decode]. rewrite Z.shiftr_div_pow2 by lia. bind.
    pose proof (base64_safe src Hs (zlen src * 3 / 2 ^ 2) [] 0 0 0 ltac:(lia) ltac:(change (zlen []) with 0; lia)) as H0. split.
    + by destruct (base64_decode_loop _ src [] 0 0 0).
    + intros m out [= <-] Heq. rewrite Heq in H0. lia.
Qed.

(** ** Escape format *)

Definition esc_size (c : Z) : Z := if (c =? 0) || IS_HIGHBIT_SET c then 4 else if c =? 92 then 2 else 1.
Lemma esc_size_pos c : 1 <= esc_size c <= 4.
Proof. unfold esc_size. repeat case_match; lia. Qed.
Lemma esc_enc_len_sum src n : esc_enc_len_loop src n = n + foldr (fun c s => esc_size c + s) 0 src.
Proof. revert n. induction src as [|c src IH]; intros n; simpl; [lia|]. rewrite IH. unfold esc_size. lia. Qed.

Lemma escaped_backslash rest : escaped (92 :: rest) = Ok (92, rest).
Proof. by destruct rest as [|b [|c rest]]. Qed.

Lemma escaped_octal c rest :
  is_byte c -> escaped (DIG (Z.shiftr c 6) :: DIG (Z.land (Z.shiftr c 3) 7) :: DIG (Z.land c 7) :: rest) = Ok (c, rest) /\
    bytes [92; DIG (Z.shiftr c 6); DIG (Z.land (Z.shiftr c 3) 7); DIG (Z.land c 7)].
Proof.
  intros Hc. assert (Hall := zrange_forall 256 (fun c => let a := DIG (Z.shiftr c 6) in let b := DIG (Z.land (Z.shiftr c 3) 7) in let d := DIG (Z.land c 7) in
    octal a 51 && octal b 55 && octal d 55 && (Z.shiftl (Z.shiftl (VAL a) 3 + VAL b) 3 + VAL d =? c) && bytesb [92; a; b; d]) ltac:(vm_compute; reflexivity) c Hc).
  cbv beta zeta in Hall. apply andb_prop in Hall as [[Ho Hv]%andb_prop Hb]. split; [|by apply bytesb_spec]. unfold escaped. rewrite Ho.
  apply Z.eqb_eq in Hv. by rewrite Hv.
Qed.

Lemma escape_round src :
  bytes src -> forall cap out, zlen out + foldr (fun c s => esc_size c + s) 0 src <= cap ->
  exists es, esc_encode cap src out = Ok (out ++ es) /\ zlen es = foldr (fun c s => esc_size c + s) 0 src /\ bytes es /\
    (forall fuel n, (length es < fuel)%nat -> esc_dec_len_loop fuel es n = Ok (n + zlen src)) /\
    forall fuel cap' out', (length es < fuel)%nat -> zlen out' + zlen src <= cap' -> esc_decode_loop fuel cap' es out' = Ok (out' ++ src).
Proof.
  induction 1 as [|c src Hc _ IH]; intros cap out Hcap.
  { exists []. simpl. rewrite app_nil_r. split_and!; try done; intros [|fuel]; simpl; intros; try lia; [by rewrite Z.add_0_r|by rewrite app_nil_r]. }
  cbn [foldr] in Hcap. assert (Hpos : forall l, 0 <= foldr (fun c s => esc_size c + s) 0 l) by (intros l; induction l as [|x l IHl]; simpl; [done|]; pose proof (esc_size_pos x); lia).
  assert (Hone : exists e, (if (c =? 0) || IS_HIGHBIT_SET c then put_bytes cap out [92; DIG (Z.shiftr c 6); DIG (Z.land (Z.shiftr c 3) 7); DIG (Z.land c 7)]
      else if c =? 92 then put_bytes cap out [92; 92] else put_bytes cap out [c]) = Ok (out ++ e) /\ zlen e = esc_size c /\ bytes e /\ exists d t, e = d :: t /\
      forall rest, (if negb (d =? 92) then Ok (d, t ++ rest) else escaped (t ++ rest)) = Ok (c, rest)).
  { specialize (Hpos src). unfold esc_size in *. destruct ((c =? 0) || IS_HIGHBIT_SET c).
    - destruct (escaped_octal c [] Hc) as [_ Hby]. eexists. split; [apply put_room; change (zlen [_; _; _; _]) with 4; lia|]. split_and!; try done.
      do 2 eexists. split; [done|]. intros rest. apply (escaped_octal c rest Hc).
    - destruct (Z.eqb_spec c 92) as [->|Hne].
      + eexists. split; [apply put_room; change (zlen [_; _]) with 2; lia|]. split_and!; try done; [by repeat constructor|]. do 2 eexists. split; [done|]. apply escaped_backslash.
      + eexists. split; [apply put_room; change (zlen [_]) with 1; lia|]. split_and!; try done; [by apply Forall_cons_2|]. do 2 eexists. split; [done|]. intros rest.
        destruct (Z.eqb_spec c 92); [done|]. done. }
  destruct Hone as (e & He & Hze & Hye & d & t & -> & Hdec). cbn [esc_encode]. rewrite He. bind.
  destruct (IH cap (out ++ d :: t)) as (es & Heq & Hz & Hy & Hl & Hd); [rewrite zlen_app; lia|]. exists ((d :: t) ++ es).
  rewrite Heq, <- app_assoc. split; [done|]. split; [rewrite zlen_app; simpl; lia|]. split; [by apply Forall_app_2|]. split.
  - intros [|fuel] n Hf; [lia|]. cbn [app esc_dec_len_loop]. rewrite Hdec. bind. cbn [snd]. rewrite Hl by (rewrite length_app in Hf; simpl in Hf; lia). rewrite zlen_cons. f_equal. lia.
  - intros [|fuel] cap' out' Hf Hc'; [lia|]. rewrite zlen_cons in Hc'. pose proof (zlen_nonneg src). cbn [app esc_decode_loop]. rewrite Hdec. bind. cbn [fst snd]. rewrite put_room by (change (zlen [_]) with 1; lia). bind.
    rewrite Hd; [by rewrite <- app_assoc|rewrite length_app in Hf; simpl in Hf; lia|rewrite zlen_app; change (zlen [_]) with 1; lia].
Qed.

(** What is escaped is either shorter afterwards or an error. *)
Lemma escaped_cases src :
  (exists c rest, escaped src = Ok (c, rest) /\ (length rest < length src)%nat) \/ exists e, escaped src = Ereport e.
Proof.
  unfold escaped. destruct src as [|a [|b [|c rest]]]; [right; eauto|..]; repeat case_match; (right; by eauto) || (left; do 2 eexists; split; [done|simpl; lia]).
Qed.

Lemma escape_safe fuel : forall src n, (length src < fuel)%nat ->
  (exists e, esc_dec_len_loop fuel src n = Ereport e) \/
  exists m, esc_dec_len_loop fuel src n = Ok (n + m) /\ 0 <= m <= zlen src /\
    forall cap out, zlen out + m <= cap -> exists r, esc_decode_loop fuel cap src out = Ok r /\ zlen r = zlen out + m.
Proof.
  induction fuel as [|fuel IH]; intros src n Hf; [lia|]. cbn [esc_dec_len_loop esc_decode_loop]. destruct src as [|c src].
  { right. exists 0. rewrite Z.add_0_r. split_and!; try done. intros cap out _. exists out. split; [done|lia]. }
  cbn [length] in Hf. rewrite zlen_cons. assert (Hx : (exists x, (if negb (c =? 92) then Ok (c, src) else escaped src) = Ok x /\ (length (snd x) <= length src)%nat) \/
    exists e, (if negb (c =? 92) then Ok (c, src) else escaped src) = Ereport e).
  { destruct (negb _); [left; by exists (c, src)|]. destruct (escaped_cases src) as [(d & rest & -> & Hl)|[e ->]]; [left; exists (d, rest); split; [done|simpl; lia]|right; eauto]. }
  destruct Hx as [([d rest] & -> & Hl)|[e ->]]; [|left; by exists e]. bind. cbn [fst snd] in *.
  destruct (IH rest (n + 1) ltac:(lia)) as [[e He]|(m & He & Hm & Hd)]; [left; by exists e|]. right. exists (m + 1). split; [rewrite He; f_equal; lia|].
  split; [unfold zlen in *; lia|]. intros cap out Hc. rewrite put_room by (change (zlen [_]) with 1; lia). bind.
  destruct (Hd cap (out ++ [d])) as (r & Hr & Hz); [rewrite zlen_app; change (zlen [_]) with 1; lia|]. exists r. split; [done|].
  rewrite Hz, zlen_app. change (zlen [_]) with 1. lia.
Qed.

#[export] Instance escape_ok : EncodingOk escape_encoding.
Proof.
  split.
  - intros data Hd. unfold escape_encoding, esc_enc_len, esc_dec_len, esc_decode. cbn [encode_len decode_len encode decode]. rewrite esc_enc_len_sum, Z.add_0_l.
    set (n := foldr (fun c s => esc_size c + s) 0 data). assert (Hn : zlen data <= n <= 4 * zlen data).
    { unfold n. clear. induction data as [|c data IH]; simpl; [done|]. rewrite zlen_cons. pose proof (esc_size_pos c). lia. }
    destruct (escape_round data Hd n []) as (es & Henc & Hz & Hy & Hl & Hdec); [fold n; change (zlen []) with 0; lia|]. fold n in Hz.
    exists n, es, (zlen data). rewrite Henc, Hl by lia. split_and!; try done; try lia. rewrite Hdec; [done|lia|change (zlen []) with 0; lia].
  - intros src _. unfold escape_encoding, esc_dec_len, esc_decode. cbn [decode_len decode].
    destruct (escape_safe (S (length src)) src 0 ltac:(lia)) as [[e ->]|(m & -> & Hm & Hd)]; [split; [done|]; intros m out; discriminate|]. bind.
    destruct (Hd (0 + m) []) as (r & Hr & Hz); [change (zlen []) with 0; lia|]. rewrite Hr. split; [done|]. intros m' out [= <-] Ho. rewrite Hr in Ho. injection Ho as <-. change (zlen []) with 0 in Hz. lia.
Qed.

(** ** binary_encode, binary_decode *)

Lemma found_encoding_ok tolower name enc : pg_find_encoding tolower name = Ok (Some enc) -> EncodingOk enc.
Proof.
  unfold pg_find_encoding, enclist. cbn [find_encoding]. intros H.
  do 3 (apply res_bind_Ok in H as (r & _ & H); destruct (r =? 0); [injection H as <-; apply _|clear r]). discriminate H.
Qed.

(** A comparison of two names that end in a zero byte reads neither past its end *)
Lemma strcasecmp_total tolower s1 : forall s2, In 0 s1 -> In 0 s2 -> exists r, pg_strcasecmp tolower s1 s2 = Ok r.
Proof.
  induction s1 as [|c1 s1 IH]; intros [|c2 s2] H1 H2; try done. cbn [pg_strcasecmp]. cbv zeta.
  destruct (negb _) eqn:Hne; [eauto|]. destruct (_ =? 0) eqn:Hz; [eauto|]. apply negb_false_iff, Z.eqb_eq in Hne.
  apply IH.
  - destruct H1 as [->|H1]; [|done]. by destruct (0 =? c2).
  - destruct H2 as [->|H2]; [|done]. rewrite Hne in Hz. by destruct (c1 =? 0).
Qed.
Lemma find_total tolower name : In 0 name -> exists r, pg_find_encoding tolower name = Ok r.
Proof.
  intros H. unfold pg_find_encoding. induction enclist as [|[n enc] l IH]; cbn [find_encoding]; [eauto|].
  destruct (strcasecmp_total tolower (n ++ [0]) name) as [r ->]; [apply in_or_app; right; by left|done|]. bind. destruct (r =? 0); eauto.
Qed.

(** ** The functions encode and decode *)

Lemma convert_unfold p data len conv :
  inline_value p data -> convert len conv p =
  (n ← len data; if n >? MaxAllocSize - VARHDRSZ then Ereport ERRCODE_PROGRAM_LIMIT_EXCEEDED else
   _ ← palloc (VARHDRSZ + n); out ← conv n data [];
   if zlen out >? n then Ereport ERRCODE_INTERNAL_ERROR else Ok (SET_VARSIZE (zrep VARHDRSZ 0 ++ out) (VARHDRSZ + zlen out))).
Proof.
  intros Hp. destruct (text_data_ok p data Hp) as [t Ht]. unfold convert. rewrite Ht. bind.
  pose proof (rdn_middle [] data t 0 (zlen data) eq_refl eq_refl) as R. simpl in R. by rewrite R.
Qed.

Lemma convert_ok p data len conv n out :
  inline_value p data -> len data = Ok n -> conv n data [] = Ok out -> zlen out <= n -> n <= MaxAllocSize - VARHDRSZ ->
  convert len conv p = Ok (mk_4b_u out).
Proof.
  intros Hp Hl Hc Ho Hn. pose proof (zlen_nonneg out). rewrite (convert_unfold p data) by done. rewrite Hl. bind. destruct (Z.gtb_spec n (MaxAllocSize - VARHDRSZ)); [lia|].
  unfold MaxAllocSize, VARHDRSZ in *. rewrite palloc_ok by (unfold MaxAllocSize; lia). bind.
  rewrite Hc. bind. destruct (Z.gtb_spec (zlen out) n); [lia|]. f_equal. rewrite Z.add_comm. apply make_text. change (2 ^ 30) with 1073741824. lia.
Qed.

Section binary_ok.
Context (T : tenv) (tolower : Z -> Z).

(** The name of an encoding, as the functions read it *)
Lemma cstring_ok name nm : holds (t_env T) name nm -> zlen nm < MaxAllocSize -> text_to_cstring T name = Ok (nm ++ [0]).
Proof.
  intros Hv Hn. destruct (packed_ok_text T name nm Hv) as (p & t & Hp & _ & Ht). unfold text_to_cstring. rewrite Hp. bind. rewrite Ht. bind.
  pose proof (zlen_nonneg nm). rewrite palloc_ok by lia. bind. pose proof (rdn_middle [] nm t 0 (zlen nm) eq_refl eq_refl) as R. simpl in R. by rewrite R.
Qed.

Lemma holds_size v data : holds (t_env T) v data -> zlen data <= MaxAllocSize - VARHDRSZ.
Proof.
  intros Hv. destruct (packed_ok_text T v data Hv) as (p & t & _ & Hi & _). unfold MaxAllocSize, VARHDRSZ.
  destruct Hi as [d t' Hd|d t' Hd]; [unfold ok_4b_u, VARHDRSZ in Hd|unfold ok_1b, VARATT_SHORT_MAX in Hd]; change (2 ^ 30) with 1073741824 in *; lia.
Qed.

(** Both functions read the packed value and find the encoding, then convert *)
Lemma binary_args v data name nm :
  holds (t_env T) v data -> holds (t_env T) name nm -> exists p found,
    inline_value p data /\ pg_find_encoding tolower (nm ++ [0]) = Ok found /\
    binary_encode T tolower v name = match found with None => Ereport ERRCODE_INVALID_PARAMETER_VALUE | Some enc => convert (encode_len enc) (encode enc) p end /\
    binary_decode T tolower v name = match found with None => Ereport ERRCODE_INVALID_PARAMETER_VALUE | Some enc => convert (decode_len enc) (decode enc) p end.
Proof.
  intros Hv Hn. destruct (packed_ok_text T v data Hv) as (p & t & Hp & Hi & _).
  destruct (find_total tolower (nm ++ [0])) as [found Hf]; [apply in_or_app; right; by left|]. exists p, found.
  unfold binary_encode, binary_decode. rewrite Hp. bind.
  rewrite (cstring_ok name nm) by first [done | pose proof (holds_size _ _ Hn); unfold VARHDRSZ in *; lia]. bind. by rewrite Hf.
Qed.

(** C19: encode and decode are inverse: for an encoding that the name selects, in any
    spelling of its case, decode(encode(data, name), name) is data, however data is
    stored; neither call fails, since the estimate of the encoded length is enough. *)
Theorem binary_roundtrip v data name nm enc :
  holds (t_env T) v data -> bytes data -> holds (t_env T) name nm -> pg_find_encoding tolower (nm ++ [0]) = Ok (Some enc) ->
  4 * zlen data <= MaxAllocSize - VARHDRSZ ->
  exists t, binary_encode T tolower v name = Ok t /\ binary_decode T tolower t name = Ok (mk_4b_u data).
Proof.
  intros Hv Hb Hn Hf Hm. destruct (enc_round (EncodingOk := found_encoding_ok _ _ _ Hf) data Hb) as (n & out & m & El & Eo & Hz & _ & Dl & Hz' & Do).
  exists (mk_4b_u out). split.
  - destruct (binary_args v data name nm Hv Hn) as (p & found & Hi & Hf' & -> & _). assert (found = Some enc) as -> by congruence.
    apply (convert_ok p data _ _ n); (done || lia).
  - assert (Ho : holds (t_env T) (mk_4b_u out) out).
    { apply inline_holds, mk_inline. unfold MaxAllocSize, VARHDRSZ in Hm. change (2 ^ 30) with 1073741824. lia. }
    destruct (binary_args _ out name nm Ho Hn) as (p & found & Hi & Hf' & _ & ->). assert (found = Some enc) as -> by congruence.
    apply (convert_ok p out _ _ m); (done || lia).
Qed.

(** decode is safe on every input: whatever the bytes of the value and whatever the
    name, it reports an error or gives a value no longer than its input, and reads and
    writes nothing outside its buffers.  (The texts of the messages, which quote the
    offending character, are not modelled.) *)
Theorem binary_decode_safe v src name nm :
  holds (t_env T) v src -> bytes src -> holds (t_env T) name nm ->
  finishes (binary_decode T tolower v name) /\
  forall r, binary_decode T tolower v name = Ok r -> exists out, r = mk_4b_u out /\ zlen out <= zlen src.
Proof.
  intros Hv Hb Hn. pose proof (holds_size v src Hv) as Hs.
  destruct (binary_args v src name nm Hv Hn) as (p & found & Hi & Hf & _ & ->).
  destruct found as [enc|]; [|done]. destruct (enc_safe (EncodingOk := found_encoding_ok _ _ _ Hf) src Hb) as [Hfin Hlen].
  destruct (decode_len enc src) as [m|e| |] eqn:Dl; try done; [|by rewrite (convert_unfold p src), Dl by done].
  cbn [mbind res_bind] in Hfin. destruct (decode enc m src []) as [out|e| |] eqn:Do; try done.
  - destruct (Hlen m out eq_refl Do) as [Hm Ho]. rewrite (convert_ok p src _ _ m out) by (done || lia). split; [done|]. intros r [= <-]. exists out. split; [done|lia].
  - rewrite (convert_unfold p src), Dl by done. bind. destruct (m >? _); [done|]. unfold palloc. destruct (_ && _); bind; [|done]. by rewrite Do.
Qed.
End binary_ok.

(** The name Base64 with a capital, and a value of ten bytes *)
Definition sample_name : list Z := [66; 97; 115; 101; 54; 52].
Lemma sample_name_holds : holds sample_env (mk_4b_u sample_name) sample_name.
Proof. apply (inline_holds sample_tenv), mk_inline. by vm_compute. Qed.

Lemma sample_name_base64 : pg_find_encoding (fun c => c) (sample_name ++ [0]) = Ok (Some base64_encoding).
Proof.
  unfold pg_find_encoding, enclist. cbn [find_encoding].
  do 2 (match goal with |- context [pg_strcasecmp ?f ?a ?b] =>
    let r := eval vm_compute in (pg_strcasecmp f a b) in replace (pg_strcasecmp f a b) with r by (vm_compute; reflexivity) end; bind; cbn [Z.eqb]).
  reflexivity.
Qed.

Lemma binary_roundtrip_witness :
  exists t, binary_encode sample_tenv (fun c => c) sample_text (mk_4b_u sample_name) = Ok t /\
    binary_decode sample_tenv (fun c => c) t (mk_4b_u sample_name) = Ok (mk_4b_u (concat sample_chars)).
Proof.
  refine (binary_roundtrip sample_tenv (fun c => c) sample_text (concat sample_chars) _ sample_name base64_encoding sample_text_holds _ sample_name_holds
    sample_name_base64 _).
  - apply bytesb_spec. vm_compute. reflexivity.
  - vm_compute. discriminate.
Defined.

Lemma binary_decode_safe_witness :
  finishes (binary_decode sample_tenv (fun c => c) sample_text (mk_4b_u sample_name)).
Proof.
  refine (proj1 (binary_decode_safe sample_tenv (fun c => c) sample_text (concat sample_chars) _ sample_name sample_text_holds _ sample_name_holds)).
  apply bytesb_spec. vm_compute. reflexivity.
Defined.
