(* ===== verification/Bytea.v ===== *)
(** The type bytea (varlena.c): its input and output, in the hex and in the escape format,
    and its functions and operators.  A bytea is a varlena like a text; the functions cloned
    from those of text are the same but for the detoasting macro. *)

From S2P Require Import Prelude Varatt Detoast StringInfo PqFormat Text Encode.

(** ** Input and output *)

(** One byte of the escape format at tp, a string that ends with NUL: the byte and what
    follows it.  Both passes of byteain read it with the same conditions. *)
Definition bytea_char (tp : list Z) : res (Z * list Z) :=
  tp0 ← rd tp 0;
  if negb (tp0 =? 92) then Ok (tp0, drop 1 tp) else
  tp1 ← rd tp 1;
  oct ← (if octal tp1 51 then
           tp2 ← rd tp 2;
           if octal tp2 55 then tp3 ← rd tp 3; Ok (if octal tp3 55 then Some (tp2, tp3) else None) else Ok None
         else Ok None);
  match oct with
  | Some (tp2, tp3) => Ok (Z.shiftl (Z.shiftl (VAL tp1) 3 + VAL tp2) 3 + VAL tp3, drop 4 tp)
  | None => if tp1 =? 92 then Ok (92, drop 2 tp) else Ereport ERRCODE_INVALID_TEXT_REPRESENTATION
  end.

(** The first pass: the number of bytes up to the NUL *)
Fixpoint byteain_count (fuel : nat) (tp : list Z) (bc : Z) : res Z :=
  match fuel with
  | O => Fuel
  | S fuel => c ← rd tp 0; if c =? 0 then Ok bc else x ← bytea_char tp; byteain_count fuel (snd x) (bc + 1)
  end.
(** The second pass: the bytes, into a buffer of that size *)
Fixpoint byteain_fill (fuel : nat) (cap : Z) (tp rp : list Z) : res (list Z) :=
  match fuel with
  | O => Fuel
  | S fuel => c ← rd tp 0; if c =? 0 then Ok rp else x ← bytea_char tp; rp ← put_bytes cap rp [fst x]; byteain_fill fuel cap (snd x) rp
  end.

(** The argument ends with NUL, so that the second byte is read only after a first. *)
Definition byteain (inputText : list Z) : res (list Z) :=
  c0 ← rd inputText 0;
  hex ← (if c0 =? 92 then c1 ← rd inputText 1; Ok (c1 =? 120) else Ok false);
  if (hex : bool) then
    len ← strlen inputText;
    let bc := int32_of ((len - 2) / 2 + VARHDRSZ) in
    _ ← palloc bc;
    src ← rdn inputText 2 (len - 2);
    result ← hex_decode_safe (bc - VARHDRSZ) src [];
    Ok (SET_VARSIZE (zrep VARHDRSZ 0 ++ result) (zlen result + VARHDRSZ))
  else
    bc ← byteain_count (S (length inputText)) inputText 0;
    let bc := int32_of (bc + VARHDRSZ) in
    _ ← palloc bc;
    result ← byteain_fill (S (length inputText)) (bc - VARHDRSZ) inputText [];
    Ok (SET_VARSIZE (zrep VARHDRSZ 0 ++ result) bc).

Definition unprintable (c : Z) : bool := (c <? 0x20) || (c >? 0x7e).
Fixpoint byteaout_len (vp : list Z) (len : Z) : Z :=
  match vp with
  | [] => len
  | c :: vp => byteaout_len vp (len + (if c =? 92 then 2 else if unprintable c then 4 else 1))
  end.
(** val is *vp, a char that may be negative. *)
Fixpoint byteaout_escape (cap : Z) (vp rp : list Z) : res (list Z) :=
  match vp with
  | [] => Ok rp
  | c :: vp =>
      rp ← (if c =? 92 then put_bytes cap rp [92; 92]
            else if unprintable c then
              let val := schar c in
              put_bytes cap rp [92; DIG (Z.land (Z.shiftr (Z.shiftr val 3) 3) 3); DIG (Z.land (Z.shiftr val 3) 7); DIG (Z.land val 7)]
            else put_bytes cap rp [c]);
      byteaout_escape cap vp rp
  end.

Definition BYTEA_OUTPUT_ESCAPE : Z := 0.
Definition BYTEA_OUTPUT_HEX : Z := 1.

Section bytea.
Context (E : env).

Definition DatumGetByteaPP (datum : list Z) : res (list Z) := pg_detoast_datum_packed E datum.
Definition pg_detoast_datum_copy (datum : list Z) : res (list Z) :=
  e ← VARATT_IS_EXTENDED datum;
  if (e : bool) then detoast_attr E datum else
  len ← VARSIZE datum;
  _ ← palloc len;
  rdn datum 0 len.
Definition DatumGetByteaPCopy (datum : list Z) : res (list Z) := pg_detoast_datum_copy datum.
Definition DatumGetByteaPSlice (datum : list Z) (m n : Z) : res (list Z) := pg_detoast_datum_slice E datum m n.

Definition byteaout (bytea_output : Z) (vlena : list Z) : res (list Z) :=
  vlena ← DatumGetByteaPP vlena;
  x ← text_data vlena;
  let '(vp, len) := x in
  if bytea_output =? BYTEA_OUTPUT_HEX then
    _ ← palloc (len * 2 + 2 + 1);
    src ← rdn vp 0 len;
    hex ← hex_encode (len * 2) src [];
    Ok ([92; 120] ++ hex ++ [0])
  else if bytea_output =? BYTEA_OUTPUT_ESCAPE then
    src ← rdn vp 0 len;
    let len := byteaout_len src 1 in
    if len >? MaxAllocSize then Ereport ERRCODE_PROGRAM_LIMIT_EXCEEDED else
    _ ← palloc len;
    rp ← byteaout_escape len src [];
    put_bytes len rp [0]
  else Ereport ERRCODE_INTERNAL_ERROR.

Definition byteasend (vlena : list Z) : res (list Z) := DatumGetByteaPCopy vlena.
(** The value, and the message read to its end *)
Definition bytearecv (buf : StringInfoData) : res (list Z * StringInfoData) :=
  let nbytes := si_len buf - si_cursor buf in
  _ ← palloc (nbytes + VARHDRSZ);
  x ← pq_copymsgbytes buf nbytes;
  Ok (SET_VARSIZE (zrep VARHDRSZ 0 ++ x.1) (nbytes + VARHDRSZ), x.2).

(** ** Functions *)

Definition byteaoctetlen (str : list Z) : res Z :=
  size ← toast_raw_datum_size E str; Ok (size - VARHDRSZ).

Definition bytea_catenate (t1 t2 : list Z) : res (list Z) :=
  x1 ← text_data t1; x2 ← text_data t2;
  let '(p1, len1) := x1 in
  let '(p2, len2) := x2 in
  let len1 := if len1 <? 0 then 0 else len1 in
  let len2 := if len2 <? 0 then 0 else len2 in
  let len := len1 + len2 + VARHDRSZ in
  _ ← palloc len;
  d1 ← (if len1 >? 0 then rdn p1 0 len1 else Ok []);
  d2 ← (if len2 >? 0 then rdn p2 0 len2 else Ok []);
  Ok (SET_VARSIZE (zrep VARHDRSZ 0 ++ d1 ++ d2) len).
Definition byteacat (t1 t2 : list Z) : res (list Z) :=
  t1 ← DatumGetByteaPP t1; t2 ← DatumGetByteaPP t2; bytea_catenate t1 t2.

Definition PG_STR_GET_BYTEA (str_ : list Z) : res (list Z) := x ← byteain (str_ ++ [0]); DatumGetByteaPP x.
Definition bytea_substring (str : list Z) (S L : Z) (length_not_specified : bool) : res (list Z) :=
  let S1 := Z.max S 1 in
  if length_not_specified then DatumGetByteaPSlice str (S1 - 1) (-1)
  else if L <? 0 then Ereport ERRCODE_SUBSTRING_ERROR
  else match pg_add_s32_overflow S L with
       | None => DatumGetByteaPSlice str (S1 - 1) (-1)
       | Some E => if E <? 1 then PG_STR_GET_BYTEA [] else DatumGetByteaPSlice str (S1 - 1) (E - S1)
       end.
Definition bytea_substr (str : list Z) (S L : Z) : res (list Z) := bytea_substring str S L false.
Definition bytea_substr_no_len (str : list Z) (S : Z) : res (list Z) := bytea_substring str S (-1) true.

Definition bytea_overlay (t1 t2 : list Z) (sp sl : Z) : res (list Z) :=
  if sp <=? 0 then Ereport ERRCODE_SUBSTRING_ERROR else
  match pg_add_s32_overflow sp sl with
  | None => Ereport ERRCODE_NUMERIC_VALUE_OUT_OF_RANGE
  | Some sp_pl_sl =>
      s1 ← bytea_substring t1 1 (sp - 1) false;
      s2 ← bytea_substring t1 sp_pl_sl (-1) true;
      result ← bytea_catenate s1 t2;
      bytea_catenate result s2
  end.
Definition byteaoverlay (t1 t2 : list Z) (sp sl : Z) : res (list Z) :=
  t1 ← DatumGetByteaPP t1; t2 ← DatumGetByteaPP t2; bytea_overlay t1 t2 sp sl.
Definition byteaoverlay_no_len (t1 t2 : list Z) (sp : Z) : res (list Z) :=
  t1 ← DatumGetByteaPP t1; t2 ← DatumGetByteaPP t2; sl ← VARSIZE_ANY_EXHDR t2; bytea_overlay t1 t2 sp sl.

(** for (p = 0; p <= px; p++): the position p, and p1 advanced to it *)
Definition byteapos_body (p2 : list Z) (len2 px : Z) (x : Z * list Z) : res (Z * list Z + Z) :=
  let '(p, p1) := x in
  if p <=? px then
    b ← rd p2 0; a ← rd p1 0;
    same ← (if b =? a then r ← memcmp p1 p2 (Z.to_nat len2); Ok (r =? 0) else Ok false);
    if (same : bool) then Ok (inr (p + 1)) else Ok (inl (p + 1, drop 1 p1))
  else Ok (inr 0).
Definition byteapos (t1 t2 : list Z) : res Z :=
  t1 ← DatumGetByteaPP t1; t2 ← DatumGetByteaPP t2;
  x1 ← text_data t1; x2 ← text_data t2;
  let '(p1, len1) := x1 in
  let '(p2, len2) := x2 in
  if len2 <=? 0 then Ok 1 else
  let px := len1 - len2 in
  iter (Z.to_nat (len1 + 2)) (byteapos_body p2 len2 px) (0, p1).

Definition byteaGetByte (v : list Z) (n : Z) : res Z :=
  v ← DatumGetByteaPP v;
  x ← text_data v;
  let '(p, len) := x in
  if (n <? 0) || (n >=? len) then Ereport ERRCODE_ARRAY_SUBSCRIPT_ERROR else rd p n.
Definition byteaGetBit (v : list Z) (n : Z) : res Z :=
  v ← DatumGetByteaPP v;
  x ← text_data v;
  let '(p, len) := x in
  if (n <? 0) || (n >=? len * 8) then Ereport ERRCODE_ARRAY_SUBSCRIPT_ERROR else
  let byteNo := n / 8 in
  let bitNo := n mod 8 in
  byte ← rd p byteNo;
  Ok (if negb (Z.land byte (Z.shiftl 1 bitNo) =? 0) then 1 else 0).
Definition byteaSetByte (res_ : list Z) (n newByte : Z) : res (list Z) :=
  res_ ← DatumGetByteaPCopy res_;
  size ← VARSIZE res_;
  let len := size - VARHDRSZ in
  if (n <? 0) || (n >=? len) then Ereport ERRCODE_ARRAY_SUBSCRIPT_ERROR else
  wr res_ (VARHDRSZ + n) [newByte mod 256].
Definition byteaSetBit (res_ : list Z) (n newBit : Z) : res (list Z) :=
  res_ ← DatumGetByteaPCopy res_;
  size ← VARSIZE res_;
  let len := size - VARHDRSZ in
  if (n <? 0) || (n >=? len * 8) then Ereport ERRCODE_ARRAY_SUBSCRIPT_ERROR else
  let byteNo := n / 8 in
  let bitNo := n mod 8 in
  if negb (newBit =? 0) && negb (newBit =? 1) then Ereport ERRCODE_INVALID_PARAMETER_VALUE else
  oldByte ← rd res_ (VARHDRSZ + byteNo);
  let newByte := if newBit =? 0 then Z.land oldByte (Z.lnot (Z.shiftl 1 bitNo)) else Z.lor oldByte (Z.shiftl 1 bitNo) in
  wr res_ (VARHDRSZ + byteNo) [newByte mod 256].

(** ** Operators *)

Definition byteaeq (arg1 arg2 : list Z) : res bool :=
  len1 ← toast_raw_datum_size E arg1; len2 ← toast_raw_datum_size E arg2;
  if negb (len1 =? len2) then Ok false else
  barg1 ← DatumGetByteaPP arg1; barg2 ← DatumGetByteaPP arg2;
  x1 ← text_data barg1; x2 ← text_data barg2;
  r ← memcmp x1.1 x2.1 (Z.to_nat (len1 - VARHDRSZ)); Ok (r =? 0).
Definition byteane (arg1 arg2 : list Z) : res bool :=
  len1 ← toast_raw_datum_size E arg1; len2 ← toast_raw_datum_size E arg2;
  if negb (len1 =? len2) then Ok true else
  barg1 ← DatumGetByteaPP arg1; barg2 ← DatumGetByteaPP arg2;
  x1 ← text_data barg1; x2 ← text_data barg2;
  r ← memcmp x1.1 x2.1 (Z.to_nat (len1 - VARHDRSZ)); Ok (negb (r =? 0)).

(** The comparison of the common length, and the lengths, as each operator has them *)
Definition bytea_memcmp (arg1 arg2 : list Z) : res (Z * Z * Z) :=
  arg1 ← DatumGetByteaPP arg1; arg2 ← DatumGetByteaPP arg2;
  x1 ← text_data arg1; x2 ← text_data arg2;
  let '(p1, len1) := x1 in
  let '(p2, len2) := x2 in
  cmp ← memcmp p1 p2 (Z.to_nat (Z.min len1 len2));
  Ok (cmp, len1, len2).
Definition bytealt (arg1 arg2 : list Z) : res bool :=
  x ← bytea_memcmp arg1 arg2; let '(cmp, len1, len2) := x in Ok ((cmp <? 0) || ((cmp =? 0) && (len1 <? len2))).
Definition byteale (arg1 arg2 : list Z) : res bool :=
  x ← bytea_memcmp arg1 arg2; let '(cmp, len1, len2) := x in Ok ((cmp <? 0) || ((cmp =? 0) && (len1 <=? len2))).
Definition byteagt (arg1 arg2 : list Z) : res bool :=
  x ← bytea_memcmp arg1 arg2; let '(cmp, len1, len2) := x in Ok ((cmp >? 0) || ((cmp =? 0) && (len1 >? len2))).
Definition byteage (arg1 arg2 : list Z) : res bool :=
  x ← bytea_memcmp arg1 arg2; let '(cmp, len1, len2) := x in Ok ((cmp >? 0) || ((cmp =? 0) && (len1 >=? len2))).
Definition byteacmp (arg1 arg2 : list Z) : res Z :=
  x ← bytea_memcmp arg1 arg2;
  let '(cmp, len1, len2) := x in
  Ok (if (cmp =? 0) && negb (len1 =? len2) then if len1 <? len2 then -1 else 1 else cmp).
End bytea.
