(* ===== verification/ByteaOk.v ===== *)
(** What the functions of bytea promise.  Output and input are inverse in both formats, and
    input is safe on every string; the functions are those of sequences of bytes and of
    bits; the operators are the order of memcmp. *)

From S2P Require Import Prelude Rle Varatt Pglz PglzHist PglzItems PglzCodec ToastCompression Oids ToastStore Detoast.
From S2P Require Import Wchar Mbchar StringInfo PqFormat Text TextOps TextCmp Encode EncodeOk Bytea.

(** ** Input and output *)

Abbreviation nonzero := (fun c : Z => c <> 0).

Lemma hex_digit_nonzero i h : rd hextbl i = Ok h -> h <> 0.
Proof.
  intros H. assert (Hall : Forall nonzero hextbl) by (repeat constructor; done). unfold rd in H. destruct (0 <=? i); [|done].
  destruct (hextbl !! Z.to_nat i) as [x|] eqn:Hx; [|done]. injection H as <-. exact (Forall_lookup_1 _ _ _ _ Hall Hx).
Qed.
Lemma hex_nonzero cap src : forall out o, hex_encode cap src out = Ok o -> Forall nonzero out -> Forall nonzero o.
Proof.
  induction src as [|c src IH]; intros out o H Hout; cbn [hex_encode] in H; [by injection H as <-|].
  apply res_bind_Ok in H as (h & Hh & H). apply res_bind_Ok in H as (l & Hl & H). apply res_bind_Ok in H as (out' & Hp & H).
  apply (IH out' o H). unfold put_bytes in Hp. destruct (_ <=? _); [|done]. injection Hp as <-.
  apply Forall_app. split; [done|]. repeat constructor; by eapply hex_digit_nonzero.
Qed.

(** What byteaout writes for a byte in the escape format *)
Definition escape_of (c : Z) : list Z :=
  if c =? 92 then [92; 92]
  else if unprintable c then
    [92; DIG (Z.land (Z.shiftr (Z.shiftr (schar c) 3) 3) 3); DIG (Z.land (Z.shiftr (schar c) 3) 7); DIG (Z.land (schar c) 7)]
  else [c].

Lemma escape_octal c : is_byte c -> exists a b d,
  [92; DIG (Z.land (Z.shiftr (Z.shiftr (schar c) 3) 3) 3); DIG (Z.land (Z.shiftr (schar c) 3) 7); DIG (Z.land (schar c) 7)] = [92; a; b; d] /\
  octal a 51 = true /\ octal b 55 = true /\ octal d 55 = true /\ Z.shiftl (Z.shiftl (VAL a) 3 + VAL b) 3 + VAL d = c.
Proof.
  intros Hc. assert (Hall := zrange_forall 256 (fun c =>
    let a := DIG (Z.land (Z.shiftr (Z.shiftr (schar c) 3) 3) 3) in let b := DIG (Z.land (Z.shiftr (schar c) 3) 7) in let d := DIG (Z.land (schar c) 7) in
    octal a 51 && octal b 55 && octal d 55 && (Z.shiftl (Z.shiftl (VAL a) 3 + VAL b) 3 + VAL d =? c)) ltac:(vm_compute; reflexivity) c Hc).
  cbv beta zeta in Hall. apply andb_prop in Hall as [[[H1 H2]%andb_prop H3]%andb_prop H4]. do 3 eexists. split; [done|].
  split_and!; try done. by apply Z.eqb_eq.
Qed.

Lemma octal_nonzero c hi : octal c hi = true -> c <> 0.
Proof. unfold octal. lia. Qed.

(** The reader gets the byte back, whatever follows. *)
Lemma escape_read c rest : is_byte c ->
  Forall nonzero (escape_of c) /\ bytea_char (escape_of c ++ rest) = Ok (c, rest) /\ 1 <= zlen (escape_of c) <= 4 /\
  exists h, rd (escape_of c ++ rest) 0 = Ok h /\ h <> 0 /\ (h = 92 -> exists h2, rd (escape_of c ++ rest) 1 = Ok h2 /\ h2 <> 120).
Proof.
  intros Hc. unfold escape_of. destruct (Z.eqb_spec c 92) as [->|H92].
  { split_and!; [by repeat constructor|done..|]. eexists. split; [done|]. split; [done|]. intros _. by eexists. }
  destruct (unprintable c) eqn:Hu.
  - destruct (escape_octal c Hc) as (a & b & d & -> & Ha & Hb & Hd & Hv). pose proof (octal_nonzero _ _ Ha). pose proof (octal_nonzero _ _ Hb). pose proof (octal_nonzero _ _ Hd).
    split; [by repeat constructor|]. split; [|split; [done|]].
    + unfold bytea_char. cbn [app]. cbn [rd]. change (rd (92 :: ?x) 0) with (Ok 92). change (rd (92 :: a :: ?x) 1) with (Ok a).
      change (rd (92 :: a :: b :: ?x) 2) with (Ok b). change (rd (92 :: a :: b :: d :: ?x) 3) with (Ok d). bind. rewrite Ha, Hb, Hd. cbn [Z.eqb negb]. bind. by rewrite Hv.
    + exists 92. split; [done|]. split; [done|]. intros _. exists a. split; [done|]. unfold octal in Ha. lia.
  - assert (Hz : c <> 0) by (unfold unprintable in Hu; lia). split; [by repeat constructor|]. split; [|split; [done|]].
    + unfold bytea_char. change (rd ([c] ++ rest) 0) with (Ok c). bind. by destruct (Z.eqb_spec c 92).
    + exists c. by split_and!.
Qed.

Abbreviation escapes data := (concat (map escape_of data)).

Lemma escapes_size data : bytes data -> zlen data <= zlen (escapes data) <= 4 * zlen data.
Proof.
  induction 1 as [|c data Hc _ IH]; [done|]. cbn [map concat]. rewrite zlen_app, zlen_cons. destruct (escape_read c [] Hc) as (_ & _ & Hz & _). lia.
Qed.
Lemma byteaout_len_ok data : forall len, byteaout_len data len = len + zlen (escapes data).
Proof.
  induction data as [|c data IH]; intros len; cbn [byteaout_len map concat]; [by rewrite Z.add_0_r|]. rewrite IH, zlen_app. unfold escape_of.
  destruct (c =? 92); [|destruct (unprintable c)]; unfold zlen; simpl; lia.
Qed.
Lemma byteaout_escape_ok cap data : forall rp, zlen rp + zlen (escapes data) <= cap -> byteaout_escape cap data rp = Ok (rp ++ escapes data).
Proof.
  induction data as [|c data IH]; intros rp Hcap; cbn [byteaout_escape map concat] in *; [by rewrite app_nil_r|]. rewrite zlen_app in Hcap. pose proof (zlen_nonneg (escapes data)).
  assert (Hput : (if c =? 92 then put_bytes cap rp [92; 92] else if unprintable c then
      let val := schar c in put_bytes cap rp [92; DIG (Z.land (Z.shiftr (Z.shiftr val 3) 3) 3); DIG (Z.land (Z.shiftr val 3) 7); DIG (Z.land val 7)]
      else put_bytes cap rp [c]) = Ok (rp ++ escape_of c)).
  { rewrite <- put_room with (cap := cap) by lia. unfold escape_of. by destruct (c =? 92), (unprintable c). }
  cbv zeta in Hput |- *. rewrite Hput. bind. rewrite IH by (rewrite zlen_app; lia). by rewrite <- app_assoc.
Qed.

Lemma byteain_count_ok data : bytes data -> forall fuel bc, (length data < fuel)%nat -> byteain_count fuel (escapes data ++ [0]) bc = Ok (bc + zlen data).
Proof.
  induction 1 as [|c data Hc _ IH]; intros [|fuel] bc Hf; simpl in Hf; try lia; [cbn [map concat app byteain_count]; change (rd [0] 0) with (Ok 0); bind; change (zlen []) with 0; by rewrite Z.add_0_r|]. cbn [byteain_count map concat]. rewrite <- app_assoc.
  destruct (escape_read c (escapes data ++ [0]) Hc) as (_ & Hr & _ & h & Hh & Hn & _). rewrite Hh. bind. destruct (Z.eqb_spec h 0); [done|]. rewrite Hr. bind.
  rewrite IH by (simpl in *; lia). f_equal. rewrite zlen_cons. lia.
Qed.
Lemma byteain_fill_ok data : bytes data -> forall fuel cap rp, (length data < fuel)%nat -> zlen rp + zlen data <= cap ->
  byteain_fill fuel cap (escapes data ++ [0]) rp = Ok (rp ++ data).
Proof.
  induction 1 as [|c data Hc _ IH]; intros [|fuel] cap rp Hf Hcap; simpl in Hf; try lia; [cbn; by rewrite app_nil_r|]. cbn [byteain_fill map concat]. rewrite <- app_assoc.
  destruct (escape_read c (escapes data ++ [0]) Hc) as (_ & Hr & _ & h & Hh & Hn & _). rewrite Hh. bind. destruct (Z.eqb_spec h 0); [done|]. rewrite Hr. bind.
  rewrite zlen_cons in Hcap. pose proof (zlen_nonneg data). rewrite put_room by (change (zlen [_]) with 1; lia). bind.
  rewrite IH by first [simpl in *; lia | rewrite zlen_app; change (zlen [_]) with 1; lia]. by rewrite <- app_assoc.
Qed.

Lemma not_hex data : bytes data ->
  exists c0, rd (escapes data ++ [0]) 0 = Ok c0 /\ (if c0 =? 92 then c1 ← rd (escapes data ++ [0]) 1; Ok (c1 =? 120) else Ok false) = Ok false.
Proof.
  intros [|c d Hc Hd]; [by eexists|]. cbn [map concat]. rewrite <- app_assoc. destruct (escape_read c (escapes d ++ [0]) Hc) as (_ & _ & _ & h & Hh & _ & H2).
  exists h. split; [done|]. destruct (Z.eqb_spec h 92); [|done]. destruct H2 as (h2 & -> & Hne); [done|]. bind. f_equal. by apply Z.eqb_neq.
Qed.

Lemma byteain_escape data : bytes data -> zlen data <= MaxAllocSize - VARHDRSZ -> byteain (escapes data ++ [0]) = Ok (mk_4b_u data).
Proof.
  intros Hb Hn. unfold byteain. destruct (not_hex data Hb) as (c0 & -> & Hx). bind. rewrite Hx. bind. pose proof (escapes_size data Hb) as [Hs _].
  assert (Hf : (length data < S (length (escapes data ++ [0%Z])))%nat) by (rewrite length_app; unfold zlen in Hs; simpl; lia).
  rewrite byteain_count_ok by done. bind. pose proof (zlen_nonneg data). unfold MaxAllocSize, VARHDRSZ in *.
  rewrite int32_small by lia. rewrite palloc_ok by (unfold MaxAllocSize; lia). bind.
  rewrite byteain_fill_ok by (done || (change (zlen []) with 0; lia)). bind. f_equal. apply make_text. change (2 ^ 30) with 1073741824. lia.
Qed.

Lemma byteain_hex data hs :
  zlen hs = 2 * zlen data -> Forall nonzero hs -> (forall cap' out', zlen out' + zlen data <= cap' -> hex_decode_safe cap' hs out' = Ok (out' ++ data)) ->
  zlen data <= MaxAllocSize - VARHDRSZ -> byteain ([92; 120] ++ hs ++ [0]) = Ok (mk_4b_u data).
Proof.
  intros Hz Hnz Hd Hn. unfold byteain. change (rd ([92; 120] ++ hs ++ [0]) 0) with (Ok 92). change (rd ([92; 120] ++ hs ++ [0]) 1) with (Ok 120). bind. change (92 =? 92) with true. change (120 =? 120) with true. bind.
  rewrite app_assoc, strlen_ok by (apply Forall_app; split; [by repeat constructor|done]). bind. rewrite zlen_app. change (zlen [92; 120]) with 2.
  replace (2 + zlen hs - 2) with (zlen hs) by lia. replace (zlen hs / 2) with (zlen data) by (rewrite Hz, Z.mul_comm, Z.div_mul; lia). pose proof (zlen_nonneg data). unfold MaxAllocSize, VARHDRSZ in *.
  rewrite int32_small by lia. rewrite palloc_ok by (unfold MaxAllocSize; lia). bind. rewrite <- app_assoc, rdn_middle by done. bind.
  rewrite Hd by (change (zlen []) with 0; lia). bind. f_equal. apply make_text. change (2 ^ 30) with 1073741824. lia.
Qed.

(** *** Any string *)

Lemma bytea_char_safe c s : Forall nonzero (c :: s) ->
  match bytea_char (c :: s ++ [0]) with
  | Ok (_, rest) => exists s', rest = s' ++ [0] /\ Forall nonzero s' /\ (length s' <= length s)%nat
  | Ereport _ => True
  | _ => False
  end.
Proof.
  intros [Hc Hs]%Forall_cons. unfold bytea_char. change (rd (c :: ?x) 0) with (Ok c). bind. destruct (negb _); [exists s; split_and!; [done..|lia]|].
  destruct Hs as [|c1 s H1 Hs]; [done|]. change (rd (c :: (c1 :: s) ++ [0]) 1) with (Ok c1). bind. destruct (octal c1 51).
  - destruct Hs as [|c2 s H2 Hs]; [change (rd (c :: [c1] ++ [0]) 2) with (Ok 0); bind; cbn [octal]; bind; destruct (c1 =? 92); [exists []; split_and!; [done..|simpl; lia]|done]|].
    change (rd (c :: (c1 :: c2 :: s) ++ [0]) 2) with (Ok c2). bind. destruct (octal c2 55).
    + destruct Hs as [|c3 s H3 Hs]; [change (rd (c :: [c1; c2] ++ [0]) 3) with (Ok 0); bind; change (octal 0 55) with false; cbn iota; destruct (c1 =? 92); [exists [c2]; split_and!; [done|by constructor|simpl; lia]|done]|].
      change (rd (c :: (c1 :: c2 :: c3 :: s) ++ [0]) 3) with (Ok c3). bind. destruct (octal c3 55); [exists s; simpl; split_and!; [done..|lia]|].
      destruct (c1 =? 92); [|done]. exists (c2 :: c3 :: s). split_and!; [done|by repeat constructor|simpl; lia].
    + bind. destruct (c1 =? 92); [|done]. exists (c2 :: s). split_and!; [done|by constructor|simpl; lia].
  - bind. destruct (c1 =? 92); [|done]. exists s. split_and!; [done..|simpl; lia].
Qed.

(** The second pass finds what the first has counted. *)
Lemma count_fill fuel : forall tp bc n cap rp,
  byteain_count fuel tp bc = Ok n -> zlen rp + (n - bc) <= cap ->
  bc <= n /\ exists out, byteain_fill fuel cap tp rp = Ok out /\ zlen out = zlen rp + (n - bc).
Proof.
  induction fuel as [|fuel IH]; [done|]. intros tp bc n cap rp H Hcap. cbn [byteain_count byteain_fill] in *.
  apply res_bind_Ok in H as (c & -> & H). bind. destruct (c =? 0).
  { injection H as <-. split; [lia|]. exists rp. split; [done|lia]. }
  apply res_bind_Ok in H as (x & -> & H). bind.
  destruct (IH _ _ _ (n - (bc + 1) + zlen (rp ++ [x.1])) (rp ++ [x.1]) H) as [Hle _]; [lia|]. split; [lia|].
  rewrite put_room by (change (zlen [_]) with 1; lia). bind. destruct (IH _ _ _ cap (rp ++ [x.1]) H) as (_ & out & Ho & Hz).
  - rewrite zlen_app. change (zlen [_]) with 1. lia.
  - exists out. split; [done|]. rewrite Hz, zlen_app. change (zlen [_]) with 1. lia.
Qed.

Lemma count_finishes fuel : forall s bc, Forall nonzero s -> (length s < fuel)%nat -> 
  match byteain_count fuel (s ++ [0]) bc with Ok n => n <= bc + zlen s | Ereport _ => True | _ => False end.
Proof.
  induction fuel as [|fuel IH]; intros s bc Hs Hf; [lia|]. cbn [byteain_count]. destruct s as [|c s]; [cbn; unfold zlen; simpl; lia|].
  change (rd ((c :: s) ++ [0]) 0) with (Ok c). bind. inversion_clear Hs as [|? ? Hc Hs']. destruct (Z.eqb_spec c 0); [done|].
  pose proof (bytea_char_safe c s ltac:(by constructor)) as Hchar. cbn [app]. destruct (bytea_char (c :: s ++ [0])) as [[v rest]| | |]; try done.
  destruct Hchar as (s' & -> & Hs'' & Hl). bind. specialize (IH s' (bc + 1) Hs'' ltac:(simpl in Hf; lia)).
  cbn [snd]. destruct (byteain_count fuel (s' ++ [0]) (bc + 1)); try done. rewrite zlen_cons. unfold zlen in *. lia.
Qed.

Lemma escapes_nonzero data : bytes data -> Forall nonzero (escapes data).
Proof. induction 1 as [|c data Hc _ IH]; [constructor|]. cbn [map concat]. apply Forall_app. split; [by apply (escape_read c [] Hc)|done]. Qed.

(** The contents of a packed value, as the functions read them *)
Lemma bytea_data E v data : holds E v data -> exists p t,
  DatumGetByteaPP E v = Ok p /\ inline_value p data /\ text_data p = Ok (data ++ t, zlen data) /\ rdn (data ++ t) 0 (zlen data) = Ok data.
Proof.
  intros Hv. destruct (packed_datum_ok _ _ _ Hv) as (p & Hp & Hi). destruct (text_data_ok p data Hi) as [t Ht].
  exists p, t. split_and!; try done. exact (rdn_middle [] data t 0 (zlen data) eq_refl eq_refl).
Qed.

Lemma byteaout_hex E v data :
  holds E v data -> bytes data -> 2 * zlen data + 3 <= MaxAllocSize -> exists hs,
  byteaout E BYTEA_OUTPUT_HEX v = Ok ([92; 120] ++ hs ++ [0]) /\ zlen hs = 2 * zlen data /\ Forall nonzero hs /\
  forall cap' out', zlen out' + zlen data <= cap' -> hex_decode_safe cap' hs out' = Ok (out' ++ data).
Proof.
  intros Hv Hb Hn. destruct (bytea_data E v data Hv) as (p & t & Hp & _ & Ht & Hr). pose proof (zlen_nonneg data).
  destruct (hex_round data Hb (zlen data * 2) []) as (hs & He & Hz & _ & Hd); [change (zlen []) with 0; lia|]. exists hs.
  unfold byteaout. rewrite Hp. bind. rewrite Ht. bind. change (BYTEA_OUTPUT_HEX =? BYTEA_OUTPUT_HEX) with true. cbn iota.
  rewrite palloc_ok by lia. bind. rewrite Hr. bind. rewrite He. bind. split_and!; try done.
  exact (hex_nonzero _ _ _ _ He (Forall_nil_2 _)).
Qed.

Lemma byteaout_escapes E v data :
  holds E v data -> bytes data -> 4 * zlen data + 1 <= MaxAllocSize -> byteaout E BYTEA_OUTPUT_ESCAPE v = Ok (escapes data ++ [0]).
Proof.
  intros Hv Hb Hn. destruct (bytea_data E v data Hv) as (p & t & Hp & _ & Ht & Hr). pose proof (escapes_size data Hb). pose proof (zlen_nonneg data).
  unfold byteaout. rewrite Hp. bind. rewrite Ht. bind. change (BYTEA_OUTPUT_ESCAPE =? BYTEA_OUTPUT_HEX) with false. change (BYTEA_OUTPUT_ESCAPE =? BYTEA_OUTPUT_ESCAPE) with true.
  cbn iota. rewrite Hr. bind. rewrite byteaout_len_ok. destruct (Z.gtb_spec (1 + zlen (escapes data)) MaxAllocSize); [lia|].
  rewrite palloc_ok by lia. bind. rewrite byteaout_escape_ok by (change (zlen []) with 0; lia). bind. cbn [app]. apply put_room. change (zlen [0]) with 1. lia.
Qed.

Abbreviation bounded_value n m := (match m with Ok r => exists data, r = mk_4b_u data /\ zlen data <= n | Ereport _ => True | _ => False end).

Lemma byteain_escape_safe s :
  Forall nonzero s -> zlen s < MaxAllocSize - VARHDRSZ ->
  bounded_value (zlen s) (bc ← byteain_count (S (length (s ++ [0]))) (s ++ [0]) 0; let bc := int32_of (bc + VARHDRSZ) in _ ← palloc bc;
    result ← byteain_fill (S (length (s ++ [0]))) (bc - VARHDRSZ) (s ++ [0]) []; Ok (SET_VARSIZE (zrep VARHDRSZ 0 ++ result) bc)).
Proof.
  intros Hs Hn. pose proof (count_finishes (S (length (s ++ [0]))) s 0 Hs) as Hc. rewrite length_app in Hc at 1. specialize (Hc ltac:(lia)).
  destruct (byteain_count _ _ 0) as [n| | |] eqn:En; try done. bind. destruct (count_fill _ _ _ _ n [] En) as (H0 & out & Ho & Hz); [change (zlen []) with 0; lia|].
  change (zlen []) with 0 in Hz. unfold MaxAllocSize, VARHDRSZ in *. rewrite int32_small by lia. rewrite palloc_ok by (unfold MaxAllocSize; lia). bind.
  replace (n + 4 - 4) with n by lia. rewrite Ho. bind. exists out. split; [|lia]. replace n with (zlen out) by lia. apply make_text. change (2 ^ 30) with 1073741824. lia.
Qed.

Lemma byteain_hex_safe c c' hs :
  bytes (c :: c' :: hs) -> Forall nonzero (c :: c' :: hs) -> zlen (c :: c' :: hs) < MaxAllocSize - VARHDRSZ ->
  bounded_value (zlen (c :: c' :: hs)) (len ← strlen ((c :: c' :: hs) ++ [0]); let bc := int32_of ((len - 2) / 2 + VARHDRSZ) in _ ← palloc bc;
    src ← rdn ((c :: c' :: hs) ++ [0]) 2 (len - 2); result ← hex_decode_safe (bc - VARHDRSZ) src [];
    Ok (SET_VARSIZE (zrep VARHDRSZ 0 ++ result) (zlen result + VARHDRSZ))).
Proof.
  intros Hb Hs Hn. rewrite strlen_ok by done. bind. apply Forall_cons in Hb as [_ Hb]. apply Forall_cons in Hb as [_ Hb].
  rewrite !zlen_cons in *. replace (1 + (1 + zlen hs) - 2) with (zlen hs) by lia. pose proof (zlen_nonneg hs). pose proof (Z.div_pos (zlen hs) 2). pose proof (Z.div_le_upper_bound (zlen hs) 2 (zlen hs)).
  unfold MaxAllocSize, VARHDRSZ in *. rewrite int32_small by lia. rewrite palloc_ok by (unfold MaxAllocSize; lia). bind.
  change ((c :: c' :: hs) ++ [0]) with ([c; c'] ++ hs ++ [0]). rewrite rdn_middle by done. bind. replace (zlen hs / 2 + 4 - 4) with (Z.shiftr (zlen hs) 1) by (rewrite Z.shiftr_div_pow2; lia).
  destruct (enc_safe (enc := hex_encoding) hs Hb) as [Hfin Hlen]. cbn [decode_len decode hex_encoding hex_dec_len mbind res_bind] in Hfin, Hlen. unfold hex_dec_len, hex_decode in *. cbn [mbind res_bind] in Hfin.
  destruct (hex_decode_safe _ hs []) as [out| | |] eqn:Hd; try done. bind. destruct (Hlen _ out eq_refl Hd) as [Hm Ho]. exists out. split; [|lia].
  apply make_text. change (2 ^ 30) with 1073741824. lia.
Qed.

(** C18: Output and input of bytea are inverse: what byteaout prints of a value, in whatever
    form it is stored and in either setting of bytea_output, byteain reads back as the same
    bytes. *)
Theorem bytea_io_roundtrip E v data bytea_output :
  holds E v data -> bytes data -> 4 * zlen data + 4 <= MaxAllocSize ->
  bytea_output = BYTEA_OUTPUT_HEX \/ bytea_output = BYTEA_OUTPUT_ESCAPE ->
  exists s, byteaout E bytea_output v = Ok (s ++ [0]) /\ Forall (fun c => c <> 0) s /\ byteain (s ++ [0]) = Ok (mk_4b_u data).
Proof.
  intros Hv Hb Hn Hout. pose proof (zlen_nonneg data). destruct Hout as [-> | ->].
  - destruct (byteaout_hex E v data Hv Hb) as (hs & Ho & Hz & Hnz & Hd); [lia|]. exists ([92; 120] ++ hs). rewrite <- app_assoc. split_and!; [done| |].
    + apply Forall_app. split; [by repeat constructor|done].
    + apply byteain_hex; try done. unfold VARHDRSZ. lia.
  - exists (escapes data). split_and!; [apply byteaout_escapes; (done || lia)| |apply byteain_escape; [done|unfold VARHDRSZ; lia]].
    by apply escapes_nonzero.
Qed.

(** Input of bytea is safe: on every string, well-formed or not, byteain gives a value
    no longer than the string or reports an error; it never reads past the terminating NUL
    nor writes past the buffer whose size the first pass has counted. *)
Theorem byteain_safe s :
  bytes s -> Forall (fun c => c <> 0) s -> zlen s < MaxAllocSize - VARHDRSZ ->
  match byteain (s ++ [0]) with
  | Ok r => exists data, r = mk_4b_u data /\ zlen data <= zlen s
  | Ereport _ => True
  | _ => False
  end.
Proof.
  intros Hb Hs Hn. pose proof (zlen_nonneg s). unfold byteain. assert (exists c0, rd (s ++ [0]) 0 = Ok c0) as [c0 Hc0] by (destruct s; by eexists). rewrite Hc0. bind.
  destruct (c0 =? 92) eqn:E0; [|apply byteain_escape_safe; done].
  destruct s as [|c s']; [injection Hc0 as <-; done|]. assert (exists c1, rd ((c :: s') ++ [0]) 1 = Ok c1) as [c1 Hc1] by (destruct s'; by eexists). rewrite Hc1. bind.
  destruct (c1 =? 120) eqn:E1; [|apply byteain_escape_safe; done].
  destruct s' as [|c' hs]; [injection Hc1 as <-; done|]. by apply byteain_hex_safe.
Qed.

Lemma bytea_io_roundtrip_witness :
  exists s, byteaout sample_env BYTEA_OUTPUT_ESCAPE sample_text = Ok (s ++ [0]) /\ Forall (fun c => c <> 0) s /\
    byteain (s ++ [0]) = Ok (mk_4b_u (concat sample_chars)).
Proof.
  refine (bytea_io_roundtrip sample_env sample_text (concat sample_chars) _ sample_text_holds _ _ (or_intror eq_refl)).
  - apply bytesb_spec. vm_compute. reflexivity.
  - vm_compute. discriminate.
Defined.

(** A backslash at the end of the string *)
Lemma byteain_safe_witness : match byteain ([97; 92] ++ [0]) with
  | Ok r => exists data, r = mk_4b_u data /\ zlen data <= zlen [97; 92]
  | Ereport _ => True
  | _ => False
  end.
Proof.
  refine (byteain_safe [97; 92] _ _ _).
  - apply bytesb_spec. vm_compute. reflexivity.
  - repeat constructor; discriminate.
  - vm_compute. reflexivity.
Defined.

(** ** Functions *)

Section functions.
Context (E : env).

(** SQL's SUBSTRING on bytes *)
Definition sql_bytes (data : list Z) (S : Z) (L : option Z) : list Z :=
  let rest := drop (Z.to_nat (Z.max S 1 - 1)) data in
  match L with None => rest | Some L => take (Z.to_nat (S + L - Z.max S 1)) rest end.

Lemma empty_bytea : PG_STR_GET_BYTEA E [] = Ok (mk_4b_u []).
Proof. vm_compute. reflexivity. Qed.

Lemma bytea_substring_ok v data S L (unspec : bool) :
  holds E v data -> INT32 S -> INT32 L -> (unspec = false -> slice_fits E v data (S + L - 1)) ->
  bytea_substring E v S L unspec =
  if negb unspec && (L <? 0) then Ereport ERRCODE_SUBSTRING_ERROR else Ok (mk_4b_u (sql_bytes data S (if unspec then None else Some L))).
Proof.
  intros Hv HS HL Hfit. pose proof (holds_ok _ _ _ Hv) as Hok. unfold ok_4b_u in Hok. unfold INT32, INT_MIN, INT_MAX in *.
  assert (Hs : forall l, (0 <= l -> slice_fits E v data (Z.max S 1 - 1 + l)) -> DatumGetByteaPSlice E v (Z.max S 1 - 1) l =
    Ok (mk_4b_u (if l <? 0 then drop (Z.to_nat (Z.max S 1 - 1)) data else take (Z.to_nat l) (drop (Z.to_nat (Z.max S 1 - 1)) data)))).
  { intros l Hl. unfold DatumGetByteaPSlice, pg_detoast_datum_slice. by rewrite (slice_ok _ _ _ _ _ Hv), slice_of_drop_take by (done || lia). }
  unfold bytea_substring. destruct unspec; [by rewrite Hs by lia|]. specialize (Hfit eq_refl). cbn [negb andb]. destruct (Z.ltb_spec L 0); [done|].
  unfold pg_add_s32_overflow, INT_MIN, INT_MAX. destruct (_ && _) eqn:Ho; unfold sql_bytes.
  - destruct (Z.ltb_spec (S + L) 1).
    + rewrite empty_bytea. do 2 f_equal. by replace (Z.to_nat (S + L - Z.max S 1)) with 0%nat by lia.
    + rewrite Hs by (by replace (Z.max S 1 - 1 + (S + L - Z.max S 1)) with (S + L - 1) by lia). destruct (Z.ltb_spec (S + L - Z.max S 1) 0); [lia|done].
  - rewrite Hs by lia. change (-1 <? 0) with true. do 2 f_equal. symmetry. apply take_ge. rewrite length_drop. unfold zlen in *. lia.
Qed.

(** bytea_catenate is a clone of text_catenate. *)
Lemma bytea_catenate_same t1 t2 : bytea_catenate t1 t2 = text_catenate t1 t2.
Proof. done. Qed.

Lemma bytea_overlay_ok t1 t2 d1 d2 sp sl :
  INT32 sp -> INT32 sl -> inline_value t1 d1 -> inline_value t2 d2 ->
  let r := take (Z.to_nat (sp - 1)) d1 ++ d2 ++ drop (Z.to_nat (sp + sl - 1)) d1 in
  bytea_overlay E t1 t2 sp sl =
  if sp <=? 0 then Ereport ERRCODE_SUBSTRING_ERROR
  else if sp + sl >? INT_MAX then Ereport ERRCODE_NUMERIC_VALUE_OUT_OF_RANGE
  else if zlen r + VARHDRSZ <=? MaxAllocSize then Ok (mk_4b_u r) else Ereport ERRCODE_INTERNAL_ERROR.
Proof.
  intros Hsp Hsl H1 H2 r. unfold bytea_overlay. destruct (Z.leb_spec sp 0); [done|].
  assert (Hv : holds E t1 d1) by (by constructor; constructor). pose proof (inline_ok _ _ H1) as Hok. unfold ok_4b_u in Hok.
  unfold pg_add_s32_overflow. destruct (Z.gtb_spec (sp + sl) INT_MAX); unfold INT32, INT_MIN, INT_MAX in *.
  { by replace (_ && _) with false by lia. }
  replace (_ && _) with true by lia. rewrite !(bytea_substring_ok t1 d1) by first [done | by intros; apply inline_fits | unfold INT32, INT_MIN, INT_MAX; lia].
  destruct (Z.ltb_spec (sp - 1) 0); [lia|]. cbn [negb andb]. bind. unfold sql_bytes. replace (Z.to_nat (Z.max 1 1 - 1)) with 0%nat by lia. rewrite drop_0.
  replace (1 + (sp - 1) - Z.max 1 1) with (sp - 1) by lia. replace (Z.to_nat (Z.max (sp + sl) 1 - 1)) with (Z.to_nat (sp + sl - 1)) by lia.
  assert (Ha : forall n, zlen (take n d1) + 4 < 2 ^ 30 /\ zlen (drop n d1) + 4 < 2 ^ 30) by (intros n; rewrite <- (take_drop n d1), zlen_app in Hok; zl).
  rewrite !bytea_catenate_same, (catenate_ok _ t2 (take (Z.to_nat (sp - 1)) d1) d2) by first [done | apply mk_inline; apply Ha].
  subst r. rewrite app_assoc, (zlen_app (_ ++ _)), zlen_app. pose proof (zlen_nonneg (drop (Z.to_nat (sp + sl - 1)) d1)).
  destruct (Z.leb_spec (zlen (take (Z.to_nat (sp - 1)) d1) + zlen d2 + VARHDRSZ) MaxAllocSize) as [Hm|Hm]; bind.
  - rewrite (catenate_ok _ _ (take (Z.to_nat (sp - 1)) d1 ++ d2) (drop (Z.to_nat (sp + sl - 1)) d1)); [by rewrite zlen_app|apply mk_inline|apply mk_inline, Ha].
    rewrite zlen_app. unfold MaxAllocSize, VARHDRSZ in Hm. change (2 ^ 30) with 1073741824. lia.
  - destruct (Z.leb_spec (zlen (take (Z.to_nat (sp - 1)) d1) + zlen d2 + zlen (drop (Z.to_nat (sp + sl - 1)) d1) + VARHDRSZ) MaxAllocSize); [lia|done].
Qed.
End functions.

(** byteapos: the first position, counted from 1, where the pattern occurs *)
Definition first_position (d pat : list Z) (r : Z) : Prop :=
  (r = 0 /\ forall q, ~ pat `prefix_of` drop q d) \/
  exists p, r = Z.of_nat p + 1 /\ pat `prefix_of` drop p d /\ forall q, (q < p)%nat -> ~ pat `prefix_of` drop q d.

Lemma memcmp_prefix d t pat u :
  zlen pat <= zlen d -> exists c, memcmp (d ++ t) (pat ++ u) (Z.to_nat (zlen pat)) = Ok c /\ (c =? 0) = bool_decide (pat `prefix_of` d).
Proof.
  intros Hz. pose proof (zlen_nonneg pat). set (n := Z.to_nat (zlen pat)). rewrite <- (take_drop n d), <- app_assoc. assert (Hn : zlen (take n d) = zlen pat) by (unfold n; zl).
  destruct (memcmp_eq (take n d) pat (drop n d ++ t) u Hn) as (c & Hc & He). exists c. rewrite Hn in Hc. split; [done|]. rewrite He, take_drop. apply bool_decide_ext. split.
  - intros Ht. rewrite <- Ht. apply prefix_take.
  - intros [k ->]. unfold n, zlen. rewrite Nat2Z.id. by rewrite take_app_length.
Qed.

Lemma prefix_first (c a : Z) pat l : (c :: pat) `prefix_of` (a :: l) -> a = c.
Proof. intros [k [= ->]]. done. Qed.

Lemma byteapos_loop c pat d1 t1 t2 :
  let pat := c :: pat in
  returns (iter (Z.to_nat (zlen d1 + 2)) (byteapos_body (pat ++ t2) (zlen pat) (zlen d1 - zlen pat)) (0, d1 ++ t1)) (first_position d1 pat).
Proof.
  intros P. assert (HP : 1 <= zlen P) by (unfold P; rewrite zlen_cons; pose proof (zlen_nonneg pat); lia). pose proof (zlen_nonneg d1).
  apply (iter_returns (fun x => exists p : nat, x = (Z.of_nat p, drop p d1 ++ t1) /\ (p <= length d1)%nat /\ forall q, (q < p)%nat -> ~ P `prefix_of` drop q d1)
    (fun x => Z.to_nat (zlen d1 + 1 - x.1))); [|exists 0%nat; split_and!; [done|lia|lia]|cbn [fst]; lia].
  intros x (p & -> & Hp & Hno). unfold byteapos_body. destruct (Z.leb_spec (Z.of_nat p) (zlen d1 - zlen P)) as [Hle|Hgt].
  - assert (Hd : zlen P <= zlen (drop p d1)) by zl. destruct (memcmp_prefix (drop p d1) t1 P t2 Hd) as (r & Hr & He).
    destruct (drop p d1) as [|a l] eqn:Hl; [unfold zlen in Hd at 2; simpl in Hd; lia|]. change (rd (P ++ t2) 0) with (Ok c). change (rd ((a :: l) ++ t1) 0) with (Ok a). bind.
    assert (Hsame : (if c =? a then r ← memcmp ((a :: l) ++ t1) (P ++ t2) (Z.to_nat (zlen P)); Ok (r =? 0) else Ok false) = Ok (bool_decide (P `prefix_of` a :: l))).
    { destruct (Z.eqb_spec c a) as [->|Hne]; [rewrite Hr; bind; by rewrite He|]. rewrite bool_decide_eq_false_2; [done|]. intros <-%prefix_first. done. }
    rewrite Hsame. bind. case_bool_decide as Hpre; simpl.
    + right. exists p. rewrite Hl. split_and!; [done..|exact Hno].
    + split; [|lia]. exists (S p). assert (Hlt : (p < length d1)%nat) by (unfold zlen in *; lia). split_and!; [|lia|].
      * f_equal; [lia|]. replace (S p) with (p + 1)%nat by lia. by rewrite <- drop_drop, Hl.
      * intros q Hq. destruct (decide (q = p)) as [->|]; [by rewrite Hl|apply Hno; lia].
  - left. split; [done|]. intros q Hpre. destruct (decide (q < p)%nat); [by apply (Hno q)|]. apply prefix_length in Hpre. rewrite length_drop in Hpre. unfold zlen in *. lia.
Qed.

Lemma byteapos_ok E v1 v2 d1 d2 : holds E v1 d1 -> holds E v2 d2 -> exists r, byteapos E v1 v2 = Ok r /\ first_position d1 d2 r.
Proof.
  intros H1 H2. destruct (bytea_data E v1 d1 H1) as (p1 & t1 & E1 & _ & D1 & _). destruct (bytea_data E v2 d2 H2) as (p2 & t2 & E2 & _ & D2 & _).
  unfold byteapos. rewrite E1, E2. bind. rewrite D1, D2. bind. destruct d2 as [|c pat].
  - exists 1. split; [done|]. right. exists 0%nat. split_and!; [done|apply prefix_nil|lia].
  - destruct (Z.leb_spec (zlen (c :: pat)) 0); [rewrite zlen_cons in *; pose proof (zlen_nonneg pat); lia|]. apply returns_eq, (byteapos_loop c pat).
Qed.

(** ** Bytes and bits *)

Lemma copy_ok E v data : holds E v data -> DatumGetByteaPCopy E v = Ok (mk_4b_u data).
Proof.
  intros Hv. pose proof (holds_ok _ _ _ Hv) as Hok. unfold DatumGetByteaPCopy, pg_detoast_datum_copy, VARATT_IS_EXTENDED.
  assert (VARATT_IS_4B_U v = Ok false \/ exists t, v = mk_4b_u data ++ t) as [Hu|[t ->]].
  { destruct Hv as [v data [v0 data0 [d t Hd|d t Hd]|? ? ? t|tp ? ? t|? ? ? t]|]; [right; by eexists|left; autorewrite with varatt; done..]. }
  - rewrite Hu. bind. destruct (detoast_ok E v data Hv) as [Hd|[_ [t ->]]]; [done|]. by autorewrite with varatt in Hu.
  - pose proof (copy_plain data t Hok) as Hc. unfold copy_datum, VARSIZE_ANY, VARSIZE in *. autorewrite with varatt in *. exact Hc.
Qed.

(** The binary form: a message that has the contents from its cursor on is received as the
    value that byteasend has sent. *)
Theorem bytea_binary_roundtrip E v data msg sent :
  holds E v data -> si_raw msg (sent ++ data) -> si_cursor msg = zlen sent ->
  byteasend E v = Ok (mk_4b_u data) /\ bytearecv msg = Ok (mk_4b_u data, with_cursor msg (si_len msg)).
Proof.
  intros Hv Hm Hc. split; [by apply copy_ok|]. pose proof (holds_ok _ _ _ Hv) as Hok. unfold ok_4b_u in Hok. change (2 ^ 30) with 1073741824 in Hok. pose proof (zlen_nonneg data).
  unfold bytearecv. rewrite (sr_len _ _ Hm), Hc, zlen_app. replace (zlen sent + zlen data - zlen sent) with (zlen data) by lia.
  rewrite palloc_ok by (unfold VARHDRSZ, MaxAllocSize; lia). bind. rewrite (copymsgbytes_ok msg sent data []) by (rewrite ?app_nil_r; done). bind. do 2 f_equal. apply make_text. exact Hok.
Qed.

Lemma get_bit b k : 0 <= k -> (if negb (Z.land b (Z.shiftl 1 k) =? 0) then 1 else 0) = Z.b2z (Z.testbit b k).
Proof.
  intros Hk. assert (Hl : Z.land b (Z.shiftl 1 k) = Z.shiftl (Z.b2z (Z.testbit b k)) k).
  { apply Z.bits_inj'. intros j Hj. rewrite Z.land_spec, !Z.shiftl_spec by done. destruct (Z.eq_dec j k) as [->|Hne].
    - rewrite Z.sub_diag. by destruct (Z.testbit b k).
    - assert (Hz : forall c : bool, Z.testbit (Z.b2z c) (j - k) = false).
      { intros c. destruct (Z.lt_ge_cases j k); [apply Z.testbit_neg_r; lia|]. destruct c; [|apply Z.testbit_0_l]. apply (Z.bits_above_log2 1); simpl; lia. }
      rewrite Hz. change 1 with (Z.b2z true). by rewrite Hz, andb_false_r. }
  rewrite Hl, Z.shiftl_mul_pow2 by done. destruct (Z.testbit b k); [|done]. destruct (Z.eqb_spec (Z.b2z true * 2 ^ k) 0); [|done]. simpl in *. lia.
Qed.

Section bits.
Context (E : env) (v data : list Z) (Hv : holds E v data).

Lemma get_byte_ok n : byteaGetByte E v n = if (n <? 0) || (n >=? zlen data) then Ereport ERRCODE_ARRAY_SUBSCRIPT_ERROR else rd data n.
Proof using Hv.
  destruct (bytea_data E v data Hv) as (p & t & Hp & _ & Ht & _). unfold byteaGetByte. rewrite Hp. bind. rewrite Ht. bind.
  destruct ((n <? 0) || (n >=? zlen data)) eqn:Hn; [done|]. apply rd_app_l. lia.
Qed.

Lemma get_bit_ok n : byteaGetBit E v n =
  if (n <? 0) || (n >=? zlen data * 8) then Ereport ERRCODE_ARRAY_SUBSCRIPT_ERROR
  else b ← rd data (n / 8); Ok (Z.b2z (Z.testbit b (n mod 8))).
Proof using Hv.
  destruct (bytea_data E v data Hv) as (p & t & Hp & _ & Ht & _). unfold byteaGetBit. rewrite Hp. bind. rewrite Ht. bind.
  destruct ((n <? 0) || (n >=? zlen data * 8)) eqn:Hn; [done|]. pose proof (Z.div_mod n 8). pose proof (Z.mod_pos_bound n 8). rewrite rd_app_l by lia.
  destruct (rd data (n / 8)); try done. bind. by rewrite get_bit by lia.
Qed.

Lemma wr_data n b : 0 <= n < zlen data -> wr (mk_4b_u data) (VARHDRSZ + n) [b] = Ok (mk_4b_u (<[Z.to_nat n := b]> data)).
Proof using.
  intros Hn. unfold mk_4b_u. assert (Hz : zlen (<[Z.to_nat n:=b]> data) = zlen data) by (unfold zlen; by rewrite length_insert). rewrite Hz.
  set (h := le32 _). assert (Hh : zlen h = 4) by done. unfold wr, VARHDRSZ. rewrite zlen_app, Hh. change (zlen [b]) with 1.
  replace ((0 <=? 4 + n) && (4 + n + 1 <=? 4 + zlen data)) with true by lia. f_equal.
  rewrite insert_take_drop by (unfold zlen in Hn; lia). unfold zlen in Hh. rewrite take_app, drop_app. replace (length h) with 4%nat by lia.
  rewrite take_ge, drop_ge by lia. replace (Z.to_nat (4 + n) - 4)%nat with (Z.to_nat n) by lia. replace (Z.to_nat (4 + n + 1) - 4)%nat with (S (Z.to_nat n)) by lia.
  by rewrite <- app_assoc.
Qed.

Lemma varsize_ok : VARSIZE (mk_4b_u data) = Ok (zlen data + 4).
Proof using Hv. pose proof (holds_ok _ _ _ Hv) as Hok. rewrite <- (app_nil_r (mk_4b_u data)). by apply varsize_4b_u. Qed.

Lemma set_byte_ok n newByte : byteaSetByte E v n newByte =
  if (n <? 0) || (n >=? zlen data) then Ereport ERRCODE_ARRAY_SUBSCRIPT_ERROR else Ok (mk_4b_u (<[Z.to_nat n := newByte mod 256]> data)).
Proof using Hv.
  unfold byteaSetByte. rewrite (copy_ok E v data Hv). bind. rewrite varsize_ok. bind. unfold VARHDRSZ at 1. replace (zlen data + 4 - 4) with (zlen data) by lia.
  destruct ((n <? 0) || (n >=? zlen data)) eqn:Hn; [done|]. apply wr_data. lia.
Qed.

Lemma set_bit_ok n b : 0 <= n < zlen data * 8 -> b = 0 \/ b = 1 -> exists old, rd data (n / 8) = Ok old /\
  byteaSetBit E v n b = Ok (mk_4b_u (<[Z.to_nat (n / 8) := (if b =? 0 then Z.clearbit old (n mod 8) else Z.setbit old (n mod 8)) mod 256]> data)).
Proof using Hv.
  intros Hn Hb. pose proof (Z.div_mod n 8). pose proof (Z.mod_pos_bound n 8). destruct (rd_in_range data (n / 8)) as [old Ho]; [lia|]. exists old. split; [done|].
  unfold byteaSetBit. rewrite (copy_ok E v data Hv). bind. rewrite varsize_ok. bind. unfold VARHDRSZ at 1. replace (zlen data + 4 - 4) with (zlen data) by lia.
  replace ((n <? 0) || (n >=? zlen data * 8)) with false by lia. replace (negb (b =? 0) && negb (b =? 1)) with false by lia.
  assert (Hr : rd (mk_4b_u data) (VARHDRSZ + n / 8) = Ok old).
  { unfold mk_4b_u. rewrite rd_app_r by (change (zlen (le32 _)) with 4; unfold VARHDRSZ; lia). change (zlen (le32 _)) with 4. unfold VARHDRSZ. by replace (4 + n / 8 - 4) with (n / 8) by lia. }
  rewrite Hr. bind. rewrite wr_data by lia. do 4 f_equal. destruct (b =? 0).
  - by rewrite Z.shiftl_1_l, <- Z.ldiff_land, Z.clearbit_spec'.
  - by rewrite Z.shiftl_1_l, Z.setbit_spec'.
Qed.
End bits.

Lemma testbit_byte x k : 0 <= k < 8 -> Z.testbit (x mod 256) k = Z.testbit x k.
Proof. intros Hk. change 256 with (2 ^ 8). apply Z.mod_pow2_bits_low. lia. Qed.

(** The bits of the bytes after the change of one of them *)
Lemma changed_bit data n b old m :
  rd data (n / 8) = Ok old -> 0 <= n < zlen data * 8 -> 0 <= m < zlen data * 8 -> b = 0 \/ b = 1 ->
  (x ← rd (<[Z.to_nat (n / 8) := (if b =? 0 then Z.clearbit old (n mod 8) else Z.setbit old (n mod 8)) mod 256]> data) (m / 8);
   Ok (Z.b2z (Z.testbit x (m mod 8)))) = if m =? n then Ok b else x ← rd data (m / 8); Ok (Z.b2z (Z.testbit x (m mod 8))).
Proof.
  intros Ho Hn Hm Hb. pose proof (Z.div_mod n 8). pose proof (Z.mod_pos_bound n 8). pose proof (Z.div_mod m 8). pose proof (Z.mod_pos_bound m 8). destruct (Z.eq_dec (m / 8) (n / 8)) as [Heq|Hne].
  - rewrite Heq. assert (Hr : forall x, rd (<[Z.to_nat (n / 8) := x]> data) (n / 8) = Ok x).
    { intros x. apply rd_Some; [lia|]. apply list_lookup_insert_eq. unfold zlen in *. lia. }
    rewrite Hr, Ho. bind. rewrite testbit_byte by lia. destruct (Z.eqb_spec m n) as [->|Hmn].
    + destruct Hb as [-> | ->]; simpl; [by rewrite Z.clearbit_eq|by rewrite Z.setbit_eq by lia].
    + do 2 f_equal. destruct (b =? 0); [apply Z.clearbit_neq|apply Z.setbit_neq]; lia.
  - destruct (Z.eqb_spec m n) as [->|_]; [done|]. f_equal. unfold rd. destruct (0 <=? m / 8); [|done]. rewrite list_lookup_insert_ne by lia. done.
Qed.

(** A bytea is an array of bits: byteaSetBit gives a value of the same length in which
    byteaGetBit reads the new bit at the position set and what it read before at every
    other one, positions out of range included, where both report an error. *)
Theorem bytea_bits_correct E v data n b :
  holds E v data -> bytes data -> 0 <= n < zlen data * 8 -> b = 0 \/ b = 1 ->
  exists d', byteaSetBit E v n b = Ok (mk_4b_u d') /\ bytes d' /\ zlen d' = zlen data /\
    forall m, byteaGetBit E (mk_4b_u d') m = if m =? n then Ok b else byteaGetBit E v m.
Proof.
  intros Hv Hb Hn Hbit. destruct (set_bit_ok E v data Hv n b Hn Hbit) as (old & Ho & ->). eexists. split; [done|]. split_and!.
  - apply Forall_insert; [done|]. unfold is_byte. apply Z.mod_pos_bound. lia.
  - unfold zlen. by rewrite length_insert.
  - intros m. set (d' := <[_:=_]> data). assert (Hz : zlen d' = zlen data) by (unfold d', zlen; by rewrite length_insert).
    assert (Hv' : holds E (mk_4b_u d') d') by (do 2 constructor; apply mk_inline; rewrite Hz; exact (holds_ok _ _ _ Hv)).
    rewrite (get_bit_ok E _ d' Hv'), (get_bit_ok E v data Hv), Hz. destruct ((m <? 0) || (m >=? zlen data * 8)) eqn:Hm.
    { destruct (Z.eqb_spec m n); [lia|done]. }
    apply (changed_bit data n b old m); try done; lia.
Qed.

(** C34: The functions of bytea are those of sequences of bytes, on values in any form and
    on every int argument: length, concatenation, SUBSTRING and OVERLAY as SQL defines them
    with their errors, and POSITION, the first occurrence or zero.  The slice that
    SUBSTRING takes of an RLE value fits its chunk ([slice_fits]). *)
Theorem bytea_functions_correct E v1 v2 d1 d2 S L sp sl :
  holds E v1 d1 -> holds E v2 d2 -> INT32 S -> INT32 L -> INT32 sp -> INT32 sl ->
  byteaoctetlen E v1 = Ok (zlen d1) /\
  byteacat E v1 v2 = (if zlen d1 + zlen d2 + VARHDRSZ <=? MaxAllocSize then Ok (mk_4b_u (d1 ++ d2)) else Ereport ERRCODE_INTERNAL_ERROR) /\
  (slice_fits E v1 d1 (S + L - 1) ->
   bytea_substr E v1 S L = if L <? 0 then Ereport ERRCODE_SUBSTRING_ERROR else Ok (mk_4b_u (sql_bytes d1 S (Some L)))) /\
  bytea_substr_no_len E v1 S = Ok (mk_4b_u (sql_bytes d1 S None)) /\
  (let r := take (Z.to_nat (sp - 1)) d1 ++ d2 ++ drop (Z.to_nat (sp + sl - 1)) d1 in
   byteaoverlay E v1 v2 sp sl =
   if sp <=? 0 then Ereport ERRCODE_SUBSTRING_ERROR
   else if sp + sl >? INT_MAX then Ereport ERRCODE_NUMERIC_VALUE_OUT_OF_RANGE
   else if zlen r + VARHDRSZ <=? MaxAllocSize then Ok (mk_4b_u r) else Ereport ERRCODE_INTERNAL_ERROR) /\
  exists r, byteapos E v1 v2 = Ok r /\ first_position d1 d2 r.
Proof.
  intros H1 H2 HS HL Hsp Hsl. destruct (bytea_data E v1 d1 H1) as (p1 & t1 & E1 & I1 & _). destruct (bytea_data E v2 d2 H2) as (p2 & t2 & E2 & I2 & _). split_and!.
  - unfold byteaoctetlen. rewrite (raw_size_ok E v1 d1 H1). bind. f_equal. unfold VARHDRSZ. lia.
  - unfold byteacat. rewrite E1, E2. bind. rewrite bytea_catenate_same. by apply catenate_ok.
  - intros Hfit. exact (bytea_substring_ok E v1 d1 S L false H1 HS HL (fun _ => Hfit)).
  - exact (bytea_substring_ok E v1 d1 S (-1) true H1 HS ltac:(unfold INT32, INT_MIN, INT_MAX; lia) ltac:(done)).
  - unfold byteaoverlay. rewrite E1, E2. bind. by apply bytea_overlay_ok.
  - by apply byteapos_ok.
Qed.

(** ** Operators *)

Lemma bytea_memcmp_ok E v1 v2 d1 d2 : holds E v1 d1 -> holds E v2 d2 -> exists c,
  bytea_memcmp E v1 v2 = Ok (c, zlen d1, zlen d2) /\ cmp_len c (zlen d1) (zlen d2) = memcmp_order d1 d2.
Proof.
  intros H1 H2. destruct (bytea_data E v1 d1 H1) as (p1 & t1 & E1 & _ & D1 & _). destruct (bytea_data E v2 d2 H2) as (p2 & t2 & E2 & _ & D2 & _).
  unfold bytea_memcmp. rewrite E1, E2. bind. rewrite D1, D2. bind. destruct (memcmp_order_ok d1 d2 t1 t2) as (c & -> & Hc). bind. by exists c.
Qed.

Lemma byteaeq_ok E v1 v2 d1 d2 : holds E v1 d1 -> holds E v2 d2 ->
  byteaeq E v1 v2 = Ok (bool_decide (d1 = d2)) /\ byteane E v1 v2 = Ok (negb (bool_decide (d1 = d2))).
Proof.
  intros H1 H2. unfold byteaeq, byteane. rewrite (raw_size_ok _ _ _ H1), (raw_size_ok _ _ _ H2). bind. destruct (Z.eqb_spec (zlen d1 + 4) (zlen d2 + 4)) as [Hz|Hz]; cbn [negb].
  - destruct (bytea_data E v1 d1 H1) as (p1 & t1 & E1 & _ & D1 & _). destruct (bytea_data E v2 d2 H2) as (p2 & t2 & E2 & _ & D2 & _).
    rewrite E1, E2. bind. rewrite D1, D2. bind. cbn [fst snd]. replace (zlen d1 + 4 - VARHDRSZ) with (zlen d1) by (unfold VARHDRSZ; lia).
    destruct (memcmp_eq d1 d2 t1 t2) as (c & -> & Hc); [lia|]. bind. by rewrite Hc.
  - rewrite bool_decide_eq_false_2; [done|]. intros ->. done.
Qed.

(** The operators of bytea are one total order, that of memcmp with a proper prefix
    first: byteacmp is its sign, every operator agrees with it, and equality, which
    compares the sizes without reading the values, is equality of the contents. *)
Theorem bytea_order_correct E v1 v2 d1 d2 :
  holds E v1 d1 -> holds E v2 d2 ->
  let c := memcmp_order d1 d2 in
  byteacmp E v1 v2 = Ok c /\ bytealt E v1 v2 = Ok (c <? 0) /\ byteale E v1 v2 = Ok (c <=? 0) /\
  byteagt E v1 v2 = Ok (c >? 0) /\ byteage E v1 v2 = Ok (c >=? 0) /\
  byteaeq E v1 v2 = Ok (c =? 0) /\ byteane E v1 v2 = Ok (negb (c =? 0)) /\ (c = 0 <-> d1 = d2) /\ byteacmp E v2 v1 = Ok (- c).
Proof.
  intros H1 H2 c. assert (Hcmp : forall v w d e, holds E v d -> holds E w e -> byteacmp E v w = Ok (memcmp_order d e)).
  { intros v w d e Hv Hw. unfold byteacmp. destruct (bytea_memcmp_ok E v w d e Hv Hw) as (x & -> & Hx). bind. by rewrite <- Hx. }
  destruct (byteaeq_ok E v1 v2 d1 d2 H1 H2) as [-> ->]. assert (Heq : bool_decide (d1 = d2) = (c =? 0)).
  { apply eq_true_iff_eq. rewrite Z.eqb_eq, bool_decide_eq_true. symmetry. apply memcmp_order_eq. }
  assert (H0 : c = 0 <-> d1 = d2) by apply memcmp_order_eq. rewrite Heq, (Hcmp v1 v2 d1 d2), (Hcmp v2 v1 d2 d1), (memcmp_order_flip d1 d2) by done. fold c. unfold bytealt, byteale, byteagt, byteage.
  destruct (bytea_memcmp_ok E v1 v2 d1 d2 H1 H2) as (x & -> & Hx). bind. fold c in Hx. clear Heq Hcmp. clearbody c. unfold cmp_len in Hx.
  split; [done|]. do 4 (split; [f_equal; clear -Hx; destruct (Z.eqb_spec x 0), (Z.eqb_spec (zlen d1) (zlen d2)), (Z.ltb_spec (zlen d1) (zlen d2)); cbn [andb negb] in Hx; lia|]). done.
Qed.

Lemma bytea_bits_correct_witness :
  exists d', byteaSetBit sample_env sample_text 79 1 = Ok (mk_4b_u d') /\ bytes d' /\ zlen d' = zlen (concat sample_chars) /\
    forall m, byteaGetBit sample_env (mk_4b_u d') m = if m =? 79 then Ok 1 else byteaGetBit sample_env sample_text m.
Proof.
  refine (bytea_bits_correct sample_env sample_text (concat sample_chars) 79 1 sample_text_holds _ _ (or_intror eq_refl)).
  - apply bytesb_spec. vm_compute. reflexivity.
  - vm_compute. split; [discriminate|reflexivity].
Defined.

Lemma bytea_functions_correct_witness :
  bytea_substr sample_env sample_text 2 3 = Ok (mk_4b_u [0xC3; 0xA9; 0xE2]) /\
  exists r, byteapos sample_env sample_text sample_prefix = Ok r /\ first_position (concat sample_chars) [110; 0xC3] r.
Proof.
  assert (H : forall z, 1 <= z <= 3 -> INT32 z) by (unfold INT32, INT_MIN, INT_MAX; lia).
  destruct (bytea_functions_correct sample_env sample_text sample_prefix _ _ 2 3 1 1 sample_text_holds sample_prefix_holds
    (H 2 ltac:(lia)) (H 3 ltac:(lia)) (H 1 ltac:(lia)) (H 1 ltac:(lia))) as (_ & _ & Hs & _ & _ & Hp).
  split; [apply Hs, inline_fits, sample_text_inline|exact Hp].
Defined.

Lemma bytea_order_correct_witness : bytealt sample_env sample_prefix sample_text = Ok true /\ byteaeq sample_env sample_prefix sample_text = Ok false.
Proof.
  destruct (bytea_order_correct sample_env sample_prefix sample_text _ _ sample_prefix_holds sample_text_holds) as (_ & H1 & _ & _ & _ & H2 & _).
  split; [exact H1|exact H2].
Defined.
