(* ===== verification/StringAgg.v ===== *)
(** string_agg(text) and string_agg(bytea): src/backend/utils/adt/varlena.c.  The state of
    the aggregate is a string buffer that keeps every delimiter; the length of the first
    one is in its cursor, and only the final function strips it, so that partial results
    of parallel workers can be joined. *)

From S2P Require Import Prelude Rle Varatt Pglz PglzHist PglzItems PglzCodec ToastCompression Oids ToastStore Detoast.
From S2P Require Import Wchar Mbchar StringInfo Text TextOps TextSearch PqFormat Bytea.

Section string_agg.
Context (E : env).

Definition makeStringInfo : res StringInfoData := _ ← palloc 24; initStringInfo.
Definition makeStringAggState : res StringInfoData := makeStringInfo.

(** The arguments that may be null are options; a state that is NULL is None. *)
Definition string_agg_transfn (state : option StringInfoData) (value delim : option (list Z)) : res (option StringInfoData) :=
  match value with
  | None => Ok state
  | Some value =>
      value ← pg_detoast_datum_packed E value;
      x ← match state with None => state ← makeStringAggState; Ok (state, true) | Some state => Ok (state, false) end;
      let '(state, isfirst) := x in
      state ← match delim with
              | None => Ok state
              | Some delim =>
                  delim ← pg_detoast_datum_packed E delim;
                  state ← appendStringInfoText state delim;
                  if (isfirst : bool) then len ← VARSIZE_ANY_EXHDR delim; Ok (with_cursor state len) else Ok state
              end;
      state ← appendStringInfoText state value;
      Ok (Some state)
  end.
Definition bytea_string_agg_transfn (state : option StringInfoData) (value delim : option (list Z)) : res (option StringInfoData) :=
  match value with
  | None => Ok state
  | Some value =>
      value ← DatumGetByteaPP E value;
      x ← match state with None => state ← makeStringAggState; Ok (state, true) | Some state => Ok (state, false) end;
      let '(state, isfirst) := x in
      state ← match delim with
              | None => Ok state
              | Some delim =>
                  delim ← DatumGetByteaPP E delim;
                  d ← text_data delim;
                  state ← appendBinaryStringInfo state d.1 d.2;
                  if (isfirst : bool) then len ← VARSIZE_ANY_EXHDR delim; Ok (with_cursor state len) else Ok state
              end;
      d ← text_data value;
      state ← appendBinaryStringInfo state d.1 d.2;
      Ok (Some state)
  end.

Definition string_agg_combine (state1 state2 : option StringInfoData) : res (option StringInfoData) :=
  match state2 with
  | None => Ok state1
  | Some state2 =>
      match state1 with
      | None =>
          state1 ← makeStringAggState;
          state1 ← appendBinaryStringInfo state1 (si_data state2) (si_len state2);
          Ok (Some (with_cursor state1 (si_cursor state2)))
      | Some state1 =>
          if si_len state2 >? 0 then
            state1 ← appendBinaryStringInfo state1 (si_data state2) (si_len state2);
            Ok (Some state1)
          else Ok (Some state1)
      end
  end.

Definition string_agg_serialize (state : StringInfoData) : res (list Z) :=
  buf ← pq_begintypsend;
  buf ← pq_sendint buf (wrap32 (si_cursor state)) 4;
  buf ← pq_sendbytes buf (si_data state) (si_len state);
  Ok (pq_endtypsend buf).
Definition string_agg_deserialize (sstate : list Z) : res StringInfoData :=
  sstate ← DatumGetByteaPP E sstate;
  buf ← initStringInfo;
  d ← text_data sstate;
  buf ← appendBinaryStringInfo buf d.1 d.2;
  result ← makeStringAggState;
  x ← pq_getmsgint buf 4;
  let '(n, buf) := x in
  let result := with_cursor result (int32_of n) in
  let datalen := int32_of (d.2 - 4) in
  x ← pq_getmsgbytes buf datalen;
  let '(data, buf) := x in
  result ← appendBinaryStringInfo result data datalen;
  _ ← pq_getmsgend buf;
  Ok result.

Definition string_agg_finalfn (state : option StringInfoData) : res (option (list Z)) :=
  match state with
  | None => Ok None
  | Some state =>
      t ← cstring_to_text_with_len (drop (Z.to_nat (si_cursor state)) (si_data state)) (si_len state - si_cursor state);
      Ok (Some t)
  end.
Definition bytea_string_agg_finalfn (state : option StringInfoData) : res (option (list Z)) :=
  match state with
  | None => Ok None
  | Some state =>
      let strippedlen := si_len state - si_cursor state in
      _ ← palloc (strippedlen + VARHDRSZ);
      data ← rdn (si_data state) (si_cursor state) strippedlen;
      Ok (Some (SET_VARSIZE (zrep VARHDRSZ 0 ++ data) (strippedlen + VARHDRSZ)))
  end.
End string_agg.

(** ** What the state stands for *)

(** A row that counts: the value, and the delimiter before it *)
Abbreviation piece := (fun p : list Z * list Z => p.2 ++ p.1).
Abbreviation pieces ps := (concat (map piece ps)).

(** The rows whose value is not null; a null delimiter is an empty one. *)
Definition live (rows : list (option (list Z) * option (list Z))) : list (list Z * list Z) :=
  omap (fun r => v ← r.1; Some (v, default [] r.2)) rows.

(** The result SQL defines: the values, each but the first after its delimiter *)
Definition sql_string_agg (ps : list (list Z * list Z)) : option (list Z) :=
  match ps with [] => None | (v, _) :: rest => Some (v ++ pieces rest) end.

Definition agg_of (st : option StringInfoData) (ps : list (list Z * list Z)) : Prop :=
  match ps, st with
  | [], None => True
  | (_, d) :: _, Some str => si_ok str (pieces ps) /\ si_cursor str = zlen d
  | _, _ => False
  end.

Lemma agg_some str ps : agg_of (Some str) ps -> exists v d rest, ps = (v, d) :: rest /\ si_ok str (pieces ps) /\ si_cursor str = zlen d.
Proof. destruct ps as [|[v d] rest]; [done|]. intros [Hs Hc]. by exists v, d, rest. Qed.

Lemma si_cursor_irrelevant str s c : si_ok str s -> si_ok (with_cursor str c) s.
Proof. intros [Hd Hl Hm Hx]. by split. Qed.

Lemma make_state_ok : exists str, makeStringAggState = Ok str /\ si_ok str [] /\ si_cursor str = 0.
Proof. eexists. split; [vm_compute; reflexivity|]. split; [|done]. split; [by eexists|done|done|done]. Qed.

(** Appending, where the result can be allocated *)
Lemma append_fits str s x k :
  si_ok str s -> zlen s + zlen x < MaxAllocSize ->
  exists str', appendBinaryStringInfo str (x ++ k) (zlen x) = Ok str' /\ si_ok str' (s ++ x) /\ si_cursor str' = si_cursor str.
Proof.
  intros Hs Hx. pose proof (append_binary_ok str s x k Hs) as Ha. unfold append_spec in Ha. rewrite (proj2 (Z.ltb_lt _ _) Hx) in Ha.
  destruct Ha as (str' & Ha & Hs'). exists str'. split_and!; try done. by apply append_cursor in Ha.
Qed.

Section agg.
Context (E : env).

Lemma append_text_ok str s p x :
  si_ok str s -> inline_value p x -> zlen s + zlen x < MaxAllocSize ->
  exists str', appendStringInfoText str p = Ok str' /\ si_ok str' (s ++ x) /\ si_cursor str' = si_cursor str.
Proof.
  intros Hs Hp Hx. unfold appendStringInfoText. destruct (text_data_ok p x Hp) as [t ->]. bind. by apply append_fits.
Qed.

(** One row, with the state that has been made for the first of them *)
Lemma add_row str s vp v (delim : option (list Z)) d (isfirst : bool) :
  si_ok str s -> inline_value vp v -> match delim with Some dv => holds E dv d | None => d = [] end -> zlen s + zlen d + zlen v < MaxAllocSize ->
  (isfirst = true -> si_cursor str = 0) ->
  exists str',
    (state ← match delim with
              | None => Ok str
              | Some delim =>
                  delim ← pg_detoast_datum_packed E delim;
                  state ← appendStringInfoText str delim;
                  if (isfirst : bool) then len ← VARSIZE_ANY_EXHDR delim; Ok (with_cursor state len) else Ok state
              end;
     state ← appendStringInfoText state vp; Ok (Some state)) = Ok (Some str') /\
    si_ok str' (s ++ d ++ v) /\ si_cursor str' = if isfirst then zlen d else si_cursor str.
Proof.
  intros Hs Hv Hd Hz Hc. pose proof (zlen_nonneg v). pose proof (zlen_nonneg d).
  assert (exists str1, match delim with None => Ok str | Some delim => delim ← pg_detoast_datum_packed E delim; state ← appendStringInfoText str delim;
      if (isfirst : bool) then len ← VARSIZE_ANY_EXHDR delim; Ok (with_cursor state len) else Ok state end = Ok str1 /\
      si_ok str1 (s ++ d) /\ si_cursor str1 = if isfirst then zlen d else si_cursor str) as (str1 & -> & Hs1 & Hc1).
  { destruct delim as [dv|].
    - destruct (packed_datum_ok _ _ _ Hd) as (dp & -> & Hdp). bind. destruct (append_text_ok str s dp d Hs Hdp) as (str1 & -> & Hs1 & Hc1); [lia|]. bind.
      destruct isfirst; [|by exists str1]. destruct (text_data_ok dp d Hdp) as [t Ht]. unfold text_data in Ht. apply res_bind_Ok in Ht as (a & _ & Ht).
      apply res_bind_Ok in Ht as (len & -> & [= _ ->]). bind. eexists. split; [done|]. split; [by apply si_cursor_irrelevant|done].
    - subst d. exists str. rewrite app_nil_r. split_and!; try done. destruct isfirst; [by apply Hc|done]. }
  bind. destruct (append_text_ok str1 (s ++ d) vp v Hs1 Hv) as (str2 & -> & Hs2 & Hc2); [rewrite zlen_app; lia|]. bind.
  exists str2. rewrite <- app_assoc in Hs2. split_and!; try done. congruence.
Qed.

Lemma trans_ok st ps value delim v d :
  agg_of st ps -> holds E value v -> match delim with Some dv => holds E dv d | None => d = [] end ->
  zlen (pieces ps) + zlen d + zlen v < MaxAllocSize ->
  exists st', string_agg_transfn E st (Some value) delim = Ok st' /\ agg_of st' (ps ++ [(v, d)]).
Proof.
  intros Hst Hv Hd Hz. unfold string_agg_transfn. destruct (packed_datum_ok _ _ _ Hv) as (vp & -> & Hvp). bind. destruct st as [str|].
  - destruct (agg_some str ps Hst) as (v0 & d0 & rest & Hps & Hs & Hc). bind.
    destruct (add_row str (pieces ps) vp v delim d false Hs Hvp Hd Hz) as (str' & Hr & Hs' & Hc'); [done|]. rewrite Hr. eexists. split; [done|].
    subst ps. cbn [app agg_of]. split; [|congruence]. change ((v0, d0) :: rest ++ [(v, d)]) with (((v0, d0) :: rest) ++ [(v, d)]).
    rewrite map_app, concat_app. cbn [map concat]. by rewrite app_nil_r.
  - destruct ps as [|[]]; [|done]. destruct make_state_ok as (str & -> & Hs & Hc). bind.
    destruct (add_row str [] vp v delim d true Hs Hvp Hd Hz) as (str' & Hr & Hs' & Hc'); [done|]. rewrite Hr. eexists. split; [done|].
    cbn [app agg_of map concat]. split; [|done]. by rewrite app_nil_r.
Qed.

Lemma bytea_trans_same st value delim : bytea_string_agg_transfn E st value delim = string_agg_transfn E st value delim.
Proof.
  destruct value as [v|]; [|done]. unfold bytea_string_agg_transfn, string_agg_transfn, DatumGetByteaPP, appendStringInfoText.
  destruct (pg_detoast_datum_packed E v) as [vp| | |]; try done. bind. destruct (match st with None => _ | Some _ => _ end) as [[str b]| | |]; try done. bind.
  destruct delim as [dv|]; [|bind; by destruct (text_data vp)].
  destruct (pg_detoast_datum_packed E dv) as [dp| | |]; try done. bind. destruct (text_data dp) as [x| | |]; try done. bind.
  destruct (appendBinaryStringInfo str x.1 x.2); try done. bind. destruct (if b then _ else _); try done. bind. by destruct (text_data vp).
Qed.

(** The state of the later rows is appended to that of the earlier ones. *)
Lemma combine_ok s1 s2 ps1 ps2 :
  agg_of s1 ps1 -> agg_of s2 ps2 -> zlen (pieces (ps1 ++ ps2)) < MaxAllocSize ->
  exists st, string_agg_combine s1 s2 = Ok st /\ agg_of st (ps1 ++ ps2).
Proof.
  intros H1 H2 Hz. rewrite map_app, concat_app, zlen_app in Hz. unfold string_agg_combine. destruct s2 as [str2|].
  2:{ destruct ps2 as [|[]]; [|done]. exists s1. by rewrite app_nil_r. }
  destruct (agg_some str2 ps2 H2) as (v & d & rest & Hps & [[r Hd2] Hl2 _ _] & Hc2). destruct s1 as [str1|].
  - destruct (agg_some str1 ps1 H1) as (v0 & d0 & rest0 & Hps1 & Hs1 & Hc1). rewrite Hl2, Hd2. destruct (Z.gtb_spec (zlen (pieces ps2)) 0) as [Hgt|Hle].
    + destruct (append_fits str1 (pieces ps1) (pieces ps2) (0 :: r) Hs1 Hz) as (str & -> & Hs & Hc). bind. eexists. split; [done|].
      subst ps1. cbn [app agg_of]. split; [|congruence]. change ((v0, d0) :: rest0 ++ ps2) with (((v0, d0) :: rest0) ++ ps2). by rewrite map_app, concat_app.
    + eexists. split; [done|]. assert (Hnil : pieces ps2 = []) by (apply zlen_0_nil; pose proof (zlen_nonneg (pieces ps2)); lia).
      subst ps1. cbn [app agg_of]. split; [|done]. change ((v0, d0) :: rest0 ++ ps2) with (((v0, d0) :: rest0) ++ ps2). by rewrite map_app, concat_app, Hnil, app_nil_r.
  - destruct ps1 as [|[]]; [|done]. destruct make_state_ok as (str1 & -> & Hs1 & Hc1). bind. rewrite Hl2, Hd2.
    destruct (append_fits str1 [] (pieces ps2) (0 :: r) Hs1 Hz) as (str & -> & Hs & Hc). bind. eexists. split; [done|].
    cbn [app]. subst ps2. cbn [agg_of]. split; [by apply si_cursor_irrelevant|done].
Qed.

(** A state on the wire: the cursor as four bytes, then the data *)
Lemma serialize_ok str s :
  si_ok str s -> 0 <= si_cursor str < 2 ^ 31 -> zlen s + 8 < MaxAllocSize ->
  exists t, string_agg_serialize str = Ok (mk_4b_u (be32 (si_cursor str) ++ s) ++ t).
Proof.
  intros [[r Hd] Hl _ _] Hc Hz. unfold string_agg_serialize. destruct begintypsend_ok as (b0 & -> & H0). bind.
  unfold wrap32. rewrite Z.mod_small by lia. change (pq_sendint b0 (si_cursor str) 4) with (pq_sendint32 b0 (si_cursor str)).
  destruct (pq_write_ok b0 (zrep 4 0) (be32 (si_cursor str)) H0) as (b1 & Hb1 & H1 & _); [change (8 < MaxAllocSize); done|].
  unfold pq_sendint32. change (zlen (be32 (si_cursor str))) with 4 in Hb1. rewrite Hb1. bind. unfold pq_sendbytes. rewrite Hl, Hd.
  pose proof (append_binary_raw b1 _ s (0 :: r) H1) as Ha. unfold append_spec in Ha. change (zlen (zrep 4 0 ++ be32 (si_cursor str))) with 8 in Ha.
  rewrite (proj2 (Z.ltb_lt _ _)) in Ha by lia. destruct Ha as (b2 & -> & H2). bind. rewrite <- app_assoc in H2.
  destruct (endtypsend_ok b2 (be32 (si_cursor str) ++ s)) as [t ->]; [by apply si_ok_raw| |by exists t].
  rewrite zlen_app. change (zlen (be32 _)) with 4. unfold MaxAllocSize in Hz. change (2 ^ 30) with 1073741824. lia.
Qed.

Lemma deserialize_ok v c s :
  holds E v (be32 c ++ s) -> 0 <= c < 2 ^ 31 -> zlen s + 8 < MaxAllocSize ->
  exists str, string_agg_deserialize E v = Ok str /\ si_ok str s /\ si_cursor str = c.
Proof.
  intros Hv Hc Hz. pose proof (zlen_nonneg s). unfold string_agg_deserialize, DatumGetByteaPP. destruct (packed_datum_ok _ _ _ Hv) as (p & -> & Hp). bind.
  assert (exists b, initStringInfo = Ok b /\ si_ok b [] /\ si_cursor b = 0) as (b0 & -> & H0 & C0) by apply make_state_ok. bind.
  destruct (text_data_ok p _ Hp) as [t ->]. bind. cbn [fst snd]. rewrite zlen_app. change (zlen (be32 c)) with 4.
  destruct (append_fits b0 [] (be32 c ++ s) t H0) as (b1 & Hb1 & H1 & C1); [rewrite zlen_app; change (zlen (be32 c)) with 4; change (zlen []) with 0; lia|].
  rewrite zlen_app in Hb1. change (zlen (be32 c)) with 4 in Hb1. rewrite Hb1. bind. destruct make_state_ok as (r0 & -> & R0 & _). bind.
  unfold pq_getmsgint. change ((4 =? 1) || (4 =? 2) || (4 =? 4)) with true. cbn iota. change (pq_copymsgbytes b1 4) with (pq_copymsgbytes b1 (zlen (be32 c))).
  rewrite (copymsgbytes_ok b1 [] (be32 c) s) by first [by apply si_ok_raw | by rewrite C1]. bind. cbn [fst snd]. rewrite ntoh_be32, Z.mod_small, int32_small by lia.
  rewrite int32_small by (unfold MaxAllocSize in Hz; lia). replace (4 + zlen s - 4) with (zlen s) by lia. destruct H1 as [[k Hk] Hl1 _ _].
  unfold pq_getmsgbytes. cbn [with_cursor si_data si_len si_cursor]. rewrite Hl1, !zlen_app. change (zlen (be32 c)) with 4. change (zlen []) with 0.
  replace ((zlen s <? 0) || (zlen s >? 0 + (4 + zlen s) - (0 + 4))) with false by lia. bind. rewrite Hk. change (drop (Z.to_nat (0 + 4)) (([] ++ be32 c ++ s) ++ 0 :: k)) with (s ++ 0 :: k).
  destruct (append_fits (with_cursor r0 c) [] s (0 :: k)) as (r1 & -> & R1 & C2); [by apply si_cursor_irrelevant|change (zlen []) with 0; lia|]. bind.
  unfold pq_getmsgend. cbn [with_cursor si_len si_cursor]. rewrite Hl1, !zlen_app. change (zlen (be32 c)) with 4. change (zlen []) with 0.
  replace (0 + 4 + zlen s =? 0 + (4 + zlen s)) with true by lia. bind. by exists r1.
Qed.

(** Sending a state to another process keeps what it stands for. *)
Lemma transfer_ok str ps :
  agg_of (Some str) ps -> zlen (pieces ps) + 8 < MaxAllocSize ->
  returns (s ← string_agg_serialize str; string_agg_deserialize E s) (fun str' => agg_of (Some str') ps).
Proof.
  intros Hst Hz. destruct (agg_some str ps Hst) as (v & d & rest & -> & Hs & Hc). pose proof (zlen_nonneg d).
  assert (Hd : 0 <= si_cursor str < 2 ^ 31).
  { cbn [map concat fst snd] in Hz. rewrite !zlen_app in Hz. pose proof (zlen_nonneg v). pose proof (zlen_nonneg (pieces rest)). unfold MaxAllocSize in Hz. lia. }
  destruct (serialize_ok str _ Hs Hd Hz) as [t ->]. bind.
  destruct (deserialize_ok (mk_4b_u (be32 (si_cursor str) ++ pieces ((v, d) :: rest)) ++ t) (si_cursor str) (pieces ((v, d) :: rest))) as (str' & -> & Hs' & Hc').
  - do 2 constructor. constructor. unfold ok_4b_u. rewrite zlen_app. change (zlen (be32 _)) with 4. unfold MaxAllocSize in Hz. change (2 ^ 30) with 1073741824. lia.
  - done.
  - done.
  - split; [done|congruence].
Qed.

Lemma final_ok st ps : agg_of st ps -> zlen (pieces ps) + 8 < MaxAllocSize ->
  string_agg_finalfn st = Ok (mk_4b_u <$> sql_string_agg ps) /\ bytea_string_agg_finalfn st = Ok (mk_4b_u <$> sql_string_agg ps).
Proof.
  intros Hst Hz. destruct st as [str|]; [|by destruct ps as [|[]]]. destruct (agg_some str ps Hst) as (v & d & rest & -> & [[k Hk] Hl _ _] & Hc).
  cbn [sql_string_agg fmap option_fmap option_map]. unfold string_agg_finalfn, bytea_string_agg_finalfn. rewrite Hl, Hk, Hc. cbn [map concat] in *. rewrite <- !app_assoc. cbn [fst snd] in *.
  set (x := v ++ pieces rest). assert (Hx : zlen ((d ++ v) ++ pieces rest) = zlen d + zlen x) by (unfold x; rewrite !zlen_app; lia). rewrite Hx in *.
  rewrite zlen_app. replace (zlen d + zlen x - zlen d) with (zlen x) by lia. pose proof (zlen_nonneg x). pose proof (zlen_nonneg d).
  assert (Hfit : zlen x + 4 < 2 ^ 30) by (unfold MaxAllocSize in Hz; change (2 ^ 30) with 1073741824; lia). assert (Hdrop : drop (Z.to_nat (zlen d)) (d ++ v ++ pieces rest ++ 0 :: k) = x ++ 0 :: k).
  { unfold zlen. rewrite Nat2Z.id, drop_app_length. unfold x. by rewrite <- app_assoc. }
  split.
  - rewrite Hdrop. unfold cstring_to_text_with_len. rewrite palloc_ok by (unfold VARHDRSZ; lia). bind. change (x ++ 0 :: k) with ([] ++ x ++ 0 :: k). rewrite rdn_middle by done. bind.
    do 3 f_equal. by apply make_text.
  - rewrite palloc_ok by (unfold VARHDRSZ; lia). bind. replace (v ++ pieces rest ++ 0 :: k) with (x ++ 0 :: k) by (unfold x; by rewrite <- app_assoc).
    rewrite rdn_middle by done. bind. do 3 f_equal. by apply make_text.
Qed.

(** ** Aggregation *)

(** The calls for a sequence of rows, and those of workers that each get some rows and
    send their state to the leader, who combines the states in order *)
Fixpoint agg_rows (st : option StringInfoData) (rows : list (option (list Z) * option (list Z))) : res (option StringInfoData) :=
  match rows with
  | [] => Ok st
  | (v, d) :: rows => st ← string_agg_transfn E st v d; agg_rows st rows
  end.
Definition worker (rows : list (option (list Z) * option (list Z))) : res (option StringInfoData) :=
  st ← agg_rows None rows;
  match st with
  | None => Ok None
  | Some str => s ← string_agg_serialize str; str ← string_agg_deserialize E s; Ok (Some str)
  end.
Fixpoint leader (st : option StringInfoData) (chunks : list (list (option (list Z) * option (list Z)))) : res (option StringInfoData) :=
  match chunks with
  | [] => Ok st
  | rows :: chunks => st2 ← worker rows; st ← string_agg_combine st st2; leader st chunks
  end.

Definition opt_holds (v c : option (list Z)) : Prop :=
  match v, c with Some v, Some c => holds E v c | None, None => True | _, _ => False end.
Definition agg_row_holds (r c : option (list Z) * option (list Z)) : Prop := opt_holds r.1 c.1 /\ opt_holds r.2 c.2.

Lemma live_app a b : live (a ++ b) = live a ++ live b.
Proof. apply omap_app. Qed.
Lemma pieces_app a b : zlen (pieces (a ++ b)) = zlen (pieces a) + zlen (pieces b).
Proof. by rewrite map_app, concat_app, zlen_app. Qed.

Lemma agg_rows_ok rows cs : Forall2 agg_row_holds rows cs -> forall st ps,
  agg_of st ps -> zlen (pieces (ps ++ live cs)) < MaxAllocSize ->
  exists st', agg_rows st rows = Ok st' /\ agg_of st' (ps ++ live cs).
Proof.
  induction 1 as [|[v d] [cv cd] rows cs [Hv Hd] _ IH]; intros st ps Hst Hz; [exists st; by rewrite app_nil_r|].
  cbn [agg_rows]. cbn [fst snd] in Hv, Hd. destruct v as [v|], cv as [cv|]; try done.
  - change (live ((Some cv, cd) :: cs)) with ((cv, default [] cd) :: live cs) in *. assert (Heq : ps ++ (cv, default [] cd) :: live cs = (ps ++ [(cv, default [] cd)]) ++ live cs) by (by rewrite <- app_assoc).
    rewrite Heq in *. rewrite pieces_app, pieces_app in Hz. pose proof (zlen_nonneg (pieces (live cs))). cbn [map concat fst snd] in Hz. rewrite app_nil_r, zlen_app in Hz.
    destruct (trans_ok st ps v d cv (default [] cd) Hst Hv) as (st1 & -> & H1); [by destruct d, cd|lia|]. bind. apply IH; [done|].
    rewrite pieces_app, pieces_app. cbn [map concat fst snd]. rewrite app_nil_r, zlen_app. lia.
  - bind. change (live ((None, cd) :: cs)) with (live cs) in *. by apply IH.
Qed.

Lemma worker_ok rows cs : Forall2 agg_row_holds rows cs -> zlen (pieces (live cs)) + 8 < MaxAllocSize ->
  exists st, worker rows = Ok st /\ agg_of st (live cs).
Proof.
  intros Hr Hz. destruct (agg_rows_ok rows cs Hr None [] I) as (st & Hst & Ha); [cbn [app]; lia|]. unfold worker. rewrite Hst. bind. destruct st as [str|]; [|by exists None].
  pose proof (transfer_ok str _ Ha Hz) as Ht. destruct (string_agg_serialize str) as [s| | |]; try done. bind. cbn [mbind res_bind] in Ht.
  destruct (string_agg_deserialize E s) as [str'| | |]; try done. bind. by exists (Some str').
Qed.

Lemma leader_ok chunks css : Forall2 (Forall2 agg_row_holds) chunks css -> forall st ps,
  agg_of st ps -> zlen (pieces (ps ++ live (concat css))) + 8 < MaxAllocSize ->
  exists st', leader st chunks = Ok st' /\ agg_of st' (ps ++ live (concat css)).
Proof.
  induction 1 as [|rows cs chunks css Hr _ IH]; intros st ps Hst Hz; [exists st; by rewrite app_nil_r|].
  cbn [leader concat] in *. rewrite live_app, app_assoc in *. rewrite pieces_app in Hz. pose proof (zlen_nonneg (pieces (live (concat css)))).
  pose proof (pieces_app ps (live cs)). pose proof (zlen_nonneg (pieces ps)).
  destruct (worker_ok rows cs Hr) as (st2 & -> & Hst2); [lia|]. bind. destruct (combine_ok st st2 ps (live cs) Hst Hst2) as (st1 & -> & Hst1); [lia|]. bind.
  apply IH; [done|]. rewrite pieces_app. lia.
Qed.
End agg.

(** C14: string_agg gives the same result however the rows are divided among parallel
    workers: the partial states, sent in the serialized form and combined in order, have
    the final value of the aggregation of all rows by one process, which is what SQL
    defines: the values that are not null, each but the first after its delimiter, and
    null if there is none.  The functions of bytea do the same as those of text. *)
Theorem string_agg_parallel E chunks css :
  Forall2 (Forall2 (agg_row_holds E)) chunks css -> zlen (concat (map (fun p => p.2 ++ p.1) (live (concat css)))) + 8 < MaxAllocSize ->
  let result := mk_4b_u <$> sql_string_agg (live (concat css)) in
  (st ← leader E None chunks; string_agg_finalfn st) = Ok result /\
  (st ← leader E None chunks; bytea_string_agg_finalfn st) = Ok result /\
  (st ← agg_rows E None (concat chunks); string_agg_finalfn st) = Ok result /\
  (forall st value delim, bytea_string_agg_transfn E st value delim = string_agg_transfn E st value delim).
Proof.
  intros Hc Hz result. destruct (leader_ok E chunks css Hc None [] I Hz) as (st & -> & Hst). bind. destruct (final_ok st _ Hst Hz) as [-> ->].
  split_and!; [done..| |intros; apply bytea_trans_same]. destruct (agg_rows_ok E (concat chunks) (concat css)) with (st := @None StringInfoData) (ps := @nil (list Z * list Z)) as (st' & -> & Hst').
  - clear Hz result st Hst. induction Hc; cbn [concat]; [constructor|]. by apply Forall2_app.
  - done.
  - cbn [app]. lia.
  - bind. by apply final_ok.
Qed.

(** Three workers, one without rows; null values and a null delimiter *)
Definition sample_chunks : list (list (option (list Z) * option (list Z))) :=
  [[(None, Some sample_text); (Some sample_text, Some (mk_4b_u [44; 32]))]; []; [(Some (mk_4b_u [97]), None); (Some (mk_4b_u [98]), Some (mk_4b_u [59]))]].
Definition sample_row_contents : list (list (option (list Z) * option (list Z))) :=
  [[(None, Some (concat sample_chars)); (Some (concat sample_chars), Some [44; 32])]; []; [(Some [97], None); (Some [98], Some [59])]].

Lemma sample_chunks_hold : Forall2 (Forall2 (agg_row_holds sample_env)) sample_chunks sample_row_contents.
Proof.
  assert (H : forall x, zlen x + 4 < 2 ^ 30 -> holds sample_env (mk_4b_u x) x) by (intros x Hx; apply (inline_holds sample_tenv), mk_inline, Hx).
  repeat first [apply Forall2_nil_2 | apply Forall2_cons_2]; split; cbn [opt_holds fst snd]; first [exact I | apply sample_text_holds | by apply H].
Qed.

Lemma string_agg_parallel_witness :
  (st ← leader sample_env None sample_chunks; string_agg_finalfn st) = Ok (Some (mk_4b_u (concat sample_chars ++ [97; 59; 98]))).
Proof.
  refine (proj1 (string_agg_parallel sample_env sample_chunks sample_row_contents sample_chunks_hold _)). vm_compute. reflexivity.
Defined.
