(* ===== verification/FsmPage.v ===== *)
(** A page of the free space map: src/backend/storage/freespace/fsmpage.c.

    The nodes of a page are a binary tree in an array, with the root at index zero and the
    slots as the last ones; an inner node has the greatest value of its children.  The last
    inner nodes have no children, since the array ends before the level of the slots does. *)

From S2P Require Import Prelude.

Record FSMPageData := {
  fp_next_slot : Z;
  fp_nodes : list Z
}.

(** A page of 8192 bytes has a header of 24 bytes, and fp_next_slot takes four. *)
Definition NodesPerPage : Z := 8192 - 24 - 4.
Definition NonLeafNodesPerPage : Z := 8192 / 2 - 1.
Definition LeafNodesPerPage : Z := NodesPerPage - NonLeafNodesPerPage.
Definition SlotsPerFSMPage : Z := LeafNodesPerPage.

Definition leftchild (x : Z) : Z := 2 * x + 1.
Definition rightchild (x : Z) : Z := 2 * x + 2.
Definition parentof (x : Z) : Z := (x - 1) / 2.

Definition rightneighbor (x : Z) : Z :=
  let x := x + 1 in
  if Z.land (x + 1) x =? 0 then parentof x else x.

Definition set_node (p : FSMPageData) (i v : Z) : res FSMPageData :=
  nodes ← wr (fp_nodes p) i [v];
  Ok {| fp_next_slot := fp_next_slot p; fp_nodes := nodes |}.

(** The greatest value of the children that exist *)
Definition rebuilt_value (p : FSMPageData) (nodeno : Z) : res Z :=
  let lchild := leftchild nodeno in
  let rchild := lchild + 1 in
  newvalue ← (if lchild <? NodesPerPage then rd (fp_nodes p) lchild else Ok 0);
  if rchild <? NodesPerPage then r ← rd (fp_nodes p) rchild; Ok (Z.max newvalue r) else Ok newvalue.

(** for (nodeno = NonLeafNodesPerPage - 1; nodeno >= 0; nodeno--): the page, and changed *)
Fixpoint rebuild_nodes (n : nat) (p : FSMPageData) (changed : bool) : res (FSMPageData * bool) :=
  match n with
  | O => Ok (p, changed)
  | S n =>
      let nodeno := Z.of_nat n in
      newvalue ← rebuilt_value p nodeno;
      old ← rd (fp_nodes p) nodeno;
      if negb (old =? newvalue) then p ← set_node p nodeno newvalue; rebuild_nodes n p true
      else rebuild_nodes n p changed
  end.
Definition fsm_rebuild_page (p : FSMPageData) : res (FSMPageData * bool) :=
  rebuild_nodes (Z.to_nat NonLeafNodesPerPage) p false.

(** do { ... } while (nodeno > 0), from the node below; the left child always exists. *)
Definition propagate_body (x : FSMPageData * Z) : res (FSMPageData * Z + FSMPageData) :=
  let '(p, nodeno) := x in
  let nodeno := parentof nodeno in
  let lchild := leftchild nodeno in
  let rchild := lchild + 1 in
  newvalue ← rd (fp_nodes p) lchild;
  newvalue ← (if rchild <? NodesPerPage then r ← rd (fp_nodes p) rchild; Ok (Z.max newvalue r) else Ok newvalue);
  oldvalue ← rd (fp_nodes p) nodeno;
  if oldvalue =? newvalue then Ok (inr p) else
  p ← set_node p nodeno newvalue;
  if nodeno >? 0 then Ok (inl (p, nodeno)) else Ok (inr p).

Definition fsm_set_avail (p : FSMPageData) (slot value : Z) : res (FSMPageData * bool) :=
  let nodeno := NonLeafNodesPerPage + slot in
  oldvalue ← rd (fp_nodes p) nodeno;
  root ← rd (fp_nodes p) 0;
  if (oldvalue =? value) && (value <=? root) then Ok (p, false) else
  p ← set_node p nodeno value;
  p ← iter 16 propagate_body (p, nodeno);
  root ← rd (fp_nodes p) 0;
  if value >? root then x ← fsm_rebuild_page p; Ok (x.1, true) else Ok (p, true).

Definition fsm_get_avail (p : FSMPageData) (slot : Z) : res Z := rd (fp_nodes p) (NonLeafNodesPerPage + slot).
Definition fsm_get_max_avail (p : FSMPageData) : res Z := rd (fp_nodes p) 0.

(** while (nodeno > 0) *)
Definition climb_body (p : FSMPageData) (minvalue : Z) (nodeno : Z) : res (Z + Z) :=
  if nodeno >? 0 then
    v ← rd (fp_nodes p) nodeno;
    if v >=? minvalue then Ok (inr nodeno) else Ok (inl (parentof (rightneighbor nodeno)))
  else Ok (inr nodeno).
(** while (nodeno < NonLeafNodesPerPage); None where no child has what the node promises *)
Definition descend_body (p : FSMPageData) (minvalue : Z) (nodeno : Z) : res (Z + option Z) :=
  if nodeno <? NonLeafNodesPerPage then
    let childnodeno := leftchild nodeno in
    left ← (if childnodeno <? NodesPerPage then v ← rd (fp_nodes p) childnodeno; Ok (v >=? minvalue) else Ok false);
    if (left : bool) then Ok (inl childnodeno) else
    let childnodeno := childnodeno + 1 in
    right ← (if childnodeno <? NodesPerPage then v ← rd (fp_nodes p) childnodeno; Ok (v >=? minvalue) else Ok false);
    if (right : bool) then Ok (inl childnodeno) else Ok (inr None)
  else Ok (inr (Some nodeno)).

(** From restart to the end, or None where the page is to be rebuilt: the slot found *)
Definition search_page (p : FSMPageData) (minvalue : Z) : res (option Z) :=
  root ← rd (fp_nodes p) 0;
  if root <? minvalue then Ok (Some (-1)) else
  let target := fp_next_slot p in
  let target := if (target <? 0) || (target >=? LeafNodesPerPage) then 0 else target in
  let target := target + NonLeafNodesPerPage in
  nodeno ← iter 16 (climb_body p minvalue) target;
  r ← iter 16 (descend_body p minvalue) nodeno;
  Ok (match r with None => None | Some nodeno => Some (nodeno - NonLeafNodesPerPage) end).

(** goto restart: the page that was rebuilt may be searched again. *)
Fixpoint search_restart (fuel : nat) (p : FSMPageData) (minvalue : Z) (advancenext : bool) : res (Z * FSMPageData) :=
  match fuel with
  | O => Fuel
  | S fuel =>
      r ← search_page p minvalue;
      match r with
      | None => x ← fsm_rebuild_page p; search_restart fuel x.1 minvalue advancenext
      | Some slot =>
          if slot =? -1 then Ok (-1, p) else
          Ok (slot, {| fp_next_slot := slot + (if advancenext then 1 else 0); fp_nodes := fp_nodes p |})
      end
  end.
(** The locks are not modelled.  A page that has been rebuilt is not found corrupt again. *)
Definition fsm_search_avail (p : FSMPageData) (minvalue : Z) (advancenext : bool) : res (Z * FSMPageData) :=
  search_restart 2 p minvalue advancenext.

(** The slots from nslots on: the rest of the nodes, and changed *)
Definition fsm_truncate_avail (p : FSMPageData) (nslots : Z) : res (FSMPageData * bool) :=
  let ptr := NonLeafNodesPerPage + nslots in
  tail ← rdn (fp_nodes p) ptr (NodesPerPage - ptr);
  let changed := existsb (fun v => negb (v =? 0)) tail in
  nodes ← wr (fp_nodes p) ptr (zrep (NodesPerPage - ptr) 0);
  let p := {| fp_next_slot := fp_next_slot p; fp_nodes := nodes |} in
  if changed then x ← fsm_rebuild_page p; Ok (x.1, changed) else Ok (p, changed).

(** ** The tree *)

(** The numbers, evaluated *)
Ltac fsmc := change NonLeafNodesPerPage with 4095 in *; change NodesPerPage with 8164 in *; change LeafNodesPerPage with 4069 in *; change SlotsPerFSMPage with 4069 in *.

(** The value of a node; the nodes that a page does not have count as zero. *)
Definition node (p : FSMPageData) (i : Z) : Z := default 0 (fp_nodes p !! Z.to_nat i).
(** The values of the slots *)
Definition slots (p : FSMPageData) : list Z := drop (Z.to_nat NonLeafNodesPerPage) (fp_nodes p).

(** A page as it is read, which may be torn *)
Record fsm_page (p : FSMPageData) : Prop := {
  fsm_size : zlen (fp_nodes p) = NodesPerPage;
  fsm_bytes : bytes (fp_nodes p)
}.
(** An inner node has the greatest value of its children. *)
Definition agrees (p : FSMPageData) (x : Z) : Prop := node p x = Z.max (node p (2 * x + 1)) (node p (2 * x + 2)).
Record fsm_ok (p : FSMPageData) : Prop := {
  fsm_ok_page : fsm_page p;
  fsm_agrees : forall x, 0 <= x < NonLeafNodesPerPage -> agrees p x
}.

Section tree.
Context (p : FSMPageData) (Hp : fsm_page p).

Lemma rd_node i : 0 <= i < NodesPerPage -> rd (fp_nodes p) i = Ok (node p i).
Proof using Hp.
  intros Hi. destruct (rd_in_range (fp_nodes p) i) as [v Hv]; [rewrite (fsm_size p Hp); done|]. rewrite Hv. f_equal. apply rd_Ok in Hv as [_ Hv]. unfold node. by rewrite Hv.
Qed.
Lemma node_byte i : is_byte (node p i).
Proof using Hp.
  unfold node. destruct (fp_nodes p !! Z.to_nat i) as [v|] eqn:Hv; [|done]. exact (Forall_lookup_1 _ _ _ _ (fsm_bytes p Hp) Hv).
Qed.
Lemma node_missing i : NodesPerPage <= i -> node p i = 0.
Proof using Hp. intros Hi. unfold node. rewrite lookup_ge_None_2; [done|]. pose proof (fsm_size p Hp). unfold zlen in *. lia. Qed.

Lemma rebuilt_ok x : 0 <= x < NonLeafNodesPerPage -> rebuilt_value p x = Ok (Z.max (node p (2 * x + 1)) (node p (2 * x + 2))).
Proof using Hp.
  intros Hx. unfold rebuilt_value, leftchild. cbv zeta. replace (2 * x + 1 + 1) with (2 * x + 2) by lia. pose proof (node_byte (2 * x + 1)). pose proof (node_byte (2 * x + 2)). unfold is_byte in *.
  destruct (Z.ltb_spec (2 * x + 1) NodesPerPage); [rewrite (rd_node (2 * x + 1)) by lia|rewrite (node_missing (2 * x + 1)) by lia]; bind;
    (destruct (Z.ltb_spec (2 * x + 2) NodesPerPage); [rewrite rd_node by lia; done|rewrite (node_missing (2 * x + 2)) by lia; f_equal; lia]).
Qed.

Lemma set_node_ok i v : 0 <= i < NodesPerPage -> is_byte v -> exists q, set_node p i v = Ok q /\ fsm_page q /\ fp_next_slot q = fp_next_slot p /\
  fp_nodes q = <[Z.to_nat i := v]> (fp_nodes p) /\ node q i = v /\ forall j, 0 <= j -> j <> i -> node q j = node p j.
Proof using Hp.
  intros Hi Hv. pose proof (fsm_size p Hp) as Hz. unfold set_node. assert (Hw : wr (fp_nodes p) i [v] = Ok (<[Z.to_nat i := v]> (fp_nodes p))).
  { unfold wr. change (zlen [v]) with 1. replace ((0 <=? i) && (i + 1 <=? zlen (fp_nodes p))) with true by lia. f_equal. rewrite insert_take_drop by (unfold zlen in Hz; lia).
    by replace (Z.to_nat (i + 1)) with (S (Z.to_nat i)) by lia. }
  rewrite Hw. bind. eexists. split; [done|]. split_and!; cbn [fp_nodes fp_next_slot]; try done.
  - split; cbn [fp_nodes]; [unfold zlen in *; by rewrite length_insert|]. apply Forall_insert; [apply Hp|done].
  - unfold node. cbn [fp_nodes]. rewrite list_lookup_insert_eq by (unfold zlen in Hz; lia). done.
  - intros j Hj Hne. unfold node. cbn [fp_nodes]. rewrite list_lookup_insert_ne by lia. done.
Qed.
End tree.

Lemma slots_node p s : 0 <= s -> default 0 (slots p !! Z.to_nat s) = node p (NonLeafNodesPerPage + s).
Proof. intros Hs. unfold slots, node. rewrite lookup_drop. do 2 f_equal. fsmc. lia. Qed.

(** An inner node is not a slot. *)
Lemma slots_inner p q i v : fp_nodes q = <[Z.to_nat i := v]> (fp_nodes p) -> 0 <= i < NonLeafNodesPerPage -> slots q = slots p.
Proof. intros Hq Hi. unfold slots. rewrite Hq. apply drop_insert_lt. lia. Qed.
Lemma slots_leaf p q s v : fp_nodes q = <[Z.to_nat (NonLeafNodesPerPage + s) := v]> (fp_nodes p) -> 0 <= s -> slots q = <[Z.to_nat s := v]> (slots p).
Proof.
  intros Hq Hs. unfold slots. rewrite Hq. rewrite drop_insert_ge by (fsmc; lia). f_equal. fsmc. lia.
Qed.

(** *** Rebuilding *)

Lemma rebuild_nodes_ok n : forall p changed,
  fsm_page p -> (Z.of_nat n <= NonLeafNodesPerPage) -> (forall x, Z.of_nat n <= x < NonLeafNodesPerPage -> agrees p x) ->
  exists q changed', rebuild_nodes n p changed = Ok (q, changed') /\ fsm_ok q /\ slots q = slots p /\ fp_next_slot q = fp_next_slot p.
Proof.
  induction n as [|n IH]; intros p changed Hp Hn Hag; cbn [rebuild_nodes].
  { exists p, changed. split; [done|]. split; [|done]. split; [done|]. intros x Hx. apply Hag. lia. }
  rewrite rebuilt_ok by (done || lia). bind. rewrite (rd_node p Hp) by (fsmc; lia). bind.
  destruct (Z.eqb_spec (node p (Z.of_nat n)) (Z.max (node p (2 * Z.of_nat n + 1)) (node p (2 * Z.of_nat n + 2)))) as [Heq|Hne]; cbn [negb].
  - apply IH; [done|lia|]. intros x Hx. destruct (Z.eq_dec x (Z.of_nat n)) as [->|]; [exact Heq|apply Hag; lia].
  - destruct (set_node_ok p Hp (Z.of_nat n) (Z.max (node p (2 * Z.of_nat n + 1)) (node p (2 * Z.of_nat n + 2)))) as (q & -> & Hq & Hnext & Hnodes & Hv & Hother).
    { fsmc. lia. }
    { pose proof (node_byte p Hp (2 * Z.of_nat n + 1)). pose proof (node_byte p Hp (2 * Z.of_nat n + 2)). unfold is_byte in *. lia. }
    bind. destruct (IH q true Hq) as (r & c & -> & Hr & Hs & Hx); [lia| |].
    + intros x Hx. unfold agrees. rewrite (Hother (2 * x + 1)), (Hother (2 * x + 2)) by lia. destruct (Z.eq_dec x (Z.of_nat n)) as [->|]; [done|]. rewrite Hother by lia. apply Hag. lia.
    + exists r, c. split; [done|]. split; [done|]. rewrite Hs, Hx. split; [|done]. apply (slots_inner p q (Z.of_nat n) _ Hnodes). lia.
Qed.

Lemma rebuild_page_ok p : fsm_page p -> exists q changed, fsm_rebuild_page p = Ok (q, changed) /\ fsm_ok q /\ slots q = slots p /\ fp_next_slot q = fp_next_slot p.
Proof. intros Hp. apply rebuild_nodes_ok; [done|fsmc; lia|fsmc; lia]. Qed.

(** *** Setting a slot *)

Lemma parent_range x : 0 < x -> 0 <= parentof x < x /\ 2 * parentof x + 1 <= x <= 2 * parentof x + 2.
Proof. intros Hx. unfold parentof. Z.div_mod_to_equations. lia. Qed.

(** Every node is at most the root. *)
Lemma below_root p : fsm_ok p -> forall n i, (Z.to_nat i < n)%nat -> 0 <= i <= 8190 -> node p i <= node p 0.
Proof.
  intros Hp. induction n as [|n IH]; intros i Hn Hi; [lia|]. destruct (Z.eq_dec i 0) as [->|]; [done|]. pose proof (parent_range i) as [H1 H2]; [lia|].
  assert (Hag : agrees p (parentof i)) by (apply Hp; fsmc; lia). unfold agrees in Hag. specialize (IH (parentof i) ltac:(lia) ltac:(lia)).
  assert (i = 2 * parentof i + 1 \/ i = 2 * parentof i + 2) as [E|E] by lia; rewrite E; lia.
Qed.
Lemma slot_below_root p i : fsm_ok p -> 0 <= i <= 8190 -> node p i <= node p 0.
Proof. intros Hp Hi. by apply (below_root p Hp (S (Z.to_nat i))); [lia|]. Qed.

(** The levels above a node are halved. *)
Lemma parent_pow x n : 0 < x -> x + 1 < 2 ^ Z.of_nat (S n) -> parentof x + 1 < 2 ^ Z.of_nat n.
Proof. intros Hx. rewrite Nat2Z.inj_succ, Z.pow_succ_r by lia. pose proof (parent_range x Hx). lia. Qed.

(** What the loop leaves alone; the nodes above the changed one agree again if the others did. *)
Definition propagated (p : FSMPageData) (y : Z) (q : FSMPageData) : Prop :=
  fsm_page q /\ slots q = slots p /\ fp_next_slot q = fp_next_slot p /\
  ((forall x, 0 <= x < NonLeafNodesPerPage -> x <> parentof y -> agrees p x) -> fsm_ok q).

Lemma propagate_ok n : forall p y, fsm_page p -> 0 < y < NodesPerPage -> y + 1 < 2 ^ Z.of_nat (S n) ->
  returns (iter (S n) propagate_body (p, y)) (propagated p y).
Proof.
  induction n as [|n IH]; intros p y Hp Hy Hn; [simpl in Hn; lia|]. pose proof (parent_range y (proj1 Hy)) as [H1 H2]. pose proof (parent_pow y _ (proj1 Hy) Hn) as Hup.
  rewrite iter_S. unfold propagate_body. cbv zeta. unfold leftchild. replace (2 * parentof y + 1 + 1) with (2 * parentof y + 2) by lia.
  rewrite (rd_node p Hp (2 * parentof y + 1)) by lia. bind. set (nv := Z.max (node p (2 * parentof y + 1)) (node p (2 * parentof y + 2))).
  pose proof (node_byte p Hp (2 * parentof y + 1)) as B1. pose proof (node_byte p Hp (2 * parentof y + 2)) as B2. unfold is_byte in B1, B2.
  assert (Hnv : (if 2 * parentof y + 2 <? NodesPerPage then r ← rd (fp_nodes p) (2 * parentof y + 2); Ok (Z.max (node p (2 * parentof y + 1)) r) else Ok (node p (2 * parentof y + 1))) = Ok nv).
  { destruct (Z.ltb_spec (2 * parentof y + 2) NodesPerPage); [by rewrite (rd_node p Hp) by lia|]. unfold nv. rewrite (node_missing p Hp (2 * parentof y + 2)) by lia. f_equal. lia. }
  rewrite Hnv. bind. rewrite (rd_node p Hp) by lia. bind. destruct (Z.eqb_spec (node p (parentof y)) nv) as [Heq|Hne].
  { bind. simpl. split_and!; try done. intros Hag. split; [done|]. intros x Hx. destruct (Z.eq_dec x (parentof y)) as [->|]; [exact Heq|by apply Hag]. }
  destruct (set_node_ok p Hp (parentof y) nv) as (q & -> & Hq & Hnext & Hnodes & Hv & Hother); [lia|unfold is_byte, nv; lia|]. bind.
  assert (Hs : slots q = slots p) by (apply (slots_inner p q (parentof y) nv Hnodes); fsmc; lia).
  assert (Hself : agrees q (parentof y)) by (unfold agrees; rewrite Hv, !Hother by lia; done).
  assert (Hkeep : forall x, 0 <= x -> x <> parentof y -> (0 < parentof y -> x <> parentof (parentof y)) -> agrees p x -> agrees q x).
  { intros x Hx Hne1 Hne2 Ha. unfold agrees. destruct (Z.eq_dec (parentof y) 0) as [E0|E0].
    - rewrite !Hother by lia. exact Ha.
    - pose proof (parent_range (parentof y)) as [_ H4]; [lia|]. specialize (Hne2 ltac:(lia)). rewrite !Hother; [exact Ha|..]; try lia. }
  destruct (Z.gtb_spec (parentof y) 0) as [Hgt|Hle]; bind.
  - specialize (IH q (parentof y) Hq ltac:(lia) Hup). eapply returns_mono; [exact IH|]. intros r (Hr & Hsr & Hnr & Hok). split_and!; try done; [congruence..|].
    intros Hag. apply Hok. intros x Hx Hne'. destruct (Z.eq_dec x (parentof y)) as [->|]; [done|]. apply Hkeep; try done; [lia|by apply Hag].
  - simpl. split_and!; try done. intros Hag. split; [done|]. intros x Hx. destruct (Z.eq_dec x (parentof y)) as [->|]; [done|]. apply Hkeep; [lia|done|lia|by apply Hag].
Qed.

(** A slot is set and the others stay; the root is never below the new value, even where
    the page was torn; a page that was consistent stays so. *)
Definition slot_set (p : FSMPageData) (slot value : Z) (q : FSMPageData) : Prop :=
  fsm_page q /\ slots q = <[Z.to_nat slot := value]> (slots p) /\ fp_next_slot q = fp_next_slot p /\ value <= node q 0 /\ (fsm_ok p -> fsm_ok q).

Lemma set_avail_ok p slot value : fsm_page p -> 0 <= slot < SlotsPerFSMPage -> is_byte value ->
  returns (fsm_set_avail p slot value) (fun x => slot_set p slot value x.1).
Proof.
  intros Hp Hs Hb. unfold fsm_set_avail. cbv zeta. set (n := NonLeafNodesPerPage + slot). assert (Hn : 4095 <= n < NodesPerPage) by (unfold n; fsmc; lia).
  rewrite (rd_node p Hp n), (rd_node p Hp 0) by (fsmc; lia). bind. destruct (Z.eqb_spec (node p n) value) as [Heq|Hne]; destruct (Z.leb_spec value (node p 0)) as [Hle|Hgt]; cbn [andb].
  { simpl. split_and!; try done. assert (Hl : slots p !! Z.to_nat slot = Some value); [|by rewrite list_insert_id].
    destruct (lookup_lt_is_Some_2 (slots p) (Z.to_nat slot)) as [v Hv]; [unfold slots; rewrite length_drop; pose proof (fsm_size p Hp); unfold zlen in *; fsmc; lia|].
    pose proof (slots_node p slot) as E. rewrite Hv in *. simpl in E. rewrite E by lia. fold n. by rewrite Heq. }
  all: destruct (set_node_ok p Hp n value) as (q & -> & Hq & Hnext & Hnodes & Hv & Hother); [lia|done|]; bind;
    pose proof (slots_leaf p q slot value Hnodes ltac:(lia)) as Hsl;
    pose proof (propagate_ok 15 q n Hq ltac:(lia) ltac:(change (2 ^ Z.of_nat 16) with 65536; fsmc; lia)) as Hprop;
    destruct (iter 16 propagate_body (q, n)) as [r| | |]; try done; simpl in Hprop; bind; destruct Hprop as (Hr & Hsr & Hnr & Hok);
    assert (Hrok : fsm_ok p -> fsm_ok r) by (intros [_ Hag]; apply Hok; intros x Hx Hne'; unfold agrees; pose proof (parent_range n) as [_ ?]; [lia|]; rewrite !Hother by (fsmc; lia); by apply Hag);
    rewrite (rd_node r Hr 0) by (fsmc; lia); bind; destruct (Z.gtb_spec value (node r 0)) as [Hbig|Hsmall];
    [destruct (rebuild_page_ok r Hr) as (t & c & -> & Ht & Hst & Hnt); bind; simpl; split_and!; [apply Ht|congruence|congruence| |done]
    |simpl; split_and!; [done|congruence|congruence|lia|done]].
  all: pose proof (slots_node t slot ltac:(lia)) as E; rewrite Hst, Hsr, Hsl, list_lookup_insert_eq in E;
    [simpl in E; rewrite E; apply slot_below_root; [done|fsmc; lia]|unfold slots; rewrite length_drop; pose proof (fsm_size p Hp); unfold zlen in *; fsmc; lia].
Qed.

(** *** Searching *)

(** Positions on the level of the slots, of which the page has the first 4069.  A node is
    counted from one here: its children are 2y and 2y + 1, and with height h it is above
    the positions j with y 2^h <= 4096 + j < (y + 1) 2^h. *)
Definition leaf (p : FSMPageData) (j : Z) : Z := node p (4095 + j).
Abbreviation at_height h y := (4096 <= y * 2 ^ Z.of_nat h /\ (y + 1) * 2 ^ Z.of_nat h <= 8192).
Abbreviation above h y j := (y * 2 ^ Z.of_nat h <= 4096 + j < (y + 1) * 2 ^ Z.of_nat h).

Lemma pow_S n : 2 ^ Z.of_nat (S n) = 2 * 2 ^ Z.of_nat n.
Proof. rewrite Nat2Z.inj_succ, Z.pow_succ_r; lia. Qed.
Lemma pow_pos n : 0 < 2 ^ Z.of_nat n.
Proof. apply Z.pow_pos_nonneg; lia. Qed.

(** An inner node of a consistent page has room if and only if a slot below it has. *)
Lemma room_below p m : fsm_ok p -> forall h y, at_height h y -> (m <= node p (y - 1) <-> exists j, above h y j /\ m <= leaf p j).
Proof.
  intros Hp. induction h as [|h IH]; intros y Hy.
  - change (2 ^ Z.of_nat 0) with 1 in *. rewrite Z.mul_1_r in Hy. unfold leaf. split.
    + intros Hm. exists (y - 4096). split; [lia|]. by replace (4095 + (y - 4096)) with (y - 1) by lia.
    + intros (j & Hj & Hm). by replace (y - 1) with (4095 + j) by lia.
  - rewrite pow_S in *. pose proof (pow_pos h). assert (Hy0 : 1 <= y < 4096) by nia.
    assert (Hag : agrees p (y - 1)) by (apply Hp; fsmc; lia). unfold agrees in Hag. replace (2 * (y - 1) + 1) with (2 * y - 1) in Hag by lia. replace (2 * (y - 1) + 2) with (2 * y + 1 - 1) in Hag by lia.
    pose proof (IH (2 * y) ltac:(nia)) as I1. pose proof (IH (2 * y + 1) ltac:(nia)) as I2. split.
    + intros Hm. assert (m <= node p (2 * y - 1) \/ m <= node p (2 * y + 1 - 1)) as [H1|H1] by lia.
      * apply I1 in H1 as (j & Hj & Hl). exists j. split; [nia|done].
      * apply I2 in H1 as (j & Hj & Hl). exists j. split; [nia|done].
    + intros (j & Hj & Hl). destruct (Z.lt_ge_cases (4096 + j) ((2 * y + 1) * 2 ^ Z.of_nat h)).
      * assert (m <= node p (2 * y - 1)) by (apply I1; exists j; split; [nia|done]). lia.
      * assert (m <= node p (2 * y + 1 - 1)) by (apply I2; exists j; split; [nia|done]). lia.
Qed.

Lemma child_test p m c : fsm_page p -> 0 <= c -> 1 <= m -> (if c <? NodesPerPage then v ← rd (fp_nodes p) c; Ok (v >=? m) else Ok false) = Ok (m <=? node p c).
Proof.
  intros Hp Hc Hm. destruct (Z.ltb_spec c NodesPerPage).
  - rewrite (rd_node p Hp) by lia. bind. by rewrite Z.geb_leb.
  - rewrite (node_missing p Hp) by lia. f_equal. lia.
Qed.

(** The way down on any page: a slot with room, or the node is found wrong. *)
Lemma descend_safe p m n : fsm_page p -> 1 <= m -> forall x, 0 <= x -> m <= node p x -> 4096 <= (x + 1) * 2 ^ Z.of_nat n ->
  returns (iter (S n) (descend_body p m) x) (fun r => match r with None => True | Some i => NonLeafNodesPerPage <= i < NodesPerPage /\ m <= node p i end).
Proof.
  intros Hp Hm. induction n as [|n IH]; intros x Hx Hv Hh; rewrite iter_S; unfold descend_body; cbv zeta.
  all: destruct (Z.ltb_spec x NonLeafNodesPerPage) as [Hlt|Hge];
    [|bind; simpl; split; [|done]; split; [done|]; destruct (Z.lt_ge_cases x NodesPerPage); [done|]; rewrite (node_missing p Hp) in Hv by lia; lia].
  - change (2 ^ Z.of_nat 0) with 1 in Hh. fsmc. lia.
  - unfold leftchild. replace (2 * x + 1 + 1) with (2 * x + 2) by lia. rewrite !child_test by (done || lia). bind. rewrite pow_S in Hh.
    destruct (Z.leb_spec m (node p (2 * x + 1))); bind; [apply IH; [lia|done|nia]|].
    destruct (Z.leb_spec m (node p (2 * x + 2))); bind; [apply IH; [lia|done|nia]|done].
Qed.

(** The way down on a consistent page: the first slot with room below the node *)
Lemma descend_first p m : fsm_ok p -> 1 <= m -> forall h y, at_height h y -> m <= node p (y - 1) ->
  exists j, (forall k, (h < k)%nat -> iter k (descend_body p m) (y - 1) = Ok (Some (4095 + j))) /\ above h y j /\ m <= leaf p j /\ forall i, above h y i -> i < j -> leaf p i < m.
Proof.
  intros Hp Hm. pose proof (fsm_ok_page p Hp) as Hpage. induction h as [|h IH]; intros y Hy Hv.
  - change (2 ^ Z.of_nat 0) with 1 in *. exists (y - 4096). split_and!; [|lia..|unfold leaf; by replace (4095 + (y - 4096)) with (y - 1) by lia|lia].
    intros k Hk. destruct k as [|k]; [lia|]. rewrite iter_S. unfold descend_body. destruct (Z.ltb_spec (y - 1) NonLeafNodesPerPage); [fsmc; lia|]. bind. do 2 f_equal. lia.
  - rewrite pow_S in *. pose proof (pow_pos h). assert (Hy0 : 1 <= y < 4096) by nia.
    assert (Hag : agrees p (y - 1)) by (apply Hp; fsmc; lia). unfold agrees in Hag. replace (2 * (y - 1) + 1) with (2 * y - 1) in Hag by lia. replace (2 * (y - 1) + 2) with (2 * y + 1 - 1) in Hag by lia.
    assert (Hstep : descend_body p m (y - 1) = Ok (inl (if m <=? node p (2 * y - 1) then 2 * y - 1 else 2 * y + 1 - 1))).
    { unfold descend_body. cbv zeta. destruct (Z.ltb_spec (y - 1) NonLeafNodesPerPage); [|fsmc; lia]. unfold leftchild.
      replace (2 * (y - 1) + 1) with (2 * y - 1) by lia. replace (2 * y - 1 + 1) with (2 * y + 1 - 1) by lia. rewrite !child_test by (done || lia). bind.
      destruct (Z.leb_spec m (node p (2 * y - 1))); bind; [done|]. destruct (Z.leb_spec m (node p (2 * y + 1 - 1))); [done|lia]. }
    assert (Hbody : forall k, iter (S k) (descend_body p m) (y - 1) = iter k (descend_body p m) (if m <=? node p (2 * y - 1) then 2 * y - 1 else 2 * y + 1 - 1)) by (intros k; by rewrite iter_S, Hstep).
    clear Hstep.
    destruct (Z.leb_spec m (node p (2 * y - 1))) as [Hl|Hl].
    + destruct (IH (2 * y) ltac:(nia) Hl) as (j & Hj & Ha & Hlj & Hfirst). exists j. split_and!; try done; [|nia..|].
      * intros k Hk. destruct k as [|k]; [lia|]. rewrite Hbody. apply Hj. lia.
      * intros i Hi Hij. apply Hfirst; [nia|done].
    + destruct (IH (2 * y + 1) ltac:(nia) ltac:(lia)) as (j & Hj & Ha & Hlj & Hfirst). exists j. split_and!; try done; [|nia..|].
      * intros k Hk. destruct k as [|k]; [lia|]. rewrite Hbody. apply Hj. lia.
      * intros i Hi Hij. destruct (Z.lt_ge_cases (4096 + i) ((2 * y + 1) * 2 ^ Z.of_nat h)); [|apply Hfirst; [nia|done]].
        apply Z.nle_gt. intros Hc. assert (m <= node p (2 * y - 1)) by (apply (room_below p m Hp h (2 * y) ltac:(nia)); exists i; split; [nia|done]). lia.
Qed.

(** The test of rightneighbor: one of the numbers of a level and the next one have the highest
    bit in common unless the level ends there. *)
Lemma level_end k y : 2 ^ Z.of_nat k <= y < 2 ^ Z.of_nat (S k) -> (Z.land (y + 1) y =? 0) = (y + 1 =? 2 ^ Z.of_nat (S k)).
Proof.
  intros Hy. pose proof (pow_pos k). rewrite pow_S in *. destruct (Z.eqb_spec (y + 1) (2 * 2 ^ Z.of_nat k)) as [E|E].
  - rewrite E. apply Z.eqb_eq. rewrite <- pow_S in *. replace y with (Z.ones (Z.of_nat (S k))) by (rewrite Z.ones_equiv; lia). rewrite Z.land_ones by lia. apply Z_mod_same_full.
  - apply Z.eqb_neq. intros Hz. assert (Hb : forall z, 2 ^ Z.of_nat k <= z < 2 * 2 ^ Z.of_nat k -> Z.testbit z (Z.of_nat k) = true).
    { intros z Hz'. rewrite <- (Z.log2_unique z (Z.of_nat k)) by (try (rewrite Z.pow_succ_r); lia). apply Z.bit_log2. lia. }
    assert (Hbit : Z.testbit (Z.land (y + 1) y) (Z.of_nat k) = true) by (rewrite Z.land_spec, !Hb by lia; done). rewrite Hz, Z.testbit_0_l in Hbit. done.
Qed.

(** Move right, around the end of the level, and up *)
Lemma next_level k y : 2 ^ Z.of_nat (S k) <= y < 2 ^ Z.of_nat (S (S k)) ->
  parentof (rightneighbor (y - 1)) + 1 = (if y + 1 =? 2 ^ Z.of_nat (S (S k)) then 2 ^ Z.of_nat k else (y + 1) / 2) /\
  2 ^ Z.of_nat k <= parentof (rightneighbor (y - 1)) + 1 < 2 ^ Z.of_nat (S k).
Proof.
  intros Hy. pose proof (pow_pos k). unfold rightneighbor. cbv zeta. replace (y - 1 + 1) with y by lia. rewrite (level_end (S k) y Hy). rewrite !pow_S in *. unfold parentof.
  destruct (Z.eqb_spec (y + 1) (2 * (2 * 2 ^ Z.of_nat k))); Z.div_mod_to_equations; lia.
Qed.

(** The next positions, or the beginning of the level *)
Lemma climb_next h y : at_height h y -> 2 <= y ->
  let y' := parentof (rightneighbor (y - 1)) + 1 in
  at_height (S h) y' /\ (h < 12)%nat /\ (y * 2 ^ Z.of_nat h = 4096 -> y' * 2 ^ Z.of_nat (S h) = 4096) /\
  (if (y + 1) * 2 ^ Z.of_nat h =? 8192 then y' * 2 ^ Z.of_nat (S h) = 4096
   else y' * 2 ^ Z.of_nat (S h) = y * 2 ^ Z.of_nat h \/ y' * 2 ^ Z.of_nat (S h) = (y + 1) * 2 ^ Z.of_nat h).
Proof.
  intros [Hy1 Hy2] H2 y'. pose proof (pow_pos h). assert (Hh : (h < 12)%nat).
  { destruct (Nat.lt_ge_cases h 12) as [|Hge]; [done|]. assert (2 ^ Z.of_nat 12 <= 2 ^ Z.of_nat h) by (apply Z.pow_le_mono_r; lia). change (2 ^ Z.of_nat 12) with 4096 in *. nia. }
  set (k := (11 - h)%nat). assert (HW : 2 ^ Z.of_nat k * 2 ^ Z.of_nat h = 2048) by (rewrite <- Z.pow_add_r by lia; unfold k; replace (Z.of_nat (11 - h) + Z.of_nat h) with 11 by lia; done).
  pose proof (pow_pos k). destruct (next_level k y) as [He Hr]; [rewrite !pow_S; nia|]. fold y' in He, Hr. clearbody y'. rewrite !pow_S in *.
  set (W := 2 ^ Z.of_nat h) in *. set (B := 2 ^ Z.of_nat k) in *. clearbody W B k.
  destruct (Z.eqb_spec (y + 1) (2 * (2 * B))) as [E|E].
  - replace ((y + 1) * W) with 8192 by nia. change (8192 =? 8192) with true. subst y'. split_and!; nia.
  - destruct (Z.eqb_spec ((y + 1) * W) 8192) as [E'|E']; [nia|]. split_and!; try nia; try done.
    all: assert (y = 2 * y' \/ y + 1 = 2 * y') as [Hc|Hc] by (Z.div_mod_to_equations; lia); nia.
Qed.

(** Up and never down: at most twelve levels *)
Lemma climb_bounds x : 0 < x -> 0 <= parentof (rightneighbor x) < x /\ Z.log2 (parentof (rightneighbor x) + 1) < Z.log2 (x + 1).
Proof.
  intros Hx. pose proof (Z.log2_spec (x + 1) ltac:(lia)) as Hl. assert (H1 : 1 <= Z.log2 (x + 1)) by (apply (Z.log2_le_pow2 _ 1); [lia|simpl; lia]).
  set (k := Z.to_nat (Z.log2 (x + 1) - 1)). replace (Z.log2 (x + 1)) with (Z.of_nat (S k)) in Hl by lia. rewrite <- Nat2Z.inj_succ in Hl.
  destruct (next_level k (x + 1) Hl) as [_ Hr]. replace (x + 1 - 1) with x in Hr by lia. pose proof (pow_pos k). rewrite !pow_S in *. split; [lia|].
  rewrite (Z.log2_unique (parentof (rightneighbor x) + 1) (Z.of_nat k)) by (try (rewrite Z.pow_succ_r); lia). lia.
Qed.

Lemma climb_safe p m x : fsm_page p -> m <= node p 0 -> 0 <= x < NodesPerPage ->
  returns (iter 16 (climb_body p m) x) (fun i => 0 <= i < NodesPerPage /\ m <= node p i).
Proof.
  intros Hp H0 Hx. apply (iter_returns (fun x => 0 <= x < NodesPerPage) (fun x => Z.to_nat (Z.log2 (x + 1)))); [|done|].
  - intros i Hi. unfold climb_body. destruct (Z.gtb_spec i 0); [|simpl; split; [done|]; by replace i with 0 by lia].
    rewrite (rd_node p Hp) by lia. bind. rewrite Z.geb_leb. destruct (Z.leb_spec m (node p i)); simpl; [done|].
    destruct (climb_bounds i) as [Hb1 Hb2]; [lia|]. split; [lia|]. pose proof (Z.log2_nonneg (parentof (rightneighbor i) + 1)). lia.
  - assert (Z.log2 (x + 1) < 14) by (apply Z.log2_lt_pow2; [lia|change (2 ^ 14) with 16384; fsmc; lia]). lia.
Qed.

(** The positions from [t] on, around the end, up to those below the node are full. *)
Definition passed (p : FSMPageData) (m t : Z) (h : nat) (y : Z) : Prop :=
  let s := y * 2 ^ Z.of_nat h - 4096 in
  at_height h y /\ ((t <= s /\ forall j, t <= j < s -> leaf p j < m) \/ (s = 0 /\ forall j, t <= j < 4096 -> leaf p j < m)).

Lemma climb_first p m t : fsm_ok p -> m <= node p 0 -> forall n h y, (12 <= n + h)%nat -> y - 1 < NodesPerPage -> passed p m t h y ->
  exists h' y', iter (S n) (climb_body p m) (y - 1) = Ok (y' - 1) /\ passed p m t h' y' /\ m <= node p (y' - 1) /\ (h' <= 12)%nat.
Proof.
  intros Hp H0. pose proof (fsm_ok_page p Hp) as Hpage. induction n as [|n IH]; intros h y Hn Hin Hpass; pose proof Hpass as [[Hy1 Hy2] Hbad]; pose proof (pow_pos h) as Hpow; rewrite iter_S.
  all: assert (Hy : 1 <= y <= 8191) by nia; destruct (Z.eq_dec y 1) as [->|Hy2'].
  1,3: change (climb_body p m (1 - 1)) with (Ok (inr 0) : res (Z + Z)); bind; exists h, 1; split_and!; try done;
    destruct (Nat.lt_ge_cases 12 h) as [Hb|]; [|done]; assert (2 ^ Z.of_nat 13 <= 2 ^ Z.of_nat h) by (apply Z.pow_le_mono_r; lia); change (2 ^ Z.of_nat 13) with 8192 in *; lia.
  all: destruct (climb_next h y (conj Hy1 Hy2) ltac:(lia)) as (Hat & Hh & Hzero & Hnext).
  1: lia.
  assert (Hbody : climb_body p m (y - 1) = if m <=? node p (y - 1) then Ok (inr (y - 1)) else Ok (inl (parentof (rightneighbor (y - 1))))).
  { unfold climb_body. destruct (Z.gtb_spec (y - 1) 0); [|lia]. rewrite (rd_node p Hpage) by lia. bind. by rewrite Z.geb_leb. }
  rewrite Hbody. destruct (Z.leb_spec m (node p (y - 1))) as [Hm|Hm]; bind; [exists h, y; split_and!; (done || lia)|].
  assert (Hfull : forall j, above h y j -> leaf p j < m).
  { intros j Hj. apply Z.nle_gt. intros Hc. assert (m <= node p (y - 1)); [|lia]. apply (room_below p m Hp h y (conj Hy1 Hy2)). by exists j. }
  replace (parentof (rightneighbor (y - 1))) with (parentof (rightneighbor (y - 1)) + 1 - 1) by lia. set (y' := parentof (rightneighbor (y - 1)) + 1) in *.
  apply (IH (S h)); [lia| |].
  { destruct (climb_bounds (y - 1)); [lia|]. unfold y'. lia. }
  split; [done|]. destruct (Z.eqb_spec ((y + 1) * 2 ^ Z.of_nat h) 8192) as [Hw|Hw].
  - right. split; [lia|]. intros j Hj. destruct Hbad as [[Hts Hbad]|[Hs Hbad]]; [|by apply Hbad]. destruct (Z.lt_ge_cases j (y * 2 ^ Z.of_nat h - 4096)); [apply Hbad; lia|apply Hfull; lia].
  - destruct Hnext as [Hsame|Hnew].
    + destruct Hbad as [[Hts Hbad]|[Hs Hbad]]; [left|right]; (split; [lia|]); intros j Hj; apply Hbad; lia.
    + destruct Hbad as [[Hts Hbad]|[Hs Hbad]].
      * left. split; [lia|]. intros j Hj. destruct (Z.lt_ge_cases j (y * 2 ^ Z.of_nat h - 4096)); [apply Hbad; lia|apply Hfull; lia].
      * right. split; [lia|done].
Qed.

(** ** The reference: the first slot with room, from the start on and around the end *)
Definition first_fit (l : list Z) (start : nat) (m : Z) : Z :=
  match list_find (fun i => m <= default 0 (l !! i)) (seq start (length l - start) ++ seq 0 start) with
  | Some (_, i) => Z.of_nat i
  | None => -1
  end.

Lemma first_fit_none l t m : 0 < m -> (forall i : nat, default 0 (l !! i) < m) -> first_fit l t m = -1.
Proof.
  intros Hm Hall. unfold first_fit. destruct (list_find _ _) as [[i x]|] eqn:E; [|done]. apply list_find_Some in E as (_ & Hx & _). specialize (Hall x). lia.
Qed.
Lemma first_fit_found l (t j : nat) m :
  (t < length l)%nat -> (j < length l)%nat -> m <= default 0 (l !! j) ->
  (forall i : nat, (if (t <=? j)%nat then t <= i < j else t <= i < length l \/ i < j)%nat -> default 0 (l !! i) < m) ->
  first_fit l t m = Z.of_nat j.
Proof.
  intros Ht Hj Hm Hfirst. unfold first_fit. set (k := if (t <=? j)%nat then (j - t)%nat else (length l - t + j)%nat).
  assert (E : list_find (fun i => m <= default 0 (l !! i)) (seq t (length l - t) ++ seq 0 t) = Some (k, j)); [|by rewrite E].
  apply list_find_Some. split; [|split; [done|]].
  - unfold k. destruct (Nat.leb_spec t j); [rewrite lookup_app_l by (rewrite length_seq; lia); apply lookup_seq; lia|].
    rewrite lookup_app_r by (rewrite length_seq; lia). rewrite length_seq. apply lookup_seq. lia.
  - intros i x Hx Hi. enough (default 0 (l !! x) < m) by lia. apply Hfirst. unfold k in Hi.
    apply lookup_app_Some in Hx as [Hx|[Hl Hx]]; apply lookup_seq in Hx as [-> Hx]; rewrite ?length_seq in *; destruct (Nat.leb_spec t j); lia.
Qed.

(** Where the search of a page starts *)
Definition hint (p : FSMPageData) : Z := if (fp_next_slot p <? 0) || (fp_next_slot p >=? LeafNodesPerPage) then 0 else fp_next_slot p.

Lemma hint_range p : 0 <= hint p < 4069.
Proof. unfold hint. fsmc. destruct (_ || _) eqn:E; lia. Qed.
Lemma fsm_slots_length p : fsm_page p -> length (slots p) = 4069%nat.
Proof. intros Hp. pose proof (fsm_size p Hp). unfold slots. rewrite length_drop. unfold zlen in *. fsmc. lia. Qed.
Lemma leaf_slot p (i : nat) : leaf p (Z.of_nat i) = default 0 (slots p !! i).
Proof. unfold leaf. rewrite <- (Nat2Z.id i) at 2. rewrite slots_node by lia. done. Qed.
Lemma leaf_missing p j : fsm_page p -> 4069 <= j -> leaf p j = 0.
Proof. intros Hp Hj. apply (node_missing p Hp). fsmc. lia. Qed.

Lemma search_page_ok p m : fsm_ok p -> 1 <= m -> search_page p m = Ok (Some (first_fit (slots p) (Z.to_nat (hint p)) m)).
Proof.
  intros Hp Hm. pose proof (fsm_ok_page p Hp) as Hpage. pose proof (hint_range p) as Hh. unfold search_page. rewrite (rd_node p Hpage 0) by (fsmc; lia). bind.
  destruct (Z.ltb_spec (node p 0) m) as [Hlt|Hge].
  { f_equal. f_equal. symmetry. apply first_fit_none; [lia|]. intros i. rewrite <- leaf_slot. destruct (Z.lt_ge_cases (Z.of_nat i) 4069); [|rewrite leaf_missing by done; lia].
    pose proof (slot_below_root p (4095 + Z.of_nat i) Hp ltac:(lia)). unfold leaf. lia. }
  fold (hint p). replace (hint p + NonLeafNodesPerPage) with (4096 + hint p - 1) by (fsmc; lia).
  destruct (climb_first p m (hint p) Hp Hge 15 0 (4096 + hint p)) as (h & y & -> & [Hat Hpass] & Hv & Hh12); [lia|fsmc; lia| |].
  { change (2 ^ Z.of_nat 0) with 1. split; [lia|]. left. split; [lia|]. intros j Hj. lia. }
  bind. destruct (descend_first p m Hp Hm h y Hat Hv) as (j & Hj & Ha & Hl & Hfirst). rewrite Hj by lia. bind.
  assert (Hj0 : 0 <= j < 4069) by (destruct (Z.lt_ge_cases j 4069); [lia|rewrite leaf_missing in Hl by done; lia]). do 2 f_equal. fsmc.
  replace (4095 + j - 4095) with (Z.of_nat (Z.to_nat j)) by lia. symmetry. apply first_fit_found; rewrite ?fsm_slots_length by done; [lia|lia|rewrite <- leaf_slot; by replace (Z.of_nat (Z.to_nat j)) with j by lia|].
  intros i Hi. rewrite <- leaf_slot. destruct (Nat.leb_spec (Z.to_nat (hint p)) (Z.to_nat j)) as [Hle|Hgt].
  - destruct Hpass as [[Hts Hbad]|[Hs Hbad]]; [|apply Hbad; lia]. destruct (Z.lt_ge_cases (Z.of_nat i) (y * 2 ^ Z.of_nat h - 4096)); [apply Hbad; lia|apply Hfirst; lia].
  - destruct Hpass as [[Hts Hbad]|[Hs Hbad]]; [lia|]. destruct Hi as [Hi|Hi]; [apply Hbad; lia|apply Hfirst; lia].
Qed.

Lemma search_page_safe p m : fsm_page p -> 1 <= m -> returns (search_page p m) (fun r => match r with
  | None => True
  | Some s => if s =? -1 then node p 0 < m else 0 <= s < SlotsPerFSMPage /\ m <= default 0 (slots p !! Z.to_nat s)
  end).
Proof.
  intros Hp Hm. pose proof (hint_range p) as Hh. unfold search_page. rewrite (rd_node p Hp 0) by (fsmc; lia). bind. destruct (Z.ltb_spec (node p 0) m) as [Hlt|Hge]; [done|].
  fold (hint p). eapply returns_bind; [apply climb_safe; [done|lia|fsmc; lia]|]. intros x [Hx Hv]. cbv beta.
  eapply returns_bind; [apply descend_safe; [done|done|lia|done|change (2 ^ Z.of_nat 15) with 32768; lia]|]. intros [i|] Hi; simpl; [|done].
  destruct Hi as [Hi Hiv]. destruct (Z.eqb_spec (i - NonLeafNodesPerPage) (-1)); [lia|]. split; [fsmc; lia|]. rewrite slots_node by lia. by replace (NonLeafNodesPerPage + (i - NonLeafNodesPerPage)) with i by lia.
Qed.

(** The slot found, and the page with the hint moved *)
Definition searched (p : FSMPageData) (m : Z) (advancenext : bool) : Z * FSMPageData :=
  let s := first_fit (slots p) (Z.to_nat (hint p)) m in
  (s, if s =? -1 then p else {| fp_next_slot := s + (if advancenext then 1 else 0); fp_nodes := fp_nodes p |}).

Lemma search_avail_ok p m adv : fsm_ok p -> 1 <= m -> fsm_search_avail p m adv = Ok (searched p m adv).
Proof.
  intros Hp Hm. unfold fsm_search_avail. cbn [search_restart]. rewrite search_page_ok by done. bind. unfold searched. by destruct (Z.eqb_spec (first_fit (slots p) (Z.to_nat (hint p)) m) (-1)) as [->|].
Qed.

(** The hint is no part of the tree. *)
Lemma next_page p n : fsm_page p -> fsm_page {| fp_next_slot := n; fp_nodes := fp_nodes p |}.
Proof. by intros []; split. Qed.
Lemma hint_moved_ok p n : fsm_ok p -> fsm_ok {| fp_next_slot := n; fp_nodes := fp_nodes p |}.
Proof. intros [Hp Hag]. split; [by apply next_page|exact Hag]. Qed.

(** On a page that may be torn: a slot found has room and the slots stay as they are. *)
Definition search_result (p : FSMPageData) (m : Z) (x : Z * FSMPageData) : Prop :=
  fsm_page x.2 /\ slots x.2 = slots p /\ (fsm_ok p -> fsm_ok x.2) /\
  if x.1 =? -1 then node x.2 0 < m else 0 <= x.1 < SlotsPerFSMPage /\ m <= default 0 (slots p !! Z.to_nat x.1).

Lemma search_avail_safe p m adv : fsm_page p -> 1 <= m -> returns (fsm_search_avail p m adv) (search_result p m).
Proof.
  intros Hp Hm. unfold fsm_search_avail. cbn [search_restart]. eapply returns_bind; [by apply search_page_safe|]. intros [s|] Hs.
  - unfold search_result. destruct (s =? -1) eqn:Es; simpl; rewrite ?Es; [done|]. split; [by apply next_page|]. split; [done|]. split; [by apply hint_moved_ok|exact Hs].
  - destruct (rebuild_page_ok p Hp) as (q & c & -> & Hq & Hsq & _). bind. cbn [fst]. pose proof (search_page_safe q m (fsm_ok_page q Hq) Hm) as Hsafe.
    rewrite (search_page_ok q m Hq Hm) in *. bind. simpl in Hsafe. generalize dependent (first_fit (slots q) (Z.to_nat (hint q)) m). intros s Hsafe. unfold search_result. rewrite Hsq in Hsafe.
    destruct (s =? -1) eqn:Es; simpl; rewrite ?Es; [split; [apply Hq|done]|]. split; [apply next_page, Hq|]. split; [done|]. split; [intros _; by apply hint_moved_ok|exact Hsafe].
Qed.

(** *** Truncating *)

Lemma existsb_zeros l : existsb (fun v => negb (v =? 0)) l = false -> l = zrep (zlen l) 0.
Proof.
  induction l as [|v l IH]; [done|]. cbn [existsb]. intros [Hv Hl]%orb_false_elim. unfold zrep, zlen in *. rewrite Nat2Z.id in *. cbn [length replicate].
  rewrite <- IH by done. f_equal. lia.
Qed.

Lemma truncate_ok p n : fsm_page p -> 0 <= n < SlotsPerFSMPage ->
  returns (fsm_truncate_avail p n) (fun x => fsm_page x.1 /\ (fsm_ok p -> fsm_ok x.1) /\ slots x.1 = take (Z.to_nat n) (slots p) ++ zrep (SlotsPerFSMPage - n) 0).
Proof.
  intros Hp Hn. pose proof (fsm_size p Hp) as Hz. unfold fsm_truncate_avail. cbv zeta. set (ptr := NonLeafNodesPerPage + n). set (k := Z.to_nat ptr).
  assert (Hk : (k <= length (fp_nodes p))%nat) by (unfold k, ptr, zlen in *; fsmc; lia). assert (Hlt : zlen (take k (fp_nodes p)) = ptr) by (unfold zlen; rewrite length_take; unfold k, ptr in *; fsmc; lia).
  assert (Hld : zlen (drop k (fp_nodes p)) = NodesPerPage - ptr) by (unfold zlen in *; rewrite length_drop; unfold k, ptr in *; fsmc; lia).
  assert (Hr : rdn (fp_nodes p) ptr (NodesPerPage - ptr) = Ok (drop k (fp_nodes p))).
  { rewrite <- (take_drop k (fp_nodes p)) at 1. rewrite <- (app_nil_r (drop k (fp_nodes p))) at 1. by apply rdn_middle. }
  assert (Hzr : zlen (zrep (NodesPerPage - ptr) 0) = NodesPerPage - ptr) by zl.
  assert (Hw : wr (fp_nodes p) ptr (zrep (NodesPerPage - ptr) 0) = Ok (take k (fp_nodes p) ++ zrep (NodesPerPage - ptr) 0)).
  { rewrite <- (take_drop k (fp_nodes p)) at 1. rewrite <- Hlt at 1. rewrite wr_append by lia. f_equal. rewrite drop_ge; [by rewrite app_nil_r|]. unfold zlen in *. lia. }
  rewrite Hr. bind. rewrite Hw. bind. set (q := {| fp_next_slot := _ |}).
  assert (Hq : fsm_page q).
  { split; cbn [q fp_nodes]; [rewrite zlen_app; lia|]. apply Forall_app. split; [apply Forall_take, Hp|]. by apply Forall_replicate. }
  assert (Hs : slots q = take (Z.to_nat n) (slots p) ++ zrep (SlotsPerFSMPage - n) 0).
  { unfold slots. cbn [q fp_nodes]. rewrite drop_app_le by (rewrite length_take; unfold k, ptr in *; fsmc; lia). rewrite skipn_firstn_comm.
    f_equal; [f_equal; unfold k, ptr; fsmc; lia|]. f_equal. unfold ptr. fsmc. lia. }
  destruct (existsb _ _) eqn:E.
  - destruct (rebuild_page_ok q Hq) as (r & c & -> & Hr' & Hsr & _). bind. simpl. split; [apply Hr'|]. split; [done|congruence].
  - simpl. split; [done|]. split; [|done]. intros Hok. apply existsb_zeros in E. rewrite Hld in E. assert (Hqp : q = p); [|by rewrite Hqp].
    unfold q. rewrite <- E, take_drop. by destruct p.
Qed.

(** ** Properties *)

(** The tree of a page of the free space map.  On every page, torn or not, setting a slot
    changes that slot only and leaves the root at least as great as the new value, rebuilding
    makes each inner node the greatest of its children without changing a slot, and truncating
    clears the slots from a number on; each keeps a consistent tree consistent. *)
Theorem fsm_page_updates p slot value n :
  fsm_page p -> 0 <= slot < SlotsPerFSMPage -> is_byte value -> 0 <= n < SlotsPerFSMPage ->
  returns (fsm_set_avail p slot value) (fun x => slot_set p slot value x.1) /\
  returns (fsm_rebuild_page p) (fun x => fsm_ok x.1 /\ slots x.1 = slots p) /\
  returns (fsm_truncate_avail p n) (fun x => (fsm_ok p -> fsm_ok x.1) /\ slots x.1 = take (Z.to_nat n) (slots p) ++ zrep (SlotsPerFSMPage - n) 0).
Proof.
  intros Hp Hs Hv Hn. split; [by apply set_avail_ok|]. split.
  - destruct (rebuild_page_ok p Hp) as (q & c & -> & Hq & Hsq & _). done.
  - eapply returns_mono; [by apply truncate_ok|]. by intros x (_ & ? & ?).
Qed.

(** C28: fsm_search_avail, which climbs to the right and up and then down through the tree,
    returns what a search slot by slot would: the first slot with room from the hint on,
    around the end of the page, or -1.  On a torn page it ends as well, after repairing the
    page at most once, and a slot it returns has room. *)
Theorem fsm_search_first_fit p minvalue advancenext :
  fsm_page p -> 1 <= minvalue ->
  returns (fsm_search_avail p minvalue advancenext) (search_result p minvalue) /\
  (fsm_ok p ->
   let s := first_fit (slots p) (Z.to_nat (hint p)) minvalue in
   exists q, fsm_search_avail p minvalue advancenext = Ok (s, q) /\ fp_nodes q = fp_nodes p /\
     fp_next_slot q = if s =? -1 then fp_next_slot p else s + (if advancenext then 1 else 0)).
Proof.
  intros Hp Hm. split; [by apply search_avail_safe|]. intros Hok s. rewrite search_avail_ok by done. unfold searched. fold s. eexists. split; [done|]. by destruct (s =? -1).
Qed.

(** A torn page, whose root promises room that no slot has, and one where the last slot has room *)
Definition torn_page : FSMPageData := {| fp_next_slot := 5000; fp_nodes := 7 :: zrep 8163 0 |}.
Lemma torn_page_ok : fsm_page torn_page.
Proof. split; [vm_compute; reflexivity|apply bytesb_spec; vm_compute; reflexivity]. Qed.

Lemma fsm_page_updates_witness : returns (fsm_set_avail torn_page 4068 3) (fun x => slot_set torn_page 4068 3 x.1).
Proof.
  refine (proj1 (fsm_page_updates torn_page 4068 3 0 torn_page_ok _ _ _)); vm_compute; split; (reflexivity || discriminate).
Defined.

Lemma fsm_search_first_fit_witness : returns (fsm_search_avail torn_page 5 true) (search_result torn_page 5).
Proof. refine (proj1 (fsm_search_first_fit torn_page 5 true torn_page_ok _)). vm_compute. discriminate. Defined.
