(* ===== verification/Fsm.v ===== *)
(** The free space map of a relation: src/backend/storage/freespace/freespace.c.

    The map is a tree of three levels of pages in a file of its own, in depth-first order.
    A relation stands here for that file, the list of its pages, and [InvalidBuffer] is None.
    A page that is read after the end of the file is created empty where the caller asks for
    it.  Locks, and the order in which the pages get to disk, are not modelled. *)

From S2P Require Import Prelude FsmPage.

Definition MaxHeapTupleSize : Z := 8192 - 32.
Definition FSM_CAT_STEP : Z := 8192 / 256.
Definition MaxFSMRequestSize : Z := MaxHeapTupleSize.
Definition FSM_TREE_DEPTH : Z := if SlotsPerFSMPage >=? 1626 then 3 else 4.
Definition FSM_ROOT_LEVEL : Z := FSM_TREE_DEPTH - 1.
Definition FSM_BOTTOM_LEVEL : Z := 0.
Definition InvalidBlockNumber : Z := 0xFFFFFFFF.

Record FSMAddress := {
  level : Z;
  logpageno : Z
}.
Definition FSM_ROOT_ADDRESS : FSMAddress := {| level := FSM_ROOT_LEVEL; logpageno := 0 |}.

(** ** Categories *)

Definition fsm_space_avail_to_cat (avail : Z) : Z :=
  if avail >=? MaxFSMRequestSize then 255 else
  let cat := avail / FSM_CAT_STEP in
  if cat >? 254 then 254 else cat.
Definition fsm_space_cat_to_avail (cat : Z) : Z := if cat =? 255 then MaxFSMRequestSize else cat * FSM_CAT_STEP.
Definition fsm_space_needed_to_cat (needed : Z) : res Z :=
  if needed >? MaxFSMRequestSize then Ereport ERRCODE_INTERNAL_ERROR else
  if needed =? 0 then Ok 1 else
  let cat := (needed + FSM_CAT_STEP - 1) / FSM_CAT_STEP in
  Ok (if cat >? 255 then 255 else cat).

(** ** Addresses *)

(** leafno is an int and SlotsPerFSMPage a size_t; pages is 32 bits wide and unsigned. *)
Definition mul_slots (leafno : Z) : Z := int32_of (leafno * SlotsPerFSMPage).
Fixpoint count_pages (l : nat) (leafno pages : Z) : Z :=
  match l with
  | O => pages
  | S l => count_pages l (int32_of ((leafno mod 2 ^ 64) / SlotsPerFSMPage)) (wrap32 (pages + wrap32 (leafno + 1)))
  end.
Definition fsm_logical_to_physical (addr : FSMAddress) : Z :=
  let leafno := Nat.iter (Z.to_nat (level addr)) mul_slots (logpageno addr) in
  let pages := count_pages (Z.to_nat FSM_TREE_DEPTH) leafno 0 in
  let pages := wrap32 (pages - level addr) in
  wrap32 (pages - 1).

Definition fsm_get_location (heapblk : Z) : FSMAddress * Z :=
  ({| level := FSM_BOTTOM_LEVEL; logpageno := heapblk / SlotsPerFSMPage |}, heapblk mod SlotsPerFSMPage).
Definition fsm_get_heap_blk (addr : FSMAddress) (slot : Z) : Z :=
  wrap32 (wrap32 (logpageno addr) * SlotsPerFSMPage + slot).
Definition fsm_get_parent (child : FSMAddress) : FSMAddress * Z :=
  ({| level := level child + 1; logpageno := logpageno child / SlotsPerFSMPage |}, logpageno child mod SlotsPerFSMPage).
Definition fsm_get_child (parent : FSMAddress) (slot : Z) : FSMAddress :=
  {| level := level parent - 1; logpageno := int32_of (logpageno parent * SlotsPerFSMPage + slot) |}.

(** ** Pages *)

Definition empty_page : FSMPageData := {| fp_next_slot := 0; fp_nodes := zrep NodesPerPage 0 |}.
Definition fsm_extend (rel : list FSMPageData) (fsm_nblocks : Z) : list FSMPageData :=
  rel ++ replicate (Z.to_nat fsm_nblocks - length rel) empty_page.
(** The block of the page that is read, and the relation, which may have been extended *)
Definition fsm_readbuf (rel : list FSMPageData) (addr : FSMAddress) (extend : bool) : option Z * list FSMPageData :=
  let blkno := fsm_logical_to_physical addr in
  if blkno >=? zlen rel then if extend then (Some blkno, fsm_extend rel (blkno + 1)) else (None, rel)
  else (Some blkno, rel).
Definition BufferGetPage (rel : list FSMPageData) (buf : Z) : res FSMPageData :=
  match rel !! Z.to_nat buf with Some p => Ok p | None => Ub end.
Definition with_page (rel : list FSMPageData) (buf : Z) (p : FSMPageData) : list FSMPageData := <[Z.to_nat buf := p]> rel.

Definition fsm_set_and_search (rel : list FSMPageData) (addr : FSMAddress) (slot newValue minValue : Z) : res (Z * list FSMPageData) :=
  let '(buf, rel) := fsm_readbuf rel addr true in
  match buf with
  | None => Ub
  | Some buf =>
      page ← BufferGetPage rel buf;
      x ← fsm_set_avail page slot newValue;
      let page := x.1 in
      if negb (minValue =? 0) then
        r ← fsm_search_avail page minValue (level addr =? FSM_BOTTOM_LEVEL);
        Ok (r.1, with_page rel buf r.2)
      else Ok (-1, with_page rel buf page)
  end.

(** One round of for (;;): the page is searched *)
Definition search_level (rel : list FSMPageData) (addr : FSMAddress) (min_cat : Z) : res (Z * Z * list FSMPageData) :=
  match fsm_readbuf rel addr false with
  | (Some buf, rel) =>
      page ← BufferGetPage rel buf;
      r ← fsm_search_avail page min_cat (level addr =? FSM_BOTTOM_LEVEL);
      let '(slot, page) := r in
      max_avail ← (if slot =? -1 then fsm_get_max_avail page else Ok 0);
      Ok (slot, max_avail, with_page rel buf page)
  | (None, rel) => Ok (-1, 0, rel)
  end.
Definition fsm_search_body (min_cat : Z) (x : list FSMPageData * FSMAddress * Z) : res (list FSMPageData * FSMAddress * Z + Z * list FSMPageData) :=
  let '(rel, addr, restarts) := x in
  y ← search_level rel addr min_cat;
  let '(slot, max_avail, rel) := y in
  if negb (slot =? -1) then
    if level addr =? FSM_BOTTOM_LEVEL then Ok (inr (fsm_get_heap_blk addr slot, rel))
    else Ok (inl (rel, fsm_get_child addr slot, restarts))
  else if level addr =? FSM_ROOT_LEVEL then Ok (inr (InvalidBlockNumber, rel))
  else
    let '(parent, parentslot) := fsm_get_parent addr in
    r ← fsm_set_and_search rel parent parentslot max_avail 0;
    if restarts >? 10000 then Ok (inr (InvalidBlockNumber, r.2))
    else Ok (inl (r.2, FSM_ROOT_ADDRESS, restarts + 1)).
(** Three levels for each of at most 10002 starts *)
Definition fsm_search (rel : list FSMPageData) (min_cat : Z) : res (Z * list FSMPageData) :=
  iter (Z.to_nat 30010) (fsm_search_body min_cat) (rel, FSM_ROOT_ADDRESS, 0).

(** The slots start_slot .. end_slot of a page above the bottom level *)
Definition slot_range (addr : FSMAddress) (start end_ : Z) : list Z :=
  let up := Nat.iter (Z.to_nat (level addr)) (fun x : FSMAddress * Z => fsm_get_parent x.1) in
  let '(fsm_start, fsm_start_slot) := up (fsm_get_location start) in
  let '(fsm_end, fsm_end_slot) := up (fsm_get_location (wrap32 (end_ - 1))) in
  let start_slot := if logpageno fsm_start =? logpageno addr then fsm_start_slot
                    else if logpageno fsm_start >? logpageno addr then SlotsPerFSMPage else 0 in
  let end_slot := if logpageno fsm_end =? logpageno addr then fsm_end_slot
                  else if logpageno fsm_end >? logpageno addr then SlotsPerFSMPage - 1 else -1 in
  map (fun i => start_slot + i) (zrange (end_slot + 1 - start_slot)).

(** The loop over the slots; [vacuum] is the call for a child, with eof_p. *)
Fixpoint vacuum_slots (vacuum : list FSMPageData -> FSMAddress -> res (Z * bool * list FSMPageData))
  (addr : FSMAddress) (buf : Z) (slots : list Z) (eof : bool) (rel : list FSMPageData) : res (list FSMPageData) :=
  match slots with
  | [] => Ok rel
  | slot :: slots =>
      x ← (if eof then Ok (0, eof, rel) else vacuum rel (fsm_get_child addr slot));
      let '(child_avail, eof, rel) := x in
      page ← BufferGetPage rel buf;
      old ← fsm_get_avail page slot;
      rel ← (if negb (old =? child_avail) then x ← fsm_set_avail page slot child_avail; Ok (with_page rel buf x.1) else Ok rel);
      vacuum_slots vacuum addr buf slots eof rel
  end.
(** [depth] is the level of the page: the recursion ends at the bottom. *)
Fixpoint fsm_vacuum_page (depth : nat) (start end_ : Z) (rel : list FSMPageData) (addr : FSMAddress) : res (Z * bool * list FSMPageData) :=
  match fsm_readbuf rel addr false with
  | (None, rel) => Ok (0, true, rel)
  | (Some buf, rel) =>
      rel ← match depth with
            | O => Ok rel
            | S depth => vacuum_slots (fsm_vacuum_page depth start end_) addr buf (slot_range addr start end_) false rel
            end;
      page ← BufferGetPage rel buf;
      max_avail ← fsm_get_max_avail page;
      Ok (max_avail, false, with_page rel buf {| fp_next_slot := 0; fp_nodes := fp_nodes page |})
  end.

(** ** The interface *)

Definition GetPageWithFreeSpace (rel : list FSMPageData) (spaceNeeded : Z) : res (Z * list FSMPageData) :=
  min_cat ← fsm_space_needed_to_cat spaceNeeded; fsm_search rel min_cat.
Definition RecordAndGetPageWithFreeSpace (rel : list FSMPageData) (oldPage oldSpaceAvail spaceNeeded : Z) : res (Z * list FSMPageData) :=
  let old_cat := fsm_space_avail_to_cat oldSpaceAvail in
  search_cat ← fsm_space_needed_to_cat spaceNeeded;
  let '(addr, slot) := fsm_get_location oldPage in
  x ← fsm_set_and_search rel addr slot old_cat search_cat;
  let '(search_slot, rel) := x in
  if negb (search_slot =? -1) then Ok (fsm_get_heap_blk addr search_slot, rel) else fsm_search rel search_cat.
Definition RecordPageWithFreeSpace (rel : list FSMPageData) (heapBlk spaceAvail : Z) : res (list FSMPageData) :=
  let new_cat := fsm_space_avail_to_cat spaceAvail in
  let '(addr, slot) := fsm_get_location heapBlk in
  x ← fsm_set_and_search rel addr slot new_cat 0; Ok x.2.
Definition GetRecordedFreeSpace (rel : list FSMPageData) (heapBlk : Z) : res Z :=
  let '(addr, slot) := fsm_get_location heapBlk in
  match fsm_readbuf rel addr false with
  | (None, _) => Ok 0
  | (Some buf, rel) => page ← BufferGetPage rel buf; cat ← fsm_get_avail page slot; Ok (fsm_space_cat_to_avail cat)
  end.
(** The new number of blocks, and the map whose last page has been cleared *)
Definition FreeSpaceMapPrepareTruncateRel (rel : list FSMPageData) (nblocks : Z) : res (Z * list FSMPageData) :=
  if zlen rel =? 0 then Ok (InvalidBlockNumber, rel) else
  let '(first_removed_address, first_removed_slot) := fsm_get_location nblocks in
  if first_removed_slot >? 0 then
    match fsm_readbuf rel first_removed_address false with
    | (None, rel) => Ok (InvalidBlockNumber, rel)
    | (Some buf, rel) =>
        page ← BufferGetPage rel buf;
        x ← fsm_truncate_avail page first_removed_slot;
        Ok (wrap32 (fsm_logical_to_physical first_removed_address + 1), with_page rel buf x.1)
    end
  else
    let new_nfsmblocks := fsm_logical_to_physical first_removed_address in
    Ok (if zlen rel <=? new_nfsmblocks then InvalidBlockNumber else new_nfsmblocks, rel).
Definition FreeSpaceMapVacuum (rel : list FSMPageData) : res (list FSMPageData) :=
  x ← fsm_vacuum_page (Z.to_nat FSM_ROOT_LEVEL) 0 InvalidBlockNumber rel FSM_ROOT_ADDRESS; Ok x.2.
Definition FreeSpaceMapVacuumRange (rel : list FSMPageData) (start end_ : Z) : res (list FSMPageData) :=
  if end_ >? start then x ← fsm_vacuum_page (Z.to_nat FSM_ROOT_LEVEL) start end_ rel FSM_ROOT_ADDRESS; Ok x.2 else Ok rel.
