(* ===== verification/FsmOk.v ===== *)
(** What the free space map promises: the pages of the tree do not overlap, a category that
    is recorded is found again, a page that is returned has the space that was asked for,
    and after a vacuum one is returned whenever there is one. *)

From S2P Require Import Prelude FsmPage Fsm.

(** ** Categories *)

Lemma cat_to_avail_le avail : 0 <= avail < 8192 ->
  is_byte (fsm_space_avail_to_cat avail) /\ fsm_space_cat_to_avail (fsm_space_avail_to_cat avail) <= avail < fsm_space_cat_to_avail (fsm_space_avail_to_cat avail) + 32.
Proof.
  intros Ha. unfold fsm_space_avail_to_cat, fsm_space_cat_to_avail, is_byte. change MaxFSMRequestSize with 8160. change FSM_CAT_STEP with 32. cbv zeta. rewrite Z.geb_leb.
  destruct (Z.leb_spec 8160 avail); [simpl; lia|]. destruct (Z.gtb_spec (avail / 32) 254); [Z.div_mod_to_equations; lia|].
  destruct (Z.eqb_spec (avail / 32) 255); Z.div_mod_to_equations; lia.
Qed.

(** A category that is asked for stands for enough space. *)
Lemma needed_ok needed cat : 0 <= needed -> fsm_space_needed_to_cat needed = Ok cat ->
  1 <= cat <= 255 /\ forall c, cat <= c <= 255 -> needed <= fsm_space_cat_to_avail c.
Proof.
  intros Hn. unfold fsm_space_needed_to_cat, fsm_space_cat_to_avail. change MaxFSMRequestSize with 8160. change FSM_CAT_STEP with 32. cbv zeta.
  destruct (Z.gtb_spec needed 8160); [done|]. destruct (Z.eqb_spec needed 0) as [->|]; intros [= <-].
  - split; [lia|]. intros c Hc. destruct (c =? 255); lia.
  - destruct (Z.gtb_spec ((needed + 32 - 1) / 32) 255); [Z.div_mod_to_equations; lia|]. split; [Z.div_mod_to_equations; lia|].
    intros c Hc. destruct (Z.eqb_spec c 255); [lia|]. Z.div_mod_to_equations. lia.
Qed.

(** ** Addresses *)

(** Pages of the tree *)
Definition vaddr (a : FSMAddress) : Prop :=
  (level a = 2 /\ logpageno a = 0) \/ (level a = 1 /\ 0 <= logpageno a < 4069) \/ (level a = 0 /\ 0 <= logpageno a < 4069 * 4069).
(** The number of bottom pages below a page, and the first of them *)
Definition width (l : Z) : Z := if l =? 0 then 1 else if l =? 1 then 4069 else 4069 * 4069.
Definition first_leaf (a : FSMAddress) : Z := logpageno a * width (level a).
Abbreviation phys a := (fsm_logical_to_physical a).

Lemma addr_eq a b : level a = level b -> logpageno a = logpageno b -> a = b.
Proof. destruct a, b. simpl. by intros -> ->. Qed.
#[global] Instance FSMAddress_eq_dec : EqDecision FSMAddress.
Proof. solve_decision. Defined.

Lemma slots_small n : 0 <= n < 4069 * 4069 -> int32_of ((n mod 2 ^ 64) / SlotsPerFSMPage) = n / 4069.
Proof. intros Hn. fsmc. rewrite Z.mod_small by lia. apply int32_small. Z.div_mod_to_equations. lia. Qed.

(** Depth first: the root, and the pages of level one, each followed by its children *)
Lemma phys_eq a : vaddr a ->
  phys a = (if level a =? 2 then 0 else if level a =? 1 then logpageno a * 4070 + 1 else logpageno a + logpageno a / 4069 + 2).
Proof.
  intros Ha. unfold fsm_logical_to_physical. change (Z.to_nat FSM_TREE_DEPTH) with 3%nat. cbv zeta.
  set (n := Nat.iter _ mul_slots _). assert (n = first_leaf a /\ 0 <= n < 4069 * 4069) as [Hn Hr].
  { unfold n, first_leaf, width. destruct Ha as [[-> ->]|[[-> Hl]|[-> Hl]]]; [done| |split; [by rewrite Z.mul_1_r|done]].
    change (Nat.iter (Z.to_nat 1) mul_slots (logpageno a)) with (mul_slots (logpageno a)). unfold mul_slots. fsmc. rewrite int32_small by lia. simpl. lia. }
  cbn [count_pages]. rewrite slots_small by done. assert (H1 : 0 <= n / 4069 < 4069) by (Z.div_mod_to_equations; lia). rewrite slots_small by lia.
  assert (H2 : n / 4069 / 4069 = 0) by (apply Z.div_small; lia). rewrite H2. unfold wrap32. rewrite !(Z.mod_small) by (destruct Ha as [[-> _]|[[-> _]|[-> _]]]; lia).
  rewrite Hn. unfold first_leaf, width. destruct Ha as [[-> ->]|[[-> Hl]|[-> Hl]]]; simpl; [done|rewrite Z.div_mul by lia; lia|rewrite Z.mul_1_r; lia].
Qed.

Lemma phys_inj a b : vaddr a -> vaddr b -> phys a = phys b -> a = b.
Proof.
  intros Ha Hb. rewrite !phys_eq by done. intros E. apply addr_eq; destruct Ha as [[Ea ?]|[[Ea ?]|[Ea ?]]], Hb as [[Eb ?]|[[Eb ?]|[Eb ?]]]; rewrite Ea, Eb in *; simpl in E; Z.div_mod_to_equations; lia.
Qed.
Lemma phys_range a : vaddr a -> 0 <= phys a < 2 ^ 30.
Proof. intros Ha. rewrite phys_eq by done. destruct Ha as [[-> ?]|[[-> ?]|[-> ?]]]; simpl; Z.div_mod_to_equations; lia. Qed.

(** A child and its parent *)
Lemma child_eq a s : vaddr a -> 0 < level a -> 0 <= s < 4069 -> fsm_get_child a s = {| level := level a - 1; logpageno := logpageno a * 4069 + s |}.
Proof. intros Ha Hl Hs. unfold fsm_get_child. f_equal. fsmc. apply int32_small. destruct Ha as [[? ?]|[[? ?]|[? ?]]]; lia. Qed.
Lemma child_ok a s : vaddr a -> 0 < level a -> 0 <= s < 4069 ->
  let c := fsm_get_child a s in
  vaddr c /\ level c = level a - 1 /\ fsm_get_parent c = (a, s) /\ first_leaf c = first_leaf a + s * width (level c) /\ phys a < phys c.
Proof.
  intros Ha Hl Hs c. unfold c. rewrite child_eq by done. clear c. set (c := {| level := _ |}).
  assert (Hv : vaddr c) by (unfold vaddr, c; cbn [level logpageno]; destruct Ha as [[? ?]|[[? ?]|[? ?]]]; lia).
  split; [done|]. split; [done|]. split; [|split].
  - unfold fsm_get_parent, c. cbn [level logpageno]. fsmc. f_equal; [apply addr_eq; cbn [level logpageno]|]; Z.div_mod_to_equations; lia.
  - unfold first_leaf, width, c. cbn [level logpageno]. destruct Ha as [[El ?]|[[El ?]|[El ?]]]; rewrite El in *; simpl; lia.
  - rewrite !phys_eq by done. unfold c. cbn [level logpageno]. destruct Ha as [[El ?]|[[El ?]|[El ?]]]; rewrite El in *; simpl; Z.div_mod_to_equations; lia.
Qed.
Lemma parent_ok c : vaddr c -> level c < 2 ->
  let x := fsm_get_parent c in
  vaddr x.1 /\ level x.1 = level c + 1 /\ 0 <= x.2 < 4069 /\ fsm_get_child x.1 x.2 = c.
Proof.
  intros Hc Hl x. assert (Hx : vaddr x.1).
  { unfold x, fsm_get_parent, vaddr. cbn [fst level logpageno]. fsmc. destruct Hc as [[El ?]|[[El ?]|[El ?]]]; rewrite El in *; Z.div_mod_to_equations; lia. }
  assert (Hs : 0 <= x.2 < 4069) by (unfold x, fsm_get_parent; cbn [snd]; fsmc; apply Z.mod_pos_bound; lia). assert (Hlx : level x.1 = level c + 1) by done.
  split; [done|]. split; [done|]. split; [done|]. rewrite child_eq; [|done| |done].
  - apply addr_eq; unfold x, fsm_get_parent; cbn [fst snd level logpageno]; fsmc; [lia|]. Z.div_mod_to_equations. lia.
  - destruct Hc as [[? ?]|[[? ?]|[? ?]]]; lia.
Qed.
Lemma past_end a : vaddr a -> 1055533 < first_leaf a -> 1055794 <= phys a.
Proof.
  intros Ha Hf. rewrite phys_eq by done. unfold first_leaf, width in Hf. destruct Ha as [[El ?]|[[El ?]|[El ?]]]; rewrite El in *; simpl in *; Z.div_mod_to_equations; lia.
Qed.
Lemma child_mono a s t : vaddr a -> 0 < level a -> 0 <= s < t -> t < 4069 -> phys (fsm_get_child a s) < phys (fsm_get_child a t).
Proof.
  intros Ha Hl Hs Ht. destruct (child_ok a s Ha Hl ltac:(lia)) as (Vs & _). destruct (child_ok a t Ha Hl ltac:(lia)) as (Vt & _).
  rewrite !phys_eq by done. rewrite !child_eq by (done || lia). cbn [level logpageno].
  destruct Ha as [[El ?]|[[El ?]|[El ?]]]; rewrite El in *; simpl; Z.div_mod_to_equations; lia.
Qed.

(** A heap block and its slot *)
Lemma location_ok blk : 0 <= blk < 2 ^ 32 ->
  let x := fsm_get_location blk in
  vaddr x.1 /\ level x.1 = 0 /\ 0 <= x.2 < 4069 /\ fsm_get_heap_blk x.1 x.2 = blk /\ first_leaf x.1 <= 1055533.
Proof.
  intros Hb. unfold fsm_get_location, fsm_get_heap_blk, first_leaf, vaddr. cbn [fst snd level logpageno]. fsmc.
  assert (Hd : 0 <= blk / 4069 < 4069 * 4069) by (Z.div_mod_to_equations; lia). split_and!; [right; right; split; [done|lia]|done|Z.div_mod_to_equations; lia..| |change (width FSM_BOTTOM_LEVEL) with 1; Z.div_mod_to_equations; lia].
  unfold wrap32. rewrite (Z.mod_small (blk / 4069)) by lia. rewrite Z.mod_small; Z.div_mod_to_equations; lia.
Qed.
Lemma location_heap_blk a s : level a = 0 -> 0 <= logpageno a < 1055533 -> 0 <= s < 4069 ->
  0 <= fsm_get_heap_blk a s < InvalidBlockNumber /\ fsm_get_location (fsm_get_heap_blk a s) = (a, s).
Proof.
  intros Ha Hl Hs. unfold fsm_get_location, fsm_get_heap_blk. fsmc. unfold wrap32. rewrite (Z.mod_small (logpageno a)) by lia. rewrite Z.mod_small by lia.
  unfold InvalidBlockNumber. split; [lia|]. f_equal; [apply addr_eq; [done|]; cbn [logpageno]|]; Z.div_mod_to_equations; lia.
Qed.

(** ** The pages of a map *)

(** A page after the end of the file counts as empty. *)
Definition page_at (rel : list FSMPageData) (a : FSMAddress) : FSMPageData := default empty_page (rel !! Z.to_nat (phys a)).

Lemma empty_node i : node empty_page i = 0.
Proof. unfold node, empty_page, zrep. cbn [fp_nodes]. destruct (_ !! _) eqn:E; [|done]. by apply lookup_replicate in E as [-> _]. Qed.
Lemma empty_page_ok : fsm_ok empty_page.
Proof.
  split; [split|]; [cbn [empty_page fp_nodes]; rewrite zlen_zrep; fsmc; lia|apply Forall_replicate; done|]. intros x _. unfold agrees. by rewrite !empty_node.
Qed.
Lemma page_at_P (P : FSMPageData -> Prop) rel a : P empty_page -> Forall P rel -> P (page_at rel a).
Proof. intros He Hr. unfold page_at. destruct (_ !! _) eqn:E; [|done]. exact (Forall_lookup_1 _ _ _ _ Hr E). Qed.
Lemma page_at_page rel a : Forall fsm_page rel -> fsm_page (page_at rel a).
Proof. apply page_at_P, fsm_ok_page, empty_page_ok. Qed.
Lemma page_at_ok rel a : Forall fsm_ok rel -> fsm_ok (page_at rel a).
Proof. apply page_at_P, empty_page_ok. Qed.
Lemma all_pages rel : Forall fsm_ok rel -> Forall fsm_page rel.
Proof. intros Hr. eapply Forall_impl; [exact Hr|]. intros p. apply fsm_ok_page. Qed.
Lemma page_missing rel a : zlen rel <= phys a -> page_at rel a = empty_page.
Proof. intros Hz. unfold page_at. rewrite lookup_ge_None_2; [done|]. unfold zlen in Hz. lia. Qed.

Lemma get_page rel a : vaddr a -> phys a < zlen rel -> BufferGetPage rel (phys a) = Ok (page_at rel a).
Proof.
  intros Ha Hz. pose proof (phys_range a Ha). unfold BufferGetPage, page_at. destruct (lookup_lt_is_Some_2 rel (Z.to_nat (phys a))) as [p ->]; [unfold zlen in Hz; lia|done].
Qed.
Lemma with_page_at rel a p b : vaddr a -> vaddr b -> phys a < zlen rel -> page_at (with_page rel (phys a) p) b = if decide (b = a) then p else page_at rel b.
Proof.
  intros Ha Hb Hz. pose proof (phys_range a Ha). pose proof (phys_range b Hb). unfold page_at, with_page. case_decide as E.
  - subst b. rewrite list_lookup_insert_eq; [done|]. unfold zlen in Hz. lia.
  - rewrite list_lookup_insert_ne; [done|]. intros E'. apply E. apply phys_inj; [done|done|]. lia.
Qed.
Lemma with_page_len rel b p : zlen (with_page rel b p) = zlen rel.
Proof. unfold zlen, with_page. by rewrite length_insert. Qed.
Lemma with_page_all (P : FSMPageData -> Prop) rel b p : Forall P rel -> P p -> Forall P (with_page rel b p).
Proof. intros. by apply Forall_insert. Qed.

(** A page that is read to be changed is there. *)
Lemma readbuf_extend rel a : vaddr a -> exists rel1, fsm_readbuf rel a true = (Some (phys a), rel1) /\ zlen rel1 = Z.max (zlen rel) (phys a + 1) /\
  (forall b, page_at rel1 b = page_at rel b) /\ (forall P : FSMPageData -> Prop, P empty_page -> Forall P rel -> Forall P rel1).
Proof.
  intros Ha. pose proof (phys_range a Ha). unfold fsm_readbuf. cbv zeta. rewrite Z.geb_leb. destruct (Z.leb_spec (zlen rel) (phys a)) as [Hz|Hz]; [|exists rel; split_and!; (done || lia)].
  eexists. split; [reflexivity|]. unfold fsm_extend. split_and!; [|intros b|intros P He Hr].
  - unfold zlen in *. rewrite length_app, length_replicate. lia.
  - unfold page_at. destruct (decide (Z.to_nat (phys b) < length rel)%nat) as [Hb|Hb]; [by rewrite lookup_app_l|]. rewrite lookup_app_r, (lookup_ge_None_2 rel) by lia.
    destruct (replicate _ _ !! _) eqn:E; [|done]. by apply lookup_replicate in E as [-> _].
  - apply Forall_app. split; [done|]. by apply Forall_replicate.
Qed.
Lemma readbuf_plain rel a : fsm_readbuf rel a false = (if phys a <? zlen rel then (Some (phys a), rel) else (None, rel)).
Proof. unfold fsm_readbuf. cbv zeta. rewrite Z.geb_leb. destruct (Z.leb_spec (zlen rel) (phys a)), (Z.ltb_spec (phys a) (zlen rel)); (done || lia). Qed.

(** *** Setting a slot *)

(** The category that a slot of a page holds *)
Definition cat (rel : list FSMPageData) (a : FSMAddress) (s : Z) : Z := leaf (page_at rel a) s.

Definition stored (rel : list FSMPageData) (a : FSMAddress) (s v : Z) (rel' : list FSMPageData) : Prop :=
  Forall fsm_page rel' /\ (Forall fsm_ok rel -> Forall fsm_ok rel') /\
  (forall b, vaddr b -> slots (page_at rel' b) = if decide (b = a) then <[Z.to_nat s := v]> (slots (page_at rel a)) else slots (page_at rel b)) /\
  zlen rel' = Z.max (zlen rel) (phys a + 1).

Lemma slots_cat rel rel' a b s : slots (page_at rel' a) = slots (page_at rel b) -> 0 <= s -> cat rel' a s = cat rel b s.
Proof. intros E Hs. unfold cat. rewrite <- (Z2Nat.id s) by done. rewrite !leaf_slot. by rewrite E. Qed.
Lemma stored_cat rel a s v rel' b t : Forall fsm_page rel -> stored rel a s v rel' -> vaddr b -> 0 <= s < 4069 -> 0 <= t ->
  cat rel' b t = if decide (b = a /\ t = s) then v else cat rel b t.
Proof.
  intros Hr (_ & _ & Hs & _) Hb Hs' Ht. specialize (Hs b Hb). destruct (decide (b = a)) as [->|Hne].
  - unfold cat. rewrite <- (Z2Nat.id t) by done. rewrite !leaf_slot, Hs. destruct (decide (t = s)) as [->|Hts].
    + rewrite decide_True by (split; [done|lia]). rewrite list_lookup_insert_eq; [done|]. rewrite fsm_slots_length by (by apply page_at_page). lia.
    + rewrite decide_False by lia. rewrite list_lookup_insert_ne by lia. done.
  - rewrite decide_False by (intros [? _]; done). by apply slots_cat.
Qed.

Lemma set_and_search_ok rel a s v m : Forall fsm_page rel -> vaddr a -> 0 <= s < 4069 -> is_byte v -> 0 <= m ->
  returns (fsm_set_and_search rel a s v m) (fun x => stored rel a s v x.2 /\
    if x.1 =? -1 then True else 0 < m /\ 0 <= x.1 < 4069 /\ m <= cat x.2 a x.1).
Proof.
  intros Hr Ha Hs Hv Hm. unfold fsm_set_and_search. destruct (readbuf_extend rel a Ha) as (rel1 & -> & Hz & Hat & Hall). rewrite get_page by (done || lia). bind.
  pose proof (page_at_page rel a Hr) as Hp. rewrite Hat. eapply returns_bind; [by apply (set_avail_ok (page_at rel a) s v); [|fsmc|]|].
  intros [p c] (Hp1 & Hsl & _ & _ & Hok). cbn [fst] in *. cbv zeta.
  assert (Hst : forall q, fsm_page q -> slots q = slots p -> (fsm_ok p -> fsm_ok q) -> stored rel a s v (with_page rel1 (phys a) q)).
  { intros q Hq Hsq Hokq. split_and!.
    - apply with_page_all; [apply Hall; [apply fsm_ok_page, empty_page_ok|done]|done].
    - intros Hro. apply with_page_all; [apply Hall; [apply empty_page_ok|done]|]. by apply Hokq, Hok, page_at_ok.
    - intros b Hb. rewrite with_page_at by (done || lia). case_decide; [by rewrite Hsq, Hsl|by rewrite Hat].
    - by rewrite with_page_len. }
  destruct (Z.eqb_spec m 0) as [->|Hm0]; cbn [negb]; [split; [by apply Hst|done]|].
  eapply returns_bind; [apply search_avail_safe; [done|lia]|]. intros [r q] (Hq & Hsq & Hokq & Hres). cbn [fst snd] in *. split; [by apply Hst|]. cbn [fst].
  destruct (r =? -1) eqn:Er; [done|]. destruct Hres as [Hr1 Hr2]. fsmc. split; [lia|]. split; [done|]. unfold cat. cbn [snd]. rewrite with_page_at by (done || lia). rewrite decide_True by done.
  rewrite <- (Z2Nat.id r) by lia. rewrite leaf_slot, Hsq. exact Hr2.
Qed.

(** *** Blocks of the relation *)

Definition recorded (rel : list FSMPageData) (blk : Z) : Z := cat rel (fsm_get_location blk).1 (fsm_get_location blk).2.

Lemma get_recorded_ok rel blk : Forall fsm_page rel -> 0 <= blk < 2 ^ 32 -> GetRecordedFreeSpace rel blk = Ok (fsm_space_cat_to_avail (recorded rel blk)).
Proof.
  intros Hr Hb. destruct (location_ok blk Hb) as (Ha & _ & Hs & _). unfold recorded, GetRecordedFreeSpace. destruct (fsm_get_location blk) as [a s]. cbn [fst snd] in *.
  rewrite readbuf_plain. destruct (Z.ltb_spec (phys a) (zlen rel)).
  - rewrite get_page by done. bind. unfold fsm_get_avail. rewrite rd_node by (try apply page_at_page; fsmc; (done || lia)). bind. done.
  - unfold cat. rewrite page_missing by done. unfold leaf. by rewrite empty_node.
Qed.
Lemma location_inj b c : 0 <= b < 2 ^ 32 -> 0 <= c < 2 ^ 32 -> fsm_get_location b = fsm_get_location c -> b = c.
Proof. intros Hb Hc E. destruct (location_ok b Hb) as (_ & _ & _ & <- & _). destruct (location_ok c Hc) as (_ & _ & _ & <- & _). by rewrite E. Qed.
Lemma stored_recorded rel blk v rel' b : Forall fsm_page rel -> 0 <= blk < 2 ^ 32 -> 0 <= b < 2 ^ 32 ->
  stored rel (fsm_get_location blk).1 (fsm_get_location blk).2 v rel' -> recorded rel' b = if decide (b = blk) then v else recorded rel b.
Proof.
  intros Hr Hk Hb Hst. destruct (location_ok blk Hk) as (_ & _ & Hs & _). destruct (location_ok b Hb) as (Ha & _ & Ht & _). unfold recorded. rewrite (stored_cat _ _ _ _ _ _ _ Hr Hst) by (done || lia).
  destruct (decide (b = blk)) as [->|Hne]; [by rewrite decide_True|]. rewrite decide_False; [done|]. intros [E1 E2]. apply Hne. apply location_inj; [done..|].
  by apply injective_projections.
Qed.
Lemma record_ok rel blk avail : Forall fsm_page rel -> 0 <= blk < 2 ^ 32 -> 0 <= avail < 8192 ->
  returns (RecordPageWithFreeSpace rel blk avail) (fun rel' => stored rel (fsm_get_location blk).1 (fsm_get_location blk).2 (fsm_space_avail_to_cat avail) rel').
Proof.
  intros Hr Hb Ha. destruct (location_ok blk Hb) as (Hv & _ & Hs & _). unfold RecordPageWithFreeSpace. destruct (fsm_get_location blk) as [a s]. cbn [fst snd] in *. cbv zeta.
  eapply returns_bind; [apply set_and_search_ok; try done; by apply cat_to_avail_le|]. by intros x [Hx _].
Qed.

(** ** Searching *)

(** A map with pages for at most 4294963777 blocks: the number of a block it has fits in 32 bits. *)
Definition fits (rel : list FSMPageData) : Prop := zlen rel <= 1055794.
(** No upper slot for pages that no block of a relation can have claims any space. *)
Definition within (rel : list FSMPageData) : Prop :=
  forall b s, vaddr b -> 0 < level b -> 0 <= s < 4069 -> 1055533 < first_leaf (fsm_get_child b s) -> cat rel b s = 0.
Definition sound_map (rel : list FSMPageData) : Prop := Forall fsm_ok rel /\ within rel.
(** What a search may change: the hints and the inner nodes of the pages, and upper slots *)
Definition kept (rel rel' : list FSMPageData) : Prop :=
  Forall fsm_page rel' /\ zlen rel' = zlen rel /\ (forall a, vaddr a -> level a = 0 -> slots (page_at rel' a) = slots (page_at rel a)) /\
  (sound_map rel -> sound_map rel').

Lemma slots_within rel rel' : (forall b, vaddr b -> 0 < level b -> slots (page_at rel' b) = slots (page_at rel b)) -> within rel -> within rel'.
Proof. intros Hs Hw b s Hb Hl Hr Hf. rewrite (slots_cat rel rel' b b s); [by apply Hw|by apply Hs|lia]. Qed.
Lemma stored_within rel a s v rel' : Forall fsm_page rel -> stored rel a s v rel' -> 0 <= s < 4069 ->
  (0 < level a -> 1055533 < first_leaf (fsm_get_child a s) -> v = 0) -> within rel -> within rel'.
Proof.
  intros Hr Hst Hs Hv Hw b t Hb Hl Ht Hf. rewrite (stored_cat _ _ _ _ _ _ _ Hr Hst) by (done || lia). case_decide as E; [|by apply Hw]. destruct E as [-> ->]. by apply Hv.
Qed.

Lemma kept_recorded rel rel' blk : kept rel rel' -> 0 <= blk < 2 ^ 32 -> recorded rel' blk = recorded rel blk.
Proof. intros (_ & _ & Hs & _) Hb. destruct (location_ok blk Hb) as (Ha & Hl & Ht & _). unfold recorded. apply slots_cat; [by apply Hs|lia]. Qed.
Lemma kept_trans rel1 rel2 rel3 : kept rel1 rel2 -> kept rel2 rel3 -> kept rel1 rel3.
Proof. intros (_ & Hz & Hs & Hg) (Hp & Hz' & Hs' & Hg'). split; [done|]. split; [lia|]. split; [|by auto]. intros a Ha Hl. by rewrite Hs', Hs. Qed.

Definition level_result (rel : list FSMPageData) (a : FSMAddress) (m : Z) (x : Z * Z * list FSMPageData) : Prop :=
  let '(slot, max_avail, rel') := x in
  Forall fsm_page rel' /\ zlen rel' = zlen rel /\ (forall b, vaddr b -> slots (page_at rel' b) = slots (page_at rel b)) /\ is_byte max_avail /\
  (Forall fsm_ok rel -> Forall fsm_ok rel') /\ (zlen rel <= phys a -> max_avail = 0) /\
  if slot =? -1 then True else phys a < zlen rel /\ 0 <= slot < 4069 /\ m <= cat rel a slot.

Lemma search_level_ok rel a m : Forall fsm_page rel -> vaddr a -> 1 <= m -> returns (search_level rel a m) (level_result rel a m).
Proof.
  intros Hr Ha Hm. unfold search_level. rewrite readbuf_plain. destruct (Z.ltb_spec (phys a) (zlen rel)) as [Hz|Hz]; [|done].
  rewrite get_page by done. bind. pose proof (page_at_page rel a Hr) as Hp. eapply returns_bind; [by apply search_avail_safe|]. intros [s q] (Hq & Hsq & Hok & Hres). cbn [fst snd] in *.
  assert (Hb : returns (if s =? -1 then fsm_get_max_avail q else Ok 0) is_byte).
  { destruct (s =? -1); [|done]. unfold fsm_get_max_avail. rewrite (rd_node q Hq) by (fsmc; lia). by apply node_byte. }
  eapply returns_bind; [exact Hb|]. intros mx Hmx. unfold level_result. cbn. split_and!.
  - by apply with_page_all.
  - apply with_page_len.
  - intros b Hb'. rewrite with_page_at by done. case_decide; [by subst|done].
  - apply Hmx.
  - intros Hro. apply with_page_all; [done|]. by apply Hok, page_at_ok.
  - lia.
  - destruct (s =? -1); [done|]. fsmc. destruct Hres as [Hs1 Hs2]. split; [done|]. split; [done|]. unfold cat. rewrite <- (Z2Nat.id s) by lia. by rewrite leaf_slot.
Qed.

Section search.
Context (rel0 : list FSMPageData) (m : Z) (Hfits : fits rel0) (Hm : 1 <= m).

Definition search_inv (x : list FSMPageData * FSMAddress * Z) : Prop :=
  let '(rel, a, restarts) := x in
  kept rel0 rel /\ vaddr a /\ 0 <= restarts <= 10001 /\ (level a < 2 -> vaddr (fsm_get_parent a).1 /\ phys (fsm_get_parent a).1 < zlen rel).
Definition search_measure (x : list FSMPageData * FSMAddress * Z) : nat :=
  let '(rel, a, restarts) := x in Z.to_nat ((10001 - restarts) * 3 + level a).
Definition found_block (x : Z * list FSMPageData) : Prop :=
  kept rel0 x.2 /\ (x.1 = InvalidBlockNumber \/ (0 <= x.1 < InvalidBlockNumber /\ m <= recorded x.2 x.1)).

Lemma vaddr_level a : vaddr a -> 0 <= level a <= 2.
Proof using. intros [[-> _]|[[-> _]|[-> _]]]; lia. Qed.
Lemma bottom_fits rel a : fits rel -> vaddr a -> level a = 0 -> phys a < zlen rel -> 0 <= logpageno a < 1055533.
Proof using.
  unfold fits. intros Hf Ha Hl Hz. rewrite phys_eq in Hz by done. rewrite Hl in Hz. simpl in Hz. destruct Ha as [[? ?]|[[? ?]|[? ?]]]; [lia..|]. Z.div_mod_to_equations. lia.
Qed.
Lemma root_vaddr : vaddr FSM_ROOT_ADDRESS.
Proof using. by left. Qed.

(** The slot of the parent is corrected. *)
Lemma parent_kept rel a pa ps v rel' : Forall fsm_page rel -> fits rel -> vaddr a -> level pa = level a + 1 -> 0 <= level a -> 0 <= ps < 4069 -> fsm_get_child pa ps = a ->
  phys pa < zlen rel -> (zlen rel <= phys a -> v = 0) -> stored rel pa ps v rel' -> kept rel rel'.
Proof using.
  intros Hp Hf Ha Hlp Hl Hps Hc Hz Hv Hst. pose proof Hst as (Hp' & Hok & Hs & Hlen). split; [done|]. split; [lia|]. split.
  - intros b Hb Hlb. rewrite Hs by done. rewrite decide_False; [done|]. intros ->. lia.
  - intros [Ho Hw]. split; [by apply Hok|]. eapply (stored_within rel pa ps v); try done. intros _ Hfl. apply Hv. rewrite Hc in Hfl. pose proof (past_end a Ha Hfl). unfold fits in Hf. lia.
Qed.

Lemma search_step x : search_inv x -> returns (fsm_search_body m x) (fun y => match y with
  | inl x' => search_inv x' /\ (search_measure x' < search_measure x)%nat
  | inr r => found_block r end).
Proof using Hfits Hm.
  destruct x as [[rel a] restarts]. intros (Hk & Ha & Hr & Hpar). pose proof Hk as (Hp & Hz0 & Hs0 & _). pose proof (vaddr_level a Ha) as Hl. unfold fsm_search_body.
  eapply returns_bind; [by apply search_level_ok|]. intros [[s mx] rel1] (Hp1 & Hz1 & Hs1 & Hmx & Hok1 & Hmiss & Hres). assert (Hk1 : kept rel0 rel1).
  { apply (kept_trans _ rel); [done|]. split; [done|]. split; [done|]. split; [intros b Hb _; by apply Hs1|]. intros [Hok Hw]. split; [by apply Hok1|]. eapply slots_within; [|done]. intros b Hb _. by apply Hs1. }
  destruct (s =? -1) eqn:Es; cbn [negb].
  - change FSM_ROOT_LEVEL with 2. destruct (Z.eqb_spec (level a) 2) as [E2|E2]; [split; [done|by left]|]. destruct (Hpar ltac:(lia)) as [_ Hzp].
    pose proof (parent_ok a Ha ltac:(lia)) as (Hvp & Hlp & Hps & Hcp). destruct (fsm_get_parent a) as [pa ps]. cbn [fst snd] in *.
    eapply returns_bind; [by apply (set_and_search_ok rel1 pa ps mx 0)|]. intros [r rel2] [Hst _]. cbn [snd] in *. pose proof (parent_kept rel1 a pa ps mx rel2) as Hk2.
    assert (Hk3 : kept rel0 rel2) by (apply (kept_trans _ rel1); [done|]; apply Hk2; try done; unfold fits in *; [lia..|]; rewrite Hz1; done). clear Hk2.
    destruct (Z.gtb_spec restarts 10000); [split; [done|by left]|]. split; [|unfold search_measure; change (level FSM_ROOT_ADDRESS) with 2; lia].
    split; [done|]. split; [apply root_vaddr|]. split; [lia|]. by change (level FSM_ROOT_ADDRESS) with 2.
  - destruct Hres as (Hza & Hsr & Hc). change FSM_BOTTOM_LEVEL with 0. destruct (Z.eqb_spec (level a) 0) as [E0|E0].
    + split; [done|]. right. cbn [fst snd]. assert (Hlg : 0 <= logpageno a < 1055533) by (apply (bottom_fits rel); [unfold fits in *; lia|done..]).
      destruct (location_heap_blk a s E0 Hlg Hsr) as [Hb He]. split; [done|]. unfold recorded. rewrite He. cbn [fst snd]. rewrite (slots_cat rel rel1 a a s); [done|by apply Hs1|lia].
    + destruct (child_ok a s Ha ltac:(lia) Hsr) as (Hvc & Hlc & Hpc & _). split; [|unfold search_measure; rewrite Hlc; lia].
      unfold search_inv. rewrite Hpc. cbn [fst]. split; [done|]. split; [done|]. split; [lia|]. intros _. split; [done|lia].
Qed.
Lemma search_ok : Forall fsm_page rel0 -> returns (fsm_search rel0 m) found_block.
Proof using Hfits Hm.
  intros Hp. unfold fsm_search. apply (iter_returns search_inv search_measure).
  - intros x Hx. eapply returns_mono; [by apply search_step|]. by intros [].
  - split; [by split_and!|]. split; [apply root_vaddr|]. split; [lia|]. by change (level FSM_ROOT_ADDRESS) with 2.
  - unfold search_measure. change (level FSM_ROOT_ADDRESS) with 2. lia.
Qed.
End search.

(** ** Vacuum *)

Abbreviation nodes rel b := (fp_nodes (page_at rel b)).
Definition root (rel : list FSMPageData) (a : FSMAddress) : Z := node (page_at rel a) 0.

Lemma nodes_cat rel rel' b s : nodes rel' b = nodes rel b -> cat rel' b s = cat rel b s.
Proof. unfold cat, leaf, node. by intros ->. Qed.
Lemma nodes_root rel rel' b : nodes rel' b = nodes rel b -> root rel' b = root rel b.
Proof. unfold root, node. by intros ->. Qed.
Lemma missing_cat rel b s : zlen rel <= phys b -> cat rel b s = 0.
Proof. intros Hz. unfold cat. rewrite page_missing by done. apply empty_node. Qed.
Lemma missing_root rel b : zlen rel <= phys b -> root rel b = 0.
Proof. intros Hz. unfold root. rewrite page_missing by done. apply empty_node. Qed.
Lemma root_byte rel a : Forall fsm_ok rel -> is_byte (root rel a).
Proof. intros Hr. apply node_byte. by apply page_at_page, all_pages. Qed.

(** *** The part of the tree below a page *)

Definition under (a b : FSMAddress) : Prop := level b <= level a /\ first_leaf a <= first_leaf b < first_leaf a + width (level a).

Ltac addr_cases := repeat match goal with H : vaddr ?a |- _ =>
  let E := fresh "El" in destruct H as [[E ?]|[[E ?]|[E ?]]]; rewrite ?E in *; cbn [width Z.eqb] in *; try lia end.

Lemma width_pos l : 1 <= width l.
Proof. unfold width. repeat case_match; lia. Qed.
Lemma under_refl a : under a a.
Proof. split; [lia|]. pose proof (width_pos (level a)). lia. Qed.
Lemma under_phys a b : vaddr a -> vaddr b -> under a b -> phys a <= phys b.
Proof.
  intros Ha Hb [Hl Hf]. rewrite !phys_eq by done. unfold first_leaf, width in Hf. addr_cases; simpl in *; Z.div_mod_to_equations; lia.
Qed.
Lemma width_child a : vaddr a -> 0 < level a -> width (level a) = 4069 * width (level a - 1).
Proof. intros Ha Hl. addr_cases; done. Qed.
Lemma under_child a b s : vaddr b -> 0 < level b -> 0 <= s < 4069 -> under a b -> under a (fsm_get_child b s).
Proof.
  intros Hb Hl Hs [H1 H2]. destruct (child_ok b s Hb Hl Hs) as (_ & Hlc & _ & Hf & _). split; [lia|]. rewrite Hf, Hlc.
  assert (Hn : first_leaf b + width (level b) <= first_leaf a + width (level a)).
  { unfold first_leaf, width in *. addr_cases; simpl in *. all: destruct (Z.eqb_spec (level a) 0), (Z.eqb_spec (level a) 1); lia. }
  rewrite (width_child b) in Hn by done. pose proof (width_pos (level b - 1)). nia.
Qed.
Lemma under_apart a s t b : vaddr a -> 0 < level a -> 0 <= s < 4069 -> 0 <= t < 4069 -> s <> t -> under (fsm_get_child a s) b -> under (fsm_get_child a t) b -> False.
Proof.
  intros Ha Hl Hs Ht Hne [_ H1] [_ H2]. destruct (child_ok a s Ha Hl Hs) as (_ & Hls & _ & Hfs & _). destruct (child_ok a t Ha Hl Ht) as (_ & Hlt & _ & Hft & _).
  rewrite Hfs in H1. rewrite Hft in H2. rewrite Hls in *. rewrite Hlt in *. pose proof (width_pos (level a - 1)). nia.
Qed.
Lemma under_below a s b : vaddr a -> 0 < level a -> 0 <= s < 4069 -> under (fsm_get_child a s) b -> under a b /\ level b < level a.
Proof.
  intros Ha Hl Hs [H1 H2]. destruct (child_ok a s Ha Hl Hs) as (_ & Hls & _ & Hfs & _). rewrite Hfs in H2. rewrite Hls in *. pose proof (width_pos (level a - 1)).
  split; [split; [lia|]|lia]. rewrite (width_child a) by done. nia.
Qed.
Lemma under_split a b : vaddr a -> vaddr b -> 0 < level a -> under a b -> b <> a -> exists s, 0 <= s < 4069 /\ under (fsm_get_child a s) b.
Proof.
  intros Ha Hb Hl [H1 H2] Hne. set (w := width (level a - 1)). pose proof (width_pos (level a - 1)) as Hw. fold w in Hw.
  assert (Hlt : level b < level a).
  { destruct (Z.eq_dec (level b) (level a)) as [E|]; [|lia]. exfalso. apply Hne, addr_eq; [done|]. unfold first_leaf in H2. rewrite E in H2. pose proof (width_pos (level a)). nia. }
  rewrite (width_child a) in H2 by done. fold w in H2. exists ((first_leaf b - first_leaf a) / w).
  assert (Hs : 0 <= (first_leaf b - first_leaf a) / w < 4069) by (split; [apply Z.div_pos; lia|apply Z.div_lt_upper_bound; lia]). split; [done|].
  destruct (child_ok a _ Ha Hl Hs) as (_ & Hls & _ & Hfs & _). split; [lia|]. rewrite Hfs, Hls. fold w.
  pose proof (Z.div_mod (first_leaf b - first_leaf a) w ltac:(lia)). pose proof (Z.mod_pos_bound (first_leaf b - first_leaf a) w ltac:(lia)). lia.
Qed.
(** *** The slots of a page that are visited *)

Lemma slot_range_ok a : vaddr a -> 0 < level a -> exists k, slot_range a 0 InvalidBlockNumber = map Z.of_nat (seq 0 k) /\ (k <= 4069)%nat /\
  forall s, 0 <= s < 4069 -> Z.of_nat k <= s -> 1055533 < first_leaf (fsm_get_child a s).
Proof.
  intros Ha Hl. set (k := if level a =? 2 then 260 else if logpageno a <? 259 then 4069 else if logpageno a =? 259 then 1663 else 0). exists (Z.to_nat k).
  assert (Hk : 0 <= k <= 4069) by (unfold k; repeat case_match; lia). split; [|split; [lia|]].
  - assert (E : slot_range a 0 InvalidBlockNumber = map (fun i => 0 + i) (zrange k)).
    { unfold slot_range, k. fsmc. destruct Ha as [[El Hp]|[[El Hp]|[El Hp]]]; [| |lia]; rewrite El; cbv zeta.
      - rewrite Hp. reflexivity.
      - set (up := Nat.iter (Z.to_nat 1) _). change (up (fsm_get_location 0)) with ({| level := 1; logpageno := 0 |}, 0).
        change (up (fsm_get_location _)) with ({| level := 1; logpageno := 259 |}, 1662). cbv beta iota zeta. cbn [logpageno].
        replace (if 0 =? logpageno a then 0 else if 0 >? logpageno a then 4069 else 0) with 0 by (repeat case_match; lia). f_equal. f_equal.
        destruct (Z.eqb_spec 259 (logpageno a)), (Z.gtb_spec 259 (logpageno a)), (Z.ltb_spec (logpageno a) 259), (Z.eqb_spec (logpageno a) 259); simpl; lia. }
    rewrite E. unfold zrange. rewrite map_map. done.
  - intros s Hs Hks. destruct (child_ok a s Ha Hl Hs) as (_ & Hls & _ & Hfs & _). rewrite Hfs, Hls. unfold first_leaf. rewrite Z2Nat.id in Hks by lia. unfold k in Hks. clear Hfs Hk k.
    destruct Ha as [[El Hp]|[[El Hp]|[El Hp]]]; [| |lia]; rewrite El in *; unfold width; simpl in *; [lia|]. destruct (Z.ltb_spec (logpageno a) 259), (Z.eqb_spec (logpageno a) 259); lia.
Qed.

(** *** The sums *)

(** A slot of an upper page has the greatest category of the page below it. *)
Definition summed_under (a : FSMAddress) (rel : list FSMPageData) : Prop :=
  forall b s, vaddr b -> 0 < level b -> 0 <= s < 4069 -> under a b -> cat rel b s = root rel (fsm_get_child b s).
Record map_ok (n : Z) (rel : list FSMPageData) : Prop := {
  map_pages : Forall fsm_ok rel;
  map_len : zlen rel = n;
  map_within : within rel
}.
(** The nodes that are left alone: those of the bottom, and of the pages that are not below a *)
Definition same_but (a : FSMAddress) (rel rel' : list FSMPageData) : Prop :=
  forall b, vaddr b -> (under a b -> level b = 0) -> nodes rel' b = nodes rel b.
Definition vacuumed (n : Z) (a : FSMAddress) (rel : list FSMPageData) (x : Z * bool * list FSMPageData) : Prop :=
  let '(v, eof, rel') := x in
  map_ok n rel' /\ v = root rel' a /\ eof = (n <=? phys a) /\ same_but a rel rel' /\ summed_under a rel'.

Lemma missing_under n a rel : zlen rel = n -> vaddr a -> n <= phys a -> summed_under a rel.
Proof.
  intros Hz Ha Hn b s Hb Hl Hs Hu. pose proof (under_phys a b Ha Hb Hu). destruct (child_ok b s Hb Hl Hs) as (_ & _ & _ & _ & Hc).
  rewrite missing_cat, missing_root by lia. done.
Qed.
Lemma missing_vacuumed n a rel : map_ok n rel -> vaddr a -> n <= phys a -> vacuumed n a rel (0, true, rel).
Proof.
  intros Hm Ha Hn. pose proof (map_len _ _ Hm) as Hz. split; [done|]. split; [by rewrite missing_root by lia|]. split; [symmetry; by apply Z.leb_le|]. split; [done|].
  by apply (missing_under n).
Qed.
(** Pages below a with the same nodes have the same sums. *)
Lemma summed_same a rel rel' : (forall b, vaddr b -> under a b -> nodes rel' b = nodes rel b) -> summed_under a rel -> summed_under a rel'.
Proof.
  intros Hn Hs b s Hb Hl Hr Hu. destruct (child_ok b s Hb Hl Hr) as (Hc & _). rewrite (nodes_cat rel), (nodes_root rel); [by apply Hs|apply Hn; [done|]; by apply under_child|by apply Hn].
Qed.

Lemma with_page_stored rel a i v q : Forall fsm_ok rel -> vaddr a -> phys a < zlen rel -> fsm_ok q -> slots q = <[Z.to_nat i := v]> (slots (page_at rel a)) ->
  stored rel a i v (with_page rel (phys a) q).
Proof.
  intros Hp Ha Hz Hq Hs. split_and!; [apply all_pages; by apply with_page_all|intros _; by apply with_page_all| |rewrite with_page_len; lia].
  intros b Hb. rewrite with_page_at by done. by case_decide.
Qed.

(** The loop over the slots of [a], at slot [i] *)
Record slots_done (n : Z) (a : FSMAddress) (rel0 : list FSMPageData) (i : Z) (rel : list FSMPageData) : Prop := {
  done_ok : map_ok n rel;
  done_cat : forall s, 0 <= s < i -> cat rel a s = root rel (fsm_get_child a s);
  done_under : forall s, 0 <= s < i -> summed_under (fsm_get_child a s) rel;
  done_same : same_but a rel0 rel
}.

Section slots.
Context (n : Z) (a : FSMAddress) (rel0 : list FSMPageData) (Ha : vaddr a) (Hl : 0 < level a) (Hz : phys a < n).

(** The call for a child keeps what has been done for the others. *)
Lemma child_done i rel v eof rel1 : 0 <= i < 4069 -> slots_done n a rel0 i rel -> vacuumed n (fsm_get_child a i) rel (v, eof, rel1) ->
  slots_done n a rel0 i rel1 /\ v = root rel1 (fsm_get_child a i) /\ summed_under (fsm_get_child a i) rel1.
Proof using Ha Hl.
  intros Hi [Hm Hc Hu Hs] (Hm1 & Hv & _ & Hs1 & Hu1). assert (Hout : forall b, vaddr b -> ~ under (fsm_get_child a i) b -> nodes rel1 b = nodes rel b) by (intros b Hb Hn; by apply Hs1).
  split; [|done]. split; [done|..].
  - intros s Hsi. destruct (child_ok a s Ha Hl ltac:(lia)) as (Hcs & _). rewrite (nodes_cat rel), (nodes_root rel); [by apply Hc|apply Hout; [done|]|apply Hout; [done|]].
    + intros Hx. apply (under_apart a s i (fsm_get_child a s)); [done|done|lia..| |done]. apply under_refl.
    + intros Hx. destruct (under_below a i a Ha Hl Hi Hx). lia.
  - intros s Hsi. apply (summed_same _ rel); [|by apply Hu]. intros b Hb Hx. apply Hout; [done|]. intros Hy. by apply (under_apart a s i b); [done|done|lia..| |].
  - intros b Hb Hn. rewrite Hs1; [by apply Hs|done|]. intros Hx. apply Hn. by apply (under_below a i b).
Qed.

(** A page [a] with the new value in its slot *)
Lemma slot_done i rel v q : 0 <= i < 4069 -> slots_done n a rel0 i rel -> v = root rel (fsm_get_child a i) -> summed_under (fsm_get_child a i) rel ->
  fsm_ok q -> slots q = <[Z.to_nat i := v]> (slots (page_at rel a)) -> first_leaf (fsm_get_child a i) <= 1055533 \/ v = 0 ->
  slots_done n a rel0 (i + 1) (with_page rel (phys a) q).
Proof using Ha Hl Hz.
  intros Hi [[Hp Hlen Hw] Hc Hu Hs] Hv Hui Hq Hsq Hend. set (rel' := with_page _ _ _).
  assert (Hat : forall b, vaddr b -> page_at rel' b = if decide (b = a) then q else page_at rel b) by (intros b Hb; apply with_page_at; (done || lia)).
  assert (Hne : forall b, vaddr b -> b <> a -> nodes rel' b = nodes rel b) by (intros b Hb Hne; by rewrite Hat, decide_False).
  assert (Hst : stored rel a i v rel') by (apply with_page_stored; (done || lia)).
  assert (Hcat : forall b t, vaddr b -> 0 <= t -> cat rel' b t = if decide (b = a /\ t = i) then v else cat rel b t) by (intros b t Hb Ht; by apply stored_cat; [apply all_pages| | | |]).
  assert (Hch : forall s, 0 <= s < 4069 -> root rel' (fsm_get_child a s) = root rel (fsm_get_child a s)).
  { intros s Hr. destruct (child_ok a s Ha Hl Hr) as (Hcs & Hls & _). apply nodes_root, Hne; [done|]. intros E. rewrite E in Hls. lia. }
  split; [split; [by apply with_page_all|unfold rel'; by rewrite with_page_len|]|..].
  - intros b s Hb Hlb Hr Hf. rewrite Hcat by (done || lia). case_decide as E; [|by apply Hw]. destruct E as [-> ->]. lia.
  - intros s Hsi. rewrite Hcat, Hch by (done || lia). case_decide as E; [destruct E as [_ ->]; done|]. apply Hc. assert (s <> i) by (intros ->; by apply E). lia.
  - intros s Hsi. assert (Hr : 0 <= s < 4069) by lia. apply (summed_same _ rel).
    + intros b Hb Hx. apply Hne; [done|]. intros ->. destruct (under_below a s a Ha Hl Hr Hx). lia.
    + destruct (Z.eq_dec s i) as [->|]; [done|]. apply Hu. lia.
  - intros b Hb Hn. rewrite Hne; [by apply Hs|done|]. intros ->. specialize (Hn (under_refl a)). lia.
Qed.
End slots.

Lemma with_page_id rel a : vaddr a -> phys a < zlen rel -> with_page rel (phys a) (page_at rel a) = rel.
Proof.
  intros Ha Hz. pose proof (phys_range a Ha). unfold with_page. apply list_insert_id. unfold page_at. destruct (lookup_lt_is_Some_2 rel (Z.to_nat (phys a))) as [p ->]; [unfold zlen in Hz; lia|done].
Qed.

Section loop.
Context (n : Z) (a : FSMAddress) (rel0 : list FSMPageData) (Ha : vaddr a) (Hl : 0 < level a) (Hz : phys a < n) (Hn : n <= 1055794).
Context (vacuum : list FSMPageData -> FSMAddress -> res (Z * bool * list FSMPageData)).
Context (Hvac : forall rel s, 0 <= s < 4069 -> map_ok n rel -> returns (vacuum rel (fsm_get_child a s)) (vacuumed n (fsm_get_child a s) rel)).

Lemma vacuum_slot (rel : list FSMPageData) (i v : Z) : 0 <= i < 4069 -> slots_done n a rel0 i rel -> v = root rel (fsm_get_child a i) -> summed_under (fsm_get_child a i) rel ->
  returns (page ← BufferGetPage rel (phys a); old ← fsm_get_avail page i;
           if negb (old =? v) then x ← fsm_set_avail page i v; Ok (with_page rel (phys a) x.1) else Ok rel) (slots_done n a rel0 (i + 1)).
Proof using Ha Hl Hz Hn.
  intros Hi Hd Hv Hu. pose proof (done_ok _ _ _ _ _ Hd) as [Hp Hlen _]. rewrite get_page by (done || lia). bind. pose proof (page_at_ok rel a Hp) as Hok.
  unfold fsm_get_avail. rewrite (rd_node _ (fsm_ok_page _ Hok)) by (fsmc; lia). bind. fsmc.
  assert (Hend : first_leaf (fsm_get_child a i) <= 1055533 \/ v = 0).
  { destruct (Z.le_gt_cases (first_leaf (fsm_get_child a i)) 1055533) as [|Hgt]; [by left|]. right. rewrite Hv. apply missing_root. destruct (child_ok a i Ha Hl Hi) as (Hc & _).
    pose proof (past_end _ Hc ltac:(lia)). lia. }
  destruct (Z.eqb_spec (node (page_at rel a) (4095 + i)) v) as [E|E]; cbn [negb].
  - cbn [returns]. rewrite <- (with_page_id rel a) by (done || lia). apply (slot_done n a rel0 Ha Hl Hz i rel v); try done. rewrite list_insert_id; [done|].
    pose proof (fsm_slots_length _ (fsm_ok_page _ Hok)). destruct (lookup_lt_is_Some_2 (slots (page_at rel a)) (Z.to_nat i)) as [w Hw]; [lia|]. rewrite Hw. f_equal.
    rewrite <- E. fsmc. rewrite <- (slots_node _ i) by lia. by rewrite Hw.
  - eapply returns_bind; [apply set_avail_ok; [by apply fsm_ok_page|fsmc; lia|rewrite Hv; by apply root_byte]|]. intros [q c] (_ & Hsq & _ & _ & Hq). cbn [fst] in *.
    by apply (slot_done n a rel0 Ha Hl Hz i rel v); [| | | |apply Hq| |].
Qed.

Lemma vacuum_slots_ok j : forall i eof rel, (i + j <= 4069)%nat -> slots_done n a rel0 (Z.of_nat i) rel ->
  (eof = true -> forall s, Z.of_nat i <= s < 4069 -> n <= phys (fsm_get_child a s)) ->
  returns (vacuum_slots vacuum a (phys a) (map Z.of_nat (seq i j)) eof rel) (slots_done n a rel0 (Z.of_nat (i + j))).
Proof using Ha Hl Hz Hn Hvac.
  induction j as [|j IH]; intros i eof rel Hij Hd Heof; cbn [seq map vacuum_slots]; [cbn [returns]; by rewrite Nat.add_0_r|].
  assert (Hi : 0 <= Z.of_nat i < 4069) by lia. destruct (child_ok a (Z.of_nat i) Ha Hl Hi) as (Hc & _).
  eapply (returns_bind _ _ (vacuumed n (fsm_get_child a (Z.of_nat i)) rel)).
  { destruct eof; [|by apply Hvac; [|by apply Hd]]. apply missing_vacuumed; [by apply Hd|done|]. apply Heof; [done|lia]. }
  intros [[v eof1] rel1] Hx. pose proof Hx as (_ & _ & He & _). destruct (child_done n a rel0 Ha Hl _ rel v eof1 rel1 Hi Hd Hx) as (Hd1 & Hv & Hu).
  pose proof (vacuum_slot rel1 _ v Hi Hd1 Hv Hu) as Hstep. destruct (BufferGetPage rel1 (phys a)) as [page| | |]; try done. bind. cbn in Hstep.
  destruct (fsm_get_avail page (Z.of_nat i)) as [old| | |]; try done. bind. eapply returns_bind; [exact Hstep|]. intros rel2 Hd2.
  replace (i + S j)%nat with (S i + j)%nat by lia. apply IH; [lia|by replace (Z.of_nat (S i)) with (Z.of_nat i + 1) by lia|].
  intros -> s Hs. symmetry in He. apply Z.leb_le in He. pose proof (child_mono a (Z.of_nat i) s Ha Hl ltac:(lia) ltac:(lia)). lia.
Qed.
End loop.

(** All slots of the page [a] are done. *)
Lemma all_summed n a rel0 k rel : n <= 1055794 -> vaddr a -> 0 < level a -> slots_done n a rel0 (Z.of_nat k) rel ->
  (forall s, 0 <= s < 4069 -> Z.of_nat k <= s -> 1055533 < first_leaf (fsm_get_child a s)) -> summed_under a rel.
Proof.
  intros Hn Ha Hl [[Hp Hlen Hw] Hc Hu _] Hk b s Hb Hlb Hs Hub. destruct (decide (b = a)) as [->|Hne].
  - destruct (Z.lt_ge_cases s (Z.of_nat k)); [apply Hc; lia|]. specialize (Hk s Hs ltac:(lia)). rewrite Hw by done. destruct (child_ok a s Ha Hl Hs) as (Hcv & _).
    pose proof (past_end _ Hcv Hk). by rewrite missing_root by lia.
  - destruct (under_split a b Ha Hb Hl Hub Hne) as (t & Ht & Htb). destruct (Z.lt_ge_cases t (Z.of_nat k)); [by apply (Hu t); [lia|..]|].
    specialize (Hk t Ht ltac:(lia)). destruct (child_ok a t Ha Hl Ht) as (Hcv & _). pose proof (past_end _ Hcv Hk). by apply (missing_under n _ rel Hlen Hcv); [lia|..].
Qed.

(** The end of fsm_vacuum_page: the hint is reset. *)
Lemma page_vacuumed n a rel rel1 : vaddr a -> phys a < n -> map_ok n rel1 -> same_but a rel rel1 -> summed_under a rel1 ->
  returns (page ← BufferGetPage rel1 (phys a); max_avail ← fsm_get_max_avail page;
           Ok (max_avail, false, with_page rel1 (phys a) {| fp_next_slot := 0; fp_nodes := fp_nodes page |})) (vacuumed n a rel).
Proof.
  intros Ha Hz [Hp Hlen Hw] Hs Hu. rewrite get_page by (done || lia). bind. unfold fsm_get_max_avail. rewrite rd_node by (try (by apply page_at_page, all_pages); fsmc; lia). bind.
  set (rel2 := with_page _ _ _). assert (Hnd : forall b, vaddr b -> nodes rel2 b = nodes rel1 b).
  { intros b Hb. unfold rel2. rewrite with_page_at by (done || lia). case_decide; [by subst|done]. }
  split; [split; [apply with_page_all; [done|by apply hint_moved_ok, page_at_ok]|unfold rel2; by rewrite with_page_len|]|].
  - intros b s Hb Hlb Hr Hf. rewrite (nodes_cat rel1) by (by apply Hnd). by apply Hw.
  - split; [symmetry; by apply nodes_root, Hnd|]. split; [symmetry; by apply Z.leb_gt|]. split; [intros b Hb Hx; rewrite Hnd by done; by apply Hs|].
    apply (summed_same _ rel1); [intros b Hb _; by apply Hnd|done].
Qed.
Lemma vacuum_page_ok n d : n <= 1055794 -> forall rel a, level a = Z.of_nat d -> vaddr a -> map_ok n rel ->
  returns (fsm_vacuum_page d 0 InvalidBlockNumber rel a) (vacuumed n a rel).
Proof.
  intros Hn. induction d as [|d IH]; intros rel a Hla Ha Hm; cbn [fsm_vacuum_page]; rewrite readbuf_plain; rewrite (map_len _ _ Hm).
  all: destruct (Z.ltb_spec (phys a) n) as [Hz|Hz]; [|by apply missing_vacuumed].
  - bind. apply page_vacuumed; try done. intros b s Hb Hlb Hr [Hx _]. lia.
  - destruct (slot_range_ok a Ha ltac:(lia)) as (k & -> & Hk & Hend). eapply returns_bind; [apply (vacuum_slots_ok n a rel Ha ltac:(lia) Hz Hn); [|lia| |done]|].
    + intros rel1 s Hs Hm1. destruct (child_ok a s Ha ltac:(lia) Hs) as (Hc & Hlc & _). apply IH; [lia|done|done].
    + split; [done|lia..|done].
    + intros rel1 Hd. cbn in Hd. apply page_vacuumed; [done|done|apply Hd..|]. eapply (all_summed n a rel k); try done. lia.
Qed.

(** *** A search in a map whose sums are right *)

Definition summed (rel : list FSMPageData) : Prop := summed_under FSM_ROOT_ADDRESS rel.

Lemma under_root b : vaddr b -> under FSM_ROOT_ADDRESS b.
Proof.
  intros Hb. unfold under. change (level FSM_ROOT_ADDRESS) with 2. change (first_leaf FSM_ROOT_ADDRESS) with 0. change (width 2) with (4069 * 4069). unfold first_leaf, width.
  addr_cases; simpl; lia.
Qed.
Lemma cat_le_root rel a s : Forall fsm_ok rel -> 0 <= s < 4069 -> cat rel a s <= root rel a.
Proof. intros Hr Hs. apply slot_below_root; [by apply page_at_ok|lia]. Qed.
Lemma root_le rel : Forall fsm_ok rel -> summed rel -> forall d a, vaddr a -> level a = 2 - Z.of_nat d -> root rel a <= root rel FSM_ROOT_ADDRESS.
Proof.
  intros Hr Hsum. induction d as [|d IH]; intros a Ha Hd.
  - replace a with FSM_ROOT_ADDRESS; [done|]. symmetry. apply addr_eq; [change (level FSM_ROOT_ADDRESS) with 2; lia|]. destruct Ha as [[? ->]|[[? ?]|[? ?]]]; [done|lia..].
  - pose proof (vaddr_level a Ha). destruct (parent_ok a Ha ltac:(lia)) as (Hb & Hlb & Hs & Hc). destruct (fsm_get_parent a) as [b s]. cbn [fst snd] in *.
    rewrite <- Hc at 1. rewrite <- (Hsum b s); [|done|lia|done|by apply under_root]. etransitivity; [by apply cat_le_root|]. apply IH; [done|lia].
Qed.
Lemma recorded_le_root rel blk : Forall fsm_ok rel -> summed rel -> 0 <= blk < 2 ^ 32 -> recorded rel blk <= root rel FSM_ROOT_ADDRESS.
Proof.
  intros Hr Hsum Hb. destruct (location_ok blk Hb) as (Ha & Hl & Hs & _). unfold recorded. etransitivity; [by apply cat_le_root|]. apply (root_le rel Hr Hsum 2); [done|lia].
Qed.

(** The search of a page changes its hint at most, and finds a slot when the root says so. *)
Definition same_nodes (rel rel' : list FSMPageData) : Prop :=
  zlen rel' = zlen rel /\ Forall fsm_ok rel' /\ forall b, vaddr b -> nodes rel' b = nodes rel b.

Lemma search_level_consistent rel a m : Forall fsm_ok rel -> vaddr a -> 1 <= m ->
  returns (search_level rel a m) (fun x => let '(s, _, rel') := x in same_nodes rel rel' /\
    if s =? -1 then root rel a < m else phys a < zlen rel /\ 0 <= s < 4069 /\ m <= cat rel a s).
Proof.
  intros Hr Ha Hm. unfold search_level. rewrite readbuf_plain. destruct (Z.ltb_spec (phys a) (zlen rel)) as [Hz|Hz]; [|split; [done|]; cbn; rewrite missing_root by done; lia].
  rewrite get_page by done. bind. pose proof (page_at_ok rel a Hr) as Hok. pose proof (search_avail_safe (page_at rel a) m (level a =? FSM_BOTTOM_LEVEL) (fsm_ok_page _ Hok) Hm) as Hsafe.
  rewrite search_avail_ok in * by done. destruct (searched _ _ _) as [s q] eqn:E. destruct Hsafe as (Hq & Hsq & Hokq & Hres). cbn [fst snd] in *. bind.
  assert (Hnq : fp_nodes q = nodes rel a) by (unfold searched in E; injection E as _ <-; by case_match).
  assert (Hsame : same_nodes rel (with_page rel (phys a) q)).
  { split; [apply with_page_len|]. split; [apply with_page_all; [done|by apply Hokq]|]. intros b Hb. rewrite with_page_at by done. case_decide; [by subst|done]. }
  assert (Hb : returns (if s =? -1 then fsm_get_max_avail q else Ok 0) (fun _ => True)).
  { destruct (s =? -1); [|done]. unfold fsm_get_max_avail. rewrite (rd_node q Hq) by (fsmc; lia). done. }
  eapply returns_bind; [exact Hb|]. intros mx _. split; [done|]. destruct (s =? -1); [unfold root, node in *; by rewrite <- Hnq|].
  fsmc. destruct Hres as [Hs1 Hs2]. split; [done|]. split; [done|]. unfold cat. rewrite <- (Z2Nat.id s) by lia. by rewrite leaf_slot.
Qed.

Lemma same_nodes_trans rel1 rel2 rel3 : same_nodes rel1 rel2 -> same_nodes rel2 rel3 -> same_nodes rel1 rel3.
Proof. intros (Hz & _ & Hn) (Hz' & Hp & Hn'). split; [lia|]. split; [done|]. intros b Hb. by rewrite Hn', Hn. Qed.

Lemma search_finds rel0 m : Forall fsm_ok rel0 -> summed rel0 -> fits rel0 -> 1 <= m -> m <= root rel0 FSM_ROOT_ADDRESS ->
  returns (fsm_search rel0 m) (fun x => 0 <= x.1 < InvalidBlockNumber).
Proof.
  intros Hr Hsum Hfits Hm Hroot. unfold fsm_search. apply (iter_returns (fun '(rel, a, _) => same_nodes rel0 rel /\ vaddr a /\ m <= root rel0 a) (fun '(_, a, _) => Z.to_nat (level a))).
  - intros [[rel a] restarts] (Hsn & Ha & Hma). pose proof Hsn as (Hz & Hp & Hn). unfold fsm_search_body. eapply returns_bind; [by apply search_level_consistent|].
    intros [[s mx] rel1] [Hsn1 Hres]. pose proof (same_nodes_trans _ _ _ Hsn Hsn1) as Hsn2. rewrite (nodes_root rel0) in Hres by (by apply Hn).
    destruct (s =? -1) eqn:Es; [lia|]. cbn [negb]. destruct Hres as (Hza & Hs & Hc). rewrite (nodes_cat rel0) in Hc by (by apply Hn). change FSM_BOTTOM_LEVEL with 0.
    pose proof (vaddr_level a Ha). destruct (Z.eqb_spec (level a) 0) as [E0|E0]; cbn [returns].
    + cbn [fst]. apply location_heap_blk; [done|apply (bottom_fits rel); [unfold fits in *; lia|done..]|done].
    + destruct (child_ok a s Ha ltac:(lia) Hs) as (Hvc & Hlc & _). split; [split; [done|]; split; [done|]|rewrite Hlc; lia].
      rewrite <- (Hsum a s); [done|done|lia|done|by apply under_root].
  - split; [by split|]. split; [apply root_vaddr|done].
  - change (level FSM_ROOT_ADDRESS) with 2. lia.
Qed.
Lemma search_none rel0 m : Forall fsm_ok rel0 -> 1 <= m -> root rel0 FSM_ROOT_ADDRESS < m -> returns (fsm_search rel0 m) (fun x => x.1 = InvalidBlockNumber).
Proof.
  intros Hr Hm Hroot. unfold fsm_search. apply (iter_returns (fun x => x = (rel0, FSM_ROOT_ADDRESS, 0)) (fun _ => O)); [|done|lia].
  intros x ->. unfold fsm_search_body. eapply returns_bind; [apply search_level_consistent; [done|apply root_vaddr|done]|]. intros [[s mx] rel1] [_ Hres].
  destruct (s =? -1) eqn:Es; cbn [negb]; [by change (level FSM_ROOT_ADDRESS =? FSM_ROOT_LEVEL) with true|].
  destruct Hres as (_ & Hs & Hc). pose proof (cat_le_root rel0 FSM_ROOT_ADDRESS s Hr Hs). lia.
Qed.

(** *** A vacuum of part of the map *)

Definition same_bottom (rel rel' : list FSMPageData) : Prop := forall b, vaddr b -> level b = 0 -> slots (page_at rel' b) = slots (page_at rel b).

Lemma slot_range_slots a start end_ : 0 < level a -> Forall (fun s => 0 <= s < 4069) (slot_range a start end_).
Proof.
  intros Hl. unfold slot_range. cbv zeta. set (f := fun x : FSMAddress * Z => fsm_get_parent x.1).
  assert (Hup : forall x, 0 <= (Nat.iter (Z.to_nat (level a)) f x).2 < 4069).
  { intros x. destruct (Z.to_nat (level a)) as [|k] eqn:E; [lia|]. cbn [Nat.iter nat_rect]. unfold f at 1, fsm_get_parent. cbn [snd]. fsmc. apply Z.mod_pos_bound. lia. }
  pose proof (Hup (fsm_get_location start)) as H1. pose proof (Hup (fsm_get_location (wrap32 (end_ - 1)))) as H2.
  destruct (Nat.iter _ f (fsm_get_location start)) as [s1 t1], (Nat.iter _ f _) as [s2 t2]. cbn [snd] in *. fsmc.
  apply Forall_forall. intros z Hz. apply list_elem_of_fmap in Hz as (i & -> & Hi). apply list_elem_of_fmap in Hi as (j & -> & Hj). apply elem_of_seq in Hj.
  destruct (logpageno s1 =? logpageno a), (logpageno s1 >? logpageno a), (logpageno s2 =? logpageno a), (logpageno s2 >? logpageno a); lia.
Qed.

Definition tended (n : Z) (a : FSMAddress) (rel : list FSMPageData) (x : Z * bool * list FSMPageData) : Prop :=
  let '(v, _, rel') := x in map_ok n rel' /\ is_byte v /\ (n <= phys a -> v = 0) /\ same_bottom rel rel'.

Section range.
Context (n : Z) (a : FSMAddress) (Ha : vaddr a) (Hl : 0 < level a) (Hz : phys a < n) (Hn : n <= 1055794).
Context (vacuum : list FSMPageData -> FSMAddress -> res (Z * bool * list FSMPageData)).
Context (Hvac : forall rel s, 0 <= s < 4069 -> map_ok n rel -> returns (vacuum rel (fsm_get_child a s)) (tended n (fsm_get_child a s) rel)).

Lemma range_slots l : Forall (fun s => 0 <= s < 4069) l -> forall eof rel, map_ok n rel ->
  returns (vacuum_slots vacuum a (phys a) l eof rel) (fun rel' => map_ok n rel' /\ same_bottom rel rel').
Proof using Ha Hl Hz Hn Hvac.
  induction 1 as [|i l Hi _ IH]; intros eof rel Hm; [done|]. cbn [vacuum_slots]. destruct (child_ok a i Ha Hl Hi) as (Hc & _).
  eapply (returns_bind _ _ (tended n (fsm_get_child a i) rel)); [destruct eof; [done|by apply Hvac]|].
  intros [[v eof1] rel1] ([Hp Hlen Hw] & Hv & Hv0 & Hs1). rewrite get_page by (done || lia). bind. pose proof (page_at_ok rel1 a Hp) as Hok.
  unfold fsm_get_avail. rewrite (rd_node _ (fsm_ok_page _ Hok)) by (fsmc; lia). bind.
  eapply (returns_bind _ _ (fun rel2 => map_ok n rel2 /\ same_bottom rel rel2)).
  - case_match; [|done]. eapply returns_bind; [apply set_avail_ok; [by apply fsm_ok_page|fsmc; lia|done]|]. intros [q c] (_ & Hsq & _ & _ & Hq). cbn [fst] in *.
    assert (Hst : stored rel1 a i v (with_page rel1 (phys a) q)) by (apply with_page_stored; [done|done|lia|by apply Hq|done]). split; [split|].
    + apply with_page_all; [done|by apply Hq].
    + by rewrite with_page_len.
    + eapply (stored_within rel1 a i v); try done; [by apply all_pages|]. intros _ Hf. apply Hv0. pose proof (past_end _ Hc Hf). lia.
    + intros b Hb Hlb. destruct Hst as (_ & _ & Hst & _). rewrite Hst by done. rewrite decide_False; [by apply Hs1|]. intros ->. lia.
  - intros rel2 [Hm2 Hs2]. eapply returns_mono; [by apply IH|]. intros rel3 [Hm3 Hs3]. split; [done|]. intros b Hb Hlb. by rewrite Hs3, Hs2.
Qed.
End range.

Lemma vacuum_range_page n d start end_ : n <= 1055794 -> forall rel a, level a = Z.of_nat d -> vaddr a -> map_ok n rel ->
  returns (fsm_vacuum_page d start end_ rel a) (tended n a rel).
Proof.
  intros Hn. induction d as [|d IH]; intros rel a Hla Ha Hm; cbn [fsm_vacuum_page]; rewrite readbuf_plain; rewrite (map_len _ _ Hm).
  all: destruct (Z.ltb_spec (phys a) n) as [Hz|Hz]; [|done].
  all: apply (returns_bind _ _ (fun rel1 => map_ok n rel1 /\ same_bottom rel rel1)).
  1: done.
  2: apply range_slots; [done|lia|done|done| |apply slot_range_slots; lia|done]; intros rel1 s Hs Hm1; destruct (child_ok a s Ha ltac:(lia) Hs) as (Hc & Hlc & _); apply IH; [lia|done|done].
  all: intros rel1 [Hm1 Hs1]; pose proof Hm1 as [Hp Hlen Hw]; rewrite get_page by (done || lia); bind; unfold fsm_get_max_avail; rewrite rd_node by (try (by apply page_at_page, all_pages); fsmc; lia); bind.
  all: split; [split; [apply with_page_all; [done|by apply hint_moved_ok, page_at_ok]|by rewrite with_page_len|]|split; [by apply root_byte|split; [lia|]]].
  1, 3: eapply slots_within; [|done]; intros b Hb _; rewrite with_page_at by (done || lia); case_decide; [by subst|done].
  all: intros b Hb Hlb; rewrite with_page_at by (done || lia); case_decide; [subst b; by apply Hs1|by apply Hs1].
Qed.

(** ** Truncation *)

Lemma page_at_take rel n b : vaddr b -> 0 <= n -> page_at (take (Z.to_nat n) rel) b = if phys b <? n then page_at rel b else empty_page.
Proof.
  intros Hb Hn. pose proof (phys_range b Hb). unfold page_at. destruct (Z.ltb_spec (phys b) n).
  - by rewrite lookup_take_lt by lia.
  - by rewrite lookup_take_ge by lia.
Qed.
Lemma location_phys blk : 0 <= blk < 2 ^ 32 -> phys (fsm_get_location blk).1 = blk / 4069 + blk / 4069 / 4069 + 2.
Proof. intros Hb. destruct (location_ok blk Hb) as (Ha & Hl & _). rewrite phys_eq by done. rewrite Hl. done. Qed.
Lemma take_recorded rel n blk : 0 <= blk < 2 ^ 32 -> 0 <= n -> recorded (take (Z.to_nat n) rel) blk = if phys (fsm_get_location blk).1 <? n then recorded rel blk else 0.
Proof.
  intros Hb Hn. destruct (location_ok blk Hb) as (Ha & _). unfold recorded, cat. rewrite page_at_take by done. case_match; [done|]. apply empty_node.
Qed.
Lemma missing_recorded rel blk : zlen rel <= phys (fsm_get_location blk).1 -> recorded rel blk = 0.
Proof. apply missing_cat. Qed.
Lemma take_sound rel n : 0 <= n -> sound_map rel -> sound_map (take (Z.to_nat n) rel).
Proof.
  intros Hn [Hp Hw]. split; [by apply Forall_take|]. intros b s Hb Hl Hs Hf. unfold cat. rewrite page_at_take by done. case_match; [by apply Hw|apply empty_node].
Qed.

(** The file as its caller truncates it *)
Definition shortened (x : Z * list FSMPageData) : list FSMPageData := if x.1 =? InvalidBlockNumber then x.2 else take (Z.to_nat x.1) x.2.

(** The slots from that of block [nblocks] on are cleared, and the pages after its page are cut off. *)
Lemma cleared_recorded rel a s q nblocks blk : Forall fsm_page rel -> 0 <= nblocks < 2 ^ 32 -> 0 <= blk < 2 ^ 32 -> fsm_get_location nblocks = (a, s) -> phys a < zlen rel ->
  slots q = take (Z.to_nat s) (slots (page_at rel a)) ++ zrep (SlotsPerFSMPage - s) 0 ->
  (if blk / 4069 + blk / 4069 / 4069 + 2 <? phys a + 1 then recorded (with_page rel (phys a) q) blk else 0) = if blk <? nblocks then recorded rel blk else 0.
Proof.
  intros Hr Hn Hb Eloc Hz Hsq. pose proof (location_ok nblocks Hn) as (Ha & Hla & Hs & _). pose proof (location_phys nblocks Hn) as Hph.
  pose proof (location_ok blk Hb) as (Hc & Hlc & Ht & _). assert (Hsl : (fsm_get_location nblocks).2 = nblocks mod 4069) by done. assert (Hlg : logpageno (fsm_get_location nblocks).1 = nblocks / 4069) by done.
  rewrite Eloc in *. cbn [fst snd] in *. destruct (Z.ltb_spec (blk / 4069 + blk / 4069 / 4069 + 2) (phys a + 1)) as [Hin|Hout].
  2: { destruct (Z.ltb_spec blk nblocks); [|done]. exfalso. Z.div_mod_to_equations. lia. }
  unfold recorded. assert (Htl : (fsm_get_location blk).2 = blk mod 4069) by done. assert (Hcl : logpageno (fsm_get_location blk).1 = blk / 4069) by done.
  destruct (fsm_get_location blk) as [c t]. cbn [fst snd] in *. unfold cat. rewrite with_page_at by done. destruct (decide (c = a)) as [->|Hne].
  - rewrite <- (Z2Nat.id t) by lia. rewrite !leaf_slot, Hsq. pose proof (fsm_slots_length _ (page_at_page rel a Hr)) as Hlen. destruct (Z.ltb_spec blk nblocks).
    + rewrite lookup_app_l by (rewrite length_take; Z.div_mod_to_equations; lia). rewrite lookup_take_lt; [done|]. Z.div_mod_to_equations; lia.
    + rewrite lookup_app_r by (rewrite length_take; Z.div_mod_to_equations; lia). unfold zrep. destruct (replicate _ _ !! _) eqn:E; [|done]. by apply lookup_replicate in E as [-> _].
  - assert (blk / 4069 <> nblocks / 4069) by (intros E; apply Hne, addr_eq; lia). destruct (Z.ltb_spec blk nblocks); [done|]. exfalso. Z.div_mod_to_equations. lia.
Qed.

Lemma truncate_map_ok rel nblocks : Forall fsm_page rel -> 0 <= nblocks < InvalidBlockNumber ->
  returns (FreeSpaceMapPrepareTruncateRel rel nblocks) (fun x => Forall fsm_page (shortened x) /\ zlen (shortened x) <= zlen rel /\ (sound_map rel -> sound_map (shortened x)) /\
    forall blk, 0 <= blk < 2 ^ 32 -> recorded (shortened x) blk = if blk <? nblocks then recorded rel blk else 0).
Proof.
  unfold InvalidBlockNumber. intros Hr Hnb. assert (Hnb' : 0 <= nblocks < 2 ^ 32) by lia. pose proof (location_ok nblocks Hnb') as (Ha & Hla & Hs & _). pose proof (location_phys nblocks Hnb') as Hph.
  pose proof (phys_range _ Ha) as Hpr. change (2 ^ 30) with 1073741824 in Hpr.
  assert (Hlate : zlen rel <= phys (fsm_get_location nblocks).1 -> forall blk, 0 <= blk < 2 ^ 32 -> recorded rel blk = if blk <? nblocks then recorded rel blk else 0).
  { intros Hz blk Hb. destruct (Z.ltb_spec blk nblocks); [done|]. apply missing_recorded. rewrite location_phys in * by done. Z.div_mod_to_equations. lia. }
  assert (Hsl : (fsm_get_location nblocks).2 = nblocks mod 4069) by done.
  unfold FreeSpaceMapPrepareTruncateRel. destruct (Z.eqb_spec (zlen rel) 0) as [E0|E0].
  { cbn [returns]. change (shortened (InvalidBlockNumber, rel)) with rel. split; [done|]. split; [lia|]. split; [done|]. apply Hlate. lia. }
  destruct (fsm_get_location nblocks) as [a s] eqn:Eloc. cbn [fst snd] in *. destruct (Z.gtb_spec s 0) as [Hs0|Hs0].
  - rewrite readbuf_plain. destruct (Z.ltb_spec (phys a) (zlen rel)) as [Hz|Hz]; [|by split; [|split; [cbn; lia|split; [|apply Hlate]]]].
    rewrite get_page by done. bind. eapply returns_bind; [apply truncate_ok; [by apply page_at_page|fsmc; lia]|]. intros [q c] (Hq & Hok & Hsq). cbn [fst snd returns] in *.
    unfold wrap32. rewrite Z.mod_small by lia. unfold shortened. cbn [fst snd]. replace (phys a + 1 =? InvalidBlockNumber) with false by (unfold InvalidBlockNumber; lia).
    split; [by apply Forall_take, with_page_all|]. split; [unfold zlen, with_page; rewrite length_take, length_insert; lia|]. split.
    + intros [Hp Hw]. apply take_sound; [lia|]. split; [apply with_page_all; [done|by apply Hok, page_at_ok]|]. eapply slots_within; [|done]. intros b Hb Hlb. rewrite with_page_at by done.
      rewrite decide_False; [done|]. intros ->. lia.
    + intros blk Hb. rewrite take_recorded by (done || lia). rewrite location_phys by done. by apply (cleared_recorded rel a s q nblocks).
  - cbn [returns]. destruct (Z.leb_spec (zlen rel) (phys a)) as [Hz|Hz]; [by split; [|split; [cbn; lia|split; [|apply Hlate]]]|].
    unfold shortened. cbn [fst snd]. replace (phys a =? InvalidBlockNumber) with false by (unfold InvalidBlockNumber; lia).
    split; [by apply Forall_take|]. split; [unfold zlen; rewrite length_take; lia|]. split; [apply take_sound; lia|]. intros blk Hb. rewrite take_recorded by (done || lia). rewrite location_phys by done.
    destruct (Z.ltb_spec (blk / 4069 + blk / 4069 / 4069 + 2) (phys a)), (Z.ltb_spec blk nblocks); try done; exfalso; Z.div_mod_to_equations; lia.
Qed.

(** ** The interface *)

Lemma needed_total needed : 0 <= needed <= 8160 -> exists c, fsm_space_needed_to_cat needed = Ok c /\ forall r, is_byte r -> (r < c <-> fsm_space_cat_to_avail r < Z.max 1 needed).
Proof.
  intros Hn. unfold fsm_space_needed_to_cat, fsm_space_cat_to_avail, is_byte. change MaxFSMRequestSize with 8160. change FSM_CAT_STEP with 32. cbv zeta.
  replace (needed >? 8160) with false by lia. destruct (Z.eqb_spec needed 0) as [->|]; (eexists; split; [reflexivity|]); intros r Hr.
  - destruct (Z.eqb_spec r 255); lia.
  - destruct (Z.gtb_spec ((needed + 32 - 1) / 32) 255), (Z.eqb_spec r 255); Z.div_mod_to_equations; lia.
Qed.
Lemma recorded_byte rel blk : Forall fsm_page rel -> is_byte (recorded rel blk).
Proof. intros Hr. apply node_byte. by apply page_at_page. Qed.

(** What a search returns: no block, or one with the space that was asked for *)
Definition found (needed : Z) (x : Z * list FSMPageData) : Prop :=
  x.1 = InvalidBlockNumber \/ (0 <= x.1 < InvalidBlockNumber /\ exists r, GetRecordedFreeSpace x.2 x.1 = Ok r /\ needed <= r).
Definition same_space (rel rel' : list FSMPageData) : Prop := forall blk, 0 <= blk < 2 ^ 32 -> GetRecordedFreeSpace rel' blk = GetRecordedFreeSpace rel blk.

Lemma kept_space rel rel' : Forall fsm_page rel -> kept rel rel' -> same_space rel rel'.
Proof. intros Hr Hk blk Hb. rewrite !get_recorded_ok by (done || apply Hk). by rewrite (kept_recorded rel rel'). Qed.
Lemma recorded_space rel blk needed c : Forall fsm_page rel -> 0 <= needed -> fsm_space_needed_to_cat needed = Ok c -> 0 <= blk < 2 ^ 32 -> c <= recorded rel blk ->
  exists r, GetRecordedFreeSpace rel blk = Ok r /\ needed <= r.
Proof.
  intros Hr Hn Hc Hb Hle. destruct (needed_ok needed c Hn Hc) as [_ Hc2]. rewrite get_recorded_ok by done. eexists. split; [done|]. apply Hc2. pose proof (recorded_byte rel blk Hr) as Hby. unfold is_byte in Hby. lia.
Qed.
Lemma found_space rel needed c x : 0 <= needed -> fsm_space_needed_to_cat needed = Ok c -> found_block rel c x -> found needed x.
Proof.
  intros Hn Hc [Hk [H|[Hb Hle]]]; [by left|]. right. split; [done|]. eapply recorded_space; try done; [apply Hk|]. unfold InvalidBlockNumber in Hb. lia.
Qed.
Lemma get_page_ok rel needed : Forall fsm_page rel -> fits rel -> 0 <= needed <= 8160 -> returns (GetPageWithFreeSpace rel needed) (fun x => kept rel x.2 /\ found needed x).
Proof.
  intros Hr Hf Hn. destruct (needed_total needed Hn) as (c & Hc & _). unfold GetPageWithFreeSpace. rewrite Hc. bind. destruct (needed_ok needed c ltac:(lia) Hc) as [Hc1 _].
  eapply returns_mono; [apply search_ok; [done|lia|done]|]. intros x Hx. split; [apply Hx|]. eapply found_space; try done. lia.
Qed.

(** A block whose page in the map [fits] *)
Abbreviation mapped blk := (0 <= blk < 4294963777).
Lemma stored_fits rel blk v rel' : fits rel -> mapped blk -> stored rel (fsm_get_location blk).1 (fsm_get_location blk).2 v rel' -> fits rel'.
Proof.
  unfold fits. intros Hf Hb (_ & _ & _ & ->). rewrite location_phys by lia. Z.div_mod_to_equations. lia.
Qed.
Lemma stored_sound rel blk v rel' : 0 <= blk < 2 ^ 32 -> stored rel (fsm_get_location blk).1 (fsm_get_location blk).2 v rel' -> sound_map rel -> sound_map rel'.
Proof.
  intros Hb Hst [Hp Hw]. destruct (location_ok blk Hb) as (_ & Hl & Hs & _). split; [by apply Hst|]. eapply stored_within; [by apply all_pages|exact Hst|done|lia|done].
Qed.
Lemma record_and_get_ok rel blk avail needed : Forall fsm_page rel -> fits rel -> mapped blk -> 0 <= avail < 8192 -> 0 <= needed <= 8160 ->
  returns (RecordAndGetPageWithFreeSpace rel blk avail needed) (fun x => found needed x /\
    exists rel1, stored rel (fsm_get_location blk).1 (fsm_get_location blk).2 (fsm_space_avail_to_cat avail) rel1 /\ kept rel1 x.2).
Proof.
  intros Hr Hf Hb Ha Hn. destruct (needed_total needed Hn) as (c & Hc & _). unfold RecordAndGetPageWithFreeSpace. cbv zeta. rewrite Hc. bind. destruct (needed_ok needed c ltac:(lia) Hc) as [Hc1 _].
  destruct (location_ok blk ltac:(lia)) as (Hv & Hl & Hs & _). assert (Hlg : logpageno (fsm_get_location blk).1 = blk / 4069) by done.
  pose proof (stored_fits rel blk) as Hfits. destruct (fsm_get_location blk) as [a s]. cbn [fst snd] in *.
  eapply returns_bind; [apply (set_and_search_ok rel a s (fsm_space_avail_to_cat avail) c); try done; [by apply cat_to_avail_le|lia]|]. intros [t rel1] [Hst Ht]. cbn [fst snd] in *.
  pose proof Hst as (Hp1 & _). destruct (t =? -1); cbn [negb].
  - eapply returns_mono; [apply search_ok; [by eapply Hfits|lia|done]|]. intros x Hx. split; [eapply found_space; try done; lia|]. exists rel1. split; [done|apply Hx].
  - destruct Ht as (_ & Htr & Hcat). assert (Hlg' : 0 <= logpageno a < 1055533) by (rewrite Hlg; Z.div_mod_to_equations; lia). destruct (location_heap_blk a t Hl Hlg' Htr) as [Hblk Hloc].
    cbn [returns]. split; [|exists rel1; split; [done|]; split; [done|]; split; [done|]; by split].
    right. split; [done|]. cbn [fst snd]. eapply recorded_space; try done; [lia|unfold InvalidBlockNumber in *; lia|]. unfold recorded. by rewrite Hloc.
Qed.
Lemma vacuum_ok rel : sound_map rel -> fits rel -> returns (FreeSpaceMapVacuum rel) (fun rel' => kept rel rel' /\ sound_map rel' /\ summed rel').
Proof.
  intros [Hp Hw] Hf. unfold FreeSpaceMapVacuum. eapply returns_bind; [apply (vacuum_page_ok (zlen rel) (Z.to_nat FSM_ROOT_LEVEL) Hf); [done|apply root_vaddr|by split]|].
  intros [[v eof] rel'] ([Hp' Hlen' Hw'] & _ & _ & Hs & Hu). cbn [returns snd]. split; [|done]. split; [by apply all_pages|]. split; [done|]. split; [|done].
  intros a Ha Hl. unfold slots. rewrite Hs; [done|done|]. by intros _.
Qed.
Lemma vacuum_range_ok rel start end_ : sound_map rel -> fits rel -> returns (FreeSpaceMapVacuumRange rel start end_) (fun rel' => kept rel rel' /\ sound_map rel').
Proof.
  intros [Hp Hw] Hf. unfold FreeSpaceMapVacuumRange. destruct (end_ >? start).
  - eapply returns_bind; [apply (vacuum_range_page (zlen rel) (Z.to_nat FSM_ROOT_LEVEL) start end_ Hf); [done|apply root_vaddr|by split]|].
    intros [[v eof] rel'] ([Hp' Hlen' Hw'] & _ & _ & Hs). cbn [returns snd]. split; [|done]. split; [by apply all_pages|]. split; [done|]. by split.
  - cbn [returns]. split; [|done]. split; [by apply all_pages|]. by split_and!.
Qed.

(** The maps that the operations make, from an empty file *)
Inductive reachable : list FSMPageData -> Prop :=
  | reach_new : reachable []
  | reach_record rel blk avail rel' :
      reachable rel -> mapped blk -> 0 <= avail < 8192 -> RecordPageWithFreeSpace rel blk avail = Ok rel' -> reachable rel'
  | reach_get rel needed x : reachable rel -> 0 <= needed <= 8160 -> GetPageWithFreeSpace rel needed = Ok x -> reachable x.2
  | reach_record_get rel blk avail needed x :
      reachable rel -> mapped blk -> 0 <= avail < 8192 -> 0 <= needed <= 8160 -> RecordAndGetPageWithFreeSpace rel blk avail needed = Ok x -> reachable x.2
  | reach_truncate rel nblocks x :
      reachable rel -> 0 <= nblocks < InvalidBlockNumber -> FreeSpaceMapPrepareTruncateRel rel nblocks = Ok x -> reachable (shortened x)
  | reach_vacuum rel rel' : reachable rel -> FreeSpaceMapVacuum rel = Ok rel' -> reachable rel'
  | reach_vacuum_range rel start end_ rel' : reachable rel -> FreeSpaceMapVacuumRange rel start end_ = Ok rel' -> reachable rel'.

Lemma kept_sound rel rel' : kept rel rel' -> sound_map rel -> fits rel -> sound_map rel' /\ fits rel'.
Proof. intros (_ & Hz & _ & Hs) Hm Hf. split; [by apply Hs|]. unfold fits in *. lia. Qed.

Lemma reachable_ok rel : reachable rel -> sound_map rel /\ fits rel.
Proof.
  induction 1 as [|rel blk avail rel' _ [Hm Hf] Hb Ha E|rel needed x _ [Hm Hf] Hn E|rel blk avail needed x _ [Hm Hf] Hb Ha Hn E|rel nblocks x _ [Hm Hf] Hn E|rel rel' _ [Hm Hf] E|rel start end_ rel' _ [Hm Hf] E].
  1: split; [split; [done|]|by unfold fits]; intros b s Hb _ _ _; apply missing_cat; change (zlen []) with 0; pose proof (phys_range b Hb); lia.
  all: pose proof (all_pages rel (proj1 Hm)) as Hp.
  - pose proof (record_ok rel blk avail Hp ltac:(lia) Ha) as Hx. rewrite E in Hx. split; [eapply stored_sound; [|exact Hx|done]; lia|by eapply stored_fits].
  - pose proof (get_page_ok rel needed Hp Hf Hn) as Hx. rewrite E in Hx. apply (kept_sound rel); [apply Hx|done|done].
  - pose proof (record_and_get_ok rel blk avail needed Hp Hf Hb Ha Hn) as Hx. rewrite E in Hx. destruct Hx as (_ & rel1 & Hst & Hk).
    apply (kept_sound rel1); [done|eapply stored_sound; [|exact Hst|done]; lia|by eapply stored_fits].
  - pose proof (truncate_map_ok rel nblocks Hp Hn) as Hx. rewrite E in Hx. destruct Hx as (_ & Hz & Hs & _). split; [by apply Hs|]. unfold fits in *. lia.
  - pose proof (vacuum_ok rel Hm Hf) as Hx. rewrite E in Hx. by apply (kept_sound rel); [apply Hx|..].
  - pose proof (vacuum_range_ok rel start end_ Hm Hf) as Hx. rewrite E in Hx. by apply (kept_sound rel); [apply Hx|..].
Qed.

(** The pages of the tree of the map are at places of their own in the file: children and parents are inverse to each other, a page comes before its children,
    and the slots of blocks are different. *)
Theorem fsm_addresses_correct :
  (forall a b, vaddr a -> vaddr b -> fsm_logical_to_physical a = fsm_logical_to_physical b -> a = b) /\
  (forall a s, vaddr a -> 0 < level a -> 0 <= s < 4069 ->
     fsm_get_parent (fsm_get_child a s) = (a, s) /\ fsm_logical_to_physical a < fsm_logical_to_physical (fsm_get_child a s)) /\
  (forall blk, 0 <= blk < 2 ^ 32 -> fsm_get_heap_blk (fsm_get_location blk).1 (fsm_get_location blk).2 = blk).
Proof.
  split; [apply phys_inj|]. split; [intros a s Ha Hl Hs; by destruct (child_ok a s Ha Hl Hs) as (_ & _ & ? & _ & ?)|]. intros blk Hb. by destruct (location_ok blk Hb) as (_ & _ & _ & ? & _).
Qed.

(** C29: The space that is recorded for a block is read back, rounded down to a category of at most 32 bytes, whatever state the pages of the map are in,
    and nothing changes for the other blocks, also when the file has to be extended. *)
Theorem fsm_record_roundtrip rel blk avail :
  Forall fsm_page rel -> 0 <= blk < 2 ^ 32 -> 0 <= avail < 8192 ->
  returns (RecordPageWithFreeSpace rel blk avail) (fun rel' =>
    Forall fsm_page rel' /\
    (exists r, GetRecordedFreeSpace rel' blk = Ok r /\ r <= avail < r + 32) /\
    forall other, 0 <= other < 2 ^ 32 -> other <> blk -> GetRecordedFreeSpace rel' other = GetRecordedFreeSpace rel other).
Proof.
  intros Hr Hb Ha. eapply returns_mono; [by apply record_ok|]. intros rel' Hst. pose proof Hst as (Hp & _). split; [done|].
  assert (Hrec : forall b, 0 <= b < 2 ^ 32 -> recorded rel' b = if decide (b = blk) then fsm_space_avail_to_cat avail else recorded rel b) by (intros b Hbb; by apply stored_recorded).
  split.
  - rewrite get_recorded_ok by done. eexists. split; [done|]. rewrite Hrec, decide_True by done. by apply cat_to_avail_le.
  - intros o Ho Hne. rewrite !get_recorded_ok by done. by rewrite Hrec, decide_False.
Qed.

(** C17: A search for a page ends for every state of the map, torn pages and wrong upper levels included: it returns no block, or one for which the map has
    the space that was asked for, and it changes the space of no block.  A request that no page can satisfy is an error. *)
Theorem fsm_search_sound rel needed :
  Forall fsm_page rel -> fits rel -> 0 <= needed ->
  (needed <= 8160 -> returns (GetPageWithFreeSpace rel needed) (fun x => Forall fsm_page x.2 /\ same_space rel x.2 /\ found needed x)) /\
  (8160 < needed -> GetPageWithFreeSpace rel needed = Ereport ERRCODE_INTERNAL_ERROR).
Proof.
  intros Hr Hf Hn. split; intros H.
  - eapply returns_mono; [apply get_page_ok; (done || lia)|]. intros x [Hk Hx]. split; [apply Hk|]. split; [by apply kept_space|done].
  - unfold GetPageWithFreeSpace, fsm_space_needed_to_cat. change MaxFSMRequestSize with 8160. by replace (needed >? 8160) with true by lia.
Qed.

(** C16: After a vacuum of a map that the operations have made, a search fails only when no block has the space that is asked for; the vacuum changes the
    space of no block. *)
Theorem fsm_vacuum_complete rel needed :
  reachable rel -> 0 <= needed <= 8160 ->
  returns (FreeSpaceMapVacuum rel) (fun rel' => same_space rel rel' /\
    returns (GetPageWithFreeSpace rel' needed) (fun x =>
      x.1 = InvalidBlockNumber <-> forall blk r, 0 <= blk < 2 ^ 32 -> GetRecordedFreeSpace rel blk = Ok r -> r < Z.max 1 needed)).
Proof.
  intros [Hm Hf]%reachable_ok Hn. pose proof (all_pages rel (proj1 Hm)) as Hp. eapply returns_mono; [by apply vacuum_ok|]. intros rel' (Hk & [Hp' Hw'] & Hsum). split; [by apply kept_space|].
  destruct (kept_sound rel rel' Hk Hm Hf) as [_ Hf']. destruct (needed_total needed Hn) as (c & Hc & Hcat). destruct (needed_ok needed c ltac:(lia) Hc) as [Hc1 _].
  assert (Hspace : (forall blk r, 0 <= blk < 2 ^ 32 -> GetRecordedFreeSpace rel blk = Ok r -> r < Z.max 1 needed) <-> forall blk, 0 <= blk < 2 ^ 32 -> recorded rel' blk < c).
  { split.
    - intros H blk Hb. rewrite (kept_recorded rel rel') by done. apply Hcat; [by apply recorded_byte|]. apply (H blk); [done|]. by apply get_recorded_ok.
    - intros H blk r Hb. rewrite get_recorded_ok by done. intros [= <-]. apply Hcat; [by apply recorded_byte|]. rewrite <- (kept_recorded rel rel') by done. by apply H. }
  unfold GetPageWithFreeSpace. rewrite Hc. bind. destruct (Z.lt_ge_cases (root rel' FSM_ROOT_ADDRESS) c) as [Hlt|Hge].
  - eapply returns_mono; [apply search_none; [done|lia|done]|]. intros x ->. rewrite Hspace. split; [|done]. intros _ blk Hb. pose proof (recorded_le_root rel' blk Hp' Hsum Hb). lia.
  - pose proof (search_ok rel' c Hf' ltac:(lia) (all_pages _ Hp')) as Hs1. pose proof (search_finds rel' c Hp' Hsum Hf' ltac:(lia) Hge) as Hs2.
    destruct (fsm_search rel' c) as [x| | |]; try done. cbn [returns] in *. split; [intros E; rewrite E in Hs2; lia|]. rewrite Hspace. intros H. exfalso.
    destruct Hs1 as [Hk2 [E|[Hb Hle]]]; [rewrite E in Hs2; lia|]. unfold InvalidBlockNumber in Hb. rewrite (kept_recorded rel' x.2) in Hle by (done || lia). specialize (H x.1 ltac:(lia)). lia.
Qed.

(** When a relation is truncated, the map keeps the space of the blocks that remain, and has none for those that are cut off. *)
Theorem fsm_truncate_correct rel nblocks :
  Forall fsm_page rel -> 0 <= nblocks < InvalidBlockNumber ->
  returns (FreeSpaceMapPrepareTruncateRel rel nblocks) (fun x => Forall fsm_page (shortened x) /\
    forall blk, 0 <= blk < 2 ^ 32 -> GetRecordedFreeSpace (shortened x) blk = if blk <? nblocks then GetRecordedFreeSpace rel blk else Ok 0).
Proof.
  intros Hr Hn. eapply returns_mono; [by apply truncate_map_ok|]. intros x (Hp & _ & _ & Hrec). split; [done|]. intros blk Hb. rewrite !get_recorded_ok by done. rewrite Hrec by done. by case_match.
Qed.

(** A map whose only page, the root, is torn *)
Lemma fsm_record_roundtrip_witness : returns (RecordPageWithFreeSpace [torn_page] 70000 100) (fun rel' =>
  exists r, GetRecordedFreeSpace rel' 70000 = Ok r /\ r <= 100 < r + 32).
Proof.
  eapply returns_mono; [apply (fsm_record_roundtrip [torn_page] 70000 100); [apply Forall_singleton, torn_page_ok|lia|lia]|]. by intros rel' (_ & H & _).
Defined.
Lemma torn_fits : fits [torn_page].
Proof. unfold fits. change (zlen [torn_page]) with 1. lia. Qed.
Lemma fsm_search_sound_witness : returns (GetPageWithFreeSpace [torn_page] 100) (fun x => found 100 x).
Proof.
  refine (returns_mono _ _ _ (proj1 (fsm_search_sound [torn_page] 100 (proj2 (Forall_singleton _ _) torn_page_ok) torn_fits _) _) _); [lia|lia|].
  intros x H. exact (proj2 (proj2 H)).
Defined.
(** A map in which block 70000 has 100 bytes, but the levels above do not say so yet *)
Lemma one_block : exists rel, reachable rel /\ GetRecordedFreeSpace rel 70000 = Ok 96.
Proof.
  destruct (returns_eq _ _ (record_ok [] 70000 100 (Forall_nil_2 _) ltac:(lia) ltac:(lia))) as (rel & E & H). exists rel.
  split; [exact (reach_record [] 70000 100 rel reach_new ltac:(lia) ltac:(lia) E)|]. rewrite get_recorded_ok; [|apply H|lia].
  rewrite (stored_recorded [] 70000 _ rel 70000 (Forall_nil_2 _) ltac:(lia) ltac:(lia) H). rewrite decide_True by reflexivity. reflexivity.
Qed.
Lemma fsm_vacuum_complete_witness : exists rel, GetRecordedFreeSpace rel 70000 = Ok 96 /\
  returns (FreeSpaceMapVacuum rel) (fun rel' => returns (GetPageWithFreeSpace rel' 80) (fun x => x.1 <> InvalidBlockNumber)).
Proof.
  destruct one_block as (rel & Hr & Hs). exists rel. split; [exact Hs|]. eapply returns_mono; [apply (fsm_vacuum_complete rel 80 Hr); lia|].
  intros rel' [_ H]. eapply returns_mono; [exact H|]. intros x Hx E. apply (proj1 Hx) with (blk := 70000) (r := 96) in E; [lia|lia|exact Hs].
Defined.
Lemma fsm_truncate_correct_witness : returns (FreeSpaceMapPrepareTruncateRel [torn_page] 5000) (fun x => GetRecordedFreeSpace (shortened x) 6000 = Ok 0).
Proof.
  eapply returns_mono; [apply (fsm_truncate_correct [torn_page] 5000); [apply Forall_singleton, torn_page_ok|unfold InvalidBlockNumber; lia]|].
  intros x [_ H]. rewrite H by lia. by replace (6000 <? 5000) with false by lia.
Defined.
