(* ===== verification/HeapSpace.v ===== *)
(** Where a new tuple goes: RelationGetBufferForTuple and RelationAddBlocks of
    src/backend/access/heap/hio.c, on the heap pages and the free space map of a relation.

    A buffer is the number of its block.  One backend works on the relation: locks, pins and
    the visibility map are left out, and so is the retry of a page that others have filled
    while it was unlocked, except for its test.  A page that was added to the file but not
    initialized yet is all zeros. *)

From S2P Require Import Prelude FsmPage Fsm.
From S2P Require Import Rle Varatt Pglz PglzHist PglzItems PglzCodec ToastCompression Oids ToastStore Page Detoast HeapTuple HeapToast HeapInsert.

Definition HEAP_INSERT_SKIP_FSM : Z := 0x0002.
Definition HEAP_DEFAULT_FILLFACTOR : Z := 100.
Definition MAX_BUFFERS_TO_EXTEND_BY : Z := 64.
Definition MaxBlockNumber : Z := 0xFFFFFFFE.

(** The main fork, the free space map, the cached target block and the option fillfactor *)
Record RelationData := {
  rd_main : list PageData;
  rd_fsm : list FSMPageData;
  rd_targblock : Z;
  rd_fillfactor : option Z
}.
Definition set_main (r : RelationData) (l : list PageData) : RelationData :=
  {| rd_main := l; rd_fsm := rd_fsm r; rd_targblock := rd_targblock r; rd_fillfactor := rd_fillfactor r |}.
Definition set_fsm (r : RelationData) (f : list FSMPageData) : RelationData :=
  {| rd_main := rd_main r; rd_fsm := f; rd_targblock := rd_targblock r; rd_fillfactor := rd_fillfactor r |}.
Definition RelationSetTargetBlock (r : RelationData) (b : Z) : RelationData :=
  {| rd_main := rd_main r; rd_fsm := rd_fsm r; rd_targblock := b; rd_fillfactor := rd_fillfactor r |}.
Definition RelationGetNumberOfBlocks (r : RelationData) : Z := zlen (rd_main r).
Definition RelationGetFillFactor (r : RelationData) (defaultff : Z) : Z := default defaultff (rd_fillfactor r).
Definition RelationGetTargetPageFreeSpace (r : RelationData) (defaultff : Z) : Z := BLCKSZ * (100 - RelationGetFillFactor r defaultff) / 100.

(** None is InvalidBuffer. *)
Record BulkInsertStateData := {
  current_buf : option Z;
  next_free : Z;
  last_free : Z;
  already_extended_by : Z
}.
Definition set_current (bi : BulkInsertStateData) (b : option Z) : BulkInsertStateData :=
  {| current_buf := b; next_free := next_free bi; last_free := last_free bi; already_extended_by := already_extended_by bi |}.

Definition new_page : PageData :=
  {| pd_flags := 0; pd_lower := 0; pd_upper := 0; pd_special := 0; pd_pagesize_version := 0; pd_prune_xid := 0; pd_linp := []; pd_bytes := zrep BLCKSZ 0 |}.
Definition PageIsNew (p : PageData) : bool := pd_upper p =? 0.

(** ** Buffers *)

Definition heap_page (r : RelationData) (buf : Z) : res PageData :=
  match rd_main r !! Z.to_nat buf with Some p => Ok p | None => Ub end.
(** A block after the end of the file cannot be read. *)
Definition ReadBuffer (r : RelationData) (blk : Z) : res Z :=
  if blk <? zlen (rd_main r) then Ok blk else Ereport ERRCODE_DATA_CORRUPTED.
Definition ReadBufferBI (r : RelationData) (targetBlock : Z) (bistate : option BulkInsertStateData) : res (Z * option BulkInsertStateData) :=
  match bistate with
  | None => b ← ReadBuffer r targetBlock; Ok (b, bistate)
  | Some bi =>
      match current_buf bi with
      | Some cur => if cur =? targetBlock then Ok (cur, bistate)
                    else b ← ReadBuffer r targetBlock; Ok (b, Some (set_current bi (Some b)))
      | None => b ← ReadBuffer r targetBlock; Ok (b, Some (set_current bi (Some b)))
      end
  end.

(** [max_pins] is NBuffers / max_backends less the buffers already pinned. *)
Definition LimitAdditionalPins (max_pins additional_pins : Z) : Z :=
  if additional_pins <=? 1 then additional_pins else
  let max_proportional_pins := if max_pins <=? 0 then 1 else max_pins in
  if additional_pins >? max_proportional_pins then max_proportional_pins else additional_pins.
(** The first block that was added, and how many *)
Definition ExtendBufferedRelBy (r : RelationData) (max_pins extend_by : Z) : res (Z * Z * RelationData) :=
  let extend_by := LimitAdditionalPins max_pins extend_by in
  let first_block := zlen (rd_main r) in
  if first_block + extend_by >=? MaxBlockNumber then Ereport ERRCODE_PROGRAM_LIMIT_EXCEEDED else
  Ok (first_block, extend_by, set_main r (rd_main r ++ replicate (Z.to_nat extend_by) new_page)).

(** ** Extending the relation *)

(** for (i = 1; i < extend_by_pages; i++) *)
Fixpoint record_added (n : nat) (first_block not_in_fsm_pages i : Z) (fsm : list FSMPageData) : res (list FSMPageData) :=
  match n with
  | O => Ok fsm
  | S n =>
      fsm ← (if i >=? not_in_fsm_pages then RecordPageWithFreeSpace fsm (wrap32 (first_block + i)) (BLCKSZ - SizeOfPageHeaderData) else Ok fsm);
      record_added n first_block not_in_fsm_pages (i + 1) fsm
  end.

Definition extend_by_how_many (bistate : option BulkInsertStateData) (num_pages : Z) (use_fsm : bool) (waitcount : Z) : Z :=
  if match bistate with None => negb use_fsm | Some _ => false end then 1 else
  let extend_by_pages := wrap32 num_pages in
  let extend_by_pages := wrap32 (extend_by_pages + extend_by_pages * waitcount) in
  let extend_by_pages := match bistate with Some bi => Z.max extend_by_pages (already_extended_by bi) | None => extend_by_pages end in
  Z.min extend_by_pages MAX_BUFFERS_TO_EXTEND_BY.

(** The buffer, did_unlock, the relation and the state of the bulk insert; [waitcount] is the
    number of backends that wait for the extension lock. *)
Definition RelationAddBlocks (r : RelationData) (bistate : option BulkInsertStateData) (num_pages : Z) (use_fsm : bool) (waitcount max_pins : Z)
    : res (Z * bool * RelationData * option BulkInsertStateData) :=
  let extend_by_pages := extend_by_how_many bistate num_pages use_fsm waitcount in
  let not_in_fsm_pages := if (num_pages >? 1) && match bistate with None => true | Some _ => false end then 1 else num_pages in
  let bistate := match bistate with Some bi => Some (set_current bi None) | None => None end in
  x ← ExtendBufferedRelBy r max_pins extend_by_pages;
  let '(first_block, extend_by_pages, r) := x in
  let last_block := first_block + (extend_by_pages - 1) in
  page ← heap_page r first_block;
  if negb (PageIsNew page) then Ereport ERRCODE_INTERNAL_ERROR else
  let r := set_main r (<[Z.to_nat first_block := PageInit BLCKSZ 0]> (rd_main r)) in
  let did_unlock := use_fsm && (not_in_fsm_pages <? extend_by_pages) in
  fsm ← (if use_fsm then record_added (Z.to_nat (extend_by_pages - 1)) first_block not_in_fsm_pages 1 (rd_fsm r) else Ok (rd_fsm r));
  fsm ← (if use_fsm && (not_in_fsm_pages <? extend_by_pages) then FreeSpaceMapVacuumRange fsm (first_block + not_in_fsm_pages) last_block else Ok fsm);
  let r := set_fsm r fsm in
  let bistate := match bistate with
    | Some bi =>
        let more := extend_by_pages >? 1 in
        Some {| current_buf := Some first_block;
                next_free := if more then first_block + 1 else InvalidBlockNumber;
                last_free := if more then last_block else InvalidBlockNumber;
                already_extended_by := wrap32 (already_extended_by bi + extend_by_pages) |}
    | None => None
    end in
  Ok (first_block, did_unlock, r, bistate).

(** ** The page for a tuple *)

Record request := {
  rq_len : Z;               (* aligned *)
  rq_target : Z;            (* targetFreeSpace *)
  rq_use_fsm : bool;
  rq_other : option Z;      (* otherBuffer *)
  rq_num_pages : Z;
  rq_waitcount : Z;
  rq_max_pins : Z
}.
Abbreviation space_state := (RelationData * option BulkInsertStateData * Z)%type.

(** Where to look next when [targetBlock] has too little space; InvalidBlockNumber leaves the
    loop, which the break does too. *)
Definition next_target (q : request) (r : RelationData) (bistate : option BulkInsertStateData) (targetBlock pageFreeSpace : Z) : res space_state :=
  let without_bulk :=
    if negb (rq_use_fsm q) then Ok (r, bistate, InvalidBlockNumber)
    else
      x ← RecordAndGetPageWithFreeSpace (rd_fsm r) targetBlock pageFreeSpace (rq_target q);
      Ok (set_fsm r x.2, bistate, x.1) in
  match bistate with
  | Some bi =>
      if negb (next_free bi =? InvalidBlockNumber) then
        fsm ← (if rq_use_fsm q then RecordPageWithFreeSpace (rd_fsm r) targetBlock pageFreeSpace else Ok (rd_fsm r));
        let last := next_free bi >=? last_free bi in
        Ok (set_fsm r fsm,
            Some {| current_buf := current_buf bi;
                    next_free := if last then InvalidBlockNumber else wrap32 (next_free bi + 1);
                    last_free := if last then InvalidBlockNumber else last_free bi;
                    already_extended_by := already_extended_by bi |},
            next_free bi)
      else without_bulk
  | None => without_bulk
  end.

(** After the loop: a new page, which cannot be too full unless others got at it *)
Definition extend_for_tuple (q : request) (r : RelationData) (bistate : option BulkInsertStateData) : res (space_state + Z * RelationData * option BulkInsertStateData) :=
  y ← RelationAddBlocks r bistate (rq_num_pages q) (rq_use_fsm q) (rq_waitcount q) (rq_max_pins q);
  let '(buffer, unlockedTargetBuffer, r, bistate) := y in
  page ← heap_page r buffer;
  if rq_len q >? PageGetHeapFreeSpace page then
    if (unlockedTargetBuffer : bool) then Ok (inl (r, bistate, buffer)) else Ereport ERRCODE_INTERNAL_ERROR
  else Ok (inr (buffer, RelationSetTargetBlock r buffer, bistate)).
(** A round of the while loop, or what comes after it *)
Definition buffer_body (q : request) (x : space_state) : res (space_state + Z * RelationData * option BulkInsertStateData) :=
  let '(r, bistate, targetBlock) := x in
  if negb (targetBlock =? InvalidBlockNumber) then
    y ← match rq_other q with
        | None => ReadBufferBI r targetBlock bistate
        | Some otherBlock => if otherBlock =? targetBlock then Ok (otherBlock, bistate) else b ← ReadBuffer r targetBlock; Ok (b, bistate)
        end;
    let '(buffer, bistate) := y in
    page ← heap_page r buffer;
    let '(page, r) := if PageIsNew page then (PageInit BLCKSZ 0, set_main r (<[Z.to_nat buffer := PageInit BLCKSZ 0]> (rd_main r))) else (page, r) in
    let pageFreeSpace := PageGetHeapFreeSpace page in
    if rq_target q <=? pageFreeSpace then Ok (inr (buffer, RelationSetTargetBlock r targetBlock, bistate))
    else s ← next_target q r bistate targetBlock pageFreeSpace; Ok (inl s)
  else extend_for_tuple q r bistate.

Definition nearlyEmptyFreeSpace : Z := MaxHeapTupleSize - MaxHeapTuplesPerPage / 8 * sizeof_ItemIdData.
(** At most every block of the file, every block of a bulk extension and a new one are tried. *)
Definition RelationGetBufferForTuple (r : RelationData) (len : Z) (otherBuffer : option Z) (options : Z) (bistate : option BulkInsertStateData)
    (num_pages waitcount max_pins : Z) : res (Z * RelationData * option BulkInsertStateData) :=
  let use_fsm := Z.land options HEAP_INSERT_SKIP_FSM =? 0 in
  let len := MAXALIGN len in
  let num_pages := if num_pages <=? 0 then 1 else num_pages in
  if len >? MaxHeapTupleSize then Ereport ERRCODE_PROGRAM_LIMIT_EXCEEDED else
  let saveFreeSpace := RelationGetTargetPageFreeSpace r HEAP_DEFAULT_FILLFACTOR in
  let targetFreeSpace := if len + saveFreeSpace >? nearlyEmptyFreeSpace then Z.max len nearlyEmptyFreeSpace else len + saveFreeSpace in
  let targetBlock := match bistate with
    | Some bi => match current_buf bi with Some b => b | None => rd_targblock r end
    | None => rd_targblock r
    end in
  x ← (if (targetBlock =? InvalidBlockNumber) && use_fsm then
         y ← GetPageWithFreeSpace (rd_fsm r) targetFreeSpace; Ok (y.1, set_fsm r y.2)
       else Ok (targetBlock, r));
  let '(targetBlock, r) := x in
  let targetBlock := if targetBlock =? InvalidBlockNumber then
      let nblocks := RelationGetNumberOfBlocks r in
      if nblocks >? 0 then nblocks - 1 else targetBlock
    else targetBlock in
  let q := {| rq_len := len; rq_target := targetFreeSpace; rq_use_fsm := use_fsm; rq_other := otherBuffer;
              rq_num_pages := num_pages; rq_waitcount := waitcount; rq_max_pins := max_pins |} in
  iter (2 * length (rd_main r) + 10) (buffer_body q) (r, bistate, targetBlock).

(** heap_insert with the page it chooses *)
Definition heap_insert_into (E : env) (rel : heaprel) (relkind relid : Z) (r : RelationData) (bistate : option BulkInsertStateData) (tup : HeapTuple)
    (xid cid options waitcount max_pins : Z) : res (RelationData * option BulkInsertStateData * (Z * Z) * store) :=
  x ← heap_prepare_insert E rel relkind relid false tup xid cid options;
  let '(heaptup, st, _) := x in
  y ← RelationGetBufferForTuple r (t_len heaptup) None options bistate 0 waitcount max_pins;
  let '(buffer, r, bistate) := y in
  page ← heap_page r buffer;
  z ← RelationPutHeapTuple page buffer heaptup (negb (Z.land options HEAP_INSERT_SPECULATIVE =? 0));
  let '(page, heaptup) := z in
  let page := if PageIsAllVisible page then PageClearAllVisible page else page in
  Ok (set_main r (<[Z.to_nat buffer := page]> (rd_main r)), bistate, t_self heaptup, st).
