(* ===== verification/HeapSpaceOk.v ===== *)
(** A page is always found for a tuple: the search among the pages of the relation ends, the
    page has the space, and the free space map keeps to the blocks of the relation. *)

From S2P Require Import Prelude FsmPage Fsm FsmOk.
From S2P Require Import Rle Varatt Pglz PglzHist PglzItems PglzCodec ToastCompression Oids ToastStore Detoast ToastSave Page PageOk PageOps PageCompact.
From S2P Require Import HeapTuple HeapTupleForm HeapTupleDeform HeapToast HeapToastValues HeapToastRounds HeapToastUpdate HeapInsert HeapSpace.

(** ** Counting the blocks that may still be tried *)

Lemma filter_le {A} (P Q : A -> Prop) `{!forall x, Decision (P x), !forall x, Decision (Q x)} l :
  (forall x, x ∈ l -> P x -> Q x) -> (length (filter P l) <= length (filter Q l))%nat.
Proof.
  induction l as [|x l IH]; intros Hi; [done|]. rewrite !filter_cons. specialize (IH ltac:(intros y Hy; apply Hi; by right)).
  destruct (decide (P x)) as [HP|HP], (decide (Q x)) as [HQ|HQ]; cbn [length]; [lia| |lia|lia]. destruct HQ. apply Hi; [by left|done].
Qed.
Lemma filter_lt {A} (P Q : A -> Prop) `{!forall x, Decision (P x), !forall x, Decision (Q x)} l z :
  (forall x, x ∈ l -> P x -> Q x) -> z ∈ l -> Q z -> ~ P z -> (length (filter P l) < length (filter Q l))%nat.
Proof.
  induction l as [|x l IH]; intros Hi Hz Hq Hp; [by apply not_elem_of_nil in Hz|]. assert (Hl : forall y, y ∈ l -> P y -> Q y) by (intros y Hy; apply Hi; by right).
  pose proof (filter_le P Q l Hl) as Hle. rewrite !filter_cons. apply elem_of_cons in Hz as [->|Hz].
  - rewrite decide_False, decide_True by done. cbn [length]. lia.
  - specialize (IH Hl Hz Hq Hp). destruct (decide (P x)) as [HP|HP], (decide (Q x)) as [HQ|HQ]; cbn [length]; [lia| |lia|lia]. destruct HQ. apply Hi; [by left|done].
Qed.

(** The blocks, other than [t], for which the map has category [c] or more *)
Definition candidates (fsm : list FSMPageData) (c t : Z) (n : nat) : list nat :=
  filter (fun b : nat => c <= recorded fsm (Z.of_nat b) /\ Z.of_nat b <> t) (seq 0 n).

Lemma candidates_le fsm fsm' c t t' n : (forall b, 0 <= b < Z.of_nat n -> c <= recorded fsm' b -> b <> t' -> c <= recorded fsm b /\ b <> t) ->
  (length (candidates fsm' c t' n) <= length (candidates fsm c t n))%nat.
Proof. intros H. apply filter_le. intros b Hb [H1 H2]. apply elem_of_seq in Hb. apply H; [lia|done|done]. Qed.
Lemma candidates_lt fsm fsm' c t t' n : (forall b, 0 <= b < Z.of_nat n -> c <= recorded fsm' b -> c <= recorded fsm b /\ b <> t) ->
  0 <= t' < Z.of_nat n -> c <= recorded fsm' t' -> (length (candidates fsm' c t' n) < length (candidates fsm c t n))%nat.
Proof.
  intros H Ht Hc. apply (filter_lt _ _ _ (Z.to_nat t')).
  - intros b Hb [H1 H2]. apply elem_of_seq in Hb. apply H; [lia|done].
  - apply elem_of_seq. lia.
  - rewrite Z2Nat.id by lia. by apply H.
  - rewrite Z2Nat.id by lia. by intros [_ ?].
Qed.
Lemma candidates_bound fsm c t n : (length (candidates fsm c t n) <= n)%nat.
Proof. unfold candidates. etransitivity; [apply length_filter|]. by rewrite length_seq. Qed.

(** ** Relations *)

Definition heap_ok (p : PageData) : Prop := page_wf p /\ zlen (PageOps.slots p) <= MaxHeapTuplesPerPage.
Definition main_page (p : PageData) : Prop := p = new_page \/ heap_ok p.
Record rel_ok (r : RelationData) : Prop := {
  rel_pages : Forall main_page (rd_main r);
  rel_fsm : reachable (rd_fsm r);
  rel_size : zlen (rd_main r) <= 4294963777;
  rel_within : forall blk, zlen (rd_main r) <= blk < 2 ^ 32 -> recorded (rd_fsm r) blk = 0
}.
Abbreviation block_of n b := (0 <= b < n) (only parsing).
Definition bulk_ok (n : Z) (bistate : option BulkInsertStateData) : Prop :=
  match bistate with
  | None => True
  | Some bi => (forall b, current_buf bi = Some b -> block_of n b) /\ 0 <= already_extended_by bi < 2 ^ 32 /\
               (next_free bi = InvalidBlockNumber \/ 0 <= next_free bi <= last_free bi /\ last_free bi < n)
  end.
(** Pages may have been initialized, and pages may have been added. *)
Definition rel_extends (r r' : RelationData) : Prop :=
  forall i p, rd_main r !! i = Some p -> rd_main r' !! i = Some p \/ p = new_page /\ rd_main r' !! i = Some (PageInit BLCKSZ 0).

Lemma extends_trans r1 r2 r3 : rel_extends r1 r2 -> rel_extends r2 r3 -> rel_extends r1 r3.
Proof.
  intros H1 H2 i p Hp. destruct (H1 i p Hp) as [H|[-> H]]; [by apply H2|]. destruct (H2 _ _ H) as [H'|[E H']]; [by right|]. right. by split.
Qed.
Lemma init_page_ok : heap_ok (PageInit BLCKSZ 0).
Proof. destruct (init_wf 0) as [Hw Hs]; [lia|]. split; [done|]. rewrite Hs. done. Qed.
Lemma init_page_space : PageGetHeapFreeSpace (PageInit BLCKSZ 0) = 8164.
Proof. reflexivity. Qed.
Lemma main_page_cases p : main_page p -> if PageIsNew p then p = new_page else heap_ok p.
Proof.
  intros [->|Hp]; [done|]. unfold PageIsNew. destruct (Z.eqb_spec (pd_upper p) 0); [|done]. exfalso. destruct Hp as [Hw _]. pose proof (pw_lower _ Hw). pose proof (pw_bounds _ Hw). pose proof (zlen_nonneg (pd_linp p)). unfold linp_end, SizeOfPageHeaderData, sizeof_ItemIdData in *. lia.
Qed.
Lemma block_page r b : rel_ok r -> block_of (zlen (rd_main r)) b -> exists p, heap_page r b = Ok p /\ rd_main r !! Z.to_nat b = Some p /\ main_page p.
Proof.
  intros Hr Hb. destruct (lookup_lt_is_Some_2 (rd_main r) (Z.to_nat b)) as [p Hp]; [unfold zlen in Hb; lia|]. exists p. unfold heap_page. rewrite Hp. split; [done|]. split; [done|].
  exact (Forall_lookup_1 _ _ _ _ (rel_pages r Hr) Hp).
Qed.

(** ** The free space map of a relation *)

Lemma fsm_facts fsm : reachable fsm -> Forall fsm_page fsm /\ sound_map fsm /\ fits fsm.
Proof. intros [Hm Hf]%reachable_ok. split; [by apply all_pages, Hm|done]. Qed.

Lemma record_reachable fsm blk avail : reachable fsm -> mapped blk -> 0 <= avail < 8192 ->
  returns (RecordPageWithFreeSpace fsm blk avail) (fun fsm' => reachable fsm' /\
    forall b, 0 <= b < 2 ^ 32 -> recorded fsm' b = if decide (b = blk) then fsm_space_avail_to_cat avail else recorded fsm b).
Proof.
  intros Hr Hb Ha. destruct (fsm_facts fsm Hr) as (Hp & _). destruct (returns_eq _ _ (record_ok fsm blk avail Hp ltac:(lia) Ha)) as (fsm' & E & Hst). rewrite E. cbn [returns].
  split; [exact (reach_record _ _ _ _ Hr Hb Ha E)|]. intros b Hbb. apply stored_recorded; (done || lia).
Qed.
Lemma get_reachable fsm needed c : reachable fsm -> 0 <= needed <= 8160 -> fsm_space_needed_to_cat needed = Ok c ->
  returns (GetPageWithFreeSpace fsm needed) (fun x => reachable x.2 /\ (forall b, 0 <= b < 2 ^ 32 -> recorded x.2 b = recorded fsm b) /\
    (x.1 = InvalidBlockNumber \/ block_of InvalidBlockNumber x.1 /\ c <= recorded x.2 x.1)).
Proof.
  intros Hr Hn Hc. destruct (fsm_facts fsm Hr) as (Hp & _ & Hf). destruct (needed_ok needed c ltac:(lia) Hc) as [Hc1 _].
  assert (E : GetPageWithFreeSpace fsm needed = fsm_search fsm c) by (unfold GetPageWithFreeSpace; by rewrite Hc).
  destruct (returns_eq _ _ (search_ok fsm c Hf ltac:(lia) Hp)) as (x & Ex & Hk & Hx). rewrite E, Ex. cbn [returns]. rewrite <- E in Ex.
  split; [exact (reach_get _ _ _ Hr Hn Ex)|]. split; [|done]. intros b Hb. by apply kept_recorded.
Qed.

(** A page with too little space is recorded below the category that is asked for. *)
Lemma too_small free needed c : 0 <= free < needed -> needed <= 8160 -> fsm_space_needed_to_cat needed = Ok c -> fsm_space_avail_to_cat free < c.
Proof.
  intros Hf Hn. unfold fsm_space_needed_to_cat, fsm_space_avail_to_cat. change MaxFSMRequestSize with 8160. change FSM_CAT_STEP with 32. cbv zeta.
  replace (needed >? 8160) with false by lia. replace (needed =? 0) with false by lia. intros [= <-]. replace (free >=? 8160) with false by lia.
  destruct (Z.gtb_spec (free / 32) 254), (Z.gtb_spec ((needed + 32 - 1) / 32) 255); Z.div_mod_to_equations; lia.
Qed.

(** *** Extending the relation *)

Lemma record_added_ok first k n : 0 <= first -> forall i fsm, reachable fsm -> 1 <= i -> first + i + Z.of_nat n <= 4294963777 ->
  returns (record_added n first k i fsm) (fun fsm' => reachable fsm' /\ forall b, first + i + Z.of_nat n <= b < 2 ^ 32 -> recorded fsm' b = recorded fsm b).
Proof.
  intros Hf. induction n as [|n IH]; intros i fsm Hr Hi Hb; cbn [record_added]; [done|].
  eapply (returns_bind _ _ (fun fsm' => reachable fsm' /\ forall b, first + i + 1 <= b < 2 ^ 32 -> recorded fsm' b = recorded fsm b)).
  - case_match; [|done]. unfold wrap32. rewrite Z.mod_small by lia. eapply returns_mono; [apply record_reachable; [done|lia|done]|].
    intros fsm' [Hr' Hrec]. split; [done|]. intros b Hbb. rewrite Hrec by lia. rewrite decide_False by lia. done.
  - intros fsm1 [Hr1 H1]. eapply returns_mono; [apply IH; [done|lia|lia]|]. intros fsm' [Hr' H']. split; [done|]. intros b Hbb. rewrite H', H1 by lia. done.
Qed.
Lemma vacuum_range_reachable fsm start end_ : reachable fsm ->
  returns (FreeSpaceMapVacuumRange fsm start end_) (fun fsm' => reachable fsm' /\ forall b, 0 <= b < 2 ^ 32 -> recorded fsm' b = recorded fsm b).
Proof.
  intros Hr. destruct (fsm_facts fsm Hr) as (Hp & Hm & Hf). destruct (returns_eq _ _ (vacuum_range_ok fsm start end_ Hm Hf)) as (fsm' & E & Hk & _). rewrite E. cbn [returns].
  split; [exact (reach_vacuum_range _ _ _ _ Hr E)|]. intros b Hb. by apply kept_recorded.
Qed.

Lemma extend_bounds bistate num_pages use_fsm waitcount n : bulk_ok n bistate -> 1 <= num_pages -> 0 <= waitcount -> num_pages * (waitcount + 1) < 2 ^ 32 ->
  1 <= extend_by_how_many bistate num_pages use_fsm waitcount <= 64.
Proof.
  intros Hbi Hn Hw Hm. unfold extend_by_how_many. destruct (match bistate with None => _ | Some _ => _ end); [lia|]. cbv zeta. unfold MAX_BUFFERS_TO_EXTEND_BY.
  assert (num_pages < 2 ^ 32) by nia. unfold wrap32. rewrite (Z.mod_small num_pages) by lia. rewrite Z.mod_small by nia. assert (1 <= num_pages + num_pages * waitcount) by nia.
  destruct bistate; lia.
Qed.
Lemma limit_bounds max_pins n : 1 <= n -> 1 <= LimitAdditionalPins max_pins n <= n.
Proof.
  intros Hn. unfold LimitAdditionalPins. destruct (Z.leb_spec n 1); [lia|]. cbv zeta. destruct (Z.leb_spec max_pins 0).
  - destruct (Z.gtb_spec n 1); lia.
  - destruct (Z.gtb_spec n max_pins); lia.
Qed.

(** What RelationAddBlocks leaves *)
Definition blocks_added (r : RelationData) (x : Z * bool * RelationData * option BulkInsertStateData) : Prop :=
  let '(buffer, _, r', bistate') := x in
  rel_ok r' /\ bulk_ok (zlen (rd_main r')) bistate' /\ rel_extends r r' /\ buffer = zlen (rd_main r) /\ rd_main r' !! length (rd_main r) = Some (PageInit BLCKSZ 0).

Lemma add_blocks_ok r bistate num_pages use_fsm waitcount max_pins :
  rel_ok r -> bulk_ok (zlen (rd_main r)) bistate -> zlen (rd_main r) <= 4294963713 -> 1 <= num_pages -> 0 <= waitcount -> num_pages * (waitcount + 1) < 2 ^ 32 ->
  returns (RelationAddBlocks r bistate num_pages use_fsm waitcount max_pins) (blocks_added r).
Proof.
  intros [Hp Hf Hs Hw] Hbi Hsize Hn Hwc Hm. pose proof (zlen_nonneg (rd_main r)) as Hz. unfold RelationAddBlocks.
  pose proof (extend_bounds bistate num_pages use_fsm waitcount _ Hbi Hn Hwc Hm) as He. set (e := extend_by_how_many _ _ _ _) in *. clearbody e.
  unfold ExtendBufferedRelBy. pose proof (limit_bounds max_pins e ltac:(lia)) as Hl. set (k := LimitAdditionalPins max_pins e) in *. clearbody k.
  replace (zlen (rd_main r) + k >=? MaxBlockNumber) with false by (unfold MaxBlockNumber; lia). bind. cbn [rd_main set_main rd_fsm]. set (n := zlen (rd_main r)) in *.
  assert (Hat : (rd_main r ++ replicate (Z.to_nat k) new_page) !! Z.to_nat n = Some new_page).
  { rewrite lookup_app_r by (unfold n, zlen; lia). apply lookup_replicate. split; [done|]. unfold n, zlen. lia. }
  unfold heap_page. cbn [rd_main set_main]. rewrite Hat. bind. change (negb (PageIsNew new_page)) with false. cbv iota.
  eapply (returns_bind _ _ (fun fsm => reachable fsm /\ forall b, n + k <= b < 2 ^ 32 -> recorded fsm b = 0)).
  { destruct use_fsm; [|split; [done|]; intros b Hb; apply Hw; lia]. eapply returns_mono; [apply record_added_ok; [lia|done|lia|lia]|].
    intros fsm [Hr Hrec]. split; [done|]. intros b Hb. rewrite Hrec by lia. apply Hw. lia. }
  intros fsm1 [Hr1 Hw1]. eapply (returns_bind _ _ (fun fsm => reachable fsm /\ forall b, n + k <= b < 2 ^ 32 -> recorded fsm b = 0)).
  { destruct (use_fsm && _); [|done]. eapply returns_mono; [by apply vacuum_range_reachable|]. intros fsm [Hr Hrec]. split; [done|]. intros b Hb. rewrite Hrec by lia. by apply Hw1. }
  intros fsm2 [Hr2 Hw2]. cbn [returns blocks_added rd_main set_fsm set_main]. set (l := <[Z.to_nat n := PageInit BLCKSZ 0]> _).
  assert (Hzl : zlen l = n + k) by (unfold l, n, zlen; rewrite length_insert, length_app, length_replicate; lia). split_and!.
  - split; cbn [rd_main set_fsm set_main rd_fsm]; [|done|lia|by rewrite Hzl]. apply Forall_insert; [|right; apply init_page_ok]. apply Forall_app. split; [done|]. apply Forall_replicate. by left.
  - destruct bistate as [bi|]; [|done]. destruct Hbi as (_ & Ha & _). cbn [bulk_ok set_current current_buf next_free last_free already_extended_by]. rewrite Hzl. split_and!; [intros b [= <-]; lia|apply Z.mod_pos_bound; lia..|].
    destruct (Z.gtb_spec k 1); [right; lia|by left].
  - intros i p Hi. left. assert (Hlt : (i < length (rd_main r))%nat) by (by eapply lookup_lt_Some). cbn [rd_main set_fsm set_main]. unfold l. rewrite list_lookup_insert_ne by (unfold n, zlen; lia). by rewrite lookup_app_l.
  - done.
  - unfold l. replace (length (rd_main r)) with (Z.to_nat n) by (unfold n, zlen; lia). apply list_lookup_insert_eq. unfold n, zlen. rewrite length_app, length_replicate. lia.
Qed.

(** The block that RecordAndGetPageWithFreeSpace returns has the category. *)
Lemma record_get_cat fsm blk avail needed c x : Forall fsm_page fsm -> fits fsm -> mapped blk -> 0 <= avail < 8192 -> 0 < needed <= 8160 -> fsm_space_needed_to_cat needed = Ok c ->
  RecordAndGetPageWithFreeSpace fsm blk avail needed = Ok x -> x.1 = InvalidBlockNumber \/ (block_of InvalidBlockNumber x.1 /\ c <= recorded x.2 x.1).
Proof.
  intros Hp Hf Hb Ha Hn Hc E. pose proof (record_and_get_ok fsm blk avail needed Hp Hf Hb Ha ltac:(lia)) as H. rewrite E in H. destruct H as ([?|(Hblk & r & Hr & Hle)] & fsm1 & Hst & Hk); [by left|].
  right. split; [done|]. rewrite get_recorded_ok in Hr; [|apply Hk|unfold InvalidBlockNumber in *; lia]. injection Hr as Hr.
  destruct (needed_total needed ltac:(lia)) as (c' & Hc' & Hiff). rewrite Hc in Hc'. injection Hc' as <-. destruct (Z.le_gt_cases c (recorded x.2 x.1)) as [|Hlt]; [done|]. exfalso.
  apply Hiff in Hlt; [|by apply recorded_byte, Hk]. lia.
Qed.

(** ** The loop *)

Definition bulk_left (bistate : option BulkInsertStateData) : Z :=
  match bistate with Some bi => if next_free bi =? InvalidBlockNumber then 0 else last_free bi - next_free bi + 1 | None => 0 end.

(** What RelationGetBufferForTuple returns: a page with room for [len] bytes *)
Definition page_found (r0 : RelationData) (len : Z) (x : Z * RelationData * option BulkInsertStateData) : Prop :=
  let '(buffer, r, bistate) := x in
  rel_ok r /\ bulk_ok (zlen (rd_main r)) bistate /\ rel_extends r0 r /\ rd_targblock r = buffer /\ 0 <= buffer < InvalidBlockNumber /\
  exists p, rd_main r !! Z.to_nat buffer = Some p /\ heap_ok p /\ len <= PageGetHeapFreeSpace p.

Section loop.
Context (r0 : RelationData) (q : request) (c : Z).
Abbreviation n0 := (zlen (rd_main r0)).
Context (Hsize : n0 <= 4294963713) (Hlen : rq_len q <= rq_target q) (Htarget : 0 < rq_target q <= 8160) (Hcat : fsm_space_needed_to_cat (rq_target q) = Ok c).
Context (Hpages : 1 <= rq_num_pages q) (Hwait : 0 <= rq_waitcount q) (Hmul : rq_num_pages q * (rq_waitcount q + 1) < 2 ^ 32).

Definition loop_inv (x : space_state) : Prop :=
  let '(r, bistate, t) := x in
  rel_ok r /\ zlen (rd_main r) = n0 /\ bulk_ok n0 bistate /\ (t = InvalidBlockNumber \/ block_of n0 t) /\ rel_extends r0 r.
Definition loop_measure (x : space_state) : nat :=
  let '(r, bistate, t) := x in
  if t =? InvalidBlockNumber then 1%nat else
  (2 + (if rq_use_fsm q then length (candidates (rd_fsm r) c t (length (rd_main r0))) else 0) + Z.to_nat (bulk_left bistate))%nat.
Lemma block_valid t : block_of n0 t -> (t =? InvalidBlockNumber) = false.
Proof using Hsize. unfold InvalidBlockNumber. lia. Qed.
Lemma set_fsm_ok r fsm : rel_ok r -> reachable fsm -> (forall b, zlen (rd_main r) <= b < 2 ^ 32 -> recorded fsm b = 0) -> rel_ok (set_fsm r fsm).
Proof using. intros [Hp _ Hs _] Hf Hw. by split. Qed.

(** The map tells of another block, or of none. *)
Lemma next_from_map r bistate t free : rel_ok r -> zlen (rd_main r) = n0 -> bulk_ok n0 bistate -> block_of n0 t -> rel_extends r0 r -> 0 <= free < rq_target q -> rq_use_fsm q = true ->
  returns (x ← RecordAndGetPageWithFreeSpace (rd_fsm r) t free (rq_target q); Ok (set_fsm r x.2, bistate, x.1))
    (fun s => loop_inv s /\ (loop_measure s < loop_measure (r, bistate, t))%nat).
Proof using Hsize Htarget Hcat.
  intros Hr Hn Hbi Ht Hext Hfree Hfsm. pose proof (rel_fsm r Hr) as Hreach. destruct (fsm_facts _ Hreach) as (Hp & _ & Hf). pose proof (zlen_nonneg (rd_main r0)) as Hn0.
  destruct (returns_eq _ _ (record_and_get_ok (rd_fsm r) t free (rq_target q) Hp Hf ltac:(lia) ltac:(lia) ltac:(lia))) as (x & E & Hx & fsm1 & Hst & Hk). rewrite E. bind. cbn [returns].
  pose proof (too_small free (rq_target q) c Hfree ltac:(lia) Hcat) as Hlt. destruct (needed_ok (rq_target q) c ltac:(lia) Hcat) as [Hc1 _].
  assert (Hrec : forall b, 0 <= b < 2 ^ 32 -> recorded x.2 b = if decide (b = t) then fsm_space_avail_to_cat free else recorded (rd_fsm r) b).
  { intros b Hb. rewrite (kept_recorded fsm1 x.2) by done. apply stored_recorded; (done || lia). }
  assert (Hw : forall b, zlen (rd_main r) <= b < 2 ^ 32 -> recorded x.2 b = 0) by (intros b Hb; rewrite Hrec by lia; rewrite decide_False by lia; by apply Hr).
  assert (Hblk : x.1 = InvalidBlockNumber \/ (block_of n0 x.1 /\ c <= recorded x.2 x.1)).
  { destruct (record_get_cat (rd_fsm r) t free (rq_target q) c x Hp Hf ltac:(lia) ltac:(lia) ltac:(lia) Hcat E) as [|[Hb Hge]]; [by left|]. right. split; [|done]. split; [lia|]. destruct (Z.lt_ge_cases x.1 n0); [done|].
    unfold InvalidBlockNumber in Hb. rewrite Hw in Hge by lia. lia. }
  split.
  - split; [apply set_fsm_ok; [done|exact (reach_record_get (rd_fsm r) t free (rq_target q) x Hreach ltac:(lia) ltac:(lia) ltac:(lia) E)|done]|]. split; [done|]. split; [done|]. split; [|done]. destruct Hblk as [|[? _]]; [by left|by right].
  - unfold loop_measure. cbn [rd_fsm set_fsm]. rewrite (block_valid t Ht), Hfsm. destruct Hblk as [->|[Hb Hge]]; [change (InvalidBlockNumber =? InvalidBlockNumber) with true; cbv iota; lia|].
    rewrite (block_valid _ Hb). enough (length (candidates x.2 c x.1 (length (rd_main r0))) < length (candidates (rd_fsm r) c t (length (rd_main r0))))%nat by lia.
    apply candidates_lt; [|done|done]. intros b Hbb Hcb. unfold zlen in *. rewrite Hrec in Hcb by lia. case_decide; [lia|done].
Qed.
(** The next block of a bulk extension *)
Lemma next_from_bulk r bi t free : rel_ok r -> zlen (rd_main r) = n0 -> bulk_ok n0 (Some bi) -> block_of n0 t -> rel_extends r0 r -> 0 <= free < rq_target q -> next_free bi <> InvalidBlockNumber ->
  returns (next_target q r (Some bi) t free) (fun s => loop_inv s /\ (loop_measure s < loop_measure (r, Some bi, t))%nat).
Proof using Hsize Htarget Hcat.
  intros Hr Hn Hbi Ht Hext Hfree Hnf. pose proof (rel_fsm r Hr) as Hreach. pose proof Hbi as (Hcur & Hae & [|[Hf Hl]]); [done|]. unfold next_target.
  replace (next_free bi =? InvalidBlockNumber) with false by lia. cbn [negb]. pose proof (too_small free (rq_target q) c Hfree ltac:(lia) Hcat) as Hlt.
  eapply (returns_bind _ _ (fun fsm => reachable fsm /\ forall b, 0 <= b < 2 ^ 32 -> recorded fsm b = if decide (b = t /\ rq_use_fsm q = true) then fsm_space_avail_to_cat free else recorded (rd_fsm r) b)).
  { destruct (rq_use_fsm q); [|split; [done|]; intros b _; by rewrite decide_False by (by intros [_ ?])]. eapply returns_mono; [apply record_reachable; [done|lia|lia]|].
    intros fsm [Hr' Hrec]. split; [done|]. intros b Hb. rewrite Hrec by done. destruct (decide (b = t)); [by rewrite decide_True|by rewrite decide_False by (by intros [? _])]. }
  intros fsm [Hr' Hrec]. cbn [returns]. assert (Hnext : block_of n0 (next_free bi)) by lia. split.
  - split; [apply set_fsm_ok; [done|done|]; intros b Hb; rewrite Hrec by lia; rewrite decide_False by lia; by apply Hr|]. split; [done|]. split; [|split; [by right|done]].
    cbn [bulk_ok current_buf next_free last_free already_extended_by]. split; [done|]. split; [done|]. rewrite Z.geb_leb. destruct (Z.leb_spec (last_free bi) (next_free bi)); [by left|].
    right. unfold wrap32. rewrite Z.mod_small by lia. lia.
  - unfold loop_measure. cbn [rd_fsm set_fsm]. rewrite (block_valid t Ht), (block_valid _ Hnext). cbn [bulk_left next_free last_free]. replace (next_free bi =? InvalidBlockNumber) with false by lia.
    assert (Hb : bulk_left (Some {| current_buf := current_buf bi; next_free := if next_free bi >=? last_free bi then InvalidBlockNumber else wrap32 (next_free bi + 1);
      last_free := if next_free bi >=? last_free bi then InvalidBlockNumber else last_free bi; already_extended_by := already_extended_by bi |}) = last_free bi - next_free bi).
    { cbn [bulk_left next_free last_free]. rewrite Z.geb_leb. destruct (Z.leb_spec (last_free bi) (next_free bi)); [change (InvalidBlockNumber =? InvalidBlockNumber) with true; cbv iota; lia|].
      unfold wrap32. rewrite Z.mod_small by lia. unfold InvalidBlockNumber. replace (next_free bi + 1 =? 4294967295) with false by lia. lia. }
    cbn [bulk_left next_free last_free] in Hb. rewrite Hb. enough (Hc : ((if rq_use_fsm q then length (candidates fsm c (next_free bi) (length (rd_main r0))) else 0) <=
      (if rq_use_fsm q then length (candidates (rd_fsm r) c t (length (rd_main r0))) else 0))%nat) by lia.
    destruct (rq_use_fsm q); [|done]. apply candidates_le. intros b Hbb Hcb _. unfold zlen in *. rewrite Hrec in Hcb by lia. case_decide as E; [lia|]. split; [done|]. intros ->. by apply E.
Qed.
Lemma next_target_ok r bistate t free : rel_ok r -> zlen (rd_main r) = n0 -> bulk_ok n0 bistate -> block_of n0 t -> rel_extends r0 r -> 0 <= free < rq_target q ->
  returns (next_target q r bistate t free) (fun s => loop_inv s /\ (loop_measure s < loop_measure (r, bistate, t))%nat).
Proof using Hsize Htarget Hcat.
  intros Hr Hn Hbi Ht Hext Hfree.
  assert (Hplain : returns (if negb (rq_use_fsm q) then Ok (r, bistate, InvalidBlockNumber) else x ← RecordAndGetPageWithFreeSpace (rd_fsm r) t free (rq_target q); Ok (set_fsm r x.2, bistate, x.1))
    (fun s => loop_inv s /\ (loop_measure s < loop_measure (r, bistate, t))%nat)).
  { destruct (rq_use_fsm q) eqn:Ef; cbn [negb]; [by apply next_from_map|]. split; [split_and!; try done; by left|]. unfold loop_measure. rewrite (block_valid t Ht).
    change (InvalidBlockNumber =? InvalidBlockNumber) with true. cbv iota. lia. }
  destruct bistate as [bi|]; [|exact Hplain]. destruct (Z.eqb_spec (next_free bi) InvalidBlockNumber) as [E|E]; [|by apply next_from_bulk].
  unfold next_target. rewrite E. change (InvalidBlockNumber =? InvalidBlockNumber) with true. exact Hplain.
Qed.
(** The block that is read is the one asked for; a page that is new is initialized. *)
Lemma read_ok r bistate t : zlen (rd_main r) = n0 -> bulk_ok n0 bistate -> block_of n0 t ->
  returns (match rq_other q with
           | None => ReadBufferBI r t bistate
           | Some otherBlock => if otherBlock =? t then Ok (otherBlock, bistate) else b ← ReadBuffer r t; Ok (b, bistate)
           end) (fun x => x.1 = t /\ bulk_ok n0 x.2 /\ bulk_left x.2 = bulk_left bistate).
Proof using.
  intros Hn Hbi Ht. assert (Hrd : ReadBuffer r t = Ok t) by (unfold ReadBuffer; by replace (t <? zlen (rd_main r)) with true by lia). destruct (rq_other q) as [o|].
  - destruct (Z.eqb_spec o t) as [->|]; [done|]. rewrite Hrd. done.
  - unfold ReadBufferBI. destruct bistate as [bi|]; [|by rewrite Hrd]. destruct Hbi as (Hc & Ha & Hnf).
    assert (Hset : bulk_ok n0 (Some (set_current bi (Some t)))) by (split; [by intros b [= <-]|done]).
    destruct (current_buf bi) as [cur|] eqn:Ec; [destruct (Z.eqb_spec cur t) as [->|]|]; rewrite ?Hrd; (split; [done|]); (split; [|done]); [|exact Hset..]. split; [by rewrite Ec|done].
Qed.
Lemma initialized_ok r t p : rel_ok r -> zlen (rd_main r) = n0 -> rel_extends r0 r -> rd_main r !! Z.to_nat t = Some p -> main_page p ->
  let '(p', r') := if PageIsNew p then (PageInit BLCKSZ 0, set_main r (<[Z.to_nat t := PageInit BLCKSZ 0]> (rd_main r))) else (p, r) in
  heap_ok p' /\ rd_main r' !! Z.to_nat t = Some p' /\ rel_ok r' /\ zlen (rd_main r') = n0 /\ rel_extends r0 r' /\ rd_fsm r' = rd_fsm r.
Proof using.
  intros Hr Hn Hext Hat Hp. apply main_page_cases in Hp. destruct (PageIsNew p); [subst p|done]. assert (Hz : zlen (<[Z.to_nat t := PageInit BLCKSZ 0]> (rd_main r)) = zlen (rd_main r)) by (unfold zlen; by rewrite length_insert).
  split; [apply init_page_ok|]. cbn [rd_main set_main rd_fsm]. split; [apply list_lookup_insert_eq; by eapply lookup_lt_Some|]. split; [|split; [lia|split; [|done]]].
  - destruct Hr as [H1 H2 H3 H4]. split; cbn [rd_main set_main rd_fsm]; rewrite ?Hz; try done. apply Forall_insert; [done|right; apply init_page_ok].
  - eapply extends_trans; [exact Hext|]. intros i p Hi. cbn [rd_main set_main]. destruct (decide (i = Z.to_nat t)) as [->|].
    + right. rewrite Hat in Hi. injection Hi as <-. split; [done|]. apply list_lookup_insert_eq. by eapply lookup_lt_Some.
    + left. by rewrite list_lookup_insert_ne.
Qed.
Lemma target_ok r t : rel_ok r -> rel_ok (RelationSetTargetBlock r t).
Proof using. by intros []. Qed.
Lemma heap_space_nonneg p : heap_ok p -> 0 <= PageGetHeapFreeSpace p.
Proof using. intros _. unfold PageGetHeapFreeSpace, PageGetFreeSpace. cbv zeta. destruct (Z.ltb_spec (pd_upper p - pd_lower p) sizeof_ItemIdData); repeat case_match; lia. Qed.

Lemma body_ok x : loop_inv x -> returns (buffer_body q x) (fun y => match y with inl x' => loop_inv x' /\ (loop_measure x' < loop_measure x)%nat | inr z => page_found r0 (rq_len q) z end).
Proof using Hsize Hlen Htarget Hcat Hpages Hwait Hmul.
  destruct x as [[r bistate] t]. intros (Hr & Hn & Hbi & Ht & Hext). unfold buffer_body. destruct Ht as [->|Ht].
  - change (negb (InvalidBlockNumber =? InvalidBlockNumber)) with false. cbv iota. unfold extend_for_tuple. eapply returns_bind; [apply add_blocks_ok; try done; [by rewrite Hn|lia]|].
    intros [[[b u] r'] bi'] (Hr' & Hbi' & Hext' & -> & Hat). assert (Hb : Z.to_nat (zlen (rd_main r)) = length (rd_main r)) by (unfold zlen; lia).
    assert (Hpg : heap_page r' (zlen (rd_main r)) = Ok (PageInit BLCKSZ 0)) by (unfold heap_page; by rewrite Hb, Hat). rewrite Hpg. bind. rewrite init_page_space.
    replace (rq_len q >? 8164) with false by lia. cbn [returns]. split; [by apply target_ok|]. split; [done|]. split; [by eapply extends_trans|]. split; [done|].
    split; [pose proof (zlen_nonneg (rd_main r)); unfold InvalidBlockNumber; lia|]. exists (PageInit BLCKSZ 0). cbn [rd_main RelationSetTargetBlock]. rewrite Hb, init_page_space. split; [done|]. split; [apply init_page_ok|lia].
  - rewrite (block_valid t Ht). cbn [negb]. eapply returns_bind; [by apply read_ok|]. intros [b bi'] (Hb & Hbi' & Hleft). cbn [fst snd] in *. subst b.
    destruct (block_page r t Hr ltac:(lia)) as (p & Hpg & Hat & Hmp). rewrite Hpg. bind. pose proof (initialized_ok r t p Hr Hn Hext Hat Hmp) as Hi.
    destruct (if PageIsNew p then _ else _) as [p' r']. destruct Hi as (Hok & Hat' & Hr' & Hn' & Hext' & Hfsm). pose proof (heap_space_nonneg p' Hok) as Hsp.
    destruct (Z.leb_spec (rq_target q) (PageGetHeapFreeSpace p')) as [Hge|Hlt].
    + cbn [returns]. split; [by apply target_ok|]. split; [cbn [rd_main RelationSetTargetBlock]; by rewrite Hn'|]. split; [done|]. split; [done|]. split; [unfold InvalidBlockNumber; lia|].
      exists p'. cbn [rd_main RelationSetTargetBlock]. split; [done|]. split; [done|lia].
    + eapply returns_bind; [by apply next_target_ok|]. intros s [Hs Hm]. cbn [returns]. split; [done|]. unfold loop_measure in Hm at 2. rewrite (block_valid t Ht), Hfsm, Hleft in Hm. unfold loop_measure at 2. by rewrite (block_valid t Ht).
Qed.
Lemma loop_ok bistate t r fuel : loop_inv (r, bistate, t) -> (2 * length (rd_main r0) + 3 <= fuel)%nat -> returns (iter fuel (buffer_body q) (r, bistate, t)) (page_found r0 (rq_len q)).
Proof using Hsize Hlen Htarget Hcat Hpages Hwait Hmul.
  intros Hinv Hfuel. apply (iter_returns loop_inv loop_measure); [exact body_ok|done|]. destruct Hinv as (_ & _ & Hbi & _). unfold loop_measure. destruct (t =? InvalidBlockNumber); [lia|].
  assert (Hl : (Z.to_nat (bulk_left bistate) <= length (rd_main r0))%nat).
  { unfold bulk_left. destruct bistate as [bi|]; [|lia]. destruct Hbi as (_ & _ & [->|Hb]); [change (InvalidBlockNumber =? InvalidBlockNumber) with true; lia|]. unfold zlen in Hb. destruct (_ =? _); lia. }
  pose proof (candidates_bound (rd_fsm r) c t (length (rd_main r0))). destruct (rq_use_fsm q); lia.
Qed.
End loop.

(** ** RelationGetBufferForTuple *)

(** What the caller has: a relation of a size that can still grow, and counts that fit in 32 bits *)
Record space_request (r : RelationData) (bistate : option BulkInsertStateData) (num_pages waitcount : Z) : Prop := {
  sr_rel : rel_ok r;
  sr_bulk : bulk_ok (zlen (rd_main r)) bistate;
  sr_target : rd_targblock r = InvalidBlockNumber \/ block_of (zlen (rd_main r)) (rd_targblock r);
  sr_size : zlen (rd_main r) <= 4294963713;
  sr_fill : forall ff, rd_fillfactor r = Some ff -> 10 <= ff <= 100;
  sr_wait : 0 <= waitcount;
  sr_pages : Z.max 1 num_pages * (waitcount + 1) < 2 ^ 32
}.

Lemma get_buffer_ok r len other options bistate num_pages waitcount max_pins : space_request r bistate num_pages waitcount -> 0 < len -> MAXALIGN len <= 8160 ->
  returns (RelationGetBufferForTuple r len other options bistate num_pages waitcount max_pins) (page_found r (MAXALIGN len)).
Proof.
  intros [Hr Hbi Ht Hs Hff Hw Hp] Hl Hal. pose proof (maxalign_bounds len) as [Hma _]. unfold RelationGetBufferForTuple. cbv zeta. change MaxHeapTupleSize with 8160. change nearlyEmptyFreeSpace with 8016.
  replace (MAXALIGN len >? 8160) with false by lia. replace (if num_pages <=? 0 then 1 else num_pages) with (Z.max 1 num_pages) by (destruct (Z.leb_spec num_pages 0); lia). set (use_fsm := Z.land options HEAP_INSERT_SKIP_FSM =? 0). set (save := RelationGetTargetPageFreeSpace r HEAP_DEFAULT_FILLFACTOR).
  assert (Hsave : 0 <= save).
  { unfold save, RelationGetTargetPageFreeSpace, RelationGetFillFactor, BLCKSZ, HEAP_DEFAULT_FILLFACTOR. destruct (rd_fillfactor r) as [ff|]; [|done]. specialize (Hff ff eq_refl). cbn. Z.div_mod_to_equations. lia. }
  set (target := if MAXALIGN len + save >? 8016 then _ else _). assert (Htg : MAXALIGN len <= target <= 8160) by (unfold target; destruct (Z.gtb_spec (MAXALIGN len + save) 8016); lia).
  destruct (needed_total target ltac:(lia)) as (c & Hc & _). clearbody target. set (t0 := match bistate with Some _ => _ | None => _ end).
  assert (Ht0 : t0 = InvalidBlockNumber \/ block_of (zlen (rd_main r)) t0).
  { unfold t0. destruct bistate as [bi|]; [|done]. destruct (current_buf bi) eqn:E; [|done]. right. by apply Hbi. }
  clearbody t0. eapply (returns_bind _ _ (fun x => (x.1 = InvalidBlockNumber \/ block_of (zlen (rd_main r)) x.1) /\ exists fsm, x.2 = set_fsm r fsm /\ rel_ok (set_fsm r fsm))).
  { destruct (_ && use_fsm); [|split; [done|]; exists (rd_fsm r); destruct r; done]. eapply returns_bind; [apply (get_reachable _ _ c); [apply Hr|lia|done]|].
    intros x (Hreach & Hrec & Hx). assert (Hout : forall b, zlen (rd_main r) <= b < 2 ^ 32 -> recorded x.2 b = 0) by (intros b Hb; pose proof (zlen_nonneg (rd_main r)); rewrite Hrec by lia; by apply Hr).
    cbn [returns fst snd]. split; [|exists x.2; split; [done|by apply set_fsm_ok]]. destruct Hx as [|[Hb Hge]]; [by left|right]. split; [lia|]. destruct (Z.lt_ge_cases x.1 (zlen (rd_main r))); [done|].
    unfold InvalidBlockNumber in Hb. rewrite Hout in Hge by lia. destruct (needed_ok target c ltac:(lia) Hc). lia. }
  intros [t1 r1] (Ht1 & fsm & Hr1 & Hok1). cbn [fst snd] in *. subst r1. cbn [rd_main set_fsm].
  match goal with |- context [buffer_body ?q] => set (rq := q) end.
  apply (loop_ok r rq c); cbn [rq rq_len rq_target rq_num_pages rq_waitcount]; try done; try lia.
  split; [done|]. split; [done|]. split; [done|]. split; [|intros i p Hi; by left]. destruct Ht1 as [->|Ht1].
  - change (InvalidBlockNumber =? InvalidBlockNumber) with true. cbv iota. unfold RelationGetNumberOfBlocks. cbn [rd_main set_fsm]. destruct (Z.gtb_spec (zlen (rd_main r)) 0); [right; lia|by left].
  - destruct (Z.eqb_spec t1 InvalidBlockNumber); [unfold InvalidBlockNumber in *; lia|by right].
Qed.

(** C15: A page for a tuple is always found: with or without the free space map, and whatever that map says of the blocks of the relation, the loop ends, no block after the
    end of the relation is read, the page has room for the tuple, and the pages that were there are kept.  A tuple that fits on no page is an error. *)
Theorem heap_page_found r len other options bistate num_pages waitcount max_pins :
  space_request r bistate num_pages waitcount -> 0 < len ->
  (MAXALIGN len <= 8160 -> returns (RelationGetBufferForTuple r len other options bistate num_pages waitcount max_pins) (page_found r (MAXALIGN len))) /\
  (8160 < MAXALIGN len -> RelationGetBufferForTuple r len other options bistate num_pages waitcount max_pins = Ereport ERRCODE_PROGRAM_LIMIT_EXCEEDED).
Proof.
  intros Hr Hl. split; intros Hs; [by apply get_buffer_ok|]. unfold RelationGetBufferForTuple. cbv zeta. change MaxHeapTupleSize with 8160. by replace (MAXALIGN len >? 8160) with true by lia.
Qed.

(** ** heap_insert *)

(** Every item on every page is where it was. *)
Definition rows_kept (r r' : RelationData) : Prop :=
  forall i p, rd_main r !! i = Some p -> exists p', rd_main r' !! i = Some p' /\ forall j s, PageOps.slots p !! j = Some s -> s <> Unused -> PageOps.slots p' !! j = Some s.

(** The chosen page gets the tuple. *)
Lemma put_into_ok E desc r r1 tup cs token relid buffer p : tuple_holds E desc tup cs -> header_fits (t_data tup) -> t_len tup = zlen (header_bytes (t_data tup)) ->
  rel_ok r1 -> rel_extends r r1 -> 0 <= buffer < InvalidBlockNumber -> rd_main r1 !! Z.to_nat buffer = Some p -> heap_ok p -> MAXALIGN (t_len tup) <= PageGetHeapFreeSpace p ->
  exists n p1, RelationPutHeapTuple p buffer tup token = Ok (p1, mkTuple (t_len tup) (buffer, n) (t_tableOid tup) (t_data tup)) /\
    let p2 := if PageIsAllVisible p1 then PageClearAllVisible p1 else p1 in
    let r2 := set_main r1 (<[Z.to_nat buffer := p2]> (rd_main r1)) in
    heap_page r2 buffer = Ok p2 /\ rel_ok r2 /\ rows_kept r r2 /\ zlen (rd_main r2) = zlen (rd_main r1) /\
    exists tup', heap_fetch p2 relid (buffer, n) = Ok (Some tup') /\ tuple_holds E desc tup' cs /\ t_self tup' = (buffer, n).
Proof.
  intros Ht Hfits Hlen Hr Hext Hb Hat [Hwf Hmax] Hroom. assert (Hsmall : t_len tup < 2 ^ 31 - 8).
  { pose proof (heap_space_bound p Hwf). pose proof (maxalign_bounds (t_len tup)). unfold BLCKSZ in *. lia. }
  destruct (put_ok p buffer tup token Hwf Hmax Hfits Hlen Hsmall Hroom) as (n & p1 & Hput & Hn & Hwf1 & Hmax1 & Hslot & Hold). exists n, p1. split; [done|]. cbv zeta.
  set (p2 := if PageIsAllVisible p1 then _ else _). assert (page_wf p2 /\ PageOps.slots p2 = PageOps.slots p1) as [Hwf2 Hsl2] by (unfold p2; destruct (PageIsAllVisible p1); [by apply set_flags_wf|done]).
  assert (Hlt : (Z.to_nat buffer < length (rd_main r1))%nat) by (by eapply lookup_lt_Some). assert (Hz : zlen (<[Z.to_nat buffer := p2]> (rd_main r1)) = zlen (rd_main r1)) by (unfold zlen; by rewrite length_insert).
  split; [unfold heap_page; cbn [rd_main set_main]; by rewrite list_lookup_insert_eq|]. split; [|split; [|split; [done|]]].
  - destruct Hr as [H1 H2 H3 H4]. split; cbn [rd_main set_main rd_fsm]; rewrite ?Hz; try done. apply Forall_insert; [done|]. right. split; [done|by rewrite Hsl2].
  - intros i p0 Hi. cbn [rd_main set_main]. assert (Hp0 : exists p0', rd_main r1 !! i = Some p0' /\ (p0' = p0 \/ p0 = new_page)) by (destruct (Hext i p0 Hi) as [?|[? ?]]; eauto).
    destruct Hp0 as (p0' & Hi1 & Hcase). destruct (decide (i = Z.to_nat buffer)) as [->|].
    + exists p2. rewrite list_lookup_insert_eq by done. split; [done|]. intros j s Hj Hs. rewrite Hsl2. rewrite Hat in Hi1. injection Hi1 as <-. destruct Hcase as [->| ->]; [by apply Hold|done].
    + exists p0'. rewrite list_lookup_insert_ne by done. split; [done|]. intros j s Hj _. by destruct Hcase as [->| ->].
  - set (td := put_header (t_data tup) (buffer, n) token) in *. pose proof (put_header_fits (t_data tup) (buffer, n) token Hfits) as Hfd. fold td in Hfd.
    rewrite <- Hsl2 in Hslot. rewrite (fetch_slot_ok p2 relid buffer n td Hwf2 ltac:(lia) Hslot Hfd). eexists. split; [done|]. split; [|done].
    pose proof (put_header_holds _ _ _ _ (buffer, n) token Ht) as Hh. apply (header_word_holds _ _ _ _ (zlen (header_bytes td)) (buffer, n) relid Hh).
    cbn [t_len]. rewrite Hlen, !header_len by done. unfold td. by destruct token.
Qed.

(** C3: A row is inserted where there is no page for it yet.  heap_insert toasts the row, finds a page or adds one to the relation, and puts the row there: it returns, the row is
    read back from the position it returns, all rows of the relation are where they were, and the relation and its map are ready for the next one.  The conditions are that each
    column's compression method can be applied to its value and there are unused value ids ([updatable]), that the relation and its map are well formed and the relation may still
    grow by the largest extension ([space_request]), and that the toasted row is not too wide for a page. *)
Theorem heap_insert_into_correct E rel relkind relid r bistate tup cs xid cid options waitcount max_pins :
  updatable E rel tup None cs -> space_request r bistate 0 waitcount ->
  (forall tup' st d, heap_prepare_insert E rel relkind relid false tup xid cid options = Ok (tup', st, d) -> MAXALIGN (t_len tup') <= 8160) ->
  returns (x ← heap_insert_into E rel relkind relid r bistate tup xid cid options waitcount max_pins;
           let '(r', bistate', tid, st) := x in
           p ← heap_page r' (fst tid);
           t ← heap_fetch p relid tid;
           Ok (r', bistate', tid, st, t)) (fun '(r', bistate', tid, st, t) =>
    (exists tup', t = Some tup' /\ tuple_holds (with_store E st) (rd_att rel) tup' cs /\ t_self tup' = tid) /\
    rel_ok r' /\ bulk_ok (zlen (rd_main r')) bistate' /\ rows_kept r r' /\ store_ok st /\ (forall tp ext, stored (e_store E) tp ext -> stored st tp ext)).
Proof.
  intros Hup Hreq Hsize. unfold heap_insert_into. pose proof (prepare_ok E rel relkind relid tup cs xid cid options Hup) as Hprep.
  destruct (heap_prepare_insert E rel relkind relid false tup xid cid options) as [[[tup' st] d]| | |]; try done.
  specialize (Hsize tup' st d eq_refl). destruct Hprep as (Ht & Hfits & Hlen & Hst & Hkeep). bind.
  assert (Hpos : 0 < t_len tup') by (rewrite Hlen, header_len by done; destruct Hfits as (_ & Hh & _); pose proof (zlen_nonneg (t_bits (t_data tup'))); pose proof (zlen_nonneg (t_body (t_data tup'))); unfold SizeofHeapTupleHeader in Hh; lia).
  destruct (returns_eq _ _ (get_buffer_ok r (t_len tup') None options bistate 0 waitcount max_pins Hreq Hpos Hsize)) as ([[buffer r1] bi1] & -> & Hr1 & Hbi1 & Hext & _ & Hb & p & Hat & Hok & Hroom).
  bind. assert (Hpg : heap_page r1 buffer = Ok p) by (unfold heap_page; by rewrite Hat). rewrite Hpg. bind.
  destruct (put_into_ok (with_store E st) (rd_att rel) r r1 tup' cs (negb (Z.land options HEAP_INSERT_SPECULATIVE =? 0)) relid buffer p Ht Hfits Hlen Hr1 Hext Hb Hat Hok Hroom)
    as (n & p1 & -> & Hpg2 & Hr2 & Hrows & Hz & tup2 & Hfetch & Hh & Hself).
  bind. cbn [t_self fst]. rewrite Hpg2. bind. rewrite Hfetch. bind. split; [by exists tup2|]. rewrite Hz. by split_and!.
Qed.

(** ** The block that an extension adds last *)

Lemma zero_root p : fsm_ok p -> (forall j, 0 <= j -> leaf p j = 0) -> node p 0 = 0.
Proof.
  intros Hp Hz. pose proof (node_byte p (fsm_ok_page p Hp) 0) as Hb. unfold is_byte in Hb. destruct (Z.le_gt_cases 1 (node p 0)) as [H|]; [|lia]. exfalso.
  apply (proj1 (room_below p 1 Hp 12 1 ltac:(simpl; lia))) in H as (j & Hj & Hl). simpl in Hj. rewrite Hz in Hl by lia. lia.
Qed.

(** C37: FreeSpaceMapVacuumRange takes the end of its range as exclusive, and RelationAddBlocks passes the last block: when one block is added for later use, the upper levels of
    the map never hear of it.  The map then records all of a page as free, and no search finds it. *)
Theorem added_block_not_found r max_pins needed :
  rd_fsm r = [] -> zlen (rd_main r) <= 4294963713 -> 2 <= max_pins -> 0 <= needed <= 8160 ->
  returns (RelationAddBlocks r None 2 true 0 max_pins) (fun '(_, _, r', _) =>
    GetRecordedFreeSpace (rd_fsm r') (zlen (rd_main r) + 1) = Ok 8160 /\
    returns (GetPageWithFreeSpace (rd_fsm r') needed) (fun x => x.1 = InvalidBlockNumber)).
Proof.
  intros Hfsm Hs Hmp Hn. pose proof (zlen_nonneg (rd_main r)) as Hz. unfold RelationAddBlocks. cbv zeta. change (extend_by_how_many None 2 true 0) with 2.
  unfold ExtendBufferedRelBy, LimitAdditionalPins. change (2 <=? 1) with false. cbv iota zeta. replace (max_pins <=? 0) with false by lia. replace (2 >? max_pins) with false by lia.
  set (n := zlen (rd_main r)) in *. replace (n + 2 >=? MaxBlockNumber) with false by (unfold MaxBlockNumber; lia). bind. unfold heap_page. cbn [rd_main set_main rd_fsm].
  rewrite lookup_app_r by (unfold n, zlen; lia). replace (Z.to_nat n - length (rd_main r))%nat with 0%nat by (unfold n, zlen; lia). cbn [Z.to_nat Pos.to_nat Pos.iter_op Nat.add replicate lookup list_lookup]. bind.
  change (negb (PageIsNew new_page)) with false. cbv iota. change ((2 >? 1) && true) with true. cbv iota. change (Z.to_nat (2 - 1)) with 1%nat. cbn [record_added]. rewrite Hfsm. change (1 >=? 1) with true. cbv iota.
  change (BLCKSZ - SizeOfPageHeaderData) with 8168. unfold wrap32. rewrite Z.mod_small by lia.
  destruct (returns_eq _ _ (record_ok [] (n + 1) 8168 (Forall_nil_2 _) ltac:(lia) ltac:(lia))) as (fsm & -> & Hst). bind. change (true && (1 <? 2)) with true. cbv iota.
  unfold FreeSpaceMapVacuumRange. replace (n + (2 - 1) >? n + 1) with false by lia. bind. cbn [returns]. pose proof Hst as (Hp & Hok & Hsl & _).
  split; match goal with |- context [set_fsm ?r fsm] => change (rd_fsm (set_fsm r fsm)) with fsm end.
  - rewrite get_recorded_ok by (done || lia). rewrite (stored_recorded [] (n + 1) _ fsm (n + 1) (Forall_nil_2 _) ltac:(lia) ltac:(lia) Hst). by rewrite decide_True.
  - destruct (needed_total needed Hn) as (c & Hc & _). destruct (needed_ok needed c ltac:(lia) Hc) as [Hc1 _]. unfold GetPageWithFreeSpace. rewrite Hc. bind.
    specialize (Hok (Forall_nil_2 _)). apply search_none; [done|lia|]. unfold root. rewrite zero_root; [lia|by apply page_at_ok|]. intros j Hj.
    destruct (location_ok (n + 1) ltac:(lia)) as (_ & Hl & _). change (cat fsm FSM_ROOT_ADDRESS j = 0). rewrite (slots_cat [] fsm FSM_ROOT_ADDRESS FSM_ROOT_ADDRESS j); [|rewrite Hsl by apply root_vaddr|done].
    + apply missing_cat. done.
    + rewrite decide_False; [done|]. intros E. rewrite <- E in Hl. done.
Qed.

(** ** Examples *)

(** Two pages, the first not initialized, and no free space map yet *)
Definition young_rel : RelationData :=
  {| rd_main := [new_page; PageInit BLCKSZ 0]; rd_fsm := []; rd_targblock := 0; rd_fillfactor := Some 90 |}.
Lemma young_request : space_request young_rel None 0 0.
Proof.
  split; [|done|right; change (zlen (rd_main young_rel)) with 2; cbn [rd_targblock young_rel]; lia|change (zlen (rd_main young_rel)) with 2; lia|intros ff [= <-]; lia|lia|lia].
  split; [|constructor|change (zlen (rd_main young_rel)) with 2; lia|intros blk Hb; apply missing_recorded].
  - constructor; [by left|]. constructor; [right; apply init_page_ok|done].
  - change (zlen (rd_fsm young_rel)) with 0. change (zlen (rd_main young_rel)) with 2 in Hb. destruct (location_ok blk ltac:(lia)) as (Ha & _). pose proof (phys_range _ Ha). lia.
Qed.

Lemma heap_page_found_witness : returns (RelationGetBufferForTuple young_rel 8000 None 0 None 0 0 16) (page_found young_rel 8000).
Proof. refine (proj1 (heap_page_found young_rel 8000 None 0 None 0 0 16 young_request _) _); [lia|]. change (MAXALIGN 8000) with 8000. lia. Defined.

Lemma heap_insert_into_correct_witness : exists r' bistate' tid st,
  heap_insert_into sample_env sample_rel RELKIND_RELATION 16384 young_rel None big_tuple 740 0 0 0 16 = Ok (r', bistate', tid, st) /\ rel_ok r' /\ rows_kept young_rel r'.
Proof.
  assert (Hp : (x ← heap_prepare_insert sample_env sample_rel RELKIND_RELATION 16384 false big_tuple 740 0 0; Ok (MAXALIGN (t_len (fst (fst x))) <=? 8160)) = Ok true) by (vm_compute; reflexivity).
  assert (Hroom : forall t s d, heap_prepare_insert sample_env sample_rel RELKIND_RELATION 16384 false big_tuple 740 0 0 = Ok (t, s, d) -> MAXALIGN (t_len t) <= 8160).
  { intros t s d Heq. rewrite Heq in Hp. cbn [mbind res_bind fst] in Hp. injection Hp as Hp. apply Z.leb_le. exact Hp. }
  pose proof (heap_insert_into_correct sample_env sample_rel RELKIND_RELATION 16384 young_rel None big_tuple big_contents 740 0 0 0 16 big_updatable young_request Hroom) as H.
  apply returns_eq in H as (x & Heq & H). apply res_bind_Ok in Heq as ([[[r' bi] tid] st] & Hi & Heq). apply res_bind_Ok in Heq as (p & _ & Heq). apply res_bind_Ok in Heq as (t & _ & Heq).
  injection Heq as <-. exists r', bi, tid, st. split; [exact Hi|]. destruct H as (_ & Hr & _ & Hrows & _). split; [exact Hr|exact Hrows].
Defined.

Lemma added_block_not_found_witness : returns (RelationAddBlocks young_rel None 2 true 0 16) (fun '(_, _, r', _) =>
  GetRecordedFreeSpace (rd_fsm r') 3 = Ok 8160 /\ returns (GetPageWithFreeSpace (rd_fsm r') 100) (fun x => x.1 = InvalidBlockNumber)).
Proof. refine (added_block_not_found young_rel 16 100 eq_refl _ _ _); [change (zlen (rd_main young_rel)) with 2; lia|lia|lia]. Defined.
